(* ===== verification/_CoqProject ===== *)
-Q . S2P
Prelude.v
Packet.v
Platform.v
HexUtil.v
Collections.v
EventQueue.v
ThreadQueue.v
CompletionEvent.v
KeepAlive.v
DnsMultiResolver.v
Dns.v
LibeventDns.v
LocalIp.v
Cbor.v
Rendezvous.v
ClientConnection.v
Attacher.v
AttacherProofs.v
Policies.v
PoliciesJson.v
Iam.v
IamJson.v
AppFiles.v
TunnelApp.v
Stun.v
Stream.v
StreamManager.v
Futures.v
ListenLoop.v
Tunnel.v
Payloads.v
Spake2.v
Dtls.v
DtlsServer.v
DtlsClient.v
Authorization.v
ApiStream.v
Device.v
DeviceApi.v
CoapServer.v
CoapClient.v
ApiCoap.v
Udp.v
RawKey.v
SelectSockets.v
Logging.v
DtlsConfig.v
Events.v
Passwords.v
Access.v
Resources.v
UdpDispatch.v
SelectUnix.v
Libevent.v
Mdns.v
