(* ===== verification/Prelude.v ===== *)
(** * Nabto Embedded SDK: verification library

    A model of the Nabto Embedded SDK - the C library that makes a device reachable for its
    clients through the Nabto basestation - and the theorems that make its parts correct.

    ** The program

    A device attaches to a basestation (src/core/nc_attacher.c): it looks up the host, connects
    with DTLS, sends the CoAP requests of the attach, and stays attached while keep alive packets
    are answered. Clients then find the device: the basestation tells it where a client is, and
    the device sends rendezvous packets there; STUN tells the device its own address. A
    client connection is a DTLS connection inside packets with a connection id
    (nc_client_connection.c); it carries CoAP requests, streams and keep alive packets. On top
    are password authentication, access management (modules/iam, modules/policies), TCP tunnels
    (modules/tcp_tunnel), and the API with its futures (src/api). Everything runs as events of one
    queue, one at a time, so a component is a state and one handler per callback.

    ** How the code is modelled

    - A struct is a [Record] with the fields of the struct (a pointer that is only compared with
      NULL is a [bool] or an [option]); an enum is an [Inductive] with the same constructors; a
      function has the name of the C function.
    - A function that changes state is a [handler S E A]: it maps a state to a result, the next
      state and the list of the calls it makes to other components, in order. Callbacks the
      component registers are handlers of their own; the answers of another component are
      arguments. [exec], [trace] and [result] are the three parts of a run.
    - Undefined behaviour of C is [UB] of [cres]; a [uhandler] is a handler that may be undefined.
      Theorems that say a function returns [Def] say that it is defined.
    - An integer is a [Z] with its conversions written out ([u8] .. [u64], [to_int32]); bytes are
      [list Z]; strings of the user are [string] or the list of their codes.
    - A loop is structural where it can be. The search for a user id ([next_id] of Iam.v), the
      copies of stream data ([do_read_loop], [do_write_loop]), the events of a stream
      ([nc_stream_event]) and the merge of addresses ([merge_loop]) have fuel that is computed
      from the state, and theorems say that it is enough ([next_user_id_fresh],
      [stream_read_all_exact], [stream_write_exact], [stream_event_terminates],
      [dns_resolution_correct]). The ephemeral stream ports try ten numbers, as the code does. The
      event of the CoAP server calls itself after a send that completes at once: one unit of fuel
      per such send ([coap_server_serves] says what is enough). The loops that draw
      random letters have as much fuel as there are answers of the generator.
    - Code of a library is an interface: a class of operations, and a class of laws
      where a theorem needs them, with an instance that meets the laws: the collections of
      nabto-common ([LList], [StringSet], [StringMap] in Collections.v), tinycbor ([CborDec]),
      cJSON ([CJson] in PoliciesJson.v, [CJsonText] in AppFiles.v), strtod ([Strtod] in Policies.v), the STUN and stream libraries
      ([NabtoStun], [NabtoStream]), and mbedTLS ([Mbedtls] in Spake2.v for points, numbers and
      hashes, [MbedtlsSsl] in Dtls.v for connections, [KeyLibrary] in RawKey.v for keys), the CoAP server and client of nabto-common
      ([NabtoCoapServer] in CoapServer.v, [NabtoCoapClient] in CoapClient.v), and the packets
      of mDNS ([MdnsLibrary] in Mdns.v). The UDP interface of the platform is one too ([NpUdp] in
      Udp.v, with [NpUdpPort] for the functions of the dispatcher), with instances from both sets of
      sockets. What the
      operating system answers - to a call on a socket, a file, or the random generator - is an
      argument. mbedTLS calls back while it runs, so one of
      its calls is a program ([ssl_prog]) whose instructions are the callbacks, and the code of
      the SDK is run between them.

    ** The files

    - Prelude.v: integers, the handler monads and their lemmas, memory, tactics.
    - Packet.v: core/nc_packet.c, the integers of the packet format.
    - Platform.v: platform/np_error_code.h, np_ip_address.c, interfaces/np_udp.h.
    - HexUtil.v: platform/np_util.c.
    - Collections.v: the interfaces of nabto-common.
    - EventQueue.v: modules/event_queue, np_timestamp_wrapper.c.
    - ThreadQueue.v: the thread of the event queue, thread_event_queue.c, over EventQueue.v.
    - CompletionEvent.v: platform/np_completion_event.c.
    - KeepAlive.v: core/nc_keep_alive.c.
    - DnsMultiResolver.v: core/nc_dns_multi_resolver.c.
    - Dns.v: the resolver of modules/dns/unix with its thread, and the callback of libevent;
      LibeventDns.v: the lookups of modules/libevent around this callback.
    - LocalIp.v: modules/unix/nm_unix_local_ip.c, and the same for libevent.
    - Cbor.v: the interface of tinycbor, and the types of items.
    - Rendezvous.v: core/nc_rendezvous.c, nc_rendezvous_coap.c.
    - ClientConnection.v: core/nc_client_connection.c, nc_client_connection_dispatch.c,
      the choice of the component in nc_udp_dispatch.c, and the connection references of nc_device.c; it calls KeepAlive.v.
    - Attacher.v, AttacherProofs.v: core/nc_attacher*.c, nc_coap.c; calls KeepAlive.v.
    - Policies.v, PoliciesJson.v: modules/policies.
    - Iam.v: modules/iam; calls Policies.v.
    - Stun.v: core/nc_stun.c, nc_stun_coap.c.
    - Stream.v, StreamManager.v: core/nc_stream.c, nc_stream_manager.c.
    - Futures.v: api/nabto_device_future.c, nabto_device_future_queue.c,
      nabto_device_event_handler.c, nabto_device_events.c.
    - ListenLoop.v: the loop of a handler that listens (modules/iam/nm_iam_coap_handler.c) over Futures.v.
    - Tunnel.v: modules/tcp_tunnel.
    - Payloads.v: what the CoAP resources of the files before it encode.
    - Spake2.v: core/nc_spake2.c, nc_spake2_coap.c, api/nabto_device_password_authentication.c; its
      requests are counted in the connection of ClientConnection.v. Passwords.v has the listener of
      the API for these requests, over Futures.v.
    - Dtls.v, DtlsServer.v, DtlsClient.v: modules/mbedtls; DtlsConfig.v: its keys, cipher suites,
      objects and random numbers.
    - RawKey.v: api/nabto_device_experimental.c, nabto_device_util.c over DeviceApi.v.
    - Events.v: api/nabto_device_connection_events.c, nabto_device_events.c: one development for both
      kinds of listener, a class has what differs.
    - Access.v: a request to open a tunnel, from its CoAP resource through access management and
      the authorization request to the tunnel; composes Tunnel.v, Authorization.v, Iam.v.
    - Resources.v: the CoAP resources that the components register and remove.
    - Logging.v: nc_coap_packet_printer.c, np_logging.c and the log callbacks.
    - Authorization.v: api/nabto_device_authorization.c, nabto_device_authorization_events.c.
    - ApiStream.v: api/nabto_device_stream.c; calls Stream.v.
    - Device.v, DeviceApi.v: core/nc_device.c, and api/nabto_device.c over it.
    - CoapServer.v, CoapClient.v: core/nc_coap_server.c, nc_coap_client.c, nc_coap_rest_error.c.
    - ApiCoap.v: api/nabto_device_coap.c.
    - Udp.v: the interface platform/interfaces/np_udp.h as a class; SelectSockets.v and
      Libevent.v implement it, UdpDispatch.v and Mdns.v use it.
    - UdpDispatch.v: core/nc_udp_dispatch.c over any implementation of the interface.
    - SelectSockets.v, SelectUnix.v: modules/select_unix, the functions of sockets and the loop
      of the network thread.
    - Libevent.v: modules/libevent, its UDP, mDNS and TCP sockets.
    - Mdns.v: modules/mdns/nm_mdns_server.c.
    - IamJson.v: modules/iam/nm_iam_to_json.c, nm_iam_from_json.c.
    - AppFiles.v: apps/common.
    - TunnelApp.v: apps/tcp_tunnel_device.

    ** What is shown

    - Attaching: the handlers refine an abstract machine ([attacher_refines]); in every reachable
      state something is under way that will call a handler ([attacher_never_stuck]); a close
      completes ([attacher_close_completes]); a chain of redirects ends
      ([attacher_redirects_bounded]); silence ends the connection on schedule
      ([keep_alive_silence_schedule]); both lookups end in one answer ([dns_resolution_correct]).
    - Connections: no two have the same reference or id ([connection_table_unique]); a packet
      reaches the connection with its id, opens one, or is dropped ([packet_delivery]); what
      sending does on every channel ([send_to_udp_outcome]); packets that are too short are read
      past their end ([short_packet_undefined]).
    - DTLS: of a server connection, the end is told once, data is sent in order, the buffer
      that is sent is not overwritten ([dtls_srv_end_told_once], [dtls_srv_sends_conserved],
      [dtls_srv_send_buffer_safe]); of the client, memory is freed when nothing uses it and the end
      is told ([dtls_cli_freed_safely], [dtls_cli_end_told]); the client has the configuration it is
      given, and frees its objects ([dtls_client_configured]).
    - Access: access is granted exactly when a role of the user has a policy that allows the
      action ([check_access_iff], [policy_allow_iff], [string_condition_matches]); users change by
      authorized requests only ([changes_are_authorized]); a tunnel is opened only for those
      whom the policies allow, through all the components ([tunnel_access_end_to_end]); policies
      survive printing and parsing ([policy_json_roundtrip]); guessing passwords is limited, both sides get one key, the key
      is bound to its exchange, and a confirmation proves the key ([spake2_attempts_bounded],
      [spake2_key_agreement], [spake2_key_binding], [spake2_confirmation_iff]).
    - Streams and tunnels: no callback is lost ([stream_callbacks_conserved]), reading all reads
      all ([stream_read_all_exact]), the event loop ends ([stream_event_terminates]), packets go to
      the stream of their connection, and ids are distinct ([stream_packet_dispatch],
      [stream_ids_distinct]); a tunnel forwards bytes in order, is opened with permission, and is
      freed when nothing is under way - except after a read that fails, when it leaks
      ([tunnel_data_in_order], [tunnel_start_authorized], [tunnel_lifecycle]).
    - CoAP and the API: when its connection can send, the CoAP server sends all it has to send,
      and the CoAP client too ([coap_server_serves], [coap_client_serves]); a request of the
      API is freed once ([coap_request_ownership]); a device starts, runs, stops and closes
      its futures once ([device_life]); a raw private key is accepted exactly in the range of
      its group ([private_key_range]); the futures of a stream of the API follow the stream
      ([api_stream_futures]); an authorization request lives until both sides are done with it
      ([authorization_request_life]); connection and device events reach every listener in order
      ([events_delivered]); each request for a password is the application's, waits, or is
      lost by a stop ([password_requests_conserved]); a request is answered by the handler that is
      registered for it ([resources_routed]); tokens are uniform ([server_connect_token_uniform]).
    - Sockets: the contract of a TCP socket ([tcp_socket_contract]), and what one round of the
      network thread dispatches ([select_round_dispatch]); the mDNS server goes on receiving and
      announces until it is stopped ([mdns_server_contract]); the dispatcher of packets receives until
      it is aborted ([udp_dispatch_receives]).
    - Threads: the thread of the event queue runs what is posted, when it is due, whatever other threads
      do ([thread_queue_serves]); each lookup is resolved once by its thread, or when the resolver
      is stopped ([dns_requests_resolved]); a handler that listens misses no request
      ([listen_loop_serves]).
    - The application: users and access decisions survive a restart ([users_survive_restart]);
      what the default configuration permits ([default_config_access]); passwords are random
      ([random_password_correct]).
    - The rest: the event queue is a sorted schedule ([event_queue_refines]); every waiting
      callback of an analysis is called once ([stun_callbacks_conserved]); rendezvous packets are
      sent, dropped or queued ([rendezvous_conservation]); futures and listeners keep their
      contract ([future_callbacks_delivered], [listener_contract]); integers and hexadecimal
      text are read back as written ([var_uint_roundtrip], [hex_to_data_correct]); when the
      line that is printed of a CoAP packet stays in its buffer ([packet_print_bounded]); payloads have
      the type of their resource ([payloads_well_typed]).

    Examples that end in a name without [_witness] show behaviour that one would not expect: events
    that are told twice or not at all, sends that wait, a context that is freed twice.

    ** Not modelled

    - The libraries: nabto-common, tinycbor, mbedTLS and libevent are not in the repository, cJSON is a
      copy of a library (3rdparty/cjson). They are used through interfaces.
    - Threads, mutexes and conditions as such: what runs under a mutex is an atomic step, and where an
      operation is not atomic in the code (async_write of a TCP socket, the threads of ThreadQueue.v
      and Dns.v) the model splits it into steps that interleave.
    - Memory allocation fails only where an argument says so ([allocated], [rq_malloc], ...).
    - Start-up of the platform modules, clocks, and the event queue of libevent: calls of the
      operating system and of libevent. modules/unix/nm_unix_mdns.c is called by
      no other file; the functions it copies are in SelectSockets.v and Libevent.v.
    - The log of nabto-common in the applications, what they print, their arguments, and the examples. *)

From stdpp Require Export base tactics option list numbers strings.

From Stdlib Require Export ZArith Lia ZifyNat.
From coqutil Require Export Datatypes.RecordSetters.
Export DoubleBraceUpdate.

#[global] Open Scope Z_scope.

(** ** Machine integers *)

(** A [w]-bit unsigned integer is a [Z] in [0 .. 2^w); C's conversion to an
    unsigned type reduces modulo [2^w]. *)
Definition wrap (w x : Z) : Z := x mod 2 ^ w.
Definition u8 (x : Z) : Z := wrap 8 x.
Definition u16 (x : Z) : Z := wrap 16 x.
Definition u32 (x : Z) : Z := wrap 32 x.
Definition u64 (x : Z) : Z := wrap 64 x.

(** The conversion [(int32_t)x] of a 32-bit unsigned value (two's complement). *)
Definition to_int32 (x : Z) : Z :=
  if u32 x <? 2 ^ 31 then u32 x else u32 x - 2 ^ 32.

Definition is_uint (w x : Z) : Prop := 0 <= x < 2 ^ w.
Definition is_byte (x : Z) : Prop := is_uint 8 x.
Definition bytes (l : list Z) : Prop := Forall is_byte l.

#[global] Instance is_uint_dec w x : Decision (is_uint w x).
Proof. unfold is_uint. apply _. Defined.
#[global] Instance is_byte_dec x : Decision (is_byte x).
Proof. unfold is_byte. apply _. Defined.
#[global] Instance bytes_dec l : Decision (bytes l).
Proof. unfold bytes. apply _. Defined.

(** ** C values that may be undefined *)

(** Result of a computation that C may leave undefined (an out-of-bounds
    access, a signed overflow, a division by zero, a call through NULL). *)
Inductive cres (A : Type) : Type :=
| Def (a : A)
| UB.
Arguments Def {A} a.
Arguments UB {A}.

Definition cres_bind {A B} (m : cres A) (k : A -> cres B) : cres B :=
  match m with Def a => k a | UB => UB end.

Declare Scope c_scope.
Delimit Scope c_scope with c.
Notation "'let!' x ':=' m 'in' k" := (cres_bind m (fun x => k))
  (at level 10, x pattern, m at level 100, k at level 200) : c_scope.

(** [buf[i]] of an array; reading outside of it is undefined. *)
Definition rd (buf : list Z) (i : nat) : cres Z :=
  match buf !! i with Some b => Def b | None => UB end.

Definition is_def {A} (m : cres A) : bool :=
  match m with Def _ => true | UB => false end.

(** ** Handlers: explicit state, with the calls they make as a trace *)

(** A handler of a component takes the component's state and yields a result,
    the state after it, and the calls it made to other components, in order. *)
Definition handler (S E A : Type) : Type := S -> A * S * list E.

Section Handler.
Context {S E : Type}.

Definition hret {A} (a : A) : handler S E A := fun s => (a, s, []).

Definition hbind {A B} (m : handler S E A) (k : A -> handler S E B) : handler S E B :=
  fun s => let '(a, s1, t1) := m s in
           let '(b, s2, t2) := k a s1 in (b, s2, t1 ++ t2).

Definition hget : handler S E S := fun s => (s, s, []).
Definition hgets {A} (f : S -> A) : handler S E A := fun s => (f s, s, []).
Definition hmod (f : S -> S) : handler S E unit := fun s => (tt, f s, []).
Definition emit (e : E) : handler S E unit := fun s => (tt, s, [e]).
Definition hskip : handler S E unit := hret tt.
Definition hwhen (b : bool) (m : handler S E unit) : handler S E unit :=
  if b then m else hskip.

Definition exec {A} (m : handler S E A) (s : S) : S := (m s).1.2.
Definition trace {A} (m : handler S E A) (s : S) : list E := (m s).2.
Definition result {A} (m : handler S E A) (s : S) : A := (m s).1.1.
End Handler.

Declare Scope handler_scope.
Delimit Scope handler_scope with handler.
Notation "'let*' x ':=' m 'in' k" := (hbind m (fun x => k))
  (at level 10, x pattern, m at level 100, k at level 200) : handler_scope.
Notation "m ;;; k" := (hbind m (fun _ => k))
  (at level 199, right associativity) : handler_scope.

(** Handlers that C may leave undefined. *)
Definition uhandler (S E A : Type) : Type := S -> cres (A * S * list E).

Definition ubind {S E A B} (m : uhandler S E A) (k : A -> uhandler S E B) : uhandler S E B :=
  fun s => match m s with
           | UB => UB
           | Def (a, s1, t1) =>
               match k a s1 with UB => UB | Def (b, s2, t2) => Def (b, s2, t1 ++ t2) end
           end.
Definition ulift {S E A} (m : handler S E A) : uhandler S E A := fun s => Def (m s).
Definition uof {S E A} (c : cres A) : uhandler S E A :=
  fun s => match c with Def a => Def (a, s, []) | UB => UB end.

Notation "'let+' x ':=' m 'in' k" := (ubind m (fun x => k))
  (at level 10, x pattern, m at level 100, k at level 200) : handler_scope.

(** Unfold the handler monad and reduce. *)
Ltac hsimpl :=
  unfold exec, trace, result, hwhen, hskip, hret, hbind, hget, hgets, hmod, emit,
    apply_update in *;
  cbn in *; unfold constant in *; cbn in *.

(** Running a handler step by step. *)
Lemma hmod_seq {S E A} (f : S -> S) (k : unit -> handler S E A) s : hbind (hmod f) k s = k tt (f s).
Proof. unfold hbind, hmod. by destruct (k tt (f s)) as [[??]?]. Qed.

Lemma hget_seq {S E A} (k : S -> handler S E A) s : hbind hget k s = k s s.
Proof. unfold hbind, hget. by destruct (k s s) as [[??]?]. Qed.

Lemma hret_seq {S E A B} (a : A) (k : A -> handler S E B) s : hbind (hret a) k s = k a s.
Proof. unfold hbind, hret. by destruct (k a s) as [[??]?]. Qed.

Lemma exec_seq {S E A B} (m : handler S E A) (k : A -> handler S E B) s :
  exec (hbind m k) s = exec (k (result m s)) (exec m s).
Proof.
  unfold exec, result, hbind. destruct (m s) as [[a s1] t1]. cbn.
  by destruct (k a s1) as [[??]?].
Qed.

Lemma trace_seq {S E A B} (m : handler S E A) (k : A -> handler S E B) s :
  trace (hbind m k) s = trace m s ++ trace (k (result m s)) (exec m s).
Proof.
  unfold trace, exec, result, hbind. destruct (m s) as [[a s1] t1]. cbn.
  by destruct (k a s1) as [[??]?].
Qed.

Lemma exec_hget {S E A} (k : S -> handler S E A) s : exec (hbind hget k) s = exec (k s) s.
Proof. unfold exec. by rewrite hget_seq. Qed.
Lemma exec_hmod {S E A} (f : S -> S) (k : unit -> handler S E A) s :
  exec (hbind (hmod f) k) s = exec (k tt) (f s).
Proof. unfold exec. by rewrite hmod_seq. Qed.
Lemma trace_hget {S E A} (k : S -> handler S E A) s : trace (hbind hget k) s = trace (k s) s.
Proof. unfold trace. by rewrite hget_seq. Qed.
Lemma trace_hmod {S E A} (f : S -> S) (k : unit -> handler S E A) s :
  trace (hbind (hmod f) k) s = trace (k tt) (f s).
Proof. unfold trace. by rewrite hmod_seq. Qed.

Lemma u_hget {S E A} (k : S -> uhandler S E A) s : ubind (ulift hget) k s = k s s.
Proof. unfold ubind, ulift, hget. by destruct (k s s) as [[[??]?] |]. Qed.
Lemma u_hmod {S E A} (f : S -> S) (k : unit -> uhandler S E A) s : ubind (ulift (hmod f)) k s = k tt (f s).
Proof. unfold ubind, ulift, hmod. by destruct (k tt (f s)) as [[[??]?] |]. Qed.

Lemma u_def {S E A B} (a : A) (k : A -> uhandler S E B) (s : S) : ubind (uof (Def a)) k s = k a s.
Proof. unfold ubind, uof. by destruct (k a s) as [[[??]?] |]. Qed.
Lemma u_hret {S E A B} (a : A) (k : A -> uhandler S E B) (s : S) : ubind (ulift (hret a)) k s = k a s.
Proof. unfold ubind, ulift, hret. by destruct (k a s) as [[[??]?] |]. Qed.

Lemma u_quiet {S E A B} (m : uhandler S E A) (k : A -> uhandler S E B) (s : S) a :
  m s = Def (a, s, []) -> ubind m k s = k a s.
Proof. unfold ubind. intros ->. by destruct (k a s) as [[[??]?] |]. Qed.

(** The rest of a handler after a first part that is defined. *)
Lemma ubind_def {S E A B} (m : uhandler S E A) (k : A -> uhandler S E B) (s : S) a s1 t1 :
  m s = Def (a, s1, t1) ->
  ubind m k s = match k a s1 with Def (b, s2, t2) => Def (b, s2, t1 ++ t2) | UB => UB end.
Proof. unfold ubind. by intros ->. Qed.

Lemma ulift_inv {S E A} (m : handler S E A) s a s' t :
  ulift m s = Def (a, s', t) -> s' = exec m s /\ t = trace m s.
Proof. unfold ulift, exec, trace. by intros [= ->]. Qed.

Lemma ubind_inv {S E A B} (m : uhandler S E A) (k : A -> uhandler S E B) s b s' t :
  ubind m k s = Def (b, s', t) ->
  exists a s1 t1 t2, m s = Def (a, s1, t1) /\ k a s1 = Def (b, s', t2) /\ t = t1 ++ t2.
Proof.
  unfold ubind. destruct (m s) as [[[a s1] t1] |]; [| done].
  destruct (k a s1) as [[[b' s2] t2] |] eqn:E2; [| done]. intros [= -> -> <-].
  exists a, s1, t1, t2. done.
Qed.

Lemma uof_inv {S E A} (c : cres A) (s : S) a s' (t : list E) :
  uof c s = Def (a, s', t) -> c = Def a /\ s' = s /\ t = [].
Proof. unfold uof. destruct c; [| done]. by intros [= -> -> <-]. Qed.

(** Two handlers that agree on a state have the same effects there. *)
Lemma exec_eq {S E A} (m : handler S E A) s r : m s = r -> exec m s = r.1.2.
Proof. unfold exec. by intros ->. Qed.
Lemma trace_eq {S E A} (m : handler S E A) s r : m s = r -> trace m s = r.2.
Proof. unfold trace. by intros ->. Qed.

(** ** Automation *)

Create HintDb nabto.

Ltac unfold_ints :=
  unfold is_byte, is_uint, u8, u16, u32, u64, wrap in *.

(** Case analysis on a condition of the goal. *)
Ltac goal_if := match goal with |- context [if ?b then _ else _] => destruct b eqn:? end.

(** A decidable proposition without variables, by evaluation. *)
Ltac by_compute := apply (bool_decide_unpack _); vm_compute; exact I.

(** Evaluate the constant powers of two. *)
Ltac eval_pows :=
  repeat match goal with
  | |- context [2 ^ ?k] => let r := eval vm_compute in (2 ^ k) in
      lazymatch r with Z.pow _ _ => fail | _ => change (2 ^ k) with r end
  | H : context [2 ^ ?k] |- _ => let r := eval vm_compute in (2 ^ k) in
      lazymatch r with Z.pow _ _ => fail | _ => change (2 ^ k) with r in H end
  end.

(** Arithmetic on machine integers: make the widths explicit, then [lia]. *)
Ltac solve_int := unfold_ints; eval_pows; lia.

(** [lia] with quotients and remainders by constants. *)
Ltac divlia := unfold_ints; eval_pows; Z.to_euclidean_division_equations; lia.

(** The same on [nat]. *)
Ltac natdivlia := zify; Z.to_euclidean_division_equations; lia.

(** ** Arithmetic lemmas *)

Lemma wrap_small w x : is_uint w x -> wrap w x = x.
Proof. intros [??]. by apply Z.mod_small. Qed.

Lemma wrap_range w x : 0 <= w -> is_uint w (wrap w x).
Proof. intros Hw. apply Z.mod_pos_bound. lia. Qed.

Lemma u8_byte x : is_byte (u8 x).
Proof. by apply wrap_range. Qed.

Lemma u8_small x : is_byte x -> u8 x = x.
Proof. apply wrap_small. Qed.

Lemma u64_small x : is_uint 64 x -> u64 x = x.
Proof. apply wrap_small. Qed.

Lemma u32_small x : is_uint 32 x -> u32 x = x.
Proof. apply wrap_small. Qed.

Lemma u16_small x : is_uint 16 x -> u16 x = x.
Proof. apply wrap_small. Qed.

Lemma u16_range x : is_uint 16 (u16 x).
Proof. by apply wrap_range. Qed.

Lemma u32_range x : is_uint 32 (u32 x).
Proof. by apply wrap_range. Qed.

#[export] Hint Resolve u8_byte u32_range : nabto.

(** ** Lists *)

Lemma rd_app_r (l l' : list Z) i :
  (length l <= i)%nat -> rd (l ++ l') i = rd l' (i - length l).
Proof. intros. unfold rd. by rewrite lookup_app_r by done. Qed.

Lemma rd_def (l : list Z) i : (i < length l)%nat -> is_def (rd l i) = true.
Proof.
  intros Hi. unfold rd. destruct (l !! i) eqn:E; [done |].
  apply lookup_ge_None in E. lia.
Qed.

Lemma filter_all {A} (P : A -> Prop) `{forall x, Decision (P x)} (l : list A) :
  (forall x, x ∈ l -> P x) -> filter P l = l.
Proof.
  induction l as [| x l IH]; intros Hl; [done |].
  rewrite filter_cons_True by (apply Hl; left). f_equal. apply IH. intros y Hy. apply Hl. by right.
Qed.

(** ** Bits *)

(** The low [n] bits under a tag shifted above them. *)
Lemma land_lor_tag b t n :
  0 <= n -> Z.land (Z.lor b (Z.shiftl t n)) (Z.ones n) = b mod 2 ^ n.
Proof.
  intros Hn. rewrite Z.land_lor_distr_l, !Z.land_ones by done.
  rewrite Z.shiftl_mul_pow2, Z.mod_mul by lia. apply Z.lor_0_r.
Qed.

(** The tag above the low [n] bits. *)
Lemma shiftr_lor_tag b t n :
  0 <= n -> Z.shiftr (Z.lor b (Z.shiftl t n)) n = Z.lor (b / 2 ^ n) t.
Proof.
  intros Hn. rewrite Z.shiftr_lor, Z.shiftr_shiftl_l by done.
  by rewrite Z.sub_diag, Z.shiftl_0_r, Z.shiftr_div_pow2.
Qed.

(** Bits as arithmetic: shifts become products and quotients. *)
Ltac bits_to_arith :=
  rewrite ?Z.shiftl_mul_pow2, ?Z.shiftr_div_pow2 by lia; unfold_ints; eval_pows.

(** ** Memory *)

(** [memcpy(dst + off, src, n)] with [src] the [n] bytes copied. *)
Definition memcpy (dst : list Z) (off : nat) (src : list Z) : list Z :=
  take off dst ++ src ++ drop (off + length src) dst.

Lemma memcpy_length dst off src :
  (off + length src <= length dst)%nat -> length (memcpy dst off src) = length dst.
Proof.
  intros H. unfold memcpy. rewrite !length_app, length_take, length_drop. lia.
Qed.

Lemma memcpy_read dst off src :
  (off + length src <= length dst)%nat ->
  take (length src) (drop off (memcpy dst off src)) = src.
Proof.
  intros H. unfold memcpy. rewrite drop_app_length' by (rewrite length_take; lia).
  by rewrite take_app_length.
Qed.

(** The C string stored in a buffer: the bytes before the first NUL, or the
    whole buffer when there is none (the terminator is then missing). *)
Fixpoint cstr (buf : list Z) : list Z :=
  match buf with
  | [] => []
  | b :: tl => if b =? 0 then [] else b :: cstr tl
  end.

Definition nul_terminated (buf : list Z) : Prop := 0 ∈ buf.
