(* ===== verification/Packet.v ===== *)
(** * Variable-length integers of the packet format (src/core/nc_packet.c) *)

From S2P Require Import Prelude.

#[local] Open Scope c_scope.

(** ** Protocol constants (nc_protocol_defines.h) *)

Definition NABTO_PROTOCOL_PREFIX_CONNECTION : Z := 240.
Definition NABTO_PROTOCOL_PREFIX_RENDEZVOUS : Z := 241.
Definition AT_KEEP_ALIVE : Z := 0x04.
Definition AT_STREAM : Z := 0x05.
Definition AT_COAP_START : Z := 64.
Definition AT_COAP_END : Z := 127.
Definition CT_KEEP_ALIVE_REQUEST : Z := 0x03.
Definition CT_KEEP_ALIVE_RESPONSE : Z := 0x04.
Definition CT_RENDEZVOUS_CLIENT_REQUEST : Z := 0x01.
Definition CT_RENDEZVOUS_CLIENT_RESPONSE : Z := 0x02.
Definition CT_RENDEZVOUS_DEVICE_REQUEST : Z := 0x03.
Definition ATTACH_STATUS_ATTACHED : Z := 0x00.
Definition ATTACH_STATUS_REDIRECT : Z := 0x01.


(** [bool var_uint_read(uint8_t* buf, uint16_t bufSize, uint64_t* val, uint8_t* len)]:
    the return value and the values stored in [*val] and [*len]. *)
Definition var_uint_read (buf : list Z) (bufSize : Z) : cres (bool * Z * Z) :=
  let! first := rd buf 0 in
  let b7 := Z.land first 63 in
  let lengthBits := Z.shiftr first 6 in
  if bufSize <? Z.shiftl 1 lengthBits then Def (false, 0, 0)
  else if lengthBits =? 0 then Def (true, b7, 1)
  else if lengthBits =? 1 then
    let! b6 := rd buf 1 in
    Def (true, u64 (Z.shiftl b7 8 + b6), 2)
  else if lengthBits =? 2 then
    let! b6 := rd buf 1 in
    let! b5 := rd buf 2 in
    let! b4 := rd buf 3 in
    Def (true, u64 (Z.shiftl b7 24 + Z.shiftl b6 16 + Z.shiftl b5 8 + b4), 4)
  else if lengthBits =? 3 then
    let! b6 := rd buf 1 in
    let! b5 := rd buf 2 in
    let! b4 := rd buf 3 in
    let! b3 := rd buf 4 in
    let! b2 := rd buf 5 in
    let! b1 := rd buf 6 in
    let! b0 := rd buf 7 in
    Def (true, u64 (Z.shiftl b7 56 + Z.shiftl b6 48 + Z.shiftl b5 40 + Z.shiftl b4 32
                    + Z.shiftl b3 24 + Z.shiftl b2 16 + Z.shiftl b1 8 + b0), 8)
  else Def (true, 0, 0).

(** [uint8_t* var_uint_write_forward(uint8_t* buf, uint64_t val)]: the bytes it
    stores from [buf] on; the pointer it returns is [buf] plus their number. *)
Definition var_uint_write_forward (val : Z) : list Z :=
  let b7 := u8 val in
  let b6 := u8 (Z.shiftr val 8) in
  let b5 := u8 (Z.shiftr val 16) in
  let b4 := u8 (Z.shiftr val 24) in
  let b3 := u8 (Z.shiftr val 32) in
  let b2 := u8 (Z.shiftr val 40) in
  let b1 := u8 (Z.shiftr val 48) in
  let b0 := u8 (Z.shiftr val 56) in
  if val <? Z.shiftl 1 6 then [b7]
  else if val <? Z.shiftl 1 14 then [Z.lor b6 (Z.shiftl 1 6); b7]
  else if val <? Z.shiftl 1 30 then [Z.lor b4 (Z.shiftl 2 6); b5; b6; b7]
  else [Z.lor b0 (Z.shiftl 3 6); b1; b2; b3; b4; b5; b6; b7].

(** ** Lemmas *)

(** The first byte of an encoding: the tag selects the length, the rest is kept. *)
Lemma tagged_byte b t :
  is_byte b -> 0 <= t < 4 ->
  Z.land (Z.lor b (Z.shiftl t 6)) 63 = b mod 64
  /\ Z.shiftr (Z.lor b (Z.shiftl t 6)) 6 = Z.lor (b / 64) t.
Proof.
  intros Hb Ht. split.
  - apply (land_lor_tag b t 6). lia.
  - apply (shiftr_lor_tag b t 6). lia.
Qed.

Lemma high_bits_small b : is_byte b -> b < 64 -> b / 64 = 0.
Proof. intros [??] ?. apply Z.div_small. lia. Qed.

Lemma lor_3 q : 0 <= q < 4 -> Z.lor q 3 = 3.
Proof. intros. assert (q = 0 \/ q = 1 \/ q = 2 \/ q = 3) as [-> | [-> | [-> | ->]]] by lia; done. Qed.

Lemma write_length v :
  is_uint 64 v ->
  length (var_uint_write_forward v) =
    if v <? 2 ^ 6 then 1%nat else if v <? 2 ^ 14 then 2%nat
    else if v <? 2 ^ 30 then 4%nat else 8%nat.
Proof.
  intros _. unfold var_uint_write_forward.
  change (Z.shiftl 1 6) with (2 ^ 6). change (Z.shiftl 1 14) with (2 ^ 14).
  change (Z.shiftl 1 30) with (2 ^ 30).
  by repeat case_match.
Qed.

(** Decoding in each of the four lengths. *)

Ltac read_tagged b t :=
  unfold var_uint_read; cbn [app rd cres_bind lookup list_lookup];
  let H1 := fresh in let H2 := fresh in
  destruct (tagged_byte b t) as [H1 H2]; [by apply u8_byte | lia |];
  rewrite H1, H2; clear H1 H2.

Ltac enough_bytes :=
  match goal with |- context [?x <? ?y] =>
    rewrite (proj2 (Z.ltb_ge x y)) by (bits_to_arith; divlia) end.

Ltac bytes_to_arith := bits_to_arith; do 3 f_equal; divlia.

Lemma read_one v rest bufSize :
  is_uint 64 v -> v < 2 ^ 6 -> 1 <= bufSize ->
  var_uint_read ([u8 v] ++ rest) bufSize = Def (true, v mod 2 ^ 62, 1).
Proof.
  intros [Hv0 _] Hv Hb. rewrite u8_small by solve_int.
  unfold var_uint_read. cbn [app rd cres_bind lookup list_lookup].
  change 63 with (Z.ones 6). rewrite Z.land_ones, Z.shiftr_div_pow2 by lia.
  rewrite (Z.div_small v) by lia. enough_bytes. cbn [Z.eqb].
  rewrite !Z.mod_small by lia. done.
Qed.

Lemma read_two v rest bufSize :
  is_uint 64 v -> v < 2 ^ 14 -> 2 <= bufSize ->
  var_uint_read ([Z.lor (u8 (Z.shiftr v 8)) (Z.shiftl 1 6); u8 v] ++ rest) bufSize
  = Def (true, v mod 2 ^ 62, 2).
Proof.
  intros [Hv0 _] Hv Hb. read_tagged (u8 (Z.shiftr v 8)) 1.
  rewrite high_bits_small; [| apply u8_byte | bits_to_arith; divlia].
  change (Z.lor 0 1) with 1. enough_bytes. cbn [Z.eqb]. bytes_to_arith.
Qed.

Lemma read_four v rest bufSize :
  is_uint 64 v -> v < 2 ^ 30 -> 4 <= bufSize ->
  var_uint_read ([Z.lor (u8 (Z.shiftr v 24)) (Z.shiftl 2 6); u8 (Z.shiftr v 16);
                  u8 (Z.shiftr v 8); u8 v] ++ rest) bufSize
  = Def (true, v mod 2 ^ 62, 4).
Proof.
  intros [Hv0 _] Hv Hb. read_tagged (u8 (Z.shiftr v 24)) 2.
  rewrite high_bits_small; [| apply u8_byte | bits_to_arith; divlia].
  change (Z.lor 0 2) with 2. enough_bytes. cbn [Z.eqb]. bytes_to_arith.
Qed.

Lemma read_eight v rest bufSize :
  is_uint 64 v -> 8 <= bufSize ->
  var_uint_read ([Z.lor (u8 (Z.shiftr v 56)) (Z.shiftl 3 6); u8 (Z.shiftr v 48);
                  u8 (Z.shiftr v 40); u8 (Z.shiftr v 32); u8 (Z.shiftr v 24);
                  u8 (Z.shiftr v 16); u8 (Z.shiftr v 8); u8 v] ++ rest) bufSize
  = Def (true, v mod 2 ^ 62, 8).
Proof.
  intros [Hv0 Hv] Hb. read_tagged (u8 (Z.shiftr v 56)) 3.
  rewrite lor_3 by (bits_to_arith; divlia).
  enough_bytes. cbn [Z.eqb]. bytes_to_arith.
Qed.

(** The two length bits of a byte, and reading past the first byte. *)
Lemma length_bits first :
  is_byte first ->
  Z.shiftr first 6 = first / 64 /\ Z.land first 63 = first mod 64 /\ 0 <= first / 64 < 4.
Proof.
  intros Hf. split; [by rewrite Z.shiftr_div_pow2 by lia | split].
  - change 63 with (Z.ones 6). by rewrite Z.land_ones by lia.
  - divlia.
Qed.

Ltac next_byte tl Hbytes :=
  let b := fresh "b" in let Hb := fresh "Hb" in
  destruct tl as [| b tl]; [cbn [length] in *; lia |];
  apply Forall_cons in Hbytes as [Hb Hbytes].

Lemma read_value first tl bufSize :
  bytes (first :: tl) -> 2 ^ (first / 64) <= bufSize <= Z.of_nat (length (first :: tl)) ->
  exists val, var_uint_read (first :: tl) bufSize = Def (true, val, 2 ^ (first / 64))
              /\ 0 <= val < 2 ^ 62.
Proof.
  intros Hbytes Hsize. apply Forall_cons in Hbytes as [Hf Hbytes].
  destruct (length_bits first Hf) as (E1 & E2 & Hq).
  unfold var_uint_read. cbn [rd lookup list_lookup cres_bind]. rewrite E1, E2.
  assert (first / 64 = 0 \/ first / 64 = 1 \/ first / 64 = 2 \/ first / 64 = 3)
    as [Q | [Q | [Q | Q]]] by lia;
    rewrite Q in *; rewrite (proj2 (Z.ltb_ge _ _)) by (rewrite Z.shiftl_1_l; lia);
    cbn [Z.eqb]; eval_pows.
  - eexists. split; [done | divlia].
  - next_byte tl Hbytes. eexists. split; [done |]. bits_to_arith. divlia.
  - do 3 next_byte tl Hbytes. eexists. split; [done |]. bits_to_arith. divlia.
  - do 7 next_byte tl Hbytes. eexists. split; [done |]. bits_to_arith. divlia.
Qed.

Lemma read_too_short first tl bufSize :
  is_byte first -> bufSize < 2 ^ (first / 64) ->
  var_uint_read (first :: tl) bufSize = Def (false, 0, 0).
Proof.
  intros Hf Hsize. destruct (length_bits first Hf) as (E1 & E2 & Hq).
  unfold var_uint_read. cbn [rd lookup list_lookup cres_bind].
  by rewrite E1, E2, Z.shiftl_1_l, (proj2 (Z.ltb_lt _ _)).
Qed.

(** ** Properties *)

(** Encoding a 64-bit value with [var_uint_write_forward] and decoding it with
    [var_uint_read], in front of any other bytes and with at least the written
    bytes available, yields the value modulo 2^62 and the number of bytes written:
    every value below 2^62 round-trips, larger ones lose their top two bits. *)
Lemma var_uint_roundtrip v rest bufSize :
  is_uint 64 v ->
  Z.of_nat (length (var_uint_write_forward v)) <= bufSize ->
  var_uint_read (var_uint_write_forward v ++ rest) bufSize =
    Def (true, v mod 2 ^ 62, Z.of_nat (length (var_uint_write_forward v))).
Proof.
  intros Hv Hlen. rewrite write_length in * by done.
  unfold var_uint_write_forward.
  change (Z.shiftl 1 6) with (2 ^ 6). change (Z.shiftl 1 14) with (2 ^ 14).
  change (Z.shiftl 1 30) with (2 ^ 30).
  destruct (Z.ltb_spec v (2 ^ 6)); [by apply read_one |].
  destruct (Z.ltb_spec v (2 ^ 14)); [by apply read_two |].
  destruct (Z.ltb_spec v (2 ^ 30)); [by apply read_four | by apply read_eight].
Qed.

(** C1: the witness encodes a four-byte value. *)
Lemma var_uint_roundtrip_witness :
  var_uint_read (var_uint_write_forward 123456 ++ [7]) 5 = Def (true, 123456, 4).
Proof.
  exact (var_uint_roundtrip 123456 [7] 5 ltac:(split; [lia | reflexivity])
           ltac:(vm_compute; discriminate)).
Defined.

(** Reading a variable-length integer from a buffer whose declared size is
    non-zero and covered by memory touches no byte outside the declared size; it
    fails exactly when fewer bytes than the two length bits ask for are declared,
    and otherwise consumes that many bytes and yields a value below 2^62. *)
Lemma var_uint_read_safe buf bufSize :
  bytes buf -> 1 <= bufSize <= Z.of_nat (length buf) ->
  exists ok val len,
    var_uint_read buf bufSize = Def (ok, val, len)
    /\ (ok = true -> 1 <= len <= bufSize /\ 0 <= val < 2 ^ 62)
    /\ (ok = false -> val = 0 /\ len = 0
          /\ exists first, buf !! 0%nat = Some first /\ bufSize < 2 ^ (first / 64)).
Proof.
  intros Hbytes Hsize. destruct buf as [| first tl]; [simpl in *; lia |].
  assert (Hf : is_byte first) by (by inversion Hbytes).
  destruct (Z.lt_ge_cases bufSize (2 ^ (first / 64))) as [Hlt | Hge].
  - exists false, 0, 0. rewrite read_too_short by done. naive_solver.
  - destruct (read_value first tl bufSize) as (v & Hv & Hb); [done | lia |].
    exists true, v, (2 ^ (first / 64)). split; [done |]. split; [| done].
    intros _. split; [| done]. split; [| done].
    assert (0 < 2 ^ (first / 64)); [| lia]. apply Z.pow_pos_nonneg; divlia.
Qed.

(** C2: the witness reads a two-byte value. *)
Lemma var_uint_read_safe_witness :
  exists ok val len,
    var_uint_read [64; 1; 2] 3 = Def (ok, val, len) /\ (ok = true -> 1 <= len <= 3 /\ 0 <= val < 2 ^ 62)
    /\ (ok = false -> val = 0 /\ len = 0
          /\ exists first, [64; 1; 2] !! 0%nat = Some first /\ 3 < 2 ^ (first / 64)).
Proof.
  apply (var_uint_read_safe [64; 1; 2] 3).
  - by_compute.
  - simpl. lia.
Defined.
