(* ===== verification/Platform.v ===== *)
(** * Data shared by the platform interfaces (src/platform)

    Error codes (np_error_code.h), IP addresses and UDP endpoints
    (np_ip_address.h, interfaces/np_udp.h), and the address functions of
    np_ip_address.c. *)

From S2P Require Import Prelude.

(** ** Error codes *)

Inductive np_error_code : Type :=
| NABTO_EC_OK
| NABTO_EC_UNKNOWN
| NABTO_EC_NOT_SUPPORTED
| NABTO_EC_UDP_SOCKET_CREATION_ERROR
| NABTO_EC_UDP_SOCKET_ERROR
| NABTO_EC_INVALID_SOCKET
| NABTO_EC_EOF
| NABTO_EC_FAILED_TO_SEND_PACKET
| NABTO_EC_MALFORMED_PACKET
| NABTO_EC_OUT_OF_CHANNELS
| NABTO_EC_OUT_OF_CONNECTIONS
| NABTO_EC_INVALID_CHANNEL
| NABTO_EC_INVALID_CONNECTION_ID
| NABTO_EC_INSUFFICIENT_BUFFER_ALLOCATION
| NABTO_EC_ALPN_FAILED
| NABTO_EC_INVALID_PEER_FINGERPRINT
| NABTO_EC_CONNECTION_CLOSING
| NABTO_EC_KEEP_ALIVE_TIMEOUT
| NABTO_EC_SEND_IN_PROGRESS
| NABTO_EC_FUTURE_NOT_RESOLVED
| NABTO_EC_NO_VALID_ENDPOINTS
| NABTO_EC_OPERATION_IN_PROGRESS
| NABTO_EC_ABORTED
| NABTO_EC_STOPPED
| NABTO_EC_CLOSED
| NABTO_EC_RESOURCE_EXISTS
| NABTO_EC_NOT_FOUND
| NABTO_EC_OUT_OF_MEMORY
| NABTO_EC_NOT_IMPLEMENTED
| NABTO_EC_ACCESS_DENIED
| NABTO_EC_STRING_TOO_LONG
| NABTO_EC_NOT_A_STRING
| NABTO_EC_NOT_A_NUMBER
| NABTO_EC_INVALID_CONNECTION
| NABTO_EC_INVALID_ARGUMENT
| NABTO_EC_IN_USE
| NABTO_EC_INVALID_STATE
| NABTO_EC_NO_DATA
| NABTO_EC_OPERATION_STARTED
| NABTO_EC_NO_OPERATION
| NABTO_EC_AGAIN.

#[global] Instance np_error_code_eq_dec : EqDecision np_error_code.
Proof. solve_decision. Defined.

(** The test [if (ec)]: every code but [NABTO_EC_OK] is non-zero. *)
Definition is_error (ec : np_error_code) : bool :=
  match ec with NABTO_EC_OK => false | _ => true end.

Definition ec_eqb (a b : np_error_code) : bool := bool_decide (a = b).

Lemma ec_eqb_refl ec : ec_eqb ec ec = true.
Proof. by apply bool_decide_eq_true. Qed.

(** ** IP addresses and endpoints *)

Inductive np_ip_address_type : Type :=
| NABTO_IPV4
| NABTO_IPV6.

#[global] Instance np_ip_address_type_eq_dec : EqDecision np_ip_address_type.
Proof. solve_decision. Defined.

(** [ip] is the storage of the union: [v6] is all of it, [v4] its first four bytes. *)
Record np_ip_address : Type := mk_ip {
  ip_type : np_ip_address_type;
  ip_mem : list Z
}.

#[global] Instance np_ip_address_eq_dec : EqDecision np_ip_address.
Proof. solve_decision. Defined.

Definition ip_v4 (ip : np_ip_address) : list Z := take 4 (ip_mem ip).
Definition ip_v6 (ip : np_ip_address) : list Z := take 16 (ip_mem ip).

Definition ip_wf (ip : np_ip_address) : Prop :=
  length (ip_mem ip) = 16%nat /\ bytes (ip_mem ip).

Record np_udp_endpoint : Type := mk_ep {
  ep_ip : np_ip_address;
  ep_port : Z
}.

#[global] Instance np_udp_endpoint_eq_dec : EqDecision np_udp_endpoint.
Proof. solve_decision. Defined.

Definition zero_ip : np_ip_address := mk_ip NABTO_IPV4 (replicate 16 0).
Definition zero_ep : np_udp_endpoint := mk_ep zero_ip 0.

(** ** np_ip_address.c *)

Definition np_ip_is_v4 (ip : np_ip_address) : bool := bool_decide (ip_type ip = NABTO_IPV4).
Definition np_ip_is_v6 (ip : np_ip_address) : bool := bool_decide (ip_type ip = NABTO_IPV6).

Definition np_ip_address_assign_v4 (ip : np_ip_address) (address : Z) : np_ip_address :=
  mk_ip NABTO_IPV4
    (memcpy (ip_mem ip) 0 [u8 (Z.shiftr address 24); u8 (Z.shiftr address 16);
                           u8 (Z.shiftr address 8); u8 address]).

Definition ipv4MappedIpv6Prefix : list Z := [0; 0; 0; 0; 0; 0; 0; 0; 0; 0; 255; 255].

Definition np_ip_is_v4_mapped (ip : np_ip_address) : bool :=
  if np_ip_is_v6 ip then bool_decide (take 12 (ip_v6 ip) = ipv4MappedIpv6Prefix) else false.

(** The destination's storage [v6] before the call is a parameter of the conversions. *)
Definition np_ip_convert_v4_to_v4_mapped (v4 v6 : np_ip_address) : np_ip_address :=
  let mem := memcpy (ip_mem v6) 0 ipv4MappedIpv6Prefix in
  mk_ip NABTO_IPV6 (memcpy mem 12 (ip_v4 v4)).

Definition np_ip_convert_v4_mapped_to_v4 (v6 v4 : np_ip_address) : np_ip_address :=
  mk_ip NABTO_IPV4 (memcpy (ip_mem v4) 0 (take 4 (drop 12 (ip_v6 v6)))).

(** C strings are lists of character codes, without the terminating NUL. *)
Definition char_at (s : list Z) : Z := default 0 (head s).
Definition chr_0 : Z := 48.
Definition chr_dot : Z := 46.
Definition chr_colon : Z := 58.

Definition is_digit (c : Z) : bool := (48 <=? c) && (c <=? 57).
Arguments is_digit : simpl never.

(** [read_number]: the number and the position after it; [n] is the accumulator. *)
Fixpoint read_number_from (n : Z) (ptr : list Z) : Z * list Z :=
  match ptr with
  | c :: ptr' => if is_digit c then read_number_from (u32 (n * 10 + (c - chr_0))) ptr'
                 else (n, ptr)
  | [] => (n, [])
  end.

Definition read_number (ptr : list Z) : Z * list Z := read_number_from 0 ptr.

(** [bool np_ip_address_read_v4(const char* str, struct np_ip_address* ip)]:
    the address written on success ([ip] holds the storage before the call). *)
Definition np_ip_address_read_v4 (str : list Z) (ip : np_ip_address) : option np_ip_address :=
  let '(a, ptr) := read_number str in
  if negb (char_at ptr =? chr_dot) then None else
  let '(b, ptr) := read_number (tail ptr) in
  if negb (char_at ptr =? chr_dot) then None else
  let '(c, ptr) := read_number (tail ptr) in
  if negb (char_at ptr =? chr_dot) then None else
  let '(d, ptr) := read_number (tail ptr) in
  Some (mk_ip NABTO_IPV4 (memcpy (ip_mem ip) 0 [u8 a; u8 b; u8 c; u8 d])).

(** [sprintf("%u", n)] of a byte. *)
Definition show_u8 (n : Z) : list Z :=
  if n <? 10 then [chr_0 + n]
  else if n <? 100 then [chr_0 + n / 10; chr_0 + n mod 10]
  else [chr_0 + n / 100; chr_0 + (n / 10) mod 10; chr_0 + n mod 10].

(** [sprintf("%02x", n)] of a byte. *)
Definition hex_digit (d : Z) : Z := if d <? 10 then chr_0 + d else 97 + (d - 10).
Definition show_x02 (n : Z) : list Z := [hex_digit (n / 16); hex_digit (n mod 16)].

Fixpoint show_groups (l : list Z) : list Z :=
  match l with
  | a :: b :: [] => show_x02 a ++ show_x02 b
  | a :: b :: tl => show_x02 a ++ show_x02 b ++ chr_colon :: show_groups tl
  | _ => []
  end.

Definition np_ip_address_to_string (ip : np_ip_address) : list Z :=
  match ip_type ip with
  | NABTO_IPV4 =>
      match ip_v4 ip with
      | [a; b; c; d] => show_u8 a ++ chr_dot :: show_u8 b ++ chr_dot
                        :: show_u8 c ++ chr_dot :: show_u8 d
      | _ => []
      end
  | NABTO_IPV6 => show_groups (ip_v6 ip)
  end.

(** ** Lemmas on decimal numbers *)

Definition digits (d : list Z) : Prop := Forall (fun c => is_digit c = true) d.
Definition dec_from (n : Z) (d : list Z) : Z :=
  foldl (fun acc c => u32 (acc * 10 + (c - chr_0))) n d.

Lemma read_number_from_app n d rest :
  digits d -> is_digit (char_at rest) = false ->
  read_number_from n (d ++ rest) = (dec_from n d, rest).
Proof.
  intros Hd Hrest. revert n. induction Hd as [| c d Hc _ IH]; intros n; simpl.
  - destruct rest as [| c rest]; [done |]. change (is_digit c = false) in Hrest. simpl. by rewrite Hrest.
  - by rewrite Hc.
Qed.

Lemma read_number_app d rest :
  digits d -> is_digit (char_at rest) = false ->
  read_number (d ++ rest) = (dec_from 0 d, rest).
Proof. apply read_number_from_app. Qed.

Lemma digit_split s :
  exists d rest, s = d ++ rest /\ digits d /\ is_digit (char_at rest) = false.
Proof.
  induction s as [| c s (d & rest & -> & Hd & Hr)]; [by exists [], []; split_and!; [| apply Forall_nil |] |].
  destruct (is_digit c) eqn:E.
  - exists (c :: d), rest. split_and!; [done | by apply Forall_cons | done].
  - exists [], (c :: d ++ rest). split_and!; [done | by apply Forall_nil | done].
Qed.

Lemma dot_not_digit s : is_digit (char_at (chr_dot :: s)) = false.
Proof. done. Qed.

Lemma char_at_dot s : (char_at s =? chr_dot) = true -> s = chr_dot :: tail s.
Proof. destruct s as [| c s]; [done |]. intros H%Z.eqb_eq. change (c = chr_dot) in H. by rewrite H. Qed.

#[local] Hint Resolve dot_not_digit : nabto.

Lemma show_u8_digits n : is_byte n -> digits (show_u8 n).
Proof.
  intros Hn. unfold show_u8, digits, is_digit, chr_0.
  repeat case_match; repeat (apply Forall_cons; split); try apply Forall_nil; try done;
    apply andb_true_intro; split; apply Z.leb_le; divlia.
Qed.

Lemma show_u8_value n : is_byte n -> dec_from 0 (show_u8 n) = n.
Proof.
  intros Hn. unfold show_u8, chr_0.
  repeat case_match; cbn [dec_from foldl]; unfold chr_0; divlia.
Qed.

Lemma read_show_u8 n rest :
  is_byte n -> is_digit (char_at rest) = false ->
  read_number (show_u8 n ++ rest) = (n, rest).
Proof.
  intros Hn Hr. rewrite read_number_app by auto using show_u8_digits.
  by rewrite show_u8_value.
Qed.

Lemma memcpy_0 dst src : memcpy dst 0 src = src ++ drop (length src) dst.
Proof. done. Qed.

Lemma mapped_mem v4 v6 :
  ip_wf v4 -> ip_wf v6 ->
  ip_mem (np_ip_convert_v4_to_v4_mapped v4 v6) = ipv4MappedIpv6Prefix ++ ip_v4 v4.
Proof.
  intros [L4 _] [L6 _]. unfold np_ip_convert_v4_to_v4_mapped. cbn [ip_mem].
  assert (T : length (ip_v4 v4) = 4%nat) by (unfold ip_v4; rewrite length_take; lia).
  rewrite memcpy_0. unfold memcpy at 1. rewrite take_app_length' by done.
  rewrite drop_ge, app_nil_r; [done |]. rewrite length_app, length_drop, T. simpl. lia.
Qed.

Lemma prefix_bytes : bytes ipv4MappedIpv6Prefix.
Proof. by_compute. Qed.

(** ** Properties *)

(** [np_ip_address_read_v4] accepts exactly the strings that start with three
    digit runs (possibly empty) each followed by a dot and then a fourth digit run,
    whatever follows; the four bytes are the run's values, reduced modulo 2^32
    while reading and then modulo 256. *)
Lemma read_v4_accepts s ip r :
  np_ip_address_read_v4 s ip = Some r <->
  exists d1 d2 d3 d4 rest,
    digits d1 /\ digits d2 /\ digits d3 /\ digits d4 /\ is_digit (char_at rest) = false
    /\ s = d1 ++ chr_dot :: d2 ++ chr_dot :: d3 ++ chr_dot :: d4 ++ rest
    /\ r = mk_ip NABTO_IPV4 (memcpy (ip_mem ip) 0
             [u8 (dec_from 0 d1); u8 (dec_from 0 d2); u8 (dec_from 0 d3); u8 (dec_from 0 d4)]).
Proof.
  unfold np_ip_address_read_v4. split.
  - destruct (digit_split s) as (d1 & r1 & -> & ? & ?). rewrite read_number_app by done.
    destruct (char_at r1 =? chr_dot) eqn:E1; [simpl; apply char_at_dot in E1 | done].
    destruct (digit_split (tail r1)) as (d2 & r2 & T1 & ? & ?). rewrite T1, read_number_app by done.
    destruct (char_at r2 =? chr_dot) eqn:E2; [simpl; apply char_at_dot in E2 | done].
    destruct (digit_split (tail r2)) as (d3 & r3 & T2 & ? & ?). rewrite T2, read_number_app by done.
    destruct (char_at r3 =? chr_dot) eqn:E3; [simpl; apply char_at_dot in E3 | done].
    destruct (digit_split (tail r3)) as (d4 & r4 & T3 & ? & ?). rewrite T3, read_number_app by done.
    intros [= <-]. exists d1, d2, d3, d4, r4. split_and!; try done.
    by rewrite E1, T1, E2, T2, E3, T3.
  - intros (d1 & d2 & d3 & d4 & rest & ? & ? & ? & ? & ? & -> & ->).
    do 3 (rewrite read_number_app by done; cbn [char_at head tail default Z.eqb negb]).
    by rewrite read_number_app by done.
Qed.

(** Printing an IPv4 address with [np_ip_address_to_string] and reading it back
    with [np_ip_address_read_v4] yields the same four bytes. *)
Lemma ip_v4_string_roundtrip ip dst :
  ip_wf ip -> ip_wf dst -> ip_type ip = NABTO_IPV4 ->
  exists r, np_ip_address_read_v4 (np_ip_address_to_string ip) dst = Some r
            /\ ip_type r = NABTO_IPV4 /\ ip_v4 r = ip_v4 ip.
Proof.
  intros [Hlen Hb] _ Ht. unfold np_ip_address_to_string, ip_v4. rewrite Ht.
  destruct (ip_mem ip) as [| a [| b [| c [| d tl]]]]; try (simpl in Hlen; lia).
  do 4 (apply Forall_cons in Hb as [? Hb]).
  change (take 4 (a :: b :: c :: d :: tl)) with [a; b; c; d]. cbv iota beta.
  unfold np_ip_address_read_v4.
  do 3 (rewrite read_show_u8 by auto with nabto; cbn [char_at head tail default Z.eqb negb]).
  rewrite <- (app_nil_r (show_u8 d)), read_show_u8 by done.
  eexists. split; [done |]. split; [done |]. unfold ip_v4. cbn [ip_mem].
  rewrite memcpy_0, !u8_small by done. done.
Qed.

(** Mapping an IPv4 address into IPv6 yields an address that is recognised as
    mapped, and mapping it back restores the IPv4 bytes. *)
Lemma ip_v4_mapped_roundtrip v4 v6 dst :
  ip_wf v4 -> ip_wf v6 -> ip_wf dst ->
  let m := np_ip_convert_v4_to_v4_mapped v4 v6 in
  ip_wf m /\ np_ip_is_v4_mapped m = true
  /\ ip_type (np_ip_convert_v4_mapped_to_v4 m dst) = NABTO_IPV4
  /\ ip_v4 (np_ip_convert_v4_mapped_to_v4 m dst) = ip_v4 v4.
Proof.
  intros [L4 B4] [L6 B6] [Ld Bd] m.
  assert (T : length (ip_v4 v4) = 4%nat) by (unfold ip_v4; rewrite length_take; lia).
  assert (M : ip_mem m = ipv4MappedIpv6Prefix ++ ip_v4 v4) by (by apply mapped_mem).
  assert (V : ip_v6 m = ipv4MappedIpv6Prefix ++ ip_v4 v4)
    by (unfold ip_v6; rewrite M; apply take_ge; rewrite length_app, T; done).
  split_and!.
  - split; rewrite M; [by rewrite length_app, T |]. apply Forall_app. split.
    + apply prefix_bytes.
    + by apply Forall_take.
  - unfold np_ip_is_v4_mapped. by rewrite V, bool_decide_eq_true_2.
  - done.
  - unfold np_ip_convert_v4_mapped_to_v4, ip_v4 at 1. cbn [ip_mem].
    rewrite V, drop_app_length' by done. rewrite (take_ge (ip_v4 v4)) by lia.
    rewrite memcpy_0. by apply take_app_length'.
Qed.

Definition loopback : np_ip_address := np_ip_address_assign_v4 zero_ip (2 ^ 24 * 127 + 1).

Lemma loopback_wf : ip_wf loopback.
Proof. split; [done | by_compute]. Defined.

(** C4: the witness prints and reads 127.0.0.1. *)
Lemma ip_v4_string_roundtrip_witness :
  exists r, np_ip_address_read_v4 (np_ip_address_to_string loopback) loopback = Some r
            /\ ip_type r = NABTO_IPV4 /\ ip_v4 r = [127; 0; 0; 1].
Proof. exact (ip_v4_string_roundtrip loopback loopback loopback_wf loopback_wf eq_refl). Defined.

(** C5: the witness maps 127.0.0.1. *)
Lemma ip_v4_mapped_roundtrip_witness :
  let m := np_ip_convert_v4_to_v4_mapped loopback loopback in
  ip_wf m /\ np_ip_is_v4_mapped m = true
  /\ ip_type (np_ip_convert_v4_mapped_to_v4 m loopback) = NABTO_IPV4
  /\ ip_v4 (np_ip_convert_v4_mapped_to_v4 m loopback) = [127; 0; 0; 1].
Proof. exact (ip_v4_mapped_roundtrip loopback loopback loopback loopback_wf loopback_wf loopback_wf). Defined.
