(* ===== verification/HexUtil.v ===== *)
(** * Hexadecimal conversion (src/platform/np_util.c) *)

From S2P Require Import Prelude.

#[local] Open Scope c_scope.

(** The value of a hexadecimal character, as the chain of comparisons in the loop. *)
Definition hex_value (c : Z) : option Z :=
  if (48 <=? c) && (c <=? 57) then Some (c - 48)
  else if (65 <=? c) && (c <=? 70) then Some (10 + (c - 65))
  else if (97 <=? c) && (c <=? 102) then Some (10 + (c - 97))
  else None.

(** The [while] loop: [ptr] is what is left of the string, [index] the nibble. *)
Fixpoint hex_loop (ptr : list Z) (index : nat) (data : list Z) : cres (bool * list Z) :=
  match ptr with
  | [] => Def (true, data)
  | c :: ptr' =>
      match hex_value c with
      | None => Def (false, data)
      | Some value =>
          let! old := rd data (index / 2) in
          let shift := Z.of_nat (((index + 1) mod 2) * 4) in
          hex_loop ptr' (index + 1) (<[(index / 2)%nat := u8 (old + Z.shiftl value shift)]> data)
      end
  end.

(** [hex] and [data] are the arrays the pointers designate, of [hexLength] and
    [dataLength] elements; the result is the return value and the array after. *)
Definition np_hex_to_data_length (hex data : list Z) : cres (bool * list Z) :=
  let hexLength := Z.of_nat (length hex) in
  let dataLength := Z.of_nat (length data) in
  if negb ((hexLength =? u64 (dataLength * 2)) || (hexLength =? u64 (dataLength * 2 - 1)))
  then Def (false, data)
  else
    let index := if hexLength mod 2 =? 1 then 1%nat else 0%nat in
    hex_loop hex index (replicate (length data) 0).

Definition np_hex_to_data (hex data : list Z) : cres (bool * list Z) :=
  np_hex_to_data_length hex data.

Definition encodeChar (val : Z) : Z :=
  if val <=? 9 then u8 (48 + val) else u8 (97 + (val - 10)).

Fixpoint np_data_to_hex (data : list Z) : list Z :=
  match data with
  | [] => []
  | byte :: tl =>
      let high := Z.land (Z.shiftr byte 4) 15 in
      let low := Z.land byte 15 in
      encodeChar high :: encodeChar low :: np_data_to_hex tl
  end.

(** ** Reference decoder *)

(** The bytes denoted by an even number of hexadecimal characters. *)
Fixpoint hex_pairs (hex : list Z) : option (list Z) :=
  match hex with
  | [] => Some []
  | [_] => None
  | h :: l :: tl =>
      match hex_value h, hex_value l, hex_pairs tl with
      | Some vh, Some vl, Some ds => Some (16 * vh + vl :: ds)
      | _, _, _ => None
      end
  end.

(** An odd number of characters has an implicit leading zero. *)
Definition hex_bytes (hex : list Z) : option (list Z) :=
  if Z.of_nat (length hex) mod 2 =? 1 then hex_pairs (48 :: hex) else hex_pairs hex.

(** ** Lemmas *)

Lemma hex_value_range c v : hex_value c = Some v -> 0 <= v < 16.
Proof.
  unfold hex_value. repeat case_match; intros; simplify_eq;
    repeat match goal with H : (_ && _) = true |- _ => apply andb_prop in H as [?%Z.leb_le ?%Z.leb_le] end;
    lia.
Qed.

Lemma half_even k : (2 * k / 2 = k)%nat.
Proof. natdivlia. Qed.

Lemma half_odd k : ((2 * k + 1) / 2 = k)%nat.
Proof. natdivlia. Qed.

Lemma shift_even k : (((2 * k + 1) mod 2) * 4 = 4)%nat.
Proof. natdivlia. Qed.

Lemma shift_odd k : (((2 * k + 1 + 1) mod 2) * 4 = 0)%nat.
Proof. natdivlia. Qed.

(** One nibble written at [data[k]]. *)
Lemma hex_loop_step c v ptr index done b rest :
  hex_value c = Some v -> (index / 2 = length done)%nat ->
  hex_loop (c :: ptr) index (done ++ b :: rest) =
    hex_loop ptr (index + 1)
      (done ++ u8 (b + Z.shiftl v (Z.of_nat (((index + 1) mod 2) * 4))) :: rest).
Proof.
  intros Hv Hk. cbn [hex_loop]. rewrite Hv, Hk. unfold rd.
  rewrite list_lookup_middle by done. cbn [cres_bind].
  rewrite insert_app_r_alt by done. by rewrite Nat.sub_diag.
Qed.

Lemma hex_loop_bad c ptr index data :
  hex_value c = None -> hex_loop (c :: ptr) index data = Def (false, data).
Proof. intros Hc. cbn [hex_loop]. by rewrite Hc. Qed.

(** The low nibble, after the high one. *)
Lemma hex_loop_low l vl ptr done vh rest :
  hex_value l = Some vl -> 0 <= vh < 16 ->
  hex_loop (l :: ptr) (2 * length done + 1) (done ++ 16 * vh :: rest) =
    hex_loop ptr (2 * length (done ++ [16 * vh + vl])) ((done ++ [16 * vh + vl]) ++ rest).
Proof.
  intros Hl Hh. pose proof (hex_value_range _ _ Hl).
  rewrite (hex_loop_step l vl) by (done || apply half_odd).
  rewrite shift_odd, Z.shiftl_0_r, u8_small by solve_int.
  rewrite length_app, <- app_assoc. cbn [length app]. f_equal. lia.
Qed.

Lemma hex_loop_pairs ptr done :
  (length ptr mod 2 = 0)%nat ->
  match hex_pairs ptr with
  | Some ds => hex_loop ptr (2 * length done) (done ++ replicate (length ptr / 2) 0)
               = Def (true, done ++ ds)
  | None => exists data, hex_loop ptr (2 * length done) (done ++ replicate (length ptr / 2) 0)
               = Def (false, data)
  end.
Proof.
  remember (length ptr) as n eqn:Hn. revert ptr done Hn.
  induction (lt_wf n) as [n _ IH]. intros [| h [| l ptr]] done -> Heven.
  - cbn. by rewrite app_nil_r.
  - done.
  - cbn [length] in *.
    assert (E : (S (S (length ptr)) / 2 = S (length ptr / 2))%nat) by natdivlia.
    assert (P : (length ptr mod 2 = 0)%nat) by natdivlia.
    rewrite E. cbn [replicate hex_pairs].
    destruct (hex_value h) as [vh |] eqn:Hh;
      [| eexists; by apply hex_loop_bad].
    pose proof (hex_value_range _ _ Hh).
    rewrite (hex_loop_step h vh) by (done || apply half_even).
    rewrite shift_even, Z.shiftl_mul_pow2 by lia.
    replace (u8 (0 + vh * 2 ^ Z.of_nat 4)) with (16 * vh)
      by (change (2 ^ Z.of_nat 4) with 16; rewrite u8_small by solve_int; lia).
    destruct (hex_value l) as [vl |] eqn:Hl;
      [| eexists; by apply hex_loop_bad].
    rewrite (hex_loop_low l vl) by done.
    specialize (IH (length ptr) ltac:(lia) ptr (done ++ [16 * vh + vl]) eq_refl P).
    destruct (hex_pairs ptr) as [ds |]; [| done].
    rewrite IH. by rewrite <- app_assoc.
Qed.

Lemma hex_zero : hex_value 48 = Some 0.
Proof. done. Qed.

(** The odd case starts at nibble 1, as if the string had a leading zero. *)
Lemma hex_loop_odd c ptr n :
  hex_loop (c :: ptr) 1 (replicate (S n) 0) = hex_loop (48 :: c :: ptr) 0 (replicate (S n) 0).
Proof.
  cbn [replicate]. change (0 :: replicate n 0) with ([] ++ 0 :: replicate n 0).
  by rewrite (hex_loop_step 48 0).
Qed.

Lemma hex_bytes_length hex ds : hex_pairs hex = Some ds -> length hex = (2 * length ds)%nat.
Proof.
  remember (length hex) as n eqn:Hn. revert hex ds Hn.
  induction (lt_wf n) as [n _ IH]. intros [| h [| l tl]] ds -> Hp; simplify_eq/=; [done |].
  repeat case_match; simplify_eq. cbn [length].
  rewrite (IH (length tl) ltac:(lia) tl l0) by done. lia.
Qed.

Lemma encode_nibble v : 0 <= v < 16 -> hex_value (encodeChar v) = Some v.
Proof.
  intros Hv. assert (Hin : v ∈ seqZ 0 16) by (apply elem_of_seqZ; lia).
  revert v Hin Hv. apply (Forall_forall (fun v => 0 <= v < 16 -> hex_value (encodeChar v) = Some v)).
  repeat (apply Forall_cons; split; [done |]). by apply Forall_nil.
Qed.

Lemma nibbles b : is_byte b ->
  Z.land (Z.shiftr b 4) 15 = b / 16 /\ Z.land b 15 = b mod 16 /\ 0 <= b / 16 < 16.
Proof.
  intros Hb. change 15 with (Z.ones 4). rewrite !Z.land_ones, Z.shiftr_div_pow2 by lia.
  split_and!; divlia.
Qed.

Lemma data_to_hex_pairs data : bytes data -> hex_pairs (np_data_to_hex data) = Some data.
Proof.
  induction 1 as [| b data Hb _ IH]; [done |]. cbn [np_data_to_hex hex_pairs].
  destruct (nibbles b Hb) as (-> & -> & ?).
  rewrite !encode_nibble, IH by divlia. do 2 f_equal. divlia.
Qed.

Lemma data_to_hex_length data : length (np_data_to_hex data) = (2 * length data)%nat.
Proof. induction data; simpl; lia. Qed.

(** The length test, on lengths that fit in [size_t]. *)
Lemma length_test (hex data : list Z) :
  Z.of_nat (length hex) < 2 ^ 63 -> Z.of_nat (length data) < 2 ^ 62 ->
  (Z.of_nat (length hex) =? u64 (Z.of_nat (length data) * 2))
  || (Z.of_nat (length hex) =? u64 (Z.of_nat (length data) * 2 - 1))
  = bool_decide ((length hex + 1) / 2 = length data)%nat.
Proof.
  intros Hh Hd. apply eq_true_iff_eq. rewrite orb_true_iff, !Z.eqb_eq, bool_decide_eq_true.
  rewrite u64_small by solve_int.
  destruct (length data) as [| n] eqn:E.
  - change (u64 (Z.of_nat 0 * 2 - 1)) with (2 ^ 64 - 1). eval_pows. natdivlia.
  - rewrite u64_small by solve_int. natdivlia.
Qed.

Lemma hex_loop_correct hex n :
  ((length hex + 1) / 2 = n)%nat ->
  let index := if Z.of_nat (length hex) mod 2 =? 1 then 1%nat else 0%nat in
  match hex_bytes hex with
  | Some ds => hex_loop hex index (replicate n 0) = Def (true, ds)
  | None => exists data', hex_loop hex index (replicate n 0) = Def (false, data')
  end.
Proof.
  intros Hn index. subst index. unfold hex_bytes.
  destruct (Z.eqb_spec (Z.of_nat (length hex) mod 2) 1) as [Hodd | Heven].
  - destruct hex as [| c ptr]; [done |]. destruct n as [| n]; [exfalso; cbn [length] in *; natdivlia |].
    rewrite hex_loop_odd. cbn [length] in *.
    pose proof (hex_loop_pairs (48 :: c :: ptr) []) as H. cbn [length app] in H.
    replace (S (S (length ptr)) / 2)%nat with (S n) in H by natdivlia.
    apply H. natdivlia.
  - pose proof (hex_loop_pairs hex []) as H. cbn [length app] in H.
    replace (length hex / 2)%nat with n in H by natdivlia. apply H. natdivlia.
Qed.

(** The number of bytes a string denotes. *)
Lemma hex_bytes_count hex ds :
  hex_bytes hex = Some ds -> length ds = ((length hex + 1) / 2)%nat.
Proof.
  unfold hex_bytes. case_match; intros HL%hex_bytes_length; cbn [length] in HL; natdivlia.
Qed.

(** ** Properties *)

(** C38. [np_hex_to_data_length] never touches memory outside of [data], and it
    computes the reference decoder: it succeeds exactly when the string denotes
    as many bytes as [data] has (an odd length counts as having a leading zero),
    and then stores these bytes. *)
Theorem hex_to_data_correct hex data :
  Z.of_nat (length hex) < 2 ^ 63 -> Z.of_nat (length data) < 2 ^ 62 ->
  match hex_bytes hex with
  | Some ds => if decide (length ds = length data)
               then np_hex_to_data hex data = Def (true, ds)
               else np_hex_to_data hex data = Def (false, data)
  | None => exists data', np_hex_to_data hex data = Def (false, data')
  end.
Proof.
  intros Hh Hd. unfold np_hex_to_data, np_hex_to_data_length. rewrite length_test by done.
  case_bool_decide as Hn; cbn [negb].
  - pose proof (hex_loop_correct hex _ Hn) as H.
    destruct (hex_bytes hex) as [ds |] eqn:E; [| exact H].
    rewrite decide_True; [exact H |]. by rewrite (hex_bytes_count _ _ E).
  - destruct (hex_bytes hex) as [ds |] eqn:E; [| by eexists].
    rewrite decide_False; [done |]. by rewrite (hex_bytes_count _ _ E).
Qed.

(** C6: the witness decodes an odd number of characters. *)
Lemma hex_to_data_correct_witness :
  np_hex_to_data [49; 65; 102] [0; 0] = Def (true, [1; 175]).
Proof. exact (hex_to_data_correct [49; 65; 102] [0; 0] eq_refl eq_refl). Defined.

(** Encoding bytes as hexadecimal and decoding the result gives the bytes back. *)
Lemma hex_roundtrip data dst :
  bytes data -> length dst = length data -> Z.of_nat (length data) < 2 ^ 62 ->
  np_hex_to_data (np_data_to_hex data) dst = Def (true, data).
Proof.
  intros Hb Hl Hs. pose proof (data_to_hex_length data) as L.
  unfold np_hex_to_data, np_hex_to_data_length.
  rewrite length_test by (rewrite ?L, ?Hl; lia).
  rewrite bool_decide_eq_true_2 by (rewrite L, Hl; natdivlia). cbn [negb].
  pose proof (hex_loop_correct (np_data_to_hex data) (length dst)) as H.
  unfold hex_bytes in H. rewrite L in *.
  replace (Z.of_nat (2 * length data) mod 2 =? 1) with false in *
    by (symmetry; apply Z.eqb_neq; natdivlia).
  rewrite data_to_hex_pairs in H by done. apply H. rewrite Hl. natdivlia.
Qed.

(** C7: the witness round-trips three bytes. *)
Lemma hex_roundtrip_witness :
  np_hex_to_data (np_data_to_hex [0; 171; 255]) [9; 9; 9] = Def (true, [0; 171; 255]).
Proof. exact (hex_roundtrip [0; 171; 255] [9; 9; 9] ltac:(by_compute) eq_refl eq_refl). Defined.
