(* ===== verification/Collections.v ===== *)
(** * Interfaces of the collections of nabto-common (nn/llist.h, nn/string_set.h,
      nn/string_map.h)

    The library is a git submodule whose sources are not part of the repository.
    Each collection is a class of operations and a class of laws; the components
    are defined over the operations and their theorems assume the laws. The
    instances at the end show that the laws can be met. *)

From S2P Require Import Prelude.
From stdpp Require Import gmap.

(** ** Intrusive lists: [nn_llist] *)

(** Lists and nodes are identified by their addresses. [H] is the memory that holds
    the links of all lists; [ll_items h l] are the nodes that an iteration from
    [nn_llist_begin] with [nn_llist_next] visits. *)
Definition lid : Type := nat.
Definition nid : Type := nat.

Class LList (H : Type) : Type := {
  ll_items : H -> lid -> list nid;
  ll_init : H -> lid -> H;
  ll_node_init : H -> nid -> H;
  ll_append : H -> lid -> nid -> H;
  ll_insert_before : H -> nid -> nid -> H;
  ll_erase_node : H -> nid -> H;
  ll_in_list : H -> nid -> bool
}.

Class LListLaws (H : Type) `{LList H} : Type := {
  ll_ok : H -> Prop;
  ll_nodup : forall h l, ll_ok h -> NoDup (ll_items h l);
  ll_disjoint : forall h l l' n, ll_ok h -> n ∈ ll_items h l -> n ∈ ll_items h l' -> l = l';
  ll_in_list_spec : forall h n, ll_ok h ->
    (ll_in_list h n = true <-> exists l, n ∈ ll_items h l);
  ll_init_ok : forall h l, ll_ok h -> ll_items h l = [] -> ll_ok (ll_init h l);
  ll_init_items : forall h l l', ll_ok h -> ll_items h l = [] ->
    ll_items (ll_init h l) l' = ll_items h l';
  ll_node_init_ok : forall h n, ll_ok h -> ll_in_list h n = false -> ll_ok (ll_node_init h n);
  ll_node_init_items : forall h n l, ll_ok h -> ll_in_list h n = false ->
    ll_items (ll_node_init h n) l = ll_items h l;
  ll_append_ok : forall h l n, ll_ok h -> ll_in_list h n = false -> ll_ok (ll_append h l n);
  ll_append_items : forall h l n l', ll_ok h -> ll_in_list h n = false ->
    ll_items (ll_append h l n) l' =
      if decide (l' = l) then ll_items h l ++ [n] else ll_items h l';
  ll_insert_ok : forall h l p n, ll_ok h -> ll_in_list h n = false -> p ∈ ll_items h l ->
    ll_ok (ll_insert_before h p n);
  ll_insert_items : forall h l pre p post n l', ll_ok h -> ll_in_list h n = false ->
    ll_items h l = pre ++ p :: post ->
    ll_items (ll_insert_before h p n) l' =
      if decide (l' = l) then pre ++ n :: p :: post else ll_items h l';
  ll_erase_ok : forall h n, ll_ok h -> ll_in_list h n = true -> ll_ok (ll_erase_node h n);
  ll_erase_items : forall h n l, ll_ok h -> ll_in_list h n = true ->
    ll_items (ll_erase_node h n) l = filter (fun m => m <> n) (ll_items h l)
}.

(** ** String sets: [nn_string_set] *)

(** [ss_insert] returns [false] when the memory for the string cannot be allocated;
    [ss_elements] is the order in which [NN_STRING_SET_FOREACH] visits the set. *)
Class StringSet (S : Type) : Type := {
  ss_empty : S;
  ss_insert : S -> string -> bool * S;
  ss_erase : S -> string -> S;
  ss_contains : S -> string -> bool;
  ss_elements : S -> list string
}.

Class StringSetLaws (S : Type) `{StringSet S} : Type := {
  ss_empty_elements : ss_elements ss_empty = [];
  ss_contains_spec : forall s x, ss_contains s x = true <-> x ∈ ss_elements s;
  ss_insert_spec : forall s x s', ss_insert s x = (true, s') ->
    forall y, y ∈ ss_elements s' <-> y = x \/ y ∈ ss_elements s;
  ss_insert_fail : forall s x s', ss_insert s x = (false, s') -> s' = s;
  ss_erase_spec : forall s x y, y ∈ ss_elements (ss_erase s x) <-> y <> x /\ y ∈ ss_elements s;
  ss_nodup : forall s, NoDup (ss_elements s)
}.

(** ** String maps: [nn_string_map] *)

Class StringMap (M : Type) : Type := {
  sm_empty : M;
  sm_get : M -> string -> option string;
  sm_insert : M -> string -> string -> M;
  sm_items : M -> list (string * string)
}.

Class StringMapLaws (M : Type) `{StringMap M} : Type := {
  sm_get_empty : forall k, sm_get sm_empty k = None;
  sm_get_insert : forall m k v k',
    sm_get (sm_insert m k v) k' = if decide (k' = k) then Some v else sm_get m k';
  sm_items_spec : forall m k v, (k, v) ∈ sm_items m <-> sm_get m k = Some v;
  sm_items_nodup : forall m, NoDup (sm_items m).*1
}.

(** ** Instances *)

(** Lists as a finite map from list addresses to the nodes in order. *)
Abbreviation heap := (gmap nat (list nat)).

Definition heap_items (h : heap) (l : nat) : list nat := default [] (h !! l).
Definition heap_in_list (h : heap) (n : nat) : bool :=
  existsb (fun p : nat * list nat => bool_decide (n ∈ p.2)) (map_to_list h).
Fixpoint place_before (p n : nat) (xs : list nat) : list nat :=
  match xs with
  | [] => []
  | x :: tl => if decide (x = p) then n :: x :: tl else x :: place_before p n tl
  end.

#[global] Instance heap_llist : LList heap := {
  ll_items := heap_items;
  ll_init := fun h l => <[l := []]> h;
  ll_node_init := fun h n => h;
  ll_append := fun h l n => <[l := heap_items h l ++ [n]]> h;
  ll_insert_before := fun h p n => place_before p n <$> h;
  ll_erase_node := fun h n => filter (fun m : nat => m <> n) <$> h;
  ll_in_list := heap_in_list
}.

Definition heap_ok (h : heap) : Prop :=
  (forall l, NoDup (heap_items h l)) /\
  (forall l l' n, n ∈ heap_items h l -> n ∈ heap_items h l' -> l = l').

Lemma heap_in_list_spec h n : heap_in_list h n = true <-> exists l, n ∈ heap_items h l.
Proof.
  unfold heap_in_list. rewrite existsb_exists. split.
  - intros ([l xs] & Hin & Hn%bool_decide_eq_true). exists l.
    apply list_elem_of_In, elem_of_map_to_list in Hin.
    unfold heap_items. by rewrite Hin.
  - intros (l & Hn). unfold heap_items in Hn. destruct (h !! l) as [xs |] eqn:E; simpl in Hn.
    + exists (l, xs). split; [| by apply bool_decide_eq_true].
      by apply list_elem_of_In, elem_of_map_to_list.
    + by apply not_elem_of_nil in Hn.
Qed.

Lemma heap_items_fmap (f : list nat -> list nat) (h : heap) l :
  f [] = [] -> heap_items (f <$> h) l = f (heap_items h l).
Proof. intros Hf. unfold heap_items. rewrite lookup_fmap. by destruct (h !! l). Qed.

Lemma place_before_split pre p post n :
  p ∉ pre -> place_before p n (pre ++ p :: post) = pre ++ n :: p :: post.
Proof.
  induction pre as [| x pre IH]; cbn; intros Hp; [by rewrite decide_True |].
  rewrite not_elem_of_cons in Hp. destruct Hp as [Hx Hp].
  rewrite decide_False by done. by rewrite IH.
Qed.

Lemma place_before_absent p n xs : p ∉ xs -> place_before p n xs = xs.
Proof.
  induction xs as [| x xs IH]; cbn; intros Hp; [done |].
  rewrite not_elem_of_cons in Hp. destruct Hp as [Hx Hp].
  rewrite decide_False by done. by rewrite IH.
Qed.

Lemma heap_not_in h n l : heap_in_list h n = false -> n ∉ heap_items h l.
Proof.
  intros Hf Hin. assert (heap_in_list h n = true) by (apply heap_in_list_spec; eauto). congruence.
Qed.

Lemma heap_items_insert (h : heap) l xs l' :
  heap_items (<[l := xs]> h) l' = if decide (l' = l) then xs else heap_items h l'.
Proof.
  unfold heap_items. destruct (decide (l' = l)) as [-> |]; [by rewrite lookup_insert_eq |].
  by rewrite lookup_insert_ne.
Qed.

Lemma heap_insert_items (h : heap) l pre p post n l' :
  heap_ok h -> heap_items h l = pre ++ p :: post ->
  heap_items (place_before p n <$> h) l' =
    if decide (l' = l) then pre ++ n :: p :: post else heap_items h l'.
Proof.
  intros [Hnd Hdis] E. rewrite heap_items_fmap by done. destruct (decide (l' = l)) as [-> | Hne].
  - rewrite E. apply place_before_split. intros Hin. specialize (Hnd l). rewrite E in Hnd.
    apply NoDup_app in Hnd as (_ & Hnd & _). apply (Hnd p Hin). set_solver.
  - apply place_before_absent. intros Hin. apply Hne, (Hdis _ _ p Hin). rewrite E. set_solver.
Qed.

(** A heap obtained by adding a node that is in no list to one list is well formed. *)
Lemma heap_ok_add (h h' : heap) l n xs :
  heap_ok h -> heap_in_list h n = false -> xs ≡ₚ n :: heap_items h l ->
  (forall l', heap_items h' l' = if decide (l' = l) then xs else heap_items h l') ->
  heap_ok h'.
Proof.
  intros [Hnd Hdis] Hn Hp E. split.
  - intros l'. rewrite E. case_decide; [| apply Hnd]. rewrite Hp.
    apply NoDup_cons. split; [by apply heap_not_in | apply Hnd].
  - intros l1 l2 m. rewrite !E. pose proof (heap_not_in h n) as Hni.
    repeat case_decide; subst; rewrite ?Hp, ?elem_of_cons; naive_solver.
Qed.

#[global] Program Instance heap_llist_laws : LListLaws heap := { ll_ok := heap_ok }.
Next Obligation. by intros h l [? _]. Qed.
Next Obligation. intros h l l' n [_ Hd]. apply Hd. Qed.
Next Obligation. intros h n _. apply heap_in_list_spec. Qed.
Next Obligation.
  intros h l [Hnd Hd] E. cbn in E. split; intros *; cbn; rewrite !heap_items_insert.
  - case_decide; [constructor | apply Hnd].
  - repeat case_decide; set_solver.
Qed.
Next Obligation. intros h l l' _ E. cbn in *. rewrite heap_items_insert. by case_decide; subst. Qed.
Next Obligation. done. Qed.
Next Obligation. done. Qed.
Next Obligation.
  intros h l n Hok Hn. eapply heap_ok_add; [done | done | | apply heap_items_insert].
  by rewrite Permutation_app_comm.
Qed.
Next Obligation. intros h l n l' _ _. cbn. apply heap_items_insert. Qed.
Next Obligation.
  intros h l p n Hok Hn (pre & post & E)%list_elem_of_split.
  eapply heap_ok_add; [done | done | | intros l'; by apply heap_insert_items].
  cbn in E. rewrite E. by rewrite <- Permutation_middle.
Qed.
Next Obligation. intros h l pre p post n l' Hok _ E. by apply heap_insert_items. Qed.
Next Obligation.
  intros h n [Hnd Hd] _. split; intros *; cbn; rewrite !heap_items_fmap by done.
  - apply NoDup_filter, Hnd.
  - rewrite !list_elem_of_filter. naive_solver.
Qed.
Next Obligation. intros h n l _ _. cbn. by rewrite heap_items_fmap. Qed.

(** String sets and maps as finite sets and maps of strings. *)
#[global] Instance gset_string_set : StringSet (gset string) := {
  ss_empty := ∅;
  ss_insert := fun s x => (true, {[x]} ∪ s);
  ss_erase := fun s x => s ∖ {[x]};
  ss_contains := fun s x => bool_decide (x ∈ s);
  ss_elements := elements
}.

#[global] Program Instance gset_string_set_laws : StringSetLaws (gset string).
Next Obligation. apply elements_empty. Qed.
Next Obligation. intros s x. cbn. by rewrite bool_decide_eq_true, elem_of_elements. Qed.
Next Obligation. intros s x s' [= <-] y. cbn. rewrite !elem_of_elements. set_solver. Qed.
Next Obligation. done. Qed.
Next Obligation. intros s x y. cbn. rewrite !elem_of_elements. set_solver. Qed.
Next Obligation. intros s. apply NoDup_elements. Qed.

#[global] Instance gmap_string_map : StringMap (gmap string string) := {
  sm_empty := ∅;
  sm_get := fun m k => m !! k;
  sm_insert := fun m k v => <[k := v]> m;
  sm_items := map_to_list
}.

#[global] Program Instance gmap_string_map_laws : StringMapLaws (gmap string string).
Next Obligation. intros k. apply lookup_empty. Qed.
Next Obligation.
  intros m k v k'. cbn. case_decide; subst; [by rewrite lookup_insert_eq | by rewrite lookup_insert_ne].
Qed.
Next Obligation. intros m k v. apply elem_of_map_to_list. Qed.
Next Obligation. intros m. apply NoDup_fst_map_to_list. Qed.
