(* ===== verification/EventQueue.v ===== *)
(** * Timestamps and the event queue (np_timestamp_wrapper.c, nm_event_queue.c,
      thread_event_queue.c)

    The queue has two intrusive lists, [events] and [timedEvents], in the memory of
    an [LList] implementation. Timestamps are 32-bit millisecond counters compared by
    signed subtraction, which C leaves undefined when it overflows: comparisons are
    in [cres]. *)

From S2P Require Import Prelude Collections.
From stdpp Require Import gmap functions sorting.

#[local] Open Scope Z_scope.
#[local] Open Scope c_scope.

(** ** Timestamps *)

Definition INT32_MAX : Z := 2 ^ 31 - 1.
Definition INT32_MIN : Z := - 2 ^ 31.

(** Signed 32-bit subtraction. *)
Definition sub_int32 (a b : Z) : cres Z :=
  if (INT32_MIN <=? a - b) && (a - b <=? INT32_MAX) then Def (a - b) else UB.

Definition np_timestamp_less_or_equal (t1 t2 : Z) : cres bool :=
  let! d := sub_int32 (to_int32 t1) (to_int32 t2) in Def (d <=? 0).

Definition np_timestamp_difference (t1 t2 : Z) : cres Z :=
  sub_int32 (to_int32 t1) (to_int32 t2).

Definition np_timestamp_future (now ms : Z) : Z := u32 (now + ms).

Definition np_timestamp_passed_or_now (now stamp : Z) : cres bool :=
  np_timestamp_less_or_equal stamp now.

(** ** The queue *)

Section Queue.
Context {H : Type} `{LList H}.

(** [struct nm_event_queue]: the addresses of its two lists. *)
Record nm_event_queue : Type := { events : lid; timedEvents : lid }.

(** The memory: the links of the lists, and [expireTimestamp] of each event (an event
    is named by its [eventsNode]). *)
Record eq_mem : Type := mk_mem { links : H; expireTimestamp : nid -> Z }.

Variable queue : nm_event_queue.

Definition nm_event_queue_init (m : eq_mem) : eq_mem :=
  mk_mem (ll_init (ll_init (links m) (events queue)) (timedEvents queue)) (expireTimestamp m).

Definition nm_event_queue_event_init (m : eq_mem) (e : nid) : eq_mem :=
  mk_mem (ll_node_init (links m) e) (expireTimestamp m).

Definition nm_event_queue_post_event (m : eq_mem) (e : nid) : eq_mem :=
  if ll_in_list (links m) e then m
  else mk_mem (ll_append (links m) (events queue) e) (expireTimestamp m).

Definition nm_event_queue_post_event_maybe_double (m : eq_mem) (e : nid) : eq_mem :=
  if ll_in_list (links m) e then m
  else mk_mem (ll_append (links m) (events queue) e) (expireTimestamp m).

Definition nm_event_queue_cancel_event (m : eq_mem) (e : nid) : eq_mem :=
  if ll_in_list (links m) e then mk_mem (ll_erase_node (links m) e) (expireTimestamp m) else m.

Definition nm_event_queue_event_deinit (m : eq_mem) (e : nid) : eq_mem :=
  nm_event_queue_cancel_event m e.

(** The [while] loop of [post_timed_event] over the nodes of [timedEvents]: the first
    node whose stamp is not before the new one, if any. *)
Fixpoint find_position (stamp : nid -> Z) (timestamp : Z) (its : list nid) : cres (option nid) :=
  match its with
  | [] => Def None
  | it :: rest =>
      let! le := np_timestamp_less_or_equal timestamp (stamp it) in
      if le : bool then Def (Some it) else find_position stamp timestamp rest
  end.

Definition nm_event_queue_post_timed_event (m : eq_mem) (e : nid) (timestamp : Z) : cres eq_mem :=
  let stamp := <[e := timestamp]> (expireTimestamp m) in
  let h := if ll_in_list (links m) e then ll_erase_node (links m) e else links m in
  let! pos := find_position stamp timestamp (ll_items h (timedEvents queue)) in
  match pos with
  | Some it => Def (mk_mem (ll_insert_before h it e) stamp)
  | None => Def (mk_mem (ll_append h (timedEvents queue) e) stamp)
  end.

Definition nm_event_queue_take_event (m : eq_mem) : option nid * eq_mem :=
  match ll_items (links m) (events queue) with
  | [] => (None, m)
  | e :: _ => (Some e, mk_mem (ll_erase_node (links m) e) (expireTimestamp m))
  end.

Definition nm_event_queue_take_timed_event (m : eq_mem) (now : Z) : cres (option nid * eq_mem) :=
  match ll_items (links m) (timedEvents queue) with
  | [] => Def (None, m)
  | e :: _ =>
      let! le := np_timestamp_less_or_equal (expireTimestamp m e) now in
      if le : bool
      then Def (Some e, mk_mem (ll_erase_node (links m) e) (expireTimestamp m))
      else Def (None, m)
  end.

Definition nm_event_queue_next_timed_event (m : eq_mem) : option Z :=
  match ll_items (links m) (timedEvents queue) with
  | [] => None
  | e :: _ => Some (expireTimestamp m e)
  end.

(** ** The thread of thread_event_queue.c *)

(** What one round of the loop of [queue_thread] does after it has looked at the queue. *)
Inductive round : Type :=
| RunCallback (e : nid)
| TimedWait (diff : Z)
| ReturnNull
| CondWait.

(** One round, with the time read at its start and the [stopped] flag; the queue mutex
    is held over the whole look at the queue. *)
Definition queue_thread_round (m : eq_mem) (now : Z) (stopped : bool) : cres (round * eq_mem) :=
  match nm_event_queue_take_event m with
  | (Some e, m1) => Def (RunCallback e, m1)
  | (None, _) =>
      let! (taken, m2) := nm_event_queue_take_timed_event m now in
      match taken with
      | Some e => Def (RunCallback e, m2)
      | None =>
          match nm_event_queue_next_timed_event m2 with
          | Some nextEvent =>
              let! diff := np_timestamp_difference nextEvent now in Def (TimedWait diff, m2)
          | None => if stopped then Def (ReturnNull, m2) else Def (CondWait, m2)
          end
      end
  end.

(** [post_timed_event] of thread_event_queue.c. *)
Definition post_timed_event (m : eq_mem) (now : Z) (e : nid) (milliseconds : Z) : cres eq_mem :=
  nm_event_queue_post_timed_event m e (u32 (now + milliseconds)).

(** ** Runs: sequences of operations on one queue *)

Inductive op : Type :=
| OpPost (e : nid)
| OpPostMaybeDouble (e : nid)
| OpCancel (e : nid)
| OpPostTimed (e : nid) (timestamp : Z)
| OpTake
| OpTakeTimed (now : Z).

Definition run_op (m : eq_mem) (o : op) : cres (option nid * eq_mem) :=
  match o with
  | OpPost e => Def (None, nm_event_queue_post_event m e)
  | OpPostMaybeDouble e => Def (None, nm_event_queue_post_event_maybe_double m e)
  | OpCancel e => Def (None, nm_event_queue_cancel_event m e)
  | OpPostTimed e ts => let! m' := nm_event_queue_post_timed_event m e ts in Def (None, m')
  | OpTake => Def (nm_event_queue_take_event m)
  | OpTakeTimed now => nm_event_queue_take_timed_event m now
  end.

Fixpoint run_ops (m : eq_mem) (os : list op) : cres (list (option nid) * eq_mem) :=
  match os with
  | [] => Def ([], m)
  | o :: rest =>
      let! (r, m1) := run_op m o in
      let! (rs, m2) := run_ops m1 rest in Def (r :: rs, m2)
  end.
End Queue.
Arguments eq_mem H : clear implicits.

(** ** Abstract specification *)

(** The ready events in order of posting, and the pending timers as a map from events
    to expiry stamps. *)
Record aqueue : Type := mk_aqueue { a_ready : list nid; a_timed : gmap nid Z }.

Definition a_posted (a : aqueue) (e : nid) : Prop := e ∈ a_ready a \/ is_Some (a_timed a !! e).

#[global] Instance a_posted_dec a e : Decision (a_posted a e).
Proof. unfold a_posted. apply _. Defined.

Definition a_cancel (a : aqueue) (e : nid) : aqueue :=
  mk_aqueue (filter (fun x => x <> e) (a_ready a)) (delete e (a_timed a)).

Definition a_post (a : aqueue) (e : nid) : aqueue :=
  if decide (a_posted a e) then a else mk_aqueue (a_ready a ++ [e]) (a_timed a).

(** Which answer and which queue after an operation the specification allows. *)
Inductive astep : aqueue -> op -> option nid -> aqueue -> Prop :=
| AS_post a e : astep a (OpPost e) None (a_post a e)
| AS_post_maybe a e : astep a (OpPostMaybeDouble e) None (a_post a e)
| AS_cancel a e : astep a (OpCancel e) None (a_cancel a e)
| AS_post_timed a e ts :
    astep a (OpPostTimed e ts) None
      (mk_aqueue (a_ready (a_cancel a e)) (<[e := ts]> (a_timed a)))
| AS_take_none a : a_ready a = [] -> astep a OpTake None a
| AS_take a e rest : a_ready a = e :: rest ->
    astep a OpTake (Some e) (mk_aqueue rest (a_timed a))
| AS_timed_none a now :
    (forall e ts, a_timed a !! e = Some ts -> to_int32 now < to_int32 ts) ->
    astep a (OpTakeTimed now) None a
| AS_timed a now e ts :
    a_timed a !! e = Some ts -> to_int32 ts <= to_int32 now ->
    (forall e' ts', a_timed a !! e' = Some ts' -> to_int32 ts <= to_int32 ts') ->
    astep a (OpTakeTimed now) (Some e) (mk_aqueue (a_ready a) (delete e (a_timed a))).

Inductive asteps : aqueue -> list op -> list (option nid) -> aqueue -> Prop :=
| ASS_nil a : asteps a [] [] a
| ASS_cons a o r a1 os rs a2 :
    astep a o r a1 -> asteps a1 os rs a2 -> asteps a (o :: os) (r :: rs) a2.

(** Stamps that are compared lie in a window of [2^31] on the signed axis. *)
Definition in_window (base t : Z) : Prop := base <= to_int32 t < base + 2 ^ 31.

Definition op_in_window (base : Z) (o : op) : Prop :=
  match o with
  | OpPostTimed _ t | OpTakeTimed t => in_window base t
  | _ => True
  end.

#[global] Instance in_window_dec base t : Decision (in_window base t).
Proof. unfold in_window. apply _. Defined.
#[global] Instance op_in_window_dec base o : Decision (op_in_window base o).
Proof. destruct o; simpl; apply _. Defined.

(** What the thread may do next when the queue is [a] at time [now]. *)
Definition round_allowed (a : aqueue) (now : Z) (stopped : bool) (r : round) : Prop :=
  match r with
  | RunCallback e =>
      head (a_ready a) = Some e \/
      (a_ready a = [] /\ exists ts, a_timed a !! e = Some ts /\ to_int32 ts <= to_int32 now /\
         forall e' ts', a_timed a !! e' = Some ts' -> to_int32 ts <= to_int32 ts')
  | TimedWait diff =>
      a_ready a = [] /\ 0 < diff /\
      (exists e ts, a_timed a !! e = Some ts /\ diff = to_int32 ts - to_int32 now) /\
      (forall e ts, a_timed a !! e = Some ts -> diff <= to_int32 ts - to_int32 now)
  | ReturnNull => a_ready a = [] /\ a_timed a = ∅ /\ stopped = true
  | CondWait => a_ready a = [] /\ a_timed a = ∅ /\ stopped = false
  end.

(** ** Timestamps: theorems *)

Lemma to_int32_range t : INT32_MIN <= to_int32 t <= INT32_MAX.
Proof. unfold to_int32, INT32_MIN, INT32_MAX. pose proof (u32_range t). case_match; solve_int. Qed.

Lemma sub_int32_small a b : INT32_MIN <= a - b <= INT32_MAX -> sub_int32 a b = Def (a - b).
Proof. intros. unfold sub_int32. by rewrite !(proj2 (Z.leb_le _ _)) by lia. Qed.

Lemma less_or_equal_window base t1 t2 :
  in_window base t1 -> in_window base t2 ->
  np_timestamp_less_or_equal t1 t2 = Def (to_int32 t1 <=? to_int32 t2).
Proof.
  unfold in_window, np_timestamp_less_or_equal. intros.
  rewrite sub_int32_small by (unfold INT32_MIN, INT32_MAX; lia). cbn. f_equal.
  destruct (Z.leb_spec (to_int32 t1) (to_int32 t2)), (Z.leb_spec (to_int32 t1 - to_int32 t2) 0); lia.
Qed.

Lemma to_int32_add t d :
  is_uint 32 t -> 0 <= d < 2 ^ 31 ->
  to_int32 (u32 (t + d)) =
    if to_int32 t + d <? 2 ^ 31 then to_int32 t + d else to_int32 t + d - 2 ^ 32.
Proof.
  intros Ht Hd. unfold to_int32. unfold_ints. eval_pows.
  rewrite Z.mod_mod by lia. rewrite (Z.mod_small t) by lia.
  Z.to_euclidean_division_equations.
  repeat match goal with |- context [?a <? ?b] => destruct (Z.ltb_spec a b) end; lia.
Qed.

(** ** The queue: theorems *)

Section QueueProofs.
Context {H : Type} `{LListLaws H}.
Variable queue : nm_event_queue.
Variable base : Z.
Hypothesis lists_differ : events queue <> timedEvents queue.

(** Order of the timers in [timedEvents]. *)
Definition stamp_le (stamp : nid -> Z) (e e' : nid) : Prop :=
  to_int32 (stamp e) <= to_int32 (stamp e').

(** The memory [m] represents the abstract queue [a]. *)
Record represents (m : eq_mem H) (a : aqueue) : Prop := {
  rep_ok : ll_ok (links m);
  rep_ready : ll_items (links m) (events queue) = a_ready a;
  rep_dom : forall e, e ∈ ll_items (links m) (timedEvents queue) <-> is_Some (a_timed a !! e);
  rep_stamp : forall e ts, a_timed a !! e = Some ts -> expireTimestamp m e = ts;
  rep_sorted : StronglySorted (stamp_le (expireTimestamp m)) (ll_items (links m) (timedEvents queue));
  rep_window : forall e ts, a_timed a !! e = Some ts -> in_window base ts;
  rep_only : forall e l, e ∈ ll_items (links m) l -> l = events queue \/ l = timedEvents queue
}.

Lemma rep_in_list m a e : represents m a -> ll_in_list (links m) e = bool_decide (a_posted a e).
Proof.
  intros R. apply Bool.eq_true_iff_eq. rewrite bool_decide_eq_true.
  rewrite (ll_in_list_spec _ _ (rep_ok _ _ R)). unfold a_posted.
  rewrite <- (rep_ready _ _ R), <- (rep_dom _ _ R). split; [| naive_solver].
  intros (l & Hl). destruct (rep_only _ _ R _ _ Hl) as [-> | ->]; auto.
Qed.

(** The stamp of a pending timer, from the list. *)
Lemma rep_timed_lookup m a e :
  represents m a -> e ∈ ll_items (links m) (timedEvents queue) ->
  a_timed a !! e = Some (expireTimestamp m e).
Proof.
  intros R [ts Hts]%(rep_dom _ _ R). by rewrite Hts, (rep_stamp _ _ R _ _ Hts).
Qed.

Lemma post_refines m a e :
  represents m a -> represents (nm_event_queue_post_event queue m e) (a_post a e).
Proof.
  intros R. unfold nm_event_queue_post_event, a_post. rewrite (rep_in_list _ _ _ R).
  destruct (decide (a_posted a e)) as [Hp | Hp].
  { by rewrite bool_decide_true. }
  assert (Hn : ll_in_list (links m) e = false)
    by by rewrite (rep_in_list _ _ _ R), bool_decide_false.
  rewrite bool_decide_false by done. destruct R as [Hok Hr Hd Hs Hso Hw Ho]. split; cbn.
  - by apply ll_append_ok.
  - rewrite ll_append_items, decide_True by done. by rewrite Hr.
  - intros e'. by rewrite ll_append_items, decide_False by done.
  - done.
  - by rewrite ll_append_items, decide_False by done.
  - done.
  - intros e' l. rewrite ll_append_items by done. case_decide; [by left | apply Ho].
Qed.

Lemma sorted_filter (R : nid -> nid -> Prop) (P : nid -> Prop) `{forall x, Decision (P x)} l :
  StronglySorted R l -> StronglySorted R (filter P l).
Proof.
  induction 1 as [| x l Hs IH Hf]; [constructor |]. rewrite filter_cons. case_decide; [| done].
  constructor; [done |]. rewrite list.Forall_forall in *. intros y [_ ?]%list_elem_of_filter. auto.
Qed.

(** Erasing a node that is in some list. *)
Lemma erase_refines m a e :
  represents m a -> ll_in_list (links m) e = true ->
  represents (mk_mem (ll_erase_node (links m) e) (expireTimestamp m)) (a_cancel a e).
Proof.
  intros [Hok Hr Hd Hs Hso Hw Ho] Hin. split; cbn.
  - by apply ll_erase_ok.
  - by rewrite ll_erase_items, Hr.
  - intros e'. rewrite ll_erase_items, list_elem_of_filter, Hd, lookup_delete_is_Some by done.
    naive_solver.
  - intros e' ts [? ?]%lookup_delete_Some. by apply Hs.
  - rewrite ll_erase_items by done. by apply sorted_filter.
  - intros e' ts [? ?]%lookup_delete_Some. eauto.
  - intros e' l. rewrite ll_erase_items by done. intros [_ ?]%list_elem_of_filter. eauto.
Qed.

Lemma a_cancel_absent a e : ~ a_posted a e -> a_cancel a e = a.
Proof.
  intros Hn. destruct a as [r t]. unfold a_cancel, a_posted in *; cbn in *. f_equal.
  - apply filter_all. intros x Hx ->. tauto.
  - apply delete_id, eq_None_not_Some. tauto.
Qed.

Lemma cancel_refines m a e :
  represents m a -> represents (nm_event_queue_cancel_event m e) (a_cancel a e).
Proof.
  intros R. unfold nm_event_queue_cancel_event.
  destruct (ll_in_list (links m) e) eqn:E; [by apply erase_refines |].
  rewrite a_cancel_absent; [done |]. rewrite (rep_in_list _ _ _ R) in E.
  by apply bool_decide_eq_false in E.
Qed.

Lemma find_position_spec stamp ts its :
  in_window base ts -> Forall (fun e => in_window base (stamp e)) its ->
  (find_position stamp ts its = Def None /\
     Forall (fun e => to_int32 (stamp e) < to_int32 ts) its) \/
  exists pre it post, find_position stamp ts its = Def (Some it) /\ its = pre ++ it :: post /\
     Forall (fun e => to_int32 (stamp e) < to_int32 ts) pre /\
     to_int32 ts <= to_int32 (stamp it).
Proof.
  intros Hts. induction its as [| it its IH]; intros Hw; [left; by split |].
  inversion_clear Hw as [| ? ? Hit Hrest]. cbn. rewrite (less_or_equal_window base) by done. cbn.
  destruct (Z.leb_spec (to_int32 ts) (to_int32 (stamp it))) as [Hle | Hlt].
  - right. exists [], it, its. by repeat split; try constructor.
  - destruct (IH Hrest) as [[-> Hf] | (pre & p & post & -> & -> & Hf & Hle)].
    + left. split; [done |]. by constructor.
    + right. exists (it :: pre), p, post. repeat split; [| done]. by constructor.
Qed.

(** Inserting a node in front of the first stamp that is not smaller keeps the order. *)
Lemma sorted_insert (R : nid -> nid -> Prop) pre e post :
  StronglySorted R (pre ++ post) -> Forall (fun x => R x e) pre -> Forall (R e) post ->
  StronglySorted R (pre ++ e :: post).
Proof.
  induction pre as [| x pre IH]; cbn; intros Hs Hpre Hpost; [by constructor |].
  inversion_clear Hs as [| ? ? Hs' Hf]. inversion_clear Hpre.
  constructor; [by apply IH |]. rewrite Forall_app in *. destruct Hf. split; [done | by constructor].
Qed.

Lemma sorted_ext (R R' : nid -> nid -> Prop) l :
  (forall x y, x ∈ l -> y ∈ l -> R x y -> R' x y) -> StronglySorted R l -> StronglySorted R' l.
Proof.
  intros Hext Hs. induction Hs as [| x l Hs IH Hf]; constructor.
  - apply IH. intros; apply Hext; set_solver.
  - rewrite list.Forall_forall in *. intros y Hy. apply Hext; [set_solver .. | auto].
Qed.

Lemma sorted_tail_from (R : nid -> nid -> Prop) pre it post :
  StronglySorted R (pre ++ it :: post) -> Forall (R it) post.
Proof. intros Hs. induction pre; cbn in Hs; inversion_clear Hs; auto. Qed.

(** The heart of [post_timed_event]: placing a node that is in no list. *)
Lemma place_refines m a e ts its :
  represents m a -> ~ a_posted a e -> in_window base ts ->
  (forall l, ll_items its l =
     if decide (l = timedEvents queue) then ll_items its (timedEvents queue)
     else ll_items (links m) l) ->
  ll_ok its ->
  ll_items its (timedEvents queue) ≡ₚ e :: ll_items (links m) (timedEvents queue) ->
  StronglySorted (stamp_le (<[e := ts]> (expireTimestamp m))) (ll_items its (timedEvents queue)) ->
  represents (mk_mem its (<[e := ts]> (expireTimestamp m)))
    (mk_aqueue (a_ready a) (<[e := ts]> (a_timed a))).
Proof.
  intros [Hok Hr Hd Hs Hso Hw Ho] Hn Hts Hoth Hok' Hperm Hsort. split; cbn.
  - done.
  - rewrite Hoth, decide_False by done. done.
  - intros e'. rewrite Hperm, elem_of_cons, Hd, lookup_insert_is_Some. destruct (decide (e = e')); naive_solver.
  - intros e' ts'. rewrite lookup_insert_Some. intros [[<- <-] | [Hne Hl]].
    + by rewrite fn_lookup_insert.
    + rewrite fn_lookup_insert_ne by done. eauto.
  - done.
  - intros e' ts'. rewrite lookup_insert_Some. naive_solver.
  - intros e' l. rewrite Hoth. case_decide; [auto | apply Ho].
Qed.

(** The links after placing a node that is in no list, at either of the two places. *)
Lemma append_places h e :
  ll_ok h -> ll_in_list h e = false ->
  let its := ll_append h (timedEvents queue) e in
  ll_ok its /\
  ll_items its (timedEvents queue) = ll_items h (timedEvents queue) ++ [e] /\
  (forall l, ll_items its l =
     if decide (l = timedEvents queue) then ll_items its (timedEvents queue) else ll_items h l).
Proof.
  intros Hok Hn its. subst its. assert (E : forall l, _) by (intros l; exact (ll_append_items _ (timedEvents queue) _ l Hok Hn)).
  repeat split; [by apply ll_append_ok | by rewrite (E (timedEvents queue)), decide_True |].
  intros l. rewrite !E, (decide_True _ _ eq_refl). by case_decide; subst.
Qed.

Lemma insert_places h e pre it post :
  ll_ok h -> ll_in_list h e = false -> ll_items h (timedEvents queue) = pre ++ it :: post ->
  let its := ll_insert_before h it e in
  ll_ok its /\
  ll_items its (timedEvents queue) = pre ++ e :: it :: post /\
  (forall l, ll_items its l =
     if decide (l = timedEvents queue) then ll_items its (timedEvents queue) else ll_items h l).
Proof.
  intros Hok Hn Hit its. subst its. assert (E : forall l, _) by (intros l; exact (ll_insert_items _ (timedEvents queue) _ _ _ _ l Hok Hn Hit)).
  repeat split; [| by rewrite (E (timedEvents queue)), decide_True |].
  - apply (ll_insert_ok _ (timedEvents queue)); [done .. |]. rewrite Hit. set_solver.
  - intros l. rewrite !E, (decide_True _ _ eq_refl). by case_decide; subst.
Qed.

(** The part of [post_timed_event] after the node has been taken off its list. *)
Lemma find_and_place m a e ts :
  represents m a -> ~ a_posted a e -> in_window base ts ->
  let stamp := <[e := ts]> (expireTimestamp m) in
  exists pos, find_position stamp ts (ll_items (links m) (timedEvents queue)) = Def pos /\
    represents
      (mk_mem match pos with
              | Some it => ll_insert_before (links m) it e
              | None => ll_append (links m) (timedEvents queue) e
              end stamp)
      (mk_aqueue (a_ready a) (<[e := ts]> (a_timed a))).
Proof.
  intros R Hn Hts stamp. set (tl := ll_items (links m) (timedEvents queue)).
  assert (Hnl : ll_in_list (links m) e = false)
    by by rewrite (rep_in_list _ _ _ R), bool_decide_false.
  assert (Hsame : forall x, x ∈ tl -> stamp x = expireTimestamp m x).
  { intros x Hx. apply fn_lookup_insert_ne. intros <-. apply Hn. right. by apply (rep_dom _ _ R). }
  assert (Hse : stamp e = ts) by apply fn_lookup_insert.
  assert (Hso : StronglySorted (stamp_le stamp) tl).
  { eapply sorted_ext; [| apply (rep_sorted _ _ R)].
    intros x y Hx Hy. unfold stamp_le. by rewrite !Hsame by done. }
  destruct (find_position_spec stamp ts tl Hts) as [[-> Hall] | (pre & it & post & -> & E & Hpre & Hle)].
  { apply list.Forall_forall. intros x Hx. rewrite Hsame by done.
    by apply (rep_window _ _ R x), (rep_timed_lookup _ _ _ R). }
  - destruct (append_places _ _ (rep_ok _ _ R) Hnl) as (Hok & Ei & Hoth).
    exists None. split; [done |]. eapply place_refines; try done; rewrite Ei; fold tl.
    + by rewrite Permutation_app_comm.
    + apply sorted_insert; [by rewrite app_nil_r | | done].
      eapply Forall_impl; [exact Hall |]. cbv beta. intros x Hx. unfold stamp_le. fold stamp. rewrite Hse. lia.
  - destruct (insert_places _ _ _ _ _ (rep_ok _ _ R) Hnl E) as (Hok & Ei & Hoth).
    exists (Some it). split; [done |]. eapply place_refines; try done; rewrite Ei; fold tl.
    + rewrite E. by rewrite <- Permutation_middle.
    + rewrite E in Hso. pose proof (sorted_tail_from _ _ _ _ Hso) as Hpost. apply sorted_insert; [done | |].
      * eapply Forall_impl; [exact Hpre |]. cbv beta. intros x Hx. unfold stamp_le. fold stamp. rewrite Hse. lia.
      * constructor; [unfold stamp_le; fold stamp; rewrite Hse; lia |]. eapply Forall_impl; [exact Hpost |].
        unfold stamp_le. fold stamp. rewrite Hse. lia.
Qed.

Lemma post_timed_refines m a e ts :
  represents m a -> in_window base ts ->
  exists m', nm_event_queue_post_timed_event queue m e ts = Def m' /\
    represents m' (mk_aqueue (a_ready (a_cancel a e)) (<[e := ts]> (a_timed a))).
Proof.
  intros R Hts. pose proof (cancel_refines m a e R) as Rc.
  assert (Hnc : ~ a_posted (a_cancel a e) e).
  { unfold a_posted, a_cancel; cbn. rewrite list_elem_of_filter, lookup_delete_eq, is_Some_alt. tauto. }
  rewrite <- (insert_delete_eq (a_timed a) e ts).
  destruct (find_and_place _ _ _ _ Rc Hnc Hts) as (pos & Hpos & Rp).
  unfold nm_event_queue_post_timed_event. unfold nm_event_queue_cancel_event in *.
  destruct (ll_in_list (links m) e); cbn in *; rewrite Hpos; cbn; destruct pos; eauto.
Qed.

Lemma take_refines m a :
  represents m a ->
  exists a', astep a OpTake (nm_event_queue_take_event queue m).1 a' /\
    represents (nm_event_queue_take_event queue m).2 a'.
Proof.
  intros R. unfold nm_event_queue_take_event. rewrite (rep_ready _ _ R).
  destruct (a_ready a) as [| e rest] eqn:E; cbn; [exists a; split; [by constructor | done] |].
  assert (Hnd : NoDup (e :: rest)).
  { rewrite <- E, <- (rep_ready _ _ R). apply ll_nodup, R. }
  assert (Hnt : a_timed a !! e = None).
  { apply eq_None_not_Some. rewrite <- (rep_dom _ _ R). intros Ht. apply lists_differ.
    apply (ll_disjoint _ _ _ e (rep_ok _ _ R)); [| done]. rewrite (rep_ready _ _ R), E. set_solver. }
  exists (mk_aqueue rest (a_timed a)). split; [by constructor |].
  replace (mk_aqueue rest (a_timed a)) with (a_cancel a e).
  - apply erase_refines; [done |]. rewrite (rep_in_list _ _ _ R), bool_decide_eq_true.
    left. rewrite E. set_solver.
  - unfold a_cancel. rewrite E, filter_cons_False by tauto. rewrite delete_id by done.
    f_equal. apply filter_all. apply NoDup_cons in Hnd as [Hni _]. intros x Hx ->. done.
Qed.

Lemma take_timed_refines m a now :
  represents m a -> in_window base now ->
  exists r m' a', nm_event_queue_take_timed_event queue m now = Def (r, m') /\
    astep a (OpTakeTimed now) r a' /\ represents m' a'.
Proof.
  intros R Hnow. unfold nm_event_queue_take_timed_event.
  pose proof (rep_sorted _ _ R) as Hso. pose proof (rep_dom _ _ R) as Hd.
  pose proof (rep_timed_lookup m a) as Hl.
  destruct (ll_items (links m) (timedEvents queue)) as [| e rest] eqn:E.
  { exists None, m, a. split; [done |]. split; [| done]. constructor. intros e ts Hts.
    assert (He : is_Some (a_timed a !! e)) by eauto. apply Hd in He. set_solver. }
  assert (He : a_timed a !! e = Some (expireTimestamp m e)).
  { apply (Hl e R). set_solver. }
  assert (Hmin : forall e' ts', a_timed a !! e' = Some ts' ->
    to_int32 (expireTimestamp m e) <= to_int32 ts').
  { intros e' ts' He'. rewrite <- (rep_stamp _ _ R _ _ He').
    assert (Hin : e' ∈ e :: rest) by (apply Hd; eauto).
    apply elem_of_cons in Hin as [-> | Hin]; [lia |].
    inversion_clear Hso as [| ? ? _ Hf]. rewrite list.Forall_forall in Hf. by apply Hf. }
  rewrite (less_or_equal_window base) by first [done | by apply (rep_window _ _ R e)]. cbn.
  destruct (Z.leb_spec (to_int32 (expireTimestamp m e)) (to_int32 now)) as [Hle | Hlt].
  - eexists _, _, _. split; [done |]. split; [by apply (AS_timed a now e (expireTimestamp m e)) |].
    replace (a_ready a) with (a_ready (a_cancel a e)).
    + apply erase_refines; [done |]. rewrite (rep_in_list _ _ _ R), bool_decide_eq_true. right. eauto.
    + cbn. apply filter_all. intros x Hx ->. apply lists_differ.
      apply (ll_disjoint _ _ _ e (rep_ok _ _ R)); [by rewrite (rep_ready _ _ R) |].
      rewrite E. set_solver.
  - exists None, m, a. split; [done |]. split; [| done]. constructor. intros e' ts' He'.
    specialize (Hmin _ _ He'). lia.
Qed.

Lemma run_op_refines m a o :
  represents m a -> op_in_window base o ->
  exists r m' a', run_op queue m o = Def (r, m') /\ astep a o r a' /\ represents m' a'.
Proof.
  intros R Hw. destruct o as [e | e | e | e ts | | now]; cbn in *.
  - eexists _, _, _. split; [done |]. split; [constructor | by apply post_refines].
  - eexists _, _, _. split; [done |]. split; [constructor | by apply post_refines].
  - eexists _, _, _. split; [done |]. split; [constructor | by apply cancel_refines].
  - destruct (post_timed_refines m a e ts R Hw) as (m' & -> & R'). cbn.
    eexists _, _, _. split; [done |]. split; [constructor | done].
  - destruct (take_refines m a R) as (a' & Hs & R'). destruct (nm_event_queue_take_event queue m).
    eauto 6.
  - by apply take_timed_refines.
Qed.

(** A memory after [nm_event_queue_init] in which no node is linked. *)
Definition fresh_links (h : H) : Prop := ll_ok h /\ forall l, ll_items h l = [].

Lemma init_represents h stamp :
  fresh_links h ->
  represents (nm_event_queue_init queue (mk_mem h stamp)) (mk_aqueue [] ∅).
Proof.
  intros [Hok Hnil]. set (h1 := ll_init h (events queue)).
  assert (Hok1 : ll_ok h1) by by apply ll_init_ok.
  assert (Hn1 : forall l, ll_items h1 l = []) by (intros l; unfold h1; by rewrite ll_init_items).
  assert (Hn2 : forall l, ll_items (ll_init h1 (timedEvents queue)) l = [])
    by (intros l; by rewrite ll_init_items).
  split; cbn; fold h1; rewrite ?Hn2; try done.
  - by apply ll_init_ok.
  - intros e. rewrite lookup_empty. split; [set_solver | by intros [? ?]].
  - constructor.
  - intros e l. rewrite Hn2. set_solver.
Qed.

Lemma run_ops_represents os : forall m a,
  represents m a -> Forall (op_in_window base) os ->
  exists rs m' a', run_ops queue m os = Def (rs, m') /\ asteps a os rs a' /\ represents m' a'.
Proof.
  induction os as [| o os IH]; intros m a R Hw.
  - exists [], m, a. split; [done |]. split; [constructor | done].
  - inversion_clear Hw as [| ? ? Ho Hos].
    destruct (run_op_refines m a o R Ho) as (r & m1 & a1 & E1 & S1 & R1).
    destruct (IH m1 a1 R1 Hos) as (rs & m2 & a2 & E2 & S2 & R2).
    exists (r :: rs), m2, a2. cbn. rewrite E1. cbn. rewrite E2. cbn.
    split; [done |]. split; [by econstructor | done].
Qed.

Lemma round_correct m a now stopped :
  represents m a -> in_window base now ->
  exists r m', queue_thread_round queue m now stopped = Def (r, m') /\ round_allowed a now stopped r.
Proof.
  intros R Hnow. unfold queue_thread_round.
  destruct (take_refines m a R) as (a1 & S1 & _).
  destruct (nm_event_queue_take_event queue m) as [[e |] m1]; cbn in S1; inversion S1; subst.
  { eexists _, _. split; [done |]. left. by replace (a_ready a) with (e :: rest). }
  destruct (take_timed_refines m a1 now R Hnow) as (r & m2 & a2 & -> & S2 & R2). cbn.
  inversion S2 as [| | | | | | ? ? Hlate | ? ? e ts Hts Hle Hmin]; subst.
  2: { eexists _, _. split; [done |]. right. eauto 6. }
  unfold nm_event_queue_next_timed_event. pose proof (rep_dom _ _ R2) as Hd.
  pose proof (rep_sorted _ _ R2) as Hso. pose proof (rep_timed_lookup m2 a2) as Hl.
  destruct (ll_items (links m2) (timedEvents queue)) as [| e rest] eqn:E.
  - assert (Hemp : a_timed a2 = ∅).
    { apply map_empty. intros e. apply eq_None_not_Some. rewrite <- Hd. set_solver. }
    destruct stopped; eexists _, _; (split; [done |]); done.
  - assert (He : a_timed a2 !! e = Some (expireTimestamp m2 e)) by (apply (Hl e R2); set_solver).
    pose proof (Hlate _ _ He) as Hlt. pose proof (rep_window _ _ R2 _ _ He) as Hw.
    unfold np_timestamp_difference. unfold in_window in *.
    rewrite sub_int32_small by (unfold INT32_MIN, INT32_MAX; lia). cbn.
    eexists _, _. split; [done |]. cbn. repeat split; [done | lia | by eauto |].
    intros e' ts' He'. rewrite <- (rep_stamp _ _ R2 _ _ He').
    assert (Hin : e' ∈ e :: rest) by (apply Hd; eauto).
    apply elem_of_cons in Hin as [-> | Hin]; [lia |].
    inversion_clear Hso as [| ? ? _ Hf]. rewrite list.Forall_forall in Hf.
    specialize (Hf e' Hin). unfold stamp_le in Hf. lia.
Qed.
End QueueProofs.

(** A stamp [d < 2^31] ms in the future compares as not earlier, except when the two
    stamps lie on different sides of [2^31] on the signed axis; there the subtraction of
    np_timestamp_less_or_equal overflows, which C leaves undefined. *)
Lemma timestamp_future_compare (now d : Z) :
  is_uint 32 now -> 0 <= d < 2 ^ 31 ->
  np_timestamp_less_or_equal now (np_timestamp_future now d) =
    if to_int32 now + d <? 2 ^ 31 then Def true else UB.
Proof.
  intros Hnow Hd. unfold np_timestamp_less_or_equal, np_timestamp_future.
  rewrite to_int32_add by done. pose proof (to_int32_range now) as Hr.
  unfold sub_int32, INT32_MIN, INT32_MAX in *. eval_pows.
  destruct (Z.ltb_spec (to_int32 now + d) 2147483648); cbn -[Z.sub Z.leb].
  - rewrite !(proj2 (Z.leb_le _ _)) by lia. cbn -[Z.sub Z.leb]. by rewrite (proj2 (Z.leb_le _ _)) by lia.
  - by rewrite (proj2 (Z.leb_gt _ 2147483647)), andb_false_r by lia.
Qed.

Lemma timestamp_future_compare_witness :
  np_timestamp_less_or_equal 1000 (np_timestamp_future 1000 500) = Def true /\
  np_timestamp_less_or_equal 2147483000 (np_timestamp_future 2147483000 1000) = UB.
Proof.
  split.
  - apply (timestamp_future_compare 1000 500); unfold is_uint; lia.
  - apply (timestamp_future_compare 2147483000 1000); unfold is_uint; lia.
Defined.

(** C27. Refinement: whatever sequence of post, post_maybe_double, cancel, post_timed, take
    and take_timed is performed on a fresh queue, with time stamps in a window of [2^31] ms,
    no comparison is undefined and every answer is one the abstract queue (a FIFO of ready
    events and a map of timers) allows: events leave [events] in posting order and
    exactly once, a timer leaves only when it has expired and no other expires earlier. *)
Theorem event_queue_refines {H : Type} `{LListLaws H} queue base (h : H) stamp os :
  events queue <> timedEvents queue -> fresh_links h -> Forall (op_in_window base) os ->
  exists rs m a, run_ops queue (nm_event_queue_init queue (mk_mem h stamp)) os = Def (rs, m) /\
    asteps (mk_aqueue [] ∅) os rs a.
Proof.
  intros Hq Hh Hos.
  destruct (run_ops_represents queue base Hq os _ _ (init_represents queue base Hq h stamp Hh) Hos)
    as (rs & m & a & E & S & _). eauto.
Qed.

Definition demo_queue : nm_event_queue := {| events := 0%nat; timedEvents := 1%nat |}.

Definition demo_ops : list op :=
  [OpPostTimed 7%nat 300; OpPostTimed 8%nat 200; OpPost 9%nat; OpTake; OpTakeTimed 250;
   OpTakeTimed 250; OpCancel 7%nat; OpTakeTimed 400].

Lemma fresh_empty_heap : fresh_links (∅ : heap).
Proof.
  assert (E : forall l, ll_items (∅ : heap) l = [])
    by (intros l; cbn; unfold heap_items; by rewrite lookup_empty).
  split; [split |]; intros *; cbn in *; rewrite ?E; try done; [constructor | set_solver].
Qed.

Lemma event_queue_refines_witness :
  exists rs m a,
    run_ops demo_queue (nm_event_queue_init demo_queue (mk_mem (∅ : heap) (fun _ => 0))) demo_ops = Def (rs, m) /\
    asteps (mk_aqueue [] ∅) demo_ops rs a.
Proof.
  apply (event_queue_refines demo_queue 0 (∅ : heap) (fun _ => 0) demo_ops).
  - done.
  - apply fresh_empty_heap.
  - by_compute.
Defined.

(** The answers of that run. *)
Example demo_ops_answers :
  exists m, run_ops demo_queue (nm_event_queue_init demo_queue (mk_mem (∅ : heap) (fun _ => 0))) demo_ops =
    Def ([None; None; None; Some 9%nat; Some 8%nat; None; None; None], m).
Proof. eexists. vm_compute. reflexivity. Qed.

(** The thread that runs the events: after any sequence of operations, one round runs
    the oldest ready event; with none ready, the earliest timer if it has expired; otherwise
    it waits a positive time, exactly until the earliest timer; it returns only when it is
    stopped and both lists are empty (a pending timer keeps a stopped thread alive). *)
Lemma queue_thread_round_correct {H : Type} `{LListLaws H} queue base (h : H) stamp os now stopped :
  events queue <> timedEvents queue -> fresh_links h -> Forall (op_in_window base) os ->
  in_window base now ->
  exists rs m a r m', run_ops queue (nm_event_queue_init queue (mk_mem h stamp)) os = Def (rs, m) /\
    asteps (mk_aqueue [] ∅) os rs a /\
    queue_thread_round queue m now stopped = Def (r, m') /\ round_allowed a now stopped r.
Proof.
  intros Hq Hh Hos Hnow.
  destruct (run_ops_represents queue base Hq os _ _ (init_represents queue base Hq h stamp Hh) Hos)
    as (rs & m & a & E & S & R).
  destruct (round_correct queue base Hq m a now stopped R Hnow) as (r & m' & Er & Hr).
  exists rs, m, a, r, m'. done.
Qed.

Lemma queue_thread_round_correct_witness :
  exists rs m a r m',
    run_ops demo_queue (nm_event_queue_init demo_queue (mk_mem (∅ : heap) (fun _ => 0)))
      [OpPostTimed 7%nat 300] = Def (rs, m) /\
    asteps (mk_aqueue [] ∅) [OpPostTimed 7%nat 300] rs a /\
    queue_thread_round demo_queue m 100 true = Def (r, m') /\ round_allowed a 100 true r.
Proof.
  apply (queue_thread_round_correct demo_queue 0 (∅ : heap) (fun _ => 0) [OpPostTimed 7%nat 300] 100 true).
  - done.
  - apply fresh_empty_heap.
  - by_compute.
  - by_compute.
Defined.
