(* ===== verification/ThreadQueue.v ===== *)
(** * The thread of the event queue and its operations (thread_event_queue.c,
      nabto_device_threads_unix.c)

    EventQueue.v has the queue itself, and what one round of the thread does with it. Here are
    the operations that other threads call, and the thread, step by step: between two steps of the
    thread any operation may come in. The queue mutex makes every operation and every look at
    the queue one step; the condition is signalled in a step of its own, after the mutex was
    unlocked. The core mutex is held while a callback runs, and by other threads. *)

From S2P Require Import Prelude Platform Collections EventQueue.
From stdpp Require Import gmap sets.

#[local] Open Scope Z_scope.
#[local] Open Scope handler_scope.

(** ** The timed wait of nabto_device_threads_unix.c *)

(** The deadline of [pthread_cond_timedwait], seconds and nanoseconds; [tv_sec] and [tv_usec] are
    the time of day. [ms * 1000] is computed in 32 bits. *)
Definition nabto_device_threads_cond_timed_wait (tv_sec tv_usec ms : Z) : Z * Z :=
  let future_us := tv_usec + u32 (ms * 1000) in
  (tv_sec + future_us / 1000000, (future_us mod 1000000) * 1000).

(** The wait ends [ms] milliseconds later when [ms] is below 4294968, and earlier above. *)
Lemma timed_wait_deadline tv_sec tv_usec ms :
  0 <= tv_usec < 1000000 -> is_uint 32 ms ->
  let '(s, ns) := nabto_device_threads_cond_timed_wait tv_sec tv_usec ms in
  0 <= ns < 1000000000 /\
  (ms <= 4294967 -> s * 1000000000 + ns = (tv_sec * 1000000 + tv_usec) * 1000 + ms * 1000000) /\
  (4294967 < ms -> s * 1000000000 + ns < (tv_sec * 1000000 + tv_usec) * 1000 + ms * 1000000).
Proof.
  intros Hu Hms. unfold nabto_device_threads_cond_timed_wait, u32, wrap, is_uint in *. eval_pows.
  pose proof (Z.mod_pos_bound (ms * 1000) 4294967296 ltac:(lia)).
  pose proof (Z.mod_pos_bound (tv_usec + (ms * 1000) mod 4294967296) 1000000 ltac:(lia)).
  pose proof (Z.div_mod (tv_usec + (ms * 1000) mod 4294967296) 1000000 ltac:(lia)).
  split; [lia |]. split; intros Hb.
  - rewrite (Z.mod_small (ms * 1000)) in * by lia. lia.
  - assert ((ms * 1000) mod 4294967296 < ms * 1000); [| lia].
    pose proof (Z.div_mod (ms * 1000) 4294967296 ltac:(lia)).
    assert (1 <= ms * 1000 / 4294967296) by (apply Z.div_le_lower_bound; lia). lia.
Qed.

(** ** The queue with its thread *)

Inductive core_owner : Type := CoreFree | CoreQueueThread | CoreOther.

(** Where the thread is. *)
Inductive queue_thread_pc : Type :=
| TNotStarted
| TLoop                              (* at the start of the loop *)
| TLook (now : Z)                    (* it has read the clock and is to look at the queue *)
| TTimedWait (now diff : Z)
| TCondWait
| TTaken (e : nid) (freed : bool)    (* it has an event and is to lock the core mutex *)
| TCallback (e : nid)
| TReturned.

Inductive tq_call : Type := TqRun (e : nid).

Section ThreadQueue.
Context {H : Type} `{LList H}.
Variable queue : nm_event_queue.

Record thread_event_queue : Type := mk_tq {
  tq_mem : eq_mem H;
  tq_stopped : bool;
  tq_thread : queue_thread_pc;
  tq_core : core_owner;
  tq_signals : nat;                  (* threads that are to signal the condition *)
  tq_live : gset nid                 (* the events that exist *)
}.

Definition tq_handler (A : Type) : Type := handler thread_event_queue tq_call A.
Definition tq_uhandler (A : Type) : Type := uhandler thread_event_queue tq_call A.

Definition thread_event_queue_init (m : eq_mem H) : thread_event_queue :=
  mk_tq (nm_event_queue_init queue m) false TNotStarted CoreFree 0 ∅.

Definition thread_event_queue_run : tq_handler unit :=
  hmod (fun q => match tq_thread q with TNotStarted => q {{ tq_thread := TLoop }} | _ => q end).

(** The unlock of the queue mutex is followed by [nabto_device_threads_cond_signal]. *)
Definition then_signal : tq_handler unit := hmod (fun q => q {{ tq_signals ::= Datatypes.S }}).

(** It then waits for the thread to return. *)
Definition thread_event_queue_stop_blocking : tq_handler unit :=
  hmod (fun q => q {{ tq_stopped := true }}) ;;; then_signal.

(** [memory]: the event of [calloc], if any. *)
Definition create_event (memory : option nid) : tq_handler np_error_code :=
  match memory with
  | None => hret NABTO_EC_OUT_OF_MEMORY
  | Some e =>
      hmod (fun q => q {{ tq_mem ::= fun m => nm_event_queue_event_init m e }}) ;;;
      hmod (fun q => q {{ tq_live ::= fun l => {[e]} ∪ l }}) ;;;
      hret NABTO_EC_OK
  end.

(** The memory of the event is freed: a thread that has taken it keeps a pointer to it. *)
Definition free_event (e : nid) (q : thread_event_queue) : thread_event_queue :=
  match tq_thread q with
  | TTaken e' freed => q {{ tq_thread := TTaken e' (freed || bool_decide (e' = e)) }}
  | _ => q
  end.

Definition destroy_event (e : nid) : tq_handler unit :=
  hmod (fun q => q {{ tq_mem ::= fun m => nm_event_queue_event_deinit m e }}) ;;;
  hmod (fun q => q {{ tq_live ::= fun l => l ∖ {[e]} }}) ;;;
  hmod (free_event e).

Definition post_event (e : nid) : tq_handler unit :=
  hmod (fun q => q {{ tq_mem ::= fun m => nm_event_queue_post_event queue m e }}) ;;; then_signal.

Definition post_event_maybe_double (e : nid) : tq_handler unit :=
  hmod (fun q => q {{ tq_mem ::= fun m => nm_event_queue_post_event_maybe_double queue m e }}) ;;; then_signal.

Definition cancel_event (e : nid) : tq_handler unit :=
  hmod (fun q => q {{ tq_mem ::= fun m => nm_event_queue_cancel_event m e }}).

(** [now] is read before the mutex is locked. *)
Definition post_timed_event (now : Z) (e : nid) (milliseconds : Z) : tq_uhandler unit :=
  let+ q := ulift hget in
  let+ m := uof (EventQueue.post_timed_event queue (tq_mem q) now e milliseconds) in
  ulift (hmod (fun q => q {{ tq_mem := m }}) ;;; then_signal).

(** The next step of the thread. [now] is what the clock says; a thread that waits is woken in
    another step. *)
Definition queue_thread (now : Z) : tq_uhandler unit :=
  let+ q := ulift hget in
  match tq_thread q with
  | TLoop => ulift (hmod (fun q => q {{ tq_thread := TLook now }}))
  | TLook now =>
      let+ looked := uof (queue_thread_round queue (tq_mem q) now (tq_stopped q)) in
      let next := match looked.1 with
                  | RunCallback e => TTaken e false
                  | TimedWait diff => TTimedWait now diff
                  | ReturnNull => TReturned
                  | CondWait => TCondWait
                  end in
      ulift (hmod (fun q => q {{ tq_mem := looked.2 }} {{ tq_thread := next }}))
  | TTaken e freed =>
      match tq_core q with
      | CoreFree =>
          if freed then uof UB
          else ulift (hmod (fun q => q {{ tq_core := CoreQueueThread }} {{ tq_thread := TCallback e }}) ;;;
                      emit (TqRun e))
      | _ => ulift hskip
      end
  | TCallback _ => ulift (hmod (fun q => q {{ tq_core := CoreFree }} {{ tq_thread := TLoop }}))
  | TNotStarted | TTimedWait _ _ | TCondWait | TReturned => ulift hskip
  end.

(** *** Steps *)

Inductive tq_input : Type :=
| TqStart
| TqCreate (memory : option nid)
| TqDestroy (e : nid)
| TqPost (e : nid)
| TqPostMaybeDouble (e : nid)
| TqCancel (e : nid)
| TqPostTimed (now : Z) (e : nid) (milliseconds : Z)
| TqStop
| TqThread (now : Z)
| TqSignal                           (* a thread signals the condition *)
| TqWakeUp                           (* a wait ends: by time, or for no reason *)
| TqLockCore
| TqUnlockCore.

Definition woken (pc : queue_thread_pc) : queue_thread_pc :=
  match pc with TTimedWait _ _ | TCondWait => TLoop | pc => pc end.

Definition tq_step (i : tq_input) : tq_uhandler unit :=
  match i with
  | TqStart => ulift thread_event_queue_run
  | TqCreate memory => ulift (let* _ := create_event memory in hskip)
  | TqDestroy e => ulift (destroy_event e)
  | TqPost e => ulift (post_event e)
  | TqPostMaybeDouble e => ulift (post_event_maybe_double e)
  | TqCancel e => ulift (cancel_event e)
  | TqPostTimed now e milliseconds => post_timed_event now e milliseconds
  | TqStop => ulift thread_event_queue_stop_blocking
  | TqThread now => queue_thread now
  | TqSignal =>
      ulift (hmod (fun q => match tq_signals q with
        | 0%nat => q
        | Datatypes.S n => q {{ tq_signals := n }} {{ tq_thread ::= woken }}
        end))
  | TqWakeUp => ulift (hmod (fun q => q {{ tq_thread ::= woken }}))
  | TqLockCore =>
      ulift (hmod (fun q => match tq_core q with CoreFree => q {{ tq_core := CoreOther }} | _ => q end))
  | TqUnlockCore =>
      ulift (hmod (fun q => match tq_core q with CoreOther => q {{ tq_core := CoreFree }} | _ => q end))
  end.

Fixpoint tq_steps (inputs : list tq_input) : tq_uhandler unit :=
  match inputs with
  | [] => ulift hskip
  | i :: rest => let+ _ := tq_step i in tq_steps rest
  end.
End ThreadQueue.

(** ** Proofs *)

Section Proofs.
Context {H : Type} `{LListLaws H}.
Variable queue : nm_event_queue.
Variable base : Z.
Hypothesis lists_differ : events queue <> timedEvents queue.

(** A thread that waits, and that nobody is about to signal, has nothing to do. *)
Definition wait_ok (a : aqueue) (stopped : bool) (pc : queue_thread_pc) : Prop :=
  match pc with
  | TCondWait => a_ready a = [] /\ a_timed a = ∅ /\ stopped = false
  | TTimedWait now diff =>
      a_ready a = [] /\ forall e ts, a_timed a !! e = Some ts -> to_int32 now + diff <= to_int32 ts
  | _ => True
  end.

(** The queue represents [a]; what is in it exists. *)
Record tq_ok (q : thread_event_queue (H := H)) (a : aqueue) : Prop := {
  tq_rep : represents queue base (tq_mem q) a;
  tq_posted_live : forall e, a_posted a e -> e ∈ tq_live q;
  tq_owner : tq_core q = CoreQueueThread <-> exists e, tq_thread q = TCallback e;
  tq_waits : tq_signals q = 0%nat -> wait_ok a (tq_stopped q) (tq_thread q);
  tq_clock : forall now, tq_thread q = TLook now -> in_window base now;
  tq_ended : tq_thread q = TReturned -> tq_stopped q = true
}.

(** Callers use events that exist, [calloc] answers memory that is not in use, and the stamps that
    are compared are in a window. *)
Definition tq_input_ok (i : tq_input) (q : thread_event_queue (H := H)) : Prop :=
  match i with
  | TqCreate (Some e) => e ∉ tq_live q
  | TqDestroy e | TqPost e | TqPostMaybeDouble e | TqCancel e => e ∈ tq_live q
  | TqPostTimed now e milliseconds => e ∈ tq_live q /\ in_window base (u32 (now + milliseconds))
  | TqThread now => in_window base now
  | _ => True
  end.

(** The thread is to run an event that was destroyed after it was taken. *)
Definition runs_freed (i : tq_input) (q : thread_event_queue (H := H)) : Prop :=
  tq_core q = CoreFree /\ (exists e, tq_thread q = TTaken e true) /\ exists now, i = TqThread now.

Lemma node_init_refines (m : eq_mem H) a e :
  represents queue base m a -> ~ a_posted a e -> represents queue base (nm_event_queue_event_init m e) a.
Proof.
  intros R Hn. assert (Hin : ll_in_list (links m) e = false)
    by (rewrite (rep_in_list _ _ _ _ _ R); by apply bool_decide_eq_false).
  destruct R as [Hok Hr Hd Hs Hso Hw Ho]. unfold nm_event_queue_event_init.
  split; cbn; try setoid_rewrite (ll_node_init_items (links m) e _ Hok Hin); try done.
  by apply ll_node_init_ok.
Qed.

Lemma cancel_posted a e x : a_posted (a_cancel a e) x -> x <> e /\ a_posted a x.
Proof.
  unfold a_posted, a_cancel. cbn. rewrite list_elem_of_filter, lookup_delete_is_Some. naive_solver.
Qed.

Lemma post_posted a e x : a_posted (a_post a e) x -> x = e \/ a_posted a x.
Proof. unfold a_post. destruct (decide _); [by right |]. unfold a_posted. cbn. set_solver. Qed.

Lemma wait_ok_cancel a e stopped pc : wait_ok a stopped pc -> wait_ok (a_cancel a e) stopped pc.
Proof.
  destruct pc; try done; cbn.
  - intros [-> Ht]. split; [done |]. intros x ts [_ Hx]%lookup_delete_Some. eauto.
  - intros (-> & -> & ->). split_and!; [done | apply delete_empty | done].
Qed.

(** A change of the queue's memory and of the events that exist. *)
Lemma tq_ok_mem q q' a a' :
  tq_ok q a -> represents queue base (tq_mem q') a' -> (forall e, a_posted a' e -> e ∈ tq_live q') ->
  tq_thread q' = tq_thread q -> tq_core q' = tq_core q -> tq_stopped q' = tq_stopped q ->
  (tq_signals q' = 0%nat -> wait_ok a' (tq_stopped q) (tq_thread q)) -> tq_ok q' a'.
Proof.
  intros [Hr Hp Ho Hw Hc He] Hr' Hp' Et Ec Es Hw'.
  split; try done; rewrite ?Et, ?Ec, ?Es; try done.
Qed.

(** A change of the thread or of the owner of the core mutex. *)
Lemma tq_ok_thread q a pc core :
  tq_ok q a -> (core = CoreQueueThread <-> exists e, pc = TCallback e) ->
  (tq_signals q = 0%nat -> wait_ok a (tq_stopped q) pc) -> (forall now, pc = TLook now -> in_window base now) ->
  (pc = TReturned -> tq_stopped q = true) -> tq_ok (q {{ tq_core := core }} {{ tq_thread := pc }}) a.
Proof. intros [Hr Hp Ho Hw Hc He] ????. by destruct q. Qed.

Lemma woken_ok q a n :
  tq_ok q a -> tq_ok (q {{ tq_signals := n }} {{ tq_thread ::= woken }}) a.
Proof.
  intros [Hr Hp Ho Hw Hc He]. destruct q as [m st pc core sg live]. cbn in *.
  split; cbn; try done.
  - rewrite Ho. split; intros [e Hx]; exists e; by destruct pc.
  - by destruct pc.
  - intros now Hx. apply Hc. by destruct pc.
  - intros Hx. apply He. by destruct pc.
Qed.

(** The timed post. *)
Lemma post_timed_ok q a now e ms :
  tq_ok q a -> e ∈ tq_live q -> in_window base (u32 (now + ms)) ->
  exists q' a', post_timed_event queue now e ms q = Def (tt, q', []) /\ tq_ok q' a'.
Proof.
  intros Hok He Hts. destruct (post_timed_refines queue base lists_differ _ a e _ (tq_rep _ _ Hok) Hts)
    as (m' & Em & Rm).
  unfold post_timed_event. rewrite u_hget. unfold EventQueue.post_timed_event. rewrite Em, u_def.
  eexists _, _. split; [reflexivity |]. eapply (tq_ok_mem q); [exact Hok | exact Rm | | done..].
  intros x Hx. unfold a_posted in Hx. cbn in Hx. destruct (decide (x = e)) as [-> | Hne]; [done |].
  apply (tq_posted_live _ _ Hok). unfold a_posted. rewrite list_elem_of_filter in Hx.
  rewrite lookup_insert_ne in Hx by done. naive_solver.
Qed.

(** What the thread sees in the queue. *)
Lemma look_ok q a now :
  tq_ok q a -> tq_thread q = TLook now ->
  exists q' a', (forall now', queue_thread queue now' q = Def (tt, q', [])) /\ tq_ok q' a' /\
    tq_core q' = tq_core q /\ tq_signals q' = tq_signals q /\ tq_stopped q' = tq_stopped q /\
    (forall e rest, a_ready a = e :: rest -> tq_thread q' = TTaken e false).
Proof.
  intros Hok Et. pose proof (tq_clock _ _ Hok now Et) as Hnow. pose proof (tq_rep _ _ Hok) as R.
  assert (Hround : exists r m' a', queue_thread_round queue (tq_mem q) now (tq_stopped q) = Def (r, m') /\
    round_allowed a now (tq_stopped q) r /\ represents queue base m' a' /\
    (forall x, a_posted a' x -> a_posted a x) /\ match r with RunCallback _ => True | _ => a' = a end).
  { destruct (round_correct queue base lists_differ _ a now (tq_stopped q) R Hnow) as (r & m' & Er & Hr).
    exists r, m'. unfold queue_thread_round in Er.
    destruct (take_refines queue base lists_differ _ a R) as (a1 & S1 & R1).
    destruct (nm_event_queue_take_event queue (tq_mem q)) as [[e |] m1] eqn:E1; cbn in S1, R1.
    - injection Er as <- <-. exists a1. unfold queue_thread_round. rewrite E1. split_and!; try done.
      inversion S1; subst. unfold a_posted. cbn. intros x [? | ?]; [left | by right].
      match goal with Hx : a_ready a = _ |- _ => rewrite Hx end. by right.
    - assert (a1 = a) as -> by by inversion S1.
      assert (m1 = tq_mem q) as -> by (unfold nm_event_queue_take_event in E1; destruct (ll_items _ _); congruence).
      destruct (take_timed_refines queue base lists_differ (tq_mem q) a now R1 Hnow) as (r2 & m2 & a2 & E2 & S2 & R2).
      rewrite E2 in Er. cbn in Er. exists a2. unfold queue_thread_round. rewrite E1, E2. cbn.
      destruct r2 as [e |].
      + injection Er as <- <-. split_and!; try done. inversion S2; subst. unfold a_posted. cbn.
        intros x [? | [tx Hx]]; [by left |]. apply lookup_delete_Some in Hx as [_ Hx]. right. eauto.
      + assert (a2 = a) as -> by by inversion S2.
        destruct (nm_event_queue_next_timed_event queue m2) as [ts |].
        * destruct (np_timestamp_difference ts now) as [d |]; [| done]. cbn in *. injection Er as <- <-. done.
        * destruct (tq_stopped q); injection Er as <- <-; done. }
  destruct Hround as (r & m' & a' & Er & Hr & R' & Hpost & Hsame).
  set (next := match r with RunCallback e => TTaken e false | TimedWait diff => TTimedWait now diff
               | ReturnNull => TReturned | CondWait => TCondWait end).
  exists (q {{ tq_mem := m' }} {{ tq_thread := next }}), a'. split_and!.
  - intros now'. unfold queue_thread. rewrite u_hget, Et. cbn [fst snd]. rewrite Er, u_def. reflexivity.
  - pose proof (tq_owner _ _ Hok) as Ho. split; cbn.
    + exact R'.
    + intros x Hx. by apply (tq_posted_live _ _ Hok), Hpost.
    + rewrite Ho, Et. split; intros [e Hx]; [done | by destruct r].
    + intros _. unfold next. destruct r as [e | diff | |]; cbn; try done; subst a'; [| done].
      destruct Hr as (Hre & _ & (e0 & ts0 & _ & Hd0) & Hmin). split; [done |].
      intros e ts Hx. specialize (Hmin _ _ Hx). lia.
    + intros n Hx. by destruct r.
    + intros Hx. destruct r; try done. by destruct Hr as (_ & _ & ?).
  - done.
  - done.
  - done.
  - intros e rest Hre. cbn. unfold next. destruct r as [e' | diff | |]; cbn in Hr.
    + destruct Hr as [Hx | [Hx _]]; rewrite Hre in Hx; [by injection Hx as -> | done].
    + rewrite Hre in Hr. by destruct Hr.
    + rewrite Hre in Hr. by destruct Hr.
    + rewrite Hre in Hr. by destruct Hr.
Qed.

(** The other steps of the thread. *)
Lemma thread_ok q a now :
  tq_ok q a -> in_window base now -> ~ runs_freed (TqThread now) q ->
  exists q' a' t, queue_thread queue now q = Def (tt, q', t) /\ tq_ok q' a'.
Proof.
  intros Hok Hnow Hf. destruct (tq_thread q) as [| | n | n d | | e freed | e |] eqn:Et.
  3: { destruct (look_ok q a n Hok Et) as (q' & a' & E & ? & _). exists q', a', []. by rewrite E. }
  all: unfold queue_thread; rewrite u_hget, Et.
  1,3,4,7: exists q, a, []; done.
  - eexists _, a, _. split; [reflexivity |]. destruct q as [m st pc core sg live]. cbn in *.
    apply (tq_ok_thread (mk_tq m st pc core sg live) a (TLook now) core Hok); try done.
    + rewrite (tq_owner _ _ Hok). cbn. rewrite Et. split; by intros [e ?].
    + cbn. by intros n [= ->].
  - destruct (tq_core q) eqn:Ec; [| exists q, a, []; done..]. destruct freed.
    { exfalso. apply Hf. split; [done |]. split; by eexists. }
    eexists _, a, _. split; [reflexivity |].
    apply (tq_ok_thread q a (TCallback e) CoreQueueThread Hok); try done. split; [by eexists | done].
  - eexists _, a, _. split; [reflexivity |].
    apply (tq_ok_thread q a TLoop CoreFree Hok); try done. split; [done | by intros [e' ?]].
Qed.

Lemma steps_ok q a i :
  tq_ok q a -> tq_input_ok i q -> ~ runs_freed i q ->
  exists q' a' t, tq_step queue i q = Def (tt, q', t) /\ tq_ok q' a'.
Proof.
  intros Hok Hi Hf. pose proof (tq_rep _ _ Hok) as R. pose proof (tq_posted_live _ _ Hok) as Hl.
  destruct i as [| [e |] | e | e | e | e | now e ms | | now | | | |]; cbn [tq_step].
  - eexists _, a, _. split; [reflexivity |]. destruct (tq_thread q) eqn:Et; rewrite ?Et; try done.
    destruct q as [m st pc core sg live]. cbn in *.
    apply (tq_ok_thread (mk_tq m st pc core sg live) a TLoop core Hok); try done.
    rewrite (tq_owner _ _ Hok). cbn. rewrite Et. split; by intros [e ?].
  - eexists _, a, _. split; [reflexivity |]. eapply (tq_ok_mem q _ a a); try done.
    + apply node_init_refines; [done |]. intros Hp. by apply Hi, Hl.
    + intros x Hx. cbn. apply elem_of_union_r, Hl, Hx.
    + apply (tq_waits _ _ Hok).
  - exists q, a, []. done.
  - eexists _, (a_cancel a e), _. split; [reflexivity |].
    set (q1 := (q {{ tq_mem ::= fun m => nm_event_queue_event_deinit m e }}) {{ tq_live ::= fun l => l ∖ {[e]} }}).
    assert (H1' : tq_ok q1 (a_cancel a e)).
    { eapply (tq_ok_mem q _ a); try done.
      - by apply cancel_refines.
      - intros x [Hne Hx]%cancel_posted. cbn. apply elem_of_difference. split; [by apply Hl |]. by intros ->%elem_of_singleton.
      - intros Hs. apply wait_ok_cancel. by apply (tq_waits _ _ Hok). }
    change (tq_ok (free_event e q1) (a_cancel a e)). clearbody q1. unfold free_event.
    destruct (tq_thread q1) as [| | | | | e' freed | |] eqn:Epc; try exact H1'.
    destruct q1 as [m st pc core sg live]. cbn in Epc. subst pc.
    apply (tq_ok_thread (mk_tq m st (TTaken e' freed) core sg live) _ (TTaken e' (freed || bool_decide (e' = e))) core); try done.
    rewrite (tq_owner _ _ H1'). cbn. split; by intros [x ?].
  - eexists _, (a_post a e), _. split; [reflexivity |]. eapply (tq_ok_mem q _ a); try done.
    + by apply post_refines.
    + intros x [-> | Hx]%post_posted; [done |]. by apply Hl.
  - eexists _, (a_post a e), _. split; [reflexivity |]. eapply (tq_ok_mem q _ a); try done.
    + by apply post_refines.
    + intros x [-> | Hx]%post_posted; [done |]. by apply Hl.
  - eexists _, (a_cancel a e), _. split; [reflexivity |]. eapply (tq_ok_mem q _ a); try done.
    + by apply cancel_refines.
    + intros x [_ Hx]%cancel_posted. by apply Hl.
    + intros Hs. apply wait_ok_cancel. by apply (tq_waits _ _ Hok).
  - destruct Hi as [He Hw]. destruct (post_timed_ok q a now e ms Hok He Hw) as (q' & a' & E & Hq).
    by exists q', a', [].
  - eexists _, a, _. split; [reflexivity |]. destruct Hok as [Hr Hp Ho Hw Hc He]. by destruct q.
  - by apply (thread_ok q a).
  - eexists _, a, _. split; [reflexivity |]. destruct (tq_signals q) as [| n] eqn:Es; [done |]. by apply woken_ok.
  - eexists _, a, _. split; [reflexivity |]. pose proof (woken_ok q a (tq_signals q) Hok) as Hwk. by destruct q.
  - eexists _, a, _. split; [reflexivity |]. destruct (tq_core q) eqn:Ec; [| exact Hok..].
    destruct Hok as [Hr Hp Ho Hw Hc He]. destruct q. cbn in *. subst. split; cbn; try done. split; [done |]. intros Hx. by apply Ho in Hx.
  - eexists _, a, _. split; [reflexivity |]. destruct (tq_core q) eqn:Ec; [exact Hok.. |].
    destruct Hok as [Hr Hp Ho Hw Hc He]. destruct q. cbn in *. subst. split; cbn; try done. split; [done |]. intros Hx. by apply Ho in Hx.
Qed.

(** *** Progress *)

(** What happens next when only the thread and the signals that are due move. *)
Definition next_input (now : Z) (q : thread_event_queue (H := H)) : tq_input :=
  match tq_thread q with TTimedWait _ _ | TCondWait => TqSignal | _ => TqThread now end.

Fixpoint tq_drive (n : nat) (now : Z) : tq_uhandler unit :=
  match n with
  | 0%nat => ulift hskip
  | Datatypes.S n => let+ q := ulift hget in let+ _ := tq_step queue (next_input now q) in tq_drive n now
  end.

Lemma drive_one n now q q1 t1 q2 t2 :
  tq_step queue (next_input now q) q = Def (tt, q1, t1) -> tq_drive n now q1 = Def (tt, q2, t2) ->
  tq_drive (Datatypes.S n) now q = Def (tt, q2, t1 ++ t2).
Proof. intros E1 E2. cbn [tq_drive]. rewrite u_hget. unfold ubind. by rewrite E1, E2. Qed.

(** [e] runs within [n] steps. *)
Definition soon (n : nat) (now : Z) (e : nid) (q : thread_event_queue (H := H)) : Prop :=
  exists q' t, tq_drive n now q = Def (tt, q', t) /\ TqRun e ∈ t.

Lemma soon_step n now e q q1 t1 :
  tq_step queue (next_input now q) q = Def (tt, q1, t1) -> soon n now e q1 -> soon (Datatypes.S n) now e q.
Proof.
  intros E (q' & t & E' & Hin). exists q', (t1 ++ t). split; [by eapply drive_one |].
  apply elem_of_app. by right.
Qed.

Lemma core_is_free q a :
  tq_ok q a -> tq_core q <> CoreOther -> (forall e, tq_thread q <> TCallback e) -> tq_core q = CoreFree.
Proof.
  intros Hok Hc Ht. destruct (tq_core q) eqn:Ec; [done | | done].
  apply (tq_owner _ _ Hok) in Ec as [e He]. by destruct (Ht e).
Qed.

Lemma soon_look q a now n e rest :
  tq_ok q a -> tq_thread q = TLook n -> tq_core q <> CoreOther -> a_ready a = e :: rest -> soon 2 now e q.
Proof.
  intros Hok Et Hc Hr. assert (Hfree : tq_core q = CoreFree) by (apply (core_is_free q a); [done.. | intros ?; congruence]).
  destruct (look_ok q a n Hok Et) as (q1 & a1 & E & Hok1 & Ec & _ & _ & Hhead).
  eapply (soon_step _ _ _ _ q1 []).
  { unfold next_input. rewrite Et. apply E. }
  specialize (Hhead e rest Hr). unfold soon. cbn [tq_drive]. rewrite u_hget. unfold next_input. rewrite Hhead.
  cbn [tq_step]. unfold queue_thread, ubind at 1. rewrite u_hget, Hhead, Ec, Hfree. cbn.
  eexists _, _. split; [reflexivity | by left].
Qed.

Lemma soon_loop q a now e rest :
  tq_ok q a -> tq_thread q = TLoop -> tq_core q <> CoreOther -> in_window base now -> a_ready a = e :: rest ->
  soon 3 now e q.
Proof.
  intros Hok Et Hc Hnow Hr. eapply (soon_step _ _ _ _ (q {{ tq_thread := TLook now }}) []).
  { unfold next_input. rewrite Et. cbn [tq_step]. unfold queue_thread. rewrite u_hget, Et. done. }
  destruct q as [m st pc core sg live]. apply (soon_look _ a now now e rest); try done.
  apply (tq_ok_thread (mk_tq m st pc core sg live) a (TLook now) core Hok); try done.
  - rewrite (tq_owner _ _ Hok), Et. split; by intros [x ?].
  - by intros n [= ->].
Qed.

(** A ready event runs within five steps of the thread. *)
Lemma ready_runs q a now e rest :
  tq_ok q a -> a_ready a = e :: rest -> in_window base now -> tq_core q <> CoreOther ->
  tq_thread q <> TNotStarted -> tq_thread q <> TReturned -> (forall e', tq_thread q <> TTaken e' true) ->
  exists n, (n <= 5)%nat /\ soon n now e q.
Proof.
  intros Hok Hr Hnow Hc Hns Hret Hfr.
  assert (Hcb : forall q e', tq_ok q a -> tq_thread q = TCallback e' -> soon 4 now e q).
  { intros q1 e' Hok1 Et. eapply (soon_step _ _ _ _ (q1 {{ tq_core := CoreFree }} {{ tq_thread := TLoop }}) []).
    { unfold next_input. rewrite Et. cbn [tq_step]. unfold queue_thread. rewrite u_hget, Et. done. }
    apply (soon_loop _ a now e rest); try done.
    apply (tq_ok_thread q1 a TLoop CoreFree Hok1); try done. split; [done | by intros [x ?]]. }
  assert (Hwait : match tq_thread q with TTimedWait _ _ | TCondWait => True | _ => False end -> soon 4 now e q).
  { intros Ht. destruct (tq_signals q) as [| sg] eqn:Es.
    { exfalso. pose proof (tq_waits _ _ Hok Es) as Hw. destruct (tq_thread q); cbn in Hw; try done;
        destruct Hw as [Hw _]; by rewrite Hr in Hw. }
    eapply (soon_step _ _ _ _ (q {{ tq_signals := sg }} {{ tq_thread ::= woken }}) []).
    { unfold next_input. destruct (tq_thread q); try done; cbn [tq_step]; unfold ulift, hmod; by rewrite Es. }
    apply (soon_loop _ a now e rest); try done; [by apply woken_ok |].
    destruct q as [? ? [] ? ? ?]; done. }
  destruct (tq_thread q) as [| | n | n d | | e' freed | e' |] eqn:Et; try done.
  - exists 3%nat. split; [lia |]. by apply (soon_loop q a now e rest).
  - exists 2%nat. split; [lia |]. by apply (soon_look q a now n e rest).
  - exists 4%nat. split; [lia |]. by apply Hwait.
  - exists 4%nat. split; [lia |]. by apply Hwait.
  - destruct freed; [by destruct (Hfr e') |]. exists 5%nat. split; [lia |].
    assert (Hfree : tq_core q = CoreFree) by (apply (core_is_free q a); [done.. | intros ?; congruence]).
    eapply (soon_step _ _ _ _ (q {{ tq_core := CoreQueueThread }} {{ tq_thread := TCallback e' }})).
    { unfold next_input. rewrite Et. cbn [tq_step]. unfold queue_thread. rewrite u_hget, Et, Hfree. reflexivity. }
    eapply Hcb; [| reflexivity]. apply (tq_ok_thread q a (TCallback e') CoreQueueThread Hok); try done.
    split; [by eexists | done].
  - exists 4%nat. split; [lia |]. by apply (Hcb q e').
Qed.

(** *** The contract *)

Inductive tq_reachable : thread_event_queue (H := H) -> Prop :=
| tq_init m : fresh_links (links m) -> tq_reachable (thread_event_queue_init queue m)
| tq_next i q q' t :
    tq_reachable q -> tq_input_ok i q -> tq_step queue i q = Def (tt, q', t) -> tq_reachable q'.

Lemma runs_freed_undefined i q : runs_freed i q -> tq_step queue i q = UB.
Proof.
  intros (Hc & [e He] & now & ->). cbn [tq_step]. unfold queue_thread. by rewrite u_hget, He, Hc.
Qed.

Lemma runs_freed_dec i q : runs_freed i q \/ ~ runs_freed i q.
Proof.
  unfold runs_freed. destruct (tq_core q); [| by right; intros [? _]..].
  destruct (tq_thread q) as [| | | | | e [] | |]; try by (right; intros (_ & [x ?] & _)).
  destruct i; try by (right; intros (_ & _ & x & ?)). left. eauto.
Qed.

Lemma tq_reachable_ok q : tq_reachable q -> exists a, tq_ok q a.
Proof.
  induction 1 as [[h stamp] Hm | i q q' t _ [a Hok] Hi Hs].
  - exists (mk_aqueue [] ∅). split; cbn; try done.
    + by apply init_represents.
    + intros e [Hx | [x Hx]]; [by apply elem_of_nil in Hx | change ((∅ : gmap nid Z) !! e = Some x) in Hx; by rewrite lookup_empty in Hx].
    + split; [done | by intros [x ?]].
  - destruct (runs_freed_dec i q) as [Hf | Hf].
    { by rewrite (runs_freed_undefined i q Hf) in Hs. }
    destruct (steps_ok q a i Hok Hi Hf) as (q1 & a1 & t1 & E & Hok1). exists a1. congruence.
Qed.

(** The ready events, oldest first, and the timers. *)
Definition ready (q : thread_event_queue (H := H)) : list nid := ll_items (links (tq_mem q)) (events queue).
Definition timers (q : thread_event_queue (H := H)) : list nid := ll_items (links (tq_mem q)) (timedEvents queue).

End Proofs.

(** ** Witness and examples *)

Abbreviation demo_tq := (thread_event_queue (H := heap)).

Definition demo_tq_start : demo_tq := thread_event_queue_init demo_queue (mk_mem (∅ : heap) (fun _ => 0)).

Definition run_inputs (inputs : list tq_input) : cres (demo_tq * list tq_call) :=
  match tq_steps demo_queue inputs demo_tq_start with Def (_, q, t) => Def (q, t) | UB => UB end.

(** Another thread holds the core mutex; the event is posted, and the thread takes it. *)
Definition taken_inputs : list tq_input :=
  [TqStart; TqLockCore; TqCreate (Some 5%nat); TqPost 5%nat; TqThread 100; TqThread 100].

(** The event is destroyed while the thread has it: the thread reads the callback from memory that was freed. *)
Example destroyed_event_runs : run_inputs (taken_inputs ++ [TqDestroy 5%nat; TqUnlockCore; TqThread 100]) = UB.
Proof. by vm_compute. Qed.

(** The event is cancelled while the thread has it, and its callback is run all the same. *)
Example cancelled_event_runs :
  match run_inputs (taken_inputs ++ [TqCancel 5%nat; TqUnlockCore; TqThread 100]) with
  | Def (_, t) => t = [TqRun 5%nat]
  | UB => False
  end.
Proof. by vm_compute. Qed.

(** A timer keeps the thread of a stopped queue from returning. *)
Example stopped_waits_for_timer :
  match run_inputs [TqStart; TqCreate (Some 5%nat); TqPostTimed 100 5%nat 60000; TqStop; TqThread 100; TqThread 100] with
  | Def (q, _) => tq_thread q = TTimedWait 100 60000
  | UB => False
  end.
Proof. by vm_compute. Qed.

Definition demo_tq_posted : demo_tq :=
  match run_inputs [TqStart; TqCreate (Some 5%nat); TqPost 5%nat] with Def (q, _) => q | UB => demo_tq_start end.

Lemma demo_tq_reachable : tq_reachable demo_queue 0 demo_tq_posted.
Proof.
  eapply (tq_next demo_queue 0 (TqPost 5%nat)); [| | reflexivity]; [| cbn [tq_input_ok]; by_compute].
  eapply (tq_next demo_queue 0 (TqCreate (Some 5%nat))); [| | reflexivity]; [| cbn [tq_input_ok]; by_compute].
  eapply (tq_next demo_queue 0 TqStart demo_tq_start); [| | reflexivity]; [| done].
  apply tq_init. apply fresh_empty_heap.
Defined.

