(* ===== verification/CompletionEvent.v ===== *)
(** * Completion events (platform/np_completion_event.c)

    A completion event is an event of the event queue with a code. The functions of the event queue
    are calls; posting an event that is posted already does nothing (EventQueue.v). *)

From S2P Require Import Prelude Platform Collections.

#[local] Open Scope Z_scope.
#[local] Open Scope handler_scope.

(** [ce_eq] is whether the table of functions of the queue is set; [ce_event] and [ce_cb] are NULL or not. *)
Record np_completion_event : Type := mk_ce {
  ce_eq : bool;
  ce_event : option nid;
  ce_cb : option nat;
  ce_ec : np_error_code
}.

(** The structure as [memset] leaves it. *)
Definition ce_zero : np_completion_event := mk_ce false None None NABTO_EC_OK.

Inductive ce_call : Type :=
| CeCreate
| CeDestroy (e : nid)
| CePost (e : nid)
| CeCallback (cb : nat) (ec : np_error_code).

Definition ce_handler (A : Type) : Type := handler np_completion_event ce_call A.
Definition ce_uhandler (A : Type) : Type := uhandler np_completion_event ce_call A.

(** [created]: the answer of [np_event_queue_create_event]. *)
Definition np_completion_event_init (cb : option nat) (created : np_error_code + nid) : ce_handler np_error_code :=
  hmod (fun _ => ce_zero) ;;;
  hmod (fun c => c {{ ce_cb := cb }}) ;;;
  hmod (fun c => c {{ ce_eq := true }}) ;;;
  emit CeCreate ;;;
  match created with
  | inl ec => hret ec
  | inr e => hmod (fun c => c {{ ce_event := Some e }}) ;;; hret NABTO_EC_OK
  end.

(** A call through the table of functions, with the event. Both event queues follow the pointer to the event. *)
Definition with_event (call : nid -> ce_call) : ce_uhandler unit :=
  let+ c := ulift hget in
  if ce_eq c then
    match ce_event c with Some e => ulift (emit (call e)) | None => uof UB end
  else uof UB.

Definition np_completion_event_deinit : ce_uhandler unit := with_event CeDestroy.

Definition np_completion_event_reinit (cb : option nat) : ce_handler unit :=
  hmod (fun c => c {{ ce_cb := cb }}).

Definition np_completion_event_resolve (ec : np_error_code) : ce_uhandler unit :=
  let+ _ := ulift (hmod (fun c => c {{ ce_ec := ec }})) in with_event CePost.

(** The callback of the event. *)
Definition resolve_event_callback : ce_uhandler unit :=
  let+ c := ulift hget in
  match ce_cb c with Some cb => ulift (emit (CeCallback cb (ce_ec c))) | None => uof UB end.

(** ** Theorems *)

(** A completion event of which the creation failed, or that was never initialized, must not be
    deinitialized. *)
Lemma deinit_defined c : is_def (np_completion_event_deinit c) = ce_eq c && bool_decide (is_Some (ce_event c)).
Proof.
  unfold np_completion_event_deinit, with_event. rewrite u_hget. destruct (ce_eq c); [| done]. by destruct (ce_event c).
Qed.

Lemma init_ready cb created c :
  let r := np_completion_event_init cb created c in
  r.1.1 = NABTO_EC_OK -> is_def (np_completion_event_deinit r.1.2) = true \/ created = inl NABTO_EC_OK.
Proof. destruct created as [ec | e]; hsimpl; [intros ->; by right | by left]. Qed.

(** *** Resolving and running

    The event with the place that the queue has for it. *)
Inductive ce_input : Type :=
| CiResolve (ec : np_error_code)
| CiRun.

(** A posted event is run once; the second post does nothing. *)
Definition ce_step (i : ce_input) (s : np_completion_event * bool) :
    cres (np_completion_event * bool * list np_error_code) :=
  match i with
  | CiResolve ec =>
      match np_completion_event_resolve ec s.1 with Def (_, c, _) => Def (c, true, []) | UB => UB end
  | CiRun =>
      if s.2 then
        match resolve_event_callback s.1 with
        | Def (_, c, t) => Def (c, false, omap (fun call => match call with CeCallback _ ec => Some ec | _ => None end) t)
        | UB => UB
        end
      else Def (s, [])
  end.

Fixpoint ce_run (inputs : list ce_input) (s : np_completion_event * bool) :
    cres (np_completion_event * bool * list np_error_code) :=
  match inputs with
  | [] => Def (s, [])
  | i :: rest =>
      match ce_step i s with
      | Def (s1, t1) => match ce_run rest s1 with Def (s2, t2) => Def (s2, t1 ++ t2) | UB => UB end
      | UB => UB
      end
  end.

Definition ce_ready (c : np_completion_event) : Prop :=
  ce_eq c = true /\ is_Some (ce_event c) /\ is_Some (ce_cb c).

(** What the callbacks are told: the last code before each run. *)
Fixpoint told (pending : option np_error_code) (inputs : list ce_input) : list np_error_code :=
  match inputs with
  | [] => []
  | CiResolve ec :: rest => told (Some ec) rest
  | CiRun :: rest => option_list pending ++ told None rest
  end.

(** Of several resolutions before the callback runs only the last is told. *)
Lemma completion_event_runs inputs c (posted : bool) :
  ce_ready c ->
  exists s, ce_run inputs (c, posted) = Def (s, told (if posted then Some (ce_ec c) else None) inputs).
Proof.
  revert c posted. induction inputs as [| [ec |] rest IH]; intros c posted (Heq & [e He] & [cb Hcb]); [by eexists | |].
  - destruct c as [q ev f code]. cbn in *. subst.
    destruct (IH (mk_ce true (Some e) (Some cb) ec) true) as [s Es]; [by repeat split; eexists |].
    exists s. cbn in *. unfold constant. by rewrite Es.
  - destruct c as [q ev f code]. cbn in *. subst. destruct posted.
    + destruct (IH (mk_ce true (Some e) (Some cb) code) false) as [s Es]; [by repeat split; eexists |].
      exists s. cbn in *. unfold constant. by rewrite Es.
    + destruct (IH (mk_ce true (Some e) (Some cb) code) false) as [s Es]; [by repeat split; eexists |].
      exists s. cbn in *. unfold constant. by rewrite Es.
Qed.

Example resolved_twice :
  exists s, ce_run [CiResolve NABTO_EC_OK; CiResolve NABTO_EC_ABORTED; CiRun; CiRun]
    (exec (np_completion_event_init (Some 1%nat) (inr 2%nat)) ce_zero, false) = Def (s, [NABTO_EC_ABORTED]).
Proof. eexists. reflexivity. Qed.
