(* ===== verification/KeepAlive.v ===== *)
(** * Keep alive (nc_keep_alive.c)

    The context counts checks without traffic in [lostKeepAlives] and answers what the
    owner (the attacher or a client connection) should do at each check. *)

From S2P Require Import Prelude Platform Packet.

#[local] Open Scope handler_scope.

Definition NC_KEEP_ALIVE_DEFAULT_INTERVAL : Z := 30000.
Definition NC_KEEP_ALIVE_DEFAULT_RETRY_INTERVAL : Z := 2000.
Definition NC_KEEP_ALIVE_DEFAULT_MAX_RETRIES : Z := 15.

Inductive nc_keep_alive_action : Type := DO_NOTHING | SEND_KA | KA_TIMEOUT.

#[global] Instance nc_keep_alive_action_eq : EqDecision nc_keep_alive_action.
Proof. solve_decision. Defined.

Record nc_keep_alive_context : Type := mk_ka {
  kaInterval : Z;
  kaRetryInterval : Z;
  kaMaxRetries : Z;
  lastRecvCount : Z;
  lastSentCount : Z;
  lostKeepAlives : Z;
  ka_n : Z;
  ka_isSending : bool;
  ka_sendBuffer : list Z
}.

(** Calls to the event queue. *)
Inductive ka_call : Type :=
| KaCreateEvent
| KaDestroyEvent
| KaCancelEvent
| KaPostTimedEvent (milliseconds : Z).

Definition ka_handler (A : Type) : Type := handler nc_keep_alive_context ka_call A.

Definition ka_default_settings (ctx : nc_keep_alive_context) : nc_keep_alive_context :=
  ctx {{ kaInterval := NC_KEEP_ALIVE_DEFAULT_INTERVAL;
         kaRetryInterval := NC_KEEP_ALIVE_DEFAULT_RETRY_INTERVAL;
         kaMaxRetries := NC_KEEP_ALIVE_DEFAULT_MAX_RETRIES;
         lastRecvCount := 0;
         lastSentCount := 0;
         lostKeepAlives := 0 }}.

(** [created] is the answer of [np_event_queue_create_event]. *)
Definition nc_keep_alive_init (created : np_error_code) : ka_handler np_error_code :=
  hmod ka_default_settings ;;;
  hmod (fun ctx => ctx {{ ka_n := kaInterval ctx / kaRetryInterval ctx }}) ;;;
  emit KaCreateEvent ;;;
  hret created.

Definition nc_keep_alive_deinit : ka_handler unit := emit KaDestroyEvent.

Definition nc_keep_alive_stop : ka_handler unit := emit KaCancelEvent.

Definition nc_keep_alive_reset : ka_handler unit :=
  emit KaCancelEvent ;;;
  hmod ka_default_settings.

(** The division by [retryInterval] is undefined when it is zero. *)
Definition nc_keep_alive_set_settings (ctx : nc_keep_alive_context)
    (interval retryInterval maxRetries : Z) : cres nc_keep_alive_context :=
  if retryInterval =? 0 then UB
  else Def (ctx {{ kaInterval := interval;
                   kaRetryInterval := retryInterval;
                   kaMaxRetries := maxRetries;
                   ka_n := interval / retryInterval }}).

Definition nc_keep_alive_should_send (ctx : nc_keep_alive_context) (recvCount sentCount : Z) :
    nc_keep_alive_action * nc_keep_alive_context :=
  if (lastRecvCount ctx <? recvCount) && (lastSentCount ctx <? sentCount) then
    (DO_NOTHING,
     ctx {{ lostKeepAlives := 0; lastRecvCount := recvCount; lastSentCount := sentCount }})
  else if u32 (kaMaxRetries ctx + ka_n ctx) <? lostKeepAlives ctx then
    (KA_TIMEOUT, ctx)
  else
    let ctx := ctx {{ lostKeepAlives ::= fun l => u32 (l + 1) }} in
    if negb (ka_isSending ctx) && (ka_n ctx <? lostKeepAlives ctx) then (SEND_KA, ctx)
    else (DO_NOTHING, ctx).

Definition nc_keep_alive_wait : ka_handler unit :=
  let* ctx := hget in emit (KaPostTimedEvent (kaRetryInterval ctx)).

(** The buffer handed to the sender, and its length. *)
Definition nc_keep_alive_create_request (ctx : nc_keep_alive_context) :
    (list Z * nat) * nc_keep_alive_context :=
  let buf := memcpy (memcpy (ka_sendBuffer ctx) 0 [AT_KEEP_ALIVE; CT_KEEP_ALIVE_REQUEST])
                    2 (replicate 16 0) in
  ((buf, 18%nat), ctx {{ ka_sendBuffer := buf; ka_isSending := true }}).

(** [None] is the answer [false]: do not respond. *)
Definition nc_keep_alive_handle_request (ctx : nc_keep_alive_context)
    (reqBuffer : list Z) (reqLength : nat) :
    option (list Z * nat) * nc_keep_alive_context :=
  if (reqLength <? 18)%nat || ka_isSending ctx then (None, ctx)
  else
    let buf := memcpy (memcpy (ka_sendBuffer ctx) 0 [AT_KEEP_ALIVE; CT_KEEP_ALIVE_RESPONSE])
                      2 (take 16 (drop 2 reqBuffer)) in
    (Some (buf, 18%nat), ctx {{ ka_sendBuffer := buf; ka_isSending := true }}).

Definition nc_keep_alive_packet_sent (ctx : nc_keep_alive_context) : nc_keep_alive_context :=
  ctx {{ ka_isSending := false }}.

(** ** The owner's loop *)

(** One keep-alive event as the owners handle it: ask, and send a request when told to.
    The send completes before the next event. *)
Definition ka_check (ctx : nc_keep_alive_context) (counts : Z * Z) :
    nc_keep_alive_action * nc_keep_alive_context :=
  let '(action, ctx1) := nc_keep_alive_should_send ctx counts.1 counts.2 in
  match action with
  | SEND_KA => (SEND_KA, nc_keep_alive_packet_sent (nc_keep_alive_create_request ctx1).2)
  | _ => (action, ctx1)
  end.

(** The actions at a sequence of events with the DTLS counters read at each of them. *)
Fixpoint ka_run (ctx : nc_keep_alive_context) (counts : list (Z * Z)) :
    list nc_keep_alive_action * nc_keep_alive_context :=
  match counts with
  | [] => ([], ctx)
  | c :: rest =>
      let '(a, ctx1) := ka_check ctx c in
      let '(acts, ctx2) := ka_run ctx1 rest in (a :: acts, ctx2)
  end.

(** No answer has arrived since the last check that saw traffic. *)
Definition silent (ctx : nc_keep_alive_context) (c : Z * Z) : Prop :=
  c.1 <= lastRecvCount ctx \/ c.2 <= lastSentCount ctx.

#[global] Instance silent_dec ctx c : Decision (silent ctx c).
Proof. unfold silent. apply _. Defined.

(** The action the settings prescribe for the [k]-th check (from 1) of a silence. *)
Definition silence_action (n maxRetries : Z) (k : Z) : nc_keep_alive_action :=
  if k <=? n then DO_NOTHING else if k <=? n + maxRetries + 1 then SEND_KA else KA_TIMEOUT.

(** ** Proofs *)

Definition ka_wf (ctx : nc_keep_alive_context) : Prop :=
  0 <= ka_n ctx /\ 0 <= kaMaxRetries ctx /\ kaMaxRetries ctx + ka_n ctx + 1 < 2 ^ 32 /\
  0 <= lostKeepAlives ctx <= kaMaxRetries ctx + ka_n ctx + 1 /\ ka_isSending ctx = false.

#[global] Instance ka_wf_dec ctx : Decision (ka_wf ctx).
Proof. unfold ka_wf. apply _. Defined.

Lemma should_send_silent ctx c :
  ka_wf ctx -> silent ctx c ->
  ka_check ctx c =
    (silence_action (ka_n ctx) (kaMaxRetries ctx) (lostKeepAlives ctx + 1),
     (ka_check ctx c).2) /\
  ka_wf (ka_check ctx c).2 /\
  lostKeepAlives (ka_check ctx c).2 =
    Z.min (lostKeepAlives ctx + 1) (kaMaxRetries ctx + ka_n ctx + 1) /\
  (forall c', silent ctx c' -> silent (ka_check ctx c).2 c') /\
  ka_n (ka_check ctx c).2 = ka_n ctx /\ kaMaxRetries (ka_check ctx c).2 = kaMaxRetries ctx.
Proof.
  destruct ctx as [iv ri mr lr ls lost n sending buf], c as [r s].
  unfold ka_wf, silent, silence_action, ka_check, nc_keep_alive_should_send; cbn -[Z.add Z.pow].
  intros (Hn & Hm & Hb & Hl & ->) Hs.
  replace ((lr <? r) && (ls <? s)) with false
    by (symmetry; apply andb_false_iff; rewrite !Z.ltb_ge; lia).
  rewrite (u32_small (mr + n)) by (unfold is_uint; lia).
  destruct (Z.ltb_spec (mr + n) lost).
  { cbn -[Z.add Z.pow]. rewrite !(proj2 (Z.leb_gt _ _)) by lia. repeat split; auto; lia. }
  unfold constant; cbn -[Z.add Z.pow]. rewrite !u32_small by (unfold is_uint; lia).
  destruct (Z.ltb_spec n (lost + 1)); cbn -[Z.add Z.pow];
    [rewrite (proj2 (Z.leb_gt (lost + 1) n)), (proj2 (Z.leb_le _ _)) by lia
    | rewrite (proj2 (Z.leb_le (lost + 1) n)) by lia];
    repeat split; auto; lia.
Qed.

(** The actions over a silence that starts after [lost] unanswered checks. *)
Lemma ka_run_silent counts : forall ctx,
  ka_wf ctx -> Forall (silent ctx) counts ->
  (ka_run ctx counts).1 =
    imap (fun i _ => silence_action (ka_n ctx) (kaMaxRetries ctx) (lostKeepAlives ctx + 1 + Z.of_nat i)) counts.
Proof.
  induction counts as [| c counts IH]; intros ctx Hwf Hs; [done |].
  inversion_clear Hs as [| ? ? Hc Hrest]. cbn.
  destruct (should_send_silent ctx c Hwf Hc) as (E & Hwf' & Hl & Hsil & En & Em).
  destruct (ka_check ctx c) as [a ctx1]. cbn in *. injection E as E.
  specialize (IH ctx1 Hwf'). destruct (ka_run ctx1 counts) as [acts ctx2]. cbn in *.
  f_equal; [by rewrite E, Z.add_0_r |].
  rewrite IH by (eapply Forall_impl; eauto). apply imap_ext. intros i x _. cbn.
  rewrite En, Em, Hl. unfold silence_action, ka_wf in *.
  repeat match goal with |- context [?x <=? ?y] => destruct (Z.leb_spec x y) end; (done || lia).
Qed.

Definition ka_demo : nc_keep_alive_context :=
  mk_ka 30000 2000 15 7 9 0 15 false (replicate 18 0).

(** Detection of a dead peer: after traffic was last seen, with [n = kaInterval /
    kaRetryInterval], the first [n] silent checks do nothing, the next [kaMaxRetries + 1]
    each send a keep-alive request, and every later one reports the timeout. *)
Lemma keep_alive_silence_schedule (ctx : nc_keep_alive_context) (counts : list (Z * Z)) :
  ka_wf ctx -> lostKeepAlives ctx = 0 -> Forall (silent ctx) counts ->
  forall i, (i < length counts)%nat ->
    (ka_run ctx counts).1 !! i =
      Some (silence_action (ka_n ctx) (kaMaxRetries ctx) (1 + Z.of_nat i)).
Proof.
  intros Hwf Hl Hs i Hi. rewrite ka_run_silent by done. rewrite list_lookup_imap, Hl.
  by destruct (lookup_lt_is_Some_2 counts i Hi) as [x ->].
Qed.

Lemma keep_alive_silence_schedule_witness :
  (ka_run ka_demo (replicate 40 (7, 12))).1 !! 14%nat = Some DO_NOTHING /\
  (ka_run ka_demo (replicate 40 (7, 12))).1 !! 15%nat = Some SEND_KA /\
  (ka_run ka_demo (replicate 40 (7, 12))).1 !! 30%nat = Some SEND_KA /\
  (ka_run ka_demo (replicate 40 (7, 12))).1 !! 31%nat = Some KA_TIMEOUT.
Proof.
  split; [| split; [| split]]; apply (keep_alive_silence_schedule ka_demo (replicate 40 (7, 12)));
    first [by_compute | reflexivity | vm_compute; lia].
Defined.

(** Answering a keep alive: when no keep-alive packet is being sent, a request of at
    least 18 bytes is answered by 18 bytes, the response header followed by the 16 bytes of
    the request's payload; a shorter one, or one that arrives during a send, is dropped and
    changes nothing. *)
Lemma keep_alive_echo (ctx : nc_keep_alive_context) (req : list Z) :
  length (ka_sendBuffer ctx) = 18%nat ->
  nc_keep_alive_handle_request ctx req (length req) =
    if ka_isSending ctx || (length req <? 18)%nat then (None, ctx)
    else (Some ([AT_KEEP_ALIVE; CT_KEEP_ALIVE_RESPONSE] ++ take 16 (drop 2 req), 18%nat),
          ctx {{ ka_sendBuffer := [AT_KEEP_ALIVE; CT_KEEP_ALIVE_RESPONSE] ++ take 16 (drop 2 req);
                 ka_isSending := true }}).
Proof.
  intros Hlen. unfold nc_keep_alive_handle_request. rewrite orb_comm.
  destruct (ka_isSending ctx); [done |]. destruct (Nat.ltb_spec (length req) 18) as [| Hreq]; [done |].
  assert (E : memcpy (memcpy (ka_sendBuffer ctx) 0 [AT_KEEP_ALIVE; CT_KEEP_ALIVE_RESPONSE]) 2
    (take 16 (drop 2 req)) = [AT_KEEP_ALIVE; CT_KEEP_ALIVE_RESPONSE] ++ take 16 (drop 2 req)).
  { assert (Hl : length (take 16 (drop 2 req)) = 16%nat) by (rewrite length_take, length_drop; lia).
    unfold memcpy at 1. rewrite Hl. rewrite (drop_ge (memcpy _ _ _)), app_nil_r; [done |].
    rewrite memcpy_length by (cbn; lia). lia. }
  cbn -[memcpy take drop]. by rewrite E.
Qed.

Lemma keep_alive_echo_witness :
  nc_keep_alive_handle_request ka_demo (4 :: 3 :: replicate 20 5) 22 =
    (Some (4 :: 4 :: replicate 16 5, 18%nat),
     ka_demo {{ ka_sendBuffer := 4 :: 4 :: replicate 16 5; ka_isSending := true }}).
Proof. apply (keep_alive_echo ka_demo (4 :: 3 :: replicate 20 5)). reflexivity. Defined.
