(* ===== verification/DnsMultiResolver.v ===== *)
(** * Resolving a host to IPv4 and IPv6 addresses (nc_dns_multi_resolver.c)

    Two lookups run at the same time; when both have ended, their addresses are merged
    into the caller's array and the caller's completion event is resolved. *)

From S2P Require Import Prelude Platform.

#[local] Open Scope handler_scope.

Definition NC_DNS_MULTI_RESOLVER_MAX_IPS : nat := 4.

Record nc_dns_multi_resolver_context : Type := mk_dns {
  v4Ips : list np_ip_address;
  v6Ips : list np_ip_address;
  v4IpsSize : nat;
  v6IpsSize : nat;
  v4Ec : np_error_code;
  v6Ec : np_error_code;
  (* the caller's array [ips], its size, and [*ipsResolved] *)
  dns_ips : list np_ip_address;
  dns_ipsSize : nat;
  dns_ipsResolved : nat
}.

Inductive dns_call : Type :=
| DnsInitEvent
| DnsDeinitEvent
| DnsAsyncResolveV4 (host : list Z) (max : nat)
| DnsAsyncResolveV6 (host : list Z) (max : nat)
| DnsCompletionResolve (ec : np_error_code).

Definition dns_handler (A : Type) : Type := handler nc_dns_multi_resolver_context dns_call A.

(** [ec4] and [ec6] are the answers of [np_completion_event_init]. *)
Definition nc_dns_multi_resolver_init (ec4 ec6 : np_error_code) : dns_handler np_error_code :=
  emit DnsInitEvent ;;;
  if is_error ec4 then hret ec4
  else emit DnsInitEvent ;;;
       if is_error ec6 then hret ec6 else hret NABTO_EC_OK.

Definition nc_dns_multi_resolver_deinit : dns_handler unit :=
  emit DnsDeinitEvent ;;; emit DnsDeinitEvent.

(** [ips] is the caller's array of [ipsSize] elements. *)
Definition nc_dns_multi_resolver_resolve (host : list Z) (ips : list np_ip_address)
    (ipsSize ipsResolved : nat) : dns_handler unit :=
  hmod (fun ctx => ctx {{ dns_ips := ips;
                          dns_ipsSize := ipsSize;
                          dns_ipsResolved := ipsResolved;
                          v4IpsSize := 0%nat;
                          v6IpsSize := 0%nat;
                          v4Ec := NABTO_EC_OPERATION_IN_PROGRESS;
                          v6Ec := NABTO_EC_OPERATION_IN_PROGRESS }}) ;;;
  emit (DnsAsyncResolveV4 host NC_DNS_MULTI_RESOLVER_MAX_IPS) ;;;
  emit (DnsAsyncResolveV6 host NC_DNS_MULTI_RESOLVER_MAX_IPS).

(** One half of the body of the [for] loop: copy entry [i] of [src] when there is room. *)
Definition copy_ip (src : list np_ip_address) (size ipsSize i : nat)
    (st : list np_ip_address * nat) : list np_ip_address * nat :=
  let '(ips, ipsResolved) := st in
  if (ipsResolved <? ipsSize)%nat then
    if (i <? size)%nat then (<[ipsResolved := default zero_ip (src !! i)]> ips, S ipsResolved)
    else st
  else st.

Definition merge_body (ctx : nc_dns_multi_resolver_context) (i : nat)
    (st : list np_ip_address * nat) : list np_ip_address * nat :=
  copy_ip (v6Ips ctx) (v6IpsSize ctx) (dns_ipsSize ctx) i
    (copy_ip (v4Ips ctx) (v4IpsSize ctx) (dns_ipsSize ctx) i st).

(** [for (i = from; i < from + rounds; i++)]. *)
Fixpoint merge_loop (ctx : nc_dns_multi_resolver_context) (rounds from : nat)
    (st : list np_ip_address * nat) : list np_ip_address * nat :=
  match rounds with
  | O => st
  | S rounds' => merge_loop ctx rounds' (S from) (merge_body ctx from st)
  end.

Definition dns_resolved_ec (ctx : nc_dns_multi_resolver_context) :
    np_error_code * nc_dns_multi_resolver_context :=
  if is_error (v4Ec ctx) && is_error (v6Ec ctx) then (v4Ec ctx, ctx)
  else
    let '(ips, n) := merge_loop ctx (v4IpsSize ctx + v6IpsSize ctx) 0 (dns_ips ctx, 0%nat) in
    (NABTO_EC_OK, ctx {{ dns_ips := ips; dns_ipsResolved := n }}).

Definition dns_resolved : dns_handler unit :=
  let* ctx := hget in
  if ec_eqb (v4Ec ctx) NABTO_EC_OPERATION_IN_PROGRESS ||
     ec_eqb (v6Ec ctx) NABTO_EC_OPERATION_IN_PROGRESS then hskip
  else
    let '(ec, ctx') := dns_resolved_ec ctx in
    hmod (fun _ => ctx') ;;;
    emit (DnsCompletionResolve ec).

Definition dns_resolved_callback_v4 (ec : np_error_code) : dns_handler unit :=
  hmod (fun ctx => ctx {{ v4Ec := ec }}) ;;; dns_resolved.

Definition dns_resolved_callback_v6 (ec : np_error_code) : dns_handler unit :=
  hmod (fun ctx => ctx {{ v6Ec := ec }}) ;;; dns_resolved.

(** What the DNS module does before it resolves a completion event: store at most
    [max] addresses and their number. *)
Definition dns_store_v4 (ips : list np_ip_address) (ctx : nc_dns_multi_resolver_context) :=
  ctx {{ v4Ips := ips; v4IpsSize := length ips }}.
Definition dns_store_v6 (ips : list np_ip_address) (ctx : nc_dns_multi_resolver_context) :=
  ctx {{ v6Ips := ips; v6IpsSize := length ips }}.

(** The end of one lookup. *)
Definition dns_v4_done (ec : np_error_code) (ips : list np_ip_address) : dns_handler unit :=
  hmod (dns_store_v4 ips) ;;; dns_resolved_callback_v4 ec.
Definition dns_v6_done (ec : np_error_code) (ips : list np_ip_address) : dns_handler unit :=
  hmod (dns_store_v6 ips) ;;; dns_resolved_callback_v6 ec.

(** ** Specification *)

(** IPv4 and IPv6 addresses in turn, then what is left of the longer list. *)
Fixpoint alternate (a b : list np_ip_address) : list np_ip_address :=
  match a, b with
  | [], b => b
  | a, [] => a
  | x :: a', y :: b' => x :: y :: alternate a' b'
  end.

(** Write [xs] into an array from index [n] on, up to [cap]. *)
Fixpoint put (cap : nat) (xs : list np_ip_address) (st : list np_ip_address * nat) :=
  match xs with
  | [] => st
  | x :: xs' =>
      let '(ips, n) := st in
      put cap xs' (if (n <? cap)%nat then (<[n := x]> ips, S n) else st)
  end.

(** A whole resolution: the request, then the two lookups ending in either order. *)
Definition dns_resolution (v4first : bool) (host : list Z) (ips : list np_ip_address) (ipsSize : nat)
    (ec4 ec6 : np_error_code) (ips4 ips6 : list np_ip_address) : dns_handler unit :=
  nc_dns_multi_resolver_resolve host ips ipsSize 0 ;;;
  if v4first then dns_v4_done ec4 ips4 ;;; dns_v6_done ec6 ips6
  else dns_v6_done ec6 ips6 ;;; dns_v4_done ec4 ips4.

(** The outcome: error code, the caller's array, the number of addresses. *)
Definition dns_outcome (ips : list np_ip_address) (ipsSize : nat) (ec4 ec6 : np_error_code)
    (ips4 ips6 : list np_ip_address) : np_error_code * list np_ip_address * nat :=
  if is_error ec4 && is_error ec6 then (ec4, ips, 0%nat)
  else let out := take ipsSize (alternate ips4 ips6) in
       (NABTO_EC_OK, out ++ drop (length out) ips, length out).

(** ** Proofs *)

Definition at_index (l : list np_ip_address) (i : nat) : list np_ip_address :=
  match l !! i with Some x => [x] | None => [] end.

Lemma put_app cap xs ys st : put cap (xs ++ ys) st = put cap ys (put cap xs st).
Proof. revert st. induction xs as [| x xs IH]; intros [ips n]; cbn; [done | apply IH]. Qed.

Lemma copy_ip_put src cap i st :
  copy_ip src (length src) cap i st = put cap (at_index src i) st.
Proof.
  destruct st as [ips n]. unfold copy_ip, at_index.
  destruct (src !! i) as [x |] eqn:E.
  - assert (Hi : (i < length src)%nat) by (apply (lookup_lt_Some _ _ _ E)).
    rewrite (proj2 (Nat.ltb_lt i _) Hi). cbn [put]. by destruct (n <? cap)%nat.
  - apply lookup_ge_None in E. rewrite (proj2 (Nat.ltb_ge i _) E). cbn [put]. by destruct (n <? cap)%nat.
Qed.

Lemma alternate_drop a b i :
  alternate (drop i a) (drop i b) =
    at_index a i ++ at_index b i ++ alternate (drop (S i) a) (drop (S i) b).
Proof.
  unfold at_index. destruct (a !! i) as [x |] eqn:Ea, (b !! i) as [y |] eqn:Eb.
  - by rewrite (drop_S _ _ _ Ea), (drop_S _ _ _ Eb).
  - rewrite (drop_S _ _ _ Ea). apply lookup_ge_None in Eb. rewrite !(drop_ge b) by lia. cbn.
    by destruct (drop (S i) a).
  - rewrite (drop_S _ _ _ Eb). apply lookup_ge_None in Ea. by rewrite !(drop_ge a) by lia.
  - apply lookup_ge_None in Ea, Eb. by rewrite !drop_ge by lia.
Qed.

Lemma merge_loop_put ctx rounds : forall from st,
  v4IpsSize ctx = length (v4Ips ctx) -> v6IpsSize ctx = length (v6Ips ctx) ->
  (length (v4Ips ctx) + length (v6Ips ctx) <= from + rounds)%nat ->
  merge_loop ctx rounds from st =
    put (dns_ipsSize ctx) (alternate (drop from (v4Ips ctx)) (drop from (v6Ips ctx))) st.
Proof.
  induction rounds as [| rounds IH]; intros from st H4 H6 Hr; cbn.
  - by rewrite !drop_ge by lia.
  - rewrite IH by (done || lia). unfold merge_body.
    rewrite H4, H6, !copy_ip_put, (alternate_drop _ _ from), !put_app. done.
Qed.

Lemma put_spec cap xs : forall ips n,
  (n <= cap)%nat -> (cap <= length ips)%nat ->
  put cap xs (ips, n) =
    (take n ips ++ take (cap - n) xs ++ drop (n + length (take (cap - n) xs)) ips,
     (n + length (take (cap - n) xs))%nat).
Proof.
  induction xs as [| x xs IH]; intros ips n Hn Hc; cbn [put].
  { rewrite take_nil. cbn. by rewrite Nat.add_0_r, take_drop. }
  destruct (Nat.ltb_spec n cap).
  - rewrite IH by (rewrite ?length_insert; lia).
    replace (cap - n)%nat with (S (cap - S n)) by lia. cbn [take length firstn].
    assert (E : take (S n) (<[n := x]> ips) = take n ips ++ [x]).
    { rewrite (take_S_r _ _ x) by (apply list_lookup_insert_eq; lia). by rewrite take_insert_ge by lia. }
    rewrite E, <- app_assoc. cbn. rewrite drop_insert_lt by lia.
    replace (n + S (length (take (cap - S n) xs)))%nat
      with (S (n + length (take (cap - S n) xs))) by lia. done.
  - assert (n = cap) as -> by lia. rewrite IH by lia. rewrite Nat.sub_diag. done.
Qed.

(** Both lookups have ended: what the merge leaves in the caller's array. *)
Lemma dns_resolved_ec_spec ctx :
  v4IpsSize ctx = length (v4Ips ctx) -> v6IpsSize ctx = length (v6Ips ctx) ->
  (dns_ipsSize ctx <= length (dns_ips ctx))%nat ->
  is_error (v4Ec ctx) && is_error (v6Ec ctx) = false ->
  let out := take (dns_ipsSize ctx) (alternate (v4Ips ctx) (v6Ips ctx)) in
  dns_resolved_ec ctx =
    (NABTO_EC_OK,
     ctx {{ dns_ips := out ++ drop (length out) (dns_ips ctx); dns_ipsResolved := length out }}).
Proof.
  intros H4 H6 Hc He out. unfold dns_resolved_ec. rewrite He.
  rewrite merge_loop_put by (done || lia). rewrite put_spec by lia.
  rewrite Nat.sub_0_r. done.
Qed.

(** Resolving: whichever lookup ends first, nothing is reported before both have ended;
    then the completion event is resolved exactly once. Unless both lookups failed (then
    with the IPv4 error) it is [NABTO_EC_OK] and the caller's array holds the alternating
    IPv4 and IPv6 addresses, cut to its size, and nothing beyond is written. *)
Lemma dns_resolution_correct v4first host ips ipsSize ec4 ec6 ips4 ips6 ctx :
  ec4 <> NABTO_EC_OPERATION_IN_PROGRESS -> ec6 <> NABTO_EC_OPERATION_IN_PROGRESS ->
  (ipsSize <= length ips)%nat ->
  let m := dns_resolution v4first host ips ipsSize ec4 ec6 ips4 ips6 in
  let '(ec, ips', n) := dns_outcome ips ipsSize ec4 ec6 ips4 ips6 in
  trace m ctx = [DnsAsyncResolveV4 host NC_DNS_MULTI_RESOLVER_MAX_IPS;
                 DnsAsyncResolveV6 host NC_DNS_MULTI_RESOLVER_MAX_IPS;
                 DnsCompletionResolve ec] /\
  dns_ips (exec m ctx) = ips' /\ dns_ipsResolved (exec m ctx) = n.
Proof.
  intros H4 H6 Hc. unfold dns_outcome, dns_resolution. destruct ctx.
  destruct (is_error ec4 && is_error ec6) eqn:He; destruct v4first;
  unfold dns_v4_done, dns_v6_done, dns_store_v4, dns_store_v6, dns_resolved_callback_v4,
    dns_resolved_callback_v6, nc_dns_multi_resolver_resolve, dns_resolved, ec_eqb; hsimpl;
  rewrite ?(bool_decide_true (_ = _) eq_refl), ?orb_true_r; cbn;
  rewrite ?(bool_decide_false _ H4), ?(bool_decide_false _ H6); cbn;
  first [ rewrite dns_resolved_ec_spec by (cbn; done); done
        | unfold dns_resolved_ec; cbn; rewrite He; done ].
Qed.

Definition demo_ip4 (b : Z) : np_ip_address := mk_ip NABTO_IPV4 (b :: replicate 15 0).
Definition demo_ip6 (b : Z) : np_ip_address := mk_ip NABTO_IPV6 (b :: replicate 15 0).

Lemma dns_resolution_correct_witness :
  trace (dns_resolution false [104; 0] (replicate 3 zero_ip) 3 NABTO_EC_OK NABTO_EC_OK
           [demo_ip4 1; demo_ip4 2] [demo_ip6 3])
        (mk_dns [] [] 0 0 NABTO_EC_OK NABTO_EC_OK [] 0 0) =
    [DnsAsyncResolveV4 [104; 0] 4; DnsAsyncResolveV6 [104; 0] 4; DnsCompletionResolve NABTO_EC_OK] /\
  dns_ips (exec (dns_resolution false [104; 0] (replicate 3 zero_ip) 3 NABTO_EC_OK NABTO_EC_OK
           [demo_ip4 1; demo_ip4 2] [demo_ip6 3])
        (mk_dns [] [] 0 0 NABTO_EC_OK NABTO_EC_OK [] 0 0)) = [demo_ip4 1; demo_ip6 3; demo_ip4 2] /\
  dns_ipsResolved (exec (dns_resolution false [104; 0] (replicate 3 zero_ip) 3 NABTO_EC_OK NABTO_EC_OK
           [demo_ip4 1; demo_ip4 2] [demo_ip6 3])
        (mk_dns [] [] 0 0 NABTO_EC_OK NABTO_EC_OK [] 0 0)) = 3%nat.
Proof.
  apply (dns_resolution_correct false [104; 0] (replicate 3 zero_ip) 3 NABTO_EC_OK NABTO_EC_OK
           [demo_ip4 1; demo_ip4 2] [demo_ip6 3] (mk_dns [] [] 0 0 NABTO_EC_OK NABTO_EC_OK [] 0 0));
    [done | done | cbn; lia].
Defined.
