(* ===== verification/Dns.v ===== *)
(** * Name lookup (modules/dns/unix/nm_unix_dns.c, modules/libevent/nm_libevent_dns.c)

    The resolver of the unix module has a list of requests and a thread that looks them up one by
    one. Any operation of another thread may come in between two steps of the thread; what happens
    under the mutex is one step. [async_resolve] and [stop_resolver] look at [stopped] before they
    lock the mutex, which is a step of its own, and so is a signal of the condition. The answer of
    [getaddrinfo] is an argument. Of the libevent module there is the callback, with what libevent
    tells it. *)

From S2P Require Import Prelude Platform.

#[local] Open Scope Z_scope.
#[local] Open Scope handler_scope.

Definition AF_INET : Z := 2.
Definition AF_INET6 : Z := 10.

(** ** The addresses of a lookup *)

(** An [addrinfo]: the family, and the address. *)
Definition addrinfo : Type := Z * list Z.

Definition known_family (p : addrinfo) : bool := (p.1 =? AF_INET) || (p.1 =? AF_INET6).

(** [ips[i].type = ..; memcpy(ips[i].ip, ..)]: outside of the array the write is undefined. *)
Definition store_ip (ips : list np_ip_address) (i : nat) (type : np_ip_address_type) (address : list Z) :
    cres (list np_ip_address) :=
  match ips !! i with
  | Some ip => Def (<[i := mk_ip type (memcpy (ip_mem ip) 0 address)]> ips)
  | None => UB
  end.

(** The loop of [resolve_one_ec]: [ipsResolved] is what the pointer of the event points to; it is
    not written before the loop is done. *)
Fixpoint resolve_loop (ipsResolved ipsSize : nat) (infos : list addrinfo) (ips : list np_ip_address)
    (resolved : nat) : cres (list np_ip_address * nat) :=
  match infos with
  | [] => Def (ips, resolved)
  | p :: rest =>
      if (ipsResolved <? ipsSize)%nat then
        if p.1 =? AF_INET then
          cres_bind (store_ip ips resolved NABTO_IPV4 p.2) (fun ips =>
          resolve_loop ipsResolved ipsSize rest ips (Datatypes.S resolved))
        else if p.1 =? AF_INET6 then
          cres_bind (store_ip ips resolved NABTO_IPV6 p.2) (fun ips =>
          resolve_loop ipsResolved ipsSize rest ips (Datatypes.S resolved))
        else resolve_loop ipsResolved ipsSize rest ips resolved
      else resolve_loop ipsResolved ipsSize rest ips resolved
  end.

(** [ips]: the array of the caller, of [ipsSize] elements; [answer]: what [getaddrinfo] finds, if it
    succeeds. The array and the number of addresses after the call. *)
Definition resolve_one_ec (ips : list np_ip_address) (answer : option (list addrinfo)) :
    cres (np_error_code * list np_ip_address * nat) :=
  match answer with
  | None => Def (NABTO_EC_NOT_FOUND, ips, 0%nat)
  | Some infos =>
      cres_bind (resolve_loop 0 (length ips) infos ips 0) (fun '(ips, resolved) =>
      Def (NABTO_EC_OK, ips, resolved))
  end.

(** The addresses of a lookup, as they are to be stored. *)
Definition ip_of (p : addrinfo) (ip : np_ip_address) : np_ip_address :=
  mk_ip (if p.1 =? AF_INET then NABTO_IPV4 else NABTO_IPV6) (memcpy (ip_mem ip) 0 p.2).

Definition found (infos : list addrinfo) : list addrinfo := filter (fun p => known_family p = true) infos.

Lemma found_cons p infos : found (p :: infos) = if known_family p then p :: found infos else found infos.
Proof. unfold found. rewrite filter_cons. destruct (decide _) as [-> | Hn]; [done |]. by destruct (known_family p). Qed.

Lemma resolve_loop_cons r n p infos ips resolved :
  (r < n)%nat ->
  resolve_loop r n (p :: infos) ips resolved =
    if known_family p then
      cres_bind (store_ip ips resolved (if p.1 =? AF_INET then NABTO_IPV4 else NABTO_IPV6) p.2) (fun ips =>
      resolve_loop r n infos ips (Datatypes.S resolved))
    else resolve_loop r n infos ips resolved.
Proof.
  intros Hr. cbn [resolve_loop]. rewrite (proj2 (Nat.ltb_lt _ _) Hr). unfold known_family.
  destruct (p.1 =? AF_INET); [done |]. by destruct (p.1 =? AF_INET6).
Qed.

Lemma resolve_loop_spec r n infos ips resolved :
  (r < n)%nat -> (resolved + length (found infos) <= length ips)%nat ->
  resolve_loop r n infos ips resolved =
    Def (take resolved ips ++ zip_with ip_of (found infos) (drop resolved ips) ++
           drop (resolved + length (found infos)) ips, (resolved + length (found infos))%nat).
Proof.
  intros Hr. revert ips resolved. induction infos as [| p infos IH]; intros ips resolved Hl.
  - cbn. rewrite Nat.add_0_r. by rewrite take_drop.
  - rewrite resolve_loop_cons by done. rewrite found_cons in *. destruct (known_family p); [| by apply IH].
    cbn [length] in *. destruct (lookup_lt_is_Some_2 ips resolved ltac:(lia)) as [ip Hip].
    unfold store_ip. rewrite Hip. cbn [cres_bind]. rewrite IH by (rewrite length_insert; lia).
    f_equal. f_equal; [| lia]. rewrite (drop_S ips ip resolved Hip). cbn [zip_with].
    rewrite (take_S_r _ _ (ip_of p ip)) by (apply list_lookup_insert_eq; lia).
    rewrite take_insert_ge by lia. rewrite <- app_assoc. cbn. f_equal. f_equal.
    rewrite !drop_insert_lt by lia. f_equal. f_equal. lia.
Qed.

(** Addresses that do not fit are written past the end of the array. *)
Lemma resolve_loop_overflow r n infos ips resolved :
  (r < n)%nat -> (resolved <= length ips < resolved + length (found infos))%nat ->
  resolve_loop r n infos ips resolved = UB.
Proof.
  intros Hr. revert ips resolved. induction infos as [| p infos IH]; intros ips resolved Hl.
  - cbn in Hl. lia.
  - rewrite resolve_loop_cons by done. rewrite found_cons in Hl. destruct (known_family p); [| by apply IH].
    cbn [length] in Hl. unfold store_ip. destruct (ips !! resolved) as [ip |] eqn:E; [| done].
    apply lookup_lt_Some in E. cbn [cres_bind]. apply IH. rewrite length_insert. lia.
Qed.

(** A lookup is defined exactly when the addresses fit into the array - the test against its size is made
    with a number that stays 0 - and then it stores them all, in order. *)
Lemma resolve_one_ec_spec ips infos :
  resolve_one_ec ips (Some infos) =
    if bool_decide (ips = []) then Def (NABTO_EC_OK, [], 0%nat)
    else if (length (found infos) <=? length ips)%nat then
      Def (NABTO_EC_OK, zip_with ip_of (found infos) ips ++ drop (length (found infos)) ips, length (found infos))
    else UB.
Proof.
  unfold resolve_one_ec. destruct (bool_decide_reflect (ips = [])) as [-> | Hne].
  - assert (E : resolve_loop 0 0 infos [] 0 = Def ([], 0%nat)) by (induction infos as [| p infos IH]; [done | exact IH]).
    cbn [length]. by rewrite E.
  - assert (0 < length ips)%nat by (destruct ips; [done | cbn; lia]).
    destruct (Nat.leb_spec (length (found infos)) (length ips)).
    + rewrite resolve_loop_spec by lia. cbn [cres_bind]. by rewrite take_0, drop_0.
    + rewrite resolve_loop_overflow by lia. done.
Qed.

(** Five addresses for an array of four. *)
Example five_addresses_overflow :
  resolve_one_ec (replicate 4 zero_ip) (Some (replicate 5 (AF_INET, [10; 0; 0; 1]))) = UB.
Proof. by vm_compute. Qed.

(** *** The callback of nm_libevent_dns.c *)

Definition DNS_ERR_NONE : Z := 0.
Definition DNS_IPv4_A : Z := 1.
Definition DNS_IPv6_AAAA : Z := 3.

(** [ips[i].type = type], and [memcpy(ips[i].ip, a)]. *)
Definition set_type (ips : list np_ip_address) (i : nat) (type : np_ip_address_type) : cres (list np_ip_address) :=
  match ips !! i with Some ip => Def (<[i := mk_ip type (ip_mem ip)]> ips) | None => UB end.
Definition set_address (ips : list np_ip_address) (i : nat) (a : list Z) : cres (list np_ip_address) :=
  match ips !! i with Some ip => Def (<[i := mk_ip (ip_type ip) (memcpy (ip_mem ip) 0 a)]> ips) | None => UB end.

(** The loop over the records; [i] is the number of the record. The type is stored at [i], the address
    at [resolved]. *)
Fixpoint dns_cb_loop (type : Z) (i : nat) (addresses : list (list Z)) (ips : list np_ip_address) (resolved : nat) :
    cres (list np_ip_address * nat) :=
  match addresses with
  | [] => Def (ips, resolved)
  | a :: rest =>
      if (resolved <? length ips)%nat then
        if type =? DNS_IPv4_A then
          cres_bind (set_type ips i NABTO_IPV4) (fun ips =>
          cres_bind (set_address ips resolved a) (fun ips =>
          dns_cb_loop type (Datatypes.S i) rest ips (Datatypes.S resolved)))
        else if type =? DNS_IPv6_AAAA then
          cres_bind (set_type ips i NABTO_IPV6) (fun ips =>
          cres_bind (set_address ips resolved a) (fun ips =>
          dns_cb_loop type (Datatypes.S i) rest ips (Datatypes.S resolved)))
        else dns_cb_loop type (Datatypes.S i) rest ips resolved
      else Def (ips, resolved)
  end.

(** [ipsResolved]: what the pointer of the request points to. The code that the completion event is resolved
    with, the array, and the number. *)
Definition dns_cb (result type : Z) (addresses : list (list Z)) (ips : list np_ip_address) (ipsResolved : nat) :
    cres (np_error_code * list np_ip_address * nat) :=
  if negb (result =? DNS_ERR_NONE) then Def (NABTO_EC_UNKNOWN, ips, ipsResolved)
  else
    cres_bind (dns_cb_loop type 0 addresses ips 0) (fun '(ips, resolved) =>
    Def (if (resolved =? 0)%nat then (NABTO_EC_NO_DATA, ips, ipsResolved) else (NABTO_EC_OK, ips, resolved))).

Lemma dns_cb_loop_spec type addresses ips n :
  (n <= length ips)%nat ->
  dns_cb_loop type n addresses ips n =
    if (type =? DNS_IPv4_A) || (type =? DNS_IPv6_AAAA) then
      let family := if type =? DNS_IPv4_A then AF_INET else AF_INET6 in
      let stored := zip_with ip_of (map (pair family) addresses) (drop n ips) in
      Def (take n ips ++ stored ++ drop (n + length stored) ips, (n + length stored)%nat)
    else Def (ips, n).
Proof.
  assert (Hskip : (type =? DNS_IPv4_A) || (type =? DNS_IPv6_AAAA) = false ->
    forall i, dns_cb_loop type i addresses ips n = Def (ips, n)).
  { intros [E4 E6]%orb_false_iff. induction addresses as [| a rest IH]; intros i; cbn [dns_cb_loop]; [done |].
    rewrite E4, E6. destruct (n <? length ips)%nat; [apply IH | done]. }
  destruct ((type =? DNS_IPv4_A) || (type =? DNS_IPv6_AAAA)) eqn:Ek; [clear Hskip | intros _; by apply Hskip].
  set (family := if type =? DNS_IPv4_A then AF_INET else AF_INET6). cbv zeta.
  revert ips n. induction addresses as [| a rest IH]; intros ips n Hn; cbn [dns_cb_loop map].
  - cbn. rewrite Nat.add_0_r. by rewrite take_drop.
  - destruct (Nat.ltb_spec n (length ips)) as [Hlt | Hge].
    2: { rewrite drop_ge by lia. cbn. rewrite Nat.add_0_r, drop_ge by lia. by rewrite app_nil_r, take_ge by lia. }
    destruct (lookup_lt_is_Some_2 ips n Hlt) as [ip Hip].
    assert (Hstore : forall t, t = (if family =? AF_INET then NABTO_IPV4 else NABTO_IPV6) ->
      cres_bind (set_type ips n t) (fun ips => cres_bind (set_address ips n a) (fun ips =>
        dns_cb_loop type (Datatypes.S n) rest ips (Datatypes.S n))) =
      dns_cb_loop type (Datatypes.S n) rest (<[n := ip_of (family, a) ip]> ips) (Datatypes.S n)).
    { intros t ->. unfold set_type. rewrite Hip. cbn [cres_bind]. unfold set_address.
      rewrite list_lookup_insert_eq by done. cbn [cres_bind]. by rewrite list_insert_insert_eq. }
    assert (Hloop : dns_cb_loop type (Datatypes.S n) rest (<[n := ip_of (family, a) ip]> ips) (Datatypes.S n) =
      Def (take n ips ++ zip_with ip_of (map (pair family) (a :: rest)) (drop n ips) ++
           drop (n + length (zip_with ip_of (map (pair family) (a :: rest)) (drop n ips))) ips,
           (n + length (zip_with ip_of (map (pair family) (a :: rest)) (drop n ips)))%nat)).
    { rewrite IH by (rewrite length_insert; lia). rewrite (drop_S ips ip n Hip). cbn [map zip_with length].
      rewrite (take_S_r _ _ (ip_of (family, a) ip)) by (by apply list_lookup_insert_eq).
      rewrite take_insert_ge by lia. rewrite !drop_insert_lt by lia. rewrite <- app_assoc. cbn.
      f_equal. f_equal; [| lia]. f_equal. f_equal. f_equal. f_equal. lia. }
    unfold family in Hstore, Hloop. destruct (type =? DNS_IPv4_A) eqn:E4.
    + rewrite Hstore by done. exact Hloop.
    + cbn in Ek. rewrite Ek. rewrite Hstore by done. exact Hloop.
Qed.

(** The callback of libevent is always defined: it stores the addresses that fit. *)
Lemma dns_cb_spec result type addresses ips ipsResolved :
  exists ec ips' n, dns_cb result type addresses ips ipsResolved = Def (ec, ips', n) /\
    (ec = NABTO_EC_OK -> n = Nat.min (length addresses) (length ips) /\ (0 < n)%nat).
Proof.
  unfold dns_cb. destruct (negb _); [by eexists _, _, _ |]. rewrite dns_cb_loop_spec by lia.
  destruct (_ || _).
  - cbv zeta. cbn [cres_bind]. rewrite drop_0, !length_zip_with, length_map. cbn [plus].
    destruct (Nat.eqb_spec (Nat.min (length addresses) (length ips)) 0); eexists _, _, _; (split; [reflexivity |]); [done | lia].
  - cbn [cres_bind]. by eexists _, _, _.
Qed.

(** ** The resolver of the unix module *)

(** A request, named by its completion event; [re_ips] is the array of the caller. *)
Record nm_dns_resolve_event : Type := mk_re {
  re_event : nat;
  re_host : list Z;
  re_family : Z;
  re_ips : list np_ip_address
}.

Inductive resolver_pc : Type :=
| RtNotStarted
| RtLoop
| RtWait
| RtResolve (r : nm_dns_resolve_event)
| RtReturned.

(** [rs_callers] are the calls of [async_resolve] between their test and the mutex, [rs_stoppers] those of
    [stop_resolver], [rs_signals] the threads that are to signal the condition. *)
Record nm_unix_dns_resolver : Type := mk_resolver {
  rs_events : list nm_dns_resolve_event;
  rs_stopped : bool;
  rs_thread : resolver_pc;
  rs_callers : list nm_dns_resolve_event;
  rs_stoppers : nat;
  rs_signals : nat
}.

(** [DnResolve ev ec ips]: the completion event is resolved, and the addresses that were found. *)
Inductive dn_call : Type := DnResolve (ev : nat) (ec : np_error_code) (ips : list np_ip_address).

Definition dn_handler (A : Type) : Type := handler nm_unix_dns_resolver dn_call A.
Definition dn_uhandler (A : Type) : Type := uhandler nm_unix_dns_resolver dn_call A.

Definition nm_unix_dns_resolver_init : nm_unix_dns_resolver := mk_resolver [] false RtNotStarted [] 0 0.

Definition nm_unix_dns_resolver_run : dn_handler unit :=
  hmod (fun s => match rs_thread s with RtNotStarted => s {{ rs_thread := RtLoop }} | _ => s end).

(** The test at the start of [async_resolve], and the rest. *)
Definition async_resolve (r : nm_dns_resolve_event) : dn_handler unit :=
  let* s := hget in
  if rs_stopped s then emit (DnResolve (re_event r) NABTO_EC_STOPPED [])
  else hmod (fun s => s {{ rs_callers ::= fun l => l ++ [r] }}).

Definition async_resolve_v4 (ev : nat) (host : list Z) (ips : list np_ip_address) : dn_handler unit :=
  async_resolve (mk_re ev host AF_INET ips).
Definition async_resolve_v6 (ev : nat) (host : list Z) (ips : list np_ip_address) : dn_handler unit :=
  async_resolve (mk_re ev host AF_INET6 ips).

Definition then_signal : dn_handler unit := hmod (fun s => s {{ rs_signals ::= Datatypes.S }}).

(** The caller [i] locks the mutex and appends its request. *)
Definition async_resolve_append (i : nat) : dn_handler unit :=
  let* s := hget in
  match rs_callers s !! i with
  | Some r =>
      hmod (fun s => s {{ rs_callers ::= delete i }}) ;;;
      hmod (fun s => s {{ rs_events ::= fun l => l ++ [r] }}) ;;;
      then_signal
  | None => hskip
  end.

(** The test at the start of [stop_resolver], and the part under the mutex; it then joins the thread. *)
Definition stop_resolver : dn_handler unit :=
  let* s := hget in
  if rs_stopped s then hskip else hmod (fun s => s {{ rs_stoppers ::= Datatypes.S }}).

Definition stop_one (r : nm_dns_resolve_event) : dn_call := DnResolve (re_event r) NABTO_EC_STOPPED [].

Fixpoint drain (l : list nm_dns_resolve_event) : dn_handler unit :=
  match l with
  | [] => hskip
  | r :: rest => hmod (fun s => s {{ rs_events := rest }}) ;;; emit (stop_one r) ;;; drain rest
  end.

Definition stop_resolver_locked : dn_handler unit :=
  let* s := hget in
  match rs_stoppers s with
  | 0%nat => hskip
  | Datatypes.S n =>
      hmod (fun s => s {{ rs_stoppers := n }}) ;;;
      hmod (fun s => s {{ rs_stopped := true }}) ;;;
      let* s := hget in
      drain (rs_events s) ;;;
      then_signal
  end.

(** [answer]: what [getaddrinfo] finds, if it succeeds. *)
Definition resolve_one (r : nm_dns_resolve_event) (answer : option (list addrinfo)) : dn_uhandler unit :=
  let+ out := uof (resolve_one_ec (re_ips r) answer) in
  ulift (emit (DnResolve (re_event r) out.1.1 (take out.2 out.1.2))).

(** The next step of the thread; one that waits is woken in another step. *)
Definition resolve_thread (answer : option (list addrinfo)) : dn_uhandler unit :=
  let+ s := ulift hget in
  match rs_thread s with
  | RtLoop =>
      if rs_stopped s then ulift (hmod (fun s => s {{ rs_thread := RtReturned }}))
      else
        match rs_events s with
        | [] => ulift (hmod (fun s => s {{ rs_thread := RtWait }}))
        | r :: rest => ulift (hmod (fun s => s {{ rs_events := rest }} {{ rs_thread := RtResolve r }}))
        end
  | RtResolve r =>
      let+ _ := resolve_one r answer in
      ulift (hmod (fun s => s {{ rs_thread := RtLoop }}))
  | RtNotStarted | RtWait | RtReturned => ulift hskip
  end.

(** *** Steps *)

Inductive dn_input : Type :=
| DnStart
| DnAsk (r : nm_dns_resolve_event)
| DnAppend (i : nat)
| DnStop
| DnStopLocked
| DnThread (answer : option (list addrinfo))
| DnSignal
| DnWakeUp.                          (* the wait ends for no reason *)

Definition dn_woken (pc : resolver_pc) : resolver_pc := match pc with RtWait => RtLoop | pc => pc end.

Definition dn_step (i : dn_input) : dn_uhandler unit :=
  match i with
  | DnStart => ulift nm_unix_dns_resolver_run
  | DnAsk r => ulift (async_resolve r)
  | DnAppend i => ulift (async_resolve_append i)
  | DnStop => ulift stop_resolver
  | DnStopLocked => ulift stop_resolver_locked
  | DnThread answer => resolve_thread answer
  | DnSignal =>
      ulift (hmod (fun s => match rs_signals s with
        | 0%nat => s
        | Datatypes.S n => s {{ rs_signals := n }} {{ rs_thread ::= dn_woken }}
        end))
  | DnWakeUp => ulift (hmod (fun s => s {{ rs_thread ::= dn_woken }}))
  end.

(** The completion events of a request that the resolver has, and those that were resolved. *)
Definition thread_holds (pc : resolver_pc) : list nm_dns_resolve_event :=
  match pc with RtResolve r => [r] | _ => [] end.
Definition held (s : nm_unix_dns_resolver) : list nat :=
  map re_event (rs_events s ++ rs_callers s ++ thread_holds (rs_thread s)).
Definition dn_resolved (c : dn_call) : nat := match c with DnResolve ev _ _ => ev end.
Definition dn_done (t : list dn_call) : list nat := map dn_resolved t.

(** What is asked by a step, and what a step appends too late. *)
Definition asks (i : dn_input) : list nat := match i with DnAsk r => [re_event r] | _ => [] end.
Definition late (i : dn_input) (s : nm_unix_dns_resolver) : list nat :=
  match i with
  | DnAppend i => if rs_stopped s then map re_event (option_list (rs_callers s !! i)) else []
  | _ => []
  end.

(** The addresses that are found fit into the array of the request. *)
Definition dn_input_ok (i : dn_input) (s : nm_unix_dns_resolver) : Prop :=
  match i, rs_thread s with
  | DnThread (Some infos), RtResolve r => re_ips r <> [] -> (length (found infos) <= length (re_ips r))%nat
  | _, _ => True
  end.

(** [dn_reachable asked missed t s]: the requests that were made, those that were appended after the
    resolver was stopped, the calls, and the state. *)
Inductive dn_reachable : list nat -> list nat -> list dn_call -> nm_unix_dns_resolver -> Prop :=
| dn_init : dn_reachable [] [] [] nm_unix_dns_resolver_init
| dn_next i asked missed t s s' t' :
    dn_reachable asked missed t s -> dn_input_ok i s -> dn_step i s = Def (tt, s', t') ->
    dn_reachable (asked ++ asks i) (missed ++ late i s) (t ++ t') s'.

Record dn_inv (asked missed : list nat) (t : list dn_call) (s : nm_unix_dns_resolver) : Prop := {
  dn_conserved : asked ≡ₚ dn_done t ++ held s;
  dn_waits : rs_signals s = 0%nat -> rs_thread s = RtWait -> rs_events s = [] /\ rs_stopped s = false;
  dn_missed : if rs_stopped s then sublist (map re_event (rs_events s)) missed else missed = [];
  dn_ended : rs_thread s = RtReturned -> rs_stopped s = true
}.

Lemma drain_spec l s :
  exec (drain l) s = s {{ rs_events := if l is [] then rs_events s else [] }} /\ trace (drain l) s = map stop_one l.
Proof.
  revert s. induction l as [| r l IH]; intros s; [by destruct s |]. cbn [drain].
  rewrite exec_hmod, trace_hmod, exec_seq, trace_seq. destruct (IH (s {{ rs_events := l }})) as [E1 E2].
  change (exec (emit (stop_one r)) (s {{ rs_events := l }})) with (s {{ rs_events := l }}).
  rewrite E1, E2. split; [| done]. destruct s. by destruct l.
Qed.

Lemma done_app t t' : dn_done (t ++ t') = dn_done t ++ dn_done t'.
Proof. apply map_app. Qed.

Lemma append_inv asked missed t s i :
  dn_inv asked missed t s ->
  exists s', dn_step (DnAppend i) s = Def (tt, s', []) /\ dn_inv asked (missed ++ late (DnAppend i) s) t s'.
Proof.
  intros [Hc Hw Hm He]. cbn [dn_step]. unfold ulift, async_resolve_append. rewrite hget_seq. cbn [late].
  destruct (rs_callers s !! i) as [r |] eqn:Er.
  - eexists. split; [reflexivity |]. destruct s as [ev st pc cl sp sg]. cbn in *. split; cbn.
    + rewrite Hc. unfold held. cbn. apply delete_Permutation in Er. rewrite !map_app.
      rewrite (Permutation_map re_event Er). cbn. solve_Permutation.
    + done.
    + destruct st; [| by rewrite Hm]. rewrite map_app. by apply sublist_app.
    + done.
  - exists s. split; [done |].
    replace (missed ++ _) with missed by (by destruct (rs_stopped s); rewrite app_nil_r). by split.
Qed.

Lemma stop_inv asked missed t s :
  dn_inv asked missed t s ->
  exists s' t', dn_step DnStopLocked s = Def (tt, s', t') /\ dn_inv asked missed (t ++ t') s'.
Proof.
  intros [Hc Hw Hm He]. cbn [dn_step]. unfold ulift, stop_resolver_locked. rewrite hget_seq.
  destruct (rs_stoppers s) as [| n] eqn:Es; [exists s, []; rewrite app_nil_r; by split |].
  rewrite !hmod_seq, hget_seq. match goal with |- context [hbind (drain _) _ ?x] => set (s1 := x) end.
  destruct (drain_spec (rs_events s1) s1) as [E1 E2]. unfold hbind. unfold exec, trace in E1, E2.
  destruct (drain (rs_events s1) s1) as [[r s2] t2]. cbn in E1, E2. subst s2 t2. eexists _, _. split; [reflexivity |].
  rewrite app_nil_r. destruct s as [ev st pc cl sp sg]. cbn in *. split; cbn.
  - rewrite Hc, done_app. unfold held. cbn. rewrite !map_app.
    assert (Ed : dn_done (map stop_one ev) = map re_event ev) by (clear; induction ev as [| x ev IH]; [done | cbn; by f_equal]).
    rewrite Ed. destruct ev; cbn; solve_Permutation.
  - done.
  - destruct ev; cbn; apply sublist_nil_l.
  - done.
Qed.

Lemma thread_inv asked missed t s answer :
  dn_inv asked missed t s -> dn_input_ok (DnThread answer) s ->
  exists s' t', dn_step (DnThread answer) s = Def (tt, s', t') /\ dn_inv asked missed (t ++ t') s'.
Proof.
  intros [Hc Hw Hm He] Hi. cbn [dn_step dn_input_ok] in *. unfold resolve_thread. rewrite u_hget.
  destruct s as [ev st pc cl sp sg]. cbn in *. destruct pc as [| | | r |].
  1,3,5: eexists _, []; split; [reflexivity |]; rewrite app_nil_r; by split.
  - destruct st; [| destruct ev as [| r ev]]; (eexists _, []; split; [reflexivity |]; rewrite app_nil_r; split; cbn; try done).
    rewrite Hc. unfold held. cbn. rewrite !map_app. cbn. solve_Permutation.
  - unfold resolve_one.
    assert (Hd : exists ec ips n, resolve_one_ec (re_ips r) answer = Def (ec, ips, n)).
    { destruct answer as [infos |]; [| by eexists _, _, _]. rewrite resolve_one_ec_spec.
      destruct (bool_decide_reflect (re_ips r = [])) as [| Hne]; [by eexists _, _, _ |].
      rewrite (proj2 (Nat.leb_le _ _)) by (by apply Hi). by eexists _, _, _. }
    destruct Hd as (ec & ips & n & ->). eexists _, _. split; [reflexivity |]. cbn.
    split; cbn; try done. rewrite Hc, done_app. unfold held. cbn. rewrite !map_app. cbn. solve_Permutation.
Qed.

Lemma dn_step_inv asked missed t s i :
  dn_inv asked missed t s -> dn_input_ok i s ->
  exists s' t', dn_step i s = Def (tt, s', t') /\ dn_inv (asked ++ asks i) (missed ++ late i s) (t ++ t') s'.
Proof.
  intros Hinv Hi. destruct i as [| r | i | | | answer | |]; cbn [asks late]; rewrite ?app_nil_r.
  - exists (exec nm_unix_dns_resolver_run s), []. rewrite app_nil_r. split; [done |]. destruct Hinv as [Hc Hw Hm He].
    destruct s as [ev st [] cl sp sg]; by split.
  - destruct Hinv as [Hc Hw Hm He]. cbn [dn_step]. unfold ulift, async_resolve. rewrite hget_seq.
    destruct s as [ev st pc cl sp sg]. cbn in *. destruct st; (eexists _, _; split; [reflexivity |]; split; cbn; try done).
    + rewrite Hc, done_app. unfold held. cbn. rewrite !map_app. cbn. solve_Permutation.
    + rewrite app_nil_r, Hc. unfold held. cbn. rewrite !map_app. cbn. solve_Permutation.
  - destruct (append_inv asked missed t s i Hinv) as (s' & ? & ?). exists s', []. by rewrite app_nil_r.
  - destruct Hinv as [Hc Hw Hm He]. cbn [dn_step]. unfold ulift, stop_resolver. rewrite hget_seq.
    destruct s as [ev st pc cl sp sg]. cbn in *. destruct st; (eexists _, []; split; [reflexivity |]; rewrite app_nil_r; by split).
  - by apply stop_inv.
  - by apply thread_inv.
  - eexists _, []. split; [reflexivity |]. rewrite app_nil_r. destruct Hinv as [Hc Hw Hm He].
    destruct s as [ev st pc cl sp [| sg]]; cbn in *; [by split |].
    split; cbn; try done; by destruct pc.
  - eexists _, []. split; [reflexivity |]. rewrite app_nil_r. destruct Hinv as [Hc Hw Hm He].
    destruct s as [ev st pc cl sp sg]; cbn in *. split; cbn; try done; by destruct pc.
Qed.

Lemma dn_reachable_inv asked missed t s : dn_reachable asked missed t s -> dn_inv asked missed t s.
Proof.
  induction 1 as [| i asked missed t s s' t' _ IH Hi Hs]; [by split |].
  destruct (dn_step_inv asked missed t s i IH Hi) as (s1 & t1 & E & Hinv). congruence.
Qed.

(** What happens next when only the thread and the signals that are due move. *)
Definition dn_next_input (s : nm_unix_dns_resolver) : dn_input :=
  match rs_thread s with RtWait => DnSignal | _ => DnThread None end.

Fixpoint dn_drive (n : nat) : dn_uhandler unit :=
  match n with
  | 0%nat => ulift hskip
  | Datatypes.S n => let+ s := ulift hget in let+ _ := dn_step (dn_next_input s) in dn_drive n
  end.

(** C7. The resolver of the unix module under any interleaving of its thread with calls of other
    threads, as long as the addresses that are found fit into the arrays of the requests: nothing is
    undefined, and every request is resolved exactly once or still with the resolver. No wakeup is lost:
    a thread that waits, and that nobody is about to signal, has no request; one that
    runs resolves its oldest request within three steps. When nothing is under way, what is not
    resolved was appended after the resolver was stopped. *)
Theorem dns_requests_resolved asked missed t s (Hreach : dn_reachable asked missed t s) :
  (forall i, dn_input_ok i s -> exists s' t', dn_step i s = Def (tt, s', t')) /\
  asked ≡ₚ dn_done t ++ held s /\
  (rs_signals s = 0%nat -> rs_thread s = RtWait -> rs_events s = [] /\ rs_stopped s = false) /\
  (forall r rest, rs_events s = r :: rest -> rs_stopped s = false -> rs_thread s <> RtNotStarted ->
    exists n s' t', (n <= 3)%nat /\ dn_drive n s = Def (tt, s', t') /\ re_event r ∈ dn_done t') /\
  (rs_signals s = 0%nat -> rs_callers s = [] -> rs_thread s = RtWait \/ rs_thread s = RtReturned ->
    exists lost, asked ≡ₚ dn_done t ++ lost /\ sublist lost missed).
Proof.
  pose proof (dn_reachable_inv asked missed t s Hreach) as [Hc Hw Hm He]. split_and!.
  - intros i Hi. destruct (dn_step_inv asked missed t s i (dn_reachable_inv _ _ _ _ Hreach) Hi) as (s' & t' & ? & _). eauto.
  - done.
  - done.
  - intros r rest Hev Hst Hns. destruct s as [ev st pc cl sp sg]. cbn in *. subst ev st.
    destruct pc as [| | | r' |]; [done | exists 2%nat | exists 3%nat | exists 3%nat | by specialize (He eq_refl)].
    + eexists _, _. split; [lia |]. split; [reflexivity | by left].
    + destruct sg as [| sg]; [by destruct (Hw eq_refl eq_refl) |].
      eexists _, _. split; [lia |]. split; [reflexivity | by left].
    + eexists _, _. split; [lia |]. split; [reflexivity | right; by left].
  - intros Hs Hcl Ht. unfold held in Hc. rewrite Hcl in Hc.
    assert (Hth : thread_holds (rs_thread s) = []) by (by destruct Ht as [-> | ->]).
    rewrite Hth, !app_nil_r in Hc. exists (map re_event (rs_events s)). split; [done |].
    destruct Ht as [Ht | Ht]; [destruct (Hw Hs Ht) as [-> _]; apply sublist_nil_l |].
    specialize (He Ht). by rewrite He in Hm.
Qed.

(** ** Witness and examples *)

Fixpoint dn_steps (inputs : list dn_input) : dn_uhandler unit :=
  match inputs with
  | [] => ulift hskip
  | i :: rest => let+ _ := dn_step i in dn_steps rest
  end.

Definition demo_request (ev : nat) : nm_dns_resolve_event := mk_re ev [97; 46; 98] AF_INET (replicate 4 zero_ip).

(** The resolver is stopped while a caller is between the test and the mutex: the request is never
    resolved, and stopping again does not resolve it either. *)
Example late_request_lost :
  match dn_steps [DnStart; DnAsk (demo_request 7); DnStop; DnStopLocked; DnAppend 0; DnThread None; DnSignal; DnSignal;
                  DnThread None; DnStop; DnStopLocked] nm_unix_dns_resolver_init with
  | Def (_, s, t) => t = [] /\ map re_event (rs_events s) = [7%nat] /\ rs_thread s = RtReturned
  | UB => False
  end.
Proof. by vm_compute. Qed.

Definition demo_resolving : nm_unix_dns_resolver := mk_resolver [] false (RtResolve (demo_request 7)) [] 0 1.

Lemma demo_resolving_reachable : dn_reachable [7%nat] [] [] demo_resolving.
Proof.
  apply (dn_next (DnThread None) [7%nat] [] [] (mk_resolver [demo_request 7] false RtLoop [] 0 1) demo_resolving []); [| done | done].
  apply (dn_next (DnAppend 0) [7%nat] [] [] (mk_resolver [] false RtLoop [demo_request 7] 0 0) _ []); [| done | done].
  apply (dn_next (DnAsk (demo_request 7)) [] [] [] (mk_resolver [] false RtLoop [] 0 0) _ []); [| done | done].
  apply (dn_next DnStart [] [] [] nm_unix_dns_resolver_init _ []); [apply dn_init | done | done].
Defined.

Lemma dns_requests_resolved_witness :
  (exists s' t', dn_step (DnThread (Some [(AF_INET, [10; 0; 0; 1])])) demo_resolving = Def (tt, s', t')) /\
  [7%nat] ≡ₚ dn_done [] ++ held demo_resolving.
Proof.
  destruct (dns_requests_resolved [7%nat] [] [] demo_resolving demo_resolving_reachable) as (Hd & Hc & _).
  split; [| exact Hc]. apply Hd. intros _. apply Nat.leb_le. reflexivity.
Defined.
