(* ===== verification/LibeventDns.v ===== *)
(** * Name lookup of the libevent module (modules/libevent/nm_libevent_dns.c)

    A lookup allocates a request and gives it to libevent, whose answer is not looked at; the callback (Dns.v) resolves the
    completion event and frees the request. libevent calls it once for a lookup that it accepted, in a later step, and
    never for one that it refused: that is what a run of this file is. *)

From S2P Require Import Prelude Platform Dns.
From stdpp Require Import gmap sets.

#[local] Open Scope Z_scope.
#[local] Open Scope list_scope.
#[local] Open Scope handler_scope.

(** [dr_ips] is the array of the caller, and [dr_ipsResolved] what its pointer points to. *)
Record nm_dns_request : Type := mk_dr {
  dr_completionEvent : nat;
  dr_ips : list np_ip_address;
  dr_ipsResolved : nat
}.

(** The requests that are allocated, and those for which libevent will call the callback. *)
Record libevent_dns : Type := mk_ld {
  ld_requests : gmap nat nm_dns_request;
  ld_accepted : list nat
}.

Inductive ld_call : Type :=
| LdEvdns (r : nat) (host : list Z) (type : Z)
| LdResolve (ev : nat) (ec : np_error_code) (ips : list np_ip_address) (ipsResolved : nat)
| LdFree (r : nat).

Definition ld_uhandler (A : Type) : Type := uhandler libevent_dns ld_call A.

(** [memory]: the request of [calloc], which is not compared with NULL. [accepted]: whether libevent answers a request. *)
Definition libevent_async_resolve (type : Z) (host : list Z) (ips : list np_ip_address) (ipsResolved ev : nat)
    (memory : option nat) (accepted : bool) : ld_uhandler unit :=
  match memory with
  | None => fun _ => UB
  | Some r =>
      ulift (hmod (fun s => s {{ ld_requests ::= <[r := mk_dr ev ips ipsResolved]> }}) ;;;
             emit (LdEvdns r host type) ;;;
             hmod (fun s => if accepted then s {{ ld_accepted ::= fun l => l ++ [r] }} else s))
  end.

Definition libevent_async_resolve_v4 := libevent_async_resolve DNS_IPv4_A.
Definition libevent_async_resolve_v6 := libevent_async_resolve DNS_IPv6_AAAA.

(** The callback, with the request it gets. *)
Definition dns_cb_request (result type : Z) (addresses : list (list Z)) (r : nat) : ld_uhandler unit :=
  let+ s := ulift hget in
  match ld_requests s !! r with
  | None => fun _ => UB
  | Some q =>
      let+ answer := uof (dns_cb result type addresses (dr_ips q) (dr_ipsResolved q)) in
      let '(ec, ips, n) := answer in
      ulift (emit (LdResolve (dr_completionEvent q) ec ips n) ;;;
             hmod (fun s => s {{ ld_requests ::= delete r }}) ;;;
             emit (LdFree r))
  end.

Inductive ld_input : Type :=
| LdStart (type : Z) (host : list Z) (ips : list np_ip_address) (ipsResolved ev : nat) (r : nat) (accepted : bool)
| LdAnswer (result type : Z) (addresses : list (list Z)) (r : nat).

Definition ld_step (i : ld_input) : ld_uhandler unit :=
  match i with
  | LdStart type host ips n ev r accepted => libevent_async_resolve type host ips n ev (Some r) accepted
  | LdAnswer result type addresses r =>
      let+ _ := ulift (hmod (fun s => s {{ ld_accepted ::= filter (.≠ r) }})) in dns_cb_request result type addresses r
  end.

(** Memory that is allocated is not given again, and libevent answers what it accepted, once. *)
Definition ld_enabled (s : libevent_dns) (i : ld_input) : Prop :=
  match i with
  | LdStart _ _ _ _ _ r _ => ld_requests s !! r = None
  | LdAnswer _ _ _ r => r ∈ ld_accepted s
  end.

Inductive ld_run : list ld_input -> list ld_call -> libevent_dns -> Prop :=
| ld_start : ld_run [] [] (mk_ld ∅ [])
| ld_next past t s i s' t' :
    ld_run past t s -> ld_enabled s i -> ld_step i s = Def (tt, s', t') -> ld_run (past ++ [i]) (t ++ t') s'.

Definition started (accepted : bool) (past : list ld_input) : list nat :=
  omap (fun i => match i with LdStart _ _ _ _ ev _ a => if Bool.eqb a accepted then Some ev else None | _ => None end) past.
Definition ld_resolved (t : list ld_call) : list nat := omap (fun c => match c with LdResolve ev _ _ _ => Some ev | _ => None end) t.
(** The completion events of requests. *)
Definition events_of (s : libevent_dns) (l : list nat) : list nat := omap (fun r => dr_completionEvent <$> ld_requests s !! r) l.

(** The requests that libevent refused. *)
Definition refused (s : libevent_dns) : list nat :=
  filter (.∉ ld_accepted s) (elements (dom (ld_requests s))).

Lemma events_of_ext (s s' : libevent_dns) l :
  (forall r, r ∈ l -> ld_requests s !! r = ld_requests s' !! r) -> events_of s l = events_of s' l.
Proof.
  induction l as [| r l IH]; intros H; [done |]. unfold events_of in *. cbn. rewrite (H r) by (by left). rewrite IH; [done |].
  intros x Hx. apply H. by right.
Qed.

Lemma events_of_app s l l' : events_of s (l ++ l') = events_of s l ++ events_of s l'.
Proof. apply omap_app. Qed.

Lemma started_app a past i : started a (past ++ i) = started a past ++ started a i.
Proof. apply omap_app. Qed.

Lemma filter_other (l1 l2 : list nat) r : NoDup (l1 ++ r :: l2) -> filter (.≠ r) (l1 ++ r :: l2) = l1 ++ l2.
Proof.
  intros (H1 & H2 & [H3 H4]%NoDup_cons)%NoDup_app. rewrite filter_app, filter_cons_False by (intros Hn; by apply Hn).
  rewrite !filter_all; [done | |]; intros x Hx ->; [done | by apply (H2 r Hx); left].
Qed.

(** [lost]: the requests of refused lookups. *)
Record ld_inv (past : list ld_input) (t : list ld_call) (s : libevent_dns) (lost : list nat) : Prop := {
  ldi_unique : NoDup (ld_accepted s ++ lost);
  ldi_memory : forall r, is_Some (ld_requests s !! r) <-> r ∈ ld_accepted s ++ lost;
  ldi_accepted : ld_resolved t ++ events_of s (ld_accepted s) ≡ₚ started true past;
  ldi_lost : events_of s lost = started false past
}.

Lemma ld_start_inv past t s lost type host ips n ev r accepted :
  ld_inv past t s lost -> ld_requests s !! r = None ->
  exists s' t' lost', ld_step (LdStart type host ips n ev r accepted) s = Def (tt, s', t') /\
    ld_inv (past ++ [LdStart type host ips n ev r accepted]) (t ++ t') s' lost'.
Proof.
  intros [Hu Hm Ha Hl] Hr. assert (Hnew : r ∉ ld_accepted s ++ lost) by (intros Hin%Hm; rewrite Hr in Hin; by destruct Hin).
  destruct s as [rq ac]. cbn in Hu, Hm, Hr, Hnew. cbn [ld_accepted] in Ha.
  set (rq' := <[r := mk_dr ev ips n]> rq).
  assert (Hsame : forall l ac', (forall x, x ∈ l -> x ∈ ac ++ lost) -> events_of (mk_ld rq' ac') l = events_of (mk_ld rq ac) l).
  { intros l ac' Hin. apply events_of_ext. intros x Hx. cbn. apply lookup_insert_ne. intros ->. by apply Hnew, Hin. }
  assert (Hone : forall ac', events_of (mk_ld rq' ac') [r] = [ev]) by (intros ac'; unfold events_of, rq'; cbn; by rewrite lookup_insert_eq).
  assert (Hmem : forall x, is_Some (rq' !! x) <-> x = r \/ x ∈ ac ++ lost).
  { intros x. unfold rq'. rewrite lookup_insert_is_Some, Hm. destruct (decide (x = r)) as [-> |]; naive_solver. }
  assert (Hac : forall x, x ∈ ac -> x ∈ ac ++ lost) by (intros x Hx; apply elem_of_app; by left).
  assert (Hlo : forall x, x ∈ lost -> x ∈ ac ++ lost) by (intros x Hx; apply elem_of_app; by right).
  exists (mk_ld rq' (if accepted then ac ++ [r] else ac)), [LdEvdns r host type], (if accepted then lost else lost ++ [r]).
  split; [by destruct accepted |].
  destruct accepted; split; unfold ld_resolved; rewrite ?started_app, ?omap_app; cbn [started omap list_omap app ld_accepted Bool.eqb ld_requests];
    rewrite ?app_nil_r.
  - rewrite <- app_assoc. cbn. by rewrite <- Permutation_middle, NoDup_cons.
  - intros x. rewrite Hmem, !elem_of_app, list_elem_of_singleton. naive_solver.
  - rewrite events_of_app, Hone, (Hsame ac) by done. by rewrite app_assoc, Ha.
  - by rewrite (Hsame lost).
  - rewrite app_assoc, Permutation_app_comm. by apply NoDup_cons.
  - intros x. rewrite Hmem, !elem_of_app, list_elem_of_singleton. naive_solver.
  - by rewrite (Hsame ac).
  - by rewrite events_of_app, Hone, (Hsame lost), Hl.
Qed.

Lemma dns_cb_request_run result type addresses r s q :
  ld_requests s !! r = Some q ->
  exists ec ips n, dns_cb_request result type addresses r s =
    Def (tt, s {{ ld_requests ::= delete r }}, [LdResolve (dr_completionEvent q) ec ips n; LdFree r]) /\
    dns_cb result type addresses (dr_ips q) (dr_ipsResolved q) = Def (ec, ips, n).
Proof.
  intros Hq. destruct (dns_cb_spec result type addresses (dr_ips q) (dr_ipsResolved q)) as (ec & ips & n & E & _).
  exists ec, ips, n. split; [| done]. unfold dns_cb_request. rewrite u_hget, Hq. unfold uof. unfold ubind at 1. rewrite E. done.
Qed.
Lemma ld_answer_inv past t s lost result type addresses r :
  ld_inv past t s lost -> r ∈ ld_accepted s ->
  exists s' t', ld_step (LdAnswer result type addresses r) s = Def (tt, s', t') /\
    ld_inv (past ++ [LdAnswer result type addresses r]) (t ++ t') s' lost.
Proof.
  intros [Hu Hm Ha Hl] Hr. destruct (proj2 (Hm r)) as [q Hq]; [apply elem_of_app; by left |].
  destruct s as [rq ac]. cbn in Hu, Hm, Hr, Hq. cbn [ld_accepted] in Ha. apply list_elem_of_split in Hr as (l1 & l2 & ->).
  destruct (dns_cb_request_run result type addresses r (mk_ld rq (l1 ++ l2)) q Hq) as (ec & ips & n & E & _).
  assert (Hu' := Hu). rewrite <- app_assoc in Hu'. cbn in Hu'. rewrite <- Permutation_middle in Hu'. apply NoDup_cons in Hu' as [Hout Hu'].
  assert (Hsame : forall l, (forall x, x ∈ l -> x ∈ l1 ++ l2 ++ lost) -> events_of (mk_ld (delete r rq) (l1 ++ l2)) l = events_of (mk_ld rq (l1 ++ r :: l2)) l).
  { intros l Hin. apply events_of_ext. intros x Hx. cbn. apply lookup_delete_ne. intros ->. by apply Hout, Hin. }
  exists (mk_ld (delete r rq) (l1 ++ l2)), [LdResolve (dr_completionEvent q) ec ips n; LdFree r]. split.
  { unfold ld_step. rewrite u_hmod. cbn. unfold apply_update. apply NoDup_app in Hu as [Hu _]. rewrite filter_other by done. exact E. }
  split; unfold ld_resolved; rewrite ?started_app, ?omap_app; cbn [started omap list_omap app ld_accepted ld_requests]; rewrite ?app_nil_r.
  - by rewrite <- app_assoc.
  - intros x. rewrite lookup_delete_is_Some, Hm, !elem_of_app, elem_of_cons. rewrite !elem_of_app in Hout. naive_solver.
  - rewrite (Hsame (l1 ++ l2)) by (intros x; rewrite !elem_of_app; tauto). rewrite <- Ha, !events_of_app.
    assert (Eq : events_of (mk_ld rq (l1 ++ r :: l2)) (r :: l2) = dr_completionEvent q :: events_of (mk_ld rq (l1 ++ r :: l2)) l2)
      by (unfold events_of; cbn; by rewrite Hq).
    rewrite Eq. solve_Permutation.
  - rewrite (Hsame lost) by (intros x; rewrite !elem_of_app; tauto). rewrite <- Hl. by apply events_of_ext.
Qed.

Lemma ld_run_inv past t s : ld_run past t s -> exists lost, ld_inv past t s lost.
Proof.
  induction 1 as [| past t s i s' t' _ [lost Hi] He Hs].
  - exists []. split; cbn; [constructor | | done | done]. intros r. split; [by intros [q ?] | by intros ?%not_elem_of_nil].
  - destruct i as [type host ips n ev r accepted | result type addresses r].
    + destruct (ld_start_inv past t s lost type host ips n ev r accepted Hi He) as (s1 & t1 & lost' & Es & Hi'). rewrite Es in Hs.
      injection Hs as <- <-. by exists lost'.
    + destruct (ld_answer_inv past t s lost result type addresses r Hi He) as (s1 & t1 & Es & Hi'). rewrite Es in Hs.
      injection Hs as <- <-. by exists lost.
Qed.

(** Every step is defined. A lookup that libevent accepted resolves its completion event once, in the step in which
    libevent answers, with the addresses that fit; until then its request is allocated, and then it is freed. A lookup
    that libevent refused never resolves its completion event, and its request stays allocated. *)
Lemma libevent_lookups past t s :
  ld_run past t s ->
  (forall i, ld_enabled s i -> exists s' t', ld_step i s = Def (tt, s', t')) /\
  (forall r result type addresses, r ∈ ld_accepted s -> exists q ec ips n,
     ld_requests s !! r = Some q /\ dns_cb result type addresses (dr_ips q) (dr_ipsResolved q) = Def (ec, ips, n) /\
     exists s', ld_step (LdAnswer result type addresses r) s = Def (tt, s', [LdResolve (dr_completionEvent q) ec ips n; LdFree r])) /\
  ld_resolved t ++ events_of s (ld_accepted s) ≡ₚ started true past /\
  exists lost, NoDup (ld_accepted s ++ lost) /\ (forall r, is_Some (ld_requests s !! r) <-> r ∈ ld_accepted s ++ lost) /\
    events_of s lost = started false past.
Proof.
  intros [lost Hi]%ld_run_inv. pose proof Hi as [Hu Hm Ha Hl]. split_and!; [| | done | by exists lost].
  - intros [type host ips n ev r accepted | result type addresses r] He.
    + destruct (ld_start_inv past t s lost type host ips n ev r accepted Hi He) as (s' & t' & _ & E & _). by exists s', t'.
    + destruct (ld_answer_inv past t s lost result type addresses r Hi He) as (s' & t' & E & _). by exists s', t'.
  - intros r result type addresses Hr. destruct (proj2 (Hm r)) as [q Hq]; [apply elem_of_app; by left |].
    destruct (dns_cb_request_run result type addresses r (s {{ ld_accepted ::= filter (.≠ r) }}) q) as (ec & ips & n & E & Ed); [by destruct s |].
    exists q, ec, ips, n. split; [done |]. split; [done |]. unfold ld_step. rewrite u_hmod, E. by eexists.
Qed.

(** A host name that libevent refuses. *)
Example refused_lookup_waits :
  match ld_step (LdStart DNS_IPv4_A [] [zero_ip] 0 5 1 false) (mk_ld ∅ []) with
  | Def (_, s, t) => ld_resolved t = [] /\ ld_accepted s = [] /\ is_Some (ld_requests s !! 1%nat)
  | UB => False
  end.
Proof. vm_compute. split_and!; try done. by eexists. Qed.
