(* ===== verification/LocalIp.v ===== *)
(** * Local addresses (modules/unix/nm_unix_local_ip.c, modules/libevent/nm_libevent_get_local_ip.c)

    A socket is connected to a public address, and the address that the system gives it is a local
    address. What the system answers is an argument. The two files have the same code, but for
    the function that closes the socket. *)

From S2P Require Import Prelude Platform.

#[local] Open Scope Z_scope.
#[local] Open Scope handler_scope.

(** The answers for a family: the socket, if there is one; whether it is connected; the address of
    [getsockname], if it succeeds. *)
Record local_ip_answers : Type := mk_la {
  la_sock : option Z;
  la_connected : bool;
  la_name : option (list Z)
}.

Inductive li_call : Type :=
| LiSocket (type : np_ip_address_type)
| LiConnect (sock : Z) (address : list Z) (port : Z)
| LiClose (sock : Z).

(** [inet_addr("8.8.8.8")] and [inet_pton(AF_INET6, "2001:4860:4860::8888")]. *)
Definition public_address (type : np_ip_address_type) : list Z :=
  match type with
  | NABTO_IPV4 => [8; 8; 8; 8]
  | NABTO_IPV6 => [32; 1; 72; 96; 72; 96; 0; 0; 0; 0; 0; 0; 0; 0; 136; 136]
  end.

(** [INADDR_ANY] and [in6addr_any]. *)
Definition any_address (type : np_ip_address_type) : list Z :=
  match type with NABTO_IPV4 => replicate 4 0 | NABTO_IPV6 => replicate 16 0 end.

(** The addresses that are written, in order. *)
Definition li_handler (A : Type) : Type := handler (list np_ip_address) li_call A.

Definition add_ip (type : np_ip_address_type) (address : list Z) : li_handler unit :=
  hmod (fun addrs => addrs ++ [mk_ip type address]).

(** The part for one family. *)
Definition local_ip_of (type : np_ip_address_type) (an : local_ip_answers) : li_handler unit :=
  emit (LiSocket type) ;;;
  match la_sock an with
  | None => hskip
  | Some s =>
      emit (LiConnect s (public_address type) 4567) ;;;
      (if la_connected an then
         match la_name an with
         | None => hskip
         | Some address => if bool_decide (address = any_address type) then hskip else add_ip type address
         end
       else hskip) ;;;
      emit (LiClose s)
  end.

(** The result is the number of addresses. *)
Definition get_local_ips (addrsSize : nat) (an4 an6 : local_ip_answers) : li_handler nat :=
  if (addrsSize <? 1)%nat then hret 0%nat
  else
    local_ip_of NABTO_IPV4 an4 ;;;
    let* addrs := hget in
    if (addrsSize <? length addrs + 1)%nat then hret (length addrs)
    else
      local_ip_of NABTO_IPV6 an6 ;;;
      let* addrs := hget in hret (length addrs).

Definition nm_unix_get_local_ips : nat -> local_ip_answers -> local_ip_answers -> li_handler nat := get_local_ips.
Definition nm_libevent_get_local_ips : nat -> local_ip_answers -> local_ip_answers -> li_handler nat := get_local_ips.

(** The address of a family, if there is one. *)
Definition usable_ip (type : np_ip_address_type) (an : local_ip_answers) : list np_ip_address :=
  match la_sock an, la_connected an, la_name an with
  | Some _, true, Some address => if bool_decide (address = any_address type) then [] else [mk_ip type address]
  | _, _, _ => []
  end.

Definition sockets_of (an : local_ip_answers) : list Z := option_list (la_sock an).
Definition closed (c : li_call) : option Z := match c with LiClose s => Some s | _ => None end.

(** The addresses fit into the array, the IPv4 address comes first, none is the address of no host, and every
    socket is closed. *)
Lemma get_local_ips_spec addrsSize an4 an6 :
  let m := get_local_ips addrsSize an4 an6 in
  exec m [] = take addrsSize (usable_ip NABTO_IPV4 an4 ++ usable_ip NABTO_IPV6 an6) /\
  result m [] = length (exec m []) /\ (result m [] <= addrsSize)%nat /\
  exists k, omap closed (trace m []) = take k (sockets_of an4 ++ sockets_of an6).
Proof.
  intros m. unfold m, get_local_ips, local_ip_of, usable_ip, add_ip, sockets_of.
  destruct addrsSize as [| [| n]], an4 as [[s4 |] [] [a4 |]], an6 as [[s6 |] [] [a6 |]]; hsimpl;
    repeat case_bool_decide; hsimpl; rewrite ?take_nil; split_and!; try done; try lia;
    first [by exists 0%nat | by exists 1%nat | by exists 2%nat].
Qed.
