(* ===== verification/Cbor.v ===== *)
(** * Interface of the CBOR library (tinycbor)

    tinycbor is third-party code. Decoding is a class of operations on the library's
    [CborValue]; encoding is the sequence of encoder calls, which the library turns into
    bytes. The instance at the end, on trees, shows that the laws can be met. *)

From S2P Require Import Prelude.

(** ** Decoding *)

Class CborDec (V : Type) : Type := {
  (* cbor_parser_init on a payload: the first value *)
  cv_parse : list Z -> V;
  cv_is_array : V -> bool;
  cv_is_map : V -> bool;
  cv_is_byte_string : V -> bool;
  cv_is_text_string : V -> bool;
  cv_is_unsigned_integer : V -> bool;
  (* the values visited by enter_container, at_end and advance *)
  cv_items : V -> list V;
  (* cbor_value_map_find_value; a value of no type when the key is missing *)
  cv_find : V -> string -> V;
  cv_uint64 : V -> Z;
  (* cbor_value_calculate_string_length; None on an error *)
  cv_string_length : V -> option nat;
  (* the content copied by copy_byte_string or copy_text_string *)
  cv_string : V -> list Z
}.

Class CborDecLaws (V : Type) `{CborDec V} : Type := {
  cv_uint64_range : forall v, cv_is_unsigned_integer v = true -> is_uint 64 (cv_uint64 v);
  cv_string_bytes : forall v, bytes (cv_string v);
  cv_string_length_ok : forall v n, cv_string_length v = Some n -> length (cv_string v) = n
}.

(** ** Encoding *)

Inductive cbor_token : Type :=
| TokMap                        (* cbor_encoder_create_map, indefinite length *)
| TokArray                      (* cbor_encoder_create_array, indefinite length *)
| TokClose                      (* cbor_encoder_close_container *)
| TokText (s : list Z)          (* cbor_encode_text_string(z) *)
| TokBytes (b : list Z)         (* cbor_encode_byte_string *)
| TokUint (n : Z).              (* cbor_encode_uint *)

#[global] Instance cbor_token_eq : EqDecision cbor_token.
Proof. solve_decision. Defined.

(** Depth of open containers after a sequence of calls; [None] when a container is closed
    that was not opened. *)
Fixpoint cbor_depth (d : nat) (ts : list cbor_token) : option nat :=
  match ts with
  | [] => Some d
  | TokMap :: r | TokArray :: r => cbor_depth (S d) r
  | TokClose :: r => match d with O => None | S d' => cbor_depth d' r end
  | _ :: r => cbor_depth d r
  end.

Definition cbor_balanced (ts : list cbor_token) : Prop := cbor_depth 0 ts = Some 0%nat.

(** The ASCII codes of a C string literal. *)
Definition ascii_codes (s : string) : list Z :=
  map (fun c => Z.of_nat (Ascii.nat_of_ascii c)) (String.list_ascii_of_string s).

(** *** Types of encoded data *)

Inductive cbor_type : Type :=
| CtText
| CtBytes
| CtUint
| CtArray (t : cbor_type)
| CtMapOf (t : cbor_type)                         (* any text keys *)
| CtMap (fields : list (string * bool * cbor_type)).   (* a key, whether it may be missing, the value *)

(** The encoder calls write one item of a type; integers fit the 64 bits of the encoder. *)
Fixpoint has_type (t : cbor_type) (ts : list cbor_token) : Prop :=
  match t with
  | CtText => exists s, ts = [TokText s]
  | CtBytes => exists b, ts = [TokBytes b]
  | CtUint => exists n, ts = [TokUint n] /\ is_uint 64 n
  | CtArray t => exists items, ts = TokArray :: concat items ++ [TokClose] /\ Forall (has_type t) items
  | CtMapOf t =>
      exists items : list (list Z * list cbor_token),
        ts = TokMap :: concat (map (fun kv => TokText kv.1 :: kv.2) items) ++ [TokClose] /\
        Forall (fun kv => has_type t kv.2) items
  | CtMap fields =>
      exists body, ts = TokMap :: body ++ [TokClose] /\
        (fix has_fields (fields : list (string * bool * cbor_type)) (body : list cbor_token) : Prop :=
           match fields with
           | [] => body = []
           | (k, optional, t) :: fields =>
               (optional = true /\ has_fields fields body) \/
               exists v rest, body = TokText (ascii_codes k) :: v ++ rest /\ has_type t v /\ has_fields fields rest
           end) fields body
  end.

(** ** Trees as CBOR values *)

Inductive tree : Type :=
| TreeUint (n : Z)
| TreeBytes (b : list Z)
| TreeText (s : list Z)
| TreeArray (l : list tree)
| TreeMap (l : list (string * tree))
| TreeInvalid.

Fixpoint tree_find (k : string) (l : list (string * tree)) : tree :=
  match l with
  | [] => TreeInvalid
  | (k', v) :: r => if bool_decide (k = k') then v else tree_find k r
  end.

Section TreeInstance.
(** A parser for trees: any function from bytes to trees. *)
Variable parse : list Z -> tree.

Definition tree_dec : CborDec tree := {|
  cv_parse := parse;
  cv_is_array := fun v => match v with TreeArray _ => true | _ => false end;
  cv_is_map := fun v => match v with TreeMap _ => true | _ => false end;
  cv_is_byte_string := fun v => match v with TreeBytes _ => true | _ => false end;
  cv_is_text_string := fun v => match v with TreeText _ => true | _ => false end;
  cv_is_unsigned_integer := fun v => match v with TreeUint _ => true | _ => false end;
  cv_items := fun v => match v with TreeArray l => l | _ => [] end;
  cv_find := fun v k => match v with TreeMap l => tree_find k l | _ => TreeInvalid end;
  cv_uint64 := fun v => match v with TreeUint n => u64 n | _ => 0 end;
  cv_string_length := fun v => match v with TreeBytes b | TreeText b => Some (length b) | _ => None end;
  cv_string := fun v => match v with TreeBytes b | TreeText b => map u8 b | _ => [] end
|}.

Lemma tree_dec_laws : @CborDecLaws tree tree_dec.
Proof.
  split.
  - intros [] Hv; try done. by apply wrap_range.
  - assert (Hb : forall b, bytes (map u8 b)) by (intros b; induction b; constructor; auto with nabto).
    intros []; cbn; by try constructor.
  - intros [] k; cbn; try done; intros [= <-]; apply length_map.
Qed.
End TreeInstance.
