(* ===== verification/Rendezvous.v ===== *)
(** * Rendezvous packets (nc_rendezvous.c, nc_rendezvous_coap.c)

    A queue of at most ten packets, sent one at a time from the end of the queue; packets
    come from client requests and from the CoAP resource [/p2p/rendezvous]. *)

From S2P Require Import Prelude Platform Packet Cbor.
From stdpp Require Import sets.

#[local] Open Scope Z_scope.

#[local] Open Scope handler_scope.

Definition NC_RENDEZVOUS_SEND_QUEUE_LENGTH : nat := 10.

Record nc_rendezvous_send_packet : Type := mk_rvp {
  rvp_type : Z;
  rvp_connectionId : list Z;
  rvp_ep : np_udp_endpoint
}.

Record nc_rendezvous_context : Type := mk_rv {
  rv_udpDispatch : bool;   (* udpDispatch != NULL *)
  rv_packetList : list nc_rendezvous_send_packet;
  rv_packetIndex : nat;
  rv_sendingDevReqs : bool
}.

(** [RvSendTo slot ep bytes]: [nc_udp_dispatch_async_send_to] with the endpoint of slot
    [slot] of the packet list; the CoAP answers of the resource handler. *)
Inductive rv_call : Type :=
| RvSendTo (slot : nat) (ep : np_udp_endpoint) (packet : list Z)
| RvCoapResponse (code : Z)
| RvCoapError (code : Z)
| RvCoapRequestFree.

Definition rv_handler (A : Type) : Type := handler nc_rendezvous_context rv_call A.

Definition zero_rvp : nc_rendezvous_send_packet := mk_rvp 0 (replicate 14 0) zero_ep.

(** [buffer] says whether the allocation succeeds, [created] what
    [np_completion_event_init] answers. *)
Definition nc_rendezvous_init (buffer : bool) (created : np_error_code) : rv_handler np_error_code :=
  hmod (fun _ => mk_rv false (replicate NC_RENDEZVOUS_SEND_QUEUE_LENGTH zero_rvp) 0 false) ;;;
  if negb buffer then hret NABTO_EC_OUT_OF_MEMORY
  else if is_error created then hret created
  else hmod (fun ctx => ctx {{ rv_packetIndex := 0%nat; rv_sendingDevReqs := false }}) ;;;
       hret NABTO_EC_OK.

Definition nc_rendezvous_set_udp_dispatch : rv_handler unit :=
  hmod (fun ctx => ctx {{ rv_udpDispatch := true }}).

Definition nc_rendezvous_remove_udp_dispatch : rv_handler unit :=
  hmod (fun ctx => ctx {{ rv_udpDispatch := false }}).

(** The bytes written to [priBuf]. *)
Definition rendezvous_bytes (p : nc_rendezvous_send_packet) : list Z :=
  [NABTO_PROTOCOL_PREFIX_RENDEZVOUS] ++ rvp_connectionId p ++ [0; rvp_type p].

Definition nc_rendezvous_send_device_request : rv_handler unit :=
  let* ctx := hget in
  if rv_sendingDevReqs ctx || negb (rv_udpDispatch ctx) then hskip
  else if (rv_packetIndex ctx <=? 0)%nat then hskip
  else
    let index := (rv_packetIndex ctx - 1)%nat in
    let packet := default zero_rvp (rv_packetList ctx !! index) in
    hmod (fun ctx => ctx {{ rv_packetIndex := index; rv_sendingDevReqs := true }}) ;;;
    emit (RvSendTo index (rvp_ep packet) (rendezvous_bytes packet)).

Definition nc_rendezvous_packet_sent (ec : np_error_code) : rv_handler unit :=
  hmod (fun ctx => ctx {{ rv_sendingDevReqs := false }}) ;;;
  nc_rendezvous_send_device_request.

Definition nc_rendezvous_send_rendezvous (packet : nc_rendezvous_send_packet) : rv_handler unit :=
  let* ctx := hget in
  if (NC_RENDEZVOUS_SEND_QUEUE_LENGTH <=? rv_packetIndex ctx)%nat then hskip
  else if negb (rv_udpDispatch ctx) then hskip
  else
    hmod (fun ctx => ctx {{ rv_packetList ::= insert (rv_packetIndex ctx) packet;
                            rv_packetIndex ::= S }}) ;;;
    nc_rendezvous_send_device_request.

Definition nc_rendezvous_handle_client_request (ep : np_udp_endpoint) (connectionId : list Z) :
    rv_handler unit :=
  nc_rendezvous_send_rendezvous
    (mk_rvp CT_RENDEZVOUS_CLIENT_RESPONSE (take 14 connectionId) ep).

(** ** The CoAP resource *)

Definition COAP_CODE (class detail : Z) : Z := Z.lor (Z.shiftl class 5) detail.

Section Coap.
Context {V : Type} `{CborDec V}.

(** The body of the [while] loop for one map of the array: the packet that is sent,
    built in [packet], whose ip memory is left from the previous round where it is
    not overwritten. *)
Definition endpoint_packet (packet : nc_rendezvous_send_packet) (ep : V) :
    option nc_rendezvous_send_packet * nc_rendezvous_send_packet :=
  let ip := cv_find ep "Ip" in
  let port := cv_find ep "Port" in
  if cv_is_byte_string ip && cv_is_unsigned_integer port then
    let with_port := mk_rvp (rvp_type packet) (rvp_connectionId packet)
                       (mk_ep (ep_ip (rvp_ep packet)) (u16 (cv_uint64 port))) in
    let with_ip ty :=
      mk_rvp (rvp_type packet) (rvp_connectionId packet)
        (mk_ep (mk_ip ty (memcpy (ip_mem (ep_ip (rvp_ep packet))) 0 (cv_string ip)))
               (u16 (cv_uint64 port))) in
    let ipLength := length (cv_string ip) in
    if (ipLength =? 4)%nat then (Some (with_ip NABTO_IPV4), with_ip NABTO_IPV4)
    else if (ipLength =? 16)%nat then (Some (with_ip NABTO_IPV6), with_ip NABTO_IPV6)
    else (None, with_port)
  else (None, packet).

Fixpoint rendezvous_endpoints (packet : nc_rendezvous_send_packet) (eps : list V) : rv_handler bool :=
  match eps with
  | [] => hret true
  | ep :: rest =>
      if cv_is_map ep then
        let '(out, packet') := endpoint_packet packet ep in
        match out with
        | Some p => nc_rendezvous_send_rendezvous p
        | None => hskip
        end ;;;
        rendezvous_endpoints packet' rest
      else hret false
  end.

(** [connectionId] is the id of the request's connection and [mem] the uninitialized
    endpoint of the packet on the stack. *)
Definition handle_rendezvous_payload (connectionId : list Z) (mem : np_udp_endpoint)
    (payload : list Z) : rv_handler bool :=
  let array := cv_parse payload in
  if negb (cv_is_array array) then hret false
  else rendezvous_endpoints (mk_rvp CT_RENDEZVOUS_DEVICE_REQUEST connectionId mem) (cv_items array).

Definition nc_rendezvous_handle_coap_p2p_rendezvous (connectionId : list Z) (mem : np_udp_endpoint)
    (payload : option (list Z)) : rv_handler unit :=
  match payload with
  | None => emit (RvCoapError (COAP_CODE 4 0))
  | Some payload =>
      let* ok := handle_rendezvous_payload connectionId mem payload in
      if ok : bool then emit (RvCoapResponse (COAP_CODE 2 4))
      else emit (RvCoapError (COAP_CODE 4 0))
  end ;;;
  emit RvCoapRequestFree.
End Coap.

(** ** Specification *)

(** Inputs of the component while it has a socket. *)
Inductive rv_op : Type :=
| RvSend (p : nc_rendezvous_send_packet)
| RvSent (ec : np_error_code).

Definition rv_step (o : rv_op) : rv_handler unit :=
  match o with
  | RvSend p => nc_rendezvous_send_rendezvous p
  | RvSent ec => nc_rendezvous_packet_sent ec
  end.

Fixpoint rv_run (os : list rv_op) : rv_handler unit :=
  match os with
  | [] => hskip
  | o :: rest => rv_step o ;;; rv_run rest
  end.

(** The packets waiting. *)
Definition rv_queue (ctx : nc_rendezvous_context) : list nc_rendezvous_send_packet :=
  take (rv_packetIndex ctx) (rv_packetList ctx).

(** The packets of a run that were not dropped for a full queue. *)
Fixpoint rv_accepted (os : list rv_op) (ctx : nc_rendezvous_context) : list nc_rendezvous_send_packet :=
  match os with
  | [] => []
  | o :: rest =>
      match o with
      | RvSend p => if (rv_packetIndex ctx <? NC_RENDEZVOUS_SEND_QUEUE_LENGTH)%nat then [p] else []
      | RvSent _ => []
      end ++ rv_accepted rest (exec (rv_step o) ctx)
  end.

Definition sends (ps : list nc_rendezvous_send_packet) : list (np_udp_endpoint * list Z) :=
  map (fun p => (rvp_ep p, rendezvous_bytes p)) ps.

Definition sent_of (t : list rv_call) : list (np_udp_endpoint * list Z) :=
  omap (fun c => match c with RvSendTo _ ep b => Some (ep, b) | _ => None end) t.

(** Invariant: ten slots, an index within them, and a packet waits only for a send that
    is under way. *)
Record rv_inv (ctx : nc_rendezvous_context) : Prop := {
  rvi_udp : rv_udpDispatch ctx = true;
  rvi_len : length (rv_packetList ctx) = NC_RENDEZVOUS_SEND_QUEUE_LENGTH;
  rvi_index : (rv_packetIndex ctx <= NC_RENDEZVOUS_SEND_QUEUE_LENGTH)%nat;
  rvi_busy : rv_packetIndex ctx <> 0%nat -> rv_sendingDevReqs ctx = true
}.

(** ** Proofs *)

(** Taking the last packet of the queue when nothing is being sent. *)
Lemma send_device_request_spec ctx :
  rv_udpDispatch ctx = true -> length (rv_packetList ctx) = NC_RENDEZVOUS_SEND_QUEUE_LENGTH ->
  (rv_packetIndex ctx <= NC_RENDEZVOUS_SEND_QUEUE_LENGTH)%nat ->
  let m := nc_rendezvous_send_device_request in
  rv_inv (exec m ctx) /\
  sends (rv_queue ctx) ≡ₚ sent_of (trace m ctx) ++ sends (rv_queue (exec m ctx)) /\
  (rv_sendingDevReqs ctx = true -> exec m ctx = ctx).
Proof.
  destruct ctx as [udp pl idx sending]. cbn. intros -> Hlen Hidx.
  unfold nc_rendezvous_send_device_request. hsimpl.
  destruct sending; [by repeat split | cbn].
  destruct idx as [| idx]; [by repeat split | cbn].
  rewrite Nat.sub_0_r. split; [| split; [| done]]; [split; cbn; (done || lia) |].
  unfold rv_queue; cbn.
  destruct (lookup_lt_is_Some_2 pl idx ltac:(lia)) as [x Hx].
  rewrite (take_S_r _ _ _ Hx), Hx. unfold sends. rewrite map_app. cbn.
  by rewrite Permutation_app_comm.
Qed.

(** Adding a packet and starting a send. *)
Lemma rv_step_spec o ctx :
  rv_inv ctx ->
  rv_inv (exec (rv_step o) ctx) /\
  sends (rv_queue ctx ++
    match o with
    | RvSend p => if (rv_packetIndex ctx <? NC_RENDEZVOUS_SEND_QUEUE_LENGTH)%nat then [p] else []
    | RvSent _ => []
    end) ≡ₚ sent_of (trace (rv_step o) ctx) ++ sends (rv_queue (exec (rv_step o) ctx)).
Proof.
  intros [Hudp Hlen Hidx Hbusy]. destruct o as [p | ec]; cbn [rv_step].
  - unfold exec, trace. unfold nc_rendezvous_send_rendezvous. rewrite !hget_seq.
    destruct (Nat.leb_spec NC_RENDEZVOUS_SEND_QUEUE_LENGTH (rv_packetIndex ctx)) as [Hfull | Hroom].
    { rewrite (proj2 (Nat.ltb_ge _ _)) by done. cbn. rewrite app_nil_r. split; [by split | done]. }
    rewrite (proj2 (Nat.ltb_lt _ _)) by done. rewrite Hudp. cbn [negb]. rewrite !hmod_seq.
    set (ctx1 := ctx {{ rv_packetList ::= insert (rv_packetIndex ctx) p; rv_packetIndex ::= S }}).
    assert (Hq : rv_queue ctx1 = rv_queue ctx ++ [p]).
    { destruct ctx as [udp pl idx sending]. unfold ctx1, rv_queue. cbn in *.
      rewrite (take_S_r _ _ p) by (apply list_lookup_insert_eq; lia). by rewrite take_insert_ge by lia. }
    rewrite <- Hq. destruct (send_device_request_spec ctx1) as (Hinv & Hs & _); [| | | done];
      destruct ctx; cbn in *; rewrite ?length_insert; (done || lia).
  - unfold exec, trace. unfold nc_rendezvous_packet_sent. rewrite !hmod_seq.
    set (ctx1 := ctx {{ rv_sendingDevReqs := false }}).
    assert (Hq : rv_queue ctx1 = rv_queue ctx) by by destruct ctx.
    rewrite app_nil_r, <- Hq.
    destruct (send_device_request_spec ctx1) as (Hinv & Hs & _); [| | | done]; by destruct ctx.
Qed.

Lemma rv_run_spec os : forall ctx,
  rv_inv ctx ->
  rv_inv (exec (rv_run os) ctx) /\
  sends (rv_queue ctx ++ rv_accepted os ctx) ≡ₚ
    sent_of (trace (rv_run os) ctx) ++ sends (rv_queue (exec (rv_run os) ctx)).
Proof.
  induction os as [| o os IH]; intros ctx Hinv; cbn [rv_run rv_accepted].
  { hsimpl. rewrite app_nil_r. done. }
  destruct (rv_step_spec o ctx Hinv) as [Hinv1 Hs]. destruct (IH _ Hinv1) as [Hinv2 Hs2].
  rewrite exec_seq, trace_seq. split; [done |].
  unfold sent_of in *. rewrite omap_app, <- app_assoc, <- Hs2. unfold sends in *.
  rewrite !map_app in *. rewrite app_assoc, Hs, <- app_assoc. done.
Qed.

(** Packets of a run carry connection ids of 14 bytes. *)
Definition rv_op_wf (o : rv_op) : Prop :=
  match o with RvSend p => length (rvp_connectionId p) = 14%nat | RvSent _ => True end.

#[global] Instance rv_op_wf_dec o : Decision (rv_op_wf o).
Proof. destruct o; simpl; apply _. Defined.

Definition rv_fresh : nc_rendezvous_context :=
  mk_rv true (replicate NC_RENDEZVOUS_SEND_QUEUE_LENGTH zero_rvp) 0 false.

Lemma rv_fresh_inv : rv_inv rv_fresh.
Proof. by split; cbn; try lia. Qed.

(** Rendezvous queue: over any sequence of packets and completed sends, the packets sent
    and the packets still waiting are together exactly those accepted (each one once); at
    most ten wait, only packets that meet a full queue are dropped, and packets wait only
    while a send is under way. *)
Lemma rendezvous_conservation (os : list rv_op) :
  let ctx := exec (rv_run os) rv_fresh in
  sent_of (trace (rv_run os) rv_fresh) ++ sends (rv_queue ctx) ≡ₚ sends (rv_accepted os rv_fresh) /\
  (length (rv_queue ctx) <= NC_RENDEZVOUS_SEND_QUEUE_LENGTH)%nat /\
  (rv_queue ctx <> [] -> rv_sendingDevReqs ctx = true).
Proof.
  intros ctx. destruct (rv_run_spec os rv_fresh rv_fresh_inv) as [[Hudp Hlen Hidx Hbusy] Hs].
  fold ctx in Hudp, Hlen, Hidx, Hbusy, Hs. split; [by rewrite <- Hs |]. unfold rv_queue. split.
  - rewrite length_take. lia.
  - intros Hq. apply Hbusy. intros E. by rewrite E in Hq.
Qed.

Lemma accepted_wf os : forall ctx,
  Forall rv_op_wf os -> Forall (fun p => length (rvp_connectionId p) = 14%nat) (rv_accepted os ctx).
Proof.
  induction os as [| o os IH]; intros ctx Hos; cbn; [constructor |].
  inversion_clear Hos as [| ? ? Ho Hrest]. apply Forall_app. split; [| by apply IH].
  destruct o; [| constructor]. case_match; by repeat constructor.
Qed.

(** Format: every packet that leaves the component is 17 bytes, the rendezvous prefix,
    the connection id, the channel byte 0 and the type of a packet that was submitted with
    that endpoint. *)
Lemma rendezvous_packet_format (os : list rv_op) ep b :
  Forall rv_op_wf os -> (ep, b) ∈ sent_of (trace (rv_run os) rv_fresh) ->
  exists p, RvSend p ∈ os /\ ep = rvp_ep p /\
    b = [NABTO_PROTOCOL_PREFIX_RENDEZVOUS] ++ rvp_connectionId p ++ [0; rvp_type p] /\
    length b = 17%nat.
Proof.
  intros Hwf Hin. destruct (rv_run_spec os rv_fresh rv_fresh_inv) as [_ Hs].
  assert (Hb : (ep, b) ∈ sends (rv_accepted os rv_fresh)).
  { change (rv_accepted os rv_fresh) with (rv_queue rv_fresh ++ rv_accepted os rv_fresh).
    rewrite Hs. apply elem_of_app. by left. }
  unfold sends in Hb. apply list_elem_of_fmap in Hb as (p & [= -> ->] & Hp).
  pose proof (accepted_wf os rv_fresh Hwf) as Hf. rewrite Forall_forall in Hf.
  specialize (Hf p Hp). exists p. repeat split.
  - clear -Hp. revert Hp. generalize rv_fresh. induction os as [| o os IH]; intros ctx; cbn; [set_solver |].
    rewrite elem_of_app. intros [Hp | Hp]; [| right; eauto]. destruct o; [case_match |]; set_solver.
  - unfold rendezvous_bytes. rewrite !length_app, Hf. done.
Qed.

Lemma rendezvous_packet_format_witness :
  exists p, RvSend p ∈ [RvSend (mk_rvp 2 (replicate 14 9) zero_ep)] /\ zero_ep = rvp_ep p /\
    [241; 9; 9; 9; 9; 9; 9; 9; 9; 9; 9; 9; 9; 9; 9; 0; 2] =
      [NABTO_PROTOCOL_PREFIX_RENDEZVOUS] ++ rvp_connectionId p ++ [0; rvp_type p] /\
    length [241; 9; 9; 9; 9; 9; 9; 9; 9; 9; 9; 9; 9; 9; 9; 0; 2] = 17%nat.
Proof.
  apply (rendezvous_packet_format [RvSend (mk_rvp 2 (replicate 14 9) zero_ep)] zero_ep
           [241; 9; 9; 9; 9; 9; 9; 9; 9; 9; 9; 9; 9; 9; 9; 0; 2]).
  - by_compute.
  - vm_compute. left.
Defined.

(** While a packet is being sent, the next accepted packet is stored in the slot whose
    endpoint was handed to the socket. *)
Example rendezvous_slot_reuse :
  let p := mk_rvp 2 (replicate 14 1) zero_ep in
  let q := mk_rvp 3 (replicate 14 2) (mk_ep zero_ip 5) in
  trace (rv_run [RvSend p; RvSend q]) rv_fresh = [RvSendTo 0 zero_ep (rendezvous_bytes p)] /\
  rv_packetList (exec (rv_run [RvSend p; RvSend q]) rv_fresh) !! 0%nat = Some q.
Proof. split; reflexivity. Qed.
