(* ===== verification/ClientConnection.v ===== *)
(** * UDP dispatch and client connections (nc_udp_dispatch.c, nc_client_connection.c,
      nc_client_connection_dispatch.c, connection references of nc_device.c)

    A packet from a socket is routed by its first byte; packets with a connection header
    go to the connection with the same 14 byte id or open a new one in a free slot of a
    table of ten. DTLS is another component: its functions appear as calls and its
    callbacks ([handle_event], [handle_data], [async_send_to_udp], closed) as entry points. *)

From S2P Require Import Prelude Platform Packet KeepAlive.
From stdpp Require Import sets.

#[local] Open Scope Z_scope.
#[local] Open Scope handler_scope.

Definition NABTO_MAX_CLIENT_CONNECTIONS : nat := 10.
Definition NP_DTLS_SRV_DEFAULT_CHANNEL_ID : Z := 255.

(** ** Data *)

(** Sockets ([struct nc_udp_dispatch_context*]) are named by numbers. *)
Record nc_connection_channel : Type := mk_channel {
  ch_sock : nat;
  ch_ep : np_udp_endpoint;
  ch_channelId : Z
}.

Record nc_client_connection : Type := mk_conn {
  cc_id : list Z;
  cc_currentChannel : nc_connection_channel;
  cc_alternativeChannel : nc_connection_channel;
  cc_currentMaxSequence : Z;
  cc_sentCb : option nat;      (* the callback of a send to UDP that is under way *)
  cc_connectionRef : Z;
  cc_keepAlive : nc_keep_alive_context;
  cc_hasSpake2Key : bool;
  cc_spake2Key : list Z;
  cc_passwordAuthenticated : bool;
  cc_passwordAuthenticationRequests : Z
}.

(** The all-zero structure that [memset] leaves. *)
Definition zero_keep_alive : nc_keep_alive_context := mk_ka 0 0 0 0 0 0 0 false (replicate 18 0).
Definition zero_channel : nc_connection_channel := mk_channel 0 zero_ep 0.
Definition zero_conn : nc_client_connection :=
  mk_conn (replicate 16 0) zero_channel zero_channel 0 None 0 zero_keep_alive
    false (replicate 32 0) false 0.

Record nc_client_connection_dispatch_element : Type := mk_elm {
  el_conn : nc_client_connection;
  el_active : bool
}.

(** The dispatch context, with the connection reference counter of the device. *)
Record nc_client_connection_dispatch_context : Type := mk_disp {
  d_elms : list nc_client_connection_dispatch_element;
  d_closeCb : bool;
  d_closing : bool;
  dev_connectionRef : Z
}.

Inductive nc_connection_event : Type :=
| NC_CONNECTION_EVENT_OPENED
| NC_CONNECTION_EVENT_CLOSED
| NC_CONNECTION_EVENT_CHANNEL_CHANGED.

(** Calls to other components; a connection is named by its slot. *)
Inductive cc_call : Type :=
| CcNotify (ref : Z) (event : nc_connection_event)
| CcKeepAlive (c : ka_call)
| CcInitSendEvent
| CcDeinitSendEvent
| CcDtlsCreate
| CcDtlsHandlePacket (channelId : Z) (packet : list Z)
| CcDtlsSend (channelId : Z) (packet : list Z)
| CcDtlsClose
| CcDtlsDestroy
| CcRendezvousRequest (ep : np_udp_endpoint) (connectionId : list Z)
| CcStreamPacket (packet : list Z)
| CcCoapPacket (packet : list Z)
| CcCoapRemoveConnection
| CcStreamRemoveConnection
| CcUdpSend (sock : nat) (ep : np_udp_endpoint) (packet : list Z)
| CcSentCallback (cb : nat) (ec : np_error_code)
| CcDispatchClosed.

(** A call made by the connection in a slot. *)
Definition call : Type := nat * cc_call.

Definition cc_handler (A : Type) : Type := handler nc_client_connection cc_call A.
Definition d_handler (A : Type) : Type := handler nc_client_connection_dispatch_context call A.
Definition d_uhandler (A : Type) : Type := uhandler nc_client_connection_dispatch_context call A.

(** ** nc_udp_dispatch.c: routing by the first byte *)

Inductive udp_target : Type := ToStun | ToAttacher | ToClientConnection | ToNobody.

(** Which of the contexts [stun], [attacher], [cliConn] are set. *)
Definition nc_udp_dispatch_handle_packet (stun attacher cliConn : bool) (buf : list Z) : cres udp_target :=
  cres_bind (rd buf 0) (fun b =>
  Def (if stun && ((b =? 0) || (b =? 1)) then ToStun
       else if attacher && ((20 <=? b) && (b <=? 64)) then ToAttacher
       else if cliConn && (240 <=? b) then ToClientConnection
       else ToNobody)).

(** ** nc_device.c: connection references *)

Definition nc_device_next_connection_ref (ref : Z) : option Z * Z :=
  let next := u64 (ref + 1) in
  if next <? ref then (None, next) else (Some next, next).

(** ** nc_client_connection.c *)

(** Run a handler of the keep-alive component on the connection's context. *)
Definition cc_keep_alive {A} (m : ka_handler A) : cc_handler A := fun conn =>
  let '(a, ka, t) := m (cc_keepAlive conn) in
  (a, conn {{ cc_keepAlive := ka }}, map CcKeepAlive t).

Definition nc_client_connection_event_listener_notify (event : nc_connection_event) : cc_handler unit :=
  let* conn := hget in emit (CcNotify (cc_connectionRef conn) event).

(** [memmove(start, start + 16, bufferSize - 16)]: the packet after the connection header.
    With less than 16 bytes the length is converted from a negative number. *)
Definition strip_header (buf : list Z) (bufferSize : nat) : cres (list Z) :=
  if (bufferSize <? 16)%nat then UB else Def (take (bufferSize - 16) (drop 16 buf)).

(** [buf] is the receive buffer, of which the packet is the first [bufferSize] bytes. *)
Definition nc_client_connection_handle_packet (sock : nat) (ep : np_udp_endpoint)
    (buf : list Z) (bufferSize : nat) (handled : np_error_code) :
    uhandler nc_client_connection cc_call np_error_code :=
  let+ b0 := uof (rd buf 0) in
  let+ b16 := uof (if (17 <=? bufferSize)%nat then rd buf 16 else Def 0) in
  if (17 <=? bufferSize)%nat && ((b0 =? NABTO_PROTOCOL_PREFIX_RENDEZVOUS) &&
       (b16 =? CT_RENDEZVOUS_CLIENT_REQUEST)) then
    ulift (let* conn := hget in
           emit (CcRendezvousRequest ep (take 14 (drop 1 (cc_id conn)))) ;;;
           hret NABTO_EC_OK)
  else
    let+ channelId := uof (rd buf 15) in
    let+ _ := ulift (hmod (fun conn =>
      if channelId =? ch_channelId (cc_currentChannel conn)
      then conn {{ cc_currentChannel := mk_channel sock ep channelId }}
      else conn {{ cc_alternativeChannel := mk_channel sock ep channelId }})) in
    let+ packet := uof (strip_header buf bufferSize) in
    ulift (emit (CcDtlsHandlePacket channelId packet) ;;; hret handled).

Definition nc_client_connection_close_connection : cc_handler unit := emit CcDtlsClose.

(** [alpn] is whether [get_alpn_protocol] answers a protocol; the closed event is
    [nc_client_connection_dtls_closed_cb] below. *)
Definition handle_handshake_complete (alpn : bool) : cc_handler unit :=
  if negb alpn then emit CcDtlsClose
  else cc_keep_alive nc_keep_alive_wait ;;;
       nc_client_connection_event_listener_notify NC_CONNECTION_EVENT_OPENED.

Definition nc_client_connection_keep_alive_send_response (channelId : Z) (buffer : list Z) :
    cc_handler unit :=
  let* conn := hget in
  let '(resp, ka) := nc_keep_alive_handle_request (cc_keepAlive conn) buffer (length buffer) in
  match resp with
  | Some (b, n) =>
      hmod (fun conn => conn {{ cc_keepAlive := ka }}) ;;;
      emit (CcDtlsSend channelId (take n b))
  | None => hskip
  end.

Definition nc_client_connection_handle_keep_alive (channelId : Z) (buffer : list Z) : cc_handler unit :=
  if (length buffer <? 2)%nat then hskip
  else if default 0 (buffer !! 1%nat) =? CT_KEEP_ALIVE_REQUEST
       then nc_client_connection_keep_alive_send_response channelId buffer
       else hskip.

Definition switch_channel (channelId sequence : Z) : cc_handler unit :=
  let* conn := hget in
  if cc_currentMaxSequence conn <? sequence then
    hmod (fun conn => conn {{ cc_currentMaxSequence := sequence }}) ;;;
    if negb (ch_channelId (cc_currentChannel conn) =? channelId) &&
       (ch_channelId (cc_alternativeChannel conn) =? channelId) then
      hmod (fun conn => conn {{ cc_currentChannel := cc_alternativeChannel conn }}) ;;;
      nc_client_connection_event_listener_notify NC_CONNECTION_EVENT_CHANNEL_CHANGED
    else hskip
  else hskip.

Definition handle_application_data (applicationType channelId sequence : Z) (buffer : list Z) :
    cc_handler unit :=
  (if negb (applicationType =? AT_KEEP_ALIVE) then switch_channel channelId sequence else hskip) ;;;
  if applicationType =? AT_STREAM then emit (CcStreamPacket buffer)
  else if (AT_COAP_START <=? applicationType) && (applicationType <=? AT_COAP_END)
       then emit (CcCoapPacket buffer)
  else if applicationType =? AT_KEEP_ALIVE
       then nc_client_connection_handle_keep_alive channelId buffer
  else hskip.

Definition nc_client_connection_handle_data (channelId sequence : Z) (buffer : list Z) :
    uhandler nc_client_connection cc_call unit :=
  let+ applicationType := uof (rd buffer 0) in
  ulift (handle_application_data applicationType channelId sequence buffer).

Definition nc_client_connection_keep_alive_send_req : cc_handler unit :=
  let* conn := hget in
  let '((b, n), ka) := nc_keep_alive_create_request (cc_keepAlive conn) in
  hmod (fun conn => conn {{ cc_keepAlive := ka }}) ;;;
  emit (CcDtlsSend (ch_channelId (cc_currentChannel conn)) (take n b)).

Definition nc_client_connection_keep_alive_event (recvCount sentCount : Z) : cc_handler unit :=
  let* conn := hget in
  let '(action, ka) := nc_keep_alive_should_send (cc_keepAlive conn) recvCount sentCount in
  hmod (fun conn => conn {{ cc_keepAlive := ka }}) ;;;
  match action with
  | DO_NOTHING => cc_keep_alive nc_keep_alive_wait
  | SEND_KA => nc_client_connection_keep_alive_send_req ;;; cc_keep_alive nc_keep_alive_wait
  | KA_TIMEOUT => nc_client_connection_close_connection
  end.

(** The keep-alive packet has been sent (the callback of the DTLS send). *)
Definition keep_alive_sent : cc_handler unit :=
  hmod (fun conn => conn {{ cc_keepAlive ::= nc_keep_alive_packet_sent }}).

Definition nc_client_connection_send_to_udp_cb (ec : np_error_code) : cc_handler unit :=
  let* conn := hget in
  match cc_sentCb conn with
  | None => hskip
  | Some cb => hmod (fun conn => conn {{ cc_sentCb := None }}) ;;; emit (CcSentCallback cb ec)
  end.

(** The header put in front of a DTLS packet. *)
Definition with_header (conn : nc_client_connection) (channelId : Z) (buffer : list Z) : list Z :=
  take 15 (cc_id conn) ++ [channelId] ++ buffer.

Definition nc_client_connection_async_send_to_udp (channel : Z) (buffer : list Z) (cb : nat) :
    cc_handler np_error_code :=
  let* conn := hget in
  match cc_sentCb conn with
  | Some _ => hret NABTO_EC_OPERATION_IN_PROGRESS
  | None =>
      hmod (fun conn => conn {{ cc_sentCb := Some cb }}) ;;;
      let cur := cc_currentChannel conn in
      let alt := cc_alternativeChannel conn in
      (if (channel =? ch_channelId cur) || (channel =? NP_DTLS_SRV_DEFAULT_CHANNEL_ID) then
         emit (CcUdpSend (ch_sock cur) (ch_ep cur) (with_header conn (ch_channelId cur) buffer))
       else if channel =? ch_channelId alt then
         emit (CcUdpSend (ch_sock alt) (ch_ep alt) (with_header conn (ch_channelId alt) buffer))
       else hskip) ;;;
      hret NABTO_EC_OK
  end.

Definition nc_client_connection_is_local (localUdp : nat) (conn : nc_client_connection) : bool :=
  (localUdp =? ch_sock (cc_currentChannel conn))%nat.

Definition nc_client_connection_is_password_authenticated (conn : nc_client_connection) : bool :=
  cc_passwordAuthenticated conn.

(** ** nc_client_connection_dispatch.c *)

Definition no_elm : nc_client_connection_dispatch_element := mk_elm zero_conn false.
Definition get_elm (d : nc_client_connection_dispatch_context) (i : nat) :
    nc_client_connection_dispatch_element := default no_elm (d_elms d !! i).
Definition set_elm (i : nat) (e : nc_client_connection_dispatch_element)
    (d : nc_client_connection_dispatch_context) : nc_client_connection_dispatch_context :=
  d {{ d_elms ::= insert i e }}.
Definition set_conn (i : nat) (conn : nc_client_connection)
    (d : nc_client_connection_dispatch_context) : nc_client_connection_dispatch_context :=
  set_elm i (mk_elm conn (el_active (get_elm d i))) d.
Definition set_active (i : nat) (active : bool)
    (d : nc_client_connection_dispatch_context) : nc_client_connection_dispatch_context :=
  set_elm i (mk_elm (el_conn (get_elm d i)) active) d.

(** A handler of the connection in slot [i]. *)
Definition at_slot {A} (i : nat) (m : cc_handler A) : d_handler A := fun d =>
  let '(a, conn, t) := m (el_conn (get_elm d i)) in (a, set_conn i conn d, map (pair i) t).

Definition at_slot_u {A} (i : nat) (m : uhandler nc_client_connection cc_call A) : d_uhandler A := fun d =>
  match m (el_conn (get_elm d i)) with
  | UB => UB
  | Def (a, conn, t) => Def (a, set_conn i conn d, map (pair i) t)
  end.

Definition nc_client_connection_dispatch_init : d_handler unit :=
  hmod (fun d => mk_disp (replicate NABTO_MAX_CLIENT_CONNECTIONS no_elm) (d_closeCb d) false
                         (dev_connectionRef d)).

(** [for (i = 0; i < NABTO_MAX_CLIENT_CONNECTIONS; i++) if (p(elms[i])) ...]: the first such slot. *)
Definition first_slot (p : nc_client_connection_dispatch_element -> bool)
    (d : nc_client_connection_dispatch_context) : option nat :=
  fst <$> list_find (fun e => p e = true) (d_elms d).

Definition all_inactive (d : nc_client_connection_dispatch_context) : bool :=
  forallb (fun e => negb (el_active e)) (d_elms d).

Definition nc_client_connection_dispatch_try_close : d_handler unit :=
  let* d := hget in
  hwhen (all_inactive d && d_closeCb d) (emit (0%nat, CcDispatchClosed)).

Definition nc_client_connection_dispatch_close_connection (i : nat) : d_handler np_error_code :=
  hmod (set_active i false) ;;;
  let* d := hget in
  hwhen (d_closing d) nc_client_connection_dispatch_try_close ;;;
  hret NABTO_EC_OK.

Definition nc_client_connection_destroy_connection (i : nat) : d_handler unit :=
  at_slot i (nc_client_connection_event_listener_notify NC_CONNECTION_EVENT_CLOSED) ;;;
  at_slot i (cc_keep_alive nc_keep_alive_deinit) ;;;
  emit (i, CcCoapRemoveConnection) ;;;
  emit (i, CcStreamRemoveConnection) ;;;
  nc_client_connection_dispatch_close_connection i ;;;
  emit (i, CcDtlsDestroy) ;;;
  emit (i, CcDeinitSendEvent) ;;;
  hmod (set_conn i zero_conn).

Definition nc_client_connection_dtls_closed_cb (ec : np_error_code) (i : nat) : d_handler unit :=
  nc_client_connection_destroy_connection i.

Inductive np_dtls_srv_event : Type :=
| NP_DTLS_SRV_EVENT_CLOSED
| NP_DTLS_SRV_EVENT_HANDSHAKE_COMPLETE.

Definition nc_client_connection_handle_event (event : np_dtls_srv_event) (alpn : bool) (i : nat) :
    d_handler unit :=
  match event with
  | NP_DTLS_SRV_EVENT_CLOSED => nc_client_connection_dtls_closed_cb NABTO_EC_OK i
  | NP_DTLS_SRV_EVENT_HANDSHAKE_COMPLETE => at_slot i (handle_handshake_complete alpn)
  end.

(** The answers of the calls [nc_client_connection_open] makes, in order. *)
Record open_answers : Type := mk_answers {
  oa_keep_alive : np_error_code;
  oa_send_event : np_error_code;
  oa_create : np_error_code;
  oa_handle : np_error_code
}.

Definition nc_client_connection_open (i : nat) (sock : nat) (ep : np_udp_endpoint)
    (buf : list Z) (bufferSize : nat) (oa : open_answers) : d_uhandler np_error_code :=
  let+ channelId := uof (rd buf 15) in
  let channel := mk_channel sock ep channelId in
  let+ _ := ulift (hmod (set_conn i (zero_conn {{ cc_id := take 16 buf;
                                                  cc_currentChannel := channel;
                                                  cc_alternativeChannel := channel }}))) in
  let+ d := ulift hget in
  let '(ref, counter) := nc_device_next_connection_ref (dev_connectionRef d) in
  let+ _ := ulift (hmod (fun d => d {{ dev_connectionRef := counter }})) in
  match ref with
  | None => ulift (hret NABTO_EC_UNKNOWN)
  | Some r =>
      let+ _ := ulift (at_slot i (hmod (fun conn => conn {{ cc_connectionRef := r }}))) in
      let+ ec := ulift (at_slot i (cc_keep_alive (nc_keep_alive_init (oa_keep_alive oa)))) in
      if is_error ec then ulift (hret ec)
      else
        let+ _ := ulift (emit (i, CcInitSendEvent)) in
        if is_error (oa_send_event oa) then ulift (hret (oa_send_event oa))
        else
          let+ _ := ulift (emit (i, CcDtlsCreate)) in
          if is_error (oa_create oa) then ulift (hret (oa_create oa))
          else
            let+ packet := uof (strip_header buf bufferSize) in
            let+ _ := ulift (emit (i, CcDtlsHandlePacket channelId packet)) in
            ulift (hret (oa_handle oa))
  end.

(** [memcmp(id + 1, conn.id.id + 1, 14) == 0]. *)
Definition same_id (buf : list Z) (conn : nc_client_connection) : bool :=
  bool_decide (take 14 (drop 1 buf) = take 14 (drop 1 (cc_id conn))).

Definition nc_client_connection_dispatch_handle_packet (sock : nat) (ep : np_udp_endpoint)
    (buf : list Z) (bufferSize : nat) (handled : np_error_code) (oa : open_answers) : d_uhandler unit :=
  let+ d := ulift hget in
  match first_slot (fun e => el_active e && same_id buf (el_conn e)) d with
  | Some i =>
      let+ _ := at_slot_u i (nc_client_connection_handle_packet sock ep buf bufferSize handled) in
      ulift hskip
  | None =>
      let+ b16 := uof (rd buf 16) in
      if b16 =? 22 then
        match first_slot (fun e => negb (el_active e)) d with
        | Some i =>
            let+ ec := nc_client_connection_open i sock ep buf bufferSize oa in
            if is_error ec then ulift hskip else ulift (hmod (set_active i true))
        | None => ulift hskip
        end
      else ulift hskip
  end.

(** The loops of [async_close] and [deinit] over the slots. *)
Fixpoint close_slots (slots : list nat) : d_handler unit :=
  match slots with
  | [] => hskip
  | i :: rest =>
      let* d := hget in
      hwhen (el_active (get_elm d i)) (at_slot i nc_client_connection_close_connection) ;;;
      close_slots rest
  end.

Fixpoint destroy_slots (slots : list nat) : d_handler unit :=
  match slots with
  | [] => hskip
  | i :: rest =>
      let* d := hget in
      hwhen (el_active (get_elm d i))
        (nc_client_connection_destroy_connection i ;;; hmod (set_active i false)) ;;;
      destroy_slots rest
  end.

Definition nc_client_connection_dispatch_async_close : d_handler np_error_code :=
  hmod (fun d => d {{ d_closing := true }}) ;;;
  let* d := hget in
  close_slots (seq 0 NABTO_MAX_CLIENT_CONNECTIONS) ;;;
  if all_inactive d then hret NABTO_EC_STOPPED
  else hmod (fun d => d {{ d_closeCb := true }}) ;;; hret NABTO_EC_OK.

Definition nc_client_connection_dispatch_deinit : d_handler unit :=
  destroy_slots (seq 0 NABTO_MAX_CLIENT_CONNECTIONS).

Definition nc_client_connection_dispatch_connection_from_ref (ref : Z)
    (d : nc_client_connection_dispatch_context) : option nat :=
  first_slot (fun e => el_active e && (cc_connectionRef (el_conn e) =? ref)) d.

(** ** Runs *)

(** Inputs of the table: packets from the sockets, callbacks of DTLS and of the sockets,
    keep-alive timers, and the closing of the device. *)
Inductive cc_input : Type :=
| InPacket (sock : nat) (ep : np_udp_endpoint) (buf : list Z) (bufferSize : nat)
    (handled : np_error_code) (oa : open_answers)
| InDtlsEvent (i : nat) (event : np_dtls_srv_event) (alpn : bool)
| InDtlsData (i : nat) (channelId sequence : Z) (buffer : list Z)
| InDtlsSend (i : nat) (channelId : Z) (buffer : list Z) (cb : nat)
| InUdpSent (i : nat) (ec : np_error_code)
| InKeepAlive (i : nat) (recvCount sentCount : Z)
| InKeepAliveSent (i : nat)
| InClose.

Definition cc_step (inp : cc_input) : d_uhandler unit :=
  match inp with
  | InPacket sock ep buf n handled oa => nc_client_connection_dispatch_handle_packet sock ep buf n handled oa
  | InDtlsEvent i ev alpn => ulift (nc_client_connection_handle_event ev alpn i)
  | InDtlsData i ch sq b => at_slot_u i (nc_client_connection_handle_data ch sq b)
  | InDtlsSend i ch b cb =>
      ulift (at_slot i (nc_client_connection_async_send_to_udp ch b cb) ;;; hskip)
  | InUdpSent i ec => ulift (at_slot i (nc_client_connection_send_to_udp_cb ec))
  | InKeepAlive i r s => ulift (at_slot i (nc_client_connection_keep_alive_event r s))
  | InKeepAliveSent i => ulift (at_slot i keep_alive_sent)
  | InClose => ulift (nc_client_connection_dispatch_async_close ;;; hskip)
  end.

Definition cc_initial : nc_client_connection_dispatch_context :=
  mk_disp (replicate NABTO_MAX_CLIENT_CONNECTIONS no_elm) false false 0.

(** Tables reachable from the initial one by [n] inputs that are not undefined. *)
Inductive cc_reachable : Z -> nc_client_connection_dispatch_context -> Prop :=
| CR_init : cc_reachable 0 cc_initial
| CR_step n d inp d' t :
    cc_reachable n d -> cc_step inp d = Def (tt, d', t) -> cc_reachable (n + 1) d'.

(** ** Invariant *)

(** What identifies a connection: the 14 byte id of its packets, and its reference. *)
Definition conn_key (c : nc_client_connection) : list Z * Z :=
  (take 14 (drop 1 (cc_id c)), cc_connectionRef c).

(** The active connections, by slot. *)
Definition table (d : nc_client_connection_dispatch_context) : list (option (list Z * Z)) :=
  map (fun e => if el_active e then Some (conn_key (el_conn e)) else None) (d_elms d).

Record table_ok (counter : Z) (t : list (option (list Z * Z))) : Prop := {
  tk_len : length t = NABTO_MAX_CLIENT_CONNECTIONS;
  tk_uniq : forall i j k k', t !! i = Some (Some k) -> t !! j = Some (Some k') -> i <> j ->
    k.1 <> k'.1 /\ k.2 <> k'.2;
  tk_ref : forall i k, t !! i = Some (Some k) -> k.2 <= counter
}.

(** ** Proofs: the table *)

Lemma get_set_elm d i e : (i < length (d_elms d))%nat -> get_elm (set_elm i e d) i = e.
Proof. intros Hi. destruct d. unfold get_elm, set_elm in *. cbn in *. by rewrite list_lookup_insert_eq. Qed.

Lemma get_set_elm_ne d i j e : i <> j -> get_elm (set_elm i e d) j = get_elm d j.
Proof. intros Hij. destruct d. unfold get_elm, set_elm. cbn. by rewrite list_lookup_insert_ne. Qed.

Lemma table_set_elm i e d :
  table (set_elm i e d) = <[i := if el_active e then Some (conn_key (el_conn e)) else None]> (table d).
Proof. destruct d. unfold table, set_elm. cbn. apply list_fmap_insert. Qed.

Lemma table_get d i :
  (i < length (d_elms d))%nat ->
  table d !! i = Some (if el_active (get_elm d i) then Some (conn_key (el_conn (get_elm d i))) else None).
Proof.
  intros Hi. unfold table, get_elm. rewrite list_lookup_fmap.
  by destruct (lookup_lt_is_Some_2 _ _ Hi) as [e ->].
Qed.

(** Changing a connection without its id and reference leaves the table alone. *)
Lemma table_set_conn i c d :
  conn_key c = conn_key (el_conn (get_elm d i)) -> table (set_conn i c d) = table d.
Proof.
  intros Hk. unfold set_conn. rewrite table_set_elm. cbn.
  destruct (decide (i < length (d_elms d))%nat) as [Hi | Hi].
  - rewrite Hk. apply list_insert_id. by rewrite table_get.
  - apply list_insert_ge. unfold table. rewrite length_map. lia.
Qed.

Definition keeps_key {A} (m : cc_handler A) : Prop := forall c, conn_key (exec m c) = conn_key c.

Lemma table_at_slot {A} i (m : cc_handler A) d :
  keeps_key m -> table (exec (at_slot i m) d) = table d.
Proof.
  intros Hm. unfold exec, at_slot. specialize (Hm (el_conn (get_elm d i))). unfold exec in Hm.
  destruct (m (el_conn (get_elm d i))) as [[a c] t]. cbn in *. by apply table_set_conn.
Qed.

Lemma counter_at_slot {A} i (m : cc_handler A) d :
  dev_connectionRef (exec (at_slot i m) d) = dev_connectionRef d.
Proof. unfold exec, at_slot. destruct (m _) as [[a c] t]. by destruct d. Qed.

Lemma keeps_bind {A B} (m : cc_handler A) (k : A -> cc_handler B) :
  keeps_key m -> (forall a, keeps_key (k a)) -> keeps_key (hbind m k).
Proof. intros Hm Hk c. rewrite exec_seq. by rewrite Hk, Hm. Qed.

Lemma keeps_hmod f : (forall c, conn_key (f c) = conn_key c) -> keeps_key (hmod f).
Proof. done. Qed.
Lemma keeps_hget : keeps_key hget.
Proof. done. Qed.
Lemma keeps_hret {A} (a : A) : keeps_key (hret a).
Proof. done. Qed.
Lemma keeps_hskip : keeps_key hskip.
Proof. done. Qed.
Lemma keeps_emit e : keeps_key (emit e).
Proof. done. Qed.
Lemma keeps_ka {A} (m : ka_handler A) : keeps_key (cc_keep_alive m).
Proof. intros []. unfold cc_keep_alive, exec. by destruct (m _) as [[??]?]. Qed.

#[export] Hint Resolve keeps_bind keeps_hget keeps_hret keeps_hskip keeps_emit keeps_ka : nabto.

(** A handler made of steps that keep the key. *)
Ltac keeps :=
  repeat first
    [ progress intros
    | apply keeps_bind
    | apply keeps_hmod; intros []; reflexivity
    | solve [auto with nabto]
    | case_match ].

Lemma keeps_handshake alpn : keeps_key (handle_handshake_complete alpn).
Proof. unfold handle_handshake_complete, nc_client_connection_event_listener_notify. keeps. Qed.
Lemma keeps_send_to_udp ch b cb : keeps_key (nc_client_connection_async_send_to_udp ch b cb).
Proof. unfold nc_client_connection_async_send_to_udp. keeps. Qed.
Lemma keeps_sent ec : keeps_key (nc_client_connection_send_to_udp_cb ec).
Proof. unfold nc_client_connection_send_to_udp_cb. keeps. Qed.
Lemma keeps_ka_event r s : keeps_key (nc_client_connection_keep_alive_event r s).
Proof.
  unfold nc_client_connection_keep_alive_event, nc_client_connection_keep_alive_send_req,
    nc_client_connection_close_connection. keeps.
Qed.
Lemma keeps_ka_sent : keeps_key keep_alive_sent.
Proof. unfold keep_alive_sent. keeps. Qed.

Definition keeps_key_u {A} (m : uhandler nc_client_connection cc_call A) : Prop :=
  forall c a c' t, m c = Def (a, c', t) -> conn_key c' = conn_key c.

Lemma keeps_ubind {A B} (m : uhandler _ _ A) (k : A -> uhandler _ _ B) :
  keeps_key_u m -> (forall a, keeps_key_u (k a)) -> keeps_key_u (ubind m k).
Proof.
  intros Hm Hk c b c' t. unfold ubind. destruct (m c) as [[[a c1] t1] |] eqn:E; [| done].
  destruct (k a c1) as [[[b' c2] t2] |] eqn:E2; [| done]. intros [= -> -> <-].
  by rewrite (Hk _ _ _ _ _ E2), (Hm _ _ _ _ E).
Qed.
Lemma keeps_ulift {A} (m : cc_handler A) : keeps_key m -> keeps_key_u (ulift m).
Proof. intros Hm c a c' t [= E]. specialize (Hm c). unfold exec in Hm. by rewrite E in Hm. Qed.
Lemma keeps_uof {A} (x : cres A) : keeps_key_u (uof x).
Proof. intros c a c' t. unfold uof. destruct x; [| done]. by intros [= _ -> _]. Qed.

Ltac keeps_u :=
  repeat first
    [ progress intros
    | apply keeps_uof
    | apply keeps_ubind
    | apply keeps_ulift; solve [keeps]
    | case_match ].

Lemma keeps_handle_packet sock ep buf n ec : keeps_key_u (nc_client_connection_handle_packet sock ep buf n ec).
Proof.
  unfold nc_client_connection_handle_packet. keeps_u.
  apply keeps_ulift, keeps_hmod. intros c. goal_if; by destruct c.
Qed.
Lemma keeps_handle_data ch sq b : keeps_key_u (nc_client_connection_handle_data ch sq b).
Proof.
  unfold nc_client_connection_handle_data, handle_application_data, switch_channel, nc_client_connection_event_listener_notify,
    nc_client_connection_handle_keep_alive, nc_client_connection_keep_alive_send_response. keeps_u.
Qed.

Lemma table_at_slot_u {A} i (m : uhandler _ _ A) d a d' t :
  keeps_key_u m -> at_slot_u i m d = Def (a, d', t) ->
  table d' = table d /\ dev_connectionRef d' = dev_connectionRef d.
Proof.
  intros Hm. unfold at_slot_u. destruct (m _) as [[[a1 c] t1] |] eqn:E; [| done].
  intros [= _ <- _]. split; [| by destruct d]. apply table_set_conn. by apply (Hm _ _ _ _ E).
Qed.

(** Taking one connection out of the table, or putting a new one in a free slot. *)
Lemma table_ok_remove counter t i : table_ok counter t -> table_ok counter (<[i := None]> t).
Proof.
  intros [Hl Hu Hr]. split.
  - by rewrite length_insert.
  - intros a b k k' Ha Hb Hab. apply list_lookup_insert_Some in Ha, Hb.
    destruct Ha as [(_ & ? & _) | [_ Ha]], Hb as [(_ & ? & _) | [_ Hb]]; try done. by apply (Hu a b).
  - intros a k Ha. apply list_lookup_insert_Some in Ha as [(_ & ? & _) | [_ Ha]]; [done | by apply (Hr a)].
Qed.

Lemma table_ok_add counter t i id :
  table_ok counter t -> (i < NABTO_MAX_CLIENT_CONNECTIONS)%nat ->
  (forall j k, t !! j = Some (Some k) -> k.1 <> id) ->
  table_ok (counter + 1) (<[i := Some (id, counter + 1)]> t).
Proof.
  intros [Hl Hu Hr] Hi Hid. split.
  - by rewrite length_insert.
  - intros a b k k' Ha Hb Hab. apply list_lookup_insert_Some in Ha, Hb.
    destruct Ha as [(-> & [= <-] & _) | [? Ha]], Hb as [(-> & [= <-] & _) | [? Hb]];
      [done | | | by apply (Hu a b)]; cbn.
    + pose proof (Hr _ _ Hb). split; [apply not_eq_sym; eauto | lia].
    + pose proof (Hr _ _ Ha). split; [eauto | lia].
  - intros a k Ha. apply list_lookup_insert_Some in Ha as [(_ & [= <-] & _) | [_ Ha]]; cbn; [lia |].
    specialize (Hr _ _ Ha). lia.
Qed.

Lemma table_ok_mono c c' t : c <= c' -> table_ok c t -> table_ok c' t.
Proof. intros Hc [Hl Hu Hr]. split; [done | done |]. intros i k Hi. specialize (Hr _ _ Hi). lia. Qed.

Lemma table_length d : length (table d) = length (d_elms d).
Proof. unfold table. apply length_map. Qed.

Lemma length_set_elm i e d : length (d_elms (set_elm i e d)) = length (d_elms d).
Proof. destruct d. cbn. apply length_insert. Qed.

Lemma exec_close_connection i d :
  exec (nc_client_connection_dispatch_close_connection i) d = set_active i false d.
Proof.
  unfold nc_client_connection_dispatch_close_connection, nc_client_connection_dispatch_try_close.
  unfold exec, hbind, hwhen, hmod, hget, hret, hskip, emit. cbn. by repeat (goal_if; cbn).
Qed.

(** Two writes of the same slot that leave it inactive. *)
Lemma table_clear i d :
  table (set_conn i zero_conn (set_active i false d)) = <[i := None]> (table d).
Proof.
  destruct (decide (i < length (d_elms d))%nat) as [Hi | Hi].
  2: { unfold set_conn, set_active. by rewrite !table_set_elm, !list_insert_ge
         by (rewrite ?length_insert, table_length; lia). }
  unfold set_conn. rewrite table_set_elm. unfold set_active at 1.
  rewrite get_set_elm by done. cbn [el_active]. unfold set_active. rewrite table_set_elm. cbn [el_active].
  apply list_insert_insert_eq.
Qed.

Lemma table_destroy i d :
  table (exec (nc_client_connection_destroy_connection i) d) = <[i := None]> (table d) /\
  dev_connectionRef (exec (nc_client_connection_destroy_connection i) d) = dev_connectionRef d.
Proof.
  unfold nc_client_connection_destroy_connection. rewrite !exec_seq.
  rewrite exec_close_connection.
  set (d1 := exec (at_slot i _) d). set (d2 := exec (at_slot i _) d1).
  change (table (set_conn i zero_conn (set_active i false d2)) = <[i := None]> (table d) /\
    dev_connectionRef d2 = dev_connectionRef d).
  rewrite table_clear. unfold d2, d1. rewrite !counter_at_slot, !table_at_slot; [done | |].
  - unfold nc_client_connection_event_listener_notify. keeps.
  - apply keeps_ka.
Qed.

Lemma close_slots_table slots : forall d,
  table (exec (close_slots slots) d) = table d /\
  dev_connectionRef (exec (close_slots slots) d) = dev_connectionRef d.
Proof.
  induction slots as [| i slots IH]; intros d; [done |]. cbn [close_slots]. rewrite !exec_seq.
  destruct (IH (exec (hwhen (el_active (get_elm d i)) (at_slot i nc_client_connection_close_connection)) d)) as [E1 E2].
  unfold hget, result in *. cbn in *. rewrite E1, E2. unfold hwhen. goal_if; [| done].
  by rewrite table_at_slot, counter_at_slot by (apply keeps_emit).
Qed.

Lemma set_conn_twice i c c' d :
  (i < length (d_elms d))%nat -> set_conn i c (set_conn i c' d) = set_conn i c d.
Proof.
  intros Hi. unfold set_conn. rewrite get_set_elm by done. destruct d. unfold set_elm. cbn.
  by rewrite list_insert_insert_eq.
Qed.

Lemma get_set_conn i c d :
  (i < length (d_elms d))%nat -> el_conn (get_elm (set_conn i c d) i) = c.
Proof. intros Hi. unfold set_conn. by rewrite get_set_elm. Qed.

Lemma at_slot_eq {A} i (m : cc_handler A) d :
  at_slot i m d = (result m (el_conn (get_elm d i)), set_conn i (exec m (el_conn (get_elm d i))) d,
                   map (pair i) (trace m (el_conn (get_elm d i)))).
Proof. unfold at_slot, result, exec, trace. by destruct (m _) as [[??]?]. Qed.

Lemma next_ref_small ref :
  0 <= ref -> ref + 1 < 2 ^ 64 -> nc_device_next_connection_ref ref = (Some (ref + 1), ref + 1).
Proof.
  intros H1 H2. unfold nc_device_next_connection_ref. rewrite u64_small by (unfold is_uint; lia).
  by rewrite (proj2 (Z.ltb_ge _ _)) by lia.
Qed.

(** Whatever the answers, [open] only fills its slot and takes the next reference. *)
Lemma open_effect i sock ep buf n oa d ec d' t :
  (i < length (d_elms d))%nat -> 0 <= dev_connectionRef d -> dev_connectionRef d + 1 < 2 ^ 64 ->
  nc_client_connection_open i sock ep buf n oa d = Def (ec, d', t) ->
  exists c, conn_key c = (take 14 (drop 1 buf), dev_connectionRef d + 1) /\
    d' = set_conn i c (d {{ dev_connectionRef := dev_connectionRef d + 1 }}).
Proof.
  intros Hi Hr0 Hr. unfold nc_client_connection_open. unfold ubind at 1, uof at 1.
  destruct (rd buf 15) as [ch |]; [| done].
  set (c0 := zero_conn {{ cc_id := take 16 buf; cc_currentChannel := mk_channel sock ep ch;
                          cc_alternativeChannel := mk_channel sock ep ch }}).
  unfold ubind at 1, ulift at 1, hmod at 1. unfold ubind at 1, ulift at 1, hget.
  replace (dev_connectionRef (set_conn i c0 d)) with (dev_connectionRef d) by by destruct d.
  rewrite next_ref_small by done. unfold ubind at 1, ulift at 1, hmod at 1.
  set (d1 := d {{ dev_connectionRef := dev_connectionRef d + 1 }}).
  replace ((set_conn i c0 d) {{ dev_connectionRef := dev_connectionRef d + 1 }})
    with (set_conn i c0 d1) by by destruct d.
  assert (Hi1 : (i < length (d_elms d1))%nat) by by destruct d.
  unfold ubind at 1, ulift at 1. rewrite at_slot_eq, get_set_conn, set_conn_twice by done.
  unfold exec, hmod. cbn [fst snd].
  unfold ubind at 1, ulift at 1. rewrite at_slot_eq, get_set_conn, set_conn_twice by done.
  set (c2 := exec _ _). intros E. exists c2. split.
  - unfold c2. rewrite (keeps_ka (nc_keep_alive_init (oa_keep_alive oa))). 
    transitivity (take 14 (drop 1 (take 16 buf)), dev_connectionRef d + 1); [done |].
    by rewrite !take_drop_commute, take_take.
  - revert E. unfold ubind, ulift, uof, hret, emit. repeat goal_if; try (intros [= _ <- _]; done).
    destruct (strip_header buf n); [| done]. by intros [= _ <- _].
Qed.

Lemma first_slot_spec p d i :
  first_slot p d = Some i -> (i < length (d_elms d))%nat /\ p (get_elm d i) = true.
Proof.
  unfold first_slot, get_elm. rewrite fmap_Some. intros ([j e] & Hf & ->). cbn.
  apply list_find_Some in Hf as (Hj & Hp & _). rewrite Hj. split; [by eapply lookup_lt_Some | done].
Qed.

Lemma first_slot_none p d i e :
  first_slot p d = None -> d_elms d !! i = Some e -> p e = false.
Proof.
  unfold first_slot. rewrite fmap_None. intros Hf Hi. apply list_find_None in Hf.
  rewrite Forall_lookup in Hf. specialize (Hf i e Hi). by destruct (p e).
Qed.

(** No active connection has the id of the packet. *)
Lemma no_match_ids buf d :
  first_slot (fun e => el_active e && same_id buf (el_conn e)) d = None ->
  forall j k, table d !! j = Some (Some k) -> k.1 <> take 14 (drop 1 buf).
Proof.
  intros Hf j k. unfold table. rewrite list_lookup_fmap. destruct (d_elms d !! j) as [e |] eqn:Ej; [| done].
  pose proof (first_slot_none _ _ _ _ Hf Ej) as Hp. cbv beta in Hp. cbn. intros [= Hk].
  destruct (el_active e); [| done]. injection Hk as <-.
  unfold same_id in Hp. cbn in *. apply bool_decide_eq_false in Hp. congruence.
Qed.

(** The invariant of the table. *)
Definition disp_inv (n : Z) (d : nc_client_connection_dispatch_context) : Prop :=
  table_ok (dev_connectionRef d) (table d) /\ 0 <= dev_connectionRef d <= n.

Lemma disp_inv_same n d d' :
  disp_inv n d -> table d' = table d /\ dev_connectionRef d' = dev_connectionRef d -> disp_inv (n + 1) d'.
Proof. intros [Ht Hr] [E1 E2]. unfold disp_inv. rewrite E1, E2. split; [done | lia]. Qed.

Lemma dispatch_packet_inv n sock ep buf sz h oa d d' t :
  disp_inv n d -> n + 1 < 2 ^ 64 ->
  nc_client_connection_dispatch_handle_packet sock ep buf sz h oa d = Def (tt, d', t) ->
  disp_inv (n + 1) d'.
Proof.
  intros [Ht Hr] Hn. unfold nc_client_connection_dispatch_handle_packet. unfold ubind at 1, ulift at 1, hget.
  pose proof (tk_len _ _ Ht) as Hlen. rewrite table_length in Hlen.
  destruct (first_slot _ d) as [i |] eqn:Em.
  - unfold ubind. destruct (at_slot_u i _ d) as [[[a d1] t1] |] eqn:Ea; [| done].
    intros [= <- _]. apply (disp_inv_same n d); [by split |].
    eapply table_at_slot_u; [apply keeps_handle_packet | exact Ea].
  - assert (Hskip : forall t', Def (tt, d, t') = Def (tt, d', t) -> disp_inv (n + 1) d').
    { intros t' [= <- _]. apply (disp_inv_same n d); [by split | done]. }
    unfold ubind at 1, uof. destruct (rd buf 16) as [b16 |]; [| done].
    goal_if; [| apply Hskip]. destruct (first_slot (fun e => negb (el_active e)) d) as [i |] eqn:Ef; [| apply Hskip].
    destruct (first_slot_spec _ _ _ Ef) as [Hi Hact%negb_true_iff].
    unfold ubind. destruct (nc_client_connection_open i sock ep buf sz oa d) as [[[ec d1] t1] |] eqn:Eo; [| done].
    destruct (open_effect _ _ _ _ _ _ _ _ _ _ Hi (proj1 Hr) ltac:(lia) Eo) as (c & Hk & ->).
    set (d2 := d {{ dev_connectionRef := dev_connectionRef d + 1 }}) in *.
    assert (Hg : get_elm d2 i = get_elm d i) by by destruct d.
    assert (Htab : table d2 = table d) by by destruct d.
    assert (Href : dev_connectionRef d2 = dev_connectionRef d + 1) by by destruct d.
    assert (Hi2 : (i < length (d_elms d2))%nat) by by destruct d.
    goal_if; intros [= <- _]; unfold disp_inv.
    + replace (dev_connectionRef (set_conn i c d2)) with (dev_connectionRef d + 1) by by destruct d.
      split; [| lia]. unfold set_conn. rewrite table_set_elm, Htab, Hg, Hact. cbn [el_active].
      apply table_ok_remove. apply (table_ok_mono (dev_connectionRef d)); [lia | done].
    + replace (dev_connectionRef (set_active i true (set_conn i c d2))) with (dev_connectionRef d + 1) by by destruct d.
      split; [| lia]. unfold set_active. rewrite table_set_elm, get_set_conn by done.
      unfold set_conn. rewrite table_set_elm, Htab, list_insert_insert_eq. cbn [el_active el_conn]. rewrite Hk.
      apply table_ok_add; [done | lia |]. by apply no_match_ids.
Qed.

(** An input whose handler keeps the key of the connection in its slot. *)
Lemma at_slot_inv {A} n i (m : cc_handler A) d :
  disp_inv n d -> keeps_key m -> disp_inv (n + 1) (exec (at_slot i m) d).
Proof.
  intros Hinv Hm. apply (disp_inv_same n d); [done |]. by rewrite table_at_slot, counter_at_slot.
Qed.

Lemma destroy_inv n i d :
  disp_inv n d -> disp_inv (n + 1) (exec (nc_client_connection_destroy_connection i) d).
Proof.
  intros [Ht Hr]. destruct (table_destroy i d) as [E1 E2]. unfold disp_inv.
  rewrite E1, E2. split; [by apply table_ok_remove | lia].
Qed.

Lemma async_close_inv n d :
  disp_inv n d -> disp_inv (n + 1) (exec nc_client_connection_dispatch_async_close d).
Proof.
  intros Hinv. apply (disp_inv_same n d); [done |].
  unfold nc_client_connection_dispatch_async_close. rewrite exec_hmod, exec_hget, exec_seq.
  set (d1 := d {{ d_closing := true }}).
  destruct (close_slots_table (seq 0 NABTO_MAX_CLIENT_CONNECTIONS) d1) as [E1 E2].
  set (d2 := exec (close_slots _) d1) in *.
  assert (E3 : table d1 = table d) by by destruct d.
  assert (E4 : dev_connectionRef d1 = dev_connectionRef d) by by destruct d.
  rewrite <- E3, <- E4, <- E1, <- E2. goal_if; [done |]. by destruct d2.
Qed.

Lemma ulift_step {A} (m : d_handler A) d d' a t : ulift m d = Def (a, d', t) -> d' = exec m d.
Proof. unfold ulift, exec. by intros [= ->]. Qed.

Lemma exec_seq_skip {S E A} (m : handler S E A) s : exec (hbind m (fun _ => hskip)) s = exec m s.
Proof. by rewrite exec_seq. Qed.

Lemma cc_step_inv n inp d d' t :
  disp_inv n d -> n + 1 < 2 ^ 64 -> cc_step inp d = Def (tt, d', t) -> disp_inv (n + 1) d'.
Proof.
  intros Hinv Hn. destruct inp; cbn [cc_step]; [by apply dispatch_packet_inv | ..];
    try (intros ->%ulift_step; rewrite ?exec_seq_skip).
  - destruct event; cbn; [by apply destroy_inv | apply at_slot_inv; [done | apply keeps_handshake]].
  - intros E. apply (disp_inv_same n d); [done |].
    eapply table_at_slot_u; [apply keeps_handle_data | exact E].
  - apply at_slot_inv; [done | apply keeps_send_to_udp].
  - apply at_slot_inv; [done | apply keeps_sent].
  - apply at_slot_inv; [done | apply keeps_ka_event].
  - apply at_slot_inv; [done | apply keeps_ka_sent].
  - by apply async_close_inv.
Qed.

Lemma reachable_inv n d : cc_reachable n d -> n < 2 ^ 64 -> disp_inv n d.
Proof.
  induction 1 as [| n d inp d' t Hr IH Hs]; intros Hn.
  - assert (Hnone : forall i k, table cc_initial !! i = Some (Some k) -> False).
    { intros i k Hi. change (table cc_initial) with (replicate NABTO_MAX_CLIENT_CONNECTIONS (@None (list Z * Z))) in Hi.
      by apply lookup_replicate in Hi as [? _]. }
    split; [split; [done | |] | cbn; lia]; intros; exfalso; eauto.
  - eapply cc_step_inv; [apply IH; lia | done | exact Hs].
Qed.

(** ** Theorems *)

(** The slots with an active connection. *)
Definition active (d : nc_client_connection_dispatch_context) (i : nat) : Prop :=
  (i < length (d_elms d))%nat /\ el_active (get_elm d i) = true.

Lemma active_table d i : active d i -> table d !! i = Some (Some (conn_key (el_conn (get_elm d i)))).
Proof. intros [Hi Ha]. by rewrite table_get, Ha. Qed.

Lemma first_slot_unique p d i :
  (i < length (d_elms d))%nat -> p (get_elm d i) = true ->
  (forall j, (j < length (d_elms d))%nat -> p (get_elm d j) = true -> j = i) ->
  first_slot p d = Some i.
Proof.
  intros Hi Hp Hu. destruct (first_slot p d) as [j |] eqn:E.
  - apply first_slot_spec in E as [Hj Hpj]. f_equal. by apply Hu.
  - destruct (lookup_lt_is_Some_2 _ _ Hi) as [e He].
    pose proof (first_slot_none _ _ _ _ E He) as Hn. unfold get_elm in Hp. rewrite He in Hp. cbn in Hp. congruence.
Qed.

(** C26. The connection table: after any inputs (less than [2^64] of them) two active
    connections have different packet ids and different references, and looking a
    connection up by its reference finds it and no other. *)
Theorem connection_table_unique n d i :
  cc_reachable n d -> n < 2 ^ 64 -> active d i ->
  (forall j, active d j -> i <> j ->
     take 14 (drop 1 (cc_id (el_conn (get_elm d i)))) <> take 14 (drop 1 (cc_id (el_conn (get_elm d j)))) /\
     cc_connectionRef (el_conn (get_elm d i)) <> cc_connectionRef (el_conn (get_elm d j))) /\
  nc_client_connection_dispatch_connection_from_ref (cc_connectionRef (el_conn (get_elm d i))) d = Some i.
Proof.
  intros Hr Hn Hi. destruct (reachable_inv n d Hr Hn) as [[_ Hu _] _].
  pose proof (active_table d i Hi) as Ti. split.
  - intros j Hj Hij. by apply (Hu i j _ _ Ti (active_table d j Hj)).
  - apply first_slot_unique; [by destruct Hi | destruct Hi as [_ ->]; apply Z.eqb_refl |].
    intros j Hj [Haj Hrj%Z.eqb_eq]%andb_true_iff. destruct (decide (i = j)) as [| Hij]; [done |].
    destruct (Hu i j _ _ Ti (active_table d j (conj Hj Haj)) Hij) as [_ Hne]. cbn in Hne. congruence.
Qed.

(** A client hello for a new connection, and the table after it. *)
Definition demo_packet (id : Z) : list Z := 240 :: replicate 14 id ++ [1; 22; 7; 8].
Definition demo_ok : open_answers := mk_answers NABTO_EC_OK NABTO_EC_OK NABTO_EC_OK NABTO_EC_OK.
Definition demo_hello : cc_input := InPacket 3 zero_ep (demo_packet 5) 19 NABTO_EC_OK demo_ok.
Definition demo_table : nc_client_connection_dispatch_context :=
  match cc_step demo_hello cc_initial with Def (_, d, _) => d | UB => cc_initial end.

Lemma demo_table_reachable : cc_reachable 1 demo_table.
Proof. eapply (CR_step 0 cc_initial demo_hello demo_table _ CR_init). reflexivity. Qed.

Lemma connection_table_unique_witness :
  (forall j, active demo_table j -> 0%nat <> j ->
     take 14 (drop 1 (cc_id (el_conn (get_elm demo_table 0)))) <> take 14 (drop 1 (cc_id (el_conn (get_elm demo_table j)))) /\
     cc_connectionRef (el_conn (get_elm demo_table 0)) <> cc_connectionRef (el_conn (get_elm demo_table j))) /\
  nc_client_connection_dispatch_connection_from_ref (cc_connectionRef (el_conn (get_elm demo_table 0))) demo_table = Some 0%nat.
Proof.
  apply (connection_table_unique 1 demo_table 0).
  - apply demo_table_reachable.
  - lia.
  - split; [vm_compute; lia | reflexivity].
Defined.

(** The packet is a rendezvous request of a client. *)
Definition is_rendezvous (buf : list Z) (bufferSize : nat) : bool :=
  (17 <=? bufferSize)%nat && ((default 0 (buf !! 0%nat) =? NABTO_PROTOCOL_PREFIX_RENDEZVOUS) &&
    (default 0 (buf !! 16%nat) =? CT_RENDEZVOUS_CLIENT_REQUEST)).

Lemma rd_some buf i : (i < length buf)%nat -> rd buf i = Def (default 0 (buf !! i)).
Proof. intros Hi. unfold rd. by destruct (lookup_lt_is_Some_2 _ _ Hi) as [x ->]. Qed.

(** What a connection does with one of its packets. *)
Lemma handle_packet_eq sock ep buf sz ec c :
  (17 <= length buf)%nat ->
  nc_client_connection_handle_packet sock ep buf sz ec c =
    if is_rendezvous buf sz then
      Def (NABTO_EC_OK, c, [CcRendezvousRequest ep (take 14 (drop 1 (cc_id c)))])
    else if (16 <=? sz)%nat then
      let ch := default 0 (buf !! 15%nat) in
      Def (ec, if ch =? ch_channelId (cc_currentChannel c)
               then c {{ cc_currentChannel := mk_channel sock ep ch }}
               else c {{ cc_alternativeChannel := mk_channel sock ep ch }},
           [CcDtlsHandlePacket ch (take (sz - 16) (drop 16 buf))])
    else UB.
Proof.
  intros Hl. unfold nc_client_connection_handle_packet, is_rendezvous, ubind, uof, ulift.
  rewrite !rd_some by lia. destruct (Nat.leb_spec 17 sz) as [H17 | H17]; cbn [andb].
  - destruct (_ && _); [done |]. unfold strip_header.
    rewrite (proj2 (Nat.ltb_ge sz 16)), (proj2 (Nat.leb_le 16 sz)) by lia. done.
  - unfold strip_header. destruct (Nat.ltb_spec sz 16), (Nat.leb_spec 16 sz); try lia; done.
Qed.

(** The slot that the first loop of the dispatch finds for a packet of connection [i]. *)
Lemma owner_slot n d i buf :
  cc_reachable n d -> n < 2 ^ 64 -> active d i -> same_id buf (el_conn (get_elm d i)) = true ->
  first_slot (fun e => el_active e && same_id buf (el_conn e)) d = Some i.
Proof.
  intros Hr Hn Hi Hid. destruct (reachable_inv n d Hr Hn) as [[_ Hu _] _].
  apply first_slot_unique; [by destruct Hi | destruct Hi as [_ ->]; done |].
  intros j Hj [Haj Hidj]%andb_true_iff. destruct (decide (i = j)) as [| Hij]; [done |]. exfalso.
  destruct (Hu i j _ _ (active_table d i Hi) (active_table d j (conj Hj Haj)) Hij) as [Hne _].
  unfold same_id in *. rewrite bool_decide_eq_true in *. cbn in Hne. congruence.
Qed.

(** Delivery: a packet with the id of an active connection reaches exactly that
    connection, whatever the order of the table: DTLS gets the bytes after the 16 byte
    header with the channel of byte 15, a rendezvous request is answered instead, and no
    other slot changes. *)
Lemma packet_delivery n d i sock ep buf sz h oa :
  cc_reachable n d -> n < 2 ^ 64 -> active d i ->
  take 14 (drop 1 buf) = take 14 (drop 1 (cc_id (el_conn (get_elm d i)))) ->
  (17 <= length buf)%nat -> (16 <= sz)%nat ->
  exists d', nc_client_connection_dispatch_handle_packet sock ep buf sz h oa d =
    Def (tt, d',
         [(i, if is_rendezvous buf sz
              then CcRendezvousRequest ep (take 14 (drop 1 (cc_id (el_conn (get_elm d i)))))
              else CcDtlsHandlePacket (default 0 (buf !! 15%nat)) (take (sz - 16) (drop 16 buf)))]) /\
    forall j, j <> i -> get_elm d' j = get_elm d j.
Proof.
  intros Hr Hn Hi Hid Hl Hsz. unfold nc_client_connection_dispatch_handle_packet.
  unfold ubind at 1, ulift at 1, hget.
  rewrite (owner_slot n d i) by (done || by apply bool_decide_eq_true).
  unfold ubind, at_slot_u. rewrite handle_packet_eq by done. rewrite (proj2 (Nat.leb_le 16 sz)) by done.
  destruct (is_rendezvous buf sz); eexists; (split; [done |]); intros j Hj;
    unfold set_conn; by rewrite get_set_elm_ne.
Qed.

Lemma packet_delivery_witness :
  exists d', nc_client_connection_dispatch_handle_packet 4 zero_ep (demo_packet 5) 19 NABTO_EC_OK demo_ok demo_table =
    Def (tt, d', [(0%nat, CcDtlsHandlePacket 1 [22; 7; 8])]) /\
    forall j, j <> 0%nat -> get_elm d' j = get_elm demo_table j.
Proof.
  apply (packet_delivery 1 demo_table 0 4 zero_ep (demo_packet 5) 19 NABTO_EC_OK demo_ok).
  - apply demo_table_reachable.
  - lia.
  - split; [vm_compute; lia | reflexivity].
  - reflexivity.
  - vm_compute; lia.
  - lia.
Defined.

(** Packets shorter than the header: a packet with the id of an active connection is
    handled without undefined behaviour exactly when it has at least 16 bytes. Below that the
    length of the [memmove] in nc_client_connection_handle_packet is negative. *)
Lemma short_packet_undefined n d i sock ep buf sz h oa :
  cc_reachable n d -> n < 2 ^ 64 -> active d i ->
  take 14 (drop 1 buf) = take 14 (drop 1 (cc_id (el_conn (get_elm d i)))) ->
  (17 <= length buf)%nat ->
  is_def (nc_client_connection_dispatch_handle_packet sock ep buf sz h oa d) = (16 <=? sz)%nat.
Proof.
  intros Hr Hn Hi Hid Hl. unfold nc_client_connection_dispatch_handle_packet.
  unfold ubind at 1, ulift at 1, hget.
  rewrite (owner_slot n d i) by (done || by apply bool_decide_eq_true).
  unfold ubind, at_slot_u. rewrite handle_packet_eq by done. unfold is_rendezvous.
  destruct (Nat.leb_spec 17 sz) as [H17 | H17]; cbn [andb].
  - rewrite (proj2 (Nat.leb_le 16 sz)) by lia. by destruct (_ && _).
  - by destruct (Nat.leb_spec 16 sz).
Qed.

Lemma short_packet_undefined_witness :
  is_def (nc_client_connection_dispatch_handle_packet 4 zero_ep (demo_packet 5) 15 NABTO_EC_OK demo_ok demo_table) = false.
Proof.
  apply (short_packet_undefined 1 demo_table 0 4 zero_ep (demo_packet 5) 15 NABTO_EC_OK demo_ok).
  - apply demo_table_reachable.
  - lia.
  - split; [vm_compute; lia | reflexivity].
  - reflexivity.
  - vm_compute; lia.
Defined.

Lemma switch_channel_spec ch sq c :
  let c' := exec (switch_channel ch sq) c in
  cc_currentChannel c' =
    (if (cc_currentMaxSequence c <? sq) && negb (ch_channelId (cc_currentChannel c) =? ch) &&
        (ch_channelId (cc_alternativeChannel c) =? ch)
     then cc_alternativeChannel c else cc_currentChannel c) /\
  cc_currentMaxSequence c' = Z.max (cc_currentMaxSequence c) sq.
Proof.
  unfold switch_channel. rewrite exec_hget. destruct (Z.ltb_spec (cc_currentMaxSequence c) sq).
  - rewrite exec_hmod, <- andb_assoc. cbn [andb]. goal_if.
    + rewrite exec_hmod. destruct c. hsimpl. split; [done | lia].
    + destruct c. hsimpl. split; [done | lia].
  - hsimpl. split; [done | lia].
Qed.

Lemma handle_keep_alive_channel ch buffer c :
  let c' := exec (nc_client_connection_handle_keep_alive ch buffer) c in
  cc_currentChannel c' = cc_currentChannel c /\ cc_currentMaxSequence c' = cc_currentMaxSequence c.
Proof.
  unfold nc_client_connection_handle_keep_alive, nc_client_connection_keep_alive_send_response.
  repeat goal_if; try done. rewrite exec_hget.
  destruct (nc_keep_alive_handle_request _ _ _) as [[[b n] |] ka]; [| done].
  rewrite exec_hmod. by destruct c.
Qed.

(** Channel switching: application data moves the connection to another channel exactly
    when it is not a keep alive, its DTLS sequence number is larger than all before, and it
    came on the known alternative channel; otherwise the channel used for sending stays. *)
Lemma channel_switch_iff c ch sq b buffer :
  exists c' t, nc_client_connection_handle_data ch sq (b :: buffer) c = Def (tt, c', t) /\
  cc_currentChannel c' =
    (if negb (b =? AT_KEEP_ALIVE) && ((cc_currentMaxSequence c <? sq) &&
        negb (ch_channelId (cc_currentChannel c) =? ch) &&
        (ch_channelId (cc_alternativeChannel c) =? ch))
     then cc_alternativeChannel c else cc_currentChannel c) /\
  cc_currentMaxSequence c' =
    (if b =? AT_KEEP_ALIVE then cc_currentMaxSequence c else Z.max (cc_currentMaxSequence c) sq).
Proof.
  unfold nc_client_connection_handle_data. set (m := handle_application_data b ch sq (b :: buffer)).
  exists (exec m c), (trace m c). split.
  { unfold ubind, uof, ulift, exec, trace. cbn [rd lookup list_lookup]. fold m. by destruct (m c) as [[[] ?] ?]. }
  unfold m, handle_application_data. rewrite exec_seq. destruct (Z.eqb_spec b AT_KEEP_ALIVE) as [-> |]; cbn [negb andb].
  - apply handle_keep_alive_channel.
  - rewrite <- (proj1 (switch_channel_spec ch sq c)), <- (proj2 (switch_channel_spec ch sq c)).
    by repeat goal_if.
Qed.


