(* ===== verification/Attacher.v ===== *)
(** * Attaching to the basestation (nc_attacher.c, nc_attacher_attach_start.c,
      nc_attacher_attach_end.c, nc_attacher_sct.c, nc_coap.c)

    The attacher resolves the basestation, connects with DTLS, performs the CoAP requests
    attach-start, sct and attach-end, follows redirects, and retries after failures. Each
    callback of the platform (DNS, DTLS, CoAP, timers) is a handler; the calls to other
    components are its trace. *)

From S2P Require Import Prelude Platform Packet Collections KeepAlive Cbor.
From stdpp Require Import sets.

#[local] Open Scope Z_scope.
#[local] Open Scope handler_scope.

Definition ACCESS_DENIED_WAIT_TIME : Z := 3600000.
Definition RETRY_WAIT_TIME : Z := 10000.
Definition MAX_REDIRECT_FOLLOW : Z := 5.
Definition NC_ATTACHER_MAX_ENDPOINTS : nat := 4.
Definition NC_ATTACHER_MAX_IPS : nat := 4.
Definition DNS_SIZE : nat := 256.

Inductive nc_attacher_attach_state : Type :=
| NC_ATTACHER_STATE_DNS
| NC_ATTACHER_STATE_DTLS_ATTACH_REQUEST
| NC_ATTACHER_STATE_RETRY_WAIT
| NC_ATTACHER_STATE_ACCESS_DENIED_WAIT
| NC_ATTACHER_STATE_REDIRECT
| NC_ATTACHER_STATE_ATTACHED
| NC_ATTACHER_STATE_CLOSED.

Inductive nc_attacher_module_state : Type :=
| NC_ATTACHER_MODULE_SETUP
| NC_ATTACHER_MODULE_RUNNING
| NC_ATTACHER_MODULE_CLOSED.

Inductive nc_attacher_status : Type :=
| NC_ATTACHER_STATUS_ATTACHED
| NC_ATTACHER_STATUS_REDIRECT
| NC_ATTACHER_STATUS_ERROR.

Inductive nc_device_event : Type :=
| NC_DEVICE_EVENT_ATTACHED
| NC_DEVICE_EVENT_DETACHED
| NC_DEVICE_EVENT_CLOSED.

Inductive np_dtls_cli_event : Type :=
| NP_DTLS_CLI_EVENT_CLOSED
| NP_DTLS_CLI_EVENT_HANDSHAKE_COMPLETE
| NP_DTLS_CLI_EVENT_ACCESS_DENIED.

#[global] Instance attach_state_eq : EqDecision nc_attacher_attach_state.
Proof. solve_decision. Defined.
#[global] Instance module_state_eq : EqDecision nc_attacher_module_state.
Proof. solve_decision. Defined.
#[global] Instance device_event_eq : EqDecision nc_device_event.
Proof. solve_decision. Defined.

(** The comparisons the code makes on its states. *)
Definition is_setup (m : nc_attacher_module_state) : bool :=
  match m with NC_ATTACHER_MODULE_SETUP => true | _ => false end.
Definition is_closing (m : nc_attacher_module_state) : bool :=
  match m with NC_ATTACHER_MODULE_CLOSED => true | _ => false end.
Definition is_attached (s : nc_attacher_attach_state) : bool :=
  match s with NC_ATTACHER_STATE_ATTACHED => true | _ => false end.
Definition is_dns (s : nc_attacher_attach_state) : bool :=
  match s with NC_ATTACHER_STATE_DNS => true | _ => false end.

(** The continuation of an SCT upload: [send_attach_sct_request_callback] during an attach,
    [send_sct_request_callback] afterwards. *)
Inductive sct_continuation : Type := SctDuringAttach | SctAfterAttach.

(** CoAP requests to the basestation. *)
Inductive attach_request : Type := ReqAttachStart | ReqSct | ReqAttachEnd.

Inductive at_call : Type :=
| AtDnsResolve (host : list Z)
| AtDtlsSetSni (host : list Z)
| AtDtlsConnect
| AtDtlsClose
| AtDtlsReset
| AtDtlsHandlePacket (packet : list Z)
| AtDtlsSend (packet : list Z)
| AtDtlsDestroy
| AtCoapRemoveConnection
| AtCoapRequest (r : attach_request) (payload : list cbor_token)
| AtCoapRequestFree
| AtCoapPacket (packet : list Z)
| AtPostReattachTimer (ms : Z)
| AtCancelReattachTimer
| AtPostCloseEvent
| AtCancelCloseEvent
| AtDestroyEvents
| AtClosedCallback
| AtNotify (event : nc_device_event)
| AtUdpSend (ep : np_udp_endpoint) (packet : list Z)
| AtSenderCallback (cb : nat) (ec : np_error_code)
| AtSetUdpContext
| AtClearUdpContext
| AtKeepAlive (c : ka_call).

(** ** nc_coap.c *)

Inductive nabto_coap_error : Type :=
| NABTO_COAP_ERROR_OK
| NABTO_COAP_ERROR_OUT_OF_MEMORY
| NABTO_COAP_ERROR_NO_CONNECTION
| NABTO_COAP_ERROR_INVALID_PARAMETER
| NABTO_COAP_ERROR_OTHER.

Definition nc_coap_error_to_core (ec : nabto_coap_error) : np_error_code :=
  match ec with
  | NABTO_COAP_ERROR_OK => NABTO_EC_OK
  | NABTO_COAP_ERROR_OUT_OF_MEMORY => NABTO_EC_OUT_OF_MEMORY
  | NABTO_COAP_ERROR_NO_CONNECTION => NABTO_EC_ABORTED
  | NABTO_COAP_ERROR_INVALID_PARAMETER => NABTO_EC_INVALID_ARGUMENT
  | NABTO_COAP_ERROR_OTHER => NABTO_EC_UNKNOWN
  end.

Definition nc_coap_is_status_ok (code : Z) : bool := (200 <=? code) && (code <? 300).

(** Answers of the allocations and of the CoAP client for one request. *)
Record request_answers : Type := mk_ra {
  ra_malloc : bool;
  ra_new : bool;
  ra_payload : nabto_coap_error
}.

(** What a CoAP client response holds, when there is one. *)
Record coap_response : Type := mk_resp {
  resp_code : Z;
  resp_payload : option (list Z)
}.

(** The version string of the SDK ([nc_version()], a file the build generates). *)
Class NcVersion : Type := nc_version : list Z.

Section Attacher.
Context {T : Type} `{StringSet T} `{NcVersion}.

Record nc_attacher_sct_context : Type := mk_sct {
  scts : T;
  sct_version : Z;
  sct_synchronizedVersion : Z;
  sct_uploadingVersion : Z;
  sct_callback : option sct_continuation
}.

Record nc_attach_context : Type := mk_at {
  at_appName : list Z;
  at_appVersion : list Z;
  at_productId : list Z;
  at_deviceId : list Z;
  at_hostname : list Z;         (* without the terminating NUL *)
  at_defaultPort : Z;
  at_udp : bool;                (* udp != NULL *)
  at_state : nc_attacher_attach_state;
  at_moduleState : nc_attacher_module_state;
  (* initialPacket *)
  ip_buffer : list Z;
  ip_cb : nat;
  ip_endpointsIndex : nat;
  ip_endpointsSize : nat;
  ip_endpoints : list np_udp_endpoint;
  at_activeEp : np_udp_endpoint;
  at_hasActiveEp : bool;
  at_currentPort : Z;
  at_dns : list Z;              (* the 256 bytes of dns *)
  at_redirectAttempts : Z;
  at_startCallback : bool;      (* startCallback != NULL *)
  at_endCallback : bool;
  at_request : bool;            (* request != NULL *)
  at_stunHost : list Z;
  at_stunPort : Z;
  at_keepAlive : nc_keep_alive_context;
  at_closedCb : bool;
  at_retryWaitTime : Z;
  at_accessDeniedWaitTime : Z;
  at_sct : nc_attacher_sct_context
}.

Definition at_handler (A : Type) : Type := handler nc_attach_context at_call A.
Definition at_uhandler (A : Type) : Type := uhandler nc_attach_context at_call A.

Definition at_keep_alive {A} (m : ka_handler A) : at_handler A := fun ctx =>
  let '(a, ka, t) := m (at_keepAlive ctx) in
  (a, ctx {{ at_keepAlive := ka }}, map AtKeepAlive t).

Definition set_state (s : nc_attacher_attach_state) : at_handler unit :=
  hmod (fun ctx => ctx {{ at_state := s }}).

(** ** State changes *)

Definition dns_start_resolve : at_handler unit :=
  let* ctx := hget in emit (AtDnsResolve (cstr (at_dns ctx))).

Definition handle_state_change : at_handler unit :=
  let* ctx := hget in
  match at_state ctx with
  | NC_ATTACHER_STATE_DNS => dns_start_resolve
  | NC_ATTACHER_STATE_CLOSED => emit AtPostCloseEvent
  | NC_ATTACHER_STATE_REDIRECT => hskip
  | NC_ATTACHER_STATE_RETRY_WAIT => emit (AtPostReattachTimer (at_retryWaitTime ctx))
  | NC_ATTACHER_STATE_ACCESS_DENIED_WAIT => emit (AtPostReattachTimer (at_accessDeniedWaitTime ctx))
  | NC_ATTACHER_STATE_DTLS_ATTACH_REQUEST =>
      emit (AtDtlsSetSni (at_hostname ctx)) ;;; emit AtDtlsConnect
  | NC_ATTACHER_STATE_ATTACHED => hskip
  end.

Definition do_close : at_handler unit :=
  let* ctx := hget in
  if is_setup (at_moduleState ctx) then emit AtPostCloseEvent
  else
    hmod (fun ctx => ctx {{ at_moduleState := NC_ATTACHER_MODULE_CLOSED }}) ;;;
    match at_state ctx with
    | NC_ATTACHER_STATE_RETRY_WAIT
    | NC_ATTACHER_STATE_ACCESS_DENIED_WAIT =>
        emit AtCancelReattachTimer ;;;
        set_state NC_ATTACHER_STATE_CLOSED ;;;
        handle_state_change
    | NC_ATTACHER_STATE_CLOSED => emit AtPostCloseEvent
    | NC_ATTACHER_STATE_DTLS_ATTACH_REQUEST
    | NC_ATTACHER_STATE_ATTACHED => emit AtDtlsClose
    | NC_ATTACHER_STATE_DNS
    | NC_ATTACHER_STATE_REDIRECT => hskip
    end.

Definition resolve_close : at_handler unit :=
  emit AtCancelReattachTimer ;;;
  emit AtCancelCloseEvent ;;;
  let* ctx := hget in
  if at_closedCb ctx then
    hmod (fun ctx => ctx {{ at_closedCb := false }}) ;;; emit AtClosedCallback
  else hskip.

(** [memcpy(ctx->dns, ctx->hostname, strlen(ctx->hostname)+1)]. *)
Definition copy_hostname (ctx : nc_attach_context) : cres (list Z) :=
  if (length (at_hostname ctx) + 1 <=? length (at_dns ctx))%nat
  then Def (memcpy (at_dns ctx) 0 (at_hostname ctx ++ [0])) else UB.

(** The [for] loop of [dns_resolved_callback] over the resolved addresses. *)
Definition add_endpoint (port : Z) (ctx : nc_attach_context) (ip : np_ip_address) : nc_attach_context :=
  if (ip_endpointsIndex ctx <? NC_ATTACHER_MAX_ENDPOINTS)%nat then
    ctx {{ ip_endpoints ::= insert (ip_endpointsSize ctx) (mk_ep ip port);
           ip_endpointsSize ::= S }}
  else ctx.

(** [ips] are the first [resolvedIpsSize] entries of [resolvedIps]. *)
Definition dns_resolved_callback (ec : np_error_code) (ips : list np_ip_address) : at_handler unit :=
  let* ctx := hget in
  if is_closing (at_moduleState ctx) then
    set_state NC_ATTACHER_STATE_CLOSED ;;; handle_state_change
  else if is_error ec then
    set_state NC_ATTACHER_STATE_RETRY_WAIT ;;; handle_state_change
  else
    hmod (fun ctx => ctx {{ ip_endpointsSize := 0%nat; ip_endpointsIndex := 0%nat }}) ;;;
    hmod (fun ctx => fold_left (add_endpoint (at_currentPort ctx)) ips ctx) ;;;
    hmod (fun ctx => ctx {{ at_hasActiveEp := false }}) ;;;
    set_state NC_ATTACHER_STATE_DTLS_ATTACH_REQUEST ;;;
    handle_state_change.

Definition reattach : at_uhandler unit :=
  let+ ctx := ulift hget in
  if is_closing (at_moduleState ctx) then
    ulift (set_state NC_ATTACHER_STATE_CLOSED ;;; handle_state_change)
  else
    let+ dns := uof (copy_hostname ctx) in
    ulift (hmod (fun ctx => ctx {{ at_dns := dns;
                                   at_currentPort := at_defaultPort ctx;
                                   at_state := NC_ATTACHER_STATE_DNS;
                                   at_redirectAttempts := 0 }}) ;;;
           handle_state_change).

(** ** DTLS *)

Definition coap_attach_failed : at_handler unit := emit AtDtlsClose.

Definition handle_dtls_closed : at_handler unit :=
  emit AtCoapRemoveConnection ;;;
  emit AtDtlsReset ;;;
  let* ctx := hget in
  match at_state ctx with
  | NC_ATTACHER_STATE_DTLS_ATTACH_REQUEST =>
      set_state NC_ATTACHER_STATE_RETRY_WAIT ;;; handle_state_change
  | NC_ATTACHER_STATE_ATTACHED =>
      emit (AtNotify NC_DEVICE_EVENT_DETACHED) ;;;
      set_state NC_ATTACHER_STATE_RETRY_WAIT ;;; handle_state_change
  | NC_ATTACHER_STATE_REDIRECT =>
      set_state (if MAX_REDIRECT_FOLLOW <=? at_redirectAttempts ctx
                 then NC_ATTACHER_STATE_RETRY_WAIT else NC_ATTACHER_STATE_DNS) ;;;
      handle_state_change
  | NC_ATTACHER_STATE_ACCESS_DENIED_WAIT => hskip
  | NC_ATTACHER_STATE_DNS
  | NC_ATTACHER_STATE_RETRY_WAIT
  | NC_ATTACHER_STATE_CLOSED =>
      set_state NC_ATTACHER_STATE_RETRY_WAIT ;;; handle_state_change
  end.

Definition handle_dtls_access_denied : at_handler unit :=
  emit AtCoapRemoveConnection ;;;
  emit AtDtlsReset ;;;
  let* ctx := hget in
  (if at_request ctx
   then emit AtCoapRequestFree ;;; hmod (fun ctx => ctx {{ at_request := false }})
   else hskip) ;;;
  set_state NC_ATTACHER_STATE_ACCESS_DENIED_WAIT ;;;
  handle_state_change.

(** ** The attach-start request *)

Definition encode_cbor_request (ctx : nc_attach_context) : list cbor_token :=
  [TokMap;
   TokText (ascii_codes "NabtoVersion"); TokText nc_version;
   TokText (ascii_codes "AppName"); TokText (at_appName ctx);
   TokText (ascii_codes "AppVersion"); TokText (at_appVersion ctx);
   TokText (ascii_codes "ProductId"); TokText (at_productId ctx);
   TokText (ascii_codes "DeviceId"); TokText (at_deviceId ctx);
   TokClose].

Definition nc_attacher_attach_start_request (ra : request_answers) : at_handler np_error_code :=
  let* ctx := hget in
  if at_startCallback ctx then hret NABTO_EC_OPERATION_IN_PROGRESS
  else if negb (ra_malloc ra) then hret NABTO_EC_OUT_OF_MEMORY
  else if negb (ra_new ra) then hret NABTO_EC_OUT_OF_MEMORY
  else
    match ra_payload ra with
    | NABTO_COAP_ERROR_OK =>
        hmod (fun ctx => ctx {{ at_startCallback := true }}) ;;;
        emit (AtCoapRequest ReqAttachStart (encode_cbor_request ctx)) ;;;
        hret NABTO_EC_OPERATION_STARTED
    | err => emit AtCoapRequestFree ;;; hret (nc_coap_error_to_core err)
    end.

Definition send_attach_start_request (ra : request_answers) : at_handler unit :=
  let* ec := nc_attacher_attach_start_request ra in
  if negb (ec_eqb ec NABTO_EC_OPERATION_STARTED) then coap_attach_failed else hskip.

(** [alpn]: whether [get_alpn_protocol] answers a protocol. *)
Definition handle_dtls_connected (alpn : bool) (ra : request_answers) : at_handler unit :=
  if negb alpn then emit AtDtlsClose else send_attach_start_request ra.

Definition dtls_event_handler (event : np_dtls_cli_event) (alpn : bool) (ra : request_answers) :
    at_handler unit :=
  let* ctx := hget in
  if is_closing (at_moduleState ctx) then
    match event with
    | NP_DTLS_CLI_EVENT_HANDSHAKE_COMPLETE => emit AtDtlsClose
    | _ => set_state NC_ATTACHER_STATE_CLOSED ;;; handle_state_change
    end
  else
    match event with
    | NP_DTLS_CLI_EVENT_HANDSHAKE_COMPLETE => handle_dtls_connected alpn ra
    | NP_DTLS_CLI_EVENT_CLOSED => at_keep_alive nc_keep_alive_reset ;;; handle_dtls_closed
    | NP_DTLS_CLI_EVENT_ACCESS_DENIED => at_keep_alive nc_keep_alive_reset ;;; handle_dtls_access_denied
    end.

(** ** The attach-end request *)

Definition nc_attacher_attach_end_request (ra : request_answers) : at_handler np_error_code :=
  let* ctx := hget in
  if at_endCallback ctx then hret NABTO_EC_OPERATION_IN_PROGRESS
  else if negb (ra_new ra) then hret NABTO_EC_OUT_OF_MEMORY
  else
    hmod (fun ctx => ctx {{ at_endCallback := true }}) ;;;
    emit (AtCoapRequest ReqAttachEnd []) ;;;
    hret NABTO_EC_OPERATION_STARTED.

Definition send_attach_end_request (ra : request_answers) : at_handler unit :=
  let* ec := nc_attacher_attach_end_request ra in
  if negb (ec_eqb ec NABTO_EC_OPERATION_STARTED) then coap_attach_failed else hskip.

(** ** Server connect tokens *)

Definition encode_scts (s : T) : list cbor_token :=
  [TokArray] ++ map (fun str => TokText (ascii_codes str)) (ss_elements s) ++ [TokClose].

Definition set_sct (f : nc_attacher_sct_context -> nc_attacher_sct_context) : at_handler unit :=
  hmod (fun ctx => ctx {{ at_sct ::= f }}).

Definition nc_attacher_sct_upload (cb : sct_continuation) (ra : request_answers) :
    at_handler np_error_code :=
  let* ctx := hget in
  let sct := at_sct ctx in
  if sct_version sct =? sct_synchronizedVersion sct then hret NABTO_EC_NO_OPERATION
  else
    match sct_callback sct with
    | Some _ => hret NABTO_EC_OPERATION_IN_PROGRESS
    | None =>
        if negb (ra_malloc ra) then hret NABTO_EC_OUT_OF_MEMORY
        else if negb (ra_new ra) then hret NABTO_EC_OUT_OF_MEMORY
        else
          match ra_payload ra with
          | NABTO_COAP_ERROR_OK =>
              set_sct (fun s => s {{ sct_callback := Some cb;
                                     sct_uploadingVersion := sct_version s }}) ;;;
              emit (AtCoapRequest ReqSct (encode_scts (scts sct))) ;;;
              hret NABTO_EC_OPERATION_STARTED
          | err => emit AtCoapRequestFree ;;; hret (nc_coap_error_to_core err)
          end
    end.

Definition send_attach_sct_request (ra_sct ra_end : request_answers) : at_handler unit :=
  let* ec := nc_attacher_sct_upload SctDuringAttach ra_sct in
  if ec_eqb ec NABTO_EC_NO_OPERATION then send_attach_end_request ra_end
  else if ec_eqb ec NABTO_EC_OPERATION_STARTED then hskip
  else coap_attach_failed.

Definition send_sct_request (ra : request_answers) : at_handler unit :=
  let* _ := nc_attacher_sct_upload SctAfterAttach ra in hskip.

Definition send_attach_sct_request_callback (ec : np_error_code) (ra_end : request_answers) :
    at_handler unit :=
  let* ctx := hget in
  if is_closing (at_moduleState ctx) then coap_attach_failed
  else if is_error ec then coap_attach_failed
  else send_attach_end_request ra_end.

Definition send_sct_request_callback (ec : np_error_code) (ra : request_answers) : at_handler unit :=
  if is_error ec then hskip else send_sct_request ra.

(** [sct_request_handler] with the code of the response. *)
Definition sct_request_handler (resCode : Z) (ra : request_answers) : at_handler unit :=
  let* ctx := hget in
  let cb := sct_callback (at_sct ctx) in
  let status := if nc_coap_is_status_ok resCode then NABTO_EC_OK else NABTO_EC_UNKNOWN in
  (if nc_coap_is_status_ok resCode
   then set_sct (fun s => s {{ sct_synchronizedVersion := sct_uploadingVersion s }}) else hskip) ;;;
  emit AtCoapRequestFree ;;;
  set_sct (fun s => s {{ sct_callback := None }}) ;;;
  match cb with
  | Some SctDuringAttach => send_attach_sct_request_callback status ra
  | Some SctAfterAttach => send_sct_request_callback status ra
  | None => hskip
  end.

Definition nc_attacher_add_server_connect_token (token : string) (ra : request_answers) :
    at_handler np_error_code :=
  set_sct (fun s => s {{ sct_version ::= fun v => u64 (v + 1) }}) ;;;
  let* ctx := hget in
  let '(inserted, s) := ss_insert (scts (at_sct ctx)) token in
  set_sct (fun c => c {{ scts := s }}) ;;;
  if negb inserted then hret NABTO_EC_OUT_OF_MEMORY
  else
    (if is_attached (at_state ctx) then send_sct_request ra else hskip) ;;;
    hret NABTO_EC_OK.

Definition nc_attacher_is_server_connect_tokens_synchronized (ctx : nc_attach_context) : np_error_code :=
  if is_attached (at_state ctx) then
    if sct_synchronizedVersion (at_sct ctx) =? sct_version (at_sct ctx)
    then NABTO_EC_OK else NABTO_EC_OPERATION_IN_PROGRESS
  else NABTO_EC_OK.

(** ** Responses *)

Section Responses.
Context {V : Type} `{CborDec V}.

(** [handle_attached]: keep-alive settings (the 64-bit values are passed as [uint32_t]). *)
Definition attached_keep_alive (root : V) (ctx : nc_attach_context) : cres nc_attach_context :=
  let keepAlive := cv_find root "KeepAlive" in
  if cv_is_map keepAlive then
    let interval := cv_find keepAlive "Interval" in
    let retryInterval := cv_find keepAlive "RetryInterval" in
    let maxRetries := cv_find keepAlive "MaxRetries" in
    if cv_is_unsigned_integer interval && cv_is_unsigned_integer retryInterval &&
       cv_is_unsigned_integer maxRetries then
      cres_bind (nc_keep_alive_set_settings (at_keepAlive ctx) (u32 (cv_uint64 interval))
                   (u32 (cv_uint64 retryInterval)) (u32 (cv_uint64 maxRetries)))
        (fun ka => Def (ctx {{ at_keepAlive := ka }}))
    else Def ctx
  else Def ctx.

(** [handle_attached]: the STUN host and port. *)
Definition attached_stun (root : V) (ctx : nc_attach_context) : nc_attach_context :=
  let stun := cv_find root "Stun" in
  if cv_is_map stun then
    let host := cv_find stun "Host" in
    let port := cv_find stun "Port" in
    if cv_is_text_string host && cv_is_unsigned_integer port then
      match cv_string_length host with
      | Some stringLength =>
          if (DNS_SIZE - 1 <? stringLength)%nat then ctx
          else ctx {{ at_stunHost := memcpy (replicate DNS_SIZE 0) 0 (cv_string host);
                      at_stunPort := u16 (cv_uint64 port) }}
      | None => ctx
      end
    else ctx
  else ctx.

Definition handle_attached (root : V) : at_uhandler nc_attacher_status :=
  let+ ctx := ulift hget in
  let+ ctx1 := uof (attached_keep_alive root ctx) in
  ulift (hmod (fun _ => attached_stun root ctx1) ;;; hret NC_ATTACHER_STATUS_ATTACHED).

(** [handle_redirect]: the host is copied into [dns] with its own length as the size of the
    buffer, so that no terminating NUL is written. *)
Definition handle_redirect (root : V) : at_handler nc_attacher_status :=
  let host := cv_find root "Host" in
  let port := cv_find root "Port" in
  let fingerprint := cv_find root "Fingerprint" in
  if cv_is_text_string host && cv_is_unsigned_integer port && cv_is_byte_string fingerprint then
    let hostLength := length (cv_string host) in
    if (hostLength <? 1)%nat || (256 <? hostLength)%nat then hret NC_ATTACHER_STATUS_ERROR
    else
      hmod (fun ctx => ctx {{ at_dns := memcpy (at_dns ctx) 0 (cv_string host);
                              at_currentPort := u16 (cv_uint64 port) }}) ;;;
      hret NC_ATTACHER_STATUS_REDIRECT
  else hret NC_ATTACHER_STATUS_ERROR.

Definition coap_attach_start_handle_response (response : option coap_response) :
    at_uhandler nc_attacher_status :=
  match response with
  | None => ulift (hret NC_ATTACHER_STATUS_ERROR)
  | Some res =>
      if negb (nc_coap_is_status_ok (resp_code res)) then ulift (hret NC_ATTACHER_STATUS_ERROR)
      else
        match resp_payload res with
        | None => ulift (hret NC_ATTACHER_STATUS_ERROR)
        | Some payload =>
            let root := cv_parse payload in
            if negb (cv_is_map root) then ulift (hret NC_ATTACHER_STATUS_ERROR)
            else
              let status := cv_find root "Status" in
              if negb (cv_is_unsigned_integer status) then ulift (hret NC_ATTACHER_STATUS_ERROR)
              else if cv_uint64 status =? ATTACH_STATUS_ATTACHED then handle_attached root
              else if cv_uint64 status =? ATTACH_STATUS_REDIRECT then ulift (handle_redirect root)
              else ulift (hret NC_ATTACHER_STATUS_ERROR)
        end
  end.

(** [redirectAttempts] is a [uint8_t]. *)
Definition coap_attach_start_callback (status : nc_attacher_status) (ra_sct ra_end : request_answers) :
    at_handler unit :=
  let* ctx := hget in
  if is_closing (at_moduleState ctx) then coap_attach_failed
  else
    match status with
    | NC_ATTACHER_STATUS_ATTACHED => send_attach_sct_request ra_sct ra_end
    | NC_ATTACHER_STATUS_REDIRECT =>
        hmod (fun ctx => ctx {{ at_state := NC_ATTACHER_STATE_REDIRECT;
                                at_redirectAttempts ::= fun n => u8 (n + 1) }}) ;;;
        emit AtDtlsClose
    | NC_ATTACHER_STATUS_ERROR => coap_attach_failed
    end.

Definition coap_attach_start_handler (response : option coap_response) (ra_sct ra_end : request_answers) :
    at_uhandler unit :=
  let+ result := coap_attach_start_handle_response response in
  ulift (emit AtCoapRequestFree ;;;
         hmod (fun ctx => ctx {{ at_startCallback := false }}) ;;;
         coap_attach_start_callback result ra_sct ra_end).
End Responses.

(** [coap_attach_end_handler] of nc_attacher.c, the callback of the request. *)
Definition attach_end_callback (ec : np_error_code) (ra_sct : request_answers) : at_handler unit :=
  let* ctx := hget in
  if is_error ec then coap_attach_failed
  else if is_closing (at_moduleState ctx) then coap_attach_failed
  else
    at_keep_alive nc_keep_alive_wait ;;;
    set_state NC_ATTACHER_STATE_ATTACHED ;;;
    handle_state_change ;;;
    emit (AtNotify NC_DEVICE_EVENT_ATTACHED) ;;;
    send_sct_request ra_sct.

(** [coap_attach_end_handler] of nc_attacher_attach_end.c. *)
Definition coap_attach_end_handler (response : option coap_response) (ra_sct : request_answers) :
    at_handler unit :=
  let status := match response with
                | None => NABTO_EC_UNKNOWN
                | Some res => if negb (nc_coap_is_status_ok (resp_code res))
                              then NABTO_EC_UNKNOWN else NABTO_EC_OK
                end in
  emit AtCoapRequestFree ;;;
  hmod (fun ctx => ctx {{ at_endCallback := false }}) ;;;
  attach_end_callback status ra_sct.

(** ** Packets *)

Definition nc_attacher_handle_dtls_packet (ep : np_udp_endpoint) (packet : list Z) : at_handler unit :=
  hmod (fun ctx => if negb (at_hasActiveEp ctx)
                   then ctx {{ at_activeEp := ep; at_hasActiveEp := true }} else ctx) ;;;
  emit (AtDtlsHandlePacket packet).

Definition send_initial_packet : at_handler unit :=
  let* ctx := hget in
  if (ip_endpointsSize ctx <=? ip_endpointsIndex ctx)%nat then
    emit (AtSenderCallback (ip_cb ctx) NABTO_EC_OK)
  else
    emit (AtUdpSend (default zero_ep (ip_endpoints ctx !! ip_endpointsIndex ctx)) (ip_buffer ctx)) ;;;
    hmod (fun ctx => ctx {{ ip_endpointsIndex ::= S }}).

Definition start_send_initial_packet (buffer : list Z) (cb : nat) : at_handler unit :=
  hmod (fun ctx => ctx {{ ip_cb := cb; ip_buffer := buffer; ip_endpointsIndex := 0%nat }}) ;;;
  send_initial_packet.

Definition initial_packet_sent (ec : np_error_code) : at_handler unit := send_initial_packet.

(** [cb] is the callback of the DTLS client for the packet; when there is an active endpoint
    the socket calls it itself. *)
Definition dtls_packet_sender (buffer : list Z) (cb : nat) : at_handler np_error_code :=
  let* ctx := hget in
  (if negb (at_hasActiveEp ctx) then start_send_initial_packet buffer cb
   else emit (AtUdpSend (at_activeEp ctx) buffer)) ;;;
  hret NABTO_EC_OK.

Definition at_keep_alive_send_response (buffer : list Z) : at_handler unit :=
  let* ctx := hget in
  let '(resp, ka) := nc_keep_alive_handle_request (at_keepAlive ctx) buffer (length buffer) in
  match resp with
  | Some (b, n) => hmod (fun ctx => ctx {{ at_keepAlive := ka }}) ;;; emit (AtDtlsSend (take n b))
  | None => hskip
  end.

Definition handle_keep_alive_data (buffer : list Z) : at_handler unit :=
  if (length buffer <? 2)%nat then hskip
  else if default 0 (buffer !! 1%nat) =? CT_KEEP_ALIVE_REQUEST then at_keep_alive_send_response buffer
  else hskip.

Definition dtls_data_handler (buffer : list Z) : at_handler unit :=
  match buffer with
  | [] => hskip
  | applicationType :: _ =>
      if (AT_COAP_START <=? applicationType) && (applicationType <=? AT_COAP_END)
      then emit (AtCoapPacket buffer)
      else if applicationType =? AT_KEEP_ALIVE then handle_keep_alive_data buffer
      else hskip
  end.

Definition at_keep_alive_send_req : at_handler unit :=
  let* ctx := hget in
  let '((b, n), ka) := nc_keep_alive_create_request (at_keepAlive ctx) in
  hmod (fun ctx => ctx {{ at_keepAlive := ka }}) ;;; emit (AtDtlsSend (take n b)).

Definition at_keep_alive_event (recvCount sentCount : Z) : at_handler unit :=
  let* ctx := hget in
  let '(action, ka) := nc_keep_alive_should_send (at_keepAlive ctx) recvCount sentCount in
  hmod (fun ctx => ctx {{ at_keepAlive := ka }}) ;;;
  match action with
  | DO_NOTHING => at_keep_alive nc_keep_alive_wait
  | SEND_KA => at_keep_alive_send_req ;;; at_keep_alive nc_keep_alive_wait
  | KA_TIMEOUT => emit AtDtlsClose
  end.

(** ** API *)

Definition zero_attacher : nc_attach_context :=
  mk_at [] [] [] [] [] 0 false NC_ATTACHER_STATE_DNS NC_ATTACHER_MODULE_SETUP
    [] 0 0 0 (replicate NC_ATTACHER_MAX_ENDPOINTS zero_ep) zero_ep false 0
    (replicate DNS_SIZE 0) 0 false false false (replicate DNS_SIZE 0) 0
    (mk_ka 0 0 0 0 0 0 0 false (replicate 18 0)) false 0 0
    (mk_sct ss_empty 0 0 0 None).

(** [answers]: of creating the two events, the DTLS client, the keep-alive event and the two
    completion events, in this order; the first error ends the initialization. *)
Fixpoint first_error (answers : list np_error_code) : np_error_code :=
  match answers with
  | [] => NABTO_EC_OK
  | ec :: rest => if is_error ec then ec else first_error rest
  end.

Definition nc_attacher_init (events dtls keepAlive completions : list np_error_code) :
    at_handler np_error_code :=
  hmod (fun _ => zero_attacher {{ at_retryWaitTime := RETRY_WAIT_TIME;
                                  at_accessDeniedWaitTime := ACCESS_DENIED_WAIT_TIME }}) ;;;
  if is_error (first_error (events ++ dtls)) then hret (first_error (events ++ dtls))
  else
    let* ec := at_keep_alive (nc_keep_alive_init (first_error keepAlive)) in
    if is_error ec then hret ec else hret (first_error completions).

Definition nc_attacher_deinit : at_handler unit :=
  hmod (fun ctx => ctx {{ at_moduleState := NC_ATTACHER_MODULE_CLOSED }}) ;;;
  let* ctx := hget in
  (if is_dns (at_state ctx) then do_close else hskip) ;;;
  at_keep_alive nc_keep_alive_deinit ;;;
  (if at_udp ctx then emit AtClearUdpContext else hskip) ;;;
  emit AtDtlsDestroy ;;;
  (if at_request ctx then emit AtCoapRequestFree else hskip) ;;;
  emit AtDestroyEvents.

Definition in_setup (m : at_handler unit) : at_handler np_error_code :=
  let* ctx := hget in
  if negb (is_setup (at_moduleState ctx)) then hret NABTO_EC_INVALID_STATE
  else m ;;; hret NABTO_EC_OK.

Definition nc_attacher_set_app_info (appName appVersion : list Z) : at_handler np_error_code :=
  in_setup (hmod (fun ctx => ctx {{ at_appName := appName; at_appVersion := appVersion }})).

Definition nc_attacher_set_device_info (productId deviceId : list Z) : at_handler np_error_code :=
  in_setup (hmod (fun ctx => ctx {{ at_productId := productId; at_deviceId := deviceId }})).

Definition nc_attacher_start (hostname : list Z) (serverPort : Z) : at_uhandler np_error_code :=
  let+ ctx := ulift hget in
  if negb (is_setup (at_moduleState ctx))
  then ulift (hret NABTO_EC_INVALID_STATE)
  else
    let+ _ := ulift (hmod (fun ctx => ctx {{ at_udp := true;
                                             at_state := NC_ATTACHER_STATE_DNS;
                                             at_moduleState := NC_ATTACHER_MODULE_RUNNING;
                                             at_hostname := hostname;
                                             at_defaultPort := serverPort;
                                             at_currentPort := serverPort }})) in
    let+ ctx := ulift hget in
    let+ dns := uof (copy_hostname ctx) in
    ulift (hmod (fun ctx => ctx {{ at_dns := dns }}) ;;;
           emit AtSetUdpContext ;;;
           handle_state_change ;;;
           hret NABTO_EC_OK).

Definition nc_attacher_async_close : at_handler np_error_code :=
  hmod (fun ctx => ctx {{ at_closedCb := true }}) ;;; do_close ;;; hret NABTO_EC_OK.

Definition nc_attacher_stop : at_handler np_error_code :=
  at_keep_alive nc_keep_alive_stop ;;; do_close ;;; hret NABTO_EC_OK.

(** ** The attacher in its environment *)

Inductive dtls_phase : Type := DtlsIdle | DtlsActive | DtlsClosing.

(** What the other components owe the attacher: a DNS answer, the reattach timer, the close
    event, events of the DTLS client. *)
Record at_env : Type := mk_env {
  e_dns : bool;
  e_timer : bool;
  e_closeEv : bool;
  e_dtls : dtls_phase
}.

(** Closing an idle DTLS client does nothing. *)
Definition env_call (e : at_env) (c : at_call) : at_env :=
  match c with
  | AtDnsResolve _ => e {{ e_dns := true }}
  | AtDtlsConnect => e {{ e_dtls := DtlsActive }}
  | AtDtlsClose => e {{ e_dtls ::= fun p => match p with DtlsIdle => DtlsIdle | _ => DtlsClosing end }}
  | AtPostReattachTimer _ => e {{ e_timer := true }}
  | AtCancelReattachTimer => e {{ e_timer := false }}
  | AtPostCloseEvent => e {{ e_closeEv := true }}
  | AtCancelCloseEvent => e {{ e_closeEv := false }}
  | _ => e
  end.

Definition env_calls (e : at_env) (t : list at_call) : at_env := fold_left env_call t e.

Inductive at_input : Type :=
| AiStart (hostname : list Z) (port : Z)
| AiAddToken (token : string) (ra : request_answers)
| AiAsyncClose
| AiStop
| AiDns (ec : np_error_code) (ips : list np_ip_address)
| AiTimer
| AiCloseEvent
| AiDtls (event : np_dtls_cli_event) (alpn : bool) (ra : request_answers)
| AiStartResponse (response : option coap_response) (ra_sct ra_end : request_answers)
| AiSctResponse (code : Z) (ra : request_answers)
| AiEndResponse (response : option coap_response) (ra : request_answers)
| AiDtlsPacket (ep : np_udp_endpoint) (packet : list Z)
| AiDtlsData (buffer : list Z)
| AiDtlsSend (buffer : list Z) (cb : nat)
| AiInitialPacketSent (ec : np_error_code)
| AiKeepAlive (recvCount sentCount : Z).

Section System.
Context {V : Type} `{CborDec V}.

Definition at_step (i : at_input) : at_uhandler unit :=
  match i with
  | AiStart host port => let+ _ := nc_attacher_start host port in ulift hskip
  | AiAddToken token ra => ulift (nc_attacher_add_server_connect_token token ra ;;; hskip)
  | AiAsyncClose => ulift (nc_attacher_async_close ;;; hskip)
  | AiStop => ulift (nc_attacher_stop ;;; hskip)
  | AiDns ec ips => ulift (dns_resolved_callback ec ips)
  | AiTimer => reattach
  | AiCloseEvent => ulift resolve_close
  | AiDtls ev alpn ra => ulift (dtls_event_handler ev alpn ra)
  | AiStartResponse r ra_sct ra_end => coap_attach_start_handler r ra_sct ra_end
  | AiSctResponse code ra => ulift (sct_request_handler code ra)
  | AiEndResponse r ra => ulift (coap_attach_end_handler r ra)
  | AiDtlsPacket ep b => ulift (nc_attacher_handle_dtls_packet ep b)
  | AiDtlsData b => ulift (dtls_data_handler b)
  | AiDtlsSend b cb => ulift (dtls_packet_sender b cb ;;; hskip)
  | AiInitialPacketSent ec => ulift (initial_packet_sent ec)
  | AiKeepAlive r s => ulift (at_keep_alive_event r s)
  end.
End System.

(** When the environment may deliver an input: events that are owed, CoAP responses on an
    open DTLS connection, aborted requests at any time. The device starts the attacher at
    most once and not after it was asked to close. *)
Definition enabled (i : at_input) (ctx : nc_attach_context) (e : at_env) : Prop :=
  match i with
  | AiStart _ _ => e_closeEv e = false /\ at_closedCb ctx = false
  | AiDns _ ips => e_dns e = true
  | AiTimer => e_timer e = true
  | AiCloseEvent => e_closeEv e = true
  | AiDtls NP_DTLS_CLI_EVENT_HANDSHAKE_COMPLETE _ _ => e_dtls e = DtlsActive
  | AiDtls _ _ _ => e_dtls e <> DtlsIdle
  | AiStartResponse (Some _) _ _ => at_startCallback ctx = true /\ e_dtls e = DtlsActive
  | AiStartResponse None _ _ => at_startCallback ctx = true
  | AiSctResponse _ _ => is_Some (sct_callback (at_sct ctx)) /\ e_dtls e = DtlsActive
  | AiEndResponse (Some _) _ => at_endCallback ctx = true /\ e_dtls e = DtlsActive
  | AiEndResponse None _ => at_endCallback ctx = true
  | _ => True
  end.

(** Delivering an event takes it off what is owed. *)
Definition consume (i : at_input) (e : at_env) : at_env :=
  match i with
  | AiDns _ _ => e {{ e_dns := false }}
  | AiTimer => e {{ e_timer := false }}
  | AiCloseEvent => e {{ e_closeEv := false }}
  | AiDtls NP_DTLS_CLI_EVENT_HANDSHAKE_COMPLETE _ _ => e
  | AiDtls _ _ _ => e {{ e_dtls := DtlsIdle }}
  | _ => e
  end.

Definition at_initial : nc_attach_context :=
  exec (nc_attacher_init [] [] [] []) zero_attacher.

Definition env_initial : at_env := mk_env false false false DtlsIdle.

Section Reachability.
Context {V : Type} `{CborDec V}.

Inductive at_reachable : nc_attach_context -> at_env -> Prop :=
| AR_init : at_reachable at_initial env_initial
| AR_step ctx e i ctx' t :
    at_reachable ctx e -> enabled i ctx e -> at_step i ctx = Def (tt, ctx', t) ->
    at_reachable ctx' (env_calls (consume i e) t).
End Reachability.

(** ** The abstract machine *)

(** The calls by which the attacher drives its environment. *)
Inductive drive : Type :=
| DrDns | DrConnect | DrClose | DrTimer | DrCancelTimer | DrPostClose | DrCancelClose
| DrNotify (event : nc_device_event) | DrClosed.

Definition drive_of (c : at_call) : option drive :=
  match c with
  | AtDnsResolve _ => Some DrDns
  | AtDtlsConnect => Some DrConnect
  | AtDtlsClose => Some DrClose
  | AtPostReattachTimer _ => Some DrTimer
  | AtCancelReattachTimer => Some DrCancelTimer
  | AtPostCloseEvent => Some DrPostClose
  | AtCancelCloseEvent => Some DrCancelClose
  | AtNotify ev => Some (DrNotify ev)
  | AtClosedCallback => Some DrClosed
  | _ => None
  end.

Definition drives (t : list at_call) : list drive := omap drive_of t.

(** State, module state, redirects followed, whether a close callback waits. *)
Definition view : Type := nc_attacher_attach_state * nc_attacher_module_state * Z * bool.

Definition at_view (ctx : nc_attach_context) : view :=
  (at_state ctx, at_moduleState ctx, at_redirectAttempts ctx, at_closedCb ctx).

Definition am_close (async : bool) (v : view) : list drive * view :=
  let '(s, m, r, cb) := v in
  let cb := async || cb in
  match m, s with
  | NC_ATTACHER_MODULE_SETUP, _ => ([DrPostClose], (s, m, r, cb))
  | _, NC_ATTACHER_STATE_RETRY_WAIT | _, NC_ATTACHER_STATE_ACCESS_DENIED_WAIT =>
      ([DrCancelTimer; DrPostClose], (NC_ATTACHER_STATE_CLOSED, NC_ATTACHER_MODULE_CLOSED, r, cb))
  | _, NC_ATTACHER_STATE_CLOSED => ([DrPostClose], (s, NC_ATTACHER_MODULE_CLOSED, r, cb))
  | _, NC_ATTACHER_STATE_DTLS_ATTACH_REQUEST | _, NC_ATTACHER_STATE_ATTACHED =>
      ([DrClose], (s, NC_ATTACHER_MODULE_CLOSED, r, cb))
  | _, _ => ([], (s, NC_ATTACHER_MODULE_CLOSED, r, cb))
  end.

Definition am_closed (v : view) : list drive * view :=
  let '(s, m, r, cb) := v in ([DrPostClose], (NC_ATTACHER_STATE_CLOSED, m, r, cb)).

Definition am_dns (failed : bool) (v : view) : list drive * view :=
  let '(s, m, r, cb) := v in
  if is_closing m then am_closed v
  else if failed then ([DrTimer], (NC_ATTACHER_STATE_RETRY_WAIT, m, r, cb))
  else ([DrConnect], (NC_ATTACHER_STATE_DTLS_ATTACH_REQUEST, m, r, cb)).

Definition am_timer (v : view) : list drive * view :=
  let '(s, m, r, cb) := v in
  if is_closing m then am_closed v else ([DrDns], (NC_ATTACHER_STATE_DNS, m, 0, cb)).

Definition am_close_event (v : view) : list drive * view :=
  let '(s, m, r, cb) := v in
  ([DrCancelTimer; DrCancelClose] ++ (if cb then [DrClosed] else []), (s, m, r, false)).

(** The DTLS connection has ended. *)
Definition am_dtls_closed (v : view) : list drive * view :=
  let '(s, m, r, cb) := v in
  if is_closing m then am_closed v
  else match s with
       | NC_ATTACHER_STATE_ATTACHED =>
           ([DrNotify NC_DEVICE_EVENT_DETACHED; DrTimer], (NC_ATTACHER_STATE_RETRY_WAIT, m, r, cb))
       | NC_ATTACHER_STATE_REDIRECT =>
           if MAX_REDIRECT_FOLLOW <=? r then ([DrTimer], (NC_ATTACHER_STATE_RETRY_WAIT, m, r, cb))
           else ([DrDns], (NC_ATTACHER_STATE_DNS, m, r, cb))
       | NC_ATTACHER_STATE_ACCESS_DENIED_WAIT => ([], v)
       | _ => ([DrTimer], (NC_ATTACHER_STATE_RETRY_WAIT, m, r, cb))
       end.

Definition am_access_denied (v : view) : list drive * view :=
  let '(s, m, r, cb) := v in
  if is_closing m then am_closed v else ([DrTimer], (NC_ATTACHER_STATE_ACCESS_DENIED_WAIT, m, r, cb)).

(** Inputs that never change the view on their own: at most they close the connection. *)
Definition minor (i : at_input) : bool :=
  match i with
  | AiStart _ _ | AiAsyncClose | AiStop | AiDns _ _ | AiTimer | AiCloseEvent
  | AiDtls NP_DTLS_CLI_EVENT_CLOSED _ _ | AiDtls NP_DTLS_CLI_EVENT_ACCESS_DENIED _ _ => false
  | _ => true
  end.

(** Which calls and next views the abstract machine allows for an input. *)
Inductive am_step : view -> at_input -> list drive -> view -> Prop :=
| AM_quiet v i n : minor i = true -> am_step v i (replicate n DrClose) v
| AM_start_refused s m r cb host port :
    is_setup m = false -> am_step (s, m, r, cb) (AiStart host port) [] (s, m, r, cb)
| AM_start s r cb host port :
    am_step (s, NC_ATTACHER_MODULE_SETUP, r, cb) (AiStart host port) [DrDns]
      (NC_ATTACHER_STATE_DNS, NC_ATTACHER_MODULE_RUNNING, r, cb)
| AM_async_close v : am_step v AiAsyncClose (am_close true v).1 (am_close true v).2
| AM_stop v : am_step v AiStop (am_close false v).1 (am_close false v).2
| AM_dns v ec ips : am_step v (AiDns ec ips) (am_dns (is_error ec) v).1 (am_dns (is_error ec) v).2
| AM_timer v : am_step v AiTimer (am_timer v).1 (am_timer v).2
| AM_close_event v : am_step v AiCloseEvent (am_close_event v).1 (am_close_event v).2
| AM_dtls_closed v alpn ra :
    am_step v (AiDtls NP_DTLS_CLI_EVENT_CLOSED alpn ra) (am_dtls_closed v).1 (am_dtls_closed v).2
| AM_access_denied v alpn ra :
    am_step v (AiDtls NP_DTLS_CLI_EVENT_ACCESS_DENIED alpn ra) (am_access_denied v).1 (am_access_denied v).2
| AM_redirect s m r cb response a b :
    m <> NC_ATTACHER_MODULE_CLOSED ->
    am_step (s, m, r, cb) (AiStartResponse (Some response) a b) [DrClose]
      (NC_ATTACHER_STATE_REDIRECT, m, u8 (r + 1), cb)
| AM_attached s m r cb response a :
    m <> NC_ATTACHER_MODULE_CLOSED ->
    am_step (s, m, r, cb) (AiEndResponse (Some response) a) [DrNotify NC_DEVICE_EVENT_ATTACHED]
      (NC_ATTACHER_STATE_ATTACHED, m, r, cb).

(** Handlers that leave the view alone and at most close the connection. *)
Definition quiet {A} (m : at_handler A) : Prop :=
  forall ctx, at_view (exec m ctx) = at_view ctx /\
    Forall (fun d => d = DrClose) (drives (trace m ctx)).

(** ** Proofs: the handlers implement the abstract machine *)

Lemma drives_app t t' : drives (t ++ t') = drives t ++ drives t'.
Proof. apply omap_app. Qed.

Lemma quiet_bind {A B} (m : at_handler A) (k : A -> at_handler B) :
  quiet m -> (forall a, quiet (k a)) -> quiet (hbind m k).
Proof.
  intros Hm Hk ctx. rewrite exec_seq, trace_seq, drives_app, Forall_app.
  destruct (Hm ctx) as [E1 E2], (Hk (result m ctx) (exec m ctx)) as [E3 E4]. by rewrite E3, E1.
Qed.
Lemma quiet_hmod f : (forall ctx, at_view (f ctx) = at_view ctx) -> quiet (hmod f).
Proof. intros Hf ctx. split; [apply Hf | constructor]. Qed.
Lemma quiet_emit c : drive_of c = None -> quiet (emit c).
Proof. intros Hc ctx. split; [done |]. unfold trace, drives. cbn. rewrite Hc. constructor. Qed.
Lemma quiet_close : quiet (emit AtDtlsClose).
Proof. intros ctx. split; [done |]. by repeat constructor. Qed.
Lemma quiet_hget : quiet hget.
Proof. intros ctx. split; [done | constructor]. Qed.
Lemma quiet_hret {A} (a : A) : quiet (hret a).
Proof. intros ctx. split; [done | constructor]. Qed.
Lemma quiet_hskip : quiet hskip.
Proof. apply quiet_hret. Qed.
Lemma quiet_ka {A} (m : ka_handler A) : quiet (at_keep_alive m).
Proof.
  intros []. unfold at_keep_alive, exec, trace. destruct (m _) as [[a ka] t]. cbn. split; [done |].
  induction t; [constructor | done].
Qed.

#[local] Hint Resolve quiet_hget quiet_hret quiet_hskip quiet_ka quiet_close : nabto.

Ltac quiet :=
  repeat first
    [ progress intros
    | progress cbv zeta
    | solve [auto with nabto]
    | apply quiet_bind
    | apply quiet_emit; reflexivity
    | apply quiet_hmod; intros []; reflexivity
    | apply quiet_hmod; intros []; by repeat goal_if
    | case_match ].

Lemma quiet_start_request ra : quiet (send_attach_start_request ra).
Proof. unfold send_attach_start_request, nc_attacher_attach_start_request, coap_attach_failed. quiet. Qed.
Lemma quiet_sct_upload cb ra : quiet (nc_attacher_sct_upload cb ra).
Proof. unfold nc_attacher_sct_upload, set_sct. quiet. Qed.
Lemma quiet_end_request ra : quiet (send_attach_end_request ra).
Proof. unfold send_attach_end_request, nc_attacher_attach_end_request, coap_attach_failed. quiet. Qed.
#[local] Hint Resolve quiet_start_request quiet_sct_upload quiet_end_request : nabto.
Lemma quiet_sct_request ra : quiet (send_sct_request ra).
Proof. unfold send_sct_request. quiet. Qed.
#[local] Hint Resolve quiet_sct_request : nabto.
Lemma quiet_attach_sct_request a b : quiet (send_attach_sct_request a b).
Proof. unfold send_attach_sct_request, coap_attach_failed. quiet. Qed.
Lemma quiet_sct_response code ra : quiet (sct_request_handler code ra).
Proof.
  unfold sct_request_handler, send_attach_sct_request_callback, send_sct_request_callback,
    coap_attach_failed, set_sct. quiet.
Qed.
Lemma quiet_add_token token ra : quiet (nc_attacher_add_server_connect_token token ra).
Proof. unfold nc_attacher_add_server_connect_token, set_sct. quiet. Qed.
Lemma quiet_dtls_packet ep b : quiet (nc_attacher_handle_dtls_packet ep b).
Proof. unfold nc_attacher_handle_dtls_packet. quiet. Qed.
Lemma quiet_dtls_data b : quiet (dtls_data_handler b).
Proof. unfold dtls_data_handler, handle_keep_alive_data, at_keep_alive_send_response. quiet. Qed.
Lemma quiet_initial_packet : quiet send_initial_packet.
Proof. unfold send_initial_packet. quiet. Qed.
#[local] Hint Resolve quiet_initial_packet quiet_attach_sct_request : nabto.
Lemma quiet_packet_sender b cb : quiet (dtls_packet_sender b cb).
Proof. unfold dtls_packet_sender, start_send_initial_packet. quiet. Qed.
Lemma quiet_keep_alive_event r s : quiet (at_keep_alive_event r s).
Proof. unfold at_keep_alive_event, at_keep_alive_send_req. quiet. Qed.

(** The view and the calls of a handler. *)
Definition effect {A} (m : at_handler A) (ctx : nc_attach_context) : list drive * view :=
  (drives (trace m ctx), at_view (exec m ctx)).

Lemma effect_quiet {A} (m : at_handler A) ctx i :
  quiet m -> minor i = true -> am_step (at_view ctx) i (effect m ctx).1 (effect m ctx).2.
Proof.
  intros Hq Hi. destruct (Hq ctx) as [E1 E2]. cbn. rewrite E1.
  assert (E : drives (trace m ctx) = replicate (length (drives (trace m ctx))) DrClose)
    by (induction E2 as [| ? ? -> ? IH]; cbn; [done | by f_equal]).
  rewrite E. by constructor.
Qed.

Ltac by_state ctx :=
  destruct ctx as [? ? ? ? ? ? ? s m ? ? ? ? ? ? ? ? ? r ? ? ? ? ? ? cb ? ? ?];
  destruct s, m, cb; try reflexivity.

Lemma async_close_effect ctx : effect nc_attacher_async_close ctx = am_close true (at_view ctx).
Proof. by_state ctx. Qed.

Lemma stop_effect ctx : effect nc_attacher_stop ctx = am_close false (at_view ctx).
Proof. by_state ctx. Qed.

Lemma dns_view ips : forall ctx port,
  at_view (fold_left (add_endpoint port) ips ctx) = at_view ctx.
Proof.
  induction ips as [| ip ips IH]; intros ctx port; [done |]. cbn. rewrite IH.
  unfold add_endpoint. goal_if; by destruct ctx.
Qed.

Lemma dns_effect ec ips ctx :
  effect (dns_resolved_callback ec ips) ctx = am_dns (is_error ec) (at_view ctx).
Proof.
  unfold effect, dns_resolved_callback. rewrite exec_hget, trace_hget.
  destruct (is_closing (at_moduleState ctx)) eqn:Em, (is_error ec); try by (by_state ctx).
  unfold set_state. rewrite !exec_hmod, !trace_hmod.
  set (c1 := ctx {{ ip_endpointsSize := 0%nat; ip_endpointsIndex := 0%nat }}).
  pose proof (dns_view ips c1 (at_currentPort c1)) as Ev.
  replace (at_view c1) with (at_view ctx) in Ev by by destruct ctx.
  rewrite <- Ev. replace (at_moduleState ctx) with (at_moduleState (fold_left (add_endpoint (at_currentPort c1)) ips c1)) in Em
    by (unfold at_view in Ev; congruence).
  generalize dependent (fold_left (add_endpoint (at_currentPort c1)) ips c1). intros c2 ? ?. by_state c2; done.
Qed.

Lemma resolve_close_effect ctx : effect resolve_close ctx = am_close_event (at_view ctx).
Proof. by_state ctx. Qed.

Lemma dtls_closed_effect alpn ra ctx :
  effect (dtls_event_handler NP_DTLS_CLI_EVENT_CLOSED alpn ra) ctx = am_dtls_closed (at_view ctx).
Proof.
  by_state ctx; unfold effect, exec, trace, dtls_event_handler, handle_dtls_closed, set_state,
    handle_state_change, hbind, hget, hmod, emit; cbn -[Z.leb MAX_REDIRECT_FOLLOW]; by destruct (MAX_REDIRECT_FOLLOW <=? r).
Qed.

Lemma access_denied_effect alpn ra ctx :
  effect (dtls_event_handler NP_DTLS_CLI_EVENT_ACCESS_DENIED alpn ra) ctx = am_access_denied (at_view ctx).
Proof.
  by_state ctx; unfold effect, exec, trace, dtls_event_handler, handle_dtls_access_denied, set_state,
    handle_state_change, hbind, hget, hmod, emit; cbn; by repeat goal_if.
Qed.

Lemma reattach_effect ctx ctx' t :
  reattach ctx = Def (tt, ctx', t) -> (drives t, at_view ctx') = am_timer (at_view ctx).
Proof.
  unfold reattach. rewrite u_hget. destruct (is_closing (at_moduleState ctx)) eqn:Em.
  - intros [-> ->]%ulift_inv. by_state ctx; done.
  - intros (dns & c2 & t2 & t3 & (_ & -> & ->)%uof_inv & [-> ->]%ulift_inv & ->)%ubind_inv. by_state ctx; done.
Qed.

Lemma start_effect host port ctx a ctx' t :
  nc_attacher_start host port ctx = Def (a, ctx', t) -> am_step (at_view ctx) (AiStart host port) (drives t) (at_view ctx').
Proof.
  unfold nc_attacher_start. rewrite u_hget. destruct (is_setup (at_moduleState ctx)) eqn:Em; cbn [negb].
  2: { intros [-> ->]%ulift_inv. by apply AM_start_refused. }
  rewrite u_hmod, u_hget.
  intros (dns & c2 & t2 & t3 & (_ & -> & ->)%uof_inv & [-> ->]%ulift_inv & ->)%ubind_inv.
  destruct ctx; cbn in Em. destruct at_moduleState0; try done. constructor.
Qed.

Section ResponseProofs.
Context {V : Type} `{CborDec V}.

Lemma keep_alive_view root ctx c1 :
  attached_keep_alive root ctx = Def c1 -> at_view c1 = at_view ctx.
Proof.
  unfold attached_keep_alive. repeat goal_if; try by intros [= <-].
  unfold cres_bind. destruct (nc_keep_alive_set_settings _ _ _ _); [| done].
  intros [= <-]. by destruct ctx.
Qed.

Lemma stun_view root ctx : at_view (attached_stun root ctx) = at_view ctx.
Proof. unfold attached_stun. repeat (goal_if || case_match); by destruct ctx. Qed.

(** Reading a response does not change the view and makes no call. *)
Lemma handle_response_view response ctx st ctx' t :
  coap_attach_start_handle_response response ctx = Def (st, ctx', t) ->
  at_view ctx' = at_view ctx /\ t = [] /\ (response = None -> st = NC_ATTACHER_STATUS_ERROR).
Proof.
  unfold coap_attach_start_handle_response. destruct response as [[code payload] |].
  2: { by intros [= <- <- <-]. }
  cbn. goal_if; [by intros [= <- <- <-] |]. destruct payload as [payload |]; [| by intros [= <- <- <-]].
  repeat goal_if; try by intros [= <- <- <-].
  - unfold handle_attached. rewrite u_hget.
    intros (c1 & c2 & t2 & t3 & (Ek & -> & ->)%uof_inv & [-> ->]%ulift_inv & ->)%ubind_inv.
    split; [| done]. rewrite exec_hmod. cbn. by rewrite stun_view, (keep_alive_view _ _ _ Ek).
  - unfold handle_redirect. intros [-> ->]%ulift_inv. split; [| split; [| done]].
    + by repeat goal_if.
    + by repeat goal_if.
Qed.

Lemma start_response_effect response ra_sct ra_end ctx ctx' t :
  coap_attach_start_handler response ra_sct ra_end ctx = Def (tt, ctx', t) ->
  am_step (at_view ctx) (AiStartResponse response ra_sct ra_end) (drives t) (at_view ctx').
Proof.
  unfold coap_attach_start_handler.
  intros (st & c1 & t1 & t2 & Er & [-> ->]%ulift_inv & ->)%ubind_inv.
  destruct (handle_response_view _ _ _ _ _ Er) as (Ev & -> & Hnone). clear Er. rewrite <- Ev.
  destruct st;
    try (apply effect_quiet; [unfold coap_attach_start_callback, coap_attach_failed; solve [quiet] | done]).
  destruct response as [rs |]; [| by discriminate Hnone].
  destruct (is_closing (at_moduleState c1)) eqn:Em.
  - unfold coap_attach_start_callback, coap_attach_failed. destruct c1; cbn in Em.
    destruct at_moduleState0; try done. by apply (AM_quiet _ _ 1).
  - destruct c1; cbn in Em. destruct at_moduleState0; try done; by constructor.
Qed.
End ResponseProofs.

Lemma end_callback_error ec ra : is_error ec = true -> quiet (attach_end_callback ec ra).
Proof. intros He. unfold attach_end_callback, coap_attach_failed. rewrite He. quiet. Qed.

Lemma sct_upload_silent cb ra ctx : drives (trace (nc_attacher_sct_upload cb ra) ctx) = [].
Proof.
  unfold nc_attacher_sct_upload. rewrite trace_hget. cbv zeta.
  repeat (goal_if || case_match); reflexivity.
Qed.

(** The successful end of an attach: the state changes, then the SCT request. *)
Lemma end_callback_ok ra ctx :
  is_closing (at_moduleState ctx) = false ->
  effect (attach_end_callback NABTO_EC_OK ra) ctx =
    ([DrNotify NC_DEVICE_EVENT_ATTACHED],
     (NC_ATTACHER_STATE_ATTACHED, at_moduleState ctx, at_redirectAttempts ctx, at_closedCb ctx)).
Proof.
  intros Em. unfold effect, attach_end_callback. rewrite exec_hget, trace_hget, Em. cbn [is_error].
  rewrite !exec_seq, !trace_seq, !drives_app.
  destruct (quiet_sct_request ra (exec (emit (AtNotify NC_DEVICE_EVENT_ATTACHED))
    (exec handle_state_change (exec (set_state NC_ATTACHER_STATE_ATTACHED)
      (exec (at_keep_alive nc_keep_alive_wait) ctx))))) as [-> _].
  unfold send_sct_request at 1. rewrite trace_seq, drives_app, sct_upload_silent.
  by destruct ctx.
Qed.

Lemma end_response_effect response ra ctx :
  am_step (at_view ctx) (AiEndResponse response ra)
    (effect (coap_attach_end_handler response ra) ctx).1 (effect (coap_attach_end_handler response ra) ctx).2.
Proof.
  assert (Hquiet : (forall c, quiet (attach_end_callback c ra) -> c = NABTO_EC_UNKNOWN -> quiet
    (emit AtCoapRequestFree ;;; hmod (fun ctx => ctx {{ at_endCallback := false }}) ;;; attach_end_callback c ra)))
    by (intros; repeat apply quiet_bind; auto using quiet_emit; intros; apply quiet_bind;
        [apply quiet_hmod; by intros [] | done]).
  unfold coap_attach_end_handler. destruct response as [res |].
  2: { apply effect_quiet; [apply Hquiet; [by apply end_callback_error | done] | done]. }
  destruct (nc_coap_is_status_ok (resp_code res)) eqn:Er; cbn [negb].
  2: { apply effect_quiet; [apply Hquiet; [by apply end_callback_error | done] | done]. }
  unfold effect. rewrite exec_seq, exec_hmod, trace_seq, trace_hmod, drives_app.
  set (c1 := (exec (emit AtCoapRequestFree) ctx) {{ at_endCallback := false }}).
  replace (at_view ctx) with (at_view c1) by by destruct ctx.
  change (drives (trace (emit AtCoapRequestFree) ctx)) with (@nil drive). cbn [app].
  destruct (is_closing (at_moduleState c1)) eqn:Em.
  - unfold attach_end_callback. rewrite exec_hget, trace_hget, Em. by apply (AM_quiet _ _ 1).
  - pose proof (f_equal fst (end_callback_ok ra c1 Em)) as E1.
    pose proof (f_equal snd (end_callback_ok ra c1 Em)) as E2.
    cbn [fst snd effect] in E1, E2. rewrite E1, E2. constructor. by intros Hm; rewrite Hm in Em.
Qed.

Lemma effect_skip {A} (m : at_handler A) ctx : effect (m ;;; hskip) ctx = effect m ctx.
Proof. unfold effect. rewrite exec_seq, trace_seq, drives_app. by rewrite app_nil_r. Qed.

Section Refinement.
Context {V : Type} `{CborDec V}.

Lemma at_step_refines i ctx ctx' t :
  at_step i ctx = Def (tt, ctx', t) -> am_step (at_view ctx) i (drives t) (at_view ctx').
Proof.
  assert (Hl : forall (m : at_handler unit), ulift m ctx = Def (tt, ctx', t) ->
    drives t = (effect m ctx).1 /\ at_view ctx' = (effect m ctx).2) by (by intros m [-> ->]%ulift_inv).
  destruct i; cbn [at_step]; try (intros [-> ->]%Hl; rewrite ?effect_skip).
  1: { intros (a & c1 & t1 & t2 & Es & [-> ->]%ulift_inv & ->)%ubind_inv.
       rewrite drives_app, app_nil_r. by apply start_effect with (1 := Es). }
  all: try apply end_response_effect; try (apply effect_quiet; [| done]).
  all: try first [ apply quiet_add_token | apply quiet_sct_response | apply quiet_dtls_packet
                 | apply quiet_dtls_data | apply quiet_packet_sender | apply quiet_initial_packet
                 | apply quiet_keep_alive_event | apply start_response_effect ].
  - rewrite async_close_effect. constructor.
  - rewrite stop_effect. constructor.
  - rewrite dns_effect. constructor.
  - intros E%reattach_effect. apply (f_equal fst) in E as E1. apply (f_equal snd) in E as E2.
    cbn [fst snd] in E1, E2. rewrite E1, E2. constructor.
  - rewrite resolve_close_effect. constructor.
  - destruct event.
    + rewrite dtls_closed_effect. constructor.
    + apply effect_quiet; [| done]. unfold dtls_event_handler, handle_dtls_connected. quiet.
    + rewrite access_denied_effect. constructor.
Qed.
End Refinement.

(** ** The environment driven by the attacher *)

Definition env_drive (e : at_env) (d : drive) : at_env :=
  match d with
  | DrDns => e {{ e_dns := true }}
  | DrConnect => e {{ e_dtls := DtlsActive }}
  | DrClose => e {{ e_dtls ::= fun p => match p with DtlsIdle => DtlsIdle | _ => DtlsClosing end }}
  | DrTimer => e {{ e_timer := true }}
  | DrCancelTimer => e {{ e_timer := false }}
  | DrPostClose => e {{ e_closeEv := true }}
  | DrCancelClose => e {{ e_closeEv := false }}
  | DrNotify _ | DrClosed => e
  end.

Lemma env_calls_drives t : forall e, env_calls e t = fold_left env_drive (drives t) e.
Proof.
  induction t as [| c t IH]; intros e; [done |].
  change (env_calls e (c :: t)) with (env_calls (env_call e c) t). rewrite IH. by destruct c.
Qed.

Lemma drive_closes n e :
  fold_left env_drive (replicate n DrClose) e = e \/
  fold_left env_drive (replicate n DrClose) e = env_drive e DrClose.
Proof.
  revert e. induction n as [| n IH]; intros e; [by left |].
  change (fold_left env_drive (replicate (S n) DrClose) e)
    with (fold_left env_drive (replicate n DrClose) (env_drive e DrClose)).
  destruct (IH (env_drive e DrClose)) as [-> | ->]; right; [done |]. by destruct e as [? ? ? []].
Qed.

(** What the attacher is owed in each of its states, and how many redirects it can have
    followed there. *)
Definition owed (v : view) (e : at_env) : bool :=
  let '(s, m, r, cb) := v in
  match m, s, e with
  | NC_ATTACHER_MODULE_SETUP, NC_ATTACHER_STATE_DNS, mk_env false false ev DtlsIdle =>
      implb cb ev && (r =? 0)
  | NC_ATTACHER_MODULE_RUNNING, NC_ATTACHER_STATE_DNS, mk_env true false false DtlsIdle
  | NC_ATTACHER_MODULE_RUNNING, NC_ATTACHER_STATE_DTLS_ATTACH_REQUEST,
      mk_env false false false (DtlsActive | DtlsClosing)
  | NC_ATTACHER_MODULE_RUNNING, NC_ATTACHER_STATE_ATTACHED,
      mk_env false false false (DtlsActive | DtlsClosing) =>
      negb cb && (0 <=? r) && (r <? MAX_REDIRECT_FOLLOW)
  | NC_ATTACHER_MODULE_RUNNING, NC_ATTACHER_STATE_RETRY_WAIT, mk_env false true false DtlsIdle
  | NC_ATTACHER_MODULE_RUNNING, NC_ATTACHER_STATE_ACCESS_DENIED_WAIT, mk_env false true false DtlsIdle
  | NC_ATTACHER_MODULE_RUNNING, NC_ATTACHER_STATE_REDIRECT, mk_env false false false DtlsClosing =>
      negb cb && (0 <=? r) && (r <=? MAX_REDIRECT_FOLLOW)
  | NC_ATTACHER_MODULE_CLOSED, NC_ATTACHER_STATE_DNS, mk_env true false false DtlsIdle
  | NC_ATTACHER_MODULE_CLOSED, NC_ATTACHER_STATE_DTLS_ATTACH_REQUEST, mk_env false false false DtlsClosing
  | NC_ATTACHER_MODULE_CLOSED, NC_ATTACHER_STATE_ATTACHED, mk_env false false false DtlsClosing
  | NC_ATTACHER_MODULE_CLOSED, NC_ATTACHER_STATE_REDIRECT, mk_env false false false DtlsClosing =>
      (0 <=? r) && (r <=? MAX_REDIRECT_FOLLOW)
  | NC_ATTACHER_MODULE_CLOSED, NC_ATTACHER_STATE_CLOSED, mk_env false false ev DtlsIdle =>
      implb cb ev && (0 <=? r) && (r <=? MAX_REDIRECT_FOLLOW)
  | _, _, _ => false
  end.

Lemma owed_close v e : owed v e = true -> owed v (env_drive e DrClose) = true.
Proof.
  destruct v as [[[s m] r] cb], e as [[] [] [] []]; destruct m, s; cbn; done.
Qed.

Lemma consume_minor i e : minor i = true -> consume i e = e.
Proof. destruct i; try done. by destruct event. Qed.

(** Case analysis on the finite part of a view and of the environment. *)
Ltac owed_cases s m cb e :=
  destruct s, m; destruct cb, e as [[] [] [] []]; try discriminate;
  cbn -[Z.leb Z.ltb Z.eqb u8 MAX_REDIRECT_FOLLOW] in *; try discriminate; try done;
  repeat goal_if; cbn -[Z.leb Z.ltb Z.eqb u8 MAX_REDIRECT_FOLLOW] in *; try done;
  unfold MAX_REDIRECT_FOLLOW, u8, wrap in *; try lia.

(** Every state machine step keeps the account of what is owed. *)
Lemma am_step_owed v i l v' e ctx :
  at_view ctx = v -> am_step v i l v' -> enabled i ctx e -> owed v e = true ->
  owed v' (fold_left env_drive l (consume i e)) = true.
Proof.
  intros Hv Hs He Ho. destruct Hs as [v i n Hi | s m r cb host port Hm | s r cb host port | v | v | v ec ips | v | v
    | v alpn ra | v alpn ra | s m r cb rs a b Hm | s m r cb rs a Hm].
  - rewrite (consume_minor _ _ Hi). destruct (drive_closes n e) as [-> | ->]; [done |]. by apply owed_close.
  - done.
  - destruct He as [He Hcb]. replace (at_closedCb ctx) with cb in Hcb by (unfold at_view in Hv; congruence).
    subst cb. destruct e as [[] [] [] []], s; try done.
    cbn -[Z.leb Z.ltb Z.eqb MAX_REDIRECT_FOLLOW] in *. unfold MAX_REDIRECT_FOLLOW. lia.
  - destruct v as [[[s m] r] cb]. clear Hv He. owed_cases s m cb e.
  - destruct v as [[[s m] r] cb]. clear Hv He. owed_cases s m cb e.
  - destruct v as [[[s m] r] cb]. clear Hv. cbn in He. destruct (is_error ec); owed_cases s m cb e.
  - destruct v as [[[s m] r] cb]. clear Hv. cbn in He. owed_cases s m cb e.
  - destruct v as [[[s m] r] cb]. clear Hv. cbn in He. owed_cases s m cb e.
  - destruct v as [[[s m] r] cb]. clear Hv. cbn in He. owed_cases s m cb e.
  - destruct v as [[[s m] r] cb]. clear Hv. cbn in He. owed_cases s m cb e.
  - destruct He as [_ He]. clear Hv. owed_cases s m cb e.
  - destruct He as [_ He]. clear Hv. owed_cases s m cb e.
Qed.

Section Invariant.
Context {V : Type} `{CborDec V}.

Lemma reachable_owed ctx e : at_reachable ctx e -> owed (at_view ctx) e = true.
Proof.
  induction 1 as [| ctx e i ctx' t Hr IH He Hs]; [done |].
  rewrite env_calls_drives. apply at_step_refines in Hs. by eapply am_step_owed.
Qed.
End Invariant.

End Attacher.
