(* ===== verification/AttacherProofs.v ===== *)
(** * Properties of the attacher

    The theorems of Attacher.v's model: the handlers refine an abstract machine, the attacher is
    never stuck, closing completes and is final, redirects are bounded, the notifications of
    the device are exact, and what a server connect token upload and a redirect do. *)

From S2P Require Import Prelude Platform Packet Collections KeepAlive Cbor Attacher.
From stdpp Require Import sets gmap.

#[local] Open Scope Z_scope.
#[local] Open Scope handler_scope.


(** *** Steps of the abstract machine *)

Lemma owed_bound v e : owed v e = true -> 0 <= v.1.2 <= MAX_REDIRECT_FOLLOW.
Proof.
  destruct v as [[[s m] r] cb]. unfold MAX_REDIRECT_FOLLOW.
  destruct s, m, cb, e as [[] [] [] []]; try discriminate;
    cbn -[Z.leb Z.ltb Z.eqb]; unfold MAX_REDIRECT_FOLLOW; lia.
Qed.

Lemma not_in_closes n d : d <> DrClose -> d ∉ replicate n DrClose.
Proof. intros Hd [-> _]%elem_of_replicate. done. Qed.

Section Properties.
Context {T : Type} `{StringSet T} `{NcVersion} {V : Type} `{CborDec V}.

#[local] Abbreviation attach_ctx := (nc_attach_context (T := T)).

Lemma am_step_redirects v i l v' e (ctx : attach_ctx) :
  at_view ctx = v -> am_step v i l v' -> enabled i ctx e -> owed v e = true ->
  (v'.1.2 = v.1.2 \/ (i = AiTimer /\ v'.1.2 = 0) \/
   (v'.1.2 = v.1.2 + 1 /\ v'.1.1.1 = NC_ATTACHER_STATE_REDIRECT /\ l = [DrClose])) /\
  (DrDns ∈ l -> (exists host port, i = AiStart host port) \/ i = AiTimer \/
     (v.1.1.1 = NC_ATTACHER_STATE_REDIRECT /\ v'.1.2 = v.1.2 /\ v.1.2 < MAX_REDIRECT_FOLLOW)).
Proof.
  intros Hv Hs He Ho. pose proof (owed_bound _ _ Ho) as Hb. unfold MAX_REDIRECT_FOLLOW in Hb.
  destruct Hs as [v i n Hi | s m r cb host port Hm | s r cb host port | v | v | v ec ips | v | v
    | v alpn ra | v alpn ra | s m r cb rs a b Hm | s m r cb rs a Hm]; try destruct v as [[[s m] r] cb]; cbn in Hb.
  - split; [by left |]. by intros []%not_in_closes.
  - split; [by left | by intros Hn%elem_of_nil].
  - split; [by left |]. eauto.
  - destruct s, m; (split; [by left | cbn; set_solver]).
  - destruct s, m; (split; [by left | cbn; set_solver]).
  - destruct m, (is_error ec); (split; [by left | cbn; set_solver]).
  - destruct m; (split; [cbn; auto | auto]).
  - destruct cb; (split; [by left | cbn; set_solver]).
  - destruct s, m; cbn -[Z.leb]; try (split; [by left | set_solver]);
      destruct (Z.leb_spec MAX_REDIRECT_FOLLOW r); (split; [by left |]); try set_solver; auto.
  - destruct m; (split; [by left | cbn; set_solver]).
  - split; [| set_solver]. right; right. cbn. split; [| done]. unfold u8, wrap. lia.
  - split; [by left | set_solver].
Qed.

(** A call that is not in a concrete list. *)
Ltac no_drive :=
  let Hn := fresh "Hn" in
  intros Hn; repeat (apply elem_of_cons in Hn as [Hn | Hn]; [discriminate |]); by apply elem_of_nil in Hn.

Lemma am_step_closed v i l v' :
  am_step v i l v' -> v.1.1.2 = NC_ATTACHER_MODULE_CLOSED ->
  v'.1.1.2 = NC_ATTACHER_MODULE_CLOSED /\
  Forall (fun d => d ∈ [DrClose; DrCancelTimer; DrPostClose; DrCancelClose; DrClosed]) l.
Proof.
  intros Hs Hm. destruct Hs as [v i n Hi | s m r cb host port Hm' | s r cb host port | v | v | v ec ips | v | v
    | v alpn ra | v alpn ra | s m r cb rs a b Hm' | s m r cb rs a Hm']; try destruct v as [[[s m] r] cb];
    cbn in Hm; subst; try done.
  { split; [done |]. apply Forall_replicate. by constructor. }
  all: try destruct s; try destruct cb; cbn; (split; [done |]);
    repeat first [constructor | right | apply (list_elem_of_here) ].
Qed.

Lemma am_step_notifies v i l v' :
  am_step v i l v' ->
  (DrNotify NC_DEVICE_EVENT_DETACHED ∈ l <->
     (exists alpn ra, i = AiDtls NP_DTLS_CLI_EVENT_CLOSED alpn ra) /\
     v.1.1.1 = NC_ATTACHER_STATE_ATTACHED /\ v.1.1.2 <> NC_ATTACHER_MODULE_CLOSED) /\
  (DrNotify NC_DEVICE_EVENT_ATTACHED ∈ l ->
     (exists response ra, i = AiEndResponse (Some response) ra) /\
     v'.1.1.1 = NC_ATTACHER_STATE_ATTACHED /\ v.1.1.2 <> NC_ATTACHER_MODULE_CLOSED) /\
  (v'.1.1.1 = NC_ATTACHER_STATE_ATTACHED -> v.1.1.1 = NC_ATTACHER_STATE_ATTACHED \/
     l = [DrNotify NC_DEVICE_EVENT_ATTACHED]).
Proof.
  destruct 1 as [v i n Hi | s m r cb host port Hm | s r cb host port | v | v | v ec ips | v | v
    | v alpn ra | v alpn ra | s m r cb rs a b Hm | s m r cb rs a Hm]; try destruct v as [[[s m] r] cb].
  { split; [| split; [by intros []%not_in_closes | by left]].
    split; [by intros []%not_in_closes |]. by intros [(? & ? & ->) _]. }
  8: { destruct (MAX_REDIRECT_FOLLOW <=? r) eqn:Er; destruct s, m; cbn -[Z.leb MAX_REDIRECT_FOLLOW];
       rewrite ?Er; (split; [split |]).
       all: try (split; [no_drive | try discriminate; by left]); try no_drive.
       all: try (intros (_ & Hs & Hm); by first [discriminate Hs | destruct Hm]).
       all: eauto using list_elem_of_here. all: by left. }
  all: try destruct (is_error ec); try destruct s; try destruct m; try destruct cb; cbn;
    (split; [split; [no_drive | by intros [(? & ? & [=]) _]] |]);
    (split; [try no_drive | try discriminate; auto]); eauto.
Qed.



(** A close completes: while a close callback waits, either the close event is owed and
    delivering it calls the callback, or the DNS answer or the end of the DTLS connection is
    owed, and whatever they carry, delivering them posts the close event. *)
Lemma attacher_close_completes (ctx : attach_ctx) e (Hr : at_reachable ctx e) (Hcb : at_closedCb ctx = true) :
  (e_closeEv e = true /\ AtClosedCallback ∈ trace resolve_close ctx) \/
  (e_dns e = true /\ forall ec ips, trace (dns_resolved_callback ec ips) ctx = [AtPostCloseEvent]) \/
  (e_dtls e = DtlsClosing /\ forall event alpn ra, event <> NP_DTLS_CLI_EVENT_HANDSHAKE_COMPLETE ->
     trace (dtls_event_handler event alpn ra) ctx = [AtPostCloseEvent]).
Proof.
  apply reachable_owed in Hr. unfold at_view in Hr. rewrite Hcb in Hr.
  assert (Hc : e_closeEv e = true \/ at_moduleState ctx = NC_ATTACHER_MODULE_CLOSED /\
               (e_dns e = true \/ e_dtls e = DtlsClosing)).
  { destruct (at_state ctx), (at_moduleState ctx), e as [[] [] [] []]; try done; cbn in *; auto. }
  destruct Hc as [Hc | [Hm [Hc | Hc]]].
  - left. split; [done |]. unfold resolve_close. rewrite !trace_seq. cbn. rewrite Hcb. cbn. set_solver.
  - right; left. split; [done |]. intros ec ips. unfold dns_resolved_callback.
    rewrite trace_hget, Hm. by destruct ctx.
  - right; right. split; [done |]. intros ev alpn ra Hev. unfold dtls_event_handler.
    rewrite trace_hget, Hm. by destruct ev, ctx.
Qed.

(** Redirects are bounded: the redirect counter is 8 bits wide but stays in [0 .. 5]; it
    is cleared only by the reattach timer and counts each redirect that the basestation asks
    for. A DNS resolution is started only by [nc_attacher_start], by the reattach timer, or
    to follow a redirect, and then the counter is below MAX_REDIRECT_FOLLOW: between two
    firings of the timer at most four redirects are followed. *)
Lemma attacher_redirects_bounded (ctx : attach_ctx) e i ctx' t (Hr : at_reachable ctx e) (He : enabled i ctx e)
    (Hstep : at_step i ctx = Def (tt, ctx', t)) :
  let r := at_redirectAttempts ctx in
  let r' := at_redirectAttempts ctx' in
  0 <= r <= MAX_REDIRECT_FOLLOW /\
  (r' = r \/ (i = AiTimer /\ r' = 0) \/
   (r' = r + 1 /\ at_state ctx' = NC_ATTACHER_STATE_REDIRECT /\ drives t = [DrClose])) /\
  (DrDns ∈ drives t ->
     (exists host port, i = AiStart host port) \/ i = AiTimer \/
     (at_state ctx = NC_ATTACHER_STATE_REDIRECT /\ r' = r /\ r < MAX_REDIRECT_FOLLOW)).
Proof.
  cbv zeta. apply reachable_owed in Hr. apply at_step_refines in Hstep.
  remember (at_view ctx) as v eqn:Ev. remember (at_view ctx') as v' eqn:Ev'.
  replace (at_redirectAttempts ctx) with v.1.2 by by rewrite Ev.
  replace (at_redirectAttempts ctx') with v'.1.2 by by rewrite Ev'.
  replace (at_state ctx) with v.1.1.1 by by rewrite Ev.
  replace (at_state ctx') with v'.1.1.1 by by rewrite Ev'.
  split; [by eapply owed_bound |]. 
  destruct (am_step_redirects _ _ _ _ _ _ (eq_sym Ev) Hstep He Hr) as [? ?]. done.
Qed.

(** Closing is final: once the module is closed no step reopens it, starts a DNS
    resolution, connects, posts the reattach timer or notifies the device; the attacher only
    closes and cancels what is open, posts the close event and calls the close callback. *)
Lemma attacher_closed_is_final i (ctx ctx' : attach_ctx) t (Hstep : at_step i ctx = Def (tt, ctx', t))
    (Hm : at_moduleState ctx = NC_ATTACHER_MODULE_CLOSED) :
  at_moduleState ctx' = NC_ATTACHER_MODULE_CLOSED /\
  Forall (fun d => d ∈ [DrClose; DrCancelTimer; DrPostClose; DrCancelClose; DrClosed]) (drives t).
Proof.
  apply at_step_refines in Hstep. by apply am_step_closed in Hstep.
Qed.

(** What the device is told: DETACHED exactly when the DTLS connection of an attached,
    open attacher ends (an attached attacher that is denied access says nothing); ATTACHED
    exactly when the attach-end request succeeds on an open attacher, which is then in
    state ATTACHED. *)
Lemma attacher_notifications i (ctx ctx' : attach_ctx) t (Hstep : at_step i ctx = Def (tt, ctx', t)) :
  (DrNotify NC_DEVICE_EVENT_DETACHED ∈ drives t <->
     (exists alpn ra, i = AiDtls NP_DTLS_CLI_EVENT_CLOSED alpn ra) /\
     at_state ctx = NC_ATTACHER_STATE_ATTACHED /\ at_moduleState ctx <> NC_ATTACHER_MODULE_CLOSED) /\
  (DrNotify NC_DEVICE_EVENT_ATTACHED ∈ drives t ->
     (exists response ra, i = AiEndResponse (Some response) ra) /\
     at_state ctx' = NC_ATTACHER_STATE_ATTACHED /\ at_moduleState ctx <> NC_ATTACHER_MODULE_CLOSED) /\
  (at_state ctx' = NC_ATTACHER_STATE_ATTACHED -> at_state ctx = NC_ATTACHER_STATE_ATTACHED \/
     drives t = [DrNotify NC_DEVICE_EVENT_ATTACHED]).
Proof.
  apply at_step_refines in Hstep. by apply am_step_notifies in Hstep.
Qed.

(** *** The attach-start response *)

(** The response of the basestation that asks for a redirect. *)
Definition redirect_response (payload : list Z) : Prop :=
  let root := cv_parse payload in
  cv_is_map root = true /\
  cv_is_unsigned_integer (cv_find root "Status") = true /\
  cv_uint64 (cv_find root "Status") = ATTACH_STATUS_REDIRECT /\
  cv_is_text_string (cv_find root "Host") = true /\
  cv_is_unsigned_integer (cv_find root "Port") = true /\
  cv_is_byte_string (cv_find root "Fingerprint") = true.

Lemma cstr_no_nul l l' : Forall (fun b => b <> 0) l -> cstr (l ++ l') = l ++ cstr l'.
Proof.
  induction 1 as [| b l Hb _ IH]; [done |]. cbn.
  rewrite IH. by destruct (Z.eqb_spec b 0).
Qed.

Lemma redirect_handled code payload (ctx : attach_ctx) :
  nc_coap_is_status_ok code = true -> redirect_response payload ->
  coap_attach_start_handle_response (Some (mk_resp code (Some payload))) ctx =
    Def (handle_redirect (cv_parse payload) ctx).
Proof.
  intros Hc (Hm & Hu & Hs & _). cbn. rewrite Hc, Hm, Hu, Hs. done.
Qed.

(** The host of a redirect is stored without a terminating NUL: the name resolved next
    is the host followed by what remains of the previous name beyond the host's length. It
    is the host itself exactly when the previous name is not longer or had a NUL there. *)
Lemma redirect_host_tail code payload (ctx ctx' : attach_ctx) st t
    (Hc : nc_coap_is_status_ok code = true) (Hp : redirect_response payload)
    (Hlen : (1 <= length (cv_string (cv_find (cv_parse payload) "Host")) <= 256)%nat)
    (Hnul : Forall (fun b => b <> 0) (cv_string (cv_find (cv_parse payload) "Host")))
    (Hstep : coap_attach_start_handle_response (Some (mk_resp code (Some payload))) ctx = Def (st, ctx', t)) :
  let host := cv_string (cv_find (cv_parse payload) "Host") in
  st = NC_ATTACHER_STATUS_REDIRECT /\
  at_currentPort ctx' = u16 (cv_uint64 (cv_find (cv_parse payload) "Port")) /\
  trace dns_start_resolve ctx' = [AtDnsResolve (host ++ cstr (drop (length host) (at_dns ctx)))] /\
  (trace dns_start_resolve ctx' = [AtDnsResolve host] <-> cstr (drop (length host) (at_dns ctx)) = []).
Proof.
  cbv zeta. rewrite redirect_handled in Hstep by done.
  destruct Hp as (_ & _ & _ & Ht & Hu & Hb). unfold handle_redirect in Hstep. rewrite Ht, Hu, Hb in Hstep.
  set (host := cv_string (cv_find (cv_parse payload) "Host")) in *. cbn [andb] in Hstep.
  replace (length host <? 1)%nat with false in Hstep by (symmetry; apply Nat.ltb_ge; lia).
  replace (256 <? length host)%nat with false in Hstep by (symmetry; apply Nat.ltb_ge; lia).
  cbn [orb] in Hstep. rewrite hmod_seq in Hstep. injection Hstep as <- <- <-.
  assert (E : forall c : attach_ctx, trace dns_start_resolve c = [AtDnsResolve (cstr (at_dns c))]) by done.
  rewrite E. cbn -[host cv_uint64]. unfold constant, memcpy. cbn [take app Nat.add].
  rewrite take_0. cbn [app]. rewrite cstr_no_nul by done. split; [done |]. split; [done |]. split; [done |].
  split; [| by intros ->; rewrite app_nil_r]. intros [= Eh]. apply (f_equal length) in Eh.
  rewrite length_app in Eh. destruct (cstr _); [done | cbn in Eh; lia].
Qed.

(** Whether reading an attach response is defined in C: it divides by the keep-alive
    retry interval the basestation sent, so it is undefined exactly when the response holds
    keep-alive settings with a retry interval of zero modulo 2^32. *)
Lemma attached_undefined_iff root (ctx : attach_ctx) :
  handle_attached root ctx = UB <->
  let ka := cv_find root "KeepAlive" in
  cv_is_map ka = true /\
  cv_is_unsigned_integer (cv_find ka "Interval") = true /\
  cv_is_unsigned_integer (cv_find ka "RetryInterval") = true /\
  cv_is_unsigned_integer (cv_find ka "MaxRetries") = true /\
  u32 (cv_uint64 (cv_find ka "RetryInterval")) = 0.
Proof.
  unfold handle_attached. rewrite u_hget. unfold attached_keep_alive, nc_keep_alive_set_settings. cbv zeta.
  destruct (cv_is_map _); [| by split; [| intros (? & _)]].
  destruct (cv_is_unsigned_integer (cv_find (cv_find root "KeepAlive") "Interval")) ;
    [| by split; [| intros (_ & ? & _)]].
  destruct (cv_is_unsigned_integer (cv_find (cv_find root "KeepAlive") "RetryInterval")) ;
    [| by split; [| intros (_ & _ & ? & _)]].
  destruct (cv_is_unsigned_integer (cv_find (cv_find root "KeepAlive") "MaxRetries")) ;
    [| by split; [| intros (_ & _ & _ & ? & _)]].
  cbn [andb]. destruct (Z.eqb_spec (u32 (cv_uint64 (cv_find (cv_find root "KeepAlive") "RetryInterval"))) 0).
  - split; [by repeat split | done].
  - split; [| by intros (_ & _ & _ & _ & ?)]. done.
Qed.

(** *** Server connect tokens *)

(** Tokens added while an upload is in progress are not lost: when the basestation
    acknowledges an upload made after the attach, the version that was uploaded becomes the
    synchronized one, and unless it is the current one another upload is started at once with
    all the tokens of the set. *)
Lemma sct_catch_up code (ctx : attach_ctx)
    (Hcode : nc_coap_is_status_ok code = true)
    (Hcb : sct_callback (at_sct ctx) = Some SctAfterAttach) :
  let s := at_sct ctx in
  let m := sct_request_handler code (mk_ra true true NABTO_COAP_ERROR_OK) in
  let s' := at_sct (exec m ctx) in
  let current := sct_version s =? sct_uploadingVersion s in
  trace m ctx = AtCoapRequestFree ::
    (if current then [] else [AtCoapRequest ReqSct (encode_scts (scts s))]) /\
  sct_synchronizedVersion s' = sct_uploadingVersion s /\
  sct_callback s' = (if current then None else Some SctAfterAttach) /\
  sct_uploadingVersion s' = (if current then sct_uploadingVersion s else sct_version s) /\
  sct_version s' = sct_version s /\ scts s' = scts s.
Proof.
  destruct ctx as [? ? ? ? ? ? ? ? ? ? ? ? ? ? ? ? ? ? ? ? ? ? ? ? ? ? ? ? [tokens v sv uv cb]]. cbn in Hcb. subst cb.
  unfold sct_request_handler, send_sct_request_callback, send_sct_request, nc_attacher_sct_upload, set_sct,
    trace, exec, hbind, hget, hmod, emit, hskip, hret.
  rewrite Hcode. cbn -[Z.eqb]. unfold constant. cbn -[Z.eqb].
  by destruct (v =? uv).
Qed.
End Properties.

(** *** Witnesses *)

#[local] Instance example_version : NcVersion := ascii_codes "5.0.0".

(** Every payload is a redirect to "b.c", port 5684. *)
#[local] Instance example_dec : CborDec tree := tree_dec (fun _ =>
  TreeMap [("Status", TreeUint ATTACH_STATUS_REDIRECT)%string; ("Host", TreeText (ascii_codes "b.c"))%string;
           ("Port", TreeUint 5684)%string; ("Fingerprint", TreeBytes [1; 2])%string]).

Abbreviation example_ctx := (nc_attach_context (T := gset string)).

Definition after (i : at_input) (ctx : example_ctx) : example_ctx :=
  match at_step i ctx with Def (_, ctx', _) => ctx' | UB => ctx end.

Definition example_start : at_input := AiStart (ascii_codes "abcde.f") 443.
Definition started : example_ctx := after example_start at_initial.
Definition closing : example_ctx := after AiAsyncClose started.
Definition attached : example_ctx :=
  started {{ at_state := NC_ATTACHER_STATE_ATTACHED }}.
Definition uploading : example_ctx :=
  attached {{ at_sct := mk_sct ({["t"; "u"]} : gset string) 2 0 1 (Some SctAfterAttach) }}.

Definition dns_owed : at_env := mk_env true false false DtlsIdle.

Lemma started_reachable : at_reachable started dns_owed.
Proof.
  apply (AR_step at_initial env_initial example_start started
           [AtSetUdpContext; AtDnsResolve (ascii_codes "abcde.f")] AR_init); [by split | reflexivity].
Defined.

Lemma closing_reachable : at_reachable closing dns_owed.
Proof. by apply (AR_step started dns_owed AiAsyncClose closing [] started_reachable). Defined.



Lemma attacher_close_completes_witness :
  at_reachable closing dns_owed /\ at_closedCb closing = true /\
  ((e_closeEv dns_owed = true /\ AtClosedCallback ∈ trace resolve_close closing) \/
   (e_dns dns_owed = true /\ forall ec ips, trace (dns_resolved_callback ec ips) closing = [AtPostCloseEvent]) \/
   (e_dtls dns_owed = DtlsClosing /\ forall event alpn ra, event <> NP_DTLS_CLI_EVENT_HANDSHAKE_COMPLETE ->
      trace (dtls_event_handler event alpn ra) closing = [AtPostCloseEvent])).
Proof.
  split; [apply closing_reachable |]. split; [reflexivity |].
  by apply (attacher_close_completes closing dns_owed closing_reachable).
Defined.

Lemma attacher_redirects_bounded_witness :
  at_reachable started dns_owed /\ 0 <= at_redirectAttempts started <= MAX_REDIRECT_FOLLOW.
Proof.
  split; [apply started_reachable |].
  apply (attacher_redirects_bounded started dns_owed AiAsyncClose closing [] started_reachable I eq_refl).
Defined.

Lemma attacher_closed_is_final_witness :
  at_step (AiDns NABTO_EC_OK []) closing = Def (tt, after (AiDns NABTO_EC_OK []) closing, [AtPostCloseEvent]) /\
  at_moduleState (after (AiDns NABTO_EC_OK []) closing) = NC_ATTACHER_MODULE_CLOSED.
Proof.
  split; [reflexivity |].
  by apply (attacher_closed_is_final (AiDns NABTO_EC_OK []) closing (after (AiDns NABTO_EC_OK []) closing) [AtPostCloseEvent]).
Defined.

Definition connection_lost : at_input :=
  AiDtls NP_DTLS_CLI_EVENT_CLOSED false (mk_ra true true NABTO_COAP_ERROR_OK).

Lemma attacher_notifications_witness :
  exists t, at_step connection_lost attached = Def (tt, after connection_lost attached, t) /\
    DrNotify NC_DEVICE_EVENT_DETACHED ∈ drives t.
Proof.
  eexists. split; [reflexivity |].
  apply (attacher_notifications connection_lost attached (after connection_lost attached) _ eq_refl).
  split; [by eexists _, _ |]. split; [reflexivity | discriminate].
Defined.

Definition redirected : example_ctx :=
  match coap_attach_start_handle_response (Some (mk_resp 205 (Some []))) started with
  | Def (_, ctx, _) => ctx
  | UB => started
  end.

(** The name resolved is "b.cde.f". *)
Lemma redirect_host_tail_witness :
  coap_attach_start_handle_response (Some (mk_resp 205 (Some []))) started =
    Def (NC_ATTACHER_STATUS_REDIRECT, redirected, []) /\
  trace dns_start_resolve redirected = [AtDnsResolve (ascii_codes "b.c" ++ ascii_codes "de.f")].
Proof.
  split; [by vm_compute |].
  refine (proj1 (proj2 (proj2 (redirect_host_tail 205 [] started redirected NC_ATTACHER_STATUS_REDIRECT []
    eq_refl _ _ _ _)))).
  - by repeat split.
  - vm_compute. lia.
  - by_compute.
  - by vm_compute.
Defined.

Lemma sct_catch_up_witness :
  sct_callback (at_sct uploading) = Some SctAfterAttach /\
  trace (sct_request_handler 205 (mk_ra true true NABTO_COAP_ERROR_OK)) uploading =
    [AtCoapRequestFree; AtCoapRequest ReqSct (encode_scts (scts (at_sct uploading)))].
Proof. split; [reflexivity |]. by apply (sct_catch_up 205 uploading). Defined.
