(* ===== verification/Policies.v ===== *)
(** * Access policies (nm_condition.c, nm_statement.c, nm_policy.c)

    A policy is a list of statements; a statement allows or denies a set of actions under
    conditions on string attributes. The definitions follow the evaluation of the code; the
    theorems say when a policy allows an action, in terms of its statements, and when a
    condition matches, in terms of its values. *)

From S2P Require Import Prelude Collections.
From Stdlib Require Import SpecFloat.
From stdpp Require Import sets gmap.

#[local] Open Scope string_scope.

(** ** Conditions *)

Inductive nm_condition_operator : Type :=
| NM_CONDITION_OPERATOR_STRING_EQUALS
| NM_CONDITION_OPERATOR_STRING_NOT_EQUALS
| NM_CONDITION_OPERATOR_NUMERIC_EQUALS
| NM_CONDITION_OPERATOR_NUMERIC_NOT_EQUALS
| NM_CONDITION_OPERATOR_NUMERIC_LESS_THAN
| NM_CONDITION_OPERATOR_NUMERIC_LESS_THAN_EQUALS
| NM_CONDITION_OPERATOR_NUMERIC_GREATER_THAN
| NM_CONDITION_OPERATOR_NUMERIC_GREATER_THAN_EQUALS
| NM_CONDITION_OPERATOR_BOOL.

Inductive nm_condition_result : Type :=
| NM_CONDITION_RESULT_MATCH
| NM_CONDITION_RESULT_NO_MATCH
| NM_CONDITION_RESULT_ERROR.

Inductive nm_effect : Type :=
| NM_EFFECT_ALLOW
| NM_EFFECT_DENY
| NM_EFFECT_NO_MATCH
| NM_EFFECT_ERROR.

#[global] Instance condition_operator_eq : EqDecision nm_condition_operator.
Proof. solve_decision. Defined.
#[global] Instance condition_result_eq : EqDecision nm_condition_result.
Proof. solve_decision. Defined.
#[global] Instance effect_eq : EqDecision nm_effect.
Proof. solve_decision. Defined.

(** The C library's [strtod]: the value and the rest of the string, from the first character
    it did not use. A string without a number yields zero and is not used at all. *)
Class Strtod : Type := strtod : string -> spec_float * string.

Class StrtodLaws `{Strtod} : Prop := {
  strtod_suffix : forall s, exists used, s = (used ++ (strtod s).2)%string;
  strtod_unused : forall s, (strtod s).2 = s -> (strtod s).1 = S754_zero false
}.

(** [strcmp(a, b) == 0]. *)
Definition streq (a b : string) : bool := bool_decide (a = b).

Definition nm_condition_parse_bool (value : string) : option bool :=
  if streq value "true" then Some true
  else if streq value "false" then Some false
  else None.

Definition nm_condition_parse_operator (operation : string) : option nm_condition_operator :=
  if streq operation "StringEquals" then Some NM_CONDITION_OPERATOR_STRING_EQUALS
  else if streq operation "StringNotEquals" then Some NM_CONDITION_OPERATOR_STRING_NOT_EQUALS
  else if streq operation "NumericEquals" then Some NM_CONDITION_OPERATOR_NUMERIC_EQUALS
  else if streq operation "NumericNotEquals" then Some NM_CONDITION_OPERATOR_NUMERIC_NOT_EQUALS
  else if streq operation "NumericLessThan" then Some NM_CONDITION_OPERATOR_NUMERIC_LESS_THAN
  else if streq operation "NumericLessThanEquals" then Some NM_CONDITION_OPERATOR_NUMERIC_LESS_THAN_EQUALS
  else if streq operation "NumericGreaterThan" then Some NM_CONDITION_OPERATOR_NUMERIC_GREATER_THAN
  else if streq operation "NumericGreaterThanEquals" then Some NM_CONDITION_OPERATOR_NUMERIC_GREATER_THAN_EQUALS
  else if streq operation "Bool" then Some NM_CONDITION_OPERATOR_BOOL
  else None.

Definition nm_condition_operator_to_string (op : nm_condition_operator) : string :=
  match op with
  | NM_CONDITION_OPERATOR_STRING_EQUALS => "StringEquals"
  | NM_CONDITION_OPERATOR_STRING_NOT_EQUALS => "StringNotEquals"
  | NM_CONDITION_OPERATOR_NUMERIC_EQUALS => "NumericEquals"
  | NM_CONDITION_OPERATOR_NUMERIC_NOT_EQUALS => "NumericNotEquals"
  | NM_CONDITION_OPERATOR_NUMERIC_LESS_THAN => "NumericLessThan"
  | NM_CONDITION_OPERATOR_NUMERIC_LESS_THAN_EQUALS => "NumericLessThanEquals"
  | NM_CONDITION_OPERATOR_NUMERIC_GREATER_THAN => "NumericGreaterThan"
  | NM_CONDITION_OPERATOR_NUMERIC_GREATER_THAN_EQUALS => "NumericGreaterThanEquals"
  | NM_CONDITION_OPERATOR_BOOL => "Bool"
  end.

Definition status (s : bool) : nm_condition_result :=
  if s then NM_CONDITION_RESULT_MATCH else NM_CONDITION_RESULT_NO_MATCH.

Definition bool_equals (lhs rhs : string) : nm_condition_result :=
  match nm_condition_parse_bool lhs with
  | None => NM_CONDITION_RESULT_ERROR
  | Some lhsBool =>
      match nm_condition_parse_bool rhs with
      | None => NM_CONDITION_RESULT_ERROR
      | Some rhsBool => status (eqb lhsBool rhsBool)
      end
  end.

Definition string_equals (lhs rhs : string) : nm_condition_result := status (streq lhs rhs).
Definition string_not_equals (lhs rhs : string) : nm_condition_result := status (negb (streq lhs rhs)).

Section Conditions.
Context `{Strtod}.

Definition nm_condition_parse_numeric (value : string) : option spec_float :=
  match strtod value with
  | (v, EmptyString) => Some v
  | _ => None
  end.

Definition nm_condition_numeric_operator (op : nm_condition_operator) (lhs rhs : string) :
    nm_condition_result :=
  match nm_condition_parse_numeric lhs with
  | None => NM_CONDITION_RESULT_ERROR
  | Some lhsDouble =>
      match nm_condition_parse_numeric rhs with
      | None => NM_CONDITION_RESULT_ERROR
      | Some rhsDouble =>
          match op with
          | NM_CONDITION_OPERATOR_NUMERIC_EQUALS => status (SFeqb lhsDouble rhsDouble)
          | NM_CONDITION_OPERATOR_NUMERIC_NOT_EQUALS => status (negb (SFeqb lhsDouble rhsDouble))
          | NM_CONDITION_OPERATOR_NUMERIC_LESS_THAN => status (SFltb lhsDouble rhsDouble)
          | NM_CONDITION_OPERATOR_NUMERIC_LESS_THAN_EQUALS => status (SFleb lhsDouble rhsDouble)
          | NM_CONDITION_OPERATOR_NUMERIC_GREATER_THAN => status (SFltb rhsDouble lhsDouble)
          | NM_CONDITION_OPERATOR_NUMERIC_GREATER_THAN_EQUALS => status (SFleb rhsDouble lhsDouble)
          | NM_CONDITION_OPERATOR_STRING_EQUALS
          | NM_CONDITION_OPERATOR_STRING_NOT_EQUALS
          | NM_CONDITION_OPERATOR_BOOL => NM_CONDITION_RESULT_ERROR
          end
      end
  end.

(** [match] of nm_condition.c. *)
Definition match_op (op : nm_condition_operator) (lhs rhs : string) : nm_condition_result :=
  match op with
  | NM_CONDITION_OPERATOR_STRING_EQUALS => string_equals lhs rhs
  | NM_CONDITION_OPERATOR_STRING_NOT_EQUALS => string_not_equals lhs rhs
  | NM_CONDITION_OPERATOR_NUMERIC_EQUALS
  | NM_CONDITION_OPERATOR_NUMERIC_NOT_EQUALS
  | NM_CONDITION_OPERATOR_NUMERIC_LESS_THAN
  | NM_CONDITION_OPERATOR_NUMERIC_LESS_THAN_EQUALS
  | NM_CONDITION_OPERATOR_NUMERIC_GREATER_THAN
  | NM_CONDITION_OPERATOR_NUMERIC_GREATER_THAN_EQUALS => nm_condition_numeric_operator op lhs rhs
  | NM_CONDITION_OPERATOR_BOOL => bool_equals lhs rhs
  end.

(** ** Statements and policies *)

(** [T]: string sets, [M]: string maps. *)
Context {T : Type} `{StringSet T} {M : Type} `{StringMap M}.

Record nm_condition : Type := mk_condition {
  c_op : nm_condition_operator;
  c_key : string;
  c_values : T
}.

Record nm_statement : Type := mk_statement {
  s_effect : nm_effect;
  s_actions : T;
  s_conditions : list nm_condition
}.

Record nm_policy : Type := mk_policy {
  p_id : string;
  p_statements : list nm_statement
}.

(** Building a policy; the vectors grow, and the set of actions says whether it grew. *)
Definition nm_statement_new (effect : nm_effect) : nm_statement := mk_statement effect ss_empty [].

Definition nm_statement_add_action (statement : nm_statement) (action : string) : bool * nm_statement :=
  let '(inserted, actions) := ss_insert (s_actions statement) action in
  (inserted, statement {{ s_actions := actions }}).

Definition nm_policy_new (idIn : string) : nm_policy := mk_policy idIn [].

(** Takes over the statement. *)
Definition nm_policy_add_statement (policy : nm_policy) (stmt : nm_statement) : bool * nm_policy :=
  (true, policy {{ p_statements ::= fun statements => (statements ++ [stmt])%list }}).

(** The variable part of a value: [${variable}] is looked up in the attributes; other values
    stand for themselves, those of less than three characters too. *)
Definition resolve_value (attributes : M) (value : string) : option string :=
  let valueLength := String.length value in
  if (valueLength <? 3)%nat then Some value
  else if streq (String.substring 0 2 value) "${" && streq (String.substring (valueLength - 1) 1 value) "}"
  then sm_get attributes (String.substring 2 (valueLength - 3) value)
  else Some value.

(** The loop of [nm_condition_matches] over the values. *)
Fixpoint match_values (op : nm_condition_operator) (attributes : M) (attributeValue : string)
    (values : list string) : nm_condition_result :=
  match values with
  | [] => NM_CONDITION_RESULT_NO_MATCH
  | v :: rest =>
      match resolve_value attributes v with
      | Some resolvedValue =>
          match match_op op attributeValue resolvedValue with
          | NM_CONDITION_RESULT_ERROR => NM_CONDITION_RESULT_ERROR
          | NM_CONDITION_RESULT_MATCH => NM_CONDITION_RESULT_MATCH
          | NM_CONDITION_RESULT_NO_MATCH => match_values op attributes attributeValue rest
          end
      | None => match_values op attributes attributeValue rest
      end
  end.

Definition nm_condition_matches (condition : nm_condition) (attributes : M) : nm_condition_result :=
  match sm_get attributes (c_key condition) with
  | None => NM_CONDITION_RESULT_NO_MATCH
  | Some attributeValue =>
      match_values (c_op condition) attributes attributeValue (ss_elements (c_values condition))
  end.

(** [match_conditions] of nm_statement.c. *)
Fixpoint match_conditions (conditions : list nm_condition) (attributes : M) : nm_condition_result :=
  match conditions with
  | [] => NM_CONDITION_RESULT_MATCH
  | condition :: rest =>
      match nm_condition_matches condition attributes with
      | NM_CONDITION_RESULT_MATCH => match_conditions rest attributes
      | r => r
      end
  end.

Definition nm_statement_eval (statement : nm_statement) (action : string) (attributes : M) : nm_effect :=
  if negb (ss_contains (s_actions statement) action) then NM_EFFECT_NO_MATCH
  else
    match match_conditions (s_conditions statement) attributes with
    | NM_CONDITION_RESULT_NO_MATCH => NM_EFFECT_NO_MATCH
    | NM_CONDITION_RESULT_ERROR => NM_EFFECT_ERROR
    | NM_CONDITION_RESULT_MATCH => s_effect statement
    end.

(** The evaluation state is its effect. *)
Definition nm_policy_eval_init : nm_effect := NM_EFFECT_NO_MATCH.

Definition nm_policy_statement_eval (action : string) (attributes : M) (state : nm_effect)
    (statement : nm_statement) : nm_effect :=
  match state with
  | NM_EFFECT_DENY | NM_EFFECT_ERROR => state
  | _ =>
      match nm_statement_eval statement action attributes with
      | NM_EFFECT_NO_MATCH => state
      | e => e
      end
  end.

Definition nm_policy_eval (state : nm_effect) (policy : nm_policy) (action : string) (attributes : M) :
    nm_effect :=
  fold_left (nm_policy_statement_eval action attributes) (p_statements policy) state.

Definition nm_policy_eval_simple (policy : nm_policy) (action : string) (attributes : M) : nm_effect :=
  nm_policy_eval nm_policy_eval_init policy action attributes.

(** ** Specification *)

(** Deny and error are final; otherwise one allow is needed. *)
Definition final (e : nm_effect) : bool :=
  match e with NM_EFFECT_DENY | NM_EFFECT_ERROR => true | _ => false end.

(** What a sequence of effects amounts to: its first final effect, else an allow if there is one. *)
Definition verdict (es : list nm_effect) : nm_effect :=
  match List.find final es with
  | Some e => e
  | None => if bool_decide (NM_EFFECT_ALLOW ∈ es) then NM_EFFECT_ALLOW else NM_EFFECT_NO_MATCH
  end.

(** ** Theorems *)

Lemma find_final_none es : List.find final es = None <-> Forall (fun e => final e = false) es.
Proof.
  induction es as [| e es IH]; cbn; [by split; [constructor |] |].
  destruct (final e) eqn:Ee; [split; [done | by inversion 1; congruence] |].
  rewrite IH. split; [by constructor | by inversion 1].
Qed.

Lemma verdict_allow es :
  verdict es = NM_EFFECT_ALLOW <-> NM_EFFECT_ALLOW ∈ es /\ Forall (fun e => final e = false) es.
Proof.
  rewrite <- find_final_none. unfold verdict. destruct (List.find final es) as [e |] eqn:Ef.
  - apply List.find_some in Ef as [_ Ef]. split; [by intros -> | by intros [_ ?]].
  - case_bool_decide; split; try done. by intros [].
Qed.

Lemma verdict_cons e es :
  verdict (e :: es) = if final e then e else
    match e with NM_EFFECT_ALLOW => match verdict es with NM_EFFECT_NO_MATCH => NM_EFFECT_ALLOW | v => v end
    | _ => verdict es end.
Proof.
  unfold verdict. cbn. destruct e; cbn; try done.
  - destruct (List.find final es) as [e |] eqn:Ef.
    + apply List.find_some in Ef as [_ Ef]. by destruct e.
    + repeat case_bool_decide; try done; set_solver.
  - destruct (List.find final es); [done |]. repeat case_bool_decide; set_solver.
Qed.

(** Evaluating a policy is its verdict, chained with that of the policies before it. *)
Lemma policy_eval_verdict state policy action attributes :
  nm_policy_eval state policy action attributes =
    verdict (state :: map (fun s => nm_statement_eval s action attributes) (p_statements policy)).
Proof.
  unfold nm_policy_eval. generalize (p_statements policy) as ss. clear policy. intros ss. revert state.
  induction ss as [| s ss IH]; intros state; [by destruct state |].
  cbn [fold_left map]. rewrite IH. unfold nm_policy_statement_eval.
  rewrite !verdict_cons.
  destruct state, (nm_statement_eval s action attributes); cbn; try done;
    by destruct (verdict _).
Qed.

Lemma verdict_final es : final (verdict es) = false <-> Forall (fun e => final e = false) es.
Proof.
  rewrite <- find_final_none. unfold verdict. destruct (List.find final es) as [e |] eqn:Ef.
  - apply List.find_some in Ef as [_ Ef]. by rewrite Ef.
  - by case_bool_decide.
Qed.

Lemma verdict_no_allow es : NM_EFFECT_ALLOW ∈ es -> verdict es <> NM_EFFECT_NO_MATCH.
Proof.
  intros Ha. unfold verdict. destruct (List.find final es) as [e |] eqn:Ef.
  - apply List.find_some in Ef as [_ Ef]. by destruct e.
  - by rewrite bool_decide_true.
Qed.

Lemma verdict_no_match es : verdict (NM_EFFECT_NO_MATCH :: es) = verdict es.
Proof. by rewrite verdict_cons. Qed.

(** Deny overrides: a policy allows an action exactly when one of its statements allows
    it and no statement denies it or fails, whatever the order of the statements. *)
Lemma policy_allow_iff policy action attributes :
  nm_policy_eval_simple policy action attributes = NM_EFFECT_ALLOW <->
  (exists s, s ∈ p_statements policy /\ nm_statement_eval s action attributes = NM_EFFECT_ALLOW) /\
  (forall s, s ∈ p_statements policy ->
     nm_statement_eval s action attributes <> NM_EFFECT_DENY /\
     nm_statement_eval s action attributes <> NM_EFFECT_ERROR).
Proof.
  unfold nm_policy_eval_simple. rewrite policy_eval_verdict. unfold nm_policy_eval_init.
  rewrite verdict_no_match, verdict_allow, list_elem_of_fmap, Forall_fmap, Forall_forall. cbn.
  split; intros [Ha Hf]; (split; [by destruct Ha as (s & ? & ?); exists s |]); intros s Hs;
    specialize (Hf s Hs); destruct (nm_statement_eval s action attributes); naive_solver.
Qed.

(** The outcome of a single value of a condition. *)
Definition value_matches (op : nm_condition_operator) (attributes : M) (a v : string) : Prop :=
  exists r, resolve_value attributes v = Some r /\ match_op op a r = NM_CONDITION_RESULT_MATCH.

Definition string_operator (op : nm_condition_operator) : bool :=
  match op with
  | NM_CONDITION_OPERATOR_STRING_EQUALS | NM_CONDITION_OPERATOR_STRING_NOT_EQUALS => true
  | _ => false
  end.

Lemma match_string_op op a r :
  string_operator op = true -> match_op op a r <> NM_CONDITION_RESULT_ERROR.
Proof. destruct op; try done; cbn; unfold string_equals, string_not_equals, status; by destruct (streq a r). Qed.

Lemma match_values_string op attributes a vs :
  string_operator op = true ->
  match_values op attributes a vs <> NM_CONDITION_RESULT_ERROR /\
  (match_values op attributes a vs = NM_CONDITION_RESULT_MATCH <->
   exists v, v ∈ vs /\ value_matches op attributes a v).
Proof.
  intros Hop. induction vs as [| v vs [IH1 IH2]]; cbn; [by split; [| split; [| intros (? & ?%elem_of_nil & _)]] |].
  unfold value_matches in *. destruct (resolve_value attributes v) as [r |] eqn:Er.
  - pose proof (match_string_op op a r Hop) as Hne. destruct (match_op op a r) eqn:Em; [| | done].
    + split; [done |]. split; [| done]. intros _. exists v. split; [left | eauto].
    + split; [done |]. rewrite IH2. split; [intros (w & ? & ?); exists w; by split; [right |] |].
      intros (w & [-> | ?]%elem_of_cons & r' & Hr & Hm); [congruence |]. by exists w; eauto.
  - split; [done |]. rewrite IH2. split; [intros (w & ? & ?); exists w; by split; [right |] |].
    intros (w & [-> | ?]%elem_of_cons & r' & Hr & Hm); [congruence |]. by exists w; eauto.
Qed.

(** A string condition holds exactly when the attribute is present and one of the values,
    with variables replaced by attributes and values with unknown variables left out, is
    equal to it (StringEquals) or differs from it (StringNotEquals); it never fails. So
    StringNotEquals with two different plain values holds for every value of the attribute. *)
Lemma string_condition_matches (c : nm_condition) attributes (Hop : string_operator (c_op c) = true) :
  nm_condition_matches c attributes <> NM_CONDITION_RESULT_ERROR /\
  (nm_condition_matches c attributes = NM_CONDITION_RESULT_MATCH <->
   exists a v r, sm_get attributes (c_key c) = Some a /\ v ∈ ss_elements (c_values c) /\
     resolve_value attributes v = Some r /\
     match c_op c with
     | NM_CONDITION_OPERATOR_STRING_EQUALS => a = r
     | _ => a <> r
     end) /\
  (forall v w, c_op c = NM_CONDITION_OPERATOR_STRING_NOT_EQUALS ->
     v ∈ ss_elements (c_values c) -> w ∈ ss_elements (c_values c) -> v <> w ->
     resolve_value attributes v = Some v -> resolve_value attributes w = Some w ->
     is_Some (sm_get attributes (c_key c)) ->
     nm_condition_matches c attributes = NM_CONDITION_RESULT_MATCH).
Proof.
  assert (Hv : forall a v, value_matches (c_op c) attributes a v <->
    exists r, resolve_value attributes v = Some r /\
      match c_op c with NM_CONDITION_OPERATOR_STRING_EQUALS => a = r | _ => a <> r end).
  { intros a v. unfold value_matches. destruct (c_op c); try done; cbn;
      unfold string_equals, string_not_equals, status, streq; split; intros (r & Hr & Hm); exists r; 
      (split; [done |]); case_bool_decide; done. }
  unfold nm_condition_matches. destruct (sm_get attributes (c_key c)) as [a |].
  2: { split; [done |]. split; [split; [done | naive_solver] |]. by intros * _ _ _ _ _ _ []. }
  destruct (match_values_string (c_op c) attributes a (ss_elements (c_values c)) Hop) as [Hne Hmatch].
  split; [done |]. rewrite Hmatch. split; [split |].
  - intros (v & Hin & (r & Hr & Hm)%Hv). exists a, v, r. done.
  - intros (a' & v & r & [= <-] & Hin & Hr & Hm). exists v. split; [done |]. apply Hv. exact (ex_intro _ r (conj Hr Hm)).
  - intros v w Eop Hin Hin' Hvw Ev Ew _. apply Hmatch. destruct (decide (a = v)) as [-> |]; [exists w | exists v];
      (split; [done |]; apply (proj2 (Hv _ _)); rewrite Eop; eauto).
Qed.

(** A numeric condition reads the empty string as zero. *)
Lemma parse_numeric_empty `{!StrtodLaws} : nm_condition_parse_numeric "" = Some (S754_zero false).
Proof.
  destruct (strtod_suffix "") as [used E]. unfold nm_condition_parse_numeric.
  assert (Er : (strtod "").2 = "").
  { destruct used; [by symmetry | done]. }
  pose proof (strtod_unused "" Er) as Ev. destruct (strtod "") as [v r]. cbn in *. by subst.
Qed.

(** Operators are printed by the names they are parsed from. *)
Lemma operator_roundtrip s op :
  nm_condition_parse_operator s = Some op <-> s = nm_condition_operator_to_string op.
Proof.
  unfold nm_condition_parse_operator, streq. split; [| intros ->; by destruct op].
  repeat case_bool_decide; subst; by intros [= <-].
Qed.
End Conditions.

(** ** Witnesses *)

#[local] Instance example_strtod : Strtod := fun s => (S754_zero false, s).

(** "${Connection:UserId}" and "guest" against the attribute "IAM:UserId". *)
Definition example_condition : nm_condition (T := gset string) :=
  mk_condition NM_CONDITION_OPERATOR_STRING_EQUALS "IAM:UserId" {["${Connection:UserId}"; "guest"]}.

Definition example_attributes : gmap string string :=
  <["IAM:UserId" := "1"]> (<["Connection:UserId" := "1"]> ∅).

Lemma string_condition_matches_witness :
  string_operator (c_op example_condition) = true /\
  nm_condition_matches example_condition example_attributes = NM_CONDITION_RESULT_MATCH.
Proof.
  split; [reflexivity |].
  apply (string_condition_matches example_condition example_attributes); [reflexivity |].
  exists "1", "${Connection:UserId}", "1". split; [reflexivity |].
  split; [by_compute |]. split; reflexivity.
Defined.
