(* ===== verification/PoliciesJson.v ===== *)
(** * Policies as JSON (nm_policies_from_json.c, nm_policies_to_json.c)

    cJSON is third-party code: a class of operations on its items with their documented
    behaviour as laws, and an instance on trees. The theorem is the round trip: printing a
    policy and parsing the result gives the policy back. *)

From S2P Require Import Prelude Collections Policies.
From Stdlib Require Import SpecFloat.
From stdpp Require Import sets gmap.

#[local] Open Scope string_scope.
#[local] Open Scope list_scope.

(** ** Interface of cJSON *)

(** Names of object members are compared without regard to case. *)
Definition lower (a : Ascii.ascii) : Ascii.ascii :=
  let n := Ascii.nat_of_ascii a in
  if (65 <=? n)%nat && (n <=? 90)%nat then Ascii.ascii_of_nat (n + 32) else a.

Fixpoint lowercase (s : string) : string :=
  match s with EmptyString => EmptyString | String a r => String (lower a) (lowercase r) end.

Definition same_name (a b : string) : bool := bool_decide (lowercase a = lowercase b).

Class CJson (J : Type) : Type := {
  cJSON_IsObject : J -> bool;
  cJSON_IsArray : J -> bool;
  cJSON_IsString : J -> bool;
  (* the children of an item in order, each with its name ([string]); the names of the
     elements of an array are empty *)
  cj_children : J -> list (string * J);
  cj_valuestring : J -> string;
  cJSON_CreateObject : J;
  cJSON_CreateArray : J;
  cJSON_CreateString : string -> J;
  cJSON_AddItemToObject : J -> string -> J -> J;
  cJSON_AddItemToArray : J -> J -> J
}.

Section Observers.
Context {J : Type} `{CJson J}.

(** [cJSON_GetObjectItem]: the first member with the name. *)
Definition cJSON_GetObjectItem (j : J) (name : string) : option J :=
  snd <$> List.find (fun c => same_name c.1 name) (cj_children j).

(** The children as [cJSON_GetArrayItem] yields them up to [cJSON_GetArraySize]. *)
Definition cj_items (j : J) : list J := (cj_children j).*2.

(** The type tests answer false for NULL. *)
Definition is_object (j : option J) : bool := match j with Some j => cJSON_IsObject j | None => false end.
Definition is_array (j : option J) : bool := match j with Some j => cJSON_IsArray j | None => false end.
Definition is_string (j : option J) : bool := match j with Some j => cJSON_IsString j | None => false end.
End Observers.

Class CJsonLaws (J : Type) `{CJson J} : Prop := {
  cj_object_new : cJSON_IsObject cJSON_CreateObject = true /\ cj_children cJSON_CreateObject = [];
  cj_array_new : cJSON_IsArray cJSON_CreateArray = true /\ cj_children cJSON_CreateArray = [];
  cj_string_new : forall s, cJSON_IsString (cJSON_CreateString s) = true /\
    cj_valuestring (cJSON_CreateString s) = s;
  cj_object_add : forall j name item, cJSON_IsObject j = true ->
    cJSON_IsObject (cJSON_AddItemToObject j name item) = true /\
    cj_children (cJSON_AddItemToObject j name item) = cj_children j ++ [(name, item)];
  cj_array_add : forall j item, cJSON_IsArray j = true ->
    cJSON_IsArray (cJSON_AddItemToArray j item) = true /\
    cj_items (cJSON_AddItemToArray j item) = cj_items j ++ [item];
  cj_kinds : forall j, cJSON_IsArray j = true -> cJSON_IsString j = false
}.

(** ** From JSON *)

Section Json.
Context {J : Type} `{CJson J} {T : Type} `{StringSet T}.

Abbreviation nm_condition := (nm_condition (T := T)).
Abbreviation nm_statement := (nm_statement (T := T)).
Abbreviation nm_policy := (nm_policy (T := T)).

(** The loop of [nm_condition_from_json_parse]: the result of the insertion is not used. *)
Fixpoint parse_values (items : list J) (values : T) : option T :=
  match items with
  | [] => Some values
  | value :: rest =>
      if negb (cJSON_IsString value) then None
      else parse_values rest (ss_insert values (cj_valuestring value)).2
  end.

(** [kv] is [operation->child], with its name. *)
Definition nm_condition_from_json_parse (kv : option (string * J)) (op : nm_condition_operator) :
    option nm_condition :=
  match kv with
  | None => None
  | Some (name, json) =>
      if negb (cJSON_IsArray json) then None
      else mk_condition op name <$> parse_values (cj_items json) ss_empty
  end.

Definition nm_condition_from_json (json : J) : option nm_condition :=
  if negb (cJSON_IsObject json) then None
  else
    match head (cj_children json) with
    | None => None
    | Some (name, operation) =>
        if negb (cJSON_IsObject operation) then None
        else
          match nm_condition_parse_operator name with
          | None => None
          | Some op => nm_condition_from_json_parse (head (cj_children operation)) op
          end
    end.

(** The loop over the actions: a failed insertion ends the parsing. *)
Fixpoint parse_actions (items : list J) (actions : T) : option T :=
  match items with
  | [] => Some actions
  | action :: rest =>
      if negb (cJSON_IsString action) then None
      else
        let '(inserted, actions) := ss_insert actions (cj_valuestring action) in
        if negb inserted then None else parse_actions rest actions
  end.

(** A loop that builds a vector of the parsed items, or fails. *)
Fixpoint parse_all {A} (parse : J -> option A) (items : list J) : option (list A) :=
  match items with
  | [] => Some []
  | item :: rest =>
      match parse item with
      | None => None
      | Some a => cons a <$> parse_all parse rest
      end
  end.

Definition nm_statement_from_json_parse (actions : J) (conditions : option J) (effect : nm_effect) :
    option nm_statement :=
  match parse_actions (cj_items actions) ss_empty with
  | None => None
  | Some acts =>
      match conditions with
      | Some c =>
          if cJSON_IsArray c
          then mk_statement effect acts <$> parse_all nm_condition_from_json (cj_items c)
          else Some (mk_statement effect acts [])
      | None => Some (mk_statement effect acts [])
      end
  end.

Definition nm_statement_from_json (json : J) : option nm_statement :=
  if negb (cJSON_IsObject json) then None
  else
    let conditions := cJSON_GetObjectItem json "Conditions" in
    match cJSON_GetObjectItem json "Effect", cJSON_GetObjectItem json "Actions" with
    | Some effect, Some actions =>
        if negb (cJSON_IsString effect) || negb (cJSON_IsArray actions) then None
        else if streq (cj_valuestring effect) "Allow"
        then nm_statement_from_json_parse actions conditions NM_EFFECT_ALLOW
        else if streq (cj_valuestring effect) "Deny"
        then nm_statement_from_json_parse actions conditions NM_EFFECT_DENY
        else None
    | _, _ => None
    end.

Definition nm_policy_from_json_parse (statements : J) : option (list nm_statement) :=
  parse_all nm_statement_from_json (cj_items statements).

Definition nm_policy_from_json (json : J) : option nm_policy :=
  if negb (cJSON_IsObject json) then None
  else
    match cJSON_GetObjectItem json "Id", cJSON_GetObjectItem json "Statements" with
    | Some id, Some statements =>
        if negb (cJSON_IsString id) || negb (cJSON_IsArray statements) then None
        else mk_policy (cj_valuestring id) <$> nm_policy_from_json_parse statements
    | _, _ => None
    end.

(** ** To JSON *)

Definition to_array (items : list J) : J := fold_left cJSON_AddItemToArray items cJSON_CreateArray.

Definition nm_string_set_to_json (set : T) : J := to_array (map cJSON_CreateString (ss_elements set)).

Definition nm_condition_to_json (condition : nm_condition) : J :=
  let kv := cJSON_AddItemToObject cJSON_CreateObject (c_key condition)
              (nm_string_set_to_json (c_values condition)) in
  cJSON_AddItemToObject cJSON_CreateObject (nm_condition_operator_to_string (c_op condition)) kv.

Definition nm_conditions_to_json (conditions : list nm_condition) : J :=
  to_array (map nm_condition_to_json conditions).

Definition nm_statement_to_json (statement : nm_statement) : J :=
  let json := cJSON_CreateObject in
  let json := match s_effect statement with
              | NM_EFFECT_ALLOW => cJSON_AddItemToObject json "Effect" (cJSON_CreateString "Allow")
              | NM_EFFECT_DENY => cJSON_AddItemToObject json "Effect" (cJSON_CreateString "Deny")
              | _ => json
              end in
  let json := cJSON_AddItemToObject json "Actions" (nm_string_set_to_json (s_actions statement)) in
  match s_conditions statement with
  | [] => json
  | conditions => cJSON_AddItemToObject json "Conditions" (nm_conditions_to_json conditions)
  end.

Definition nm_statements_to_json (statements : list nm_statement) : J :=
  to_array (map nm_statement_to_json statements).

Definition nm_policy_to_json (policy : nm_policy) : J :=
  let json := cJSON_AddItemToObject cJSON_CreateObject "Id" (cJSON_CreateString (p_id policy)) in
  cJSON_AddItemToObject json "Statements" (nm_statements_to_json (p_statements policy)).

(** ** The round trip *)

(** Sets with the same elements, and conditions, statements and policies that agree up to
    the representation of their sets. *)
Definition set_equiv (s s' : T) : Prop := forall x, x ∈ ss_elements s <-> x ∈ ss_elements s'.

Definition condition_equiv (c c' : nm_condition) : Prop :=
  c_op c = c_op c' /\ c_key c = c_key c' /\ set_equiv (c_values c) (c_values c').

Definition statement_equiv (s s' : nm_statement) : Prop :=
  s_effect s = s_effect s' /\ set_equiv (s_actions s) (s_actions s') /\
  Forall2 condition_equiv (s_conditions s) (s_conditions s').

Definition policy_equiv (p p' : nm_policy) : Prop :=
  p_id p = p_id p' /\ Forall2 statement_equiv (p_statements p) (p_statements p').

(** Statements are made with one of the two effects. *)
Definition policy_ok (p : nm_policy) : Prop :=
  Forall (fun s => s_effect s = NM_EFFECT_ALLOW \/ s_effect s = NM_EFFECT_DENY) (p_statements p).

Context `{!CJsonLaws J, !StringSetLaws T}.
Hypothesis memory : forall (s : T) x, (ss_insert s x).1 = true.

Lemma to_array_items items :
  cJSON_IsArray (to_array items) = true /\ cj_items (to_array items) = items.
Proof.
  unfold to_array.
  assert (Hg : forall items j, cJSON_IsArray j = true ->
    cJSON_IsArray (fold_left cJSON_AddItemToArray items j) = true /\
    cj_items (fold_left cJSON_AddItemToArray items j) = cj_items j ++ items).
  { clear items. intros items. induction items as [| i items IH]; intros j Hj; [by rewrite app_nil_r |].
    destruct (cj_array_add j i Hj) as [Ha Hi]. destruct (IH _ Ha) as [Ha' Hi']. cbn.
    by rewrite Ha', Hi', Hi, <- app_assoc. }
  destruct cj_array_new as [Ha Hc]. destruct (Hg items _ Ha) as [? ->].
  unfold cj_items. by rewrite Hc.
Qed.

Lemma parse_values_strings l : forall s, exists s',
  parse_values (map cJSON_CreateString l) s = Some s' /\
  forall x, x ∈ ss_elements s' <-> x ∈ l \/ x ∈ ss_elements s.
Proof.
  induction l as [| y l IH]; intros s; cbn [parse_values map]; [eexists; split; [done | set_solver] |].
  destruct (cj_string_new y) as [-> ->]. destruct (ss_insert s y) as [b s1] eqn:Ei.
  pose proof (memory s y) as Hb. rewrite Ei in Hb. cbn in Hb. subst b.
  destruct (IH s1) as (s' & Hp & Hx). exists s'. split; [done |].
  intros x. rewrite Hx, (ss_insert_spec _ _ _ Ei). set_solver.
Qed.

Lemma parse_actions_values items : forall s, parse_actions items s = parse_values items s.
Proof.
  induction items as [| i items IH]; intros s; cbn; [done |]. destruct (cJSON_IsString i); [| done].
  pose proof (memory s (cj_valuestring i)) as Hb. cbn. destruct (ss_insert s _) as [b s1]. cbn in *. subst b. apply IH.
Qed.

Lemma string_set_roundtrip set :
  cJSON_IsArray (nm_string_set_to_json set) = true /\
  exists set', parse_values (cj_items (nm_string_set_to_json set)) ss_empty = Some set' /\ set_equiv set set'.
Proof.
  unfold nm_string_set_to_json. destruct (to_array_items (map cJSON_CreateString (ss_elements set))) as [-> ->].
  split; [done |]. destruct (parse_values_strings (ss_elements set) ss_empty) as (s' & Hp & Hx).
  exists s'. split; [done |]. intros x. rewrite Hx, ss_empty_elements. set_solver.
Qed.

Lemma object_1 name item :
  cJSON_IsObject (cJSON_AddItemToObject cJSON_CreateObject name item) = true /\
  cj_children (cJSON_AddItemToObject cJSON_CreateObject name item) = [(name, item)].
Proof.
  destruct cj_object_new as [Ho Hc]. destruct (cj_object_add cJSON_CreateObject name item Ho) as [-> ->].
  by rewrite Hc.
Qed.

Lemma condition_roundtrip c :
  exists c', nm_condition_from_json (nm_condition_to_json c) = Some c' /\ condition_equiv c c'.
Proof.
  unfold nm_condition_from_json, nm_condition_to_json. cbv zeta.
  edestruct object_1 as [-> ->]. cbn [negb head]. edestruct object_1 as [-> ->]. cbn [negb head].
  destruct (string_set_roundtrip (c_values c)) as (Ha & s' & Hp & Heq).
  replace (nm_condition_parse_operator _) with (Some (c_op c)) by (by destruct (c_op c)).
  unfold nm_condition_from_json_parse. rewrite Ha, Hp. eexists. split; [reflexivity | done].
Qed.

Lemma parse_all_map {A} (parse : J -> option A) (print : A -> J) (equiv : A -> A -> Prop) l :
  Forall (fun a => exists a', parse (print a) = Some a' /\ equiv a a') l ->
  exists l', parse_all parse (map print l) = Some l' /\ Forall2 equiv l l'.
Proof.
  induction 1 as [| a l (a' & Ha & Hea) _ (l' & Hl & Hel)]; cbn; [by exists [] |].
  rewrite Ha, Hl. exists (a' :: l'). split; [done | by constructor].
Qed.

Lemma statement_roundtrip s :
  s_effect s = NM_EFFECT_ALLOW \/ s_effect s = NM_EFFECT_DENY ->
  exists s', nm_statement_from_json (nm_statement_to_json s) = Some s' /\ statement_equiv s s'.
Proof.
  intros He.
  destruct (string_set_roundtrip (s_actions s)) as (Ha & acts & Hacts & Heqa).
  rewrite <- parse_actions_values in Hacts.
  destruct (parse_all_map nm_condition_from_json nm_condition_to_json condition_equiv (s_conditions s))
    as (cs & Hcs & Heqc); [apply Forall_forall; intros c _; apply condition_roundtrip |].
  set (effect := if decide (s_effect s = NM_EFFECT_ALLOW) then "Allow" else "Deny").
  assert (Hj : exists j, nm_statement_to_json s = j /\ cJSON_IsObject j = true /\
    cj_children j = [("Effect", cJSON_CreateString effect); ("Actions", nm_string_set_to_json (s_actions s))] ++
      match s_conditions s with [] => [] | l => [("Conditions", nm_conditions_to_json l)] end).
  { eexists. split; [reflexivity |]. unfold nm_statement_to_json. cbv zeta.
    assert (E1 : match s_effect s with
      | NM_EFFECT_ALLOW => cJSON_AddItemToObject cJSON_CreateObject "Effect" (cJSON_CreateString "Allow")
      | NM_EFFECT_DENY => cJSON_AddItemToObject cJSON_CreateObject "Effect" (cJSON_CreateString "Deny")
      | _ => cJSON_CreateObject end = cJSON_AddItemToObject cJSON_CreateObject "Effect" (cJSON_CreateString effect))
      by (unfold effect; destruct He as [-> | ->]; done).
    rewrite E1. destruct (object_1 "Effect" (cJSON_CreateString effect)) as [O1 C1].
    destruct (cj_object_add _ "Actions" (nm_string_set_to_json (s_actions s)) O1) as [O2 C2]. rewrite C1 in C2.
    destruct (s_conditions s) as [| c0 l]; [by rewrite O2, C2 |].
    destruct (cj_object_add _ "Conditions" (nm_conditions_to_json (c0 :: l)) O2) as [-> ->]. by rewrite C2. }
  destruct Hj as (j & -> & Ho & Hc).
  assert (Hget : cJSON_GetObjectItem j "Effect" = Some (cJSON_CreateString effect) /\
    cJSON_GetObjectItem j "Actions" = Some (nm_string_set_to_json (s_actions s)) /\
    cJSON_GetObjectItem j "Conditions" =
      match s_conditions s with [] => None | l => Some (nm_conditions_to_json l) end)
    by (unfold cJSON_GetObjectItem; rewrite Hc; by destruct (s_conditions s)).
  destruct Hget as (G1 & G2 & G3).
  assert (Hparse : exists s', nm_statement_from_json_parse (nm_string_set_to_json (s_actions s))
      (cJSON_GetObjectItem j "Conditions") (s_effect s) = Some s' /\ statement_equiv s s').
  { unfold nm_statement_from_json_parse. rewrite Hacts, G3. destruct (s_conditions s) as [| c0 l] eqn:El.
    - eexists. split; [reflexivity |]. split; [done |]. split; [done |]. rewrite El. constructor.
    - unfold nm_conditions_to_json. destruct (to_array_items (map nm_condition_to_json (c0 :: l))) as [-> ->].
      rewrite Hcs. eexists. split; [reflexivity |]. split; [done |]. split; [done |]. by rewrite El. }
  unfold nm_statement_from_json. rewrite Ho, G1, G2, Ha. destruct (cj_string_new effect) as [-> ->].
  unfold effect. by destruct He as [He | He]; rewrite He in *.
Qed.

(** Printing a policy as JSON and parsing the result gives the policy back: the same id,
    and in order the same statements, with the same effect, the same actions, and in order the
    same conditions, with the same operator, key and values. *)
Lemma policy_json_roundtrip p (Hp : policy_ok p) :
  exists p', nm_policy_from_json (nm_policy_to_json p) = Some p' /\ policy_equiv p p'.
Proof.
  destruct (parse_all_map nm_statement_from_json nm_statement_to_json statement_equiv (p_statements p))
    as (ss & Hss & Heq); [eapply Forall_impl; [exact Hp | apply statement_roundtrip] |].
  unfold nm_policy_from_json, nm_policy_to_json, nm_policy_from_json_parse. cbv zeta.
  destruct (object_1 "Id" (cJSON_CreateString (p_id p))) as [O1 C1].
  destruct (cj_object_add _ "Statements" (nm_statements_to_json (p_statements p)) O1) as [-> C2].
  rewrite C1 in C2.
  set (j := cJSON_AddItemToObject _ "Statements" _) in *.
  assert (G1 : cJSON_GetObjectItem j "Id" = Some (cJSON_CreateString (p_id p)))
    by (unfold cJSON_GetObjectItem; by rewrite C2).
  assert (G2 : cJSON_GetObjectItem j "Statements" = Some (nm_statements_to_json (p_statements p)))
    by (unfold cJSON_GetObjectItem; by rewrite C2).
  rewrite G1, G2. destruct (cj_string_new (p_id p)) as [-> ->]. unfold nm_statements_to_json.
  destruct (to_array_items (map nm_statement_to_json (p_statements p))) as [-> ->].
  rewrite Hss. eexists. split; [reflexivity | done].
Qed.
End Json.

(** ** JSON trees *)

Inductive json : Type :=
| JString (s : string)
| JArray (l : list json)
| JObject (l : list (string * json))
| JNumber (f : spec_float)
| JOther.

#[global] Instance json_cjson : CJson json := {
  cJSON_IsObject := fun j => match j with JObject _ => true | _ => false end;
  cJSON_IsArray := fun j => match j with JArray _ => true | _ => false end;
  cJSON_IsString := fun j => match j with JString _ => true | _ => false end;
  cj_children := fun j => match j with
                          | JObject l => l
                          | JArray l => map (fun v => (""%string, v)) l
                          | _ => [] end;
  cj_valuestring := fun j => match j with JString s => s | _ => "" end;
  cJSON_CreateObject := JObject [];
  cJSON_CreateArray := JArray [];
  cJSON_CreateString := JString;
  cJSON_AddItemToObject := fun j name item =>
    match j with JObject l => JObject (l ++ [(name, item)]) | _ => j end;
  cJSON_AddItemToArray := fun j item => match j with JArray l => JArray (l ++ [item]) | _ => j end
}.

#[global] Instance json_cjson_laws : CJsonLaws json.
Proof.
  split; try done.
  - by intros [].
  - intros [] item; try done. intros _. split; [done |]. unfold cj_items. cbn.
    by rewrite map_app, fmap_app.
  - by intros [].
Qed.

Definition example_policy : nm_policy (T := gset string) :=
  mk_policy "self" [mk_statement NM_EFFECT_ALLOW {["IAM:GetUser"; "IAM:ListUsers"]}
    [mk_condition NM_CONDITION_OPERATOR_STRING_EQUALS "IAM:UserId" {["${Connection:UserId}"]}]].

Lemma policy_json_roundtrip_witness :
  policy_ok example_policy /\
  exists p', nm_policy_from_json (nm_policy_to_json (J := json) example_policy) = Some p' /\
    policy_equiv example_policy p'.
Proof.
  assert (Hok : policy_ok example_policy) by (repeat constructor).
  split; [exact Hok |].
  apply (policy_json_roundtrip (J := json) (T := gset string)); [by intros | exact Hok].
Defined.
