(* ===== verification/Iam.v ===== *)
(** * Identity and access management (modules/iam)

    Users with roles, roles with policies, the access decision, the pairing of new users, and
    the CoAP handlers that change or list them. The device API - the fingerprint of a
    connection, new server connect tokens, the CoAP request - answers through [iam_request];
    the calls to it are the trace. Memory allocations of the user records succeed. *)

From S2P Require Import Prelude Collections Cbor Policies.
From stdpp Require Import sets gmap pretty.

#[local] Open Scope Z_scope.
#[local] Open Scope list_scope.
#[local] Open Scope handler_scope.

Inductive iam_call : Type :=
| IamAddServerConnectToken (token : string)
| IamUserChanged (userId : string)
| IamCoapError (code : Z)
| IamCoapReady (code : Z) (payload : option (list cbor_token)).

(** What a request and the device answer while it is handled. *)
Record iam_request : Type := mk_rq {
  rq_fingerprint : option string;       (* get_client_fingerprint_full_hex *)
  rq_local : bool;                      (* nabto_device_connection_is_local *)
  rq_parameter : string -> option string;
  rq_cbor : bool;                       (* the content format is CBOR *)
  rq_payload : option (list Z);
  rq_token : option string;             (* create_server_connect_token *)
  rq_malloc : bool;
  rq_set_payload : bool
}.

(** A C string from bytes, up to the first NUL. *)
Definition string_of_codes (l : list Z) : string :=
  String.string_of_list_ascii (map (fun c => Ascii.ascii_of_nat (Z.to_nat c)) (cstr l)).

Section Iam.
Context `{Strtod} {T : Type} `{StringSet T} {M : Type} `{StringMap M}.

Abbreviation nm_policy := (nm_policy (T := T)).
Abbreviation nm_statement := (nm_statement (T := T)).

Record nm_iam_user : Type := mk_user {
  u_id : string;
  u_roles : T;
  u_fingerprint : option string;
  u_serverConnectToken : option string;
  u_attributes : M
}.

Record nm_iam_role : Type := mk_role {
  r_id : string;
  r_policies : T
}.

Record nm_iam : Type := mk_iam {
  iam_users : list nm_iam_user;
  iam_roles : list nm_iam_role;
  iam_policies : list nm_policy;
  iam_pairingPassword : option string;
  iam_userChanged : bool                (* changeCallbacks.userChanged != NULL *)
}.

Definition iam_handler (A : Type) : Type := handler nm_iam iam_call A.
Definition iam_uhandler (A : Type) : Type := uhandler nm_iam iam_call A.

(** ** Users and roles (nm_iam_user.c, nm_iam_role.c) *)

Definition nm_iam_user_new (id : string) : nm_iam_user := mk_user id ss_empty None None sm_empty.

Definition nm_iam_user_add_role (user : nm_iam_user) (roleId : string) : bool * nm_iam_user :=
  let '(inserted, roles) := ss_insert (u_roles user) roleId in
  (inserted, user {{ u_roles := roles }}).

Definition nm_iam_user_remove_role (user : nm_iam_user) (roleId : string) : nm_iam_user :=
  user {{ u_roles ::= fun roles => ss_erase roles roleId }}.

Definition nm_iam_role_new (id : string) : nm_iam_role := mk_role id ss_empty.

Definition nm_iam_role_add_policy (role : nm_iam_role) (policy : string) : bool * nm_iam_role :=
  let '(inserted, policies) := ss_insert (r_policies role) policy in
  (inserted, role {{ r_policies := policies }}).

(** ** Initialization (nm_iam.c); registering the CoAP resources is left out *)

Definition nm_iam_init : nm_iam := mk_iam [] [] [] None false.

Definition nm_iam_set_user_changed_callback : iam_handler unit :=
  hmod (fun iam => iam {{ iam_userChanged := true }}).

(** ** Look-up *)

(** Comparing with a user without fingerprint is undefined. *)
Fixpoint find_fingerprint (users : list nm_iam_user) (fingerprint : string) : cres (option nm_iam_user) :=
  match users with
  | [] => Def None
  | user :: rest =>
      match u_fingerprint user with
      | None => UB
      | Some f => if streq f fingerprint then Def (Some user) else find_fingerprint rest fingerprint
      end
  end.

Definition nm_iam_find_user_by_fingerprint (iam : nm_iam) (fingerprint : string) : cres (option nm_iam_user) :=
  find_fingerprint (iam_users iam) fingerprint.

Definition nm_iam_find_role (iam : nm_iam) (roleStr : string) : option nm_iam_role :=
  List.find (fun role => streq (r_id role) roleStr) (iam_roles iam).

Definition nm_iam_find_policy (iam : nm_iam) (policyStr : string) : option nm_policy :=
  List.find (fun policy => streq (p_id policy) policyStr) (iam_policies iam).

Definition nm_iam_find_user_by_id (iam : nm_iam) (id : string) : option nm_iam_user :=
  List.find (fun user => streq (u_id user) id) (iam_users iam).

Definition nm_iam_find_user (iam : nm_iam) (id : string) : option nm_iam_user :=
  nm_iam_find_user_by_id iam id.

Definition nm_iam_find_user_by_coap_request (iam : nm_iam) (rq : iam_request) : cres (option nm_iam_user) :=
  match rq_fingerprint rq with
  | None => Def None
  | Some fp => nm_iam_find_user_by_fingerprint iam fp
  end.

(** ** The access decision *)

(** The loop of [nm_iam_check_access_role]; a policy that does not exist is dereferenced. *)
Fixpoint eval_policies (iam : nm_iam) (state : nm_effect) (policies : list string) (action : string)
    (attributes : M) : cres nm_effect :=
  match policies with
  | [] => Def state
  | policyStr :: rest =>
      match nm_iam_find_policy iam policyStr with
      | None => UB
      | Some policy => eval_policies iam (nm_policy_eval state policy action attributes) rest action attributes
      end
  end.

Definition nm_iam_check_access_role (iam : nm_iam) (role : nm_iam_role) (action : string) (attributes : M) :
    cres nm_effect :=
  eval_policies iam nm_policy_eval_init (ss_elements (r_policies role)) action attributes.

(** The loop of [nm_iam_check_access_user]. *)
Fixpoint eval_roles (iam : nm_iam) (result : nm_effect) (roles : list string) (action : string)
    (attributes : M) : cres nm_effect :=
  match roles with
  | [] => Def result
  | roleStr :: rest =>
      match nm_iam_find_role iam roleStr with
      | None => Def NM_EFFECT_ERROR
      | Some role =>
          match nm_iam_check_access_role iam role action attributes with
          | UB => UB
          | Def NM_EFFECT_ERROR => Def NM_EFFECT_ERROR
          | Def NM_EFFECT_DENY => Def NM_EFFECT_DENY
          | Def NM_EFFECT_ALLOW => eval_roles iam NM_EFFECT_ALLOW rest action attributes
          | Def NM_EFFECT_NO_MATCH => eval_roles iam result rest action attributes
          end
      end
  end.

Definition nm_iam_check_access_user (iam : nm_iam) (user : nm_iam_user) (action : string) (attributes : M) :
    cres nm_effect :=
  eval_roles iam NM_EFFECT_NO_MATCH (ss_elements (u_roles user)) action attributes.

Definition is_allow (e : nm_effect) : bool := match e with NM_EFFECT_ALLOW => true | _ => false end.

(** The attributes of the caller copied to a new map. *)
Definition copy_attributes (attributesIn : option M) : M :=
  match attributesIn with
  | None => sm_empty
  | Some m => fold_left (fun m kv => sm_insert m kv.1 kv.2) (sm_items m) sm_empty
  end.

Definition nm_iam_check_access (iam : nm_iam) (fingerprint : option string) (action : string)
    (attributesIn : option M) : cres bool :=
  match fingerprint with
  | None => Def false
  | Some fp =>
      let attributes := copy_attributes attributesIn in
      cres_bind (nm_iam_find_user_by_fingerprint iam fp) (fun user =>
      cres_bind
        (match user with
         | Some user =>
             nm_iam_check_access_user iam user action (sm_insert attributes "Connection:UserId" (u_id user))
         | None =>
             match nm_iam_find_role iam "Unpaired" with
             | None => Def NM_EFFECT_ERROR
             | Some unpaired => nm_iam_check_access_role iam unpaired action attributes
             end
         end)
        (fun effect => Def (is_allow effect)))
  end.

(** ** Changing users *)

Definition notify_changed (userId : string) : iam_handler unit :=
  let* iam := hget in if iam_userChanged iam then emit (IamUserChanged userId) else hskip.

Definition nm_iam_add_user (user : nm_iam_user) : iam_handler bool :=
  hmod (fun iam => iam {{ iam_users ::= fun users => users ++ [user] }}) ;;;
  match u_serverConnectToken user with
  | Some token => emit (IamAddServerConnectToken token)
  | None => hskip
  end ;;;
  notify_changed (u_id user) ;;;
  hret true.

Definition nm_iam_add_role (role : nm_iam_role) : iam_handler bool :=
  hmod (fun iam => iam {{ iam_roles ::= fun roles => roles ++ [role] }}) ;;; hret true.

Definition nm_iam_add_policy (policy : nm_policy) : iam_handler bool :=
  hmod (fun iam => iam {{ iam_policies ::= fun policies => policies ++ [policy] }}) ;;; hret true.

Definition nm_iam_enable_password_pairing (pairingPassword : string) : iam_handler bool :=
  hmod (fun iam => iam {{ iam_pairingPassword := Some pairingPassword }}) ;;; hret true.

Definition nm_iam_enable_remote_pairing (token : string) : iam_handler bool :=
  emit (IamAddServerConnectToken token) ;;; hret true.

Definition nm_iam_get_users (iam : nm_iam) (ids : T) : T :=
  fold_left (fun ids user => (ss_insert ids (u_id user)).2) (iam_users iam) ids.

(** The first user with the id is erased. *)
Fixpoint erase_user (users : list nm_iam_user) (userId : string) : option (list nm_iam_user) :=
  match users with
  | [] => None
  | user :: rest =>
      if streq (u_id user) userId then Some rest else cons user <$> erase_user rest userId
  end.

Definition nm_iam_delete_user (userId : string) : iam_handler unit :=
  let* iam := hget in
  match erase_user (iam_users iam) userId with
  | None => hskip
  | Some users => hmod (fun iam => iam {{ iam_users := users }}) ;;; notify_changed userId
  end.

(** An update of the record of the first user with the id. *)
Fixpoint update_user (users : list nm_iam_user) (userId : string) (f : nm_iam_user -> nm_iam_user) :
    list nm_iam_user :=
  match users with
  | [] => []
  | user :: rest =>
      if streq (u_id user) userId then f user :: rest else user :: update_user rest userId f
  end.

Definition nm_iam_remove_role_from_user (userId roleId : string) : iam_handler unit :=
  let* iam := hget in
  match nm_iam_find_user iam userId with
  | None => hskip
  | Some _ =>
      hmod (fun iam => iam {{ iam_users ::= fun users =>
        update_user users userId (fun u => nm_iam_user_remove_role u roleId) }}) ;;;
      notify_changed userId
  end.

Definition nm_iam_add_role_to_user (userId roleId : string) : iam_handler bool :=
  let* iam := hget in
  match nm_iam_find_user iam userId, nm_iam_find_role iam roleId with
  | Some user, Some _ =>
      let '(status, user') := nm_iam_user_add_role user roleId in
      hmod (fun iam => iam {{ iam_users ::= fun users => update_user users userId (fun _ => user') }}) ;;;
      (if status then notify_changed userId else hskip) ;;;
      hret status
  | _, _ => hret false
  end.

(** The [do] loop of [nm_iam_next_user_id], from [i]: the first decimal number above [i] that
    is no user's id. *)
Fixpoint next_id (iam : nm_iam) (fuel : nat) (i : N) : option string :=
  match fuel with
  | O => None
  | S fuel =>
      let i := (i + 1)%N in
      let id := pretty i in
      match nm_iam_find_user_by_id iam id with
      | Some _ => next_id iam fuel i
      | None => Some id
      end
  end.

Definition nm_iam_next_user_id (iam : nm_iam) : option string :=
  next_id iam (S (length (iam_users iam))) 0.

(** The id of the user that is the client of the request, new or old; [None] is NULL. A loop
    that does not end would be undefined here; [next_user_id_fresh] excludes it. *)
Definition nm_iam_pair_new_client (rq : iam_request) : iam_uhandler (option nm_iam_user) :=
  let+ iam := ulift hget in
  let+ user := uof (nm_iam_find_user_by_coap_request iam rq) in
  match user with
  | Some user => ulift (hret (Some user))
  | None =>
      match rq_fingerprint rq with
      | None => ulift (hret None)
      | Some fingerprint =>
          let roleStr := if (length (iam_users iam) =? 0)%nat then "Admin"%string else "User"%string in
          match nm_iam_find_role iam roleStr with
          | None => ulift (hret None)
          | Some _ =>
              match rq_token rq with
              | None => ulift (hret None)
              | Some sct =>
                  match nm_iam_next_user_id iam with
                  | None => fun _ => UB
                  | Some nextId =>
                      let user := nm_iam_user_new nextId in
                      let user := user {{ u_roles := (ss_insert (u_roles user) roleStr).2;
                                          u_fingerprint := Some fingerprint;
                                          u_serverConnectToken := Some sct }} in
                      ulift (nm_iam_add_user user ;;; hret (Some user))
                  end
              end
          end
      end
  end.

(** ** CoAP handlers *)

Section Handlers.
Context {V : Type} `{CborDec V}.

(** [nm_iam_cbor_decode_string]: the length is not set when it cannot be calculated. *)
Definition nm_iam_cbor_decode_string (rq : iam_request) (value : V) : cres (option string) :=
  if cv_is_text_string value then
    match cv_string_length value with
    | None => UB
    | Some nameLength =>
        if (nameLength <? 1024)%nat && rq_malloc rq
        then Def (Some (string_of_codes (cv_string value))) else Def None
    end
  else Def None.

Definition nm_iam_cbor_decode_kv_string (rq : iam_request) (map : V) (key : string) : cres (option string) :=
  if negb (cv_is_map map) then Def None
  else nm_iam_cbor_decode_string rq (cv_find map key).

(** [nm_iam_cbor_init_parser] answers the error itself; its callers answer again. *)
Definition nm_iam_cbor_init_parser (rq : iam_request) : iam_handler (option V) :=
  if negb (rq_cbor rq) then emit (IamCoapError 400) ;;; hret None
  else
    match rq_payload rq with
    | None => emit (IamCoapError 400) ;;; hret None
    | Some payload => hret (Some (cv_parse payload))
    end.

(** The end of a pairing handler. *)
Definition finish_pairing (rq : iam_request) : iam_uhandler unit :=
  let+ user := nm_iam_pair_new_client rq in
  match user with
  | None => ulift (emit (IamCoapError 500))
  | Some _ => ulift (emit (IamCoapReady 201 None))
  end.

Definition check_access (rq : iam_request) (action : string) (attributes : option M) : iam_uhandler bool :=
  let+ iam := ulift hget in uof (nm_iam_check_access iam (rq_fingerprint rq) action attributes).

(** The password in the old format, a text string, or in the new one, a map. *)
Definition decode_password (rq : iam_request) (value : V) : cres (option string) :=
  cres_bind (nm_iam_cbor_decode_string rq value) (fun plain =>
    match plain with
    | Some p => Def (Some p)
    | None => nm_iam_cbor_decode_kv_string rq value "Password"
    end).

(** nm_iam_pairing_password.c; [strcmp] with a password that is not set is undefined. *)
Definition pairing_password_handle_request (rq : iam_request) : iam_uhandler unit :=
  let+ access := check_access rq "Pairing:Password" None in
  if negb access then ulift (emit (IamCoapError 403))
  else
    match rq_fingerprint rq with
    | None => ulift (emit (IamCoapError 500))
    | Some _ =>
        let+ parsed := ulift (nm_iam_cbor_init_parser rq) in
        match parsed with
        | None => ulift (emit (IamCoapError 400))
        | Some value =>
            let+ password := uof (decode_password rq value) in
            match password with
            | None => ulift (emit (IamCoapError 400))
            | Some password =>
                let+ _ := uof (nm_iam_cbor_decode_kv_string rq value "Name") in
                let+ iam := ulift hget in
                match iam_pairingPassword iam with
                | None => fun _ => UB
                | Some pairingPassword =>
                    if negb (streq password pairingPassword) then ulift (emit (IamCoapError 401))
                    else finish_pairing rq
                end
            end
        end
    end.

(** nm_iam_pairing_local.c *)
Definition pairing_local_handle_request (rq : iam_request) : iam_uhandler unit :=
  let+ access := check_access rq "Pairing:Local" None in
  if negb access || negb (rq_local rq) then ulift (emit (IamCoapError 403))
  else
    match rq_fingerprint rq with
    | None => ulift (emit (IamCoapError 500))
    | Some _ =>
        let+ parsed := ulift (nm_iam_cbor_init_parser rq) in
        match parsed with
        | None => ulift (emit (IamCoapError 400))
        | Some value =>
            let+ _ := uof (nm_iam_cbor_decode_kv_string rq value "Name") in
            finish_pairing rq
        end
    end.

(** nm_iam_is_paired.c *)
Definition is_paired_handle_request (rq : iam_request) : iam_uhandler unit :=
  let+ access := check_access rq "Pairing:Get" None in
  if negb access then ulift (emit (IamCoapError 403))
  else
    let+ iam := ulift hget in
    let+ user := uof (nm_iam_find_user_by_coap_request iam rq) in
    ulift (emit (IamCoapReady (match user with Some _ => 205 | None => 403 end) None)).

Definition user_attributes (userId : string) : M := sm_insert sm_empty "IAM:UserId" userId.
Definition user_role_attributes (userId roleId : string) : M :=
  sm_insert (user_attributes userId) "IAM:RoleId" roleId.

(** nm_iam_delete_user.c *)
Definition delete_user_handle_request (rq : iam_request) : iam_uhandler unit :=
  match rq_parameter rq "user" with
  | None => ulift (emit (IamCoapError 500))
  | Some userId =>
      let+ access := check_access rq "IAM:DeleteUser" (Some (user_attributes userId)) in
      if negb access then ulift (emit (IamCoapError 403))
      else ulift (nm_iam_delete_user userId ;;; emit (IamCoapReady 202 None))
  end.

(** nm_iam_add_role_to_user.c *)
Definition add_role_to_user_handle_request (rq : iam_request) : iam_uhandler unit :=
  match rq_parameter rq "user", rq_parameter rq "role" with
  | Some userId, Some roleId =>
      let+ access := check_access rq "IAM:AddRoleToUser" (Some (user_role_attributes userId roleId)) in
      if negb access then ulift (emit (IamCoapError 403))
      else
        ulift (let* added := nm_iam_add_role_to_user userId roleId in
               emit (IamCoapReady (if added then 201 else 404) None))
  | _, _ => ulift (emit (IamCoapError 500))
  end.

(** nm_iam_remove_role_from_user.c *)
Definition remove_role_from_user_handle_request (rq : iam_request) : iam_uhandler unit :=
  match rq_parameter rq "user", rq_parameter rq "role" with
  | Some userId, Some roleId =>
      let+ access := check_access rq "IAM:RemoveRoleFromUser" (Some (user_role_attributes userId roleId)) in
      if negb access then ulift (emit (IamCoapError 403))
      else ulift (nm_iam_remove_role_from_user userId roleId ;;; emit (IamCoapReady 202 None))
  | _, _ => ulift (emit (IamCoapError 500))
  end.

(** The end of the handlers that answer a payload. *)
Definition respond_payload (rq : iam_request) (payload : list cbor_token) : iam_handler unit :=
  if negb (rq_malloc rq) then hskip
  else if rq_set_payload rq then emit (IamCoapReady 205 (Some payload))
  else emit (IamCoapError 500).

Definition text (s : string) : cbor_token := TokText (ascii_codes s).

(** [encode_user] of nm_iam_get_user.c *)
Definition encode_user (user : nm_iam_user) : list cbor_token :=
  [TokMap; text "Id"; text (u_id user)] ++
  match ss_elements (u_roles user) with
  | [] => []
  | roles => text "Roles" :: TokArray :: map text roles ++ [TokClose]
  end ++
  match u_fingerprint user with Some f => [text "Fingerprint"; text f] | None => [] end ++
  match sm_items (u_attributes user) with
  | [] => []
  | items => text "Attributes" :: TokMap :: flat_map (fun kv => [text kv.1; text kv.2]) items ++ [TokClose]
  end ++ [TokClose].

Definition get_user_handle_request (rq : iam_request) : iam_uhandler unit :=
  match rq_parameter rq "user" with
  | None => ulift (emit (IamCoapError 500))
  | Some userId =>
      let+ access := check_access rq "IAM:GetUser" (Some (user_attributes userId)) in
      if negb access then ulift (emit (IamCoapError 403))
      else
        let+ iam := ulift hget in
        match nm_iam_find_user iam userId with
        | None => ulift (emit (IamCoapError 404))
        | Some user => ulift (respond_payload rq (encode_user user))
        end
  end.

(** nm_iam_list_users.c and nm_iam_list_roles.c *)
Definition encode_users (iam : nm_iam) : list cbor_token :=
  TokArray :: map (fun user => text (u_id user)) (iam_users iam) ++ [TokClose].
Definition encode_roles (iam : nm_iam) : list cbor_token :=
  TokArray :: map (fun role => text (r_id role)) (iam_roles iam) ++ [TokClose].

Definition list_users_handle_request (rq : iam_request) : iam_uhandler unit :=
  let+ access := check_access rq "IAM:ListUsers" None in
  if negb access then ulift (emit (IamCoapError 403))
  else let+ iam := ulift hget in ulift (respond_payload rq (encode_users iam)).

Definition list_roles_handle_request (rq : iam_request) : iam_uhandler unit :=
  let+ access := check_access rq "IAM:ListRoles" None in
  if negb access then ulift (emit (IamCoapError 403))
  else let+ iam := ulift hget in ulift (respond_payload rq (encode_roles iam)).

(** nm_iam_pairing_get.c and nm_iam_client_settings.c *)
Definition encode_pairing_modes (iam : nm_iam) (isLocal : bool) : list cbor_token :=
  [TokMap; text "Modes"; TokArray] ++
  match iam_pairingPassword iam with Some _ => [text "Password"] | None => [] end ++
  (if isLocal then [text "Local"] else []) ++ [TokClose; TokClose].

Definition encode_client_settings (user : nm_iam_user) : list cbor_token :=
  [TokMap] ++
  match u_serverConnectToken user with
  | Some token => [text "ServerConnectToken"; text token] | None => [] end ++ [TokClose].

Definition pairing_get_handle_request (rq : iam_request) : iam_uhandler unit :=
  let+ access := check_access rq "Pairing:Get" None in
  if negb access then ulift (emit (IamCoapError 403))
  else let+ iam := ulift hget in ulift (respond_payload rq (encode_pairing_modes iam (rq_local rq))).

Definition client_settings_handle_request (rq : iam_request) : iam_uhandler unit :=
  let+ access := check_access rq "Pairing:Get" None in
  if negb access then ulift (emit (IamCoapError 403))
  else
    let+ iam := ulift hget in
    let+ user := uof (nm_iam_find_user_by_coap_request iam rq) in
    match user with
    | None => ulift (emit (IamCoapError 403))
    | Some user => ulift (respond_payload rq (encode_client_settings user))
    end.
End Handlers.

(** An authorization request of another component (nm_iam_auth_handler.c): its verdict. *)
Definition auth_handle_request (iam : nm_iam) (fingerprint : option string) (action : string)
    (attributes : list (string * string)) : cres bool :=
  nm_iam_check_access iam fingerprint action
    (Some (fold_left (fun m kv => sm_insert m kv.1 kv.2) attributes sm_empty)).

(** ** Specification of the access decision *)

(** The statements of the policies of a role. *)
Definition role_statement (iam : nm_iam) (roleStr : string) (s : nm_statement) : Prop :=
  exists role policyStr policy,
    nm_iam_find_role iam roleStr = Some role /\ policyStr ∈ ss_elements (r_policies role) /\
    nm_iam_find_policy iam policyStr = Some policy /\ s ∈ p_statements policy.

(** Some statement allows the action and none denies it or fails. *)
Definition allows (P : nm_statement -> Prop) (action : string) (attributes : M) : Prop :=
  (exists s, P s /\ nm_statement_eval s action attributes = NM_EFFECT_ALLOW) /\
  (forall s, P s -> nm_statement_eval s action attributes <> NM_EFFECT_DENY /\
                    nm_statement_eval s action attributes <> NM_EFFECT_ERROR).

(** The roles and the attributes that count for a client: those of the user with its
    fingerprint, else the role "Unpaired". *)
Definition has_fingerprint (fp : string) (u : nm_iam_user) : bool :=
  match u_fingerprint u with Some f => streq f fp | None => false end.

Definition client_roles (iam : nm_iam) (fp : string) : list string :=
  match List.find (has_fingerprint fp) (iam_users iam) with
  | Some user => ss_elements (u_roles user)
  | None => ["Unpaired"%string]
  end.

Definition client_attributes (iam : nm_iam) (fp : string) (attributesIn : option M) : M :=
  match List.find (has_fingerprint fp) (iam_users iam) with
  | Some user => sm_insert (copy_attributes attributesIn) "Connection:UserId" (u_id user)
  | None => copy_attributes attributesIn
  end.

(** Users have fingerprints, and the policies of the roles exist. *)
Definition iam_closed (iam : nm_iam) : Prop :=
  Forall (fun u => is_Some (u_fingerprint u)) (iam_users iam) /\
  Forall (fun r => Forall (fun p => is_Some (nm_iam_find_policy iam p)) (ss_elements (r_policies r)))
    (iam_roles iam).

(** ** Proofs: the access decision *)

Lemma streq_spec a b : streq a b = true <-> a = b.
Proof. apply bool_decide_eq_true. Qed.

Lemma find_fingerprint_spec users fp :
  Forall (fun u => is_Some (u_fingerprint u)) users ->
  find_fingerprint users fp = Def (List.find (has_fingerprint fp) users).
Proof.
  induction 1 as [| u us [f Hf] _ IH]; [done |]. cbn. unfold has_fingerprint at 1. rewrite Hf.
  by destruct (streq f fp).
Qed.

(** The effect of a role, as the verdict over its statements. *)
Lemma eval_policies_spec iam action attributes ps : forall state,
  Forall (fun p => is_Some (nm_iam_find_policy iam p)) ps ->
  exists ss, eval_policies iam state ps action attributes =
      Def (verdict (state :: map (fun s => nm_statement_eval s action attributes) ss)) /\
    forall s, s ∈ ss <-> exists p policy, p ∈ ps /\ nm_iam_find_policy iam p = Some policy /\ s ∈ p_statements policy.
Proof.
  assert (Hg : forall ps state, Forall (fun p => is_Some (nm_iam_find_policy iam p)) ps ->
    exists ss, eval_policies iam state ps action attributes =
      Def (nm_policy_eval state (mk_policy "" ss) action attributes) /\
    forall s, s ∈ ss <-> exists p policy, p ∈ ps /\ nm_iam_find_policy iam p = Some policy /\ s ∈ p_statements policy).
  { intros l state Hl. revert state. induction Hl as [| p l [policy Hp] _ IH]; intros state; cbn [eval_policies].
    { exists []. split; [done |]. intros s. split; [by intros ?%elem_of_nil | by intros (? & ? & ?%elem_of_nil & _)]. }
    rewrite Hp. destruct (IH (nm_policy_eval state policy action attributes)) as (ss & -> & Hss).
    exists (p_statements policy ++ ss). split.
    { unfold nm_policy_eval. cbn [p_statements]. by rewrite fold_left_app. }
    intros s. rewrite elem_of_app, Hss. split.
    - intros [Hs | (p' & policy' & ? & ? & ?)]; [exists p, policy | exists p', policy'];
        (split; [try by left | done]). by right.
    - intros (p' & policy' & [-> | Hin]%elem_of_cons & Hf & Hs); [left; congruence | right; eauto]. }
  intros state Hps. destruct (Hg ps state Hps) as (ss & -> & Hss). exists ss. by rewrite policy_eval_verdict.
Qed.

Lemma find_role_in iam r role : nm_iam_find_role iam r = Some role -> role ∈ iam_roles iam.
Proof. intros [Hin _]%List.find_some. by apply list_elem_of_In. Qed.

(** A role allows an action exactly when its statements do. *)
Lemma check_access_role_spec iam r role action attributes :
  iam_closed iam -> nm_iam_find_role iam r = Some role ->
  exists e, nm_iam_check_access_role iam role action attributes = Def e /\
    (e = NM_EFFECT_ALLOW -> exists s, role_statement iam r s /\ nm_statement_eval s action attributes = NM_EFFECT_ALLOW) /\
    (final e = false <-> forall s, role_statement iam r s -> final (nm_statement_eval s action attributes) = false) /\
    (e = NM_EFFECT_NO_MATCH -> forall s, role_statement iam r s -> nm_statement_eval s action attributes <> NM_EFFECT_ALLOW).
Proof.
  intros [_ Hclosed] Hr. rewrite Forall_forall in Hclosed. specialize (Hclosed role (find_role_in _ _ _ Hr)).
  destruct (eval_policies_spec iam action attributes (ss_elements (r_policies role)) nm_policy_eval_init Hclosed)
    as (ss & He & Hss).
  assert (Hrs : forall s, role_statement iam r s <-> s ∈ ss).
  { intros s. rewrite Hss. unfold role_statement. split.
    - intros (role' & p & policy & Hr' & ?). assert (role' = role) as -> by congruence. eauto.
    - intros (p & policy & ?). eauto 10. }
  eexists. split; [exact He |]. unfold nm_policy_eval_init. rewrite verdict_no_match.
  set (es := map (fun s => nm_statement_eval s action attributes) ss).
  assert (Hes : forall e, e ∈ es <-> exists s, role_statement iam r s /\ nm_statement_eval s action attributes = e).
  { intros e. unfold es. rewrite list_elem_of_fmap. setoid_rewrite Hrs. split; intros (s & ? & ?); eauto. }
  split; [| split].
  - intros [Ha _]%verdict_allow. by apply Hes.
  - rewrite verdict_final, Forall_forall. split.
    + intros Hf s Hs. apply Hf, Hes. eauto.
    + intros Hf e (s & Hs & <-)%Hes. by apply Hf.
  - intros Hn s Hs Ea. apply verdict_no_allow with (2 := Hn). apply Hes. eauto.
Qed.

(** The loop over the roles. *)
Lemma eval_roles_spec iam action attributes roles : forall res,
  iam_closed iam -> res = NM_EFFECT_NO_MATCH \/ res = NM_EFFECT_ALLOW ->
  exists e, eval_roles iam res roles action attributes = Def e /\
    (e = NM_EFFECT_ALLOW <->
      (forall r, r ∈ roles -> is_Some (nm_iam_find_role iam r)) /\
      (forall r s, r ∈ roles -> role_statement iam r s -> final (nm_statement_eval s action attributes) = false) /\
      (res = NM_EFFECT_ALLOW \/ exists r s, r ∈ roles /\ role_statement iam r s /\
         nm_statement_eval s action attributes = NM_EFFECT_ALLOW)).
Proof.
  induction roles as [| r roles IH]; intros res Hc Hres; cbn [eval_roles].
  { exists res. split; [done |]. split.
    - intros ->. split; [by intros ? ?%elem_of_nil |]. split; [by intros ? ? ?%elem_of_nil | by left].
    - intros (_ & _ & [-> | (? & ? & ?%elem_of_nil & _)]); done. }
  destruct (nm_iam_find_role iam r) as [role |] eqn:Er.
  2: { exists NM_EFFECT_ERROR. split; [done |]. split; [done |]. intros [Hall _].
       destruct (Hall r ltac:(left)). congruence. }
  destruct (check_access_role_spec iam r role action attributes Hc Er) as (e1 & -> & Ha & Hf & Hn).
  destruct e1; cbn in Hf.
  - destruct (IH NM_EFFECT_ALLOW Hc (or_intror eq_refl)) as (e & -> & He). exists e. split; [done |]. rewrite He.
    destruct Ha as (s & Hs & Es); [done |]. destruct Hf as [Hf _]. specialize (Hf eq_refl). split.
    + intros (Hall1 & Hfin & _). repeat split.
      * intros r' [-> | ?]%elem_of_cons; eauto.
      * intros r' s' [-> | ?]%elem_of_cons; eauto.
      * right. exists r, s. split; [left | done].
    + intros (Hall1 & Hfin & _). repeat split; [intros; apply Hall1; by right | intros r' s' ?; apply Hfin; by right | by left].
  - exists NM_EFFECT_DENY. split; [done |]. split; [done |]. intros (_ & Hfin & _).
    enough (true = false) by done. apply Hf. intros s Hs. apply (Hfin r s); [left | done].
  - destruct (IH res Hc Hres) as (e & -> & He). exists e. split; [done |]. rewrite He.
    destruct Hf as [Hf _]. specialize (Hf eq_refl). specialize (Hn eq_refl). split.
    + intros (Hall1 & Hfin & Hex). repeat split.
      * intros r' [-> | ?]%elem_of_cons; eauto.
      * intros r' s' [-> | ?]%elem_of_cons; eauto.
      * destruct Hex as [? | (r' & s & ? & ?)]; [by left | right; exists r', s; by split; [right |]].
    + intros (Hall1 & Hfin & Hex). repeat split; [intros; apply Hall1; by right | intros r' s' ?; apply Hfin; by right |].
      destruct Hex as [? | (r' & s & [-> | ?]%elem_of_cons & Hs & Ea)]; [by left | by destruct (Hn s Hs) | eauto 10].
  - exists NM_EFFECT_ERROR. split; [done |]. split; [done |]. intros (_ & Hfin & _).
    enough (true = false) by done. apply Hf. intros s Hs. apply (Hfin r s); [left | done].
Qed.

Lemma final_spec e : final e = false <-> e <> NM_EFFECT_DENY /\ e <> NM_EFFECT_ERROR.
Proof. by destruct e; split; try done; intros []. Qed.

Lemma check_access_spec iam fingerprint action attributes (Hc : iam_closed iam) :
  (exists b, nm_iam_check_access iam fingerprint action attributes = Def b) /\
  (nm_iam_check_access iam fingerprint action attributes = Def true <->
   exists fp, fingerprint = Some fp /\
     (forall r, r ∈ client_roles iam fp -> is_Some (nm_iam_find_role iam r)) /\
     allows (fun s => exists r, r ∈ client_roles iam fp /\ role_statement iam r s) action
       (client_attributes iam fp attributes)).
Proof.
  unfold nm_iam_check_access. destruct fingerprint as [fp |].
  2: { split; [by exists false |]. split; [done | by intros (? & ? & _)]. }
  unfold nm_iam_find_user_by_fingerprint. rewrite find_fingerprint_spec by apply Hc. cbn [cres_bind].
  set (attrs := client_attributes iam fp attributes).
  assert (Heff : exists e, eval_roles iam NM_EFFECT_NO_MATCH (client_roles iam fp) action attrs = Def e /\
    match List.find (has_fingerprint fp) (iam_users iam) with
    | Some user => nm_iam_check_access_user iam user action attrs
    | None => match nm_iam_find_role iam "Unpaired" with
              | None => Def NM_EFFECT_ERROR
              | Some role => nm_iam_check_access_role iam role action attrs end
    end = Def e).
  { destruct (eval_roles_spec iam action attrs (client_roles iam fp) _ Hc (or_introl eq_refl)) as (e & He & _).
    exists e. split; [done |]. revert He. unfold client_roles.
    destruct (List.find _ _) as [user |]; [done |]. cbn.
    destruct (nm_iam_find_role iam "Unpaired") as [role |]; [| done].
    destruct (nm_iam_check_access_role iam role action attrs) as [[] |]; by intros [= <-]. }
  destruct Heff as (e & Hroles & Heff).
  destruct (eval_roles_spec iam action attrs (client_roles iam fp) _ Hc (or_introl eq_refl)) as (e' & He' & Hiff).
  assert (e' = e) as -> by congruence.
  match goal with |- context [cres_bind ?m _] => replace m with (@Def nm_effect e) end.
  2: { rewrite <- Heff. unfold attrs, client_attributes. by destruct (List.find _ _). }
  cbn [cres_bind]. split; [by eexists |].
  assert (Hb : Def (is_allow e) = Def true <-> e = NM_EFFECT_ALLOW) by (by destruct e). rewrite Hb, Hiff. split.
  - intros (Hall & Hfin & [? | (r & s & Hr & Hs & Ea)]); [done |]. exists fp. split; [done |].
    split; [done |]. split; [by exists s; eauto |]. intros s' (r' & Hr' & Hs').
    apply final_spec. by eapply Hfin.
  - intros (fp' & [= <-] & Hall & (s & (r & Hr & Hs) & Ea) & Hfin). split; [done |]. split; [| eauto 10].
    intros r' s' Hr' Hs'. apply final_spec, Hfin. eauto.
Qed.

(** C31. The access decision: on a closed configuration [nm_iam_check_access] is defined, and
    it grants an action exactly when the connection has a fingerprint, all roles of its user
    (or the role "Unpaired" without a user) exist, some statement of their policies allows
    the action, and none denies it or fails. *)
Theorem check_access_iff iam fingerprint action attributes (Hc : iam_closed iam) :
  (exists b, nm_iam_check_access iam fingerprint action attributes = Def b) /\
  (nm_iam_check_access iam fingerprint action attributes = Def true <->
   exists fp, fingerprint = Some fp /\
     (forall r, r ∈ client_roles iam fp -> is_Some (nm_iam_find_role iam r)) /\
     allows (fun s => exists r, r ∈ client_roles iam fp /\ role_statement iam r s) action
       (client_attributes iam fp attributes)).
Proof. by apply check_access_spec. Qed.

(** ** New user ids *)

Lemma find_user_ids iam id :
  is_Some (nm_iam_find_user_by_id iam id) <-> id ∈ map u_id (iam_users iam).
Proof.
  unfold nm_iam_find_user_by_id. induction (iam_users iam) as [| u us IH]; cbn.
  { split; [by intros [] | by intros ?%elem_of_nil]. }
  rewrite elem_of_cons. destruct (streq (u_id u) id) eqn:E; [apply streq_spec in E |].
  - split; [by left | by eexists].
  - rewrite IH. split; [by right |]. intros [-> |]; [| done]. unfold streq in E. by rewrite bool_decide_true in E.
Qed.

Lemma next_id_spec iam fuel : forall i,
  match next_id iam fuel i with
  | Some id => exists k, (0 < k <= N.of_nat fuel)%N /\ id = pretty (i + k)%N /\
      nm_iam_find_user_by_id iam id = None /\
      (forall j, (0 < j < k)%N -> is_Some (nm_iam_find_user_by_id iam (pretty (i + j)%N)))
  | None => forall k, (0 < k <= N.of_nat fuel)%N -> is_Some (nm_iam_find_user_by_id iam (pretty (i + k)%N))
  end.
Proof.
  induction fuel as [| fuel IH]; intros i; cbn -[N.of_nat N.add]; [lia |].
  destruct (nm_iam_find_user_by_id iam (pretty (i + 1)%N)) eqn:Ef.
  2: { exists 1%N. split; [lia |]. split; [done |]. split; [done | lia]. }
  specialize (IH (i + 1)%N).
  assert (Hstep : forall n, (forall k, (0 < k < n)%N -> is_Some (nm_iam_find_user_by_id iam (pretty (i + 1 + k)%N))) ->
    forall k, (0 < k < 1 + n)%N -> is_Some (nm_iam_find_user_by_id iam (pretty (i + k)%N))).
  { intros m Hm k Hk. destruct (decide (k = 1%N)) as [-> |]; [by rewrite Ef |].
    replace (i + k)%N with (i + 1 + (k - 1))%N by lia. apply Hm. lia. }
  destruct (next_id iam fuel (i + 1)).
  - destruct IH as (k & Hk & -> & Hn & Hj). exists (1 + k)%N. split; [lia |].
    split; [by replace (i + (1 + k))%N with (i + 1 + k)%N by lia |]. split; [done |]. by apply Hstep.
  - intros k Hk. apply (Hstep (1 + N.of_nat fuel)%N); [| lia]. intros j Hj. apply IH. lia.
Qed.

Lemma next_id_some iam : exists id, nm_iam_next_user_id iam = Some id /\ id ∉ map u_id (iam_users iam).
Proof.
  unfold nm_iam_next_user_id. pose proof (next_id_spec iam (S (length (iam_users iam))) 0) as Hs.
  destruct (next_id iam _ 0) as [id |].
  - destruct Hs as (k & _ & _ & Hn & _). exists id. split; [done |]. rewrite <- find_user_ids, Hn. by intros [].
  - exfalso. set (n := length (iam_users iam)) in *.
    set (ids := map (fun k => pretty (N.of_nat k)) (seq 1 (S n))).
    assert (Hnd : NoDup ids).
    { apply NoDup_fmap_2; [| apply NoDup_seq]. intros a b E%pretty_N_inj. lia. }
    assert (Hsub : ids ⊆ map u_id (iam_users iam)).
    { intros id (k & -> & Hk%elem_of_seq)%list_elem_of_fmap. apply find_user_ids.
      replace (N.of_nat k) with (0 + N.of_nat k)%N by lia. apply Hs. lia. }
    apply NoDup_submseteq in Hsub; [| done]. apply submseteq_length in Hsub.
    unfold ids in Hsub. rewrite !length_map, length_seq in Hsub. unfold n in Hsub. lia.
Qed.

(** ** Pairing *)

(** Users have different ids and different fingerprints. *)
Definition iam_inv (iam : nm_iam) : Prop :=
  NoDup (map u_id (iam_users iam)) /\
  NoDup (map u_fingerprint (iam_users iam)) /\
  Forall (fun u => is_Some (u_fingerprint u)) (iam_users iam).

Lemma find_none_fingerprint users fp :
  List.find (has_fingerprint fp) users = None -> Some fp ∉ map u_fingerprint users.
Proof.
  induction users as [| u us IH]; cbn; [by intros _ ?%elem_of_nil |].
  unfold has_fingerprint at 1. destruct (u_fingerprint u) as [f |] eqn:Ef.
  - destruct (streq f fp) eqn:E; [done |]. intros Hn [[= ->] | Hin]%elem_of_cons; [| by apply IH].
    unfold streq in E. by rewrite bool_decide_true in E.
  - intros Hn [? | Hin]%elem_of_cons; [done | by apply IH].
Qed.

Definition changed (iam : nm_iam) (userId : string) : list iam_call :=
  if iam_userChanged iam then [IamUserChanged userId] else [].

Lemma add_user_run u iam :
  nm_iam_add_user u iam =
    (true, iam {{ iam_users := iam_users iam ++ [u] }},
     match u_serverConnectToken u with Some token => [IamAddServerConnectToken token] | None => [] end ++
     changed iam (u_id u)).
Proof.
  destruct iam as [? ? ? ? []], u as [? ? ? [] ?]; reflexivity.
Qed.

(** What pairing does, on every path. *)
Lemma pair_cases rq iam :
  iam_inv iam -> exists res iam' t, nm_iam_pair_new_client rq iam = Def (res, iam', t) /\
  ((iam' = iam /\ t = [] /\
    forall u, res = Some u -> u ∈ iam_users iam /\ u_fingerprint u = rq_fingerprint rq) \/
   exists u fp token, res = Some u /\ iam' = iam {{ iam_users := iam_users iam ++ [u] }} /\
     rq_fingerprint rq = Some fp /\ rq_token rq = Some token /\
     u_fingerprint u = Some fp /\ Some fp ∉ map u_fingerprint (iam_users iam) /\
     u_id u ∉ map u_id (iam_users iam) /\ u_serverConnectToken u = Some token /\
     u_roles u = (ss_insert ss_empty (if (length (iam_users iam) =? 0)%nat then "Admin" else "User")).2 /\
     t = [IamAddServerConnectToken token] ++ changed iam (u_id u)).
Proof.
  intros (_ & _ & Hfp). unfold nm_iam_pair_new_client. rewrite u_hget.
  unfold nm_iam_find_user_by_coap_request, nm_iam_find_user_by_fingerprint.
  destruct (rq_fingerprint rq) as [fp |] eqn:Erq.
  2: { eexists _, _, _. split; [reflexivity |]. left. done. }
  rewrite find_fingerprint_spec by done. unfold ubind at 1, uof at 1.
  destruct (List.find (has_fingerprint fp) (iam_users iam)) as [u |] eqn:Ef.
  { eexists _, _, _. split; [reflexivity |]. left. split; [done |]. split; [done |]. intros u' [= <-].
    apply List.find_some in Ef as [Hin Hhas]. split; [by apply list_elem_of_In |].
    unfold has_fingerprint in Hhas. destruct (u_fingerprint u); [| done]. apply streq_spec in Hhas. by subst. }
  destruct (nm_iam_find_role iam _) eqn:Er; cbn [negb]; rewrite ?Er.
  2: { eexists _, _, _. split; [reflexivity |]. by left. }
  destruct (rq_token rq) as [token |] eqn:Etok.
  2: { eexists _, _, _. split; [reflexivity |]. by left. }
  destruct (next_id_some iam) as (id & -> & Hid).
  match goal with |- context [nm_iam_add_user ?u] => set (user := u) end.
  exists (Some user), (iam {{ iam_users := iam_users iam ++ [user] }}),
    ([IamAddServerConnectToken token] ++ changed iam id).
  split. { unfold ulift, hbind. rewrite add_user_run. cbn -[pretty]. by rewrite app_nil_r. }
  right. exists user, fp, token. repeat (split; [done || by apply find_none_fingerprint |]). done.
Qed.

Lemma iam_inv_add iam u fp :
  iam_inv iam -> u_fingerprint u = Some fp -> Some fp ∉ map u_fingerprint (iam_users iam) ->
  u_id u ∉ map u_id (iam_users iam) -> iam_inv (iam {{ iam_users := iam_users iam ++ [u] }}).
Proof.
  intros (Hid & Hfp & Hall) Ef Hnf Hni. unfold iam_inv.
  change (iam_users (iam {{ iam_users := iam_users iam ++ [u] }})) with (iam_users iam ++ [u]).
  rewrite !map_app. cbn [map]. rewrite Ef.
  split; [| split].
  - apply NoDup_app. split; [done |]. split; [| apply NoDup_singleton].
    intros x Hx ->%list_elem_of_singleton. done.
  - apply NoDup_app. split; [done |]. split; [| apply NoDup_singleton].
    intros x Hx ->%list_elem_of_singleton. done.
  - apply Forall_app. split; [done |]. constructor; [by rewrite Ef | constructor].
Qed.

Lemma pair_inv rq iam (res : option nm_iam_user) iam' t :
  iam_inv iam ->
  (exists u fp token, res = Some u /\ iam' = iam {{ iam_users := iam_users iam ++ [u] }} /\
     rq_fingerprint rq = Some fp /\ rq_token rq = Some token /\
     u_fingerprint u = Some fp /\ Some fp ∉ map u_fingerprint (iam_users iam) /\
     u_id u ∉ map u_id (iam_users iam) /\ u_serverConnectToken u = Some token /\
     u_roles u = (ss_insert ss_empty (if (length (iam_users iam) =? 0)%nat then "Admin" else "User")).2 /\
     t = [IamAddServerConnectToken token] ++ changed iam (u_id u)) ->
  iam_inv iam'.
Proof. intros Hi (u & fp & token & _ & -> & _ & _ & Ef & Hnf & Hni & _). by eapply iam_inv_add. Qed.

(** Pairing a client on a well-formed configuration is defined and keeps it well-formed:
    a client whose fingerprint is known gets its old user and nothing changes; else either
    nothing changes, or one user is added with the client's fingerprint, an id that no other
    user has, the new server connect token, and the role "Admin" for the first user and
    "User" for all others; then the token is given to the device and the change reported. *)
Lemma pair_new_client_correct rq iam (Hinv : iam_inv iam) :
  exists res iam' t, nm_iam_pair_new_client rq iam = Def (res, iam', t) /\ iam_inv iam' /\
    ((iam' = iam /\ t = [] /\
      forall u, res = Some u -> u ∈ iam_users iam /\ u_fingerprint u = rq_fingerprint rq) \/
     exists u fp token, res = Some u /\ iam' = iam {{ iam_users := iam_users iam ++ [u] }} /\
       rq_fingerprint rq = Some fp /\ rq_token rq = Some token /\
       u_fingerprint u = Some fp /\ Some fp ∉ map u_fingerprint (iam_users iam) /\
       u_id u ∉ map u_id (iam_users iam) /\ u_serverConnectToken u = Some token /\
       u_roles u = (ss_insert ss_empty (if (length (iam_users iam) =? 0)%nat then "Admin" else "User")).2 /\
       t = [IamAddServerConnectToken token] ++ changed iam (u_id u)).
Proof.
  destruct (pair_cases rq iam Hinv) as (res & iam' & t & Hp & Hc). exists res, iam', t. split; [done |].
  split; [| done]. destruct Hc as [(-> & _) | Hc]; [done |]. by eapply pair_inv.
Qed.

(** ** Operations on the configuration *)

Section Operations.
Context {V : Type} `{CborDec V}.

Inductive iam_op : Type :=
| OpPairingPassword | OpPairingLocal | OpIsPaired | OpDeleteUser | OpAddRoleToUser | OpRemoveRoleFromUser
| OpGetUser | OpListUsers | OpListRoles | OpPairingGet | OpClientSettings.

Definition iam_handle (op : iam_op) (rq : iam_request) : iam_uhandler unit :=
  match op with
  | OpPairingPassword => pairing_password_handle_request rq
  | OpPairingLocal => pairing_local_handle_request rq
  | OpIsPaired => is_paired_handle_request rq
  | OpDeleteUser => delete_user_handle_request rq
  | OpAddRoleToUser => add_role_to_user_handle_request rq
  | OpRemoveRoleFromUser => remove_role_from_user_handle_request rq
  | OpGetUser => get_user_handle_request rq
  | OpListUsers => list_users_handle_request rq
  | OpListRoles => list_roles_handle_request rq
  | OpPairingGet => pairing_get_handle_request rq
  | OpClientSettings => client_settings_handle_request rq
  end.

(** What an operation needs before it changes users: access to its action on the user and
    role it names, and a password or a local connection for the two ways of pairing. *)
Definition authorized (op : iam_op) (rq : iam_request) (iam : nm_iam) : Prop :=
  let access action attributes := nm_iam_check_access iam (rq_fingerprint rq) action attributes = Def true in
  match op with
  | OpPairingPassword =>
      access "Pairing:Password"%string None /\
      exists payload password, rq_payload rq = Some payload /\ iam_pairingPassword iam = Some password /\
        decode_password rq (cv_parse payload) = Def (Some password)
  | OpPairingLocal => access "Pairing:Local"%string None /\ rq_local rq = true
  | OpDeleteUser =>
      exists userId, rq_parameter rq "user" = Some userId /\
        access "IAM:DeleteUser"%string (Some (user_attributes userId))
  | OpAddRoleToUser =>
      exists userId roleId, rq_parameter rq "user" = Some userId /\ rq_parameter rq "role" = Some roleId /\
        access "IAM:AddRoleToUser"%string (Some (user_role_attributes userId roleId))
  | OpRemoveRoleFromUser =>
      exists userId roleId, rq_parameter rq "user" = Some userId /\ rq_parameter rq "role" = Some roleId /\
        access "IAM:RemoveRoleFromUser"%string (Some (user_role_attributes userId roleId))
  | _ => False
  end.

(** A step that changes nothing, or is authorized and keeps the configuration well-formed. *)
Definition guarded (op : iam_op) (rq : iam_request) (iam iam' : nm_iam) : Prop :=
  iam' = iam \/ (authorized op rq iam /\ (iam_inv iam -> iam_inv iam')).

Lemma uof_seq {A B} (c : cres A) (k : A -> iam_uhandler B) iam r iam' t :
  ubind (uof c) k iam = Def (r, iam', t) -> exists a, c = Def a /\ k a iam = Def (r, iam', t).
Proof.
  intros (a & s1 & t1 & t2 & (-> & -> & ->)%uof_inv & Hk & ->)%ubind_inv. eauto.
Qed.

Lemma access_seq {B} rq action m (k : bool -> iam_uhandler B) iam r iam' t :
  ubind (check_access rq action m) k iam = Def (r, iam', t) ->
  exists b, nm_iam_check_access iam (rq_fingerprint rq) action m = Def b /\ k b iam = Def (r, iam', t).
Proof.
  intros (b & s1 & t1 & t2 & Hc & Hk & ->)%ubind_inv. unfold check_access in Hc. rewrite u_hget in Hc.
  apply uof_inv in Hc as (Hb & -> & ->). eauto.
Qed.

Lemma emit_same c (iam iam' : nm_iam) r t : ulift (emit (c : iam_call)) iam = Def (r, iam', t) -> iam' = iam.
Proof. by intros [= _ <- _]. Qed.

Lemma respond_same rq p (iam iam' : nm_iam) r t : ulift (respond_payload rq p) iam = Def (r, iam', t) -> iam' = iam.
Proof. unfold respond_payload. by repeat goal_if; intros [= _ <- _]. Qed.

(** Parsing the payload of a request: the error branch changes nothing. *)
Lemma parser_seq {B} rq (k : option V -> iam_uhandler B) iam r iam' t :
  ubind (ulift (nm_iam_cbor_init_parser rq)) k iam = Def (r, iam', t) ->
  exists t', k (if rq_cbor rq then cv_parse <$> rq_payload rq else None) iam = Def (r, iam', t').
Proof.
  intros (parsed & s1 & t1 & t2 & Hp & Hk & _)%ubind_inv. exists t2. revert Hp Hk.
  unfold nm_iam_cbor_init_parser. destruct (rq_cbor rq), (rq_payload rq); by intros [= <- <- _].
Qed.

Lemma finish_inv rq iam iam' r t :
  finish_pairing rq iam = Def (r, iam', t) -> iam_inv iam -> iam_inv iam'.
Proof.
  unfold finish_pairing. intros (res & s1 & t1 & t2 & Hp & Hk & ->)%ubind_inv Hi.
  destruct (pair_cases rq iam Hi) as (res' & iam1 & t1' & Hp' & Hc). rewrite Hp in Hp'. injection Hp' as <- <- <-.
  assert (Hi1 : iam_inv s1) by (destruct Hc as [(-> & _) | Hc]; [done | by eapply pair_inv]).
  by destruct res; apply emit_same in Hk as ->.
Qed.

Lemma erase_user_sublist users userId users' :
  erase_user users userId = Some users' -> sublist users' users.
Proof.
  revert users'. induction users as [| u us IH]; intros users'; cbn; [done |].
  destruct (streq (u_id u) userId); [intros [= <-]; by apply sublist_cons |].
  destruct (erase_user us userId) as [l |]; [| done]. intros [= <-]. by apply sublist_skip, IH.
Qed.

Lemma iam_inv_sublist iam users :
  sublist users (iam_users iam) -> iam_inv iam -> iam_inv (iam {{ iam_users := users }}).
Proof.
  intros Hs (Hid & Hfp & Hall). unfold iam_inv. change (iam_users (iam {{ iam_users := users }})) with users.
  split; [| split].
  - eapply sublist_NoDup; [exact Hid |]. by apply (fmap_sublist u_id).
  - eapply sublist_NoDup; [exact Hfp |]. by apply (fmap_sublist u_fingerprint).
  - rewrite Forall_forall in *. intros x Hx. apply Hall. by eapply elem_of_submseteq, sublist_submseteq.
Qed.

(** Updates of a user's roles keep ids and fingerprints. *)
Lemma update_user_keys users userId f :
  (forall u, u_id u = userId -> u ∈ users -> u_id (f u) = u_id u /\ u_fingerprint (f u) = u_fingerprint u) ->
  map u_id (update_user users userId f) = map u_id users /\
  map u_fingerprint (update_user users userId f) = map u_fingerprint users.
Proof.
  induction users as [| u us IH]; intros Hf; cbn; [done |]. destruct (streq (u_id u) userId) eqn:E; cbn.
  - apply streq_spec in E. destruct (Hf u E) as [-> ->]; [by left | done].
  - destruct IH as [-> ->]; [| done]. intros v Ev Hv. apply Hf; [done | by right].
Qed.

Lemma iam_inv_keys iam users :
  map u_id users = map u_id (iam_users iam) -> map u_fingerprint users = map u_fingerprint (iam_users iam) ->
  iam_inv iam -> iam_inv (iam {{ iam_users := users }}).
Proof.
  intros Eid Efp (Hid & Hfp & Hall). unfold iam_inv. change (iam_users (iam {{ iam_users := users }})) with users.
  rewrite Eid, Efp. split; [done |]. split; [done |].
  apply (List.Forall_map u_fingerprint is_Some). rewrite Efp. by apply List.Forall_map.
Qed.

Lemma exec_notify (iam : nm_iam) userId c :
  exec (notify_changed userId ;;; emit c) iam = iam /\ exec (notify_changed userId) iam = iam.
Proof. by destruct iam as [? ? ? ? []]. Qed.

Lemma delete_user_inv userId iam :
  iam_inv iam -> iam_inv (exec (nm_iam_delete_user userId) iam).
Proof.
  intros Hi. unfold nm_iam_delete_user. rewrite exec_hget.
  destruct (erase_user (iam_users iam) userId) as [users |] eqn:Ee; [| done].
  rewrite exec_hmod. rewrite (proj2 (exec_notify _ userId (IamCoapError 0))).
  apply iam_inv_sublist; [by eapply erase_user_sublist | done].
Qed.

Lemma remove_role_inv userId roleId iam :
  iam_inv iam -> iam_inv (exec (nm_iam_remove_role_from_user userId roleId) iam).
Proof.
  intros Hi. unfold nm_iam_remove_role_from_user. rewrite exec_hget.
  destruct (nm_iam_find_user iam userId); [| done].
  rewrite exec_hmod. rewrite (proj2 (exec_notify _ userId (IamCoapError 0))).
  destruct (update_user_keys (iam_users iam) userId (fun u => nm_iam_user_remove_role u roleId)) as [E1 E2];
    [by intros [] |].
  by apply iam_inv_keys.
Qed.

Lemma find_user_in iam userId u :
  nm_iam_find_user iam userId = Some u -> u ∈ iam_users iam /\ u_id u = userId.
Proof. intros [Hin He%streq_spec]%List.find_some. split; [by apply list_elem_of_In | done]. Qed.

(** The first user with an id is the one that is updated. *)
Lemma update_user_first users userId u u' :
  List.find (fun user => streq (u_id user) userId) users = Some u ->
  u_id u' = u_id u -> u_fingerprint u' = u_fingerprint u ->
  map u_id (update_user users userId (fun _ => u')) = map u_id users /\
  map u_fingerprint (update_user users userId (fun _ => u')) = map u_fingerprint users.
Proof.
  induction users as [| v us IH]; cbn; [done |]. destruct (streq (u_id v) userId); cbn.
  - by intros [= ->] -> ->.
  - intros Hf Ei Ef. by destruct (IH Hf Ei Ef) as [-> ->].
Qed.

Lemma add_role_inv userId roleId iam :
  iam_inv iam -> iam_inv (exec (nm_iam_add_role_to_user userId roleId) iam).
Proof.
  intros Hi. unfold nm_iam_add_role_to_user. rewrite exec_hget.
  destruct (nm_iam_find_user iam userId) as [u |] eqn:Eu; [| done].
  destruct (nm_iam_find_role iam roleId); [| done].
  unfold nm_iam_user_add_role. destruct (ss_insert (u_roles u) roleId) as [b roles].
  assert (Hi1 : iam_inv (iam {{ iam_users := update_user (iam_users iam) userId (fun _ => u {{ u_roles := roles }}) }})).
  { destruct (update_user_first _ _ u (u {{ u_roles := roles }}) Eu) as [E1 E2]; [by destruct u | by destruct u |].
    by apply iam_inv_keys. }
  rewrite exec_hmod, exec_seq. destruct b; [| exact Hi1].
  rewrite (proj2 (exec_notify _ userId (IamCoapError 0))). exact Hi1.
Qed.

(** *** The handlers, by branch *)

Lemma pairing_password_guarded rq iam iam' t :
  pairing_password_handle_request rq iam = Def (tt, iam', t) -> guarded OpPairingPassword rq iam iam'.
Proof.
  unfold pairing_password_handle_request. intros (b & Ha & Hk)%access_seq.
  destruct b; cbn [negb] in Hk; [| by apply emit_same in Hk; left].
  destruct (rq_fingerprint rq) as [fp |] eqn:Efp; [| by apply emit_same in Hk; left].
  apply parser_seq in Hk as (t1 & Hk).
  destruct (if rq_cbor rq then cv_parse <$> rq_payload rq else None) as [v |] eqn:Ev;
    [| by apply emit_same in Hk; left].
  destruct (rq_cbor rq); [| done]. apply fmap_Some in Ev as (payload & Hpay & ->).
  apply uof_seq in Hk as (password & Hdec & Hk). destruct password as [password |];
    [| by apply emit_same in Hk; left].
  apply uof_seq in Hk as (name & _ & Hk). rewrite u_hget in Hk.
  destruct (iam_pairingPassword iam) as [pp |] eqn:Epp; [| done].
  destruct (streq password pp) eqn:Es; cbn [negb] in Hk; [| by apply emit_same in Hk; left].
  apply streq_spec in Es as ->. right. split; [| by eapply finish_inv].
  split; [by rewrite Efp |]. by exists payload, pp.
Qed.

Lemma pairing_local_guarded rq iam iam' t :
  pairing_local_handle_request rq iam = Def (tt, iam', t) -> guarded OpPairingLocal rq iam iam'.
Proof.
  unfold pairing_local_handle_request. intros (b & Ha & Hk)%access_seq.
  destruct (negb b || negb (rq_local rq)) eqn:Eb; [by apply emit_same in Hk; left |].
  apply orb_false_iff in Eb as [->%negb_false_iff Hl%negb_false_iff].
  destruct (rq_fingerprint rq) as [fp |] eqn:Efp; [| by apply emit_same in Hk; left].
  apply parser_seq in Hk as (t1 & Hk).
  destruct (if rq_cbor rq then cv_parse <$> rq_payload rq else None) as [v |];
    [| by apply emit_same in Hk; left].
  apply uof_seq in Hk as (name & _ & Hk). right. split; [| by eapply finish_inv].
  split; [by rewrite Efp | done].
Qed.

(** The handlers that change a user by its id: an access check, the change, an answer. *)
Lemma change_guarded {A} op rq (m : iam_handler A) (code : A -> Z) iam iam' t :
  ulift (let* a := m in emit (IamCoapReady (code a) None)) iam = Def (tt, iam', t) ->
  (iam_inv iam -> iam_inv (exec m iam)) -> authorized op rq iam -> guarded op rq iam iam'.
Proof.
  intros [-> _]%ulift_inv Hi Ha. right. split; [done |]. intros Hinv. rewrite exec_seq. by apply Hi.
Qed.

Lemma delete_user_guarded rq iam iam' t :
  delete_user_handle_request rq iam = Def (tt, iam', t) -> guarded OpDeleteUser rq iam iam'.
Proof.
  unfold delete_user_handle_request. destruct (rq_parameter rq "user") as [userId |] eqn:Eu;
    [| by intros Hk%emit_same; left].
  intros (b & Ha & Hk)%access_seq. destruct b; [| by apply emit_same in Hk; left].
  eapply (change_guarded _ _ _ (fun _ => 202)) in Hk; [exact Hk | apply delete_user_inv |].
  by exists userId.
Qed.

Lemma add_role_guarded rq iam iam' t :
  add_role_to_user_handle_request rq iam = Def (tt, iam', t) -> guarded OpAddRoleToUser rq iam iam'.
Proof.
  unfold add_role_to_user_handle_request. destruct (rq_parameter rq "user") as [userId |] eqn:Eu,
    (rq_parameter rq "role") as [roleId |] eqn:Er; try by intros Hk%emit_same; left.
  intros (b & Ha & Hk)%access_seq. destruct b; [| by apply emit_same in Hk; left].
  eapply (change_guarded _ _ _ (fun added : bool => if added then 201 else 404)) in Hk;
    [exact Hk | apply add_role_inv |].
  by exists userId, roleId.
Qed.

Lemma remove_role_guarded rq iam iam' t :
  remove_role_from_user_handle_request rq iam = Def (tt, iam', t) -> guarded OpRemoveRoleFromUser rq iam iam'.
Proof.
  unfold remove_role_from_user_handle_request. destruct (rq_parameter rq "user") as [userId |] eqn:Eu,
    (rq_parameter rq "role") as [roleId |] eqn:Er; try by intros Hk%emit_same; left.
  intros (b & Ha & Hk)%access_seq. destruct b; [| by apply emit_same in Hk; left].
  eapply (change_guarded _ _ _ (fun _ => 202)) in Hk; [exact Hk | apply remove_role_inv |].
  by exists userId, roleId.
Qed.

Ltac read_only :=
  repeat match goal with
  | H : ubind (check_access _ _ _) _ _ = Def _ |- _ => apply access_seq in H as ([] & _ & H)
  | H : ubind (uof _) _ _ = Def _ |- _ => apply uof_seq in H as (? & _ & H)
  | H : ubind (ulift hget) _ _ = Def _ |- _ => rewrite u_hget in H
  | H : ulift (emit _) _ = Def _ |- _ => apply emit_same in H
  | H : ulift (respond_payload _ _) _ = Def _ |- _ => apply respond_same in H
  | H : match ?x with Some _ => _ | None => _ end _ = Def _ |- _ => destruct x eqn:?
  | H : (if negb ?x then _ else _) _ = Def _ |- _ => cbn [negb] in H
  end; try done.

(** The other handlers change nothing. *)
Lemma handlers_read_only op rq iam iam' t :
  op ∉ [OpPairingPassword; OpPairingLocal; OpDeleteUser; OpAddRoleToUser; OpRemoveRoleFromUser] ->
  iam_handle op rq iam = Def (tt, iam', t) -> iam' = iam.
Proof.
  intros Hop Hs. destruct op; try (by destruct Hop; set_solver); cbn [iam_handle] in Hs;
    unfold is_paired_handle_request, get_user_handle_request, list_users_handle_request,
      list_roles_handle_request, pairing_get_handle_request, client_settings_handle_request in Hs;
    read_only.
Qed.

(** Every operation changes users only when it is authorized. *)
Lemma handle_guarded op rq iam iam' t :
  iam_handle op rq iam = Def (tt, iam', t) -> guarded op rq iam iam'.
Proof.
  intros Hs. destruct op; cbn [iam_handle] in Hs.
  - by eapply pairing_password_guarded.
  - by eapply pairing_local_guarded.
  - left. by apply (handlers_read_only OpIsPaired rq _ _ t); [set_solver |].
  - by eapply delete_user_guarded.
  - by eapply add_role_guarded.
  - by eapply remove_role_guarded.
  - left. by apply (handlers_read_only OpGetUser rq _ _ t); [set_solver |].
  - left. by apply (handlers_read_only OpListUsers rq _ _ t); [set_solver |].
  - left. by apply (handlers_read_only OpListRoles rq _ _ t); [set_solver |].
  - left. by apply (handlers_read_only OpPairingGet rq _ _ t); [set_solver |].
  - left. by apply (handlers_read_only OpClientSettings rq _ _ t); [set_solver |].
Qed.

(** C25. No change without authorization: a CoAP handler of the module changes the
    configuration only when access to its action, on the user and the role the request names,
    is granted to the client, and for pairing only with the right password or on a local
    connection; the other handlers change nothing. *)
Theorem changes_are_authorized op rq iam iam' t (Hstep : iam_handle op rq iam = Def (tt, iam', t))
    (Hch : iam' <> iam) : authorized op rq iam.
Proof. by apply handle_guarded in Hstep as [-> | [? _]]. Qed.

(** Users keep different ids and different fingerprints, whatever sequence of requests
    the module handles. *)
Lemma users_stay_distinct iam (ops : list (iam_op * iam_request)) iam'
    (Hinv : iam_inv iam)
    (Hrun : foldl (fun c '(op, rq) => cres_bind c (fun iam =>
              cres_bind (iam_handle op rq iam) (fun r => Def r.1.2))) (Def iam) ops = Def iam') :
  iam_inv iam'.
Proof.
  revert iam Hinv Hrun. induction ops as [| [op rq] ops IH]; intros iam Hinv; cbn -[iam_handle].
  { by intros [= <-]. }
  destruct (iam_handle op rq iam) as [[[[] iam1] t] |] eqn:Es; cbn -[iam_handle].
  2: { clear. intros Hrun. exfalso. induction ops as [| [op' rq'] ops IH]; [done | by apply IH]. }
  apply IH. by destruct (handle_guarded _ _ _ _ _ Es) as [-> | [_ Hp]]; [| apply Hp].
Qed.
End Operations.

(** The search for the id of a new user ends: its result is the first of the numbers
    1, 2, ... that is no user's id, and it is at most one more than the number of users. *)
Lemma next_user_id_fresh iam :
  exists k, (0 < k <= N.of_nat (S (length (iam_users iam))))%N /\
    nm_iam_next_user_id iam = Some (pretty k) /\
    nm_iam_find_user_by_id iam (pretty k) = None /\
    forall j, (0 < j < k)%N -> is_Some (nm_iam_find_user_by_id iam (pretty j)).
Proof.
  destruct (next_id_some iam) as (id & Hid & _). pose proof Hid as Hid'. unfold nm_iam_next_user_id in Hid'.
  pose proof (next_id_spec iam (S (length (iam_users iam))) 0) as Hs. rewrite Hid' in Hs.
  destruct Hs as (k & Hk & -> & Hn & Hj). exists k. split; [exact Hk |]. split; [exact Hid |].
  split; [exact Hn | exact Hj].
Qed.
End Iam.

(** ** Witnesses *)

#[local] Instance example_strtod : Strtod := fun s => (SpecFloat.S754_zero false, s).

(** The payload of every request is the text "secret". *)
#[local] Instance example_dec : CborDec tree := tree_dec (fun _ => TreeText (ascii_codes "secret")).

Abbreviation example_iam_type := (nm_iam (T := gset string) (M := gmap string string)).

(** One policy, for all ways of pairing, which the roles "Unpaired" and "Admin" have. *)
Definition example_iam : example_iam_type :=
  mk_iam [] [mk_role "Unpaired" {["pairing"%string]}; mk_role "Admin" {["pairing"%string]}]
    [mk_policy "pairing" [mk_statement NM_EFFECT_ALLOW {["Pairing:Password"%string; "Pairing:Local"%string]} []]]
    (Some "secret"%string) true.

Definition example_rq : iam_request :=
  mk_rq (Some "f1"%string) false (fun _ => None) true (Some []) (Some "token"%string) true true.

Lemma example_closed : iam_closed example_iam.
Proof.
  unfold iam_closed. split; by_compute.
Defined.

Lemma example_inv : iam_inv example_iam.
Proof. repeat split; constructor. Defined.

Definition example_paired : example_iam_type :=
  match iam_handle OpPairingPassword example_rq example_iam with
  | Def (_, iam, _) => iam
  | UB => example_iam
  end.

Lemma check_access_iff_witness :
  iam_closed example_iam /\
  exists b, nm_iam_check_access example_iam (Some "f1"%string) "Pairing:Password" None = Def b.
Proof. split; [exact example_closed |]. apply (check_access_iff example_iam _ _ None example_closed). Defined.

Lemma pair_new_client_correct_witness :
  iam_inv example_iam /\
  exists res iam' t, nm_iam_pair_new_client example_rq example_iam = Def (res, iam', t) /\ iam_inv iam'.
Proof.
  split; [exact example_inv |].
  destruct (pair_new_client_correct example_rq example_iam example_inv) as (res & iam' & t & Hp & Hi & _).
  by exists res, iam', t.
Defined.

Lemma changes_are_authorized_witness :
  (exists t, iam_handle OpPairingPassword example_rq example_iam = Def (tt, example_paired, t)) /\
  length (iam_users example_paired) = 1%nat /\ authorized OpPairingPassword example_rq example_iam.
Proof.
  split; [by eexists |]. split; [by vm_compute |].
  eapply (changes_are_authorized OpPairingPassword example_rq example_iam example_paired); [reflexivity |].
  intros E%(f_equal (fun c => length (iam_users c))). revert E. by vm_compute.
Defined.

Lemma users_stay_distinct_witness :
  iam_inv example_iam /\ iam_inv example_paired.
Proof.
  split; [exact example_inv |].
  by apply (users_stay_distinct example_iam [(OpPairingPassword, example_rq)] example_paired example_inv).
Defined.
