(* ===== verification/IamJson.v ===== *)
(** * Users and roles as JSON (nm_iam_from_json.c, nm_iam_to_json.c)

    The form in which users and roles are kept in files, over the interface of cJSON of
    PoliciesJson.v. The theorems are the round trips. Allocations succeed. *)

From stdpp Require Import sets gmap.
From S2P Require Import Prelude Collections Policies PoliciesJson Iam.

#[local] Open Scope string_scope.
#[local] Open Scope list_scope.

Section IamJson.
Context {J : Type} `{CJson J} {T : Type} `{StringSet T} {M : Type} `{StringMap M}.

Abbreviation nm_iam_user := (nm_iam_user (T := T) (M := M)).
Abbreviation nm_iam_role := (nm_iam_role (T := T)).

(** The string of an item that is a string. *)
Definition string_item (item : option J) : option string :=
  match item with
  | Some j => if cJSON_IsString j then Some (cj_valuestring j) else None
  | None => None
  end.

(** ** From JSON *)

(** The loops over the policies of a role and the roles of a user: other items are skipped. *)
Fixpoint insert_strings (items : list J) (set : T) : T :=
  match items with
  | [] => set
  | p :: rest =>
      insert_strings rest (if cJSON_IsString p then (ss_insert set (cj_valuestring p)).2 else set)
  end.

Definition nm_iam_role_from_json (json : J) : option nm_iam_role :=
  let id := cJSON_GetObjectItem json "Id" in
  let policies := cJSON_GetObjectItem json "Policies" in
  match string_item id, policies with
  | Some id, Some policies =>
      if cJSON_IsArray policies
      then Some ((nm_iam_role_new id) {{ r_policies ::= insert_strings (cj_items policies) }})
      else None
  | _, _ => None
  end.

(** [cJSON_ArrayForEach]: the children with their names. *)
Fixpoint load_attribute_items (items : list (string * J)) (attributes : M) : M :=
  match items with
  | [] => attributes
  | (name, item) :: rest =>
      load_attribute_items rest
        (if cJSON_IsString item then sm_insert attributes name (cj_valuestring item) else attributes)
  end.

Definition load_attributes (attributes : M) (json : option J) : bool * M :=
  match json with
  | Some json =>
      if cJSON_IsObject json then (true, load_attribute_items (cj_children json) attributes)
      else (false, attributes)
  | None => (false, attributes)
  end.

Definition nm_iam_user_from_json (json : J) : option nm_iam_user :=
  let id := cJSON_GetObjectItem json "Id" in
  let serverConnectToken := cJSON_GetObjectItem json "ServerConnectToken" in
  let fingerprint := cJSON_GetObjectItem json "Fingerprint" in
  let attributes := cJSON_GetObjectItem json "Attributes" in
  let roles := cJSON_GetObjectItem json "Roles" in
  match string_item id with
  | None => None
  | Some id =>
      let user := nm_iam_user_new id in
      let user := user {{ u_fingerprint := string_item fingerprint }} in
      let user := user {{ u_serverConnectToken := string_item serverConnectToken }} in
      let user := match roles with
                  | Some roles =>
                      if cJSON_IsArray roles then user {{ u_roles ::= insert_strings (cj_items roles) }}
                      else user
                  | None => user
                  end in
      Some (user {{ u_attributes ::= fun m => (load_attributes m attributes).2 }})
  end.

(** ** To JSON *)

Definition nm_iam_role_to_json (role : nm_iam_role) : J :=
  let root := cJSON_CreateObject in
  let root := cJSON_AddItemToObject root "Id" (cJSON_CreateString (r_id role)) in
  let policies := to_array (map cJSON_CreateString (ss_elements (r_policies role))) in
  cJSON_AddItemToObject root "Policies" policies.

(** A member that is only added when there is a string. *)
Definition add_string (root : J) (name : string) (s : option string) : J :=
  match s with
  | Some s => cJSON_AddItemToObject root name (cJSON_CreateString s)
  | None => root
  end.

Definition add_attribute (kvPairs : J) (kv : string * string) : J :=
  cJSON_AddItemToObject kvPairs kv.1 (cJSON_CreateString kv.2).

Definition nm_iam_user_to_json (user : nm_iam_user) : J :=
  let root := cJSON_CreateObject in
  let root := cJSON_AddItemToObject root "Id" (cJSON_CreateString (u_id user)) in
  let root := add_string root "Fingerprint" (u_fingerprint user) in
  let root := add_string root "ServerConnectToken" (u_serverConnectToken user) in
  let root := match ss_elements (u_roles user) with
              | [] => root
              | roles => cJSON_AddItemToObject root "Roles" (to_array (map cJSON_CreateString roles))
              end in
  match sm_items (u_attributes user) with
  | [] => root
  | items => cJSON_AddItemToObject root "Attributes" (fold_left add_attribute items cJSON_CreateObject)
  end.

(** ** The round trips *)

(** Records that agree up to the representation of their sets and maps. *)
Definition role_equiv (r r' : nm_iam_role) : Prop :=
  r_id r = r_id r' /\ set_equiv (r_policies r) (r_policies r').

Definition map_equiv (m m' : M) : Prop := forall k, sm_get m k = sm_get m' k.

Definition user_equiv (u u' : nm_iam_user) : Prop :=
  u_id u = u_id u' /\ set_equiv (u_roles u) (u_roles u') /\ u_fingerprint u = u_fingerprint u' /\
  u_serverConnectToken u = u_serverConnectToken u' /\ map_equiv (u_attributes u) (u_attributes u').

#[global] Instance user_equiv_refl : Reflexive user_equiv.
Proof. by repeat split. Qed.

Context `{!CJsonLaws J, !StringSetLaws T, !StringMapLaws M}.
Hypothesis memory : forall (s : T) x, (ss_insert s x).1 = true.

Lemma insert_strings_spec l : forall (set : T) x,
  x ∈ ss_elements (insert_strings (map cJSON_CreateString l) set) <-> x ∈ l \/ x ∈ ss_elements set.
Proof.
  induction l as [| y l IH]; intros set x; cbn [insert_strings map]; [set_solver |].
  destruct (cj_string_new y) as [-> ->]. rewrite IH. pose proof (memory set y) as Hb.
  destruct (ss_insert set y) as [b s1] eqn:Ei. cbn in Hb. subst b.
  cbn. rewrite (ss_insert_spec _ _ _ Ei). set_solver.
Qed.

Lemma set_roundtrip (set : T) :
  set_equiv set (insert_strings (cj_items (to_array (map cJSON_CreateString (ss_elements set)))) ss_empty).
Proof.
  intros x. edestruct to_array_items as [_ ->]. rewrite insert_strings_spec, ss_empty_elements. set_solver.
Qed.

Lemma role_json_roundtrip role :
  exists role', nm_iam_role_from_json (nm_iam_role_to_json role) = Some role' /\ role_equiv role role'.
Proof.
  unfold nm_iam_role_from_json, nm_iam_role_to_json. cbv zeta.
  destruct (object_1 "Id" (cJSON_CreateString (r_id role))) as [O1 C1].
  destruct (cj_object_add _ "Policies" (to_array (map cJSON_CreateString (ss_elements (r_policies role)))) O1)
    as [_ C2]. rewrite C1 in C2.
  set (j := cJSON_AddItemToObject _ "Policies" _) in *.
  assert (G1 : cJSON_GetObjectItem j "Id" = Some (cJSON_CreateString (r_id role)))
    by (unfold cJSON_GetObjectItem; by rewrite C2).
  assert (G2 : cJSON_GetObjectItem j "Policies" =
    Some (to_array (map cJSON_CreateString (ss_elements (r_policies role)))))
    by (unfold cJSON_GetObjectItem; by rewrite C2).
  rewrite G1, G2. cbn [string_item]. destruct (cj_string_new (r_id role)) as [-> ->].
  edestruct to_array_items as [-> _]. eexists. split; [reflexivity |]. split; [done |]. apply set_roundtrip.
Qed.

(** *** Attributes *)

Definition attribute_items (items : list (string * string)) : list (string * J) :=
  map (fun kv => (kv.1, cJSON_CreateString kv.2)) items.

Lemma attributes_object items : forall j, cJSON_IsObject j = true ->
  cJSON_IsObject (fold_left add_attribute items j) = true /\
  cj_children (fold_left add_attribute items j) = cj_children j ++ attribute_items items.
Proof.
  induction items as [| [k v] items IH]; intros j Hj; cbn; [by rewrite app_nil_r |].
  destruct (cj_object_add j k (cJSON_CreateString v) Hj) as [Ho Hc].
  destruct (IH _ Ho) as [Ho' Hc']. split; [exact Ho' |].
  unfold add_attribute at 1 in Hc'. cbn in Hc'. rewrite Hc in Hc'. by rewrite <- app_assoc in Hc'.
Qed.

Lemma load_attribute_get items : forall (m : M), NoDup items.*1 -> forall k,
  sm_get (load_attribute_items (attribute_items items) m) k =
    match list_find (fun kv => kv.1 = k) items with Some (_, kv) => Some kv.2 | None => sm_get m k end.
Proof.
  induction items as [| [k0 v0] items IH]; intros m Hnd k; cbn; [done |].
  cbn in Hnd. apply NoDup_cons in Hnd as [Hni Hnd]. destruct (cj_string_new v0) as [-> ->].
  rewrite IH, sm_get_insert by done. destruct (decide (k0 = k)) as [-> | Hne].
  - destruct (list_find _ items) as [[i kv] |] eqn:Ef; [| by rewrite decide_True].
    apply list_find_Some in Ef as (Hl & <- & _). destruct Hni.
    apply list_elem_of_fmap. exists kv. split; [done | by eapply list_elem_of_lookup_2].
  - destruct (list_find _ items) as [[i kv] |]; cbn; [done |]. by rewrite decide_False.
Qed.

Lemma map_roundtrip (m : M) :
  map_equiv m (load_attribute_items (attribute_items (sm_items m)) sm_empty).
Proof.
  intros k. rewrite load_attribute_get by apply sm_items_nodup.
  destruct (list_find _ _) as [[i [k' v]] |] eqn:Ef.
  - apply list_find_Some in Ef as (Hl & <- & _). cbn. apply sm_items_spec. by eapply list_elem_of_lookup_2.
  - rewrite sm_get_empty. apply list_find_None in Ef. rewrite Forall_forall in Ef.
    destruct (sm_get m k) as [v |] eqn:Eg; [| done]. apply sm_items_spec in Eg. by destruct (Ef (k, v) Eg).
Qed.

(** *** Users *)

(** The members of the JSON of a user. *)
Definition opt_member (name : string) (s : option string) : list (string * J) :=
  match s with Some s => [(name, cJSON_CreateString s)] | None => [] end.

Definition user_members (user : nm_iam_user) : list (string * J) :=
  [("Id", cJSON_CreateString (u_id user))] ++ opt_member "Fingerprint" (u_fingerprint user) ++
  opt_member "ServerConnectToken" (u_serverConnectToken user) ++
  match ss_elements (u_roles user) with
  | [] => [] | roles => [("Roles", to_array (map cJSON_CreateString roles))] end ++
  match sm_items (u_attributes user) with
  | [] => [] | items => [("Attributes", fold_left add_attribute items cJSON_CreateObject)] end.

Lemma add_string_object root name s :
  cJSON_IsObject root = true ->
  cJSON_IsObject (add_string root name s) = true /\
  cj_children (add_string root name s) = cj_children root ++ opt_member name s.
Proof.
  intros Ho. destruct s as [s |]; cbn; [by apply cj_object_add | by rewrite app_nil_r].
Qed.

Lemma user_object user :
  cJSON_IsObject (nm_iam_user_to_json user) = true /\
  cj_children (nm_iam_user_to_json user) = user_members user.
Proof.
  unfold nm_iam_user_to_json, user_members. cbv zeta.
  destruct (object_1 "Id" (cJSON_CreateString (u_id user))) as [O1 C1].
  destruct (add_string_object _ "Fingerprint" (u_fingerprint user) O1) as [O2 C2]. rewrite C1 in C2.
  destruct (add_string_object _ "ServerConnectToken" (u_serverConnectToken user) O2) as [O3 C3].
  rewrite C2, <- app_assoc in C3. set (j3 := add_string _ "ServerConnectToken" _) in *.
  assert (H4 : exists j4, match ss_elements (u_roles user) with
      | [] => j3 | roles => cJSON_AddItemToObject j3 "Roles" (to_array (map cJSON_CreateString roles)) end = j4 /\
    cJSON_IsObject j4 = true /\ cj_children j4 = cj_children j3 ++ match ss_elements (u_roles user) with
      | [] => [] | roles => [("Roles", to_array (map cJSON_CreateString roles))] end).
  { eexists. split; [reflexivity |].
    destruct (ss_elements (u_roles user)); [by rewrite app_nil_r | by apply cj_object_add]. }
  destruct H4 as (j4 & -> & O4 & C4). rewrite C3, <- !app_assoc in C4.
  destruct (sm_items (u_attributes user)) as [| kv items].
  - split; [exact O4 |]. by rewrite C4, app_nil_r.
  - edestruct (cj_object_add j4 "Attributes") as [-> ->]; [exact O4 |]. split; [done |].
    by rewrite C4, <- !app_assoc.
Qed.

Lemma user_json_members user :
  let json := nm_iam_user_to_json user in
  cJSON_GetObjectItem json "Id" = Some (cJSON_CreateString (u_id user)) /\
  cJSON_GetObjectItem json "Fingerprint" = cJSON_CreateString <$> u_fingerprint user /\
  cJSON_GetObjectItem json "ServerConnectToken" = cJSON_CreateString <$> u_serverConnectToken user /\
  cJSON_GetObjectItem json "Roles" = match ss_elements (u_roles user) with
    | [] => None | roles => Some (to_array (map cJSON_CreateString roles)) end /\
  cJSON_GetObjectItem json "Attributes" = match sm_items (u_attributes user) with
    | [] => None | items => Some (fold_left add_attribute items cJSON_CreateObject) end.
Proof.
  cbv zeta. unfold cJSON_GetObjectItem. destruct (user_object user) as [_ ->]. unfold user_members, opt_member.
  destruct (u_fingerprint user), (u_serverConnectToken user), (ss_elements (u_roles user)),
    (sm_items (u_attributes user)); done.
Qed.

Lemma string_item_created s : string_item (cJSON_CreateString <$> s) = s.
Proof. destruct s as [s |]; cbn; [| done]. by destruct (cj_string_new s) as [-> ->]. Qed.

(** A user survives being written as JSON and read back: the same id, fingerprint, token,
    roles and attributes. *)
Lemma user_json_roundtrip user :
  exists user', nm_iam_user_from_json (nm_iam_user_to_json user) = Some user' /\ user_equiv user user'.
Proof.
  destruct (user_json_members user) as (G1 & G2 & G3 & G4 & G5).
  unfold nm_iam_user_from_json. cbv zeta. rewrite G1, G2, G3, G4, G5, !string_item_created.
  cbn [string_item]. destruct (cj_string_new (u_id user)) as [-> ->].
  eexists. split; [reflexivity |]. unfold user_equiv.
  assert (Hs : set_equiv (u_roles user) (insert_strings (cj_items (to_array
    (map cJSON_CreateString (ss_elements (u_roles user))))) ss_empty)) by apply set_roundtrip.
  assert (Hm : map_equiv (u_attributes user) (load_attributes sm_empty
    match sm_items (u_attributes user) with
    | [] => None | items => Some (fold_left add_attribute items cJSON_CreateObject) end).2).
  { intros k. rewrite (map_roundtrip (u_attributes user) k). destruct cj_object_new as [On Cn].
    destruct (sm_items (u_attributes user)) as [| kv items]; [done |]. cbn [load_attributes].
    destruct (attributes_object (kv :: items) cJSON_CreateObject On) as [-> ->]. by rewrite Cn. }
  destruct (ss_elements (u_roles user)) as [| r roles] eqn:Er.
  - split_and!; try done. intros x. rewrite Er. change (x ∈ [] <-> x ∈ ss_elements ss_empty).
    by rewrite ss_empty_elements.
  - edestruct to_array_items as [-> _]. split_and!; done.
Qed.
End IamJson.
