(* ===== verification/AppFiles.v ===== *)
(** * Files, keys and passwords of the applications (src/apps/common)

    Files are a map from names to contents; what the operating system answers to a call is an
    [io]. The interface of cJSON is extended by numbers and by the texts of JSON values, with
    an instance for JSON trees. The theorems are about the random passwords: which texts they
    are, that they are found, and that no letter is more likely than another. *)

From stdpp Require Import gmap countable.
From Stdlib Require Import SpecFloat Ascii.
From S2P Require Import Prelude Collections Iam PoliciesJson IamJson.

#[local] Open Scope Z_scope.
#[local] Open Scope string_scope.
#[local] Open Scope list_scope.
#[local] Open Scope handler_scope.

(** The calls of an application to the device and to access management. *)
Inductive app_call : Type :=
| AppMakeDirectory (directory : string)
| AppSetPrivateKey (key : string)
| AppSetProductId (productId : string)
| AppSetDeviceId (deviceId : string)
| AppSetServerUrl (server : string)
| AppSetServerPort (port : Z)
| AppEnableMdns
| AppAddTcpTunnelService (id type host : string) (port : Z)
| AppIam (call : iam_call)
| AppPairingUrl (url : string)
| AppPrintUser (id fingerprint : string)
| AppDeviceStart
| AppIamStart
| AppDeviceStop
| AppIamDeinit
| AppDeviceFree.

Abbreviation disk := (gmap string string).

(** What the operating system does for one use of a file: whether [fopen] and [malloc]
    succeed, and how many bytes of those asked for [fread] or [fwrite] transfer. *)
Record io : Type := mk_io {
  io_open : bool;
  io_malloc : bool;
  io_count : nat -> nat
}.

Definition transferred (os : io) (n : nat) : nat := Nat.min (io_count os n) n.

Definition io_ok (os : io) : Prop :=
  io_open os = true /\ io_malloc os = true /\ forall n, (n <= io_count os n)%nat.

Definition app (A : Type) : Type := handler disk app_call A.
Definition uapp (A : Type) : Type := uhandler disk app_call A.

(** ** string_file.c *)

Definition string_file_exists (fileName : string) : app bool :=
  hgets (fun fs => bool_decide (is_Some (fs !! fileName))).

(** The string at the beginning of a buffer that ends with NUL. *)
Fixpoint c_str (s : string) : string :=
  match s with
  | EmptyString => EmptyString
  | String c rest => if bool_decide (c = Ascii.zero) then EmptyString else String c (c_str rest)
  end.

(** [fopen(fileName, "rb")]: the content of the file. *)
Definition fopen_read (os : io) (fileName : string) : app (option string) :=
  hgets (fun fs => if io_open os then fs !! fileName else None).

(** All of the content is read, or the call fails. *)
Definition string_load_from_file (os : io) (f : string) : option string :=
  let fsize := String.length f in
  if negb (io_malloc os) then None
  else
    let read := transferred os fsize in
    if negb (read =? fsize)%nat then None else Some (c_str f).

Definition string_file_load (os : io) (fileName : string) : app (option string) :=
  let* f := fopen_read os fileName in
  match f with
  | None => hret None
  | Some f => hret (string_load_from_file os f)
  end.

(** [fopen(fileName, "wb")] empties the file, then [fwrite] and [fclose]. *)
Definition write_file (os : io) (fileName content : string) : app bool :=
  let contentSize := String.length content in
  let written := transferred os contentSize in
  hmod (fun fs => <[fileName := String.substring 0 written content]> fs) ;;;
  hret (written =? contentSize)%nat.

Definition string_file_save (os : io) (fileName content : string) : app bool :=
  if negb (io_open os) then hret false else write_file os fileName content.

(** ** private_key.c *)

(** What the device answers: a new key, and whether a key is accepted. *)
Record key_device : Type := mk_key_device {
  kd_create_private_key : option string;
  kd_set_private_key : string -> bool
}.

Definition create_private_key (device : key_device) (os : io) (filename : string) : app bool :=
  match kd_create_private_key device with
  | None => hret false
  | Some privateKey => string_file_save os filename privateKey
  end.

Definition load_or_create_private_key (device : key_device) (save load : io) (filename : string) : app bool :=
  let* exists_ := string_file_exists filename in
  let* created := (if exists_ then hret true else create_private_key device save filename) in
  if negb created then hret false
  else
    let* privateKey := string_file_load load filename in
    match privateKey with
    | None => hret false
    | Some privateKey =>
        emit (AppSetPrivateKey privateKey) ;;;
        hret (kd_set_private_key device privateKey)
    end.

(** ** random_string.c *)

Definition alphabet : string := "abcdefghijkmnopqrstuvwxyzACEFHJKLMNPRTUVWXY3479".

Definition ambiguous : string := "B8G6I1l0OQDS5Z2".

(** The letter for a byte; most bytes have none. *)
Definition letter_of (buffer : Z) : option Ascii.ascii :=
  if (buffer <? Z.of_nat (String.length alphabet))%Z then String.get (Z.to_nat buffer) alphabet else None.

(** The loop of [random_password]. [rnd k] is the answer to the call number [k] of
    [mbedtls_ctr_drbg_random], a byte or a failure. [None] is a loop that has not ended yet,
    [Some None] the failure. *)
Fixpoint generate (fuel k : nat) (rnd : nat -> option Z) (outputSize : nat) (out : string) :
    option (option string) :=
  if (String.length out <? outputSize)%nat then
    match fuel with
    | O => None
    | S fuel =>
        match rnd k with
        | None => Some None
        | Some buffer =>
            match letter_of buffer with
            | Some letter => generate fuel (S k) rnd outputSize (out +:+ String letter "")
            | None => generate fuel (S k) rnd outputSize out
            end
        end
    end
  else Some (Some out).

(** [seeded] is the answer of [mbedtls_ctr_drbg_seed], [allocated] that of [calloc]. *)
Definition random_password (fuel : nat) (seeded allocated : bool) (rnd : nat -> option Z) (outputSize : nat) :
    option (option string) :=
  if negb seeded then Some None
  else if negb allocated then Some None
  else generate fuel 0 rnd outputSize "".

(** ** JSON texts and numbers *)

(** [cj_add_null] adds the result of [cJSON_CreateString(NULL)] to an object. *)
Class CJsonText (J : Type) : Type := {
  cJSON_IsNumber : J -> bool;
  cj_valuedouble : J -> spec_float;
  cJSON_CreateNumber : Z -> J;
  cj_add_null : J -> string -> J;
  cJSON_Parse : string -> option J;
  cJSON_PrintUnformatted : J -> option string
}.

(** The integer part of a double. *)
Definition double_trunc (d : spec_float) : option Z :=
  match d with
  | S754_zero _ => Some 0
  | S754_finite s m e =>
      let n := if (0 <=? e)%Z then Z.shiftl (Zpos m) e else Z.shiftr (Zpos m) (- e) in
      Some (if s then - n else n)
  | _ => None
  end.

(** The conversion [(uint16_t)d], undefined when the integer part does not fit. *)
Definition double_to_uint16 (d : spec_float) : cres Z :=
  match double_trunc d with
  | Some n => if ((0 <=? n) && (n <? 2 ^ 16))%Z then Def n else UB
  | None => UB
  end.

Section Text.
Context {J : Type} `{CJson J, !CJsonText J}.

(** Values that are built by the operations of cJSON. *)
Inductive built : J -> Prop :=
| built_string s : built (cJSON_CreateString s)
| built_number n : built (cJSON_CreateNumber n)
| built_array : built cJSON_CreateArray
| built_object : built cJSON_CreateObject
| built_add_array j item : cJSON_IsArray j = true -> built j -> built item -> built (cJSON_AddItemToArray j item)
| built_add_object j name item :
    cJSON_IsObject j = true -> built j -> built item -> built (cJSON_AddItemToObject j name item).
End Text.

(** What is printed is a string that is parsed to the same value. *)
Class CJsonTextLaws (J : Type) `{CJson J, !CJsonText J} : Prop := {
  cj_print : forall j, built j ->
    exists s, cJSON_PrintUnformatted j = Some s /\ c_str s = s /\ cJSON_Parse s = Some j;
  cj_number_new : forall n, 0 <= n < 2 ^ 53 -> cJSON_IsNumber (cJSON_CreateNumber n) = true /\
    double_trunc (cj_valuedouble (cJSON_CreateNumber n)) = Some n;
  cj_string_number : forall s, cJSON_IsNumber (cJSON_CreateString s) = false;
  cj_add_null_same : forall j name, cj_add_null j name = j
}.

Section JsonFiles.
Context {J : Type} `{CJson J, !CJsonText J}.

(** ** json_config.c *)

Definition json_config_exists (fileName : string) : app bool := string_file_exists fileName.

(** After a short read the buffer is not freed. *)
Definition json_load_from_file (os : io) (f : string) : option J :=
  let fsize := String.length f in
  if negb (io_malloc os) then None
  else
    let read := transferred os fsize in
    if negb (read =? fsize)%nat then None else cJSON_Parse (c_str f).

Definition json_config_load (os : io) (fileName : string) : app (option J) :=
  let* f := fopen_read os fileName in
  match f with
  | None => hret None
  | Some f => hret (json_load_from_file os f)
  end.

Definition json_config_save (os : io) (fileName : string) (config : J) : app bool :=
  if negb (io_open os) then hret false
  else
    match cJSON_PrintUnformatted config with
    | None => hmod (fun fs => <[fileName := ""]> fs) ;;; hret false
    | Some j => write_file os fileName j
    end.

(** ** device_config.c *)

Record device_config : Type := mk_device_config {
  dc_productId : option string;
  dc_deviceId : option string;
  dc_server : option string;
  dc_serverPort : Z
}.

Definition device_config_init : device_config := mk_device_config None None None 0.

Definition load_device_config (os : io) (fileName : string) (dc : device_config) : uapp (bool * device_config) :=
  let+ config := ulift (json_config_load os fileName) in
  match config with
  | None => ulift (hret (false, dc))
  | Some config =>
      let productId := cJSON_GetObjectItem config "ProductId" in
      let deviceId := cJSON_GetObjectItem config "DeviceId" in
      let server := cJSON_GetObjectItem config "Server" in
      let serverPort := cJSON_GetObjectItem config "ServerPort" in
      match string_item productId, string_item deviceId with
      | Some productId, Some deviceId =>
          let dc := dc {{ dc_productId := Some productId }} in
          let dc := dc {{ dc_deviceId := Some deviceId }} in
          let dc := match string_item server with
                    | Some server => dc {{ dc_server := Some server }}
                    | None => dc end in
          match serverPort with
          | Some serverPort =>
              if cJSON_IsNumber serverPort then
                let+ port := uof (double_to_uint16 (cj_valuedouble serverPort)) in
                ulift (hret (true, dc {{ dc_serverPort := port }}))
              else ulift (hret (true, dc))
          | None => ulift (hret (true, dc))
          end
      | _, _ => ulift (hret (false, dc))
      end
  end.
End JsonFiles.

(** ** The random passwords *)

(** The letters for the answers from number [k] to number [k + n - 1]. *)
Definition letters (rnd : nat -> option Z) (k n : nat) : list Ascii.ascii :=
  omap (fun i => rnd i ≫= letter_of) (seq k n).

Lemma append_cons c s t : String c s +:+ t = String c (s +:+ t).
Proof. done. Qed.

Lemma length_snoc s c : String.length (s +:+ String c "") = S (String.length s).
Proof. induction s as [| d s IH]; [done |]. rewrite append_cons. cbn. by rewrite IH. Qed.

Lemma snoc_app s c t : (s +:+ String c "") +:+ t = s +:+ String c t.
Proof. induction s as [| d s IH]; [done |]. by rewrite !append_cons, IH. Qed.

Lemma append_empty s : s +:+ "" = s.
Proof. induction s as [| d s IH]; [done |]. by rewrite append_cons, IH. Qed.

Lemma generate_letters rnd size fuel : forall k out,
  (forall i, (k <= i < k + fuel)%nat -> is_Some (rnd i)) ->
  (String.length out <= size <= String.length out + length (letters rnd k fuel))%nat ->
  generate fuel k rnd size out =
    Some (Some (out +:+ String.string_of_list_ascii (take (size - String.length out) (letters rnd k fuel)))).
Proof.
  assert (Hend : forall out l, size = String.length out ->
    Some (Some out) = Some (Some (out +:+ String.string_of_list_ascii (take (size - String.length out) l)))).
  { intros out l ->. rewrite Nat.sub_diag. cbn. by rewrite append_empty. }
  induction fuel as [| fuel IH]; intros k out Hrnd Hlen; cbn [generate].
  { cbn in Hlen. destruct (Nat.ltb_spec (String.length out) size); [lia |]. apply Hend. lia. }
  destruct (Nat.ltb_spec (String.length out) size) as [Hlt |]; [| apply Hend; lia].
  unfold letters in *. cbn [seq] in *. destruct (Hrnd k ltac:(lia)) as [b Eb].
  cbn [omap list_omap] in *. rewrite Eb in *. cbn [mbind option_bind] in *.
  assert (Hrnd' : forall i, (S k <= i < S k + fuel)%nat -> is_Some (rnd i)) by (intros; apply Hrnd; lia).
  destruct (letter_of b) as [c |] eqn:El.
  - cbn [length] in Hlen. rewrite IH; [| done | rewrite length_snoc; lia]. rewrite length_snoc, snoc_app.
    do 2 f_equal. by replace (size - String.length out)%nat with (S (size - S (String.length out))) by lia.
  - apply IH; [done | lia].
Qed.

(** The bytes of a letter. *)
Definition bytes_of (c : Ascii.ascii) : list Z :=
  filter (fun b => letter_of b = Some c) (map Z.of_nat (seq 0 256)).

Lemma bytes_of_one :
  Forall (fun c => length (bytes_of c) = 1%nat) (String.list_ascii_of_string alphabet).
Proof. by_compute. Qed.

Lemma letter_of_byte b c : is_byte b -> letter_of b = Some c <-> b ∈ bytes_of c.
Proof.
  intros Hb. unfold bytes_of. rewrite list_elem_of_filter. split; [| by intros [? _]].
  intros Hl. split; [done |]. apply list_elem_of_fmap. exists (Z.to_nat b).
  split; [unfold is_byte, is_uint in Hb; lia |]. apply elem_of_seq. solve_int.
Qed.

Lemma no_ambiguous :
  Forall (fun c => c ∉ String.list_ascii_of_string ambiguous) (String.list_ascii_of_string alphabet).
Proof. by_compute. Qed.

(** Random passwords. Once the first [n] answers of the generator are bytes that hold
    enough letters, the loop has ended, and the password is the first [outputSize] of these
    letters. Every letter of the alphabet stands for exactly one byte, so that all are equally
    likely when the bytes are, and none of them is one of the ambiguous characters. *)
Lemma random_password_correct rnd n outputSize
    (Hrnd : forall i, (i < n)%nat -> is_Some (rnd i))
    (Henough : (outputSize <= length (letters rnd 0 n))%nat) :
  random_password n true true rnd outputSize =
    Some (Some (String.string_of_list_ascii (take outputSize (letters rnd 0 n)))) /\
  (forall c, c ∈ String.list_ascii_of_string alphabet ->
    c ∉ String.list_ascii_of_string ambiguous /\
    exists b, is_byte b /\ letter_of b = Some c /\ forall b', is_byte b' -> letter_of b' = Some c -> b' = b).
Proof.
  split.
  { unfold random_password. cbn [negb]. rewrite generate_letters; [| intros; apply Hrnd; lia | cbn; lia].
    cbn [String.length]. by rewrite Nat.sub_0_r. }
  intros c Hc. pose proof no_ambiguous as Ha. rewrite Forall_forall in Ha. split; [by apply Ha |].
  pose proof bytes_of_one as Hone. rewrite Forall_forall in Hone. specialize (Hone c Hc).
  destruct (bytes_of c) as [| b [|]] eqn:Eb; try done. exists b.
  assert (Hin : b ∈ bytes_of c) by (rewrite Eb; left).
  pose proof Hin as [Hl (k & -> & Hk%elem_of_seq)%list_elem_of_fmap]%list_elem_of_filter.
  split; [solve_int |]. split; [done |]. intros b' Hb' Hl'%letter_of_byte; [| done].
  rewrite Eb in Hl'. by apply list_elem_of_singleton in Hl'.
Qed.

(** A failure of the generator before there are enough letters is a failure. *)
Lemma generate_fails rnd size n fuel : forall k out,
  rnd (k + n)%nat = None -> (forall i, (k <= i < k + n)%nat -> is_Some (rnd i)) -> (n < fuel)%nat ->
  (String.length out + length (letters rnd k n) < size)%nat -> generate fuel k rnd size out = Some None.
Proof.
  revert fuel. induction n as [| n IH]; intros fuel k out Hnone Hrnd Hf Hlen;
    (destruct fuel as [| fuel]; [lia |]); cbn [generate].
  { rewrite Nat.add_0_r in Hnone. rewrite Hnone. cbn in Hlen. by destruct (Nat.ltb_spec (String.length out) size); [| lia]. }
  destruct (Hrnd k ltac:(lia)) as [b Eb]. unfold letters in Hlen. cbn [seq omap list_omap] in Hlen. rewrite Eb in *.
  cbn [mbind option_bind] in Hlen. rewrite <- Nat.add_succ_comm in Hnone.
  assert (Hrnd' : forall i, (S k <= i < S k + n)%nat -> is_Some (rnd i)) by (intros; apply Hrnd; lia).
  destruct (Nat.ltb_spec (String.length out) size) as [_ |]; [| lia].
  destruct (letter_of b) as [c |]; apply IH; try done; try lia.
  rewrite length_snoc. cbn [length] in Hlen. unfold letters. lia.
Qed.

(** The bytes 0, 200 and 1 make the password "ab". *)
Lemma random_password_correct_witness :
  let rnd k := nth_error [0; 200; 1] k in
  (forall i, (i < 3)%nat -> is_Some (rnd i)) /\
  random_password 3 true true rnd 2 = Some (Some "ab").
Proof.
  cbv zeta. set (rnd k := nth_error [0; 200; 1] k).
  assert (Hr : forall i, (i < 3)%nat -> is_Some (rnd i)) by (intros [| [| [| ?]]] ?; try lia; by eexists).
  split; [exact Hr |].
  exact (proj1 (random_password_correct rnd 3 2 Hr ltac:(vm_compute; lia))).
Defined.

(** ** Files of JSON *)

Lemma transferred_all os n : io_ok os -> transferred os n = n.
Proof. intros (_ & _ & Hc). unfold transferred. specialize (Hc n). lia. Qed.

Lemma substring_all s : String.substring 0 (String.length s) s = s.
Proof. induction s as [| c s IH]; cbn; [done |]. by rewrite IH. Qed.

Lemma write_file_run os name s fs :
  io_ok os -> write_file os name s fs = (true, <[name := s]> fs, []).
Proof.
  intros Hos. unfold write_file, hbind, hmod, hret. rewrite transferred_all by done.
  by rewrite substring_all, Nat.eqb_refl.
Qed.

Section JsonFilesProofs.
Context {J : Type} `{CJson J, !CJsonText J, !CJsonTextLaws J}.

(** A value that is saved is what a load yields, on every later disk with the same file. *)
Lemma json_config_saved os name (j : J) fs :
  io_ok os -> built j -> exists s,
    json_config_save os name j fs = (true, <[name := s]> fs, []) /\
    forall os' fs', io_ok os' -> fs' !! name = Some s -> json_config_load os' name fs' = (Some j, fs', []).
Proof.
  intros Hos (s & Hp & Hc & Hr)%cj_print. exists s. split.
  - unfold json_config_save. rewrite (proj1 Hos), Hp. cbn [negb]. by apply write_file_run.
  - intros os' fs' Hos' Hf. unfold json_config_load, fopen_read, hbind, hgets, hret.
    rewrite (proj1 Hos'), Hf. unfold json_load_from_file. rewrite (proj1 (proj2 Hos')), transferred_all by done.
    by rewrite Nat.eqb_refl, Hc, Hr.
Qed.

(** A write that fails has destroyed what the file held before: it holds a part of the new
    text, and the parts that cannot be parsed cannot be loaded. *)
Lemma failed_save_truncates os name (j : J) s fs :
  io_open os = true -> cJSON_PrintUnformatted j = Some s -> (transferred os (String.length s) < String.length s)%nat ->
  json_config_save os name j fs =
    (false, <[name := String.substring 0 (transferred os (String.length s)) s]> fs, []).
Proof.
  intros Ho Hp Ht. unfold json_config_save, write_file, hbind, hmod, hret. rewrite Ho, Hp. cbn [negb].
  by destruct (Nat.eqb_spec (transferred os (String.length s)) (String.length s)); [lia |].
Qed.
End JsonFilesProofs.

(** ** Texts of JSON trees *)

Section Trees.
(** A double as three integers: its kind and sign, mantissa and exponent. *)
Definition of_double (d : spec_float) : Z * Z * Z :=
  match d with
  | S754_zero s => (if s then 1 else 0, 0, 0)
  | S754_infinity s => (if s then 3 else 2, 0, 0)
  | S754_nan => (4, 0, 0)
  | S754_finite s m e => (if s then 6 else 5, Zpos m, e)
  end.

Definition to_double (c : Z * Z * Z) : spec_float :=
  match c with
  | (5, Zpos m, e) => S754_finite false m e
  | (6, Zpos m, e) => S754_finite true m e
  | (0, _, _) => S754_zero false
  | (1, _, _) => S754_zero true
  | (2, _, _) => S754_infinity false
  | (3, _, _) => S754_infinity true
  | _ => S754_nan
  end.

Lemma to_of_double d : to_double (of_double d) = d.
Proof. destruct d as [[] | [] | | []]; done. Qed.

Abbreviation tree := (gen_tree (string + Z * Z * Z)).

Fixpoint json_tree (j : json) : tree :=
  match j with
  | JString s => GenLeaf (inl s)
  | JNumber d => GenLeaf (inr (of_double d))
  | JArray l => GenNode 0 (map json_tree l)
  | JObject l => GenNode 1 (map (fun kv => GenNode 3 [GenLeaf (inl kv.1); json_tree kv.2]) l)
  | JOther => GenNode 2 []
  end.

Fixpoint tree_json (t : tree) : json :=
  match t with
  | GenLeaf (inl s) => JString s
  | GenLeaf (inr c) => JNumber (to_double c)
  | GenNode 0 l => JArray (map tree_json l)
  | GenNode 1 l => JObject (map (fun m => match m with
                                         | GenNode _ [GenLeaf (inl k); v] => (k, tree_json v)
                                         | _ => (""%string, JOther) end) l)
  | GenNode _ _ => JOther
  end.

Fixpoint tree_of_json (j : json) : tree_json (json_tree j) = j :=
  match j with
  | JString s => eq_refl
  | JNumber d => f_equal JNumber (to_of_double d)
  | JArray l => f_equal JArray
      ((fix go l : map tree_json (map json_tree l) = l :=
          match l with
          | [] => eq_refl
          | j :: l => f_equal2 cons (tree_of_json j) (go l)
          end) l)
  | JObject l => f_equal JObject
      ((fix go l : map (fun m => match m with
                                 | GenNode _ [GenLeaf (inl k); v] => (k, tree_json v)
                                 | _ => (""%string, JOther) end)
                     (map (fun kv => GenNode 3 [GenLeaf (inl kv.1); json_tree kv.2]) l) = l :=
          match l with
          | [] => eq_refl
          | (k, j) :: l => f_equal2 cons (f_equal (pair k) (tree_of_json j)) (go l)
          end) l)
  | JOther => eq_refl
  end.

(** A number as a text of binary digits. *)
Fixpoint digits (p : positive) : string :=
  match p with
  | xH => ""
  | xO p => String "0"%char (digits p)
  | xI p => String "1"%char (digits p)
  end.

Fixpoint of_digits (s : string) : option positive :=
  match s with
  | EmptyString => Some xH
  | String c s =>
      if bool_decide (c = "0"%char) then xO <$> of_digits s
      else if bool_decide (c = "1"%char) then xI <$> of_digits s else None
  end.

Lemma of_to_digits p : of_digits (digits p) = Some p /\ c_str (digits p) = digits p.
Proof. induction p as [p [IH1 IH2] | p [IH1 IH2] |]; cbn; [by rewrite IH1, IH2 .. | done]. Qed.
End Trees.

Definition number_json (n : Z) : json :=
  match n with
  | Z0 => JNumber (S754_zero false)
  | Zpos p => JNumber (S754_finite false p 0)
  | Zneg p => JNumber (S754_finite true p 0)
  end.

#[global] Instance json_text : CJsonText json := {
  cJSON_IsNumber := fun j => match j with JNumber _ => true | _ => false end;
  cj_valuedouble := fun j => match j with JNumber d => d | _ => S754_zero false end;
  cJSON_CreateNumber := number_json;
  cj_add_null := fun j _ => j;
  cJSON_Parse := fun s => p ← of_digits s; tree_json <$> decode p;
  cJSON_PrintUnformatted := fun j => Some (digits (encode (json_tree j)))
}.

#[global] Instance json_text_laws : CJsonTextLaws json.
Proof.
  split.
  - intros j _. eexists. split; [reflexivity |]. destruct (of_to_digits (encode (json_tree j))) as [Hd Hc].
    split; [exact Hc |]. cbn. rewrite Hd. cbn. rewrite decode_encode. cbn. by rewrite tree_of_json.
  - intros [| p | p] Hn; try lia; done.
  - done.
  - done.
Qed.
