(* ===== verification/TunnelApp.v ===== *)
(** * The TCP tunnel device application (src/apps/tcp_tunnel_device)

    The application reads its configuration, users and services from files of JSON, hands them
    to the device and to access management, and writes the users back whenever one changes.
    Files and the interfaces of cJSON are those of AppFiles.v and PoliciesJson.v, users and
    roles those of Iam.v. The theorems: users and access decisions survive a restart, and what
    the default configuration permits. Allocations succeed where the code does not look;
    printing to the terminal is left out. *)

From stdpp Require Import sets gmap.
From S2P Require Import Prelude Collections Policies PoliciesJson Iam IamJson AppFiles.

#[local] Open Scope Z_scope.
#[local] Open Scope string_scope.
#[local] Open Scope list_scope.
#[local] Open Scope handler_scope.

#[local] Notation "m ;;+ k" := (ubind m (fun _ => k)) (at level 199, right associativity) : handler_scope.

Section TunnelApp.
Context {J : Type} `{CJson J, !CJsonText J} `{Strtod} {T : Type} `{StringSet T} {M : Type} `{StringMap M}.

Abbreviation nm_policy := (nm_policy (T := T)).
Abbreviation nm_statement := (nm_statement (T := T)).
Abbreviation nm_iam_user := (nm_iam_user (T := T) (M := M)).
Abbreviation nm_iam_role := (nm_iam_role (T := T)).
Abbreviation nm_iam := (nm_iam (T := T) (M := M)).

(** ** tcp_tunnel_state.c *)

Record tcp_tunnel_state : Type := mk_tts {
  ts_users : list nm_iam_user;
  ts_pairingPassword : option string;
  ts_pairingServerConnectToken : option string
}.

Definition tcp_tunnel_state_init : tcp_tunnel_state := mk_tts [] None None.

(** A member made by [cJSON_CreateString] from a pointer that may be NULL. *)
Definition add_pointer (json : J) (name : string) (s : option string) : J :=
  match s with
  | Some s => cJSON_AddItemToObject json name (cJSON_CreateString s)
  | None => cj_add_null json name
  end.

Definition state_json (state : tcp_tunnel_state) : J :=
  let json := cJSON_CreateObject in
  let json := add_pointer json "PairingPassword" (ts_pairingPassword state) in
  let json := add_pointer json "PairingServerConnectToken" (ts_pairingServerConnectToken state) in
  cJSON_AddItemToObject json "Users" (to_array (map nm_iam_user_to_json (ts_users state))).

(** The result of the save is not looked at. *)
Definition write_state_to_file (os : io) (stateFile : string) (state : tcp_tunnel_state) : app bool :=
  json_config_save os stateFile (state_json state) ;;;
  hret true.

Definition save_tcp_tunnel_state (os : io) (stateFile : string) (state : tcp_tunnel_state) : app bool :=
  write_state_to_file os stateFile state.

(** [passwords] are the results of the two calls of [random_password]. *)
Definition create_default_tcp_tunnel_state (passwords : option string * option string) (os : io)
    (stateFile : string) : app bool :=
  let state := tcp_tunnel_state_init in
  let state := state {{ ts_pairingPassword := passwords.1 }} in
  let state := state {{ ts_pairingServerConnectToken := passwords.2 }} in
  write_state_to_file os stateFile state.

Definition load_tcp_tunnel_state (passwords : option string * option string) (save load : io)
    (state : tcp_tunnel_state) (stateFile : string) : app (bool * tcp_tunnel_state) :=
  let* found := json_config_exists stateFile in
  (if negb found then create_default_tcp_tunnel_state passwords save stateFile ;;; hskip else hskip) ;;;
  let* json := json_config_load load stateFile in
  match json with
  | None => hret (false, state)
  | Some json =>
      let pairingPassword := cJSON_GetObjectItem json "PairingPassword" in
      let pairingServerConnectToken := cJSON_GetObjectItem json "PairingServerConnectToken" in
      let users := cJSON_GetObjectItem json "Users" in
      let state := match string_item pairingPassword with
                   | Some s => state {{ ts_pairingPassword := Some s }}
                   | None => state end in
      let state := match string_item pairingServerConnectToken with
                   | Some s => state {{ ts_pairingServerConnectToken := Some s }}
                   | None => state end in
      let state := match users with
                   | Some users =>
                       if cJSON_IsArray users
                       then state {{ ts_users ::= fun l => l ++ omap nm_iam_user_from_json (cj_items users) }}
                       else state
                   | None => state end in
      hret (true, state)
  end.

(** ** iam_config.c *)

Record iam_config : Type := mk_iam_config {
  ic_roles : list nm_iam_role;
  ic_policies : list nm_policy
}.

Definition iam_config_init : iam_config := mk_iam_config [] [].

(** A policy with one statement that allows some actions, and a role with some policies: the
    blocks of [create_default_iam_config]. *)
Definition allow_policy (id : string) (actions : list string) : nm_policy :=
  let stmt := fold_left (fun stmt action => (nm_statement_add_action stmt action).2) actions
                (nm_statement_new NM_EFFECT_ALLOW) in
  (nm_policy_add_statement (nm_policy_new id) stmt).2.

Definition role_with (id : string) (policies : list string) : nm_iam_role :=
  fold_left (fun role policy => (nm_iam_role_add_policy role policy).2) policies (nm_iam_role_new id).

Definition default_policies : list nm_policy :=
  [ allow_policy "PasswordPairing" ["Pairing:Get"; "Pairing:Password"];
    allow_policy "LocalPairing" ["Pairing:Get"; "Pairing:Local"];
    allow_policy "TunnelAll" ["TcpTunnel:GetService"; "TcpTunnel:Connect"; "TcpTunnel:ListServices"];
    allow_policy "Paired" ["Pairing:Get"] ].

Definition default_roles : list nm_iam_role :=
  [ role_with "Unpaired" ["PasswordPairing"; "LocalPairing"];
    role_with "Admin" ["TunnelAll"; "Paired"];
    role_with "User" ["TunnelAll"; "Paired"] ].

Definition iam_config_json (policies : list nm_policy) (roles : list nm_iam_role) : J :=
  let root := cJSON_CreateObject in
  let root := cJSON_AddItemToObject root "Policies" (to_array (map nm_policy_to_json policies)) in
  cJSON_AddItemToObject root "Roles" (to_array (map nm_iam_role_to_json roles)).

Definition create_default_iam_config (os : io) (iamConfigFile : string) : app bool :=
  json_config_save os iamConfigFile (iam_config_json default_policies default_roles) ;;;
  hret true.

(** The loops of [load_iam_config]: the items before one that cannot be parsed are kept. *)
Fixpoint parse_until {A} (parse : J -> option A) (items : list J) (vector : list A) : bool * list A :=
  match items with
  | [] => (true, vector)
  | item :: rest =>
      match parse item with
      | None => (false, vector)
      | Some a => parse_until parse rest (vector ++ [a])
      end
  end.

Definition load_iam_config (save load : io) (iamConfig : iam_config) (iamConfigFile : string) :
    app (bool * iam_config) :=
  let* found := json_config_exists iamConfigFile in
  (if negb found then create_default_iam_config save iamConfigFile ;;; hskip else hskip) ;;;
  let* config := json_config_load load iamConfigFile in
  match config with
  | None => hret (false, iamConfig)
  | Some config =>
      if negb (cJSON_IsObject config) then hret (false, iamConfig)
      else
        match cJSON_GetObjectItem config "Policies", cJSON_GetObjectItem config "Roles" with
        | Some policies, Some roles =>
            if negb (cJSON_IsArray policies) || negb (cJSON_IsArray roles) then hret (false, iamConfig)
            else
              let '(parsed, ps) := parse_until nm_policy_from_json (cj_items policies) (ic_policies iamConfig) in
              let iamConfig := iamConfig {{ ic_policies := ps }} in
              if negb parsed then hret (false, iamConfig)
              else
                let '(parsed, rs) := parse_until nm_iam_role_from_json (cj_items roles) (ic_roles iamConfig) in
                hret (parsed, iamConfig {{ ic_roles := rs }})
        | _, _ => hret (false, iamConfig)
        end
  end.

(** tcp_tunnel_default_policies.c: the same without pairing of local clients. *)
Definition init_default_policies (os : io) (policiesFile : string) : app bool :=
  json_config_save os policiesFile
    (iam_config_json
       [ allow_policy "PasswordPairing" ["Pairing:Get"; "Pairing:Password"];
         allow_policy "TunnelAll" ["TcpTunnel:GetService"; "TcpTunnel:Connect"; "TcpTunnel:ListServices"];
         allow_policy "Paired" ["Pairing:Get"] ]
       [ role_with "Unpaired" ["PasswordPairing"];
         role_with "Admin" ["TunnelAll"; "Paired"];
         role_with "User" ["TunnelAll"; "Paired"] ]) ;;;
  hret true.

(** ** tcp_tunnel_services.c *)

Record tcp_tunnel_service : Type := mk_service {
  sv_id : string;
  sv_type : string;
  sv_host : string;
  sv_port : Z
}.

Definition service_as_json (service : tcp_tunnel_service) : J :=
  let root := cJSON_CreateObject in
  let root := cJSON_AddItemToObject root "Id" (cJSON_CreateString (sv_id service)) in
  let root := cJSON_AddItemToObject root "Type" (cJSON_CreateString (sv_type service)) in
  let root := cJSON_AddItemToObject root "Host" (cJSON_CreateString (sv_host service)) in
  cJSON_AddItemToObject root "Port" (cJSON_CreateNumber (sv_port service)).

Definition create_default_services_file (os : io) (servicesFile : string) : app bool :=
  let root := cJSON_CreateArray in
  let ssh := mk_service "ssh" "ssh" "127.0.0.1" 22 in
  json_config_save os servicesFile (cJSON_AddItemToArray root (service_as_json ssh)).

(** A port that does not fit is converted, which is undefined. *)
Definition service_from_json (json : J) : cres (option tcp_tunnel_service) :=
  if cJSON_IsObject json then
    let id := cJSON_GetObjectItem json "Id" in
    let type := cJSON_GetObjectItem json "Type" in
    let host := cJSON_GetObjectItem json "Host" in
    let port := cJSON_GetObjectItem json "Port" in
    match string_item id, string_item type, string_item host, port with
    | Some id, Some type, Some host, Some port =>
        if cJSON_IsNumber port then
          cres_bind (double_to_uint16 (cj_valuedouble port)) (fun port =>
          Def (Some (mk_service id type host port)))
        else Def None
    | _, _, _, _ => Def None
    end
  else Def None.

Fixpoint service_items (items : list J) (services : list tcp_tunnel_service) :
    cres (bool * list tcp_tunnel_service) :=
  match items with
  | [] => Def (true, services)
  | service :: rest =>
      cres_bind (service_from_json service) (fun s =>
      match s with
      | Some s => service_items rest (services ++ [s])
      | None => Def (false, services)
      end)
  end.

Definition load_services_from_json (services : list tcp_tunnel_service) (json : J) :
    cres (bool * list tcp_tunnel_service) :=
  if negb (cJSON_IsArray json) then Def (false, services) else service_items (cj_items json) services.

Definition load_tcp_tunnel_services (save load : io) (services : list tcp_tunnel_service)
    (servicesFile : string) : uapp (bool * list tcp_tunnel_service) :=
  let+ found := ulift (json_config_exists servicesFile) in
  let+ created := ulift (if negb found then create_default_services_file save servicesFile else hret true) in
  if negb created then ulift (hret (false, services))
  else
    let+ config := ulift (json_config_load load servicesFile) in
    match config with
    | None => ulift (hret (false, services))
    | Some config => uof (load_services_from_json services config)
    end.

(** ** tcp_tunnel_main.c *)

Definition DEVICE_CONFIG_FILE : string := "config/device.json".
Definition TCP_TUNNEL_STATE_FILE : string := "state/tcp_tunnel_state.json".
Definition TCP_TUNNEL_IAM_FILE : string := "config/tcp_tunnel_iam.json".
Definition TCP_TUNNEL_SERVICES_FILE : string := "config/tcp_tunnel_services.json".
Definition DEVICE_KEY_FILE : string := "keys/device.key".

Definition HOMEDIR_NABTO_FOLDER : string := ".nabto".
Definition HOMEDIR_EDGE_FOLDER : string := ".nabto/edge".

Record args : Type := mk_args {
  a_showHelp : bool;
  a_showVersion : bool;
  a_showState : bool;
  a_homeDir : option string
}.

Record tcp_tunnel : Type := mk_tunnel {
  tn_pairingPassword : option string;
  tn_pairingServerConnectToken : option string;
  tn_deviceConfigFile : string;
  tn_stateFile : string;
  tn_iamConfigFile : string;
  tn_servicesFile : string;
  tn_privateKeyFile : string;
  tn_services : list tcp_tunnel_service
}.

(** What the environment answers: the variable HOME, the files, the random passwords, and the
    device with its fingerprint. *)
Record environment : Type := mk_env {
  env_home : option string;
  env_write : string -> io;
  env_read : string -> io;
  env_passwords : option string * option string;
  env_key_device : key_device;
  env_fingerprint : option string
}.

Definition expand_file_name (homeDir fileName : string) : string := homeDir +:+ "/" +:+ fileName.

Definition make_directory (directory : string) : app bool := emit (AppMakeDirectory directory) ;;; hret true.

(** The file names are NULL at first. *)
Definition tcp_tunnel_init : tcp_tunnel := mk_tunnel None None "" "" "" "" "" [].

Definition set_file_names (homeDir : string) (tunnel : tcp_tunnel) : tcp_tunnel :=
  let tunnel := tunnel {{ tn_deviceConfigFile := expand_file_name homeDir DEVICE_CONFIG_FILE }} in
  let tunnel := tunnel {{ tn_stateFile := expand_file_name homeDir TCP_TUNNEL_STATE_FILE }} in
  let tunnel := tunnel {{ tn_iamConfigFile := expand_file_name homeDir TCP_TUNNEL_IAM_FILE }} in
  let tunnel := tunnel {{ tn_servicesFile := expand_file_name homeDir TCP_TUNNEL_SERVICES_FILE }} in
  tunnel {{ tn_privateKeyFile := expand_file_name homeDir DEVICE_KEY_FILE }}.

(** [sprintf] to a buffer of 1024 bytes; printing NULL is undefined. *)
Definition generate_pairing_url (productId deviceId deviceFingerprint : string)
    (pairingPassword pairingServerConnectToken : option string) : cres string :=
  match pairingPassword, pairingServerConnectToken with
  | Some pwd, Some sct =>
      let url := "https://tcp-tunnel.nabto.com/pairing?p=" +:+ productId +:+ "&d=" +:+ deviceId +:+
                 "&fp=" +:+ deviceFingerprint +:+ "&pwd=" +:+ pwd +:+ "&sct=" +:+ sct in
      if (String.length url + 1 <=? 1024)%nat then Def url else UB
  | _, _ => UB
  end.

(** An item in a column of 17 characters. *)
Definition print_item (item : string) : string :=
  let printSize := String.length item in
  let printSize := if (16 <? printSize)%nat then 16%nat else printSize in
  let spaces := "                 " in
  String.substring 0 printSize item +:+ String.substring 0 (17 - printSize) spaces.

(** A function of access management, whose calls are among those of the application. *)
Definition run_iam {A} (m : iam_handler A) (iam : nm_iam) : app nm_iam :=
  fun fs => let '(_, iam, t) := m iam in (iam, fs, map AppIam t).

Fixpoint run_each {A} (m : A -> iam_handler bool) (l : list A) (iam : nm_iam) : app nm_iam :=
  match l with
  | [] => hret iam
  | a :: rest => let* iam := run_iam (m a) iam in run_each m rest iam
  end.

(** What the files hold. *)
Record loaded : Type := mk_loaded {
  ld_config : device_config;
  ld_iam : iam_config;
  ld_state : tcp_tunnel_state;
  ld_services : list tcp_tunnel_service
}.

(** [handle_main] up to the private key: each failure ends it. *)
Definition load_files (env : environment) (tunnel : tcp_tunnel) : uapp (option loaded) :=
  let read := env_read env in
  let write := env_write env in
  let+ (status, dc) := load_device_config (J := J) (read DEVICE_CONFIG_FILE) (tn_deviceConfigFile tunnel) device_config_init in
  if negb status then ulift (hret None)
  else
    let+ (status, iamConfig) := ulift (load_iam_config (write TCP_TUNNEL_IAM_FILE) (read TCP_TUNNEL_IAM_FILE)
                                         iam_config_init (tn_iamConfigFile tunnel)) in
    if negb status then ulift (hret None)
    else
      let+ (status, state) := ulift (load_tcp_tunnel_state (env_passwords env) (write TCP_TUNNEL_STATE_FILE)
                                       (read TCP_TUNNEL_STATE_FILE) tcp_tunnel_state_init (tn_stateFile tunnel)) in
      if negb status then ulift (hret None)
      else
        let+ (status, services) := load_tcp_tunnel_services (write TCP_TUNNEL_SERVICES_FILE)
                                     (read TCP_TUNNEL_SERVICES_FILE) (tn_services tunnel) (tn_servicesFile tunnel) in
        if negb status then ulift (hret None)
        else
          let+ status := ulift (load_or_create_private_key (env_key_device env) (write DEVICE_KEY_FILE)
                                  (read DEVICE_KEY_FILE) (tn_privateKeyFile tunnel)) in
          if negb status then ulift (hret None)
          else ulift (hret (Some (mk_loaded dc iamConfig state services))).

(** The configuration of the device. *)
Definition configure_device (dc : device_config) (productId deviceId : string) : app unit :=
  emit (AppSetProductId productId) ;;;
  emit (AppSetDeviceId deviceId) ;;;
  match dc_server dc with Some server => emit (AppSetServerUrl server) | None => hskip end ;;;
  hwhen (negb (dc_serverPort dc =? 0)%Z) (emit (AppSetServerPort (dc_serverPort dc))) ;;;
  emit AppEnableMdns.

Fixpoint add_services (services : list tcp_tunnel_service) : app unit :=
  match services with
  | [] => hskip
  | s :: rest =>
      emit (AppAddTcpTunnelService (sv_id s) (sv_type s) (sv_host s) (sv_port s)) ;;;
      add_services rest
  end.

(** The users, the roles and the policies in the access management. *)
Definition fill_iam (users : list nm_iam_user) (config : iam_config) (iam : nm_iam) : app nm_iam :=
  let* iam := run_each nm_iam_add_user users iam in
  let* iam := run_each nm_iam_add_role (ic_roles config) iam in
  run_each nm_iam_add_policy (ic_policies config) iam.

(** [handle_main] from the configuration of the device to the output of what was configured. *)
Definition configure (env : environment) (tunnel : tcp_tunnel) (files : loaded) : uapp (tcp_tunnel * nm_iam) :=
  match dc_productId (ld_config files), dc_deviceId (ld_config files) with
  | Some productId, Some deviceId =>
      ulift (configure_device (ld_config files) productId deviceId) ;;+
      let tunnel := tunnel {{ tn_services := ld_services files }} in
      let password := ts_pairingPassword (ld_state files) in
      let token := ts_pairingServerConnectToken (ld_state files) in
      let iam := nm_iam_init in
      let+ iam := ulift (match password with
                         | Some p => run_iam (nm_iam_enable_password_pairing p) iam
                         | None => hret iam end) in
      let tunnel := tunnel {{ tn_pairingPassword := password }} in
      let+ iam := ulift (match token with
                         | Some t => run_iam (nm_iam_enable_remote_pairing t) iam
                         | None => hret iam end) in
      let tunnel := tunnel {{ tn_pairingServerConnectToken := token }} in
      ulift (add_services (tn_services tunnel)) ;;+
      match env_fingerprint env with
      | None => uof UB
      | Some fingerprint =>
          let+ url := uof (generate_pairing_url productId deviceId fingerprint password token) in
          let+ iam := ulift (fill_iam (ts_users (ld_state files)) (ld_iam files) iam) in
          ulift (emit (AppPairingUrl url)) ;;+
          ulift (hret (tunnel, iam))
      end
  | _, _ => uof UB
  end.

(** Printing a user without fingerprint is undefined. *)
Fixpoint print_users (iam : nm_iam) (ids : list string) : uapp unit :=
  match ids with
  | [] => ulift hskip
  | id :: rest =>
      match u_fingerprint <$> nm_iam_find_user iam id with
      | Some (Some fingerprint) => ulift (emit (AppPrintUser id fingerprint)) ;;+ print_users iam rest
      | _ => uof UB
      end
  end.

Definition print_iam_state (iam : nm_iam) : uapp unit :=
  print_users iam (ss_elements (nm_iam_get_users iam ss_empty)).

(** device_event_handler.c: the events of the device until it is closed or listening fails. *)
Inductive device_event : Type := EventAttached | EventDetached | EventClosed.

Fixpoint device_event_handler_blocking_listener (events : list (bool * device_event)) :
    option (list (bool * device_event)) :=
  match events with
  | [] => None
  | (false, _) :: rest => Some rest
  | (true, EventClosed) :: rest => Some rest
  | (true, _) :: rest => device_event_handler_blocking_listener rest
  end.

(** The callback that [handle_main] sets: the users are written to the state file. *)
Fixpoint find_users (iam : nm_iam) (ids : list string) : cres (list nm_iam_user) :=
  match ids with
  | [] => Def []
  | uid :: rest =>
      match nm_iam_find_user iam uid with
      | Some user => cres_bind (find_users iam rest) (fun users => Def (user :: users))
      | None => UB
      end
  end.

Definition iam_user_changed (os : io) (tcpTunnel : tcp_tunnel) (iam : nm_iam) : uapp unit :=
  let toWrite := tcp_tunnel_state_init in
  let toWrite := toWrite {{ ts_pairingPassword := tn_pairingPassword tcpTunnel }} in
  let toWrite := toWrite {{ ts_pairingServerConnectToken := tn_pairingServerConnectToken tcpTunnel }} in
  let+ users := uof (find_users iam (ss_elements (nm_iam_get_users iam ss_empty))) in
  let toWrite := toWrite {{ ts_users := users }} in
  ulift (save_tcp_tunnel_state os (tn_stateFile tcpTunnel) toWrite) ;;+
  ulift hskip.

(** The home directory and the directories in it. *)
Definition prepare_home (args : args) (env : environment) : app (option string) :=
  let* homeDir := match a_homeDir args, env_home env with
                  | Some d, _ => hret (Some d)
                  | None, Some homeEnv =>
                      let homeDir := expand_file_name homeEnv HOMEDIR_EDGE_FOLDER in
                      make_directory (expand_file_name homeEnv HOMEDIR_NABTO_FOLDER) ;;;
                      make_directory homeDir ;;;
                      hret (Some homeDir)
                  | None, None => hret None
                  end in
  match homeDir with
  | None => hret None
  | Some homeDir =>
      make_directory (expand_file_name homeDir "state") ;;;
      make_directory (expand_file_name homeDir "keys") ;;;
      make_directory (expand_file_name homeDir "config") ;;;
      hret (Some homeDir)
  end.

(** [handle_main]; the device runs, with the callback above, until the listener returns. *)
Definition handle_main (args : args) (env : environment) : uapp bool :=
  if a_showHelp args || a_showVersion args then ulift (hret true)
  else
    let+ homeDir := ulift (prepare_home args env) in
    match homeDir with
    | None => ulift (hret false)
    | Some homeDir =>
        let tunnel := set_file_names homeDir tcp_tunnel_init in
        let+ files := load_files env tunnel in
        match files with
        | None => ulift (hret false)
        | Some files =>
            let+ (tunnel, iam) := configure env tunnel files in
            (if a_showState args then print_iam_state iam
             else
               let+ iam := ulift (run_iam nm_iam_set_user_changed_callback iam) in
               ulift (emit AppDeviceStart) ;;+
               ulift (emit AppIamStart) ;;+
               ulift (emit AppDeviceStop)) ;;+
            ulift (emit AppDeviceStop) ;;+
            ulift (emit AppIamDeinit) ;;+
            ulift (emit AppDeviceFree) ;;+
            ulift (hret true)
        end
    end.

(** ** Proofs: what is written can be read *)

Context `{!CJsonLaws J, !CJsonTextLaws J, !StringSetLaws T, !StringMapLaws M}.
Hypothesis memory : forall (s : T) x, (ss_insert s x).1 = true.

Definition built_node (j : J) : Prop := built j /\ cJSON_IsObject j = true.

Lemma built_new_object : built_node cJSON_CreateObject.
Proof. split; [constructor | apply cj_object_new]. Qed.

Lemma built_member j name item :
  built_node j -> built item -> built_node (cJSON_AddItemToObject j name item).
Proof. intros [Hb Ho] Hi. split; [by constructor | by apply cj_object_add]. Qed.

Lemma built_to_array items : Forall built items -> built (to_array items).
Proof.
  unfold to_array. intros Hf.
  assert (Hg : forall l j, Forall built l -> built j /\ cJSON_IsArray j = true ->
    built (fold_left cJSON_AddItemToArray l j)).
  { intros l. induction l as [| i l IH]; intros j Hl [Hb Ha]; [done |]. inversion_clear Hl.
    apply IH; [done |]. split; [by constructor | by apply cj_array_add]. }
  apply Hg; [done |]. split; [constructor | apply cj_array_new].
Qed.

Lemma built_map {A} (print : A -> J) l : (forall a, built (print a)) -> built (to_array (map print l)).
Proof. intros Hp. apply built_to_array. induction l as [| a l IH]; cbn; constructor; [apply Hp | done]. Qed.

Lemma built_members (kvs : list (string * string)) : forall j,
  built_node j -> built_node (fold_left add_attribute kvs j).
Proof.
  induction kvs as [| kv kvs IH]; intros j Hj; cbn; [done |].
  apply IH. apply built_member; [done | constructor].
Qed.

Lemma built_user u : built (nm_iam_user_to_json u).
Proof.
  unfold nm_iam_user_to_json. cbv zeta.
  assert (Hs : forall j name s, built_node j -> built_node (add_string j name s))
    by (intros j name [s |] Hj; [apply built_member; [done | constructor] | done]).
  set (j3 := add_string _ _ _).
  assert (Hj3 : built_node j3)
    by (do 2 apply Hs; apply built_member; [apply built_new_object | constructor]).
  set (j4 := match ss_elements (u_roles u) with [] => j3 | _ => _ end).
  assert (Hj4 : built_node j4).
  { unfold j4. destruct (ss_elements (u_roles u)); [done |]. apply built_member; [done |].
    apply (built_map cJSON_CreateString). constructor. }
  destruct (sm_items (u_attributes u)) as [| kv kvs]; [apply Hj4 |]. apply built_member; [done |].
  apply built_members, built_new_object.
Qed.

Lemma built_role r : built (nm_iam_role_to_json r).
Proof.
  unfold nm_iam_role_to_json. do 2 (apply built_member; [| first [constructor | apply built_map; constructor]]).
  apply built_new_object.
Qed.

Lemma built_condition c : built (nm_condition_to_json (T := T) c).
Proof.
  unfold nm_condition_to_json. apply built_member; [apply built_new_object |].
  apply built_member; [apply built_new_object |]. apply built_map. constructor.
Qed.

Lemma built_statement s : built (nm_statement_to_json (T := T) s).
Proof.
  unfold nm_statement_to_json. cbv zeta.
  set (j1 := match s_effect s with NM_EFFECT_ALLOW => _ | _ => _ end).
  assert (Hj1 : built_node j1)
    by (unfold j1; destruct (s_effect s); try apply built_new_object;
        (apply built_member; [apply built_new_object | constructor])).
  assert (Hj2 : built_node (cJSON_AddItemToObject j1 "Actions" (nm_string_set_to_json (s_actions s))))
    by (apply built_member; [done | apply built_map; constructor]).
  destruct (s_conditions s); [apply Hj2 |]. apply built_member; [done |]. apply built_map, built_condition.
Qed.

Lemma built_policy p : built (nm_policy_to_json (T := T) p).
Proof.
  unfold nm_policy_to_json. apply built_member; [| apply built_map, built_statement].
  apply built_member; [apply built_new_object | constructor].
Qed.

Lemma add_pointer_string j name s : add_pointer j name s = add_string j name s.
Proof. destruct s; cbn; [done | apply cj_add_null_same]. Qed.

Lemma built_state st : built (state_json st).
Proof.
  unfold state_json. rewrite !add_pointer_string. apply built_member; [| apply built_map, built_user].
  destruct (ts_pairingPassword st), (ts_pairingServerConnectToken st); cbn;
    repeat (apply built_member; [| constructor]); apply built_new_object.
Qed.

(** *** The state file *)

(** The state as it is read from what was written for it. *)
Definition state_equiv (st st' : tcp_tunnel_state) : Prop :=
  ts_pairingPassword st = ts_pairingPassword st' /\
  ts_pairingServerConnectToken st = ts_pairingServerConnectToken st' /\
  Forall2 user_equiv (ts_users st) (ts_users st').

Lemma state_members st :
  cJSON_GetObjectItem (state_json st) "PairingPassword" = cJSON_CreateString <$> ts_pairingPassword st /\
  cJSON_GetObjectItem (state_json st) "PairingServerConnectToken" =
    cJSON_CreateString <$> ts_pairingServerConnectToken st /\
  cJSON_GetObjectItem (state_json st) "Users" = Some (to_array (map nm_iam_user_to_json (ts_users st))).
Proof.
  unfold state_json. rewrite !add_pointer_string. destruct cj_object_new as [O0 C0].
  destruct (add_string_object _ "PairingPassword" (ts_pairingPassword st) O0) as [O1 C1].
  destruct (add_string_object _ "PairingServerConnectToken" (ts_pairingServerConnectToken st) O1) as [O2 C2].
  destruct (cj_object_add _ "Users" (to_array (map nm_iam_user_to_json (ts_users st))) O2) as [_ C3].
  unfold cJSON_GetObjectItem. rewrite C3, C2, C1, C0. unfold opt_member.
  destruct (ts_pairingPassword st), (ts_pairingServerConnectToken st); done.
Qed.

Lemma users_parsed (us : list nm_iam_user) :
  exists us', omap nm_iam_user_from_json (map nm_iam_user_to_json us) = us' /\ Forall2 user_equiv us us'.
Proof.
  eexists. split; [reflexivity |]. induction us as [| u us IH]; cbn; [constructor |].
  destruct (user_json_roundtrip memory u) as (u' & -> & Heq). by constructor.
Qed.

(** What [load_tcp_tunnel_state] reads from a file that holds a state. *)
Lemma load_state_from passwords save load st fs stateFile :
  io_ok load -> is_Some (fs !! stateFile) ->
  json_config_load load stateFile fs = (Some (state_json st), fs, []) ->
  exists st', load_tcp_tunnel_state passwords save load tcp_tunnel_state_init stateFile fs = (true, st', fs, []) /\
    state_equiv st st'.
Proof.
  intros Hl Hf Hload. unfold load_tcp_tunnel_state, json_config_exists, string_file_exists, hbind, hgets, hskip, hret.
  rewrite bool_decide_true by done. cbn [negb]. rewrite Hload.
  destruct (state_members st) as (-> & -> & ->). rewrite !string_item_created.
  destruct (to_array_items (map nm_iam_user_to_json (ts_users st))) as [-> ->].
  destruct (users_parsed (ts_users st)) as (us' & Eu & Heq). rewrite Eu.
  eexists. split; [reflexivity |]. unfold state_equiv.
  destruct (ts_pairingPassword st), (ts_pairingServerConnectToken st); done.
Qed.

(** Saving and loading the state. *)
Lemma state_saved os st fs stateFile :
  io_ok os -> exists s, save_tcp_tunnel_state os stateFile st fs = (true, <[stateFile := s]> fs, []) /\
    forall passwords save load fs', io_ok load -> fs' !! stateFile = Some s ->
      exists st', load_tcp_tunnel_state passwords save load tcp_tunnel_state_init stateFile fs' = (true, st', fs', []) /\
        state_equiv st st'.
Proof.
  intros Hos. destruct (json_config_saved os stateFile (state_json st) fs Hos (built_state st)) as (s & Hs & Hl).
  exists s. split.
  - unfold save_tcp_tunnel_state, write_state_to_file, hbind, hret. by rewrite Hs.
  - intros passwords save load fs' Hload Hf. apply load_state_from; [done | by eexists |]. by apply Hl.
Qed.

(** *** Looking up records by a key *)

Lemma find_key {A K} (key : A -> K) (p : A -> bool) k l x :
  (forall a, p a = true <-> key a = k) -> NoDup (map key l) ->
  List.find p l = Some x <-> x ∈ l /\ key x = k.
Proof.
  intros Hp. induction l as [| a l IH]; cbn [List.find map]; intros Hnd.
  { split; [done | by intros [?%elem_of_nil _]]. }
  apply NoDup_cons in Hnd as [Hni Hnd]. rewrite elem_of_cons. destruct (p a) eqn:Ea.
  - apply Hp in Ea. split; [intros [= ->]; auto |]. intros [[-> | Hx] Ek]; [done |].
    destruct Hni. apply list_elem_of_fmap. exists x. split; [congruence | done].
  - rewrite IH by done. split; [intros []; auto |]. intros [[-> | Hx] Ek]; [| done].
    apply Hp in Ek. congruence.
Qed.

Lemma find_perm {A K} (key : A -> K) (p : A -> bool) k l l' :
  (forall a, p a = true <-> key a = k) -> NoDup (map key l) -> l ≡ₚ l' -> List.find p l = List.find p l'.
Proof.
  intros Hp Hnd Hl. apply option_eq. intros x. rewrite !(find_key key p k) by (first [done | by rewrite <- Hl]).
  by rewrite Hl.
Qed.

Lemma find_related {A} (R : A -> A -> Prop) (p : A -> bool) l l' :
  (forall a b, R a b -> p a = p b) -> Forall2 R l l' -> option_Forall2 R (List.find p l) (List.find p l').
Proof.
  intros Hp. induction 1 as [| a b l l' Hab _ IH]; cbn; [constructor |].
  rewrite <- (Hp a b Hab). destruct (p a); [by constructor | done].
Qed.

Lemma has_fingerprint_key fp (u : nm_iam_user) : has_fingerprint fp u = true <-> u_fingerprint u = Some fp.
Proof.
  unfold has_fingerprint. destruct (u_fingerprint u) as [f |]; [| done]. rewrite streq_spec.
  split; [by intros -> | by intros [= ->]].
Qed.

Lemma user_equiv_keys us us' :
  Forall2 user_equiv us us' ->
  map u_id us = map u_id us' /\ map u_fingerprint us = map u_fingerprint us'.
Proof.
  induction 1 as [| u u' us us' (Hid & _ & Hfp & _) _ [IH1 IH2]]; cbn; [done |]. by rewrite IH1, IH2, Hid, Hfp.
Qed.

(** *** The users that are written *)

Lemma get_users_elements users : forall (ids : T) x,
  x ∈ ss_elements (fold_left (fun ids (u : nm_iam_user) => (ss_insert ids (u_id u)).2) users ids) <->
  x ∈ map u_id users \/ x ∈ ss_elements ids.
Proof.
  induction users as [| u us IH]; intros ids x; cbn [fold_left map]; [set_solver |]. rewrite IH.
  pose proof (memory ids (u_id u)) as Hb. destruct (ss_insert ids (u_id u)) as [b ids'] eqn:Ei. cbn in Hb. subst b.
  cbn. rewrite (ss_insert_spec _ _ _ Ei). set_solver.
Qed.

Lemma find_user_key (iam : nm_iam) id u :
  NoDup (map u_id (iam_users iam)) ->
  nm_iam_find_user iam id = Some u <-> u ∈ iam_users iam /\ u_id u = id.
Proof. apply find_key. intros a. apply streq_spec. Qed.

Lemma find_users_all (iam : nm_iam) ids :
  NoDup (map u_id (iam_users iam)) -> (forall id, id ∈ ids -> id ∈ map u_id (iam_users iam)) ->
  exists us, find_users iam ids = Def us /\ map u_id us = ids /\ forall u, u ∈ us -> u ∈ iam_users iam.
Proof.
  intros Hnd. induction ids as [| id ids IH]; intros Hin; cbn [find_users].
  { exists []. split_and!; try done. by intros ? ?%elem_of_nil. }
  destruct IH as (us & -> & Hids & Hus); [intros; apply Hin; by right |].
  assert (Hsome : exists u, u ∈ iam_users iam /\ u_id u = id).
  { pose proof (Hin id ltac:(left)) as (u & -> & Hu)%list_elem_of_fmap. by exists u. }
  destruct Hsome as (u & Hu & Hid). rewrite (proj2 (find_user_key iam id u Hnd) (conj Hu Hid)). cbn [cres_bind].
  exists (u :: us). split_and!; [done | cbn; by rewrite Hids, Hid |].
  intros u' [-> |]%elem_of_cons; auto.
Qed.

Lemma written_users (iam : nm_iam) :
  NoDup (map u_id (iam_users iam)) ->
  exists us, find_users iam (ss_elements (nm_iam_get_users iam ss_empty)) = Def us /\ us ≡ₚ iam_users iam.
Proof.
  intros Hnd. set (ids := ss_elements (nm_iam_get_users iam ss_empty)).
  assert (Hids : forall id, id ∈ ids <-> id ∈ map u_id (iam_users iam)).
  { intros id. unfold ids, nm_iam_get_users. rewrite get_users_elements, ss_empty_elements. set_solver. }
  destruct (find_users_all iam ids Hnd) as (us & Hf & Hus & Hin); [intros id; apply Hids |].
  exists us. split; [exact Hf |]. assert (Hndus : NoDup (map u_id us)) by (rewrite Hus; apply ss_nodup).
  apply NoDup_Permutation; [by eapply NoDup_fmap_1 | by eapply NoDup_fmap_1 |].
  intros u. split; [apply Hin |]. intros Hu.
  assert (Hid : u_id u ∈ map u_id us) by (rewrite Hus; apply Hids; apply list_elem_of_fmap; by exists u).
  apply list_elem_of_fmap in Hid as (u' & E & Hu').
  replace u with u'; [done |]. pose proof (find_user_key iam (u_id u) u Hnd) as Ha.
  pose proof (find_user_key iam (u_id u) u' Hnd) as Hb.
  assert (Some u' = Some u) as [=]; [| done]. rewrite <- (proj2 Ha (conj Hu eq_refl)). symmetry. apply Hb. auto.
Qed.

(** *** Access management with the users that are read *)

(** The same roles and policies, and the same users up to their order and representation. *)
Definition iam_equiv (iam iam' : nm_iam) : Prop :=
  iam_roles iam' = iam_roles iam /\ iam_policies iam' = iam_policies iam /\
  exists us, us ≡ₚ iam_users iam /\ Forall2 user_equiv us (iam_users iam').

Lemma iam_equiv_inv iam iam' : iam_equiv iam iam' -> iam_inv iam -> iam_inv iam'.
Proof.
  intros (_ & _ & us & Hp & Hf) (Hid & Hfp & Hall). destruct (user_equiv_keys _ _ Hf) as [E1 E2].
  unfold iam_inv. rewrite <- E1, <- E2. split; [by rewrite Hp | split; [by rewrite Hp |]].
  rewrite Forall_forall in *. intros u' Hu'. apply list_elem_of_lookup in Hu' as (i & Hi).
  destruct (Forall2_lookup_r _ _ _ _ _ Hf Hi) as (u & Hu & (_ & _ & <- & _)). apply Hall.
  rewrite <- Hp. by eapply list_elem_of_lookup_2.
Qed.

Lemma iam_equiv_find_user iam iam' id :
  iam_equiv iam iam' -> iam_inv iam ->
  option_Forall2 user_equiv (nm_iam_find_user iam id) (nm_iam_find_user iam' id).
Proof.
  intros (_ & _ & us & Hp & Hf) (Hid & _). unfold nm_iam_find_user, nm_iam_find_user_by_id.
  rewrite (find_perm u_id (fun u => streq (u_id u) id) id _ us); [| intros; apply streq_spec | done | done].
  apply find_related; [| done]. by intros a b (-> & _).
Qed.

Lemma iam_equiv_client iam iam' fp :
  iam_equiv iam iam' -> iam_inv iam ->
  option_Forall2 user_equiv (List.find (has_fingerprint fp) (iam_users iam))
    (List.find (has_fingerprint fp) (iam_users iam')).
Proof.
  intros (_ & _ & us & Hp & Hf) (_ & Hfp & _).
  rewrite (find_perm u_fingerprint (has_fingerprint fp) (Some fp) _ us);
    [| intros; apply has_fingerprint_key | done | done].
  apply find_related; [| done]. intros a b (_ & _ & E & _). unfold has_fingerprint. by rewrite E.
Qed.

Lemma iam_equiv_access iam iam' fingerprint action attributes :
  iam_equiv iam iam' -> iam_inv iam -> iam_closed iam ->
  nm_iam_check_access iam' fingerprint action attributes = nm_iam_check_access iam fingerprint action attributes.
Proof.
  intros Heq Hinv Hclosed.
  assert (Hc' : iam_closed iam').
  { split; [apply (iam_equiv_inv _ _ Heq Hinv) |]. destruct Heq as (-> & Hp & _).
    unfold nm_iam_find_policy. rewrite Hp. apply Hclosed. }
  assert (Hr : forall r, nm_iam_find_role iam' r = nm_iam_find_role iam r)
    by (intros r; unfold nm_iam_find_role; by rewrite (proj1 Heq)).
  assert (Hs : forall r s, role_statement iam' r s <-> role_statement iam r s).
  { intros r s. unfold role_statement, nm_iam_find_policy. setoid_rewrite Hr.
    by rewrite (proj1 (proj2 Heq)). }
  assert (Hcl : forall fp, (forall r, r ∈ client_roles iam' fp <-> r ∈ client_roles iam fp) /\
      client_attributes iam' fp attributes = client_attributes iam fp attributes).
  { intros fp. unfold client_roles, client_attributes. pose proof (iam_equiv_client iam iam' fp Heq Hinv) as Hu.
    destruct Hu as [u u' (Hid & Hroles & _) |]; [| done]. rewrite Hid. split; [| done].
    intros r. symmetry. apply Hroles. }
  destruct (check_access_spec iam fingerprint action attributes Hclosed) as [[b Hb] Hiff].
  destruct (check_access_spec iam' fingerprint action attributes Hc') as [[b' Hb'] Hiff'].
  assert (Hsame : nm_iam_check_access iam' fingerprint action attributes = Def true <->
    nm_iam_check_access iam fingerprint action attributes = Def true).
  { rewrite Hiff, Hiff'. apply exist_proper. intros fp. destruct (Hcl fp) as [Hroles ->]. unfold allows.
    setoid_rewrite Hroles. setoid_rewrite Hr. by setoid_rewrite Hs. }
  rewrite Hb, Hb' in *. destruct b, b'; try done; exfalso.
  - discriminate (proj2 Hsame eq_refl).
  - discriminate (proj1 Hsame eq_refl).
Qed.

(** *** The restart *)

Lemma run_each_append {A} (m : A -> iam_handler bool) (upd : list A -> nm_iam -> nm_iam) l :
  (forall a iam, exec (m a) iam = upd [a] iam) -> (forall iam, upd [] iam = iam) ->
  (forall a l iam, upd l (upd [a] iam) = upd (a :: l) iam) ->
  forall iam (fs : disk), exists t, run_each m l iam fs = (upd l iam, fs, t).
Proof.
  intros Hm H0' Hc. induction l as [| a l IH]; intros iam fs; cbn [run_each].
  { exists []. by rewrite H0'. }
  unfold hbind, run_iam. pose proof (Hm a iam) as Ha. unfold exec in Ha.
  destruct (m a iam) as [[r iam1] t1]. cbn in Ha. subst iam1.
  destruct (IH (upd [a] iam) fs) as (t & ->). rewrite Hc. by eexists.
Qed.

Lemma fill_iam_run us config (iam : nm_iam) (fs : disk) :
  iam_users iam = [] -> iam_roles iam = [] -> iam_policies iam = [] -> exists iam' t,
  fill_iam us config iam fs = (iam', fs, t) /\ iam_users iam' = us /\
  iam_roles iam' = ic_roles config /\ iam_policies iam' = ic_policies config.
Proof.
  intros Eu Er Ep. unfold fill_iam, hbind.
  destruct (run_each_append nm_iam_add_user (fun l iam => iam {{ iam_users := iam_users iam ++ l }}) us)
    with (iam := iam) (fs := fs) as (t1 & ->).
  { intros u i. unfold exec. by rewrite add_user_run. }
  { intros []. cbn. unfold constant. by rewrite app_nil_r. }
  { intros u l []. cbn. unfold constant. by rewrite <- app_assoc. }
  destruct (run_each_append nm_iam_add_role (fun l iam => iam {{ iam_roles := iam_roles iam ++ l }}) (ic_roles config))
    with (iam := iam {{ iam_users := iam_users iam ++ us }}) (fs := fs) as (t2 & ->).
  { done. }
  { intros []. cbn. unfold constant. by rewrite app_nil_r. }
  { intros u l []. cbn. unfold constant. by rewrite <- app_assoc. }
  edestruct (run_each_append nm_iam_add_policy (fun l iam => iam {{ iam_policies := iam_policies iam ++ l }})
    (ic_policies config)) as (t3 & ->).
  { done. }
  { intros []. cbn. unfold constant. by rewrite app_nil_r. }
  { intros u l []. cbn. unfold constant. by rewrite <- app_assoc. }
  do 2 eexists. split; [reflexivity |]. destruct iam. cbn in *. subst. done.
Qed.

(** C9. Users survive a restart. When a user changes, the users are written to the state file;
    when the application is started again, on any disk with that file, the state file is read and
    access management is filled with its users and the roles and policies of before. It then has the pairing password and token of
    before, different users still have different ids and fingerprints, the same users are
    found by their ids, with equal roles, tokens and attributes, and every access decision is
    the same. *)
Theorem users_survive_restart save tunnel iam fs (Hsave : io_ok save) (Hinv : iam_inv iam) (Hclosed : iam_closed iam) :
  exists text,
    iam_user_changed save tunnel iam fs = Def (tt, <[tn_stateFile tunnel := text]> fs, []) /\
    forall passwords save' load fs' config (iam0 : nm_iam), io_ok load -> fs' !! tn_stateFile tunnel = Some text ->
      iam_users iam0 = [] -> iam_roles iam0 = [] -> iam_policies iam0 = [] ->
      ic_roles config = iam_roles iam -> ic_policies config = iam_policies iam ->
    exists st iam' t,
      load_tcp_tunnel_state passwords save' load tcp_tunnel_state_init (tn_stateFile tunnel) fs' =
        (true, st, fs', []) /\
      ts_pairingPassword st = tn_pairingPassword tunnel /\
      ts_pairingServerConnectToken st = tn_pairingServerConnectToken tunnel /\
      fill_iam (ts_users st) config iam0 fs' = (iam', fs', t) /\ iam_inv iam' /\
      (forall id, option_Forall2 user_equiv (nm_iam_find_user iam id) (nm_iam_find_user iam' id)) /\
      forall fingerprint action attributes,
        nm_iam_check_access iam' fingerprint action attributes =
        nm_iam_check_access iam fingerprint action attributes.
Proof.
  destruct (written_users iam (proj1 Hinv)) as (us & Hus & Hperm).
  set (st0 := mk_tts us (tn_pairingPassword tunnel) (tn_pairingServerConnectToken tunnel)).
  destruct (state_saved save st0 fs (tn_stateFile tunnel) Hsave) as (text & Hs & Hload).
  exists text. split.
  { unfold iam_user_changed. cbv zeta. unfold ubind, uof, ulift, hskip, hret. rewrite Hus.
    match goal with |- context [save_tcp_tunnel_state _ _ ?st _] => change st with st0 end. by rewrite Hs. }
  intros passwords save' load fs' config iam0 Hl Hf Eu0 Er0 Ep0 Er Ep.
  destruct (Hload passwords save' load fs' Hl Hf) as (st & Hst & Hpw & Htok & Husers).
  destruct (fill_iam_run (ts_users st) config iam0 fs') as (iam' & t & Ht & Eu & Er' & Ep'); try done.
  assert (Heq : iam_equiv iam iam').
  { split; [congruence | split; [congruence |]]. exists us. by rewrite Eu. }
  exists st, iam', t. split_and!; try done.
  - by apply (iam_equiv_inv iam).
  - intros id. by apply iam_equiv_find_user.
  - intros. by apply iam_equiv_access.
Qed.

(** *** The default configuration *)

(** The actions that the policies of a role allow. *)
Definition default_actions (role : string) : list string :=
  if decide (role = "Unpaired") then ["Pairing:Get"; "Pairing:Password"; "Pairing:Local"]
  else if decide (role = "Admin" \/ role = "User")
  then ["TcpTunnel:GetService"; "TcpTunnel:Connect"; "TcpTunnel:ListServices"; "Pairing:Get"]
  else [].

Lemma fold_insert {A} (f : A -> T) (put : A -> string -> A) l : forall a,
  (forall a x, f (put a x) = (ss_insert (f a) x).2) ->
  forall x, x ∈ ss_elements (f (fold_left put l a)) <-> x ∈ l \/ x ∈ ss_elements (f a).
Proof.
  intros a Hput. revert a. induction l as [| y l IH]; intros a x; cbn [fold_left]; [set_solver |].
  rewrite IH, Hput. pose proof (memory (f a) y) as Hb. destruct (ss_insert (f a) y) as [b s] eqn:Ei. cbn in Hb.
  subst b. cbn. rewrite (ss_insert_spec _ _ _ Ei). set_solver.
Qed.

Lemma role_with_spec id policies :
  r_id (role_with id policies) = id /\
  forall x, x ∈ ss_elements (r_policies (role_with id policies)) <-> x ∈ policies.
Proof.
  unfold role_with. split.
  - assert (Hg : forall l r, r_id (fold_left (fun role policy => (nm_iam_role_add_policy role policy).2) l r) = r_id r).
    { induction l as [| p l IH]; intros r; cbn [fold_left]; [done |]. rewrite IH. unfold nm_iam_role_add_policy.
      by destruct (ss_insert (r_policies r) p). }
    by rewrite Hg.
  - intros x. rewrite fold_insert.
    + cbn. rewrite ss_empty_elements. set_solver.
    + intros r p. unfold nm_iam_role_add_policy. by destruct (ss_insert (r_policies r) p).
Qed.

(** A policy with one statement without conditions, that allows some actions. *)
Definition allows_actions (id : string) (actions : list string) (p : nm_policy) : Prop :=
  p_id p = id /\ exists s, p_statements p = [s] /\ s_effect s = NM_EFFECT_ALLOW /\ s_conditions s = [] /\
    forall a, a ∈ ss_elements (s_actions s) <-> a ∈ actions.

Lemma allow_policy_spec id actions : allows_actions id actions (allow_policy id actions).
Proof.
  unfold allows_actions, allow_policy. cbv zeta. split; [done |].
  set (s := fold_left _ _ _).
  assert (Hs : s_effect s = NM_EFFECT_ALLOW /\ s_conditions s = []).
  { unfold s. assert (Hg : forall l s0, s_effect s0 = NM_EFFECT_ALLOW /\ s_conditions s0 = [] ->
      let s1 := fold_left (fun stmt action => (nm_statement_add_action stmt action).2) l s0 in
      s_effect s1 = NM_EFFECT_ALLOW /\ s_conditions (T := T) s1 = []).
    { induction l as [| a l IH]; intros s0 Hs0; cbn [fold_left]; [done |]. apply IH.
      unfold nm_statement_add_action. by destruct (ss_insert (s_actions s0) a). }
    by apply Hg. }
  exists s. split; [done |]. split; [apply Hs | split; [apply Hs |]].
  intros a. unfold s. rewrite fold_insert.
  - cbn. rewrite ss_empty_elements. set_solver.
  - intros s1 x. unfold nm_statement_add_action. by destruct (ss_insert (s_actions s1) x).
Qed.

Lemma allows_actions_equiv id actions p p' :
  policy_equiv p p' -> allows_actions id actions p -> allows_actions id actions p'.
Proof.
  intros [Hid Hss] [Hi (s & Es & He & Hc & Ha)]. split; [congruence |]. rewrite Es in Hss.
  inversion_clear Hss as [| ? s' ? l' (He' & Ha' & Hc') Hnil]. inversion Hnil; subst.
  exists s'. split; [done |]. rewrite Hc in Hc'. inversion Hc'. split_and!; try done; [congruence |].
  intros a. rewrite <- Ha. symmetry. apply Ha'.
Qed.

Definition default_loaded (config : iam_config) : Prop :=
  Forall2 (fun spec p => allows_actions spec.1 spec.2 p)
    [("PasswordPairing", ["Pairing:Get"; "Pairing:Password"]); ("LocalPairing", ["Pairing:Get"; "Pairing:Local"]);
     ("TunnelAll", ["TcpTunnel:GetService"; "TcpTunnel:Connect"; "TcpTunnel:ListServices"]);
     ("Paired", ["Pairing:Get"])] (ic_policies config) /\
  Forall2 (fun spec r => r_id r = spec.1 /\ forall x, x ∈ ss_elements (r_policies r) <-> x ∈ spec.2)
    [("Unpaired", ["PasswordPairing"; "LocalPairing"]); ("Admin", ["TunnelAll"; "Paired"]);
     ("User", ["TunnelAll"; "Paired"])] (ic_roles config).

Lemma parse_until_all {A} (parse : J -> option A) (print : A -> J) (equiv : A -> A -> Prop) l : forall v,
  Forall (fun a => exists a', parse (print a) = Some a' /\ equiv a a') l ->
  exists l', parse_until parse (map print l) v = (true, v ++ l') /\ Forall2 equiv l l'.
Proof.
  induction l as [| a l IH]; intros v Hl; cbn [parse_until map].
  { exists []. by rewrite app_nil_r. }
  apply Forall_cons in Hl as [(a' & -> & Ha) Hl]. destruct (IH (v ++ [a']) Hl) as (l' & -> & Hf).
  exists (a' :: l'). by rewrite <- app_assoc; split; [| constructor].
Qed.

Lemma default_equiv_loaded ps rs :
  Forall2 policy_equiv default_policies ps -> Forall2 role_equiv default_roles rs ->
  default_loaded (mk_iam_config rs ps).
Proof.
  intros Heqp Heqr. split.
  - cbn [ic_policies]. unfold default_policies in Heqp.
    repeat match goal with H : Forall2 policy_equiv (_ :: _) _ |- _ => inversion_clear H
      | H : Forall2 policy_equiv [] _ |- _ => inversion_clear H end.
    repeat constructor; (eapply allows_actions_equiv; [eassumption | apply allow_policy_spec]).
  - cbn [ic_roles]. unfold default_roles in Heqr.
    assert (Hrole : forall id policies r, role_equiv (role_with id policies) r ->
      r_id r = id /\ forall x, x ∈ ss_elements (r_policies r) <-> x ∈ policies).
    { intros id policies r [Hid Hset]. destruct (role_with_spec id policies) as [E Hx].
      split; [congruence |]. intros x. rewrite <- Hx. symmetry. apply Hset. }
    repeat match goal with H : Forall2 role_equiv (_ :: _) _ |- _ => inversion_clear H
      | H : Forall2 role_equiv [] _ |- _ => inversion_clear H end.
    repeat (constructor; [by apply Hrole |]). constructor.
Qed.

Lemma default_config_loads save load (fs : disk) file :
  io_ok save -> io_ok load -> fs !! file = None -> exists text config,
  load_iam_config save load iam_config_init file fs = (true, config, <[file := text]> fs, []) /\
  default_loaded config.
Proof.
  intros Hsave Hload Hf.
  set (jp := to_array (map nm_policy_to_json default_policies)).
  set (jr := to_array (map nm_iam_role_to_json default_roles)).
  assert (Hb : built_node (iam_config_json default_policies default_roles)).
  { unfold iam_config_json. apply built_member; [| apply built_map, built_role].
    apply built_member; [apply built_new_object | apply built_map, built_policy]. }
  destruct (json_config_saved save file _ fs Hsave (proj1 Hb)) as (text & Hs & Hl).
  specialize (Hl load (<[file := text]> fs) Hload). rewrite lookup_insert_eq in Hl. specialize (Hl eq_refl).
  destruct (parse_until_all nm_policy_from_json nm_policy_to_json policy_equiv default_policies [])
    as (ps & Hps & Heqp); [apply Forall_forall; intros p Hp; apply (policy_json_roundtrip memory) |].
  { unfold policy_ok. apply Forall_forall. intros s Hs'. left.
    repeat (apply elem_of_cons in Hp as [-> | Hp]; [
      match goal with H : _ ∈ p_statements (allow_policy ?i ?a) |- _ =>
        destruct (allow_policy_spec i a) as [_ (s1 & E & He & _)]; rewrite E in H;
        by apply list_elem_of_singleton in H as -> end |]).
    by apply elem_of_nil in Hp. }
  destruct (parse_until_all nm_iam_role_from_json nm_iam_role_to_json role_equiv default_roles [])
    as (rs & Hrs & Heqr); [apply Forall_forall; intros r _; apply (role_json_roundtrip memory) |].
  exists text, (mk_iam_config rs ps). split.
  - unfold load_iam_config, json_config_exists, string_file_exists, create_default_iam_config, hbind, hgets, hskip, hret.
    rewrite bool_decide_false by (rewrite Hf; by intros []). cbn [negb]. rewrite Hs, Hl, (proj2 Hb). cbn [negb].
    destruct (object_1 "Policies" jp) as [O1 C1].
    destruct (cj_object_add _ "Roles" jr O1) as [_ C2]. rewrite C1 in C2.
    assert (G1 : cJSON_GetObjectItem (iam_config_json default_policies default_roles) "Policies" = Some jp)
      by (unfold cJSON_GetObjectItem, iam_config_json; fold jp jr; by rewrite C2).
    assert (G2 : cJSON_GetObjectItem (iam_config_json default_policies default_roles) "Roles" = Some jr)
      by (unfold cJSON_GetObjectItem, iam_config_json; fold jp jr; by rewrite C2).
    rewrite G1, G2. unfold jp, jr.
    edestruct (to_array_items (map nm_policy_to_json default_policies)) as [-> ->].
    edestruct (to_array_items (map nm_iam_role_to_json default_roles)) as [-> ->]. cbn [negb orb].
    cbn [ic_policies iam_config_init]. rewrite Hps. cbn [negb app].
    cbv beta iota zeta.
    change (ic_roles (iam_config_init {{ ic_policies := [] ++ ps }})) with (@nil nm_iam_role). rewrite Hrs. done.
  - by apply default_equiv_loaded.
Qed.

(** *** Access under the default configuration *)

Lemma find_listed {A V} (key : A -> string) (Q : string * V -> A -> Prop) specs l k v :
  (forall spec a, Q spec a -> key a = spec.1) -> Forall2 Q specs l -> NoDup specs.*1 -> (k, v) ∈ specs ->
  exists a, List.find (fun a => streq (key a) k) l = Some a /\ Q (k, v) a.
Proof.
  intros HQ. induction 1 as [| [k0 v0] a specs l Ha _ IH]; cbn; intros Hnd Hin; [by apply elem_of_nil in Hin |].
  apply NoDup_cons in Hnd as [Hni Hnd]. apply elem_of_cons in Hin as [[= <- <-] | Hin].
  - exists a. pose proof (HQ _ _ Ha) as E. cbn in E. by rewrite (proj2 (streq_spec _ _) E).
  - destruct (streq (key a) k) eqn:E; [| by apply IH]. apply streq_spec in E. destruct Hni.
    apply list_elem_of_fmap. exists (k, v). split; [| done]. rewrite <- E. symmetry. apply (HQ _ _ Ha).
Qed.

Lemma allows_actions_eval id actions p s action attributes :
  allows_actions id actions p -> s ∈ p_statements p ->
  final (nm_statement_eval s action attributes) = false /\
  (nm_statement_eval s action attributes = NM_EFFECT_ALLOW <-> action ∈ actions).
Proof.
  intros [_ (s' & -> & He & Hc & Ha)] ->%list_elem_of_singleton. unfold nm_statement_eval.
  rewrite Hc, He, <- Ha, <- ss_contains_spec. cbn. by destruct (ss_contains (s_actions s') action).
Qed.

Definition policy_specs : list (string * list string) :=
  [("PasswordPairing", ["Pairing:Get"; "Pairing:Password"]); ("LocalPairing", ["Pairing:Get"; "Pairing:Local"]);
   ("TunnelAll", ["TcpTunnel:GetService"; "TcpTunnel:Connect"; "TcpTunnel:ListServices"]);
   ("Paired", ["Pairing:Get"])].

Definition role_specs : list (string * list string) :=
  [("Unpaired", ["PasswordPairing"; "LocalPairing"]); ("Admin", ["TunnelAll"; "Paired"]);
   ("User", ["TunnelAll"; "Paired"])].

(** Access management with the default roles and policies. *)
Definition default_iam (iam : nm_iam) : Prop :=
  default_loaded (mk_iam_config (iam_roles iam) (iam_policies iam)) /\
  Forall (fun u => is_Some (u_fingerprint u)) (iam_users iam).

Lemma default_find_policy iam id actions :
  default_iam iam -> (id, actions) ∈ policy_specs ->
  exists p, nm_iam_find_policy iam id = Some p /\ allows_actions id actions p.
Proof.
  intros [[Hp _] _] Hin.
  apply (find_listed p_id (fun spec p => allows_actions spec.1 spec.2 p) policy_specs); try done.
  - by intros spec p [-> _].
  - by_compute.
Qed.

Lemma default_find_role iam id policies :
  default_iam iam -> (id, policies) ∈ role_specs ->
  exists r, nm_iam_find_role iam id = Some r /\ forall x, x ∈ ss_elements (r_policies r) <-> x ∈ policies.
Proof.
  intros [[_ Hr] _] Hin.
  destruct (find_listed r_id (fun spec r => r_id r = spec.1 /\ forall x, x ∈ ss_elements (r_policies r) <-> x ∈ spec.2)
    role_specs (iam_roles iam) id policies) as (r & Hf & _ & Hx); try done.
  - by intros spec r [-> _].
  - by_compute.
  - by exists r.
Qed.

Lemma role_policy_listed id policies x :
  (id, policies) ∈ role_specs -> x ∈ policies -> exists actions, (x, actions) ∈ policy_specs.
Proof.
  unfold role_specs, policy_specs. rewrite !elem_of_cons, elem_of_nil. intros Hin Hx.
  destruct Hin as [[= -> ->] | [[= -> ->] | [[= -> ->] | []]]];
    rewrite !elem_of_cons, elem_of_nil in Hx; destruct Hx as [-> | [-> | []]];
    eexists; rewrite !elem_of_cons; eauto.
Qed.

Lemma default_closed iam : default_iam iam -> iam_closed iam.
Proof.
  intros Hd. split; [apply Hd |]. apply Forall_forall. intros r Hr. apply Forall_forall. intros x Hx.
  destruct Hd as [[Hp Hroles] Hu] eqn:Ed. cbn [ic_roles] in Hroles.
  apply list_elem_of_lookup in Hr as (i & Hi).
  destruct (Forall2_lookup_r _ _ _ _ _ Hroles Hi) as ([id policies] & Hspec & _ & Hpol). cbn in Hpol.
  apply Hpol in Hx. destruct (role_policy_listed id policies x) as (actions & Ha); [| done |].
  - by eapply list_elem_of_lookup_2.
  - destruct (default_find_policy iam x actions Hd Ha) as (p & -> & _). by eexists.
Qed.

(** The statements of a role, and the actions they allow. *)
Lemma default_role_eval iam id policies action attributes :
  default_iam iam -> (id, policies) ∈ role_specs ->
  is_Some (nm_iam_find_role iam id) /\
  (forall s, role_statement iam id s -> final (nm_statement_eval s action attributes) = false) /\
  ((exists s, role_statement iam id s /\ nm_statement_eval s action attributes = NM_EFFECT_ALLOW) <->
   exists x actions, x ∈ policies /\ (x, actions) ∈ policy_specs /\ action ∈ actions).
Proof.
  intros Hd Hin. destruct (default_find_role iam id policies Hd Hin) as (r & Hr & Hx).
  assert (Hs : forall s, role_statement iam id s -> exists x actions p, x ∈ policies /\ (x, actions) ∈ policy_specs /\
    allows_actions x actions p /\ s ∈ p_statements p).
  { intros s (r' & x & p & Hr' & Hxr & Hp & Hsp). assert (r' = r) as -> by congruence. apply Hx in Hxr.
    destruct (role_policy_listed _ _ _ Hin Hxr) as (actions & Ha).
    destruct (default_find_policy iam x actions Hd Ha) as (p' & Hp' & Hall).
    assert (p' = p) as -> by congruence. by exists x, actions, p. }
  split; [by eexists | split].
  - intros s (x & actions & p & _ & _ & Hall & Hsp)%Hs. by apply (allows_actions_eval x actions p s).
  - split.
    + intros (s & (x & actions & p & Hxp & Ha & Hall & Hsp)%Hs & He). exists x, actions. split; [done | split; [done |]].
      by apply (allows_actions_eval x actions p s action attributes).
    + intros (x & actions & Hxp & Ha & Hact). destruct (default_find_policy iam x actions Hd Ha) as (p & Hp & Hall).
      pose proof Hall as [_ (s & Es & _)]. exists s.
      assert (Hsp : s ∈ p_statements p) by (rewrite Es; left). split.
      * exists r, x, p. split_and!; try done. by apply Hx.
      * by apply (allows_actions_eval x actions p s action attributes).
Qed.

(** What the tables of roles and policies allow. *)
Ltac listed H :=
  unfold role_specs, policy_specs in H; rewrite !elem_of_cons, elem_of_nil in H;
  repeat (destruct H as [H | H]; [simplify_eq |]); try done.

Definition granted (roles : list string) (action : string) : Prop :=
  exists r policies x actions, r ∈ roles /\ (r, policies) ∈ role_specs /\
    x ∈ policies /\ (x, actions) ∈ policy_specs /\ action ∈ actions.

Lemma unpaired_actions action :
  granted ["Unpaired"] action <-> action ∈ ["Pairing:Get"; "Pairing:Password"; "Pairing:Local"].
Proof.
  split.
  - intros (r & policies & x & actions & ->%list_elem_of_singleton & Hr & Hx & Ha & Hact).
    listed Hr; listed Hx; listed Ha; listed Hact; by_compute.
  - rewrite !elem_of_cons, elem_of_nil. intros Hact.
    exists "Unpaired", ["PasswordPairing"; "LocalPairing"].
    destruct Hact as [-> | [-> | [-> | []]]];
      [ exists "PasswordPairing", ["Pairing:Get"; "Pairing:Password"]
      | exists "PasswordPairing", ["Pairing:Get"; "Pairing:Password"]
      | exists "LocalPairing", ["Pairing:Get"; "Pairing:Local"]];
      split_and!; by_compute.
Qed.

Lemma user_actions roles action :
  roles <> [] -> (forall r, r ∈ roles -> r = "Admin" \/ r = "User") ->
  granted roles action <->
  action ∈ ["TcpTunnel:GetService"; "TcpTunnel:Connect"; "TcpTunnel:ListServices"; "Pairing:Get"].
Proof.
  intros Hne Hroles. split.
  - intros (r & policies & x & actions & [-> | ->]%Hroles & Hr & Hx & Ha & Hact);
      listed Hr; listed Hx; listed Ha; listed Hact; by_compute.
  - destruct roles as [| r roles]; [done |]. intros Hact. exists r, ["TunnelAll"; "Paired"].
    assert (Hr : (r, ["TunnelAll"; "Paired"]) ∈ role_specs) by (destruct (Hroles r ltac:(left)) as [-> | ->]; by_compute).
    rewrite !elem_of_cons, elem_of_nil in Hact.
    destruct Hact as [-> | [-> | [-> | [-> | []]]]];
      [ exists "TunnelAll", ["TcpTunnel:GetService"; "TcpTunnel:Connect"; "TcpTunnel:ListServices"] ..
      | exists "Paired", ["Pairing:Get"]];
      (split; [left | split; [exact Hr | split_and!; by_compute]]).
Qed.

Lemma default_access iam fp action attributes :
  default_iam iam -> (forall r, r ∈ client_roles iam fp -> exists policies, (r, policies) ∈ role_specs) ->
  nm_iam_check_access iam (Some fp) action attributes = Def true <-> granted (client_roles iam fp) action.
Proof.
  intros Hd Hroles. destruct (check_access_spec iam (Some fp) action attributes (default_closed iam Hd)) as [_ ->].
  set (attrs := client_attributes iam fp attributes).
  assert (Hrole : forall r, r ∈ client_roles iam fp -> exists policies, (r, policies) ∈ role_specs /\
    is_Some (nm_iam_find_role iam r) /\
    (forall s, role_statement iam r s -> final (nm_statement_eval s action attrs) = false) /\
    ((exists s, role_statement iam r s /\ nm_statement_eval s action attrs = NM_EFFECT_ALLOW) <->
     exists x actions, x ∈ policies /\ (x, actions) ∈ policy_specs /\ action ∈ actions)).
  { intros r Hr. destruct (Hroles r Hr) as (policies & Hp). exists policies. split; [done |].
    by apply default_role_eval. }
  split.
  - intros (fp' & [= <-] & _ & (s & (r & Hr & Hs) & Ea) & _). fold attrs in Ea.
    destruct (Hrole r Hr) as (policies & Hp & _ & _ & [Hiff _]).
    destruct Hiff as (x & actions & ? & ? & ?); [by exists s |]. exists r, policies, x, actions. done.
  - intros (r & policies & x & actions & Hr & Hp & Hx & Ha & Hact). exists fp. split; [done |]. split.
    { intros r' Hr'. by destruct (Hrole r' Hr') as (? & _ & ? & _). }
    destruct (default_role_eval iam r policies action attrs Hd Hp) as (_ & _ & _ & Hback).
    destruct Hback as (s & Hs & Ea); [by exists x, actions |]. split; [exists s; split; [by exists r | done] |].
    intros s' (r' & Hr' & Hs'). apply final_spec. destruct (Hrole r' Hr') as (? & _ & _ & Hfin & _). by apply Hfin.
Qed.

(** C10. The default configuration. When the file of roles and policies does not exist, it is
    created and read back. Access management with these roles and policies lets a client that
    is not paired see how to pair, and pair with a password or locally, and nothing else; it lets a
    user, administrator or not, see the pairing and list, look up and connect to the services,
    and nothing else. *)
Theorem default_config_access save load (fs : disk) file
    (Hsave : io_ok save) (Hload : io_ok load) (Hf : fs !! file = None) :
  exists text config,
    load_iam_config save load iam_config_init file fs = (true, config, <[file := text]> fs, []) /\
    forall iam fp action attributes,
      iam_roles iam = ic_roles config -> iam_policies iam = ic_policies config ->
      Forall (fun u => is_Some (u_fingerprint u)) (iam_users iam) ->
      let allowed := nm_iam_check_access iam (Some fp) action attributes = Def true in
      (List.find (has_fingerprint fp) (iam_users iam) = None ->
        (allowed <-> action ∈ ["Pairing:Get"; "Pairing:Password"; "Pairing:Local"])) /\
      (forall u, List.find (has_fingerprint fp) (iam_users iam) = Some u -> ss_elements (u_roles u) <> [] ->
        (forall r, r ∈ ss_elements (u_roles u) -> r = "Admin" \/ r = "User") ->
        (allowed <-> action ∈ ["TcpTunnel:GetService"; "TcpTunnel:Connect"; "TcpTunnel:ListServices"; "Pairing:Get"])).
Proof.
  destruct (default_config_loads save load fs file Hsave Hload Hf) as (text & config & Hl & Hd).
  exists text, config. split; [exact Hl |]. intros iam fp action attributes Er Ep Hu allowed.
  assert (Hdi : default_iam iam) by (split; [rewrite Er, Ep; by destruct config | done]).
  pose proof (default_access iam fp action attributes Hdi) as Hacc. unfold client_roles in Hacc. split.
  - intros E. rewrite E in Hacc. unfold allowed. rewrite Hacc.
    2: { intros r ->%list_elem_of_singleton. eexists. unfold role_specs. rewrite !elem_of_cons. eauto. }
    apply unpaired_actions.
  - intros u E Hne Hru. rewrite E in Hacc. unfold allowed. rewrite Hacc.
    2: { intros r [-> | ->]%Hru; eexists; unfold role_specs; rewrite !elem_of_cons; eauto. }
    by apply user_actions.
Qed.

(** *** Services *)

Lemma service_roundtrip service :
  is_uint 16 (sv_port service) -> service_from_json (service_as_json service) = Def (Some service).
Proof.
  intros Hport. unfold service_from_json, service_as_json. cbv zeta. destruct cj_object_new as [O0 C0].
  destruct (cj_object_add _ "Id" (cJSON_CreateString (sv_id service)) O0) as [O1 C1].
  destruct (cj_object_add _ "Type" (cJSON_CreateString (sv_type service)) O1) as [O2 C2].
  destruct (cj_object_add _ "Host" (cJSON_CreateString (sv_host service)) O2) as [O3 C3].
  destruct (cj_object_add _ "Port" (cJSON_CreateNumber (sv_port service)) O3) as [-> C4].
  set (j := cJSON_AddItemToObject _ "Port" _) in *.
  assert (G1 : cJSON_GetObjectItem j "Id" = cJSON_CreateString <$> Some (sv_id service))
    by (unfold cJSON_GetObjectItem; by rewrite C4, C3, C2, C1, C0).
  assert (G2 : cJSON_GetObjectItem j "Type" = cJSON_CreateString <$> Some (sv_type service))
    by (unfold cJSON_GetObjectItem; by rewrite C4, C3, C2, C1, C0).
  assert (G3 : cJSON_GetObjectItem j "Host" = cJSON_CreateString <$> Some (sv_host service))
    by (unfold cJSON_GetObjectItem; by rewrite C4, C3, C2, C1, C0).
  assert (G4 : cJSON_GetObjectItem j "Port" = Some (cJSON_CreateNumber (sv_port service)))
    by (unfold cJSON_GetObjectItem; by rewrite C4, C3, C2, C1, C0).
  rewrite G1, G2, G3, G4, !string_item_created.
  destruct (cj_number_new (sv_port service)) as [-> Hn]; [solve_int |].
  unfold double_to_uint16. rewrite Hn. unfold is_uint in Hport.
  replace ((0 <=? sv_port service)%Z && (sv_port service <? 2 ^ 16)%Z) with true by lia. by destruct service.
Qed.

Lemma default_service_loads save load (fs : disk) file :
  io_ok save -> io_ok load -> fs !! file = None -> exists text,
  load_tcp_tunnel_services save load [] file fs =
    Def ((true, [mk_service "ssh" "ssh" "127.0.0.1" 22]), <[file := text]> fs, []).
Proof.
  intros Hsave Hload Hf. set (ssh := mk_service "ssh" "ssh" "127.0.0.1" 22).
  set (root := cJSON_AddItemToArray cJSON_CreateArray (service_as_json ssh)).
  assert (Hb : built root).
  { constructor; [apply cj_array_new | constructor |]. unfold service_as_json.
    repeat (apply built_member; [| constructor]). apply built_new_object. }
  destruct (json_config_saved save file root fs Hsave Hb) as (text & Hs & Hl). exists text.
  specialize (Hl load (<[file := text]> fs) Hload). rewrite lookup_insert_eq in Hl. specialize (Hl eq_refl).
  unfold load_tcp_tunnel_services, json_config_exists, string_file_exists, hgets, ubind, ulift, uof, hret.
  rewrite bool_decide_false by (rewrite Hf; by intros []). cbn [negb].
  unfold create_default_services_file. fold ssh root. rewrite Hs. cbn [negb]. rewrite Hl.
  unfold load_services_from_json. destruct cj_array_new as [Ha Hc].
  destruct (cj_array_add cJSON_CreateArray (service_as_json ssh) Ha) as [Ha' Hi].
  fold root in Ha', Hi. rewrite Ha', Hi. unfold cj_items. rewrite Hc. change ((@nil (string * J)).*2 ++ [service_as_json ssh]) with [service_as_json ssh]. cbn [negb service_items].
  rewrite service_roundtrip by (cbn; unfold is_uint; lia). done.
Qed.

(** *** The output *)

Lemma substring_length s : forall n, (n <= String.length s)%nat -> String.length (String.substring 0 n s) = n.
Proof. induction s as [| c s IH]; intros [| n] Hn; cbn in *; try done; try lia. rewrite IH; lia. Qed.

Lemma string_app_length s t : String.length (s +:+ t) = (String.length s + String.length t)%nat.
Proof. induction s as [| c s IH]; [done |]. rewrite append_cons. cbn. by rewrite IH. Qed.

(** An item always fills its column. *)
Lemma print_item_width item : String.length (print_item item) = 17%nat.
Proof.
  unfold print_item. cbv zeta.
  assert (Hn : ((if (16 <? String.length item)%nat then 16%nat else String.length item) <= 16)%nat /\
    ((if (16 <? String.length item)%nat then 16%nat else String.length item) <= String.length item)%nat)
    by (destruct (Nat.ltb_spec 16 (String.length item)); lia).
  rewrite string_app_length, !substring_length; [lia | cbn; lia | lia].
Qed.

End TunnelApp.

(** ** Witnesses and examples *)

#[local] Instance no_strtod : Strtod := fun s => (SpecFloat.S754_zero false, s).

Abbreviation users_iam := (nm_iam (T := gset string) (M := gmap string string)).

Definition example_io : io := mk_io true true (fun n => n).

Lemma example_io_ok : io_ok example_io.
Proof. split; [done | split; [done |]]. intros n. cbn. lia. Defined.

(** One user with the role "User". *)
Definition one_user : users_iam :=
  mk_iam [mk_user "1" {["User"%string]} (Some "f1"%string) (Some "token"%string) ∅]
    [mk_role "Unpaired" {["Paired"%string]}; mk_role "User" {["Paired"%string]}]
    [mk_policy "Paired" [mk_statement NM_EFFECT_ALLOW {["Pairing:Get"%string]} []]] (Some "pw"%string) true.

Definition example_tunnel : tcp_tunnel := mk_tunnel (Some "pw") (Some "sct") "d" "state" "i" "s" "k" [].

Lemma one_user_inv : iam_inv one_user.
Proof. unfold iam_inv. split_and!; by_compute. Defined.

Lemma one_user_closed : iam_closed one_user.
Proof. unfold iam_closed. split; by_compute. Defined.

Lemma gset_memory (s : gset string) x : (ss_insert s x).1 = true.
Proof. done. Qed.

Lemma users_survive_restart_witness :
  io_ok example_io /\ iam_inv one_user /\ iam_closed one_user /\
  exists text, iam_user_changed (J := json) example_io example_tunnel one_user ∅ =
    Def (tt, <["state"%string := text]> ∅, []).
Proof.
  split; [exact example_io_ok | split; [exact one_user_inv | split; [exact one_user_closed |]]].
  destruct (users_survive_restart (J := json) (T := gset string) (M := gmap string string) gset_memory
    example_io example_tunnel one_user ∅ example_io_ok one_user_inv one_user_closed) as (text & Hs & _).
  exists text. exact Hs.
Defined.

Lemma default_config_access_witness :
  io_ok example_io /\ (∅ : disk) !! "iam"%string = None /\
  exists text config, load_iam_config (J := json) (T := gset string) example_io example_io iam_config_init "iam" ∅ =
    (true, config, <["iam"%string := text]> ∅, []).
Proof.
  split; [exact example_io_ok | split; [reflexivity |]].
  destruct (default_config_access (J := json) (T := gset string) (M := gmap string string) gset_memory
    example_io example_io ∅ "iam" example_io_ok example_io_ok (lookup_empty _)) as (text & config & Hl & _).
  exists text, config. exact Hl.
Defined.

(** A state file without the password: the application prints a pairing URL with NULL. *)
Example missing_password_undefined :
  let st := mk_tts (T := gset string) (M := gmap string string) [] None (Some "sct"%string) in
  let dc := mk_device_config (Some "pr"%string) (Some "de"%string) None 0 in
  let env := mk_env None (fun _ => example_io) (fun _ => example_io) (None, None)
               (mk_key_device None (fun _ => true)) (Some "fp"%string) in
  configure env tcp_tunnel_init (mk_loaded dc iam_config_init st []) ∅ = UB.
Proof. reflexivity. Qed.

(** A product id that is too long: the URL is written past the end of its buffer. *)
Example long_url_undefined :
  generate_pairing_url (String.string_of_list_ascii (repeat (Ascii.ascii_of_nat 112) 1000)) "de" "fp" (Some "pw") (Some "sct") = UB.
Proof. vm_compute. reflexivity. Qed.

(** A user without fingerprint in the state file: the next access decision compares it. *)
Example no_fingerprint_undefined :
  let json := JObject [("Id"%string, JString "1")] in
  match nm_iam_user_from_json (T := gset string) (M := gmap string string) json with
  | Some user => nm_iam_check_access (mk_iam [user] [] [] None false) (Some "f"%string) "Pairing:Get" None = UB
  | None => False
  end.
Proof. reflexivity. Qed.

(** A port that does not fit in 16 bits. *)
Example port_undefined :
  service_from_json (JObject [("Id"%string, JString "i"); ("Type"%string, JString "t"); ("Host"%string, JString "h");
    ("Port"%string, number_json 70000)]) = UB.
Proof. reflexivity. Qed.

(** A save that fails is not noticed, and the file is lost. *)
Example failed_save_unnoticed :
  let full_disk := mk_io true true (fun _ => 0%nat) in
  let saved := save_tcp_tunnel_state (J := json) full_disk "state"
                 (tcp_tunnel_state_init (T := gset string) (M := gmap string string)) {["state"%string := "old"%string]} in
  saved = (true, {["state"%string := ""%string]}, []).
Proof. reflexivity. Qed.
