(* ===== verification/Stun.v ===== *)
(** * STUN analysis (nc_stun.c, nc_stun_coap.c)

    The analysis resolves the STUN host, then lets the STUN client library decide what to
    send, how long to wait, and when the analysis has ended; up to ten callbacks wait for the
    result. The library (nabto_stun, third-party code) is a class of operations on its state;
    the calls to other components are the trace. *)

From S2P Require Import Prelude Platform Collections Cbor Rendezvous.
From stdpp Require Import sets.

#[local] Open Scope Z_scope.
#[local] Open Scope list_scope.
#[local] Open Scope handler_scope.

Definition NC_STUN_MAX_CALLBACKS : nat := 10.
Definition NC_STUN_MAX_ENDPOINTS : nat := 10.
Definition NABTO_STUN_BUFFER_SIZE : Z := 512.

Inductive nc_stun_state : Type :=
| NC_STUN_STATE_NONE
| NC_STUN_STATE_RUNNING
| NC_STUN_STATE_DONE
| NC_STUN_STATE_ABORTED.

#[global] Instance stun_state_eq : EqDecision nc_stun_state.
Proof. solve_decision. Defined.

(** ** Interface of the STUN library *)

Record nabto_stun_endpoint : Type := mk_sep {
  sep_ipv4 : bool;              (* addr.type == NABTO_STUN_IPV4 *)
  sep_addr : list Z;
  sep_port : Z
}.

Inductive nabto_stun_next_event_type : Type :=
| STUN_ET_SEND_PRIMARY
| STUN_ET_SEND_SECONDARY
| STUN_ET_WAIT
| STUN_ET_NO_EVENT
| STUN_ET_COMPLETED
| STUN_ET_FAILED.

Class NabtoStun (L R : Type) : Type := {
  nabto_stun_init : list nabto_stun_endpoint -> L;
  nabto_stun_async_analyze : L -> bool -> L;
  nabto_stun_next_event_to_handle : L -> nabto_stun_next_event_type * L;
  nabto_stun_get_data_endpoint : L -> option nabto_stun_endpoint * L;
  nabto_stun_get_send_data : L -> Z -> list Z * L;
  nabto_stun_get_timeout_ms : L -> Z * L;
  nabto_stun_handle_wait_event : L -> L;
  nabto_stun_handle_packet : L -> list Z -> L;
  nabto_stun_get_result : L -> R;
  stun_result_extEp : R -> nabto_stun_endpoint
}.

Definition is_aborted (s : nc_stun_state) : bool := match s with NC_STUN_STATE_ABORTED => true | _ => false end.
Definition is_running (s : nc_stun_state) : bool := match s with NC_STUN_STATE_RUNNING => true | _ => false end.

Section Stun.
Context {L R : Type} `{NabtoStun L R}.

(** A waiting callback is a number. *)
Record nc_stun_context : Type := mk_stun {
  st_priUdp : bool;                     (* priUdp != NULL *)
  st_secUdp : bool;
  st_stun : L;
  st_cbs : list (option nat);           (* NC_STUN_MAX_CALLBACKS slots *)
  st_state : nc_stun_state;
  st_ec : np_error_code;
  st_res : option R;
  st_hostname : option (list Z);
  st_priPort : Z;
  st_eps : list nabto_stun_endpoint;
  st_numEps : nat;
  st_sendEp : np_udp_endpoint;
  st_simple : bool
}.

Inductive stun_call : Type :=
| StDnsResolve (host : list Z) (max : nat)
| StCancelTimeout
| StPostTimeout (ms : Z)
| StUdpSend (primary : bool) (ep : np_udp_endpoint) (data : list Z)
| StCallback (cb : nat) (ec : np_error_code) (res : option R).

Definition st_handler (A : Type) : Type := handler nc_stun_context stun_call A.

(** ** Endpoints *)

Definition nc_stun_convert_ep (stunEp : nabto_stun_endpoint) (npEp : np_udp_endpoint) : np_udp_endpoint :=
  mk_ep (if sep_ipv4 stunEp
         then mk_ip NABTO_IPV4 (memcpy (ip_mem (ep_ip npEp)) 0 (take 4 (sep_addr stunEp)))
         else mk_ip NABTO_IPV6 (memcpy (ip_mem (ep_ip npEp)) 0 (take 16 (sep_addr stunEp))))
        (sep_port stunEp).

Definition nc_stun_set_endpoint (ip : np_ip_address) (port : Z) : nabto_stun_endpoint :=
  match ip_type ip with
  | NABTO_IPV4 => mk_sep true (take 4 (ip_mem ip)) port
  | NABTO_IPV6 => mk_sep false (take 16 (ip_mem ip)) port
  end.

(** The first entries of [eps] are replaced; the count is the second result. *)
Definition nc_stun_convert_ep_list (ips : list np_ip_address) (eps : list nabto_stun_endpoint) (port : Z) :
    list nabto_stun_endpoint * nat :=
  let i := Nat.min (length ips) (length eps) in
  (map (fun ip => nc_stun_set_endpoint ip port) (take i ips) ++ drop i eps, i).

(** ** Callbacks *)

(** The loop of [nc_stun_resolve_callbacks] from slot [i]. *)
Fixpoint resolve_slots (i : nat) (n : nat) : st_handler unit :=
  match n with
  | O => hskip
  | S n =>
      (let* ctx := hget in
       match st_cbs ctx !! i with
       | Some (Some cb) =>
           hmod (fun ctx => ctx {{ st_cbs ::= insert i None }}) ;;;
           emit (StCallback cb (st_ec ctx) (st_res ctx))
       | _ => hskip
       end) ;;;
      resolve_slots (S i) n
  end.

Definition nc_stun_resolve_callbacks : st_handler unit := resolve_slots 0 NC_STUN_MAX_CALLBACKS.

Definition fail_with (ec : np_error_code) : st_handler unit :=
  hmod (fun ctx => ctx {{ st_ec := ec }}) ;;; nc_stun_resolve_callbacks.

(** An operation of the library on its state. *)
Definition stun_op {A} (f : L -> A * L) : st_handler A := fun ctx =>
  let '(a, s) := f (st_stun ctx) in (a, ctx {{ st_stun := s }}, []).

(** ** The event loop *)

(** The two [SEND] cases of [nc_stun_event]. *)
Definition send_case (primary : bool) : st_handler unit :=
  let* ctx := hget in
  if negb (if primary then st_priUdp ctx else st_secUdp ctx) then fail_with NABTO_EC_UDP_SOCKET_ERROR
  else
    let* ep := stun_op nabto_stun_get_data_endpoint in
    match ep with
    | None => fail_with NABTO_EC_NO_VALID_ENDPOINTS
    | Some stunEp =>
        hmod (fun ctx => ctx {{ st_sendEp ::= nc_stun_convert_ep stunEp }}) ;;;
        let* data := stun_op (fun s => nabto_stun_get_send_data s NABTO_STUN_BUFFER_SIZE) in
        let* ctx := hget in
        emit (StUdpSend primary (st_sendEp ctx) data)
    end.

Definition nc_stun_event : st_handler unit :=
  let* event := stun_op nabto_stun_next_event_to_handle in
  emit StCancelTimeout ;;;
  match event with
  | STUN_ET_SEND_PRIMARY => send_case true
  | STUN_ET_SEND_SECONDARY => send_case false
  | STUN_ET_WAIT => let* ms := stun_op nabto_stun_get_timeout_ms in emit (StPostTimeout ms)
  | STUN_ET_NO_EVENT => hskip
  | STUN_ET_COMPLETED =>
      hmod (fun ctx => ctx {{ st_state := NC_STUN_STATE_DONE; st_ec := NABTO_EC_OK;
                              st_res := Some (nabto_stun_get_result (st_stun ctx)) }}) ;;;
      nc_stun_resolve_callbacks
  | STUN_ET_FAILED => fail_with NABTO_EC_UNKNOWN
  end.

(** ** Operations *)

Definition stun_zero (s : L) : nc_stun_context :=
  mk_stun false false s (replicate NC_STUN_MAX_CALLBACKS None) NC_STUN_STATE_NONE NABTO_EC_OK None None 0
    (replicate NC_STUN_MAX_ENDPOINTS (mk_sep true [0; 0; 0; 0] 0)) 0 zero_ep false.

(** [created]: the answers of creating the timeout event, the resolver and the two completion
    events; [s] is the zeroed memory of the library. *)
Definition nc_stun_init (buffer : bool) (created : list np_error_code) (s : L) : st_handler np_error_code :=
  hmod (fun _ => stun_zero s) ;;;
  if negb buffer then hret NABTO_EC_OUT_OF_MEMORY
  else hret (default NABTO_EC_OK (List.find is_error created)).

Definition nc_stun_deinit : st_handler unit :=
  hmod (fun ctx => ctx {{ st_state := NC_STUN_STATE_ABORTED }}).

Definition nc_stun_set_sockets : st_handler unit :=
  hmod (fun ctx => ctx {{ st_priUdp := true; st_secUdp := true }}).

Definition nc_stun_remove_sockets : st_handler unit :=
  hmod (fun ctx => ctx {{ st_priUdp := false; st_secUdp := false }}).

Definition nc_stun_set_host (hostname : list Z) (port : Z) : st_handler unit :=
  hmod (fun ctx => ctx {{ st_hostname := Some hostname; st_priPort := port }}).

Fixpoint free_slot (cbs : list (option nat)) : option nat :=
  match cbs with
  | [] => None
  | None :: _ => Some 0%nat
  | Some _ :: rest => S <$> free_slot rest
  end.

Definition nc_stun_async_analyze (simple : bool) (cb : nat) : st_handler np_error_code :=
  let* ctx := hget in
  if is_aborted (st_state ctx) then hret NABTO_EC_ABORTED
  else
    match st_hostname ctx with
    | None => hret NABTO_EC_INVALID_STATE
    | Some hostname =>
        match free_slot (st_cbs ctx) with
        | None => hret NABTO_EC_UNKNOWN
        | Some i =>
            hmod (fun ctx => ctx {{ st_cbs ::= insert i (Some cb) }}) ;;;
            if is_running (st_state ctx) then hret NABTO_EC_OK
            else
              hmod (fun ctx => ctx {{ st_simple := simple; st_state := NC_STUN_STATE_RUNNING }}) ;;;
              emit (StDnsResolve hostname NC_STUN_MAX_ENDPOINTS) ;;;
              hret NABTO_EC_OK
        end
    end.

Definition nc_stun_handle_packet (buffer : list Z) : st_handler unit :=
  let* ctx := hget in
  if is_aborted (st_state ctx) then hskip
  else
    hmod (fun ctx => ctx {{ st_stun := nabto_stun_handle_packet (st_stun ctx) buffer }}) ;;;
    nc_stun_event.

(** [ips] are the first [resolvedIpsSize] entries of [resolvedIps]. *)
Definition nc_stun_dns_cb (ec : np_error_code) (ips : list np_ip_address) : st_handler unit :=
  let* ctx := hget in
  if is_aborted (st_state ctx) then fail_with NABTO_EC_ABORTED
  else if is_error ec then
    hmod (fun ctx => ctx {{ st_state := NC_STUN_STATE_DONE }}) ;;; fail_with ec
  else
    let '(eps, numEps) := nc_stun_convert_ep_list ips (st_eps ctx) (st_priPort ctx) in
    hmod (fun ctx => ctx {{ st_eps := eps; st_numEps := numEps;
                            st_stun := nabto_stun_async_analyze (nabto_stun_init (take numEps eps))
                                         (st_simple ctx) }}) ;;;
    nc_stun_event.

Definition nc_stun_send_to_cb (ec : np_error_code) : st_handler unit := nc_stun_event.

Definition nc_stun_handle_timeout : st_handler unit :=
  hmod (fun ctx => ctx {{ st_stun := nabto_stun_handle_wait_event (st_stun ctx) }}) ;;; nc_stun_event.

Definition nc_stun_analysed_cb (ec : np_error_code) (res : option R) : st_handler unit :=
  let* ctx := hget in
  (if is_aborted (st_state ctx) then hmod (fun ctx => ctx {{ st_ec := NABTO_EC_ABORTED }})
   else hmod (fun ctx => ctx {{ st_state := NC_STUN_STATE_DONE; st_ec := ec; st_res := res }})) ;;;
  nc_stun_resolve_callbacks.

Definition nc_stun_get_local_port (ctx : nc_stun_context) (port : Z) : Z :=
  if negb (st_priUdp ctx) then 0 else port.

(** ** The CoAP resource for the endpoints of the device (nc_stun_coap.c) *)

Record nc_stun_coap_context : Type := mk_sc {
  sc_deinitialized : bool;
  sc_stunRequest : option nat;          (* the request that waits *)
  sc_resource : bool                    (* resource != NULL *)
}.

Inductive stun_coap_call : Type :=
| ScAddResource
| ScRemoveResource
| ScAnalyze (simple : bool)
| ScErrorResponse (request : nat) (code : Z)
| ScReady (request : nat) (code : Z) (payload : option (list cbor_token))
| ScRequestFree (request : nat).

Definition sc_handler (A : Type) : Type := handler nc_stun_coap_context stun_coap_call A.

Definition encode_ep (ep : np_udp_endpoint) : list cbor_token :=
  [TokMap; TokText (ascii_codes "Ip");
   TokBytes (match ip_type (ep_ip ep) with NABTO_IPV4 => ip_v4 (ep_ip ep) | NABTO_IPV6 => ip_v6 (ep_ip ep) end);
   TokText (ascii_codes "Port"); TokUint (ep_port ep); TokClose].

Definition nc_stun_coap_deinit : sc_handler unit :=
  let* ctx := hget in
  (if sc_resource ctx then emit ScRemoveResource ;;; hmod (fun ctx => ctx {{ sc_resource := false }}) else hskip) ;;;
  match sc_stunRequest ctx with
  | Some request => emit (ScRequestFree request) ;;; hmod (fun ctx => ctx {{ sc_stunRequest := None }})
  | None => hskip
  end ;;;
  hmod (fun ctx => ctx {{ sc_deinitialized := true }}).

(** [added]: whether the CoAP server takes the resource; [err] the error it answers if not. *)
Definition nc_stun_coap_init (added : bool) (err : np_error_code) : sc_handler np_error_code :=
  hmod (fun ctx => ctx {{ sc_stunRequest := None; sc_deinitialized := false }}) ;;;
  emit ScAddResource ;;;
  if added then hmod (fun ctx => ctx {{ sc_resource := true }}) ;;; hret NABTO_EC_OK
  else nc_stun_coap_deinit ;;; hret err.

(** [localAddrs]: the (at most two) local addresses, [localPort] that of the primary socket,
    [fits] whether the encoding fits the buffer of 128 bytes, [set] whether the payload was
    accepted. The result is dereferenced when there is no error. *)
Definition nc_rendezvous_endpoints_completed (localAddrs : list np_ip_address) (localPort : Z)
    (fits : list cbor_token -> bool) (set : bool) (ec : np_error_code) (res : option R) :
    uhandler nc_stun_coap_context stun_coap_call unit :=
  let+ ctx := ulift hget in
  if sc_deinitialized ctx then ulift hskip
  else
    let+ global := uof (if is_error ec then Def []
                        else match res with
                             | None => UB
                             | Some r => Def (encode_ep (nc_stun_convert_ep (stun_result_extEp r) zero_ep))
                             end) in
    match sc_stunRequest ctx with
    | None => fun _ => UB
    | Some request =>
        let payload := [TokArray] ++ flat_map (fun ip => encode_ep (mk_ep ip localPort)) localAddrs ++
                       global ++ [TokClose] in
        ulift ((if negb (fits payload) then emit (ScErrorResponse request (COAP_CODE 5 0))
                else if set then emit (ScReady request (COAP_CODE 2 5) (Some payload))
                else emit (ScErrorResponse request (COAP_CODE 5 0))) ;;;
               emit (ScRequestFree request) ;;;
               hmod (fun ctx => ctx {{ sc_stunRequest := None }}))
    end.

(** [started]: the answer of [nc_stun_async_analyze]. *)
Definition nc_rendezvous_handle_coap_p2p_endpoints (localAddrs : list np_ip_address) (localPort : Z)
    (fits : list cbor_token -> bool) (set : bool) (started : np_error_code) (request : nat) :
    uhandler nc_stun_coap_context stun_coap_call unit :=
  let+ ctx := ulift hget in
  match sc_stunRequest ctx with
  | Some _ => ulift (emit (ScReady request (COAP_CODE 4 12) None) ;;; emit (ScRequestFree request))
  | None =>
      let+ _ := ulift (hmod (fun ctx => ctx {{ sc_stunRequest := Some request }}) ;;; emit (ScAnalyze true)) in
      if is_error started
      then nc_rendezvous_endpoints_completed localAddrs localPort fits set started None
      else ulift hskip
  end.

(** ** The steps of the analysis *)

Inductive stun_input : Type :=
| SiAnalyze (simple : bool) (cb : nat)
| SiPacket (buffer : list Z)
| SiDns (ec : np_error_code) (ips : list np_ip_address)
| SiSent (ec : np_error_code)
| SiTimeout
| SiAnalysed (ec : np_error_code) (res : option R)
| SiSetSockets
| SiRemoveSockets
| SiSetHost (host : list Z) (port : Z)
| SiDeinit.

(** A step, with the callback it accepted. *)
Definition stun_step (i : stun_input) : st_handler (list nat) :=
  match i with
  | SiAnalyze simple cb =>
      let* ec := nc_stun_async_analyze simple cb in hret (if is_error ec then [] else [cb])
  | SiPacket b => nc_stun_handle_packet b ;;; hret []
  | SiDns ec ips => nc_stun_dns_cb ec ips ;;; hret []
  | SiSent ec => nc_stun_send_to_cb ec ;;; hret []
  | SiTimeout => nc_stun_handle_timeout ;;; hret []
  | SiAnalysed ec res => nc_stun_analysed_cb ec res ;;; hret []
  | SiSetSockets => nc_stun_set_sockets ;;; hret []
  | SiRemoveSockets => nc_stun_remove_sockets ;;; hret []
  | SiSetHost h p => nc_stun_set_host h p ;;; hret []
  | SiDeinit => nc_stun_deinit ;;; hret []
  end.

Fixpoint stun_run (inputs : list stun_input) : st_handler (list nat) :=
  match inputs with
  | [] => hret []
  | i :: rest => let* a := stun_step i in let* b := stun_run rest in hret (a ++ b)
  end.

(** The callbacks that wait, and those that were called. *)
Definition waiting (ctx : nc_stun_context) : list nat := omap id (st_cbs ctx).
Definition called (t : list stun_call) : list nat :=
  omap (fun c => match c with StCallback cb _ _ => Some cb | _ => None end) t.

(** ** Proofs *)

Lemma resolve_slots_run n : forall i ctx,
  (i + n = length (st_cbs ctx))%nat ->
  resolve_slots i n ctx =
    (tt, ctx {{ st_cbs := take i (st_cbs ctx) ++ replicate n None }},
     map (fun cb => StCallback cb (st_ec ctx) (st_res ctx)) (omap id (drop i (st_cbs ctx)))).
Proof.
  induction n as [| n IH]; intros i ctx Hlen; cbn [resolve_slots].
  { rewrite drop_ge, (take_ge (st_cbs ctx)), app_nil_r by lia. by destruct ctx. }
  assert (Hsome : exists o, st_cbs ctx !! i = Some o) by (apply lookup_lt_is_Some; lia).
  destruct Hsome as [o Ho]. rewrite (drop_S _ _ _ Ho).
  destruct o as [cb |].
  - set (c1 := ctx {{ st_cbs ::= insert i None }}).
    assert (E : st_cbs c1 = <[i := None]> (st_cbs ctx)) by by destruct ctx.
    assert (Em : (let* ctx := hget in
      match st_cbs ctx !! i with
      | Some (Some cb) =>
          hmod (fun ctx => ctx {{ st_cbs ::= insert i None }}) ;;; emit (StCallback cb (st_ec ctx) (st_res ctx))
      | _ => hskip
      end) ctx = (tt, c1, [StCallback cb (st_ec ctx) (st_res ctx)])) by by rewrite hget_seq, Ho.
    unfold hbind at 1. rewrite Em, IH by (rewrite E, length_insert; lia). rewrite E, drop_insert_lt by lia.
    assert (Et : take (S i) (<[i := None]> (st_cbs ctx)) = take i (st_cbs ctx) ++ [None]).
    { rewrite (take_S_r _ _ None) by (apply list_lookup_insert_eq; lia). by rewrite take_insert_ge by lia. }
    rewrite Et, <- app_assoc. by destruct ctx.
  - assert (Em : (let* ctx := hget in
      match st_cbs ctx !! i with
      | Some (Some cb) =>
          hmod (fun ctx => ctx {{ st_cbs ::= insert i None }}) ;;; emit (StCallback cb (st_ec ctx) (st_res ctx))
      | _ => hskip
      end) ctx = (tt, ctx, [])) by by rewrite hget_seq, Ho.
    unfold hbind at 1. rewrite Em, IH by lia. rewrite (take_S_r _ _ None) by done. by rewrite <- app_assoc.
Qed.

Definition slots_ok (ctx : nc_stun_context) : Prop := length (st_cbs ctx) = NC_STUN_MAX_CALLBACKS.

Lemma resolve_callbacks_run ctx :
  slots_ok ctx ->
  nc_stun_resolve_callbacks ctx =
    (tt, ctx {{ st_cbs := replicate NC_STUN_MAX_CALLBACKS None }},
     map (fun cb => StCallback cb (st_ec ctx) (st_res ctx)) (waiting ctx)).
Proof. intros Hs. unfold nc_stun_resolve_callbacks. by rewrite resolve_slots_run by by rewrite Hs. Qed.

(** Handlers that neither lose nor invent a callback. *)
Definition settles {A} (m : st_handler A) : Prop :=
  forall ctx, slots_ok ctx -> slots_ok (exec m ctx) /\ called (trace m ctx) ++ waiting (exec m ctx) ≡ₚ waiting ctx.

Lemma called_app t t' : called (t ++ t') = called t ++ called t'.
Proof. apply omap_app. Qed.

Lemma settles_bind {A B} (m : st_handler A) (k : A -> st_handler B) :
  settles m -> (forall a, settles (k a)) -> settles (hbind m k).
Proof.
  intros Hm Hk ctx Hs. rewrite exec_seq, trace_seq, called_app.
  destruct (Hm ctx Hs) as [Hs1 E1]. destruct (Hk (result m ctx) _ Hs1) as [Hs2 E2]. split; [done |].
  by rewrite <- app_assoc, E2.
Qed.
Lemma settles_hmod f : (forall ctx, st_cbs (f ctx) = st_cbs ctx) -> settles (hmod f).
Proof.
  intros Hf ctx Hs. unfold slots_ok, waiting, exec, trace. cbn. by rewrite Hf.
Qed.
Lemma settles_emit c : called [c] = [] -> settles (emit c).
Proof. intros Hc ctx Hs. split; [done |]. change (trace (emit c) ctx) with [c]. by rewrite Hc. Qed.
Lemma settles_hget : settles hget.
Proof. by intros ctx Hs. Qed.
Lemma settles_hret {A} (a : A) : settles (hret a).
Proof. by intros ctx Hs. Qed.
Lemma settles_skip : settles hskip.
Proof. by intros ctx Hs. Qed.
Lemma settles_op {A} (f : L -> A * L) : settles (stun_op f).
Proof.
  intros ctx Hs. unfold stun_op, exec, trace. by destruct (f (st_stun ctx)).
Qed.
Lemma settles_resolve : settles nc_stun_resolve_callbacks.
Proof.
  intros ctx Hs. unfold exec, trace. rewrite resolve_callbacks_run by done. cbn [fst snd]. split; [done |].
  assert (Hc : forall ec res l, called (map (fun cb => StCallback cb ec res) l) = l)
    by (intros ec res l; induction l; cbn; [done | by f_equal]).
  rewrite Hc. unfold waiting at 2. cbn. by rewrite app_nil_r.
Qed.
#[local] Hint Resolve settles_hget settles_hret settles_skip settles_op settles_resolve : nabto.

Ltac settle :=
  repeat first
    [ progress intros
    | solve [auto with nabto]
    | apply settles_bind
    | apply settles_emit; reflexivity
    | apply settles_hmod; intros []; reflexivity
    | case_match ].

Lemma settles_fail ec : settles (fail_with ec).
Proof. unfold fail_with. settle. Qed.
#[local] Hint Resolve settles_fail : nabto.
Lemma settles_send p : settles (send_case p).
Proof. unfold send_case. settle. Qed.
#[local] Hint Resolve settles_send : nabto.
Lemma settles_event : settles nc_stun_event.
Proof. unfold nc_stun_event. settle. Qed.
#[local] Hint Resolve settles_event : nabto.

Lemma free_slot_spec cbs i :
  free_slot cbs = Some i -> (i < length cbs)%nat /\
  forall cb, omap id (<[i := Some cb]> cbs) ≡ₚ cb :: omap id cbs.
Proof.
  revert i. induction cbs as [| [c |] cbs IH]; intros i; cbn; [done | | intros [= <-]].
  - destruct (free_slot cbs) as [j |]; [| done]. intros [= <-]. destruct (IH j eq_refl) as [Hl Hp].
    split; [lia |]. intros cb. cbn. rewrite Hp. constructor.
  - split; [lia |]. done.
Qed.

(** Accepting a callback puts it in a free slot. *)
Lemma analyze_run simple cb ctx :
  nc_stun_async_analyze simple cb ctx =
    if is_aborted (st_state ctx) then (NABTO_EC_ABORTED, ctx, [])
    else match st_hostname ctx with
         | None => (NABTO_EC_INVALID_STATE, ctx, [])
         | Some host =>
             match free_slot (st_cbs ctx) with
             | None => (NABTO_EC_UNKNOWN, ctx, [])
             | Some i =>
                 let ctx1 := ctx {{ st_cbs ::= insert i (Some cb) }} in
                 if is_running (st_state ctx) then (NABTO_EC_OK, ctx1, [])
                 else (NABTO_EC_OK, ctx1 {{ st_simple := simple; st_state := NC_STUN_STATE_RUNNING }},
                       [StDnsResolve host NC_STUN_MAX_ENDPOINTS])
             end
         end.
Proof.
  unfold nc_stun_async_analyze. rewrite hget_seq. destruct (is_aborted (st_state ctx)); [done |].
  destruct (st_hostname ctx); [| done]. destruct (free_slot (st_cbs ctx)); [| done].
  rewrite hmod_seq. by destruct (is_running (st_state ctx)).
Qed.

Lemma analyze_conserves simple cb ctx :
  slots_ok ctx ->
  let m := nc_stun_async_analyze simple cb in
  slots_ok (exec m ctx) /\ called (trace m ctx) = [] /\
  waiting (exec m ctx) ≡ₚ waiting ctx ++ (if is_error (result m ctx) then [] else [cb]).
Proof.
  intros Hs. cbv zeta. unfold exec, trace, result. rewrite analyze_run.
  assert (Hid : slots_ok ctx /\ called [] = [] /\ waiting ctx ≡ₚ waiting ctx ++ [])
    by (split; [done |]; split; [done |]; by rewrite app_nil_r).
  destruct (is_aborted (st_state ctx)); [exact Hid |]. destruct (st_hostname ctx) as [host |]; [| exact Hid].
  destruct (free_slot (st_cbs ctx)) as [i |] eqn:Ef; [| exact Hid]. destruct (free_slot_spec _ _ Ef) as [Hi Hp].
  assert (Hw : slots_ok (ctx {{ st_cbs ::= insert i (Some cb) }}) /\
    waiting (ctx {{ st_cbs ::= insert i (Some cb) }}) ≡ₚ waiting ctx ++ [cb]).
  { unfold slots_ok, waiting. change (st_cbs (ctx {{ st_cbs ::= insert i (Some cb) }})) with (<[i := Some cb]> (st_cbs ctx)).
    rewrite length_insert, Hp. split; [done |]. apply Permutation_cons_append. }
  destruct Hw as [Hw1 Hw2]. cbv zeta. destruct (is_running (st_state ctx)); cbn [fst snd is_error]; by destruct ctx.
Qed.

Lemma settles_step {A} (m : st_handler A) ctx :
  settles m -> slots_ok ctx ->
  slots_ok (exec (m ;;; hret (@nil nat)) ctx) /\
  called (trace (m ;;; hret (@nil nat)) ctx) ++ waiting (exec (m ;;; hret (@nil nat)) ctx) ≡ₚ
    waiting ctx ++ result (m ;;; hret (@nil nat)) ctx.
Proof.
  intros Hm Hs. destruct (Hm ctx Hs) as [Hok He]. rewrite exec_seq, trace_seq, called_app, app_nil_r.
  assert (Er : result (m ;;; hret (@nil nat)) ctx = []) by (unfold result, hbind; by destruct (m ctx) as [[??]?]).
  by rewrite Er, app_nil_r.
Qed.

Lemma stun_step_spec i ctx :
  slots_ok ctx ->
  slots_ok (exec (stun_step i) ctx) /\
  called (trace (stun_step i) ctx) ++ waiting (exec (stun_step i) ctx) ≡ₚ waiting ctx ++ result (stun_step i) ctx.
Proof.
  intros Hs. destruct i; cbn [stun_step]; try (apply settles_step; [| exact Hs]).
  - destruct (analyze_conserves simple cb ctx Hs) as (Hok & Hc & Hw).
    rewrite exec_seq, trace_seq, called_app, Hc. split; [exact Hok |].
    assert (Er : result (let* ec := nc_stun_async_analyze simple cb in hret (if is_error ec then [] else [cb])) ctx =
      if is_error (result (nc_stun_async_analyze simple cb) ctx) then [] else [cb])
      by (unfold result, hbind; by destruct (nc_stun_async_analyze simple cb ctx) as [[??]?]).
    by rewrite Er.
  - unfold nc_stun_handle_packet. settle.
  - unfold nc_stun_dns_cb. settle.
  - unfold nc_stun_send_to_cb. settle.
  - unfold nc_stun_handle_timeout. settle.
  - unfold nc_stun_analysed_cb. settle.
  - unfold nc_stun_set_sockets. settle.
  - unfold nc_stun_remove_sockets. settle.
  - unfold nc_stun_set_host. settle.
  - unfold nc_stun_deinit. settle.
Qed.

Lemma stun_run_spec inputs : forall ctx,
  slots_ok ctx ->
  slots_ok (exec (stun_run inputs) ctx) /\
  called (trace (stun_run inputs) ctx) ++ waiting (exec (stun_run inputs) ctx) ≡ₚ
    waiting ctx ++ result (stun_run inputs) ctx.
Proof.
  induction inputs as [| i inputs IH]; intros ctx Hs; cbn [stun_run].
  { split; [done |]. by rewrite app_nil_r. }
  destruct (stun_step_spec i ctx Hs) as [Hs1 E1]. destruct (IH _ Hs1) as [Hs2 E2].
  rewrite !exec_seq, !trace_seq, !called_app. split; [exact Hs2 |].
  assert (Er : result (let* a := stun_step i in let* b := stun_run inputs in hret (a ++ b)) ctx =
    result (stun_step i) ctx ++ result (stun_run inputs) (exec (stun_step i) ctx)).
  { unfold result, exec, hbind. destruct (stun_step i ctx) as [[??]?]. cbn. by destruct (stun_run inputs _) as [[??]?]. }
  rewrite Er. change (called (trace (hret _) _)) with (@nil nat). rewrite app_nil_r.
  change (exec (hret _) ?s) with s. rewrite <- !app_assoc, E2, !app_assoc. by rewrite E1.
Qed.

(** No callback is lost or called twice: after any sequence of requests, packets, DNS
    answers, completed sends and timeouts, each callback whose request was accepted has been
    called exactly once or waits exactly once, and no other callback was called. *)
Lemma stun_callbacks_conserved s inputs :
  called (trace (stun_run inputs) (stun_zero s)) ++ waiting (exec (stun_run inputs) (stun_zero s)) ≡ₚ
    result (stun_run inputs) (stun_zero s).
Proof. destruct (stun_run_spec inputs (stun_zero s)) as [_ E]; [by vm_compute | exact E]. Qed.

(** How an analysis ends. When the library reports the result, all waiting callbacks are
    called with it and the next request starts a new analysis. When it fails, all waiting
    callbacks are called with an error, but the state stays RUNNING: every later request is
    accepted, its callback waits, and nothing is started that could ever call it. *)
Lemma stun_outcomes ctx e s (Hs : slots_ok ctx) (Hrun : st_state ctx = NC_STUN_STATE_RUNNING)
    (He : nabto_stun_next_event_to_handle (st_stun ctx) = (e, s)) :
  (e = STUN_ET_COMPLETED ->
     let res := nabto_stun_get_result s in
     trace nc_stun_event ctx = StCancelTimeout :: map (fun cb => StCallback cb NABTO_EC_OK (Some res)) (waiting ctx) /\
     waiting (exec nc_stun_event ctx) = [] /\ st_state (exec nc_stun_event ctx) = NC_STUN_STATE_DONE) /\
  (e = STUN_ET_FAILED ->
     trace nc_stun_event ctx =
       StCancelTimeout :: map (fun cb => StCallback cb NABTO_EC_UNKNOWN (st_res ctx)) (waiting ctx) /\
     forall simple cb host, st_hostname ctx = Some host ->
       let later := nc_stun_async_analyze simple cb in
       result later (exec nc_stun_event ctx) = NABTO_EC_OK /\
       trace later (exec nc_stun_event ctx) = [] /\
       waiting (exec later (exec nc_stun_event ctx)) = [cb] /\
       st_state (exec later (exec nc_stun_event ctx)) = NC_STUN_STATE_RUNNING).
Proof.
  set (c1 := ctx {{ st_stun := s }}).
  assert (Hop : stun_op nabto_stun_next_event_to_handle ctx = (e, c1, [])) by (unfold stun_op; by rewrite He).
  assert (Hev : forall m : _ -> st_handler unit, (let* event := stun_op nabto_stun_next_event_to_handle in
      emit StCancelTimeout ;;; m event) ctx = let '(a, c, t) := m e c1 in (a, c, StCancelTimeout :: t)).
  { intros m. unfold hbind at 1. rewrite Hop. unfold hbind, emit. by destruct (m e c1) as [[??]?]. }
  split; intros ->.
  - unfold exec, trace, nc_stun_event. rewrite Hev, hmod_seq.
    rewrite resolve_callbacks_run by (by destruct ctx). by destruct ctx.
  - assert (Hrunf : nc_stun_event ctx =
      (tt, c1 {{ st_ec := NABTO_EC_UNKNOWN; st_cbs := replicate NC_STUN_MAX_CALLBACKS None }},
       StCancelTimeout :: map (fun cb => StCallback cb NABTO_EC_UNKNOWN (st_res ctx)) (waiting ctx))).
    { unfold nc_stun_event. rewrite Hev. unfold fail_with. rewrite hmod_seq.
      rewrite resolve_callbacks_run by (by destruct ctx). by destruct ctx. }
    unfold exec, trace, result. rewrite Hrunf. cbn [fst snd]. split; [done |].
    intros simple cb host Hh. cbv zeta. rewrite analyze_run. destruct ctx; cbn in Hrun, Hh; subst. done.
Qed.
End Stun.

(** ** Witnesses *)

(** A library that always fails. *)
#[local] Instance failing_stun : NabtoStun unit unit := {
  nabto_stun_init := fun _ => tt;
  nabto_stun_async_analyze := fun s _ => s;
  nabto_stun_next_event_to_handle := fun s => (STUN_ET_FAILED, s);
  nabto_stun_get_data_endpoint := fun s => (None, s);
  nabto_stun_get_send_data := fun s _ => ([], s);
  nabto_stun_get_timeout_ms := fun s => (0, s);
  nabto_stun_handle_wait_event := fun s => s;
  nabto_stun_handle_packet := fun s _ => s;
  nabto_stun_get_result := fun s => s;
  stun_result_extEp := fun _ => mk_sep true [0; 0; 0; 0] 0
}.

(** An analysis of a host is running, callback 7 waits. *)
Definition example_running : nc_stun_context (L := unit) (R := unit) :=
  exec (stun_run [SiSetHost (ascii_codes "stun") 3478; SiAnalyze true 7]) (stun_zero tt).

Lemma stun_outcomes_witness :
  trace nc_stun_event example_running = [StCancelTimeout; StCallback 7 NABTO_EC_UNKNOWN None] /\
  waiting (exec (nc_stun_async_analyze true 8) (exec nc_stun_event example_running)) = [8%nat].
Proof.
  destruct (stun_outcomes example_running STUN_ET_FAILED tt) as [_ Hf]; [reflexivity | reflexivity | reflexivity |].
  destruct (Hf eq_refl) as [Ht Hlater]. split; [exact Ht |].
  apply (Hlater true 8%nat (ascii_codes "stun") eq_refl).
Defined.
