(* ===== verification/Stream.v ===== *)
(** * Streams (nc_stream.c)

    A stream of a client connection: the user's asynchronous operations (accept, read, write,
    close), each with at most one waiting callback, and the event loop that drives the stream
    library. The library (nabto_stream of nabto-common, third-party code) is a class of
    operations on its state; the calls to other components are the trace. A callback that the
    user runs is a call of the trace; what the user does in it are steps of their own. *)

From S2P Require Import Prelude Platform Packet EventQueue.

#[local] Open Scope Z_scope.
#[local] Open Scope list_scope.
#[local] Open Scope handler_scope.

Definition NC_STREAM_SEND_BUFFER_SIZE : nat := 1150.

(** ** Interface of the stream library *)

Inductive nabto_stream_status : Type :=
| NABTO_STREAM_STATUS_OK
| NABTO_STREAM_STATUS_CLOSED
| NABTO_STREAM_STATUS_EOF
| NABTO_STREAM_STATUS_ABORTED
| NABTO_STREAM_STATUS_OTHER (code : Z).

Inductive nabto_stream_next_event_type : Type :=
| ET_ACCEPT | ET_ACK | ET_SYN | ET_SYN_ACK | ET_DATA | ET_RST | ET_TIMEOUT
| ET_APPLICATION_EVENT | ET_TIME_WAIT | ET_WAIT | ET_NOTHING | ET_RELEASED | ET_CLOSED.

Inductive nabto_stream_application_event_type : Type :=
| EVENT_TYPE_OPENED | EVENT_TYPE_DATA_READY | EVENT_TYPE_DATA_WRITE
| EVENT_TYPE_READ_CLOSED | EVENT_TYPE_WRITE_CLOSED | EVENT_TYPE_CLOSED | EVENT_TYPE_OTHER.

Inductive nabto_stream_stamp : Type :=
| STREAM_STAMP_NOW
| STREAM_STAMP_INFINITE
| STREAM_STAMP_FUTURE (stamp : Z).

(** [nabto_stream_read_buffer s n] are the status and the bytes put into a buffer of [n]
    bytes, [nabto_stream_write_buffer s data] the status and the number of bytes taken;
    [nabto_stream_dispatch_event] takes the application event for which the library calls the
    application's callback. *)
Class NabtoStream (L : Type) : Type := {
  nabto_stream_init : L;
  nabto_stream_accept : L -> L;
  nabto_stream_read_buffer : L -> nat -> nabto_stream_status * list Z * L;
  nabto_stream_write_buffer : L -> list Z -> nabto_stream_status * nat * L;
  nabto_stream_close : L -> nabto_stream_status * L;
  nabto_stream_release : L -> L;
  nabto_stream_connection_died : L -> L;
  nabto_stream_handle_packet : L -> list Z -> L;
  nabto_stream_handle_timeout : L -> L;
  nabto_stream_handle_time_wait : L -> L;
  nabto_stream_segments_available : L -> L;
  nabto_stream_dispatch_event : L -> option nabto_stream_application_event_type * L;
  nabto_stream_event_handled : L -> nabto_stream_next_event_type -> L;
  nabto_stream_next_event_to_handle : L -> nabto_stream_next_event_type * L;
  nabto_stream_next_event : L -> nabto_stream_stamp;
  nabto_stream_stamp_less : nabto_stream_stamp -> nabto_stream_stamp -> bool;
  nabto_stream_stamp_diff_now : L -> nabto_stream_stamp -> Z -> Z;
  nabto_stream_create_packet : L -> nat -> nabto_stream_next_event_type -> list Z * L;
  nabto_stream_get_content_type : L -> Z;
  nabto_stream_create_rst_packet : nat -> list Z;
  NABTO_STREAM_FLAG_SYN : Z;
  NABTO_STREAM_FLAG_RST : Z
}.

(** What the library documents of reading and writing: [stream_received s] are the bytes that
    are ready, [stream_read_end s] how the stream answers when there are none. A read takes a
    non-empty prefix that fits the buffer; a write takes a non-empty prefix unless the window
    of bytes the stream has room for is empty. Operations on no bytes are not specified. *)
Class NabtoStreamLaws (L : Type) `{NabtoStream L} : Type := {
  stream_received : L -> list Z;
  stream_read_end : L -> nabto_stream_status;
  read_buffer_spec : forall s n st data s', (0 < n)%nat ->
    nabto_stream_read_buffer s n = (st, data, s') ->
    stream_read_end s' = stream_read_end s /\
    if decide (stream_received s = [])
    then st = stream_read_end s /\ data = [] /\ stream_received s' = []
    else st = NABTO_STREAM_STATUS_OK /\ data <> [] /\ (length data <= n)%nat /\
         stream_received s = data ++ stream_received s';
  stream_window : L -> nat;
  stream_write_end : L -> nabto_stream_status;
  stream_written : L -> list Z;
  write_buffer_spec : forall s data st n s', data <> [] ->
    nabto_stream_write_buffer s data = (st, n, s') ->
    stream_write_end s' = stream_write_end s /\
    stream_written s' = stream_written s ++ take n data /\
    if decide (stream_window s = 0)%nat
    then st = stream_write_end s /\ n = 0%nat /\ stream_window s' = 0%nat
    else st = NABTO_STREAM_STATUS_OK /\ (0 < n <= length data)%nat /\
         stream_window s = (n + stream_window s')%nat
}.

Definition nc_stream_status_to_ec (status : nabto_stream_status) : np_error_code :=
  match status with
  | NABTO_STREAM_STATUS_OK => NABTO_EC_OK
  | NABTO_STREAM_STATUS_CLOSED => NABTO_EC_CLOSED
  | NABTO_STREAM_STATUS_EOF => NABTO_EC_EOF
  | NABTO_STREAM_STATUS_ABORTED => NABTO_EC_ABORTED
  | NABTO_STREAM_STATUS_OTHER _ => NABTO_EC_UNKNOWN
  end.

Definition status_ok (status : nabto_stream_status) : bool :=
  match status with NABTO_STREAM_STATUS_OK => true | _ => false end.
Definition is_some {A} (o : option A) : bool := match o with Some _ => true | None => false end.

Section Stream.
Context {L : Type} `{NabtoStream L}.

Inductive stream_op : Type := OpAccept | OpReadAll | OpReadSome | OpWrite | OpClose.

#[global] Instance stream_op_eq : EqDecision stream_op.
Proof. solve_decision. Defined.

(** A callback with its user data is a number. [ns_readMem] is the buffer of the user that
    a read fills, [ns_readBuffer] the offset of the pointer [readBuffer] in it, [ns_readLength]
    the length stored through [readLength]; [ns_writeBuffer] are the [writeBufferLength] bytes
    from [writeBuffer]. *)
Record nc_stream_context : Type := mk_stream {
  ns_stream : L;
  ns_streamId : Z;
  ns_dtls : bool;                            (* dtls != NULL *)
  ns_active : bool;
  ns_connectionRef : Z;
  ns_currentExpiry : nabto_stream_stamp;
  ns_negativeCount : Z;
  ns_acceptCb : option nat;
  ns_readAllCb : option nat;
  ns_readSomeCb : option nat;
  ns_readMem : list Z;
  ns_readBuffer : nat;
  ns_readLength : nat;
  ns_readBufferLength : nat;
  ns_writeCb : option nat;
  ns_writeBuffer : list Z;
  ns_closeCb : option nat;
  ns_isSending : bool;
  ns_sendEventType : nabto_stream_next_event_type
}.

Inductive stream_call : Type :=
| SmPostEvent                                     (* post_maybe_double of ev *)
| SmPostTimer (ms : Z)
| SmCancelTimer
| SmDestroyEvents
| SmReadyForAccept (type : Z)                     (* the listener of the type gets the stream *)
| SmDtlsSend (packet : list Z)
| SmCallback (op : stream_op) (cb : nat) (ec : np_error_code).

Definition sm_handler (A : Type) : Type := handler nc_stream_context stream_call A.
Definition sm_uhandler (A : Type) : Type := uhandler nc_stream_context stream_call A.

Definition stream_lib (f : L -> L) : sm_handler unit :=
  hmod (fun ctx => ctx {{ ns_stream ::= f }}).
Definition stream_get {A} (f : L -> A * L) : sm_handler A := fun ctx =>
  let '(a, s) := f (ns_stream ctx) in (a, ctx {{ ns_stream := s }}, []).

(** ** Operations of the user *)

(** [nc_stream_resolve_read]. *)
Definition nc_stream_resolve_read (ec : np_error_code) : sm_handler unit :=
  hmod (fun ctx => ctx {{ ns_readBuffer := 0%nat; ns_readBufferLength := 0%nat }}) ;;;
  let* ctx := hget in
  match ns_readAllCb ctx with
  | Some cb => hmod (fun ctx => ctx {{ ns_readAllCb := None }}) ;;; emit (SmCallback OpReadAll cb ec)
  | None =>
      match ns_readSomeCb ctx with
      | Some cb => hmod (fun ctx => ctx {{ ns_readSomeCb := None }}) ;;; emit (SmCallback OpReadSome cb ec)
      | None => hskip
      end
  end.

(** The pointers that [nc_stream_do_read] moves. *)
Definition read_advance (data : list Z) (ctx : nc_stream_context) : nc_stream_context :=
  ctx {{ ns_readMem ::= fun mem => memcpy mem (ns_readBuffer ctx) data;
         ns_readLength ::= fun n => (n + length data)%nat;
         ns_readBuffer ::= fun n => (n + length data)%nat;
         ns_readBufferLength ::= fun n => (n - length data)%nat }}.

(** The recursion of [nc_stream_do_read], at most [fuel] times; each round fills at least one
    byte of the buffer, so [readBufferLength] rounds are enough. *)
Fixpoint do_read_loop (fuel : nat) : sm_handler unit :=
  let* ctx := hget in
  if negb (is_some (ns_readAllCb ctx)) && negb (is_some (ns_readSomeCb ctx)) then hskip
  else
    let* r := stream_get (fun s => nabto_stream_read_buffer s (ns_readBufferLength ctx)) in
    let '(status, data) := r in
    if negb (status_ok status) then nc_stream_resolve_read (nc_stream_status_to_ec status)
    else if (length data =? 0)%nat then hskip
    else
      hmod (read_advance data) ;;;
      let* ctx := hget in
      if is_some (ns_readAllCb ctx) then
        if (ns_readBufferLength ctx =? 0)%nat then nc_stream_resolve_read NABTO_EC_OK
        else match fuel with O => hskip | S fuel => do_read_loop fuel end
      else nc_stream_resolve_read NABTO_EC_OK.

Definition nc_stream_do_read : sm_handler unit :=
  let* ctx := hget in do_read_loop (ns_readBufferLength ctx).

Definition resolve_write (ec : np_error_code) : sm_handler unit :=
  let* ctx := hget in
  match ns_writeCb ctx with
  | Some cb => hmod (fun ctx => ctx {{ ns_writeCb := None }}) ;;; emit (SmCallback OpWrite cb ec)
  | None => hskip
  end.

(** The recursion of [nc_stream_do_write_all]; each round writes at least one byte. Its callers
    have checked that there is a callback. *)
Fixpoint do_write_loop (fuel : nat) : sm_handler unit :=
  let* ctx := hget in
  let* r := stream_get (fun s => nabto_stream_write_buffer s (ns_writeBuffer ctx)) in
  let '(status, written) := r in
  if negb (status_ok status) then resolve_write (nc_stream_status_to_ec status)
  else if (written =? 0)%nat then hskip
  else if (written =? length (ns_writeBuffer ctx))%nat then resolve_write NABTO_EC_OK
  else
    hmod (fun ctx => ctx {{ ns_writeBuffer ::= drop written }}) ;;;
    match fuel with O => hskip | S fuel => do_write_loop fuel end.

Definition nc_stream_do_write_all : sm_handler unit :=
  let* ctx := hget in do_write_loop (length (ns_writeBuffer ctx)).

Definition stream_resolve_close (ec : np_error_code) : sm_handler unit :=
  let* ctx := hget in
  match ns_closeCb ctx with
  | Some cb => hmod (fun ctx => ctx {{ ns_closeCb := None }}) ;;; emit (SmCallback OpClose cb ec)
  | None => hskip
  end.

Definition nc_stream_handle_close : sm_handler unit :=
  let* ctx := hget in
  if negb (is_some (ns_closeCb ctx)) then hskip
  else
    let* status := stream_get nabto_stream_close in
    match status with
    | NABTO_STREAM_STATUS_OK => hskip
    | NABTO_STREAM_STATUS_CLOSED => stream_resolve_close NABTO_EC_OK
    | _ => stream_resolve_close (nc_stream_status_to_ec status)
    end.

Definition resolve_accept (ec : np_error_code) : sm_handler unit :=
  let* ctx := hget in
  match ns_acceptCb ctx with
  | Some cb => hmod (fun ctx => ctx {{ ns_acceptCb := None }}) ;;; emit (SmCallback OpAccept cb ec)
  | None => hskip
  end.

Definition nc_stream_accept : sm_handler unit := stream_lib nabto_stream_accept.

Definition nc_stream_async_accept (cb : nat) : sm_handler np_error_code :=
  let* ctx := hget in
  if is_some (ns_acceptCb ctx) then hret NABTO_EC_OPERATION_IN_PROGRESS
  else
    hmod (fun ctx => ctx {{ ns_acceptCb := Some cb }}) ;;;
    stream_lib nabto_stream_accept ;;;
    hret NABTO_EC_OK.

(** [buffer] is the user's buffer of [bufferLength] bytes. *)
Definition set_read (buffer : list Z) (ctx : nc_stream_context) : nc_stream_context :=
  ctx {{ ns_readMem := buffer; ns_readBuffer := 0%nat; ns_readBufferLength := length buffer;
         ns_readLength := 0%nat }}.

Definition nc_stream_async_read_all (buffer : list Z) (cb : nat) : sm_handler np_error_code :=
  let* ctx := hget in
  if is_some (ns_readAllCb ctx) || is_some (ns_readSomeCb ctx) then hret NABTO_EC_OPERATION_IN_PROGRESS
  else
    hmod (fun ctx => ctx {{ ns_readAllCb := Some cb }}) ;;;
    hmod (set_read buffer) ;;;
    nc_stream_do_read ;;;
    hret NABTO_EC_OK.

Definition nc_stream_async_read_some (buffer : list Z) (cb : nat) : sm_handler np_error_code :=
  let* ctx := hget in
  if is_some (ns_readAllCb ctx) || is_some (ns_readSomeCb ctx) then hret NABTO_EC_OPERATION_IN_PROGRESS
  else
    hmod (fun ctx => ctx {{ ns_readSomeCb := Some cb }}) ;;;
    hmod (set_read buffer) ;;;
    nc_stream_do_read ;;;
    hret NABTO_EC_OK.

Definition nc_stream_async_write (buffer : list Z) (cb : nat) : sm_handler np_error_code :=
  let* ctx := hget in
  if is_some (ns_writeCb ctx) then hret NABTO_EC_OPERATION_IN_PROGRESS
  else
    hmod (fun ctx => ctx {{ ns_writeCb := Some cb; ns_writeBuffer := buffer }}) ;;;
    nc_stream_do_write_all ;;;
    hret NABTO_EC_OK.

Definition nc_stream_async_close (cb : nat) : sm_handler np_error_code :=
  let* ctx := hget in
  if is_some (ns_closeCb ctx) then hret NABTO_EC_OPERATION_IN_PROGRESS
  else
    hmod (fun ctx => ctx {{ ns_closeCb := Some cb }}) ;;;
    nc_stream_handle_close ;;;
    hret NABTO_EC_OK.

Definition nc_stream_abort : sm_handler unit := stream_lib nabto_stream_release.
Definition nc_stream_release : sm_handler unit := stream_lib nabto_stream_release.

Definition nc_stream_application_event_callback (eventType : nabto_stream_application_event_type) :
    sm_handler unit :=
  let* ctx := hget in
  match eventType with
  | EVENT_TYPE_OPENED => resolve_accept NABTO_EC_OK
  | EVENT_TYPE_DATA_READY => nc_stream_do_read
  | EVENT_TYPE_DATA_WRITE => if is_some (ns_writeCb ctx) then nc_stream_do_write_all else hskip
  | EVENT_TYPE_READ_CLOSED => nc_stream_do_read
  | EVENT_TYPE_WRITE_CLOSED => stream_resolve_close NABTO_EC_OK
  | EVENT_TYPE_CLOSED =>
      (if is_some (ns_writeCb ctx) then nc_stream_do_write_all else hskip) ;;;
      resolve_accept NABTO_EC_ABORTED ;;;
      nc_stream_do_read ;;;
      nc_stream_handle_close
  | EVENT_TYPE_OTHER => hskip
  end.

(** ** Life cycle *)

(** [created]: the answers of the two [np_event_queue_create_event]. *)
Definition nc_stream_init (streamId : Z) (connectionRef : Z) (created : list np_error_code) :
    sm_handler np_error_code :=
  match List.find is_error created with
  | Some ec => hret ec
  | None =>
      hmod (fun ctx => ctx {{ ns_active := true; ns_dtls := true; ns_streamId := streamId;
                              ns_currentExpiry := STREAM_STAMP_INFINITE; ns_isSending := false;
                              ns_connectionRef := connectionRef; ns_stream := nabto_stream_init }}) ;;;
      hret NABTO_EC_OK
  end.

Definition abort_callback (op : stream_op) (cb : option nat) : sm_handler unit :=
  match cb with Some cb => emit (SmCallback op cb NABTO_EC_ABORTED) | None => hskip end.

Definition nc_stream_destroy : sm_handler unit :=
  let* ctx := hget in
  if negb (ns_active ctx) then hskip
  else
    abort_callback OpAccept (ns_acceptCb ctx) ;;;
    abort_callback OpReadAll (ns_readAllCb ctx) ;;;
    abort_callback OpReadSome (ns_readSomeCb ctx) ;;;
    abort_callback OpWrite (ns_writeCb ctx) ;;;
    abort_callback OpClose (ns_closeCb ctx) ;;;
    hmod (fun ctx => ctx {{ ns_active := false; ns_dtls := false; ns_streamId := 0 }}) ;;;
    emit SmDestroyEvents.

(** ** The event loop *)



(** [diff] is an [int32_t]; [diff += 2] overflows for the two largest values. *)
Definition nc_stream_handle_wait (now : Z) : sm_uhandler unit :=
  let+ ctx := ulift hget in
  let nextStamp := nabto_stream_next_event (ns_stream ctx) in
  match nextStamp with
  | STREAM_STAMP_NOW => ulift hskip
  | STREAM_STAMP_INFINITE => ulift hskip
  | STREAM_STAMP_FUTURE _ =>
      if nabto_stream_stamp_less nextStamp (ns_currentExpiry ctx) then
        let diff := nabto_stream_stamp_diff_now (ns_stream ctx) nextStamp now in
        let count := if diff <? 0 then u32 (ns_negativeCount ctx + 1) else 0 in
        let diff := if (diff <? 0) && (1000 <? count) then 100 else diff in
        let+ _ := ulift (hmod (fun ctx => ctx {{ ns_currentExpiry := nextStamp; ns_negativeCount := count }})) in
        let+ ms := uof (if (diff + 2) <? 2 ^ 31 then Def (u32 (diff + 2)) else UB) in
        ulift (emit (SmPostTimer ms))
      else ulift hskip
  end.

(** [nc_stream_send_packet] with a connection; [sent] is the answer of [async_send_data]. *)
Definition send_packet_dtls (eventType : nabto_stream_next_event_type) (sent : np_error_code) :
    sm_handler unit :=
  let* ctx := hget in
  if ns_isSending ctx then hskip
  else
    hmod (fun ctx => ctx {{ ns_isSending := true; ns_sendEventType := eventType }}) ;;;
    let header := AT_STREAM :: var_uint_write_forward (ns_streamId ctx) in
    let* packet := stream_get (fun s =>
      nabto_stream_create_packet s (NC_STREAM_SEND_BUFFER_SIZE - length header) eventType) in
    if (length packet =? 0)%nat then hmod (fun ctx => ctx {{ ns_isSending := false }})
    else
      emit (SmDtlsSend (header ++ packet)) ;;;
      if is_error sent then
        stream_lib (fun s => nabto_stream_event_handled s eventType) ;;; emit SmPostEvent
      else hskip.

Definition is_send_event (e : nabto_stream_next_event_type) : bool :=
  match e with ET_ACK | ET_SYN | ET_SYN_ACK | ET_DATA | ET_RST => true | _ => false end.

(** The end of [nc_stream_event]. *)
Definition event_done (e : nabto_stream_next_event_type) : sm_handler unit :=
  stream_lib (fun s => nabto_stream_event_handled s e) ;;; emit SmPostEvent.

Section Event.
(** The content types that have a listener, the time, the answer of the DTLS module. *)
Context (listening : Z -> bool) (now : Z) (sent : np_error_code).

Definition ready_for_accept : sm_handler unit :=
  let* ctx := hget in
  let type := nabto_stream_get_content_type (ns_stream ctx) in
  if listening type then emit (SmReadyForAccept type) else stream_lib nabto_stream_release.

(** [nc_stream_event]. Without a connection [nc_stream_send_packet] calls it again, at most
    [depth] times; deeper recursion has no defined meaning in C. *)
Fixpoint nc_stream_event (depth : nat) : sm_uhandler unit :=
  let+ _ := ulift (stream_lib nabto_stream_segments_available) in
  let+ eventType := ulift (stream_get nabto_stream_next_event_to_handle) in
  match eventType with
  | ET_ACCEPT => ulift (ready_for_accept ;;; event_done eventType)
  | ET_ACK | ET_SYN | ET_SYN_ACK | ET_DATA | ET_RST =>
      let+ ctx := ulift hget in
      if ns_dtls ctx then ulift (send_packet_dtls eventType sent)
      else
        let+ _ := ulift (stream_lib (fun s => nabto_stream_event_handled s eventType)) in
        match depth with O => fun _ => UB | S depth => nc_stream_event depth end
  | ET_TIMEOUT => ulift (stream_lib nabto_stream_handle_timeout ;;; event_done eventType)
  | ET_APPLICATION_EVENT =>
      ulift (let* e := stream_get nabto_stream_dispatch_event in
             match e with Some e => nc_stream_application_event_callback e | None => hskip end ;;;
             event_done eventType)
  | ET_TIME_WAIT => ulift (stream_lib nabto_stream_handle_time_wait ;;; event_done eventType)
  | ET_WAIT => nc_stream_handle_wait now
  | ET_NOTHING => ulift hskip
  | ET_RELEASED => ulift nc_stream_destroy
  | ET_CLOSED => ulift (emit SmCancelTimer)
  end.

Definition nc_stream_handle_timeout (depth : nat) : sm_uhandler unit :=
  let+ _ := ulift (hmod (fun ctx => ctx {{ ns_currentExpiry := STREAM_STAMP_INFINITE }})) in
  nc_stream_event depth.

Definition nc_stream_handle_packet (depth : nat) (buffer : list Z) : sm_uhandler unit :=
  let+ _ := ulift (stream_lib (fun s => nabto_stream_handle_packet s buffer)) in
  nc_stream_event depth.

Definition nc_stream_handle_connection_closed (depth : nat) : sm_uhandler unit :=
  let+ _ := ulift (hmod (fun ctx => ctx {{ ns_dtls := false }})) in
  let+ _ := ulift (stream_lib nabto_stream_connection_died) in
  nc_stream_event depth.

Definition nc_stream_dtls_send_callback (depth : nat) : sm_uhandler unit :=
  let+ _ := ulift (hmod (fun ctx => ctx {{ ns_isSending := false }})) in
  let+ ctx := ulift hget in
  let+ _ := ulift (stream_lib (fun s => nabto_stream_event_handled s (ns_sendEventType ctx))) in
  nc_stream_event depth.
End Event.

Definition nc_stream_event_callback : sm_handler unit := emit SmPostEvent.

(** ** Reading and writing *)

Lemma memcpy_nil (mem : list Z) o : memcpy mem o [] = mem.
Proof. unfold memcpy. rewrite Nat.add_0_r. apply take_drop. Qed.

Lemma memcpy_app (mem : list Z) o a b :
  (o <= length mem)%nat -> memcpy (memcpy mem o a) (o + length a) b = memcpy mem o (a ++ b).
Proof.
  intros Ho. unfold memcpy. rewrite length_app.
  rewrite (take_app_ge (take o mem)) by (rewrite length_take; lia).
  rewrite length_take, (Nat.min_l _ _ Ho). replace (o + length a - o)%nat with (length a) by lia.
  rewrite take_app_length, <- !app_assoc. do 3 f_equal.
  rewrite drop_app_ge by (rewrite length_take; lia). rewrite length_take, (Nat.min_l _ _ Ho).
  rewrite drop_app_ge by lia. rewrite drop_drop. f_equal. lia.
Qed.

Lemma read_advance_nil ctx : read_advance [] ctx = ctx.
Proof.
  destruct ctx. unfold read_advance. cbn -[memcpy Nat.sub]. unfold constant, apply_update. cbn -[memcpy Nat.sub].
  by rewrite memcpy_nil, !Nat.add_0_r, Nat.sub_0_r.
Qed.

Lemma read_advance_app a b ctx :
  (ns_readBuffer ctx <= length (ns_readMem ctx))%nat ->
  read_advance b (read_advance a ctx) = read_advance (a ++ b) ctx.
Proof.
  intros Ho. destruct ctx. unfold read_advance. cbn -[memcpy Nat.sub] in *.
  unfold constant, apply_update. cbn -[memcpy Nat.sub].
  rewrite memcpy_app, length_app by done. f_equal; lia.
Qed.

Section Laws.
Context `{!NabtoStreamLaws L}.

(** One call of the library in a read. *)
Lemma read_round ctx fuel cb :
  ns_readAllCb ctx = Some cb -> (0 < ns_readBufferLength ctx)%nat ->
  exists st data s,
    nabto_stream_read_buffer (ns_stream ctx) (ns_readBufferLength ctx) = (st, data, s) /\
    do_read_loop fuel ctx =
      let c1 := ctx {{ ns_stream := s }} in
      if negb (status_ok st) then nc_stream_resolve_read (nc_stream_status_to_ec st) c1
      else if (length data =? 0)%nat then (tt, c1, [])
      else
        let c2 := read_advance data c1 in
        if (ns_readBufferLength c2 =? 0)%nat then nc_stream_resolve_read NABTO_EC_OK c2
        else match fuel with O => (tt, c2, []) | S fuel => do_read_loop fuel c2 end.
Proof.
  intros Hcb Hlen. destruct (nabto_stream_read_buffer (ns_stream ctx) (ns_readBufferLength ctx)) as [[st data] s] eqn:E.
  exists st, data, s. split; [done |].
  assert (Hg : stream_get (fun s => nabto_stream_read_buffer s (ns_readBufferLength ctx)) ctx =
    ((st, data), ctx {{ ns_stream := s }}, [])) by (unfold stream_get; by rewrite E).
  assert (Hk : forall k : _ -> sm_handler unit,
    (let* r := stream_get (fun s => nabto_stream_read_buffer s (ns_readBufferLength ctx)) in k r) ctx =
    k (st, data) (ctx {{ ns_stream := s }})).
  { intros k. unfold hbind. rewrite Hg. by destruct (k _ _) as [[??]?]. }
  destruct fuel as [| fuel]; cbn [do_read_loop]; rewrite hget_seq, Hcb; cbn [is_some negb andb]; rewrite Hk; cbv zeta;
    (destruct (negb (status_ok st)); [done |]; destruct (length data =? 0)%nat; [done |]);
    rewrite hmod_seq, hget_seq;
    assert (Ha : ns_readAllCb (read_advance data (ctx {{ ns_stream := s }})) = Some cb) by (by destruct ctx);
    rewrite Ha; cbn [is_some]; by case_match.
Qed.

(** Reading into a buffer that wants all its bytes moves as many of the bytes that are ready
    as fit, in however many pieces the library hands them out. *)
Lemma do_read_all_run fuel : forall ctx cb,
  ns_readAllCb ctx = Some cb -> (0 < ns_readBufferLength ctx <= S fuel)%nat ->
  (ns_readBuffer ctx + ns_readBufferLength ctx = length (ns_readMem ctx))%nat ->
  let d := stream_received (ns_stream ctx) in
  let e := stream_read_end (ns_stream ctx) in
  let n := ns_readBufferLength ctx in
  exists s, stream_received s = drop n d /\ stream_read_end s = e /\
  let c1 := (read_advance (take n d) ctx) {{ ns_stream := s }} in
  do_read_loop fuel ctx =
    if (n <=? length d)%nat then nc_stream_resolve_read NABTO_EC_OK c1
    else if status_ok e then (tt, c1, [])
    else nc_stream_resolve_read (nc_stream_status_to_ec e) c1.
Proof.
  induction fuel as [fuel IH] using lt_wf_ind. intros ctx cb Hcb Hlen Hmem. cbv zeta.
  destruct (read_round ctx fuel cb Hcb (proj1 Hlen)) as (st & data & s & Er & Eq). rewrite Eq. cbv zeta. clear Eq.
  destruct (read_buffer_spec _ _ _ _ _ (proj1 Hlen) Er) as [He Hd].
  destruct (decide (stream_received (ns_stream ctx) = [])) as [Hnil | Hnn].
  - destruct Hd as (-> & -> & Hr). exists s. rewrite Hnil, drop_nil, take_nil, !read_advance_nil. do 2 (split; [done |]).
    cbn [length]. replace (ns_readBufferLength ctx <=? 0)%nat with false by (symmetry; apply Nat.leb_gt; lia).
    destruct (status_ok (stream_read_end (ns_stream ctx))); cbn [negb]; done.
  - destruct Hd as (-> & Hdn & Hdl & Hrec). cbn [status_ok negb].
    destruct data as [| x data']; [done |]. set (data := x :: data') in *.
    change (length data =? 0)%nat with false.
    set (c2 := read_advance data (ctx {{ ns_stream := s }})).
    assert (E2 : ns_readAllCb c2 = Some cb /\ ns_readBufferLength c2 = (ns_readBufferLength ctx - length data)%nat /\
      ns_readBuffer c2 = (ns_readBuffer ctx + length data)%nat /\ ns_stream c2 = s /\
      ns_readMem c2 = memcpy (ns_readMem ctx) (ns_readBuffer ctx) data) by (by destruct ctx).
    destruct E2 as (Ec & El & Eb & Es & Em). rewrite El, Hrec.
    destruct (Nat.eqb_spec (ns_readBufferLength ctx - length data) 0) as [E0 | E0].
    + assert (Hl : ns_readBufferLength ctx = length data) by lia.
      exists s. rewrite Hl, drop_app_length, take_app_length, length_app.
      replace (length data <=? length data + length (stream_received s))%nat with true by (symmetry; apply Nat.leb_le; lia).
      do 2 (split; [done |]). unfold c2. by destruct ctx.
    + assert (Hf : (0 < fuel)%nat) by (cbn in *; lia). destruct fuel as [| fuel]; [lia |].
      assert (Hml : length (ns_readMem c2) = length (ns_readMem ctx)) by (rewrite Em; apply memcpy_length; lia).
      destruct (IH fuel ltac:(lia) c2 cb Ec) as (s2 & Hs2 & He2 & Eq2);
        [rewrite El; cbn in *; lia | rewrite Eb, El, Hml; lia |].
      rewrite Es, El in *. exists s2.
      rewrite drop_app_ge, take_app_ge, length_app by lia.
      split; [done |]. split; [by rewrite He2, He |].
      assert (Ec1 : (read_advance (take (ns_readBufferLength ctx - length data) (stream_received s)) c2) {{ ns_stream := s2 }} =
        (read_advance (data ++ take (ns_readBufferLength ctx - length data) (stream_received s)) ctx) {{ ns_stream := s2 }}).
      { unfold c2. rewrite read_advance_app by (destruct ctx; cbn in *; lia). by destruct ctx. }
      rewrite Ec1 in Eq2. rewrite Eq2, He.
      replace (ns_readBufferLength ctx <=? length data + length (stream_received s))%nat
        with (ns_readBufferLength ctx - length data <=? length (stream_received s))%nat; [done |].
      apply Bool.eq_iff_eq_true. rewrite !Nat.leb_le. lia.
Qed.

(** A read of all bytes that has got [got] so far. *)
Definition reading (cb : nat) (buffer got : list Z) (ctx : nc_stream_context) : Prop :=
  ns_readAllCb ctx = Some cb /\ ns_readSomeCb ctx = None /\ (length got < length buffer)%nat /\
  ns_readMem ctx = got ++ drop (length got) buffer /\
  ns_readBuffer ctx = length got /\ ns_readLength ctx = length got /\
  ns_readBufferLength ctx = (length buffer - length got)%nat.

(** No read waits; the buffer and the length of the last one are [mem] and [n]. *)
Definition read_over (mem : list Z) (n : nat) (ctx : nc_stream_context) : Prop :=
  ns_readAllCb ctx = None /\ ns_readSomeCb ctx = None /\ ns_readMem ctx = mem /\ ns_readLength ctx = n.

Lemma resolve_read_all ec ctx cb :
  ns_readAllCb ctx = Some cb ->
  nc_stream_resolve_read ec ctx =
    (tt, ctx {{ ns_readBuffer := 0%nat; ns_readBufferLength := 0%nat; ns_readAllCb := None }},
     [SmCallback OpReadAll cb ec]).
Proof.
  intros Hcb. unfold nc_stream_resolve_read. rewrite hmod_seq, hget_seq. destruct ctx. cbn in Hcb. subst. done.
Qed.

Lemma do_read_idle ctx :
  ns_readAllCb ctx = None -> ns_readSomeCb ctx = None -> nc_stream_do_read ctx = (tt, ctx, []).
Proof.
  intros E1 E2. unfold nc_stream_do_read. rewrite hget_seq.
  destruct (ns_readBufferLength ctx); cbn [do_read_loop]; by rewrite hget_seq, E1, E2.
Qed.

(** One read of a waiting request: the bytes that are ready come after those already there. *)
Lemma reading_step cb buffer got ctx :
  reading cb buffer got ctx ->
  let d := stream_received (ns_stream ctx) in
  let e := stream_read_end (ns_stream ctx) in
  let m := nc_stream_do_read in
  if (length buffer <=? length (got ++ d))%nat
  then read_over (take (length buffer) (got ++ d)) (length buffer) (exec m ctx) /\
       trace m ctx = [SmCallback OpReadAll cb NABTO_EC_OK]
  else if status_ok e then reading cb buffer (got ++ d) (exec m ctx) /\ trace m ctx = []
  else read_over ((got ++ d) ++ drop (length (got ++ d)) buffer) (length (got ++ d)) (exec m ctx) /\
       trace m ctx = [SmCallback OpReadAll cb (nc_stream_status_to_ec e)].
Proof.
  intros (Ha & Hso & Hlt & Hmem & Hb & Hl & Hn). cbv zeta. unfold exec, trace, nc_stream_do_read. rewrite hget_seq.
  destruct (do_read_all_run (ns_readBufferLength ctx) ctx cb Ha) as (s & Hs & He & Eq).
  { lia. }
  { rewrite Hb, Hn, Hmem, length_app, length_drop. lia. }
  rewrite Hn in *. rewrite Eq. clear Eq.
  set (d := stream_received (ns_stream ctx)) in *. set (k := (length buffer - length got)%nat) in *.
  set (c1 := (read_advance (take k d) ctx) {{ ns_stream := s }}).
  assert (E1 : ns_readAllCb c1 = Some cb /\ ns_readSomeCb c1 = None /\
    ns_readMem c1 = got ++ take k d ++ drop (length got + length (take k d)) buffer /\
    ns_readBuffer c1 = (length got + length (take k d))%nat /\
    ns_readLength c1 = (length got + length (take k d))%nat /\
    ns_readBufferLength c1 = (k - length (take k d))%nat).
  { assert (Em : memcpy (ns_readMem ctx) (ns_readBuffer ctx) (take k d) =
      got ++ take k d ++ drop (length got + length (take k d)) buffer).
    { rewrite Hmem, Hb. unfold memcpy. rewrite take_app_length. do 2 f_equal.
      rewrite drop_app_ge by lia. rewrite drop_drop. f_equal. lia. }
    rewrite <- Em, <- Hl, <- Hn. rewrite Hb in *. rewrite <- Hl. destruct ctx. cbn in *. by subst. }
  destruct E1 as (Ea1 & Eo1 & Em1 & Eb1 & El1 & En1).
  assert (Hlk : length (take k d) = Nat.min k (length d)) by apply length_take.
  rewrite !length_app.
  destruct (Nat.leb_spec k (length d)) as [Hk | Hk].
  - replace (length buffer <=? length got + length d)%nat with true by (symmetry; apply Nat.leb_le; lia).
    rewrite (resolve_read_all _ _ _ Ea1). split; [| done]. cbn [fst snd].
    split; [by destruct c1 |]. split; [by destruct c1 |].
    split; [transitivity (ns_readMem c1); [by destruct c1 |] | transitivity (ns_readLength c1); [by destruct c1 | lia]].
    rewrite Em1. rewrite drop_ge by lia. rewrite app_nil_r, take_app_ge by lia. done.
  - replace (length buffer <=? length got + length d)%nat with false by (symmetry; apply Nat.leb_gt; lia).
    rewrite (take_ge d) in * by lia.
    destruct (status_ok (stream_read_end (ns_stream ctx))).
    + split; [| done]. cbn [fst snd]. unfold reading. rewrite length_app, Em1, <- app_assoc. repeat split; try done; lia.
    + rewrite (resolve_read_all _ _ _ Ea1). split; [| done]. cbn [fst snd].
      split; [by destruct c1 |]. split; [by destruct c1 |].
      split; [transitivity (ns_readMem c1); [by destruct c1 |] | transitivity (ns_readLength c1); [by destruct c1 | lia]].
      by rewrite Em1, <- app_assoc.
Qed.

(** The library goes from state to state and reports each time that data is ready. *)
Fixpoint data_ready (ss : list L) : sm_handler unit :=
  match ss with
  | [] => hskip
  | s :: ss =>
      hmod (fun ctx => ctx {{ ns_stream := s }}) ;;;
      nc_stream_application_event_callback EVENT_TYPE_DATA_READY ;;;
      data_ready ss
  end.

Lemma data_ready_cons s ss ctx :
  data_ready (s :: ss) ctx = (nc_stream_do_read ;;; data_ready ss) (ctx {{ ns_stream := s }}).
Proof.
  cbn [data_ready]. rewrite hmod_seq. unfold hbind, nc_stream_application_event_callback.
  by rewrite hget_seq.
Qed.

Lemma data_ready_over ss : forall ctx mem n,
  read_over mem n ctx -> read_over mem n (exec (data_ready ss) ctx) /\ trace (data_ready ss) ctx = [].
Proof.
  induction ss as [| s ss IH]; intros ctx mem n Ho; [done |].
  assert (Ho1 : read_over mem n (ctx {{ ns_stream := s }})) by (by destruct ctx).
  assert (E : data_ready (s :: ss) ctx = data_ready ss (ctx {{ ns_stream := s }})).
  { rewrite data_ready_cons. unfold hbind. rewrite do_read_idle by apply Ho1. by destruct (data_ready ss _) as [[??]?]. }
  unfold exec, trace. rewrite E. by apply IH.
Qed.

Lemma data_ready_run cb buffer ss : forall got ctx,
  reading cb buffer got ctx -> Forall (fun s => status_ok (stream_read_end s) = true) ss ->
  let d := got ++ concat (map stream_received ss) in
  if (length buffer <=? length d)%nat
  then read_over (take (length buffer) d) (length buffer) (exec (data_ready ss) ctx) /\
       trace (data_ready ss) ctx = [SmCallback OpReadAll cb NABTO_EC_OK]
  else reading cb buffer d (exec (data_ready ss) ctx) /\ trace (data_ready ss) ctx = [].
Proof.
  induction ss as [| s ss IH]; intros got ctx Hr He; cbv zeta.
  { cbn [map concat]. rewrite app_nil_r. destruct Hr as (? & ? & Hlt & ?).
    by replace (length buffer <=? length got)%nat with false by (symmetry; apply Nat.leb_gt; lia). }
  inversion He as [| ? ? He1 He2]; subst. cbn [map concat]. rewrite app_assoc.
  assert (Hr1 : reading cb buffer got (ctx {{ ns_stream := s }})) by (by destruct ctx).
  unfold exec, trace. rewrite data_ready_cons. fold (exec (nc_stream_do_read ;;; data_ready ss) (ctx {{ ns_stream := s }})).
  fold (trace (nc_stream_do_read ;;; data_ready ss) (ctx {{ ns_stream := s }})).
  rewrite exec_seq, trace_seq. replace (result nc_stream_do_read (ctx {{ ns_stream := s }})) with tt by (by destruct (result _ _)).
  pose proof (reading_step _ _ _ _ Hr1) as Hs. cbv zeta in Hs.
  assert (Es : ns_stream (ctx {{ ns_stream := s }}) = s) by (by destruct ctx). rewrite Es, He1 in Hs.
  set (d1 := got ++ stream_received s) in *. set (rest := concat (map stream_received ss)).
  destruct (Nat.leb_spec (length buffer) (length d1)) as [Hle | Hgt].
  - destruct Hs as [Ho Ht]. destruct (data_ready_over ss _ _ _ Ho) as [Ho2 Ht2]. rewrite Ht, Ht2.
    rewrite length_app. replace (length buffer <=? length d1 + length rest)%nat with true by (symmetry; apply Nat.leb_le; lia).
    by rewrite take_app_le by lia.
  - destruct Hs as [Hr2 Ht]. rewrite Ht. exact (IH _ _ Hr2 He2).
Qed.

(** C35. A read of all bytes gets exactly the first bytes of the stream: however the bytes arrive, its
    callback is called once, with NABTO_EC_OK, when as many as the buffer has room for have
    arrived, and the buffer then holds the first of them in order; before that it waits with
    all that have arrived. When the stream ends first, it is called once with that end, and
    the bytes before the end are in the buffer. *)
Theorem stream_read_all_exact ctx buffer cb ss
    (Hidle : ns_readAllCb ctx = None /\ ns_readSomeCb ctx = None) (Hlen : (0 < length buffer)%nat)
    (Hopen : Forall (fun s => status_ok (stream_read_end s) = true) (ns_stream ctx :: ss)) :
  let m := nc_stream_async_read_all buffer cb ;;; data_ready ss in
  let d := concat (map stream_received (ns_stream ctx :: ss)) in
  let ctx' := exec m ctx in
  result (nc_stream_async_read_all buffer cb) ctx = NABTO_EC_OK /\
  ns_readMem ctx' = take (length buffer) d ++ drop (length d) buffer /\
  ns_readLength ctx' = Nat.min (length buffer) (length d) /\
  (if (length buffer <=? length d)%nat
   then trace m ctx = [SmCallback OpReadAll cb NABTO_EC_OK] /\ ns_readAllCb ctx' = None
   else trace m ctx = [] /\ ns_readAllCb ctx' = Some cb /\
        forall s, status_ok (stream_read_end s) = false -> (length (d ++ stream_received s) < length buffer)%nat ->
          let last := nc_stream_application_event_callback EVENT_TYPE_READ_CLOSED in
          let ctx1 := ctx' {{ ns_stream := s }} in
          trace last ctx1 = [SmCallback OpReadAll cb (nc_stream_status_to_ec (stream_read_end s))] /\
          ns_readAllCb (exec last ctx1) = None /\
          ns_readLength (exec last ctx1) = length (d ++ stream_received s) /\
          take (length (d ++ stream_received s)) (ns_readMem (exec last ctx1)) = d ++ stream_received s).
Proof.
  destruct Hidle as [Ha Hso]. cbv zeta.
  set (c1 := set_read buffer (ctx {{ ns_readAllCb := Some cb }})).
  assert (Hrun : nc_stream_async_read_all buffer cb ctx = (nc_stream_do_read ;;; hret NABTO_EC_OK) c1).
  { unfold nc_stream_async_read_all. rewrite hget_seq, Ha, Hso. cbn [is_some orb]. by rewrite !hmod_seq. }
  assert (Hm : (nc_stream_async_read_all buffer cb ;;; data_ready ss) ctx = data_ready (ns_stream ctx :: ss) c1).
  { rewrite data_ready_cons. assert (Ec : c1 {{ ns_stream := ns_stream ctx }} = c1) by (by destruct ctx).
    rewrite Ec. unfold hbind at 1. rewrite Hrun. unfold hbind, hret.
    destruct (nc_stream_do_read c1) as [[[] c2] t]. destruct (data_ready ss c2) as [[[] ?] ?]. by rewrite app_nil_r. }
  assert (Hr : reading cb buffer [] c1).
  { unfold reading. cbn [length app drop]. rewrite drop_0, Nat.sub_0_r. destruct ctx. cbn in Hso |- *. subst. done. }
  pose proof (data_ready_run _ _ (ns_stream ctx :: ss) _ _ Hr Hopen) as Hd. cbv zeta in Hd. cbn [app] in Hd.
  split; [unfold result; rewrite Hrun; unfold hbind; by destruct (nc_stream_do_read c1) as [[??]?] |].
  unfold exec, trace in *. rewrite Hm. set (d := concat (map stream_received (ns_stream ctx :: ss))) in *.
  destruct (Nat.leb_spec (length buffer) (length d)) as [Hle | Hgt].
  - destruct Hd as [(Ea & Eo & Em & El) Ht]. rewrite Em, El, Ht.
    rewrite (drop_ge buffer) by lia. rewrite app_nil_r, Nat.min_l by lia. done.
  - destruct Hd as [Hrd Ht]. pose proof Hrd as (Ea & Eo & Hlt & Em & Eb & El & En). rewrite Em, El, Ht.
    rewrite take_ge, Nat.min_r by lia. repeat (split; [done |]).
    intros s Hs Hshort. set (cx := (data_ready (ns_stream ctx :: ss) c1).1.2) in *.
    assert (Hrd' : reading cb buffer d (cx {{ ns_stream := s }})) by (by destruct cx).
    pose proof (reading_step _ _ _ _ Hrd') as Hst. cbv zeta in Hst.
    assert (Es : ns_stream (cx {{ ns_stream := s }}) = s) by (by destruct cx). rewrite Es, Hs in Hst.
    replace (length buffer <=? length (d ++ stream_received s))%nat with false in Hst by (symmetry; apply Nat.leb_gt; lia).
    destruct Hst as [(Ha1 & _ & Hm1 & Hl1) Ht1]. unfold nc_stream_application_event_callback. rewrite hget_seq.
    unfold exec, trace in *. rewrite Ht1, Ha1, Hm1, Hl1, take_app_length. done.
Qed.

(** *** Writing *)

Lemma write_round ctx fuel :
  exists st n s,
    nabto_stream_write_buffer (ns_stream ctx) (ns_writeBuffer ctx) = (st, n, s) /\
    do_write_loop fuel ctx =
      let c1 := ctx {{ ns_stream := s }} in
      if negb (status_ok st) then resolve_write (nc_stream_status_to_ec st) c1
      else if (n =? 0)%nat then (tt, c1, [])
      else if (n =? length (ns_writeBuffer ctx))%nat then resolve_write NABTO_EC_OK c1
      else
        let c2 := c1 {{ ns_writeBuffer ::= drop n }} in
        match fuel with O => (tt, c2, []) | S fuel => do_write_loop fuel c2 end.
Proof.
  destruct (nabto_stream_write_buffer (ns_stream ctx) (ns_writeBuffer ctx)) as [[st n] s] eqn:E.
  exists st, n, s. split; [done |].
  assert (Hk : forall k : _ -> sm_handler unit,
    (let* r := stream_get (fun s => nabto_stream_write_buffer s (ns_writeBuffer ctx)) in k r) ctx =
    k (st, n) (ctx {{ ns_stream := s }})).
  { intros k. unfold hbind, stream_get. rewrite E. by destruct (k _ _) as [[??]?]. }
  destruct fuel as [| fuel]; cbn [do_write_loop]; rewrite hget_seq, Hk; cbv zeta;
    (destruct (negb (status_ok st)); [done |]; destruct (n =? 0)%nat; [done |]);
    destruct (n =? length (ns_writeBuffer ctx))%nat; [done | by rewrite hmod_seq | done | by rewrite hmod_seq].
Qed.

Lemma resolve_write_run ec ctx cb :
  ns_writeCb ctx = Some cb ->
  resolve_write ec ctx = (tt, ctx {{ ns_writeCb := None }}, [SmCallback OpWrite cb ec]).
Proof. intros Hcb. unfold resolve_write. rewrite hget_seq, Hcb. by rewrite hmod_seq. Qed.

(** What a write of the bytes of [writeBuffer] comes to: the library gets as many as it has
    room for, and the callback is called unless bytes are left of a stream that is open. *)
Definition write_outcome (cb : nat) (ctx ctx' : nc_stream_context) (t : list stream_call) : Prop :=
  let data := ns_writeBuffer ctx in
  let w := stream_window (ns_stream ctx) in
  let e := stream_write_end (ns_stream ctx) in
  stream_written (ns_stream ctx') = stream_written (ns_stream ctx) ++ take w data /\
  if (length data <=? w)%nat
  then t = [SmCallback OpWrite cb NABTO_EC_OK] /\ ns_writeCb ctx' = None
  else if status_ok e
  then t = [] /\ ns_writeCb ctx' = Some cb /\ ns_writeBuffer ctx' = drop w data
  else t = [SmCallback OpWrite cb (nc_stream_status_to_ec e)] /\ ns_writeCb ctx' = None.

Lemma do_write_run ctx cb fuel :
  ns_writeCb ctx = Some cb -> ns_writeBuffer ctx <> [] -> (length (ns_writeBuffer ctx) <= S fuel)%nat ->
  write_outcome cb ctx (exec (do_write_loop fuel) ctx) (trace (do_write_loop fuel) ctx).
Proof.
  unfold write_outcome, exec, trace. revert ctx.
  induction fuel as [fuel IH] using lt_wf_ind. intros ctx Hcb Hne Hfuel.
  destruct (write_round ctx fuel) as (st & n & s & Ew & Eq). rewrite Eq. cbv zeta. clear Eq.
  destruct (write_buffer_spec _ _ _ _ _ Hne Ew) as (He & Hw & Hd).
  set (c1 := ctx {{ ns_stream := s }}).
  assert (E1 : ns_writeCb c1 = Some cb /\ ns_stream c1 = s /\ ns_writeBuffer c1 = ns_writeBuffer ctx) by (by destruct ctx).
  destruct E1 as (Ec1 & Es1 & Eb1).
  assert (Hpos : (0 < length (ns_writeBuffer ctx))%nat) by (destruct (ns_writeBuffer ctx); cbn; [done | lia]).
  case_decide as Hwin.
  - destruct Hd as (-> & -> & _). rewrite Hwin, take_0, drop_0 in *.
    replace (length (ns_writeBuffer ctx) <=? 0)%nat with false by (symmetry; apply Nat.leb_gt; lia).
    destruct (status_ok (stream_write_end (ns_stream ctx))); cbn [negb].
    + cbn [Nat.eqb fst snd]. by rewrite Es1, Hw, Eb1.
    + rewrite (resolve_write_run _ _ _ Ec1). cbn [fst snd]. split; [| by destruct c1].
      rewrite <- Hw, <- Es1. by destruct c1.
  - destruct Hd as (-> & Hn & Hwd). cbn [status_ok negb]. rewrite (proj2 (Nat.eqb_neq n 0)) by lia.
    destruct (Nat.eqb_spec n (length (ns_writeBuffer ctx))) as [-> | Hnl].
    + rewrite (resolve_write_run _ _ _ Ec1). cbn [fst snd].
      replace (length (ns_writeBuffer ctx) <=? stream_window (ns_stream ctx))%nat with true by (symmetry; apply Nat.leb_le; lia).
      split; [| by destruct c1]. rewrite (take_ge _ (stream_window _)) by lia.
      rewrite take_ge in Hw by lia. rewrite <- Hw, <- Es1. by destruct c1.
    + destruct fuel as [| fuel]; [lia |]. set (c2 := c1 {{ ns_writeBuffer ::= drop n }}).
      assert (E2 : ns_writeCb c2 = Some cb /\ ns_stream c2 = s /\ ns_writeBuffer c2 = drop n (ns_writeBuffer ctx))
        by (by destruct ctx).
      destruct E2 as (Ec2 & Es2 & Eb2).
      assert (Hl2 : length (ns_writeBuffer c2) = (length (ns_writeBuffer ctx) - n)%nat) by (by rewrite Eb2, length_drop).
      destruct (IH fuel ltac:(lia) c2 Ec2) as [IHw IHc].
      { intros E. rewrite E in Hl2. cbn in Hl2. lia. }
      { lia. }
      rewrite Es2, Hl2, Eb2, He in *. rewrite IHw, Hw, Hwd, <- app_assoc.
      split; [by rewrite take_take_drop |]. clear IHw.
      replace (length (ns_writeBuffer ctx) <=? n + stream_window s)%nat
        with (length (ns_writeBuffer ctx) - n <=? stream_window s)%nat
        by (apply Bool.eq_iff_eq_true; rewrite !Nat.leb_le; lia).
      by rewrite drop_drop in IHc.
Qed.

(** A write hands the library as many bytes as it has room for, in order and each once, in as
    many pieces as the library takes them: its callback is called with NABTO_EC_OK exactly when
    all were taken, with the end of the stream when it has ended before, and else it waits with
    exactly the bytes that were not taken; the next event that there is room goes on with those. *)
Lemma stream_write_exact ctx data cb (Hne : data <> []) :
  let ctx1 := ctx {{ ns_writeCb := Some cb; ns_writeBuffer := data }} in
  let start := nc_stream_async_write data cb in
  let go_on := nc_stream_application_event_callback EVENT_TYPE_DATA_WRITE in
  (ns_writeCb ctx = None ->
     result start ctx = NABTO_EC_OK /\ write_outcome cb ctx1 (exec start ctx) (trace start ctx)) /\
  write_outcome cb ctx1 (exec go_on ctx1) (trace go_on ctx1).
Proof.
  cbv zeta. set (ctx1 := ctx {{ ns_writeCb := Some cb; ns_writeBuffer := data }}).
  assert (E1 : ns_writeCb ctx1 = Some cb /\ ns_writeBuffer ctx1 = data) by (by destruct ctx). destruct E1 as [Ec Eb].
  assert (Ho : write_outcome cb ctx1 (exec nc_stream_do_write_all ctx1) (trace nc_stream_do_write_all ctx1)).
  { unfold nc_stream_do_write_all. rewrite exec_hget, trace_hget. apply do_write_run; [done | by rewrite Eb | lia]. }
  split.
  - intros Hn. unfold exec, trace, result in *.
    assert (Hrun : nc_stream_async_write data cb ctx = (nc_stream_do_write_all ;;; hret NABTO_EC_OK) ctx1).
    { unfold nc_stream_async_write. rewrite hget_seq, Hn. cbn [is_some]. by rewrite hmod_seq. }
    rewrite Hrun. unfold hbind, hret. destruct (nc_stream_do_write_all ctx1) as [[??]?]. cbn [fst snd] in *.
    by rewrite app_nil_r.
  - unfold nc_stream_application_event_callback. rewrite exec_hget, trace_hget, Ec. exact Ho.
Qed.
End Laws.

(** ** Callbacks *)

(** The callbacks that wait, and those that were called, with their operation. *)
Definition waiting (ctx : nc_stream_context) : list (stream_op * nat) :=
  omap (fun p : stream_op * option nat => pair p.1 <$> p.2)
    [(OpAccept, ns_acceptCb ctx); (OpReadAll, ns_readAllCb ctx); (OpReadSome, ns_readSomeCb ctx);
     (OpWrite, ns_writeCb ctx); (OpClose, ns_closeCb ctx)].
Definition called (t : list stream_call) : list (stream_op * nat) :=
  omap (fun c => match c with SmCallback op cb _ => Some (op, cb) | _ => None end) t.

Inductive stream_input : Type :=
| NiAccept (cb : nat)
| NiReadAll (buffer : list Z) (cb : nat)
| NiReadSome (buffer : list Z) (cb : nat)
| NiWrite (buffer : list Z) (cb : nat)
| NiClose (cb : nat)
| NiAcceptQuietly                                 (* nc_stream_accept *)
| NiRelease                                       (* nc_stream_release, nc_stream_abort *)
| NiEvent
| NiTimeout
| NiPacket (buffer : list Z)
| NiConnectionClosed
| NiSent.

(** What the rest of the program answers during a step: which content types have a listener, the
    time, the answer of [async_send_data], and how deep the recursion may go. *)
Record stream_env : Type := mk_env {
  env_listening : Z -> bool;
  env_now : Z;
  env_sent : np_error_code;
  env_depth : nat
}.

(** The operation a request accepts. *)
Definition accepting (op : stream_op) (cb : nat) (m : sm_handler np_error_code) :
    sm_uhandler (list (stream_op * nat)) :=
  ulift (let* ec := m in hret (if is_error ec then [] else [(op, cb)])).

Definition quietly (m : sm_uhandler unit) : sm_uhandler (list (stream_op * nat)) :=
  let+ _ := m in ulift (hret []).

Definition stream_step (v : stream_env) (i : stream_input) : sm_uhandler (list (stream_op * nat)) :=
  let '(mk_env l now sent depth) := v in
  match i with
  | NiAccept cb => accepting OpAccept cb (nc_stream_async_accept cb)
  | NiReadAll b cb => accepting OpReadAll cb (nc_stream_async_read_all b cb)
  | NiReadSome b cb => accepting OpReadSome cb (nc_stream_async_read_some b cb)
  | NiWrite b cb => accepting OpWrite cb (nc_stream_async_write b cb)
  | NiClose cb => accepting OpClose cb (nc_stream_async_close cb)
  | NiAcceptQuietly => quietly (ulift nc_stream_accept)
  | NiRelease => quietly (ulift nc_stream_release)
  | NiEvent => quietly (nc_stream_event l now sent depth)
  | NiTimeout => quietly (nc_stream_handle_timeout l now sent depth)
  | NiPacket b => quietly (nc_stream_handle_packet l now sent depth b)
  | NiConnectionClosed => quietly (nc_stream_handle_connection_closed l now sent depth)
  | NiSent => quietly (nc_stream_dtls_send_callback l now sent depth)
  end.

(** The steps of a stream, until it is destroyed. *)
Fixpoint stream_run (inputs : list (stream_env * stream_input)) : sm_uhandler (list (stream_op * nat)) :=
  match inputs with
  | [] => ulift (hret [])
  | (v, i) :: rest =>
      let+ a := stream_step v i in
      let+ ctx := ulift hget in
      if ns_active ctx then let+ b := stream_run rest in ulift (hret (a ++ b)) else ulift (hret a)
  end.

(** Handlers of an active stream that neither lose nor invent a callback and leave it active;
    [conserves_u] may end it. *)
Definition settles {A} (m : sm_handler A) : Prop := forall ctx,
  ns_active ctx = true ->
  ns_active (exec m ctx) = true /\ called (trace m ctx) ++ waiting (exec m ctx) ≡ₚ waiting ctx.

Definition live (ctx : nc_stream_context) : list (stream_op * nat) :=
  if ns_active ctx then waiting ctx else [].

Definition conserves_u {A} (m : sm_uhandler A) : Prop := forall ctx a ctx' t,
  ns_active ctx = true -> m ctx = Def (a, ctx', t) -> called t ++ live ctx' ≡ₚ waiting ctx.

Lemma stream_called_app t t' : called (t ++ t') = called t ++ called t'.
Proof. apply omap_app. Qed.

Lemma conserves_bind {A B} (m : sm_handler A) (k : A -> sm_handler B) :
  settles m -> (forall a, settles (k a)) -> settles (hbind m k).
Proof.
  intros Hm Hk ctx Ha. rewrite exec_seq, trace_seq, stream_called_app.
  destruct (Hm ctx Ha) as [Ha1 E1]. destruct (Hk (result m ctx) _ Ha1) as [Ha2 E2]. split; [done |].
  by rewrite <- app_assoc, E2.
Qed.
Lemma conserves_hmod f :
  (forall ctx, ns_active (f ctx) = ns_active ctx /\ waiting (f ctx) = waiting ctx) -> settles (hmod f).
Proof.
  intros Hf ctx Ha. change (trace (hmod f) ctx) with (@nil stream_call). change (exec (hmod f) ctx) with (f ctx).
  destruct (Hf ctx) as [-> ->]. done.
Qed.
Lemma conserves_emit c : called [c] = [] -> settles (emit c).
Proof. intros Hc ctx Ha. change (trace (emit c) ctx) with [c]. by rewrite Hc. Qed.
Lemma conserves_hget : settles hget.
Proof. by intros ctx Ha. Qed.
Lemma conserves_hret {A} (a : A) : settles (hret a).
Proof. by intros ctx Ha. Qed.
Lemma conserves_lib f : settles (stream_lib f).
Proof. apply conserves_hmod. by intros []. Qed.
Lemma conserves_get {A} (f : L -> A * L) : settles (stream_get f).
Proof. intros ctx Ha. unfold stream_get, exec, trace. destruct (f (ns_stream ctx)). by destruct ctx. Qed.
#[local] Hint Resolve conserves_hget conserves_hret conserves_lib conserves_get : nabto.

Lemma conserves_skip : settles hskip.
Proof. apply conserves_hret. Qed.

(** Calling a callback takes it out of its slot. *)
Lemma conserves_resolves ec :
  settles (resolve_write ec) /\ settles (stream_resolve_close ec) /\ settles (resolve_accept ec) /\
  settles (nc_stream_resolve_read ec).
Proof.
  split_and!; intros ctx Ha; unfold exec, trace;
    [unfold resolve_write | unfold stream_resolve_close | unfold resolve_accept |
     unfold nc_stream_resolve_read; rewrite hmod_seq]; rewrite hget_seq;
    destruct ctx as [s id d a cr ce nc [ac |] [ra |] [rs |] mem rb rl rbl [wr |] wb [cl |] sn se]; cbn in Ha |- *; subst;
    (split; [done |]); cbn; solve_Permutation.
Qed.
Lemma conserves_resolve_write ec : settles (resolve_write ec).
Proof. apply conserves_resolves. Qed.
Lemma conserves_resolve_close ec : settles (stream_resolve_close ec).
Proof. apply conserves_resolves. Qed.
Lemma conserves_resolve_accept ec : settles (resolve_accept ec).
Proof. apply conserves_resolves. Qed.
Lemma conserves_resolve_read ec : settles (nc_stream_resolve_read ec).
Proof. apply conserves_resolves. Qed.
#[local] Hint Resolve conserves_skip conserves_resolve_write conserves_resolve_close conserves_resolve_accept
  conserves_resolve_read : nabto.

Ltac settle :=
  repeat first
    [ progress intros
    | solve [auto with nabto]
    | apply conserves_bind
    | apply conserves_emit; reflexivity
    | apply conserves_hmod; intros []; split; reflexivity
    | case_match ].

Lemma conserves_do_read : settles nc_stream_do_read.
Proof.
  assert (Hl : forall fuel, settles (do_read_loop fuel)) by (induction fuel; cbn [do_read_loop]; settle).
  unfold nc_stream_do_read. settle.
Qed.
Lemma conserves_do_write : settles nc_stream_do_write_all.
Proof.
  assert (Hl : forall fuel, settles (do_write_loop fuel)) by (induction fuel; cbn [do_write_loop]; settle).
  unfold nc_stream_do_write_all. settle.
Qed.
#[local] Hint Resolve conserves_do_read conserves_do_write : nabto.
Lemma conserves_handle_close : settles nc_stream_handle_close.
Proof. unfold nc_stream_handle_close. settle. Qed.
#[local] Hint Resolve conserves_handle_close : nabto.
Lemma conserves_application_event e : settles (nc_stream_application_event_callback e).
Proof. unfold nc_stream_application_event_callback. settle. Qed.
Lemma conserves_send_packet e sent : settles (send_packet_dtls e sent).
Proof. unfold send_packet_dtls. settle. Qed.
Lemma conserves_event_done e : settles (event_done e).
Proof. unfold event_done. settle. Qed.
Lemma conserves_ready l : settles (ready_for_accept l).
Proof. unfold ready_for_accept. settle. Qed.
#[local] Hint Resolve conserves_application_event conserves_send_packet conserves_event_done conserves_ready : nabto.

Lemma conserves_u_lift {A} (m : sm_handler A) : settles m -> conserves_u (ulift m).
Proof.
  intros Hm ctx a ctx' t Ha [-> ->]%ulift_inv. destruct (Hm ctx Ha) as [Ha1 E]. unfold live. by rewrite Ha1.
Qed.
Lemma conserves_u_bind {A B} (m : sm_handler A) (k : A -> sm_uhandler B) :
  settles m -> (forall a, conserves_u (k a)) -> conserves_u (ubind (ulift m) k).
Proof.
  intros Hm Hk ctx b ctx' t Ha (a & s1 & t1 & t2 & E1 & E2 & ->)%ubind_inv.
  apply ulift_inv in E1 as [-> ->]. destruct (Hm ctx Ha) as [Ha1 Ew].
  by rewrite stream_called_app, <- app_assoc, (Hk a _ _ _ _ Ha1 E2).
Qed.
Lemma conserves_u_of {A B} (c : cres A) (k : A -> sm_uhandler B) :
  (forall a, conserves_u (k a)) -> conserves_u (ubind (uof c) k).
Proof.
  intros Hk ctx b ctx' t Ha (a & s1 & t1 & t2 & E1 & E2 & ->)%ubind_inv.
  apply uof_inv in E1 as (-> & -> & ->). cbn [app]. by apply (Hk a _ _ _ _ Ha E2).
Qed.
Lemma conserves_u_ub {A} : conserves_u (fun _ => @UB (A * nc_stream_context * list stream_call)).
Proof. done. Qed.

(** The end of a stream calls all callbacks that wait. *)
Lemma destroy_run ctx :
  ns_active ctx = true ->
  nc_stream_destroy ctx =
    (tt, ctx {{ ns_active := false; ns_dtls := false; ns_streamId := 0 }},
     map (fun p => SmCallback p.1 p.2 NABTO_EC_ABORTED) (waiting ctx) ++ [SmDestroyEvents]).
Proof.
  intros Ha. unfold nc_stream_destroy. rewrite hget_seq, Ha. cbn [negb].
  destruct ctx as [s id d a cr ce nc [ac |] [ra |] [rs |] mem rb rl rbl [wr |] wb [cl |] sn se]; cbn in *; by subst.
Qed.

Lemma called_map ec l : called (map (fun p => SmCallback p.1 p.2 ec) l) = l.
Proof. induction l as [| [op cb] l IH]; [done |]. cbn. by f_equal. Qed.

Lemma conserves_u_destroy : conserves_u (ulift nc_stream_destroy).
Proof.
  intros ctx a ctx' t Ha [-> ->]%ulift_inv. unfold exec, trace. rewrite destroy_run by done. cbn [fst snd].
  rewrite stream_called_app, called_map. unfold live. replace (ns_active _) with false by (by destruct ctx).
  cbn. by rewrite !app_nil_r.
Qed.

Ltac settle_u :=
  repeat first
    [ progress intros
    | apply conserves_u_destroy
    | apply conserves_u_ub
    | apply conserves_u_lift; solve [settle]
    | apply conserves_u_bind; [solve [settle] |]
    | apply conserves_u_of
    | solve [auto with nabto]
    | case_match ].

Lemma conserves_u_event l now sent depth : conserves_u (nc_stream_event l now sent depth).
Proof. induction depth as [| depth IH]; cbn [nc_stream_event]; unfold nc_stream_handle_wait; settle_u. Qed.
#[local] Hint Resolve conserves_u_event : nabto.

Lemma conserves_u_quietly m ctx acc ctx' t :
  conserves_u m -> ns_active ctx = true -> quietly m ctx = Def (acc, ctx', t) ->
  called t ++ live ctx' ≡ₚ waiting ctx ++ acc.
Proof.
  intros Hm Ha (a & s1 & t1 & t2 & E1 & E2 & ->)%ubind_inv. injection E2 as <- <- <-.
  rewrite !app_nil_r. by apply (Hm _ _ _ _ Ha E1).
Qed.

(** A request: rejected without an effect, or accepted with its callback in its slot. *)
Lemma conserves_accepting op cb (m body : sm_handler np_error_code) (set : nc_stream_context -> nc_stream_context) ctx acc ctx' t :
  (m ctx = (NABTO_EC_OPERATION_IN_PROGRESS, ctx, []) \/
   m ctx = body (set ctx) /\ ns_active (set ctx) = ns_active ctx /\ waiting (set ctx) ≡ₚ (op, cb) :: waiting ctx /\
   settles body /\ result body (set ctx) = NABTO_EC_OK) ->
  ns_active ctx = true -> accepting op cb m ctx = Def (acc, ctx', t) ->
  called t ++ live ctx' ≡ₚ waiting ctx ++ acc.
Proof.
  intros Hm Ha. unfold accepting, ulift, hbind. destruct Hm as [-> | (-> & Ha1 & Hw & Hb & Hr)].
  - cbn. intros [= <- <- <-]. unfold live. cbn. by rewrite Ha, app_nil_r.
  - destruct (Hb (set ctx)) as [Ha2 E]; [by rewrite Ha1 |]. unfold exec, trace, result in *.
    destruct (body (set ctx)) as [[ec c2] t2]. cbn in *. subst ec. intros [= <- <- <-].
    unfold live. rewrite Ha2, app_nil_r, E, Hw. cbn. apply Permutation_cons_append.
Qed.

Lemma result_then {A B} (m : sm_handler A) (b : B) ctx : result (m ;;; hret b) ctx = b.
Proof. unfold result, hbind, hret. by destruct (m ctx) as [[??]?]. Qed.

Lemma stream_step_spec v i ctx acc ctx' t :
  ns_active ctx = true -> stream_step v i ctx = Def (acc, ctx', t) ->
  called t ++ live ctx' ≡ₚ waiting ctx ++ acc.
Proof.
  intros Ha. destruct v as [l now sent depth].
  destruct i as [cb | b cb | b cb | b cb | cb | | | | | b | |]; cbn [stream_step];
    try (intros E; eapply conserves_u_quietly in E; [exact E | | exact Ha];
         unfold nc_stream_accept, nc_stream_release, nc_stream_handle_timeout, nc_stream_handle_packet,
           nc_stream_handle_connection_closed, nc_stream_dtls_send_callback; settle_u).
  - apply (conserves_accepting OpAccept cb _ (stream_lib nabto_stream_accept ;;; hret NABTO_EC_OK)
             (fun c => c {{ ns_acceptCb := Some cb }})); [| done].
    unfold nc_stream_async_accept. rewrite hget_seq. destruct (ns_acceptCb ctx) eqn:E; [by left | right].
    cbn [is_some]. rewrite hmod_seq. split_and!; [done | by destruct ctx | | settle | apply result_then].
    unfold waiting. destruct ctx; cbn in *; subst. done.
  - apply (conserves_accepting OpReadAll cb _ (hmod (set_read b) ;;; nc_stream_do_read ;;; hret NABTO_EC_OK)
             (fun c => c {{ ns_readAllCb := Some cb }})); [| done].
    unfold nc_stream_async_read_all. rewrite hget_seq.
    destruct (ns_readAllCb ctx) eqn:E1; [by left |]. destruct (ns_readSomeCb ctx) eqn:E2; [by left | right].
    cbn [is_some orb]. rewrite hmod_seq.
    split_and!; [done | by destruct ctx | | settle | unfold result; rewrite hmod_seq; apply result_then].
    unfold waiting. destruct ctx as [???????[] ???????????]; cbn in *; subst; cbn; solve_Permutation.
  - apply (conserves_accepting OpReadSome cb _ (hmod (set_read b) ;;; nc_stream_do_read ;;; hret NABTO_EC_OK)
             (fun c => c {{ ns_readSomeCb := Some cb }})); [| done].
    unfold nc_stream_async_read_some. rewrite hget_seq.
    destruct (ns_readAllCb ctx) eqn:E1; [by left |]. destruct (ns_readSomeCb ctx) eqn:E2; [by left | right].
    cbn [is_some orb]. rewrite hmod_seq.
    split_and!; [done | by destruct ctx | | settle | unfold result; rewrite hmod_seq; apply result_then].
    unfold waiting. destruct ctx as [???????[] ???????????]; cbn in *; subst; cbn; solve_Permutation.
  - apply (conserves_accepting OpWrite cb _ (nc_stream_do_write_all ;;; hret NABTO_EC_OK)
             (fun c => c {{ ns_writeCb := Some cb; ns_writeBuffer := b }})); [| done].
    unfold nc_stream_async_write. rewrite hget_seq. destruct (ns_writeCb ctx) eqn:E; [by left | right].
    cbn [is_some]. rewrite hmod_seq. split_and!; [done | by destruct ctx | | settle | apply result_then].
    unfold waiting. destruct ctx as [???????[] [] [] ?????????]; cbn in *; subst; cbn; solve_Permutation.
  - apply (conserves_accepting OpClose cb _ (nc_stream_handle_close ;;; hret NABTO_EC_OK)
             (fun c => c {{ ns_closeCb := Some cb }})); [| done].
    unfold nc_stream_async_close. rewrite hget_seq. destruct (ns_closeCb ctx) eqn:E; [by left | right].
    cbn [is_some]. rewrite hmod_seq. split_and!; [done | by destruct ctx | | settle | apply result_then].
    unfold waiting. destruct ctx as [???????[] [] [] ????[] ????]; cbn in *; subst; cbn; solve_Permutation.
Qed.

(** The slot of a stream, zeroed memory at first, and a stream initialized in it. *)
Definition stream_zero (s : L) : nc_stream_context :=
  mk_stream s 0 false false 0 STREAM_STAMP_NOW 0 None None None [] 0 0 0 None [] None false ET_ACCEPT.
Definition stream_fresh (s : L) (streamId connectionRef : Z) : nc_stream_context :=
  exec (nc_stream_init streamId connectionRef []) (stream_zero s).

Lemma stream_run_spec inputs : forall ctx acc ctx' t,
  ns_active ctx = true -> stream_run inputs ctx = Def (acc, ctx', t) ->
  called t ++ live ctx' ≡ₚ waiting ctx ++ acc.
Proof.
  induction inputs as [| [v i] inputs IH]; intros ctx acc ctx' t Ha; cbn [stream_run].
  { intros [= <- <- <-]. unfold live. by rewrite Ha, app_nil_r. }
  intros (a & c1 & t1 & t2 & E1 & E2 & ->)%ubind_inv. pose proof (stream_step_spec _ _ _ _ _ _ Ha E1) as Hs.
  rewrite u_hget in E2. destruct (ns_active c1) eqn:Ha1.
  - apply ubind_inv in E2 as (b & c2 & t3 & t4 & E3 & E4 & ->). injection E4 as <- <- <-.
    rewrite app_nil_r, stream_called_app, <- app_assoc, (IH _ _ _ _ Ha1 E3), !app_assoc.
    unfold live in Hs. rewrite Ha1 in Hs. rewrite Hs. reflexivity.
  - injection E2 as <- <- <-. unfold live in *. rewrite Ha1 in *. rewrite !app_nil_r in *. exact Hs.
Qed.

(** No callback of a stream is lost or called twice: whatever the user requests and whatever
    the library, the connection, the timers and the event queue do, each accepted request has
    had its callback called exactly once or still waits, and when the stream is destroyed none
    waits. *)
Lemma stream_callbacks_conserved s streamId connectionRef inputs acc ctx t
    (Hrun : stream_run inputs (stream_fresh s streamId connectionRef) = Def (acc, ctx, t)) :
  called t ++ (if ns_active ctx then waiting ctx else []) ≡ₚ acc.
Proof. by apply stream_run_spec in Hrun. Qed.

(** The end of a stream calls every waiting callback with NABTO_EC_ABORTED but leaves it in its
    field, and the next stream in the slot starts with it: that stream rejects the operation as
    being in progress, and its first event calls the callback of the old stream once more. *)
Lemma stream_slot_keeps_callbacks ctx streamId connectionRef (Ha : ns_active ctx = true) :
  let ctx1 := exec nc_stream_destroy ctx in
  let ctx2 := exec (nc_stream_init streamId connectionRef []) ctx1 in
  called (trace nc_stream_destroy ctx) = waiting ctx /\ waiting ctx2 = waiting ctx /\
  forall cb, ns_acceptCb ctx = Some cb ->
    (forall cb', result (nc_stream_async_accept cb') ctx2 = NABTO_EC_OPERATION_IN_PROGRESS) /\
    trace (nc_stream_application_event_callback EVENT_TYPE_OPENED) ctx2 = [SmCallback OpAccept cb NABTO_EC_OK].
Proof.
  cbv zeta. rewrite (exec_eq _ _ _ (destroy_run ctx Ha)), (trace_eq _ _ _ (destroy_run ctx Ha)). cbn [fst snd].
  rewrite stream_called_app, called_map. cbn [called omap]. rewrite app_nil_r. split; [done |].
  split; [by destruct ctx |]. intros cb Hcb. destruct ctx. cbn in Hcb, Ha. subst. split; [intros cb'; reflexivity | reflexivity].
Qed.

(** ** The event loop *)

(** The library reports another event than sending after at most [k] packets. *)
Fixpoint drains (k : nat) (s : L) : bool :=
  let '(e, s1) := nabto_stream_next_event_to_handle (nabto_stream_segments_available s) in
  if is_send_event e then
    match k with O => false | S k => drains k (nabto_stream_event_handled s1 e) end
  else true.

Definition wait_fits (now : Z) : Prop := forall s stamp,
  nabto_stream_stamp_diff_now s stamp now + 2 < 2 ^ 31.

Lemma handle_wait_def now ctx : wait_fits now -> is_def (nc_stream_handle_wait now ctx) = true.
Proof.
  intros Hw. unfold nc_stream_handle_wait. rewrite u_hget.
  destruct (nabto_stream_next_event (ns_stream ctx)) as [| | stamp]; [done | done |].
  destruct (nabto_stream_stamp_less _ _); [| done]. rewrite u_hmod. unfold ubind, uof.
  match goal with |- context [if ?b then Def _ else UB] => replace b with true; [done |] end.
  symmetry. apply Z.ltb_lt. case_match; [eval_pows; lia | apply Hw].
Qed.

Lemma u_lib {A} f (k : unit -> sm_uhandler A) ctx :
  ubind (ulift (stream_lib f)) k ctx = k tt (ctx {{ ns_stream := f (ns_stream ctx) }}).
Proof. unfold stream_lib. rewrite u_hmod. by destruct ctx. Qed.

Lemma u_get {A B} (f : L -> A * L) (k : A -> sm_uhandler B) ctx :
  ubind (ulift (stream_get f)) k ctx =
    k (f (ns_stream ctx)).1 (ctx {{ ns_stream := (f (ns_stream ctx)).2 }}).
Proof.
  unfold ubind, ulift, stream_get. destruct (f (ns_stream ctx)) as [a s]. cbn [fst snd].
  by destruct (k a _) as [[[??]?] |].
Qed.

(** The event the library reports, and its state then. *)
Definition next_of (s : L) : nabto_stream_next_event_type * L :=
  nabto_stream_next_event_to_handle (nabto_stream_segments_available s).

(** The body of [nc_stream_event], with the recursive call of [nc_stream_send_packet]. *)
Lemma stream_event_unfold l now sent depth ctx :
  let e := (next_of (ns_stream ctx)).1 in
  let c1 := ctx {{ ns_stream := (next_of (ns_stream ctx)).2 }} in
  nc_stream_event l now sent depth ctx =
    if is_send_event e && negb (ns_dtls ctx) then
      match depth with
      | O => UB
      | S depth => nc_stream_event l now sent depth (c1 {{ ns_stream ::= fun s => nabto_stream_event_handled s e }})
      end
    else match e with ET_WAIT => nc_stream_handle_wait now c1 | _ => nc_stream_event l now sent 0 ctx end.
Proof.
  cbv zeta. unfold next_of.
  destruct depth as [| depth]; cbn [nc_stream_event]; rewrite !u_lib, !u_get;
    replace (ns_stream (ctx {{ ns_stream := nabto_stream_segments_available (ns_stream ctx) }}))
      with (nabto_stream_segments_available (ns_stream ctx)) by (by destruct ctx);
    destruct (nabto_stream_next_event_to_handle (nabto_stream_segments_available (ns_stream ctx))) as [e s];
    cbn [fst snd];
    replace (ctx {{ ns_stream := nabto_stream_segments_available (ns_stream ctx) }} {{ ns_stream := s }})
      with (ctx {{ ns_stream := s }}) by (by destruct ctx);
    destruct e; cbn [is_send_event andb]; try done; rewrite !u_hget;
    replace (ns_dtls (ctx {{ ns_stream := s }})) with (ns_dtls ctx) by (by destruct ctx);
    destruct (ns_dtls ctx); cbn [negb]; try done; by rewrite u_lib.
Qed.

(** Without recursion the loop is defined but for the wait. *)
Lemma stream_event_no_send l now sent ctx :
  is_send_event (next_of (ns_stream ctx)).1 = false \/ ns_dtls ctx = true -> wait_fits now ->
  is_def (nc_stream_event l now sent 0 ctx) = true.
Proof.
  unfold next_of. intros Hs Hw. cbn [nc_stream_event]. rewrite u_lib, u_get.
  replace (ns_stream (ctx {{ ns_stream := nabto_stream_segments_available (ns_stream ctx) }}))
    with (nabto_stream_segments_available (ns_stream ctx)) by (by destruct ctx).
  set (c1 := _ {{ ns_stream := _ }} {{ ns_stream := _ }}).
  assert (Hd : ns_dtls c1 = ns_dtls ctx) by (by destruct ctx).
  destruct (nabto_stream_next_event_to_handle (nabto_stream_segments_available (ns_stream ctx))) as [e s].
  cbn [fst snd] in *. destruct e; try done; try (by apply handle_wait_def);
    destruct Hs as [Hs | Hs]; try done; by rewrite u_hget, Hd, Hs.
Qed.

(** C39. The event loop ends: without a connection it drops one packet per nested call, so when the
    library asks for at most [k] packets before another event, [k] nested calls are enough, more
    change nothing, and nothing is left undefined as long as no wait is longer than an int32_t;
    with a connection there is no nested call at all. *)
Theorem stream_event_terminates l now sent k depth ctx
    (Hk : drains k (ns_stream ctx) = true \/ ns_dtls ctx = true) (Hd : (k <= depth)%nat) (Hw : wait_fits now) :
  is_def (nc_stream_event l now sent k ctx) = true /\
  nc_stream_event l now sent depth ctx = nc_stream_event l now sent k ctx.
Proof.
  revert k ctx Hk Hd. induction depth as [| depth IH]; intros k ctx Hk Hd.
  - assert (k = 0%nat) as -> by lia. split; [| done]. apply stream_event_no_send; [| done].
    destruct Hk as [Hk | Hk]; [left | by right]. cbn [drains] in Hk. unfold next_of.
    destruct (nabto_stream_next_event_to_handle _) as [e s]. cbn [fst]. by destruct (is_send_event e).
  - rewrite (stream_event_unfold l now sent (S depth) ctx). cbv zeta.
    destruct (is_send_event (next_of (ns_stream ctx)).1 && negb (ns_dtls ctx)) eqn:Es.
    + apply andb_prop in Es as [Es Hn]. apply negb_true_iff in Hn.
      destruct Hk as [Hk | Hk]; [| congruence]. unfold next_of in *.
      destruct k as [| k]; cbn [drains] in Hk;
        destruct (nabto_stream_next_event_to_handle (nabto_stream_segments_available (ns_stream ctx))) as [e s] eqn:E;
        cbn [fst snd] in *; rewrite Es in Hk; [done |].
      rewrite (stream_event_unfold l now sent (S k) ctx). cbv zeta. unfold next_of. rewrite E. cbn [fst snd].
      rewrite Es, Hn. cbn [negb andb].
      apply IH; [| lia]. left. by destruct ctx.
    + assert (Hdef : is_def (nc_stream_event l now sent 0 ctx) = true).
      { apply stream_event_no_send; [| done]. apply andb_false_iff in Es as [Es | Es]; [by left | right].
        by apply negb_false_iff in Es. }
      rewrite (stream_event_unfold l now sent k ctx). cbv zeta. rewrite Es. split; [| done].
      pose proof (handle_wait_def now (ctx {{ ns_stream := (next_of (ns_stream ctx)).2 }}) Hw).
      by destruct (next_of (ns_stream ctx)).1.
Qed.

(** The timer of a wait expires two milliseconds after the stamp, also when that is in the
    past; after 1000 waits in the past it expires after 102 ms. *)
Lemma wait_timer now ctx stamp :
  nabto_stream_next_event (ns_stream ctx) = STREAM_STAMP_FUTURE stamp ->
  nabto_stream_stamp_less (STREAM_STAMP_FUTURE stamp) (ns_currentExpiry ctx) = true ->
  let diff := nabto_stream_stamp_diff_now (ns_stream ctx) (STREAM_STAMP_FUTURE stamp) now in
  diff + 2 < 2 ^ 31 ->
  exists ms ctx', nc_stream_handle_wait now ctx = Def (tt, ctx', [SmPostTimer ms]) /\
    np_timestamp_future now ms =
      if (diff <? 0) && (1000 <? u32 (ns_negativeCount ctx + 1)) then u32 (now + 102) else u32 (now + diff + 2).
Proof.
  intros Hn Hl diff Hd. unfold nc_stream_handle_wait. rewrite u_hget, Hn, Hl. fold diff. rewrite u_hmod.
  unfold ubind, uof, ulift, emit.
  assert (Hu : forall x, np_timestamp_future now (u32 x) = u32 (now + x)).
  { intros x. unfold np_timestamp_future, u32, wrap. by rewrite Zplus_mod_idemp_r. }
  destruct (Z.ltb_spec diff 0); cbn [andb];
    [destruct (1000 <? u32 (ns_negativeCount ctx + 1)) |];
    [change (100 + 2 <? 2 ^ 31) with true | rewrite (proj2 (Z.ltb_lt _ _) Hd) ..];
    (eexists _, _; split; [reflexivity | rewrite Hu; f_equal; lia]).
Qed.
End Stream.

(** ** Witnesses *)

(** A library that holds the bytes that are ready, the room for writing, and the events to come. *)
Record queue_lib : Type := mk_ql {
  ql_in : list Z;
  ql_read_end : nabto_stream_status;
  ql_room : nat;
  ql_write_end : nabto_stream_status;
  ql_out : list Z;
  ql_events : list nabto_stream_next_event_type
}.

(** It hands out at most two bytes at a time, and takes at most three. *)
#[export] Instance queue_stream : NabtoStream queue_lib := {
  nabto_stream_init := mk_ql [] NABTO_STREAM_STATUS_OK 0 NABTO_STREAM_STATUS_OK [] [];
  nabto_stream_accept := fun s => s;
  nabto_stream_read_buffer := fun s n =>
    match ql_in s with
    | [] => (ql_read_end s, [], s)
    | d => (NABTO_STREAM_STATUS_OK, take (Nat.min 2 n) d, s {{ ql_in := drop (Nat.min 2 n) d }})
    end;
  nabto_stream_write_buffer := fun s data =>
    match ql_room s with
    | O => (ql_write_end s, 0%nat, s)
    | room =>
        let n := Nat.min (Nat.min 3 room) (length data) in
        (NABTO_STREAM_STATUS_OK, n, s {{ ql_room := (room - n)%nat; ql_out ::= fun o => o ++ take n data }})
    end;
  nabto_stream_close := fun s => (NABTO_STREAM_STATUS_OK, s);
  nabto_stream_release := fun s => s {{ ql_events := [ET_RELEASED] }};
  nabto_stream_connection_died := fun s => s;
  nabto_stream_handle_packet := fun s data => s {{ ql_in ::= fun d => d ++ data }};
  nabto_stream_handle_timeout := fun s => s;
  nabto_stream_handle_time_wait := fun s => s;
  nabto_stream_segments_available := fun s => s;
  nabto_stream_dispatch_event := fun s => (None, s);
  nabto_stream_event_handled := fun s _ => s {{ ql_events ::= tl }};
  nabto_stream_next_event_to_handle := fun s => (default ET_NOTHING (head (ql_events s)), s);
  nabto_stream_next_event := fun _ => STREAM_STAMP_INFINITE;
  nabto_stream_stamp_less := fun _ _ => false;
  nabto_stream_stamp_diff_now := fun _ _ _ => 0;
  nabto_stream_create_packet := fun s _ _ => ([], s);
  nabto_stream_get_content_type := fun _ => 0;
  nabto_stream_create_rst_packet := fun _ => [1];
  NABTO_STREAM_FLAG_SYN := 2;
  NABTO_STREAM_FLAG_RST := 1
}.

#[export] Instance queue_stream_laws : NabtoStreamLaws queue_lib.
Proof.
  refine {| stream_received := ql_in; stream_read_end := ql_read_end; stream_window := ql_room;
            stream_write_end := ql_write_end; stream_written := ql_out |}.
  - intros [d re room we o ev] n st data s' Hn. cbn -[Nat.min]. destruct d as [| x d].
    + intros [= <- <- <-]. done.
    + destruct (Nat.min 2 n) as [| k] eqn:Ek; [lia |]. intros [= <- <- <-]. cbn -[take drop]. split; [done |].
      split; [done |]. split; [done |].
      split; [rewrite length_take; lia | unfold constant; by rewrite take_drop].
  - intros [d re room we o ev] data st n s' Hne. cbn -[Nat.min length]. destruct room as [| room].
    + intros [= <- <- <-]. cbn. rewrite app_nil_r. repeat (split; [done |]).
      done.
    + destruct data as [| x data]; [done |].
      set (k := Nat.min (Nat.min 3 (S room)) (length (x :: data))).
      assert (Hk : (0 < k <= S room /\ k <= length (x :: data))%nat) by (unfold k; cbn [length]; lia).
      clearbody k. intros [= <- <- <-]. cbn -[Nat.sub take length Nat.add] in *. unfold constant.
      split_and!; [done | done |]. case_decide; [done |]. split_and!; done || lia.
Defined.

Definition example_lib : queue_lib :=
  mk_ql [1; 2; 3] NABTO_STREAM_STATUS_OK 4 NABTO_STREAM_STATUS_CLOSED [] [ET_DATA; ET_ACK].
Definition example_stream : nc_stream_context :=
  (stream_fresh example_lib 4 77) {{ ns_stream := example_lib }}.

Lemma stream_read_all_exact_witness :
  let m := nc_stream_async_read_all [0; 0; 0; 0] 5 ;;;
           data_ready [mk_ql [4; 5] NABTO_STREAM_STATUS_OK 0 NABTO_STREAM_STATUS_OK [] []] in
  trace m example_stream = [SmCallback OpReadAll 5 NABTO_EC_OK] /\ ns_readMem (exec m example_stream) = [1; 2; 3; 4].
Proof.
  destruct (stream_read_all_exact example_stream [0; 0; 0; 0] 5
    [mk_ql [4; 5] NABTO_STREAM_STATUS_OK 0 NABTO_STREAM_STATUS_OK [] []]) as (_ & Hm & _ & Ht & _).
  - vm_compute. auto.
  - apply (bool_decide_unpack _). vm_compute. exact I.
  - repeat constructor.
  - split; [exact Ht | exact Hm].
Defined.

Lemma stream_write_exact_witness :
  trace (nc_stream_async_write [9; 8; 7; 6; 5] 6) example_stream = [SmCallback OpWrite 6 NABTO_EC_CLOSED] /\
  ql_out (ns_stream (exec (nc_stream_async_write [9; 8; 7; 6; 5] 6) example_stream)) = [9; 8; 7; 6].
Proof.
  destruct (stream_write_exact example_stream [9; 8; 7; 6; 5] 6) as [Hs _]; [discriminate |].
  destruct (Hs eq_refl) as [_ [Hw [Ht _]]]. split; [exact Ht | exact Hw].
Defined.

Definition example_env : stream_env := mk_env (fun _ => true) 0 NABTO_EC_OK 8.

(** A read waits when the stream is released and destroyed. *)
Lemma stream_callbacks_conserved_witness :
  exists acc ctx t,
    stream_run [(example_env, NiReadAll [0; 0] 3); (example_env, NiWrite [1] 4); (example_env, NiRelease);
                (example_env, NiEvent)] (stream_fresh example_lib 4 77) = Def (acc, ctx, t) /\
    called t ++ (if ns_active ctx then waiting ctx else []) ≡ₚ acc /\ ns_active ctx = false.
Proof.
  eexists _, _, _. split; [vm_compute; reflexivity |]. split; [| reflexivity].
  apply (stream_callbacks_conserved example_lib 4 77
           [(example_env, NiReadAll [0; 0] 3); (example_env, NiWrite [1] 4); (example_env, NiRelease);
            (example_env, NiEvent)]). vm_compute. reflexivity.
Defined.

Lemma stream_slot_keeps_callbacks_witness :
  let ctx := exec (nc_stream_async_accept 9) example_stream in
  trace (nc_stream_application_event_callback EVENT_TYPE_OPENED)
    (exec (nc_stream_init 6 78 []) (exec nc_stream_destroy ctx)) = [SmCallback OpAccept 9 NABTO_EC_OK].
Proof.
  destruct (stream_slot_keeps_callbacks (exec (nc_stream_async_accept 9) example_stream) 6 78) as (_ & _ & Hc).
  - reflexivity.
  - exact (proj2 (Hc 9%nat eq_refl)).
Defined.

Lemma stream_event_terminates_witness :
  let ctx := example_stream {{ ns_dtls := false }} in
  is_def (nc_stream_event (fun _ => true) 0 NABTO_EC_OK 2 ctx) = true /\
  nc_stream_event (fun _ => true) 0 NABTO_EC_OK 2 ctx <> nc_stream_event (fun _ => true) 0 NABTO_EC_OK 1 ctx.
Proof.
  split; [| vm_compute; discriminate].
  apply (stream_event_terminates (fun _ => true) 0 NABTO_EC_OK 2 2).
  - left. reflexivity.
  - apply Nat.le_refl.
  - intros s stamp. reflexivity.
Defined.
