(* ===== verification/StreamManager.v ===== *)
(** * Stream manager (nc_stream_manager.c)

    The ten slots of streams, the connections they belong to, the listeners that accept new
    streams, the packets that are dispatched to the slots, the reset packet, and the account of
    the segments the streams allocate. *)

From S2P Require Import Prelude Platform Packet Collections EventQueue Stream.
From stdpp Require Import functions sets gmap.

#[local] Open Scope Z_scope.
#[local] Open Scope list_scope.
#[local] Open Scope handler_scope.

Definition NABTO_MAX_STREAMS : nat := 10.

(** A listener's callback with its data is a number; connections are identified by their address. *)
Record nc_stream_listener : Type := mk_listener {
  sl_type : Z;
  sl_cb : nat
}.

Section StreamManager.
Context {L H : Type} `{NabtoStream L, LList H}.

Record nc_stream_manager_context : Type := mk_smgr {
  sg_links : H;                                   (* the nodes of [listeners] *)
  sg_listener : nid -> nc_stream_listener;
  sg_rstBuf : bool;                               (* rstBuf != NULL *)
  sg_streams : list (nc_stream_context (L := L));
  sg_streamConns : list (option nat);
  sg_maxSegments : Z;
  sg_allocatedSegments : Z
}.

Definition listeners : lid := 0%nat.

Inductive manager_call : Type :=
| SgStream (slot : nat) (c : stream_call)
| SgListener (cb : nat) (ec : np_error_code) (stream : option nat)
| SgSendRst (conn : nat) (packet : list Z)
| SgFreeRst.

Definition sg_handler (A : Type) : Type := handler nc_stream_manager_context manager_call A.
Definition sg_uhandler (A : Type) : Type := uhandler nc_stream_manager_context manager_call A.

(** [calloc]ed memory, then [nc_stream_manager_init]; [s] is the zeroed memory of the library. *)
Definition manager_zero (h : H) (s : L) : nc_stream_manager_context :=
  mk_smgr h (fun _ => mk_listener 0 0) false (replicate NABTO_MAX_STREAMS (stream_zero s))
    (replicate NABTO_MAX_STREAMS None) 0 0.

Definition nc_stream_manager_init : sg_handler unit :=
  hmod (fun ctx => ctx {{ sg_maxSegments := 1000000; sg_links ::= fun h => ll_init h listeners }}).

(** ** Listeners *)

Definition all_listeners (ctx : nc_stream_manager_context) : list nc_stream_listener :=
  map (sg_listener ctx) (ll_items (sg_links ctx) listeners).

Definition nc_stream_manager_resolve_listener (l : nc_stream_listener) (stream : option nat) (ec : np_error_code) :
    sg_handler unit := emit (SgListener (sl_cb l) ec stream).

Fixpoint resolve_listeners (ls : list nc_stream_listener) : sg_handler unit :=
  match ls with
  | [] => hskip
  | l :: ls => nc_stream_manager_resolve_listener l None NABTO_EC_ABORTED ;;; resolve_listeners ls
  end.

Definition nc_stream_manager_deinit : sg_handler unit :=
  let* ctx := hget in resolve_listeners (all_listeners ctx).

Definition nc_stream_manager_port_in_use (ctx : nc_stream_manager_context) (type : Z) : bool :=
  existsb (fun l => sl_type l =? type) (all_listeners ctx).

(** The loop of [nc_stream_manager_get_ephemeral_stream_port]; [rand] are the numbers drawn. *)
Fixpoint ephemeral_loop (ctx : nc_stream_manager_context) (n : nat) (rand : list Z) : option Z :=
  match n, rand with
  | S n, r :: rand =>
      let port := u32 (2147483648 + Z.land (u32 r) 2147483647) in
      if negb (nc_stream_manager_port_in_use ctx port) then Some port else ephemeral_loop ctx n rand
  | _, _ => None
  end.

Definition nc_stream_manager_get_ephemeral_stream_port (ctx : nc_stream_manager_context) (rand : list Z) :
    option Z := ephemeral_loop ctx 10 rand.

Definition nc_stream_manager_add_listener (rand : list Z) (listener : nid) (type : Z) (cb : nat) :
    sg_handler np_error_code :=
  let* ctx := hget in
  match (if type =? 0 then nc_stream_manager_get_ephemeral_stream_port ctx rand else Some type) with
  | None => hret NABTO_EC_UNKNOWN
  | Some type =>
      if nc_stream_manager_port_in_use ctx type then hret NABTO_EC_OPERATION_IN_PROGRESS
      else
        hmod (fun ctx => ctx {{ sg_listener ::= insert listener (mk_listener type cb);
                                sg_links ::= fun h => ll_append h listeners listener }}) ;;;
        hret NABTO_EC_OK
  end.

Definition nc_stream_manager_remove_listener (listener : nid) : sg_handler unit :=
  hmod (fun ctx => ctx {{ sg_links ::= fun h => ll_erase_node h listener }}).

(** The first listener of a content type: the loop of [nc_stream_manager_ready_for_accept]. *)
Definition find_listener (ctx : nc_stream_manager_context) (type : Z) : option nc_stream_listener :=
  List.find (fun l => sl_type l =? type) (all_listeners ctx).

Definition listening (ctx : nc_stream_manager_context) (type : Z) : bool :=
  is_some (find_listener ctx type).

(** ** Slots *)

(** The call that hands a stream to its listener goes to the listener. *)
Definition route (ctx : nc_stream_manager_context) (i : nat) (c : stream_call) : manager_call :=
  match c with
  | SmReadyForAccept type =>
      match find_listener ctx type with
      | Some l => SgListener (sl_cb l) NABTO_EC_OK (Some i)
      | None => SgStream i c
      end
  | _ => SgStream i c
  end.

(** Run a handler of the stream in slot [i]. *)
Definition at_stream {A} (i : nat) (m : (Z -> bool) -> sm_uhandler A) : sg_uhandler A := fun ctx =>
  match sg_streams ctx !! i with
  | None => UB
  | Some s =>
      match m (listening ctx) s with
      | UB => UB
      | Def (a, s', t) => Def (a, ctx {{ sg_streams ::= insert i s' }}, map (route ctx i) t)
      end
  end.

Definition nc_stream_manager_close_stream (i : nat) : sg_handler unit :=
  hmod (fun ctx => ctx {{ sg_streams ::= alter (fun s => s {{ ns_streamId := 0 }}) i;
                          sg_streamConns ::= insert i None }}).

(** The first slot with a property of its stream and its connection: the loops over the slots. *)
Fixpoint first_slot (p : nc_stream_context (L := L) -> option nat -> bool)
    (ss : list (nc_stream_context (L := L))) (cs : list (option nat)) : option nat :=
  match ss, cs with
  | s :: ss, c :: cs => if p s c then Some 0%nat else S <$> first_slot p ss cs
  | _, _ => None
  end.

Definition owns (streamId : Z) (conn : nat) (s : nc_stream_context (L := L)) (c : option nat) : bool :=
  (ns_streamId s =? streamId) && bool_decide (c = Some conn).

Definition nc_stream_manager_find_stream (ctx : nc_stream_manager_context) (streamId : Z) (conn : nat) :
    option nat := first_slot (owns streamId conn) (sg_streams ctx) (sg_streamConns ctx).

(** [created]: the answers of creating the events of the stream. *)
Definition nc_stream_manager_accept_stream (conn : nat) (connectionRef : Z) (streamId : Z)
    (created : list np_error_code) : sg_uhandler (option nat) :=
  if streamId mod 2 =? 1 then ulift (hret None)
  else
    let+ ctx := ulift hget in
    match first_slot (fun s _ => negb (ns_active s)) (sg_streams ctx) (sg_streamConns ctx) with
    | None => ulift (hret None)
    | Some i =>
        let+ ec := at_stream i (fun _ => ulift (nc_stream_init streamId connectionRef created)) in
        if is_error ec then ulift (hret None)
        else ulift (hmod (fun ctx => ctx {{ sg_streamConns ::= insert i (Some conn) }}) ;;; hret (Some i))
    end.

(** ** Packets *)

(** [buffer]: whether a buffer of [size] bytes could be allocated. *)
Definition nc_stream_manager_send_rst (conn : nat) (streamId : Z) (buffer : bool) (size : nat) : sg_handler unit :=
  let* ctx := hget in
  if sg_rstBuf ctx then hskip
  else if negb buffer then hskip
  else
    hmod (fun ctx => ctx {{ sg_rstBuf := true }}) ;;;
    let header := AT_STREAM :: var_uint_write_forward streamId in
    emit (SgSendRst conn (header ++ nabto_stream_create_rst_packet (size - length header))).

Definition nc_stream_manager_send_rst_callback (ec : np_error_code) : sg_handler unit :=
  emit SgFreeRst ;;; hmod (fun ctx => ctx {{ sg_rstBuf := false }}).

(** What the rest of the program answers while a packet is handled. *)
Record packet_env : Type := mk_penv {
  pe_created : list np_error_code;
  pe_rst_buffer : bool;
  pe_rst_size : nat;
  pe_now : Z;
  pe_sent : np_error_code;
  pe_depth : nat
}.

(** [buf] is the receive buffer, of which the packet is the first [bufferSize] bytes. *)
Definition nc_stream_manager_handle_packet (v : packet_env) (conn : nat) (connectionRef : Z)
    (buf : list Z) (bufferSize : nat) : sg_uhandler unit :=
  if (bufferSize <? 4)%nat then ulift hskip
  else
    let+ r := uof (var_uint_read (drop 1 buf) (Z.of_nat bufferSize - 1)) in
    let '(ok, streamId, streamIdLen) := r in
    if negb (ok : bool) then ulift hskip
    else
      let off := (1 + Z.to_nat streamIdLen)%nat in
      let+ flags := uof (rd buf off) in
      let+ ctx := ulift hget in
      let+ stream :=
        match nc_stream_manager_find_stream ctx streamId conn with
        | Some i => ulift (hret (Some i))
        | None =>
            if flags =? NABTO_STREAM_FLAG_SYN
            then nc_stream_manager_accept_stream conn connectionRef streamId (pe_created v)
            else ulift (hret None)
        end in
      match stream with
      | None =>
          if negb (Z.land flags NABTO_STREAM_FLAG_RST =? NABTO_STREAM_FLAG_RST)
          then ulift (nc_stream_manager_send_rst conn streamId (pe_rst_buffer v) (pe_rst_size v))
          else ulift hskip
      | Some i =>
          at_stream i (fun listening =>
            nc_stream_handle_packet listening (pe_now v) (pe_sent v) (pe_depth v)
              (take (bufferSize - off) (drop off buf)))
      end.

Definition stream_closed_at (v : packet_env) (i : nat) : sg_uhandler unit :=
  at_stream i (fun listening =>
    nc_stream_handle_connection_closed listening (pe_now v) (pe_sent v) (pe_depth v)).

(** The loop of [nc_stream_manager_remove_connection] over the slots. *)
Fixpoint remove_slots (v : packet_env) (conn : nat) (slots : list nat) : sg_uhandler unit :=
  match slots with
  | [] => ulift hskip
  | i :: slots =>
      let+ ctx := ulift hget in
      let+ _ :=
        if bool_decide (sg_streamConns ctx !! i = Some (Some conn)) then
          let+ _ := ulift (hmod (fun ctx => ctx {{ sg_streamConns ::= insert i None }})) in
          stream_closed_at v i
        else ulift hskip in
      remove_slots v conn slots
  end.

Definition nc_stream_manager_remove_connection (v : packet_env) (conn : nat) : sg_uhandler unit :=
  remove_slots v conn (seq 0 NABTO_MAX_STREAMS).

(** [refs] are the references stored in the connections; the stream is that of slot [i]. *)
Definition nc_stream_manager_get_connection_ref (ctx : nc_stream_manager_context) (refs : nat -> Z) (i : nat) : Z :=
  match sg_streams ctx !! i, sg_streamConns ctx !! i with
  | Some s, Some (Some conn) => if ns_active s then refs conn else 0
  | _, _ => 0
  end.

(** ** Segments *)

(** [calloc], [malloc]: whether the allocations succeed; the answer is whether there is a segment. *)
Definition nc_stream_manager_alloc_send_segment (calloc malloc : bool) : sg_handler bool :=
  let* ctx := hget in
  if sg_maxSegments ctx <=? sg_allocatedSegments ctx then hret false
  else if negb calloc then hret false
  else if negb malloc then hret false
  else hmod (fun ctx => ctx {{ sg_allocatedSegments ::= fun n => u64 (n + 1) }}) ;;; hret true.

Definition nc_stream_manager_free_send_segment (segment : bool) : sg_handler unit :=
  if negb segment then hskip
  else hmod (fun ctx => ctx {{ sg_allocatedSegments ::= fun n => u64 (n - 1) }}).

Definition nc_stream_manager_alloc_recv_segment (calloc malloc : bool) : sg_handler bool :=
  let* ctx := hget in
  if sg_maxSegments ctx <=? sg_allocatedSegments ctx then hret false
  else if negb calloc then hret false
  else if negb malloc then hret false
  else hmod (fun ctx => ctx {{ sg_allocatedSegments ::= fun n => u64 (n + 1) }}) ;;; hret true.

Definition nc_stream_manager_free_recv_segment (segment : bool) : sg_handler unit :=
  if negb segment then hskip
  else hmod (fun ctx => ctx {{ sg_allocatedSegments ::= fun n => u64 (n - 1) }}).

Definition nc_stream_manager_set_max_segments (maxSegments : Z) : sg_handler unit :=
  hmod (fun ctx => ctx {{ sg_maxSegments := maxSegments }}).

(** ** The steps of the manager *)

Inductive manager_input : Type :=
| MiPacket (v : packet_env) (conn : nat) (connectionRef : Z) (buf : list Z) (bufferSize : nat)
| MiStream (now : Z) (sent : np_error_code) (depth : nat) (slot : nat) (i : stream_input)
| MiRemoveConnection (v : packet_env) (conn : nat)
| MiRstSent (ec : np_error_code)
| MiClose (slot : nat)
| MiAddListener (rand : list Z) (listener : nid) (type : Z) (cb : nat)
| MiRemoveListener (listener : nid)
| MiAlloc (send calloc malloc : bool)
| MiFree (send : bool)
| MiSetMax (maxSegments : Z).

Definition manager_step (i : manager_input) : sg_uhandler unit :=
  match i with
  | MiPacket v conn ref buf n => nc_stream_manager_handle_packet v conn ref buf n
  | MiStream now sent depth slot i =>
      let+ _ := at_stream slot (fun listening => stream_step (mk_env listening now sent depth) i) in ulift hskip
  | MiRemoveConnection v conn => nc_stream_manager_remove_connection v conn
  | MiRstSent ec => ulift (nc_stream_manager_send_rst_callback ec)
  | MiClose slot => ulift (nc_stream_manager_close_stream slot)
  | MiAddListener rand l type cb => ulift (nc_stream_manager_add_listener rand l type cb ;;; hskip)
  | MiRemoveListener l => ulift (nc_stream_manager_remove_listener l)
  | MiAlloc true c m => ulift (nc_stream_manager_alloc_send_segment c m ;;; hskip)
  | MiAlloc false c m => ulift (nc_stream_manager_alloc_recv_segment c m ;;; hskip)
  | MiFree true => ulift (nc_stream_manager_free_send_segment true)
  | MiFree false => ulift (nc_stream_manager_free_recv_segment true)
  | MiSetMax n => ulift (nc_stream_manager_set_max_segments n)
  end.

Fixpoint manager_run (inputs : list manager_input) : sg_uhandler unit :=
  match inputs with
  | [] => ulift hskip
  | i :: rest => let+ _ := manager_step i in manager_run rest
  end.

(** ** The table of streams *)

(** What every handler of a stream leaves alone: it never wakes up a destroyed stream, and an
    active one keeps its id. *)
Definition same_stream (s s' : nc_stream_context (L := L)) : Prop :=
  (ns_active s = false -> ns_active s' = false /\ ns_streamId s' = ns_streamId s) /\
  (ns_active s' = true -> ns_streamId s' = ns_streamId s) /\
  (ns_active s = true -> ns_active s' = false -> ns_streamId s' = 0).

Definition keeps {A} (m : sm_handler (L := L) A) : Prop := forall s,
  ns_active (exec m s) = ns_active s /\ ns_streamId (exec m s) = ns_streamId s.
Definition untouched_u {A} (m : sm_uhandler (L := L) A) : Prop := forall s a s' t,
  m s = Def (a, s', t) -> same_stream s s'.

Lemma untouched_bind {A B} (m : sm_handler A) (k : A -> sm_handler B) :
  keeps m -> (forall a, keeps (k a)) -> keeps (hbind m k).
Proof.
  intros Hm Hk s. rewrite exec_seq. destruct (Hm s) as [E1 E2]. destruct (Hk (result m s) (exec m s)) as [E3 E4].
  by rewrite E3, E4.
Qed.
Lemma untouched_hmod f :
  (forall s, ns_active (f s) = ns_active s /\ ns_streamId (f s) = ns_streamId s) -> keeps (hmod f).
Proof. intros Hf s. apply Hf. Qed.
Lemma untouched_emit c : keeps (emit c).
Proof. by intros s. Qed.
Lemma untouched_hget : keeps hget.
Proof. by intros s. Qed.
Lemma untouched_hret {A} (a : A) : keeps (hret a).
Proof. by intros s. Qed.
Lemma untouched_lib f : keeps (stream_lib f).
Proof. apply untouched_hmod. by intros []. Qed.
Lemma untouched_get {A} (f : L -> A * L) : keeps (stream_get f).
Proof. intros s. unfold stream_get, exec. destruct (f (ns_stream s)). by destruct s. Qed.
Lemma untouched_skip : keeps hskip.
Proof. by intros s. Qed.
#[local] Hint Resolve untouched_emit untouched_hget untouched_hret untouched_lib untouched_get untouched_skip : nabto.

Ltac keep :=
  repeat first
    [ progress intros
    | solve [auto with nabto]
    | apply untouched_bind
    | apply untouched_hmod; intros []; split; reflexivity
    | case_match ].

Lemma untouched_do_read : keeps nc_stream_do_read.
Proof.
  assert (Hl : forall fuel, keeps (do_read_loop fuel))
    by (induction fuel; cbn [do_read_loop]; unfold nc_stream_resolve_read; keep).
  unfold nc_stream_do_read. keep.
Qed.
Lemma untouched_do_write : keeps nc_stream_do_write_all.
Proof.
  assert (Hl : forall fuel, keeps (do_write_loop fuel))
    by (induction fuel; cbn [do_write_loop]; unfold resolve_write; keep).
  unfold nc_stream_do_write_all. keep.
Qed.
#[local] Hint Resolve untouched_do_read untouched_do_write : nabto.
Lemma untouched_close : keeps nc_stream_handle_close.
Proof. unfold nc_stream_handle_close, stream_resolve_close. keep. Qed.
#[local] Hint Resolve untouched_close : nabto.
Lemma untouched_application e : keeps (nc_stream_application_event_callback e).
Proof. unfold nc_stream_application_event_callback, resolve_accept, stream_resolve_close. keep. Qed.
Lemma untouched_send e sent : keeps (send_packet_dtls e sent).
Proof. unfold send_packet_dtls. keep. Qed.
Lemma untouched_done e : keeps (event_done e).
Proof. unfold event_done. keep. Qed.
Lemma untouched_ready l : keeps (ready_for_accept l).
Proof. unfold ready_for_accept. keep. Qed.
#[local] Hint Resolve untouched_application untouched_send untouched_done untouched_ready : nabto.

Lemma same_refl s s' :
  ns_active s' = ns_active s -> ns_streamId s' = ns_streamId s -> same_stream s s'.
Proof. unfold same_stream. intros -> ->. intuition congruence. Qed.

Lemma same_keep_l s s1 s' :
  ns_active s1 = ns_active s -> ns_streamId s1 = ns_streamId s -> same_stream s1 s' -> same_stream s s'.
Proof. unfold same_stream. intros -> ->. done. Qed.

Lemma untouched_u_lift {A} (m : sm_handler A) : keeps m -> untouched_u (ulift m).
Proof. intros Hm s a s' t [-> ->]%ulift_inv. destruct (Hm s). by apply same_refl. Qed.
Lemma untouched_u_bind {A B} (m : sm_handler A) (k : A -> sm_uhandler B) :
  keeps m -> (forall a, untouched_u (k a)) -> untouched_u (ubind (ulift m) k).
Proof.
  intros Hm Hk s b s' t (a & s1 & t1 & t2 & E1 & E2 & ->)%ubind_inv. apply ulift_inv in E1 as [-> ->].
  destruct (Hm s) as [Ea Ei]. exact (same_keep_l _ _ _ Ea Ei (Hk a _ _ _ _ E2)).
Qed.
Lemma untouched_u_of {A B} (c : cres A) (k : A -> sm_uhandler B) :
  (forall a, untouched_u (k a)) -> untouched_u (ubind (uof c) k).
Proof.
  intros Hk s b s' t (a & s1 & t1 & t2 & E1 & E2 & ->)%ubind_inv. apply uof_inv in E1 as (-> & -> & ->).
  exact (Hk a _ _ _ _ E2).
Qed.
Lemma untouched_u_ub {A} : untouched_u (fun _ => @UB (A * nc_stream_context * list stream_call)).
Proof. done. Qed.
Lemma untouched_u_ret {A B} (m : sm_uhandler A) (b : B) : untouched_u m -> untouched_u (let+ _ := m in ulift (hret b)).
Proof.
  intros Hm s a s' t (a1 & s1 & t1 & t2 & E1 & E2 & ->)%ubind_inv. injection E2 as <- <- <-.
  exact (Hm _ _ _ _ E1).
Qed.
Lemma untouched_u_destroy : untouched_u (ulift nc_stream_destroy).
Proof.
  intros s a s' t [-> ->]%ulift_inv. destruct (ns_active s) eqn:Ha.
  - rewrite (exec_eq _ _ _ (destroy_run s Ha)). unfold same_stream. destruct s. cbn in Ha |- *. subst. done.
  - unfold exec, nc_stream_destroy. rewrite hget_seq, Ha. by apply same_refl.
Qed.

Ltac keep_u :=
  repeat first
    [ progress intros
    | apply untouched_u_destroy
    | apply untouched_u_ub
    | apply untouched_u_lift; solve [keep]
    | apply untouched_u_bind; [solve [keep] |]
    | apply untouched_u_of
    | solve [auto with nabto]
    | case_match ].

Lemma untouched_u_event l now sent depth : untouched_u (nc_stream_event l now sent depth).
Proof. induction depth as [| depth IH]; cbn [nc_stream_event]; unfold nc_stream_handle_wait; keep_u. Qed.
#[local] Hint Resolve untouched_u_event : nabto.

Lemma untouched_u_step v i : untouched_u (stream_step v i).
Proof.
  destruct v as [l now sent depth].
  destruct i; cbn [stream_step]; unfold accepting, quietly;
    try (apply untouched_u_ret);
    unfold nc_stream_accept, nc_stream_release, nc_stream_handle_timeout, nc_stream_handle_packet,
      nc_stream_handle_connection_closed, nc_stream_dtls_send_callback, nc_stream_async_accept,
      nc_stream_async_read_all, nc_stream_async_read_some, nc_stream_async_write, nc_stream_async_close; keep_u.
Qed.

Definition table_ok (ctx : nc_stream_manager_context) : Prop :=
  length (sg_streams ctx) = NABTO_MAX_STREAMS /\ length (sg_streamConns ctx) = NABTO_MAX_STREAMS /\
  (forall i s, sg_streams ctx !! i = Some s ->
     if ns_active s then ns_streamId s mod 2 = 0 else ns_streamId s = 0) /\
  (forall i j si sj c, sg_streams ctx !! i = Some si -> sg_streams ctx !! j = Some sj ->
     ns_active si = true -> ns_active sj = true ->
     sg_streamConns ctx !! i = Some (Some c) -> sg_streamConns ctx !! j = Some (Some c) ->
     ns_streamId si = ns_streamId sj -> i = j).

Lemma table_ext ctx ctx' :
  sg_streams ctx' = sg_streams ctx -> sg_streamConns ctx' = sg_streamConns ctx -> table_ok ctx -> table_ok ctx'.
Proof. unfold table_ok. by intros -> ->. Qed.

(** A stream is replaced by one with the same id, or by a destroyed one. *)
Lemma table_insert ctx i s s' :
  table_ok ctx -> sg_streams ctx !! i = Some s -> same_stream s s' ->
  table_ok (ctx {{ sg_streams ::= insert i s' }}).
Proof.
  intros (Hl1 & Hl2 & Hid & Hu) Hi (Hs1 & Hs2 & Hs3).
  assert (E : sg_streams (ctx {{ sg_streams ::= insert i s' }}) = <[i := s']> (sg_streams ctx) /\
    sg_streamConns (ctx {{ sg_streams ::= insert i s' }}) = sg_streamConns ctx) by (by destruct ctx).
  unfold table_ok. destruct E as [-> ->]. rewrite length_insert. do 2 (split; [done |]).
  assert (Hlook : forall j sj, <[i := s']> (sg_streams ctx) !! j = Some sj -> ns_active sj = true ->
    exists sj0, sg_streams ctx !! j = Some sj0 /\ ns_active sj0 = true /\ ns_streamId sj0 = ns_streamId sj).
  { intros j sj [(-> & -> & _) | (Hne & Hj)]%list_lookup_insert_Some Ha; [| by exists sj].
    exists s. destruct (ns_active s) eqn:Es; [by rewrite Hs2 | destruct (Hs1 eq_refl); congruence]. }
  split.
  - intros j sj [(<- & <- & _) | (Hne & Hj)]%list_lookup_insert_Some; [| by eapply Hid].
    pose proof (Hid _ _ Hi) as Hi0. destruct (ns_active s) eqn:Es, (ns_active s') eqn:Es'.
    + by rewrite Hs2.
    + by apply Hs3.
    + destruct (Hs1 eq_refl). congruence.
    + destruct (Hs1 eq_refl). congruence.
  - intros j k sj sk c Hj Hk Haj Hak Hcj Hck Hjk.
    destruct (Hlook _ _ Hj Haj) as (sj0 & Hj0 & Haj0 & Ej). destruct (Hlook _ _ Hk Hak) as (sk0 & Hk0 & Hak0 & Ek).
    apply (Hu j k sj0 sk0 c); congruence.
Qed.

(** A slot may lose its connection. *)
Lemma table_forget ctx i :
  table_ok ctx -> table_ok (ctx {{ sg_streamConns ::= insert i None }}).
Proof.
  intros (Hl1 & Hl2 & Hid & Hu).
  assert (E : sg_streams (ctx {{ sg_streamConns ::= insert i None }}) = sg_streams ctx /\
    sg_streamConns (ctx {{ sg_streamConns ::= insert i None }}) = <[i := None]> (sg_streamConns ctx)) by (by destruct ctx).
  unfold table_ok. destruct E as [-> ->]. rewrite length_insert. do 3 (split; [done |]).
  intros j k sj sk c Hj Hk Haj Hak [(_ & [=] & _) | (_ & Hcj)]%list_lookup_insert_Some
    [(_ & [=] & _) | (_ & Hck)]%list_lookup_insert_Some Hjk.
  by apply (Hu j k sj sk c).
Qed.

Lemma at_stream_inv {A} i (m : (Z -> bool) -> sm_uhandler A) ctx a ctx' t :
  at_stream i m ctx = Def (a, ctx', t) ->
  exists s s' ts, sg_streams ctx !! i = Some s /\ m (listening ctx) s = Def (a, s', ts) /\
    ctx' = ctx {{ sg_streams ::= insert i s' }} /\ t = map (route ctx i) ts.
Proof.
  unfold at_stream. destruct (sg_streams ctx !! i) as [s |] eqn:Hi; [| done].
  destruct (m (listening ctx) s) as [[[a' s'] ts] |] eqn:Em; [| done]. intros [= -> <- <-].
  by exists s, s', ts.
Qed.

Lemma table_at_stream {A} i (m : (Z -> bool) -> sm_uhandler A) ctx a ctx' t :
  (forall l, untouched_u (m l)) -> at_stream i m ctx = Def (a, ctx', t) -> table_ok ctx -> table_ok ctx'.
Proof.
  intros Hm (s & s' & ts & Hi & Em & -> & _)%at_stream_inv Hok.
  by apply (table_insert ctx i s s' Hok Hi), (Hm _ _ _ _ _ Em).
Qed.

Lemma first_slot_Some p ss : forall cs i,
  first_slot p ss cs = Some i ->
  exists s c, ss !! i = Some s /\ cs !! i = Some c /\ p s c = true /\
    forall j sj cj, (j < i)%nat -> ss !! j = Some sj -> cs !! j = Some cj -> p sj cj = false.
Proof.
  induction ss as [| s ss IH]; intros [| c cs] i; cbn [first_slot]; try done.
  destruct (p s c) eqn:Ep; [intros [= <-] | rewrite fmap_Some; intros (j & Hj & ->)].
  - exists s, c. repeat (split; [done |]). intros j ? ? ?. lia.
  - destruct (IH _ _ Hj) as (s1 & c1 & E1 & E2 & E3 & E4). exists s1, c1. repeat (split; [done |]).
    intros [| k] sk ck Hk Hs Hc; cbn in Hs, Hc; [congruence | by apply (E4 k); [lia | |]].
Qed.

Lemma first_slot_None p ss : forall cs,
  first_slot p ss cs = None -> forall j sj cj, ss !! j = Some sj -> cs !! j = Some cj -> p sj cj = false.
Proof.
  induction ss as [| s ss IH]; intros [| c cs]; cbn [first_slot]; try done.
  destruct (p s c) eqn:Ep; [done |]. intros Hn%fmap_None [| j] sj cj Hs Hc; cbn in Hs, Hc; [congruence |].
  by apply (IH cs Hn j).
Qed.

Lemma owns_true streamId conn s c :
  owns streamId conn s c = true <-> ns_streamId s = streamId /\ c = Some conn.
Proof. unfold owns. rewrite andb_true_iff, Z.eqb_eq, bool_decide_eq_true. done. Qed.

(** An accepted stream gets the first free slot, with the id and the connection. *)
Lemma accept_inv conn ref streamId created ctx r ctx' t :
  nc_stream_manager_accept_stream conn ref streamId created ctx = Def (r, ctx', t) ->
  match r with
  | None => sg_streams ctx' = sg_streams ctx /\ sg_streamConns ctx' = sg_streamConns ctx
  | Some i =>
      streamId mod 2 <> 1 /\ exists s, sg_streams ctx !! i = Some s /\ ns_active s = false /\
        let s' := exec (nc_stream_init streamId ref created) s in
        sg_streams ctx' = <[i := s']> (sg_streams ctx) /\ ns_active s' = true /\ ns_streamId s' = streamId /\
        sg_streamConns ctx' = <[i := Some conn]> (sg_streamConns ctx)
  end.
Proof.
  unfold nc_stream_manager_accept_stream. destruct (Z.eqb_spec (streamId mod 2) 1) as [Ho | Ho].
  { by intros [= <- <- <-]. }
  rewrite u_hget. destruct (first_slot _ _ _) as [i |] eqn:Ef; [| by intros [= <- <- <-]].
  intros (ec & c1 & t1 & t2 & E1 & E2 & ->)%ubind_inv.
  apply at_stream_inv in E1 as (s & s' & ts & Hi & Em & -> & _). unfold ulift in Em. injection Em as Em.
  unfold nc_stream_init in Em.
  destruct (List.find is_error created) as [ec' |] eqn:Ec.
  - injection Em as <- <- <-. apply find_some in Ec as [_ He]. rewrite He in E2. injection E2 as <- <- <-. split; [| by destruct ctx].
    transitivity (<[i := s]> (sg_streams ctx)); [by destruct ctx |]. by rewrite list_insert_id.
  - rewrite hmod_seq in Em. injection Em as <- <- <-. cbn [is_error] in E2.
    unfold ulift in E2. rewrite hmod_seq in E2. injection E2 as <- <- <-.
    destruct (first_slot_Some _ _ _ _ Ef) as (s1 & c1 & E1 & _ & Hp & _). assert (s1 = s) as -> by congruence.
    split; [done |]. exists s. split; [done |]. split; [by apply negb_true_iff |].
    unfold nc_stream_init, exec. rewrite Ec, hmod_seq. cbn [fst snd]. destruct s. by destruct ctx.
Qed.

(** A new stream has an id that no stream of its connection has. *)
Lemma table_accept conn ref streamId created ctx r ctx' t :
  nc_stream_manager_accept_stream conn ref streamId created ctx = Def (r, ctx', t) ->
  nc_stream_manager_find_stream ctx streamId conn = None -> table_ok ctx -> table_ok ctx'.
Proof.
  intros Ha%accept_inv Hf Hok. destruct r as [i |]; [| by destruct Ha; eapply table_ext].
  destruct Ha as (Hodd & s & Hi & Hsa & Hs & Has & Hids & Hc). set (s' := exec _ s) in *.
  destruct Hok as (Hl1 & Hl2 & Hid & Hu). unfold table_ok. rewrite Hs, Hc, !length_insert.
  do 2 (split; [done |]). split.
  - intros j sj [(<- & <- & _) | (Hne & Hj)]%list_lookup_insert_Some; [| by eapply Hid].
    rewrite Has, Hids. pose proof (Z.mod_pos_bound streamId 2). lia.
  - assert (Hnew : forall j sj, sg_streams ctx !! j = Some sj ->
      sg_streamConns ctx !! j = Some (Some conn) -> ns_streamId sj <> streamId).
    { intros j sj Hj Hcj E. pose proof (first_slot_None _ _ _ Hf j sj _ Hj Hcj) as Hn.
      assert (Ht : owns streamId conn sj (Some conn) = true) by (by apply owns_true). congruence. }
    assert (Hcase : forall j sj c, <[i := s']> (sg_streams ctx) !! j = Some sj ->
      <[i := Some conn]> (sg_streamConns ctx) !! j = Some (Some c) ->
      (j = i /\ ns_streamId sj = streamId /\ c = conn) \/
      (j <> i /\ sg_streams ctx !! j = Some sj /\ sg_streamConns ctx !! j = Some (Some c))).
    { intros j sj c [(<- & <- & _) | (Hne & Hj)]%list_lookup_insert_Some
        [(E & Ec & _) | (Hnc & Hcj)]%list_lookup_insert_Some; try done; [left | right].
      - by injection Ec as <-.
      - by split. }
    intros j k sj sk c Hj Hk Haj Hak Hcj Hck Hjk.
    destruct (Hcase _ _ _ Hj Hcj) as [(-> & Ej & ->) | (Hj1 & Hj2 & Hj3)],
      (Hcase _ _ _ Hk Hck) as [(-> & Ek & Ec) | (Hk1 & Hk2 & Hk3)].
    + done.
    + destruct (Hnew k sk Hk2 Hk3). congruence.
    + subst c. destruct (Hnew j sj Hj2 Hj3). congruence.
    + by apply (Hu j k sj sk c).
Qed.

Lemma table_lift {A} (m : sg_handler A) ctx a ctx' t :
  (forall c, sg_streams (exec m c) = sg_streams c /\ sg_streamConns (exec m c) = sg_streamConns c) ->
  ulift m ctx = Def (a, ctx', t) -> table_ok ctx -> table_ok ctx'.
Proof. intros Hm [-> ->]%ulift_inv. destruct (Hm ctx). by apply table_ext. Qed.

Lemma send_rst_same conn streamId b n c :
  sg_streams (exec (nc_stream_manager_send_rst conn streamId b n) c) = sg_streams c /\
  sg_streamConns (exec (nc_stream_manager_send_rst conn streamId b n) c) = sg_streamConns c.
Proof.
  unfold nc_stream_manager_send_rst. rewrite !exec_hget. destruct (sg_rstBuf c); [done |].
  destruct b; [| done]. cbn [negb]. rewrite !exec_hmod. by destruct c.
Qed.

Lemma table_packet v conn ref buf n ctx a ctx' t :
  nc_stream_manager_handle_packet v conn ref buf n ctx = Def (a, ctx', t) -> table_ok ctx -> table_ok ctx'.
Proof.
  unfold nc_stream_manager_handle_packet. destruct (n <? 4)%nat; [by intros [= <- <- <-] |].
  intros (r & c1 & t1 & t2 & E1 & E2 & ->)%ubind_inv Hok. apply uof_inv in E1 as (_ & -> & ->).
  destruct r as [[ok streamId] len]. destruct ok; cbn [negb] in E2; [| by injection E2 as <- <- <-].
  apply ubind_inv in E2 as (flags & c2 & t3 & t4 & E3 & E4 & ->). apply uof_inv in E3 as (_ & -> & ->).
  rewrite u_hget in E4. apply ubind_inv in E4 as (r & c3 & t5 & t6 & E5 & E6 & ->).
  assert (Hok3 : table_ok c3).
  { destruct (nc_stream_manager_find_stream ctx streamId conn) eqn:Ef; [by injection E5 as <- <- <- |].
    destruct (flags =? NABTO_STREAM_FLAG_SYN); [by eapply table_accept | by injection E5 as <- <- <-]. }
  destruct r as [i |].
  - eapply table_at_stream; [| exact E6 | done]. intros l. unfold nc_stream_handle_packet.
    apply untouched_u_bind; [apply untouched_lib | intros; apply untouched_u_event].
  - destruct (negb _); [| by injection E6 as <- <- <-].
    eapply table_lift; [| exact E6 | done]. intros c. apply send_rst_same.
Qed.

Lemma table_remove v conn slots : forall ctx a ctx' t,
  remove_slots v conn slots ctx = Def (a, ctx', t) -> table_ok ctx -> table_ok ctx'.
Proof.
  induction slots as [| i slots IH]; intros ctx a ctx' t; cbn [remove_slots]; [by intros [= <- <- <-] |].
  rewrite u_hget. intros (r & c1 & t1 & t2 & E1 & E2 & ->)%ubind_inv Hok. apply (IH _ _ _ _ E2).
  case_bool_decide; [| by injection E1 as <- <- <-]. rewrite u_hmod in E1. unfold stream_closed_at in E1.
  eapply table_at_stream; [| exact E1 | by apply table_forget]. intros l. unfold nc_stream_handle_connection_closed.
  apply untouched_u_bind; [apply untouched_hmod; by intros [] | intros]. apply untouched_u_bind; [apply untouched_lib | intros; apply untouched_u_event].
Qed.

Lemma table_close i ctx : table_ok ctx -> table_ok (exec (nc_stream_manager_close_stream i) ctx).
Proof.
  intros (Hl1 & Hl2 & Hid & Hu). change (exec (nc_stream_manager_close_stream i) ctx) with
    (ctx {{ sg_streams ::= alter (fun s => s {{ ns_streamId := 0 }}) i; sg_streamConns ::= insert i None }}).
  set (c := _ {{ _ ::= _ }}). assert (E : sg_streams c = alter (fun s => s {{ ns_streamId := 0 }}) i (sg_streams ctx) /\
    sg_streamConns c = <[i := None]> (sg_streamConns ctx)) by (by destruct ctx).
  unfold table_ok. destruct E as [-> ->]. rewrite length_alter, length_insert. do 2 (split; [done |]).
  assert (Hlook : forall j sj, alter (fun s => s {{ ns_streamId := 0 }}) i (sg_streams ctx) !! j = Some sj ->
    exists s, sg_streams ctx !! j = Some s /\ ns_active sj = ns_active s /\
      ns_streamId sj = if decide (i = j) then 0 else ns_streamId s).
  { intros j sj Hj. destruct (decide (i = j)) as [<- | Hne].
    - rewrite list_lookup_alter_eq in Hj. apply fmap_Some in Hj as (s & Hs & ->). exists s. by destruct s.
    - rewrite list_lookup_alter_ne in Hj by done. by exists sj. }
  split.
  - intros j sj Hj. destruct (Hlook _ _ Hj) as (s & Hs & -> & ->). pose proof (Hid _ _ Hs).
    destruct (decide (i = j)); [by destruct (ns_active s) | done].
  - intros j k sj sk d Hj Hk Haj Hak [(_ & [=] & _) | (Hij & Hcj)]%list_lookup_insert_Some
      [(_ & [=] & _) | (Hik & Hck)]%list_lookup_insert_Some Hjk.
    destruct (Hlook _ _ Hj) as (sj0 & Hsj & Ea & Ei). destruct (Hlook _ _ Hk) as (sk0 & Hsk & Ea2 & Ei2).
    rewrite decide_False in Ei by done. rewrite decide_False in Ei2 by done. apply (Hu j k sj0 sk0 d); congruence.
Qed.

Lemma table_step i ctx a ctx' t : manager_step i ctx = Def (a, ctx', t) -> table_ok ctx -> table_ok ctx'.
Proof.
  destruct i as [v conn ref buf n | now sent depth slot i | v conn | ec | slot | rand l type cb | l | [] c m | [] | n];
    cbn [manager_step].
  - apply table_packet.
  - intros (r & c1 & t1 & t2 & E1 & E2 & ->)%ubind_inv. injection E2 as <- <- <-.
    eapply table_at_stream; [| exact E1]. intros l. apply untouched_u_step.
  - apply table_remove.
  - apply table_lift. intros c. by destruct c.
  - intros [-> ->]%ulift_inv. apply table_close.
  - apply table_lift. intros c. rewrite exec_seq. unfold nc_stream_manager_add_listener. rewrite !exec_hget.
    destruct (if type =? 0 then _ else _); [| done].
    destruct (nc_stream_manager_port_in_use c _); [done |]. rewrite !exec_hmod. by destruct c.
  - apply table_lift. intros c. by destruct c.
  - apply table_lift. intros c'. rewrite exec_seq. unfold nc_stream_manager_alloc_send_segment. rewrite !exec_hget.
    by destruct (_ <=? _), c, m.
  - apply table_lift. intros c'. rewrite exec_seq. unfold nc_stream_manager_alloc_recv_segment. rewrite !exec_hget.
    by destruct (_ <=? _), c, m.
  - apply table_lift. by intros [].
  - apply table_lift. by intros [].
  - apply table_lift. by intros [].
Qed.

Lemma table_run inputs : forall ctx a ctx' t,
  manager_run inputs ctx = Def (a, ctx', t) -> table_ok ctx -> table_ok ctx'.
Proof.
  induction inputs as [| i inputs IH]; intros ctx a ctx' t; cbn [manager_run]; [by intros [= <- <- <-] |].
  intros (r & c1 & t1 & t2 & E1 & E2 & ->)%ubind_inv Hok. apply (IH _ _ _ _ E2). by apply (table_step _ _ _ _ _ E1).
Qed.

Lemma table_init h s : table_ok (exec nc_stream_manager_init (manager_zero h s)).
Proof.
  change (table_ok ((manager_zero (ll_init h listeners) s) {{ sg_maxSegments := 1000000 }})).
  eapply (table_ext (manager_zero h s)); [done | done |].
  unfold table_ok. cbn. do 2 (split; [done |]). split.
  - intros i s' Hi. apply (lookup_replicate_1 10) in Hi as [-> _]. done.
  - intros i j si sj c Hi Hj Ha. apply (lookup_replicate_1 10) in Hi as [-> _]. done.
Qed.

(** Streams do not get mixed up: whatever packets arrive, connections end, and streams do, two
    active streams of one connection have different ids, and the id of every active stream that
    was opened by a client is even. *)
Lemma stream_ids_distinct h s inputs ctx t
    (Hrun : manager_run inputs (exec nc_stream_manager_init (manager_zero h s)) = Def (tt, ctx, t)) :
  forall i si, sg_streams ctx !! i = Some si -> ns_active si = true ->
  ns_streamId si mod 2 = 0 /\
  forall j sj c, sg_streams ctx !! j = Some sj -> ns_active sj = true ->
    sg_streamConns ctx !! i = Some (Some c) -> sg_streamConns ctx !! j = Some (Some c) ->
    ns_streamId si = ns_streamId sj -> i = j.
Proof.
  apply table_run in Hrun as (_ & _ & Hid & Hu); [| apply table_init]. intros i si Hi Ha. split.
  - pose proof (Hid _ _ Hi) as Hi2. by rewrite Ha in Hi2.
  - intros j sj c Hj Haj Hci Hcj E. by apply (Hu i j si sj c).
Qed.

(** A packet whose header can be read. *)
Definition packet_header (buf : list Z) (n : nat) (streamId : Z) (off : nat) (flags : Z) : Prop :=
  (4 <= n)%nat /\ exists len, var_uint_read (drop 1 buf) (Z.of_nat n - 1) = Def (true, streamId, len) /\
    off = (1 + Z.to_nat len)%nat /\ rd buf off = Def flags.

Lemma packet_unfold v conn ref buf n streamId off flags ctx :
  packet_header buf n streamId off flags ->
  nc_stream_manager_handle_packet v conn ref buf n ctx =
    (let+ stream :=
       match nc_stream_manager_find_stream ctx streamId conn with
       | Some i => ulift (hret (Some i))
       | None =>
           if flags =? NABTO_STREAM_FLAG_SYN
           then nc_stream_manager_accept_stream conn ref streamId (pe_created v)
           else ulift (hret None)
       end in
     match stream with
     | None =>
         if negb (Z.land flags NABTO_STREAM_FLAG_RST =? NABTO_STREAM_FLAG_RST)
         then ulift (nc_stream_manager_send_rst conn streamId (pe_rst_buffer v) (pe_rst_size v))
         else ulift hskip
     | Some i =>
         at_stream i (fun listening =>
           nc_stream_handle_packet listening (pe_now v) (pe_sent v) (pe_depth v) (take (n - off) (drop off buf)))
     end) ctx.
Proof.
  intros (Hn & len & Hv & -> & Hf). unfold nc_stream_manager_handle_packet.
  rewrite (proj2 (Nat.ltb_ge _ _) Hn), Hv, u_def. cbn [negb]. by rewrite Hf, u_def, u_hget.
Qed.

(** The outcome of a handler in a slot, whatever it is, is the handler's own. *)
Definition delivered (v : packet_env) (i : nat) (s : nc_stream_context (L := L)) (data : list Z)
    (ctx : nc_stream_manager_context) : cres (unit * nc_stream_manager_context * list manager_call) :=
  match nc_stream_handle_packet (listening ctx) (pe_now v) (pe_sent v) (pe_depth v) data s with
  | Def (_, s', t) => Def (tt, ctx {{ sg_streams ::= insert i s' }}, map (route ctx i) t)
  | UB => UB
  end.

Lemma at_stream_delivered v i s data ctx :
  sg_streams ctx !! i = Some s ->
  at_stream i (fun listening => nc_stream_handle_packet listening (pe_now v) (pe_sent v) (pe_depth v) data) ctx =
    delivered v i s data ctx.
Proof. intros Hi. unfold at_stream, delivered. rewrite Hi. by destruct (nc_stream_handle_packet _ _ _ _ _ s) as [[[[] ?] ?] |]. Qed.

Lemma find_stream_owner ctx i s streamId conn :
  table_ok ctx -> sg_streams ctx !! i = Some s -> ns_active s = true -> ns_streamId s = streamId -> streamId <> 0 ->
  sg_streamConns ctx !! i = Some (Some conn) -> nc_stream_manager_find_stream ctx streamId conn = Some i.
Proof.
  intros (_ & _ & Hid & Hu) Hi Ha Hs Hne Hc. unfold nc_stream_manager_find_stream.
  destruct (first_slot _ _ _) as [j |] eqn:Ef.
  - destruct (first_slot_Some _ _ _ _ Ef) as (sj & cj & Hj & Hcj & [Ej ->]%owns_true & _). f_equal.
    apply (Hu j i sj s conn); try done; [| congruence].
    pose proof (Hid _ _ Hj). destruct (ns_active sj); [done | congruence].
  - pose proof (first_slot_None _ _ _ Ef i s _ Hi Hc) as Hn.
    assert (Ht : owns streamId conn s (Some conn) = true) by (by apply owns_true). congruence.
Qed.

Definition free_slot (ctx : nc_stream_manager_context) : option nat :=
  first_slot (fun s _ => negb (ns_active s)) (sg_streams ctx) (sg_streamConns ctx).

(** Where a packet of a connection goes. It reaches the active stream with its id, and that one
    only. Without such a stream, a SYN with an even id opens one in the first free slot, with
    the id, the reference and the connection, which gets the packet; when that is not possible,
    and for every other packet but a reset, a reset is sent if none is being sent. The id 0 is
    no id: it reaches the first slot that once was the connection's, though its stream is
    destroyed. *)
Lemma stream_packet_dispatch h s inputs ctx t v conn ref buf n streamId off flags
    (Hrun : manager_run inputs (exec nc_stream_manager_init (manager_zero h s)) = Def (tt, ctx, t))
    (Hp : packet_header buf n streamId off flags) :
  let data := take (n - off) (drop off buf) in
  let r := nc_stream_manager_handle_packet v conn ref buf n ctx in
  (forall i si, sg_streams ctx !! i = Some si -> ns_active si = true -> ns_streamId si = streamId -> streamId <> 0 ->
     sg_streamConns ctx !! i = Some (Some conn) -> r = delivered v i si data ctx) /\
  (forall i si, nc_stream_manager_find_stream ctx streamId conn = None -> free_slot ctx = Some i ->
     sg_streams ctx !! i = Some si -> flags = NABTO_STREAM_FLAG_SYN -> streamId mod 2 <> 1 ->
     List.find is_error (pe_created v) = None ->
     let s1 := exec (nc_stream_init streamId ref []) si in
     ns_active s1 = true /\ ns_streamId s1 = streamId /\
     r = delivered v i s1 data (ctx {{ sg_streams ::= insert i s1; sg_streamConns ::= insert i (Some conn) }})) /\
  (nc_stream_manager_find_stream ctx streamId conn = None ->
     flags <> NABTO_STREAM_FLAG_SYN \/ streamId mod 2 = 1 \/ free_slot ctx = None ->
     r = if Z.land flags NABTO_STREAM_FLAG_RST =? NABTO_STREAM_FLAG_RST then Def (tt, ctx, [])
         else ulift (nc_stream_manager_send_rst conn streamId (pe_rst_buffer v) (pe_rst_size v)) ctx) /\
  (forall i si, first_slot (owns 0 conn) (sg_streams ctx) (sg_streamConns ctx) = Some i ->
     sg_streams ctx !! i = Some si -> streamId = 0 -> r = delivered v i si data ctx).
Proof.
  apply table_run in Hrun; [| apply table_init]. cbv zeta. rewrite (packet_unfold _ _ _ _ _ _ _ _ _ Hp).
  assert (Hfound : forall i si, nc_stream_manager_find_stream ctx streamId conn = Some i -> sg_streams ctx !! i = Some si ->
    (let+ stream := ulift (hret (Some i)) in
     match stream with
     | None => if negb (Z.land flags NABTO_STREAM_FLAG_RST =? NABTO_STREAM_FLAG_RST)
         then ulift (nc_stream_manager_send_rst conn streamId (pe_rst_buffer v) (pe_rst_size v)) else ulift hskip
     | Some i => at_stream i (fun listening =>
           nc_stream_handle_packet listening (pe_now v) (pe_sent v) (pe_depth v) (take (n - off) (drop off buf)))
     end) ctx = delivered v i si (take (n - off) (drop off buf)) ctx).
  { intros i si _ Hi. rewrite <- (at_stream_delivered v i si _ ctx Hi). by rewrite u_hret. }
  split_and!.
  - intros i si Hi Ha Hs Hne Hc. pose proof (find_stream_owner _ _ _ _ _ Hrun Hi Ha Hs Hne Hc) as Hf. rewrite Hf. by apply Hfound.
  - intros i si Hf Ef Hi -> Ho Hn. rewrite Hf, Z.eqb_refl. apply Z.eqb_neq in Ho.
    split; [by destruct si |]. split; [by destruct si |].
    set (s1 := exec (nc_stream_init streamId ref []) si). set (c1 := ctx {{ sg_streams ::= _; sg_streamConns ::= _ }}).
    assert (Ea : nc_stream_manager_accept_stream conn ref streamId (pe_created v) ctx = Def (Some i, c1, [])).
    { assert (Ei : at_stream i (fun _ => ulift (nc_stream_init streamId ref (pe_created v))) ctx =
        Def (NABTO_EC_OK, ctx {{ sg_streams ::= insert i s1 }}, [])).
      { unfold at_stream. rewrite Hi. unfold ulift, nc_stream_init. by rewrite Hn, hmod_seq. }
      unfold nc_stream_manager_accept_stream. rewrite Ho, u_hget. fold (free_slot ctx).
      rewrite Ef. unfold ubind. rewrite Ei. by destruct ctx. }
    unfold ubind at 1. rewrite Ea.
    assert (Hi1 : sg_streams c1 !! i = Some s1).
    { transitivity (<[i := s1]> (sg_streams ctx) !! i); [by destruct ctx |].
      rewrite list_lookup_insert_eq; [done | by eapply lookup_lt_Some]. }
    rewrite (at_stream_delivered v i s1 _ c1 Hi1). by destruct (delivered v i s1 _ c1) as [[[[] ?] ?] |].
  - intros Hf Hfl. rewrite Hf.
    assert (Hnone : (if flags =? NABTO_STREAM_FLAG_SYN
      then nc_stream_manager_accept_stream conn ref streamId (pe_created v) else ulift (hret None)) ctx = Def (None, ctx, [])).
    { destruct (Z.eqb_spec flags NABTO_STREAM_FLAG_SYN) as [-> | _]; [| done].
      unfold nc_stream_manager_accept_stream. destruct Hfl as [Hfl | [Ho | Hfree]]; [done | by rewrite Ho |].
      destruct (streamId mod 2 =? 1); [done |]. rewrite u_hget. fold (free_slot ctx). by rewrite Hfree. }
    rewrite (u_quiet _ _ _ _ Hnone). by destruct (Z.land _ _ =? _).
  - intros i si Hf Hi ->. assert (Hf' : nc_stream_manager_find_stream ctx 0 conn = Some i) by done. rewrite Hf'. by apply Hfound.
Qed.

(** ** Listeners *)

Section Laws.
Context `{!LListLaws H}.

Definition types (ctx : nc_stream_manager_context) : list Z := map sl_type (all_listeners ctx).

Lemma in_use_spec ctx type : nc_stream_manager_port_in_use ctx type = true <-> type ∈ types ctx.
Proof.
  unfold nc_stream_manager_port_in_use, types. rewrite existsb_exists, list_elem_of_fmap. split.
  - intros (l & Hl & E). apply Z.eqb_eq in E. exists l. by rewrite list_elem_of_In.
  - intros (l & -> & Hl). exists l. rewrite <- list_elem_of_In. split; [done | apply Z.eqb_refl].
Qed.

Lemma ephemeral_range r : 2147483648 <= u32 (2147483648 + Z.land (u32 r) 2147483647) < 2 ^ 32.
Proof.
  change 2147483647 with (Z.ones 31). rewrite Z.land_ones by done. divlia.
Qed.

Lemma ephemeral_loop_spec ctx n : forall rand,
  match ephemeral_loop ctx n rand with
  | Some port => port ∉ types ctx /\ 2147483648 <= port < 2 ^ 32
  | None => forall i r, (i < n)%nat -> rand !! i = Some r -> u32 (2147483648 + Z.land (u32 r) 2147483647) ∈ types ctx
  end.
Proof.
  induction n as [| n IH]; intros [| r rand]; cbn [ephemeral_loop]; try (intros; lia || done).
  destruct (nc_stream_manager_port_in_use ctx _) eqn:E; cbn [negb].
  - specialize (IH rand). destruct (ephemeral_loop ctx n rand); [done |].
    intros [| i] x Hi; [intros [= <-]; by apply in_use_spec | apply IH; lia].
  - split; [| apply ephemeral_range]. intros Hin%in_use_spec. congruence.
Qed.

(** Listeners never compete for a port: adding a listener takes the port that was asked for, or for
    port 0 an ephemeral one (2^31 or above) that is free, and appends the listener; it is
    refused, with nothing changed, exactly when the port is in use, or all ten numbers that were
    drawn are. The ports stay distinct, also when a listener is removed, so a new stream is
    handed to the only listener of its type. *)
Lemma listener_ports_distinct ctx rand l type cb
    (Hok : ll_ok (sg_links ctx)) (Hd : NoDup (types ctx)) (Hl : ll_in_list (sg_links ctx) l = false) :
  let m := nc_stream_manager_add_listener rand l type cb in
  let ctx' := exec m ctx in
  match result m ctx with
  | NABTO_EC_OK =>
      exists port, all_listeners ctx' = all_listeners ctx ++ [mk_listener port cb] /\ port ∉ types ctx /\
        (if type =? 0 then 2147483648 <= port < 2 ^ 32 else port = type) /\
        ll_ok (sg_links ctx') /\ NoDup (types ctx') /\ find_listener ctx' port = Some (mk_listener port cb)
  | NABTO_EC_OPERATION_IN_PROGRESS => ctx' = ctx /\ type <> 0 /\ type ∈ types ctx
  | NABTO_EC_UNKNOWN =>
      ctx' = ctx /\ type = 0 /\
      forall i r, (i < 10)%nat -> rand !! i = Some r -> u32 (2147483648 + Z.land (u32 r) 2147483647) ∈ types ctx
  | _ => False
  end /\
  forall n, ll_in_list (sg_links ctx) n = true ->
    let ctx1 := exec (nc_stream_manager_remove_listener n) ctx in
    ll_ok (sg_links ctx1) /\ NoDup (types ctx1) /\
    all_listeners ctx1 = map (sg_listener ctx) (filter (fun m => m <> n) (ll_items (sg_links ctx) listeners)).
Proof.
  cbv zeta. split.
  - assert (Hadd : forall port, port ∉ types ctx ->
      let ctx' := ctx {{ sg_listener ::= insert l (mk_listener port cb);
                         sg_links ::= fun h => ll_append h listeners l }} in
      all_listeners ctx' = all_listeners ctx ++ [mk_listener port cb] /\ ll_ok (sg_links ctx') /\
      NoDup (types ctx') /\ find_listener ctx' port = Some (mk_listener port cb)).
    { intros port Hp. cbv zeta. set (ctx' := _ {{ _ ::= _; _ ::= _ }}).
      assert (E : all_listeners ctx' = all_listeners ctx ++ [mk_listener port cb]).
      { transitivity (map (<[l := mk_listener port cb]> (sg_listener ctx))
          (ll_items (ll_append (sg_links ctx) listeners l) listeners)); [by destruct ctx |].
        rewrite ll_append_items, decide_True, map_app by done. cbn [map]. rewrite fn_lookup_insert. f_equal.
        apply map_ext_in. intros x Hx%list_elem_of_In. rewrite fn_lookup_insert_ne; [done |].
        intros <-. assert (Hin : ll_in_list (sg_links ctx) l = true) by (apply ll_in_list_spec; [done | by exists listeners]).
        congruence. }
      split; [done |]. split.
      { replace (sg_links ctx') with (ll_append (sg_links ctx) listeners l) by (by destruct ctx). by apply ll_append_ok. }
      split.
      { unfold types. rewrite E, map_app. cbn [map]. apply NoDup_app. split; [done |]. split; [| apply NoDup_singleton].
        intros x Hx ->%list_elem_of_singleton. by apply Hp. }
      unfold find_listener. rewrite E. clear E. unfold types in Hp.
      induction (all_listeners ctx) as [| x ls IH]; cbn; [by rewrite Z.eqb_refl |].
      destruct (Z.eqb_spec (sl_type x) port) as [<- |]; [destruct Hp; left | apply IH]. intros Hx. apply Hp. by right. }
    unfold nc_stream_manager_add_listener, exec, result. rewrite hget_seq. destruct (Z.eqb_spec type 0) as [-> | Ht].
    + unfold nc_stream_manager_get_ephemeral_stream_port. pose proof (ephemeral_loop_spec ctx 10 rand) as He.
      destruct (ephemeral_loop ctx 10 rand) as [port |]; [| done]. destruct He as [Hp Hr].
      destruct (nc_stream_manager_port_in_use ctx port) eqn:Eu; [by apply in_use_spec in Eu |].
      rewrite hmod_seq. cbn [hret fst snd]. exists port. destruct (Hadd port Hp) as (? & ? & ? & ?). done.
    + destruct (nc_stream_manager_port_in_use ctx type) eqn:Eu; [by apply in_use_spec in Eu |].
      assert (Hp : type ∉ types ctx) by (intros Hin%in_use_spec; congruence).
      rewrite hmod_seq. cbn [hret fst snd]. exists type. destruct (Hadd type Hp) as (? & ? & ? & ?). done.
  - intros n Hn. set (ctx1 := exec _ ctx).
    assert (E : sg_links ctx1 = ll_erase_node (sg_links ctx) n /\ sg_listener ctx1 = sg_listener ctx) by (by destruct ctx).
    destruct E as [E1 E2].
    assert (Ea : all_listeners ctx1 = map (sg_listener ctx) (filter (fun m => m <> n) (ll_items (sg_links ctx) listeners))).
    { unfold all_listeners. by rewrite E1, E2, ll_erase_items. }
    rewrite E1. split; [by apply ll_erase_ok |]. split; [| done].
    unfold types. rewrite Ea. eapply sublist_NoDup; [exact Hd |].
    unfold types, all_listeners. apply fmap_sublist, fmap_sublist, sublist_filter.
Qed.
End Laws.

(** ** Segments *)

(** The operations on segments, for sending ([send]) or receiving; only a segment that was
    allocated is freed. [live] counts the segments that are allocated. *)
Inductive segment_op : Type :=
| SegAlloc (send calloc malloc : bool)
| SegFree (send : bool)
| SegSetMax (maxSegments : Z).

Definition seg_alloc (send calloc malloc : bool) : sg_handler bool :=
  if send then nc_stream_manager_alloc_send_segment calloc malloc
  else nc_stream_manager_alloc_recv_segment calloc malloc.
Definition seg_free (send : bool) : sg_handler unit :=
  if send then nc_stream_manager_free_send_segment true else nc_stream_manager_free_recv_segment true.

Fixpoint seg_run (ops : list segment_op) (live : nat) (ctx : nc_stream_manager_context) :
    option (nat * nc_stream_manager_context) :=
  match ops with
  | [] => Some (live, ctx)
  | SegAlloc send c m :: ops =>
      seg_run ops (if result (seg_alloc send c m) ctx then S live else live) (exec (seg_alloc send c m) ctx)
  | SegFree send :: ops =>
      match live with O => None | S live => seg_run ops live (exec (seg_free send) ctx) end
  | SegSetMax n :: ops => seg_run ops live (exec (nc_stream_manager_set_max_segments n) ctx)
  end.

Lemma seg_alloc_run send c m ctx :
  seg_alloc send c m ctx =
    if (sg_allocatedSegments ctx <? sg_maxSegments ctx) && c && m
    then (true, ctx {{ sg_allocatedSegments ::= fun n => u64 (n + 1) }}, []) else (false, ctx, []).
Proof.
  unfold seg_alloc, nc_stream_manager_alloc_send_segment, nc_stream_manager_alloc_recv_segment.
  replace (sg_allocatedSegments ctx <? sg_maxSegments ctx)
    with (negb (sg_maxSegments ctx <=? sg_allocatedSegments ctx))
    by (apply Bool.eq_iff_eq_true; rewrite negb_true_iff, Z.leb_gt, Z.ltb_lt; done).
  destruct send; rewrite hget_seq; destruct (sg_maxSegments ctx <=? sg_allocatedSegments ctx), c, m; try done;
    cbn [negb andb]; by rewrite hmod_seq.
Qed.

(** The account of the segments is exact and bounds the memory of the streams: while only
    allocated segments are freed, the counter is the number of segments that are allocated and
    never wraps, that number never exceeds the largest limit that was set, and the next
    allocation is refused exactly when the limit is reached (or there is no memory). *)
Lemma segments_bounded limit ops live ctx ctx' send
    (Hrun : seg_run ops 0 ctx = Some (live, ctx'))
    (Hz : sg_allocatedSegments ctx = 0) (Hl : 0 <= sg_maxSegments ctx <= limit) (H64 : limit < 2 ^ 64)
    (Hset : forall n, SegSetMax n ∈ ops -> 0 <= n <= limit) :
  sg_allocatedSegments ctx' = Z.of_nat live /\ Z.of_nat live <= limit /\
  forall c m, result (seg_alloc send c m) ctx' = (Z.of_nat live <? sg_maxSegments ctx') && c && m.
Proof.
  assert (Hg : forall ops live0 ctx, seg_run ops live0 ctx = Some (live, ctx') ->
    sg_allocatedSegments ctx = Z.of_nat live0 -> Z.of_nat live0 <= limit -> 0 <= sg_maxSegments ctx <= limit ->
    (forall n, SegSetMax n ∈ ops -> 0 <= n <= limit) ->
    sg_allocatedSegments ctx' = Z.of_nat live /\ Z.of_nat live <= limit).
  { clear Hrun Hz Hl Hset. intros ops0. clear ctx ops.
    induction ops0 as [| [sd c m | sd | n] ops IH]; intros live0 ctx; cbn [seg_run].
    - intros [= <- <-]. done.
    - intros Hr Ha Hle Hm Hs. unfold result, exec in Hr. rewrite seg_alloc_run in Hr.
      destruct (Z.ltb_spec (sg_allocatedSegments ctx) (sg_maxSegments ctx)) as [Hlt | _];
        [destruct c, m |]; cbn [andb fst snd] in Hr;
        try (apply (IH _ _ Hr); [done | done | done | by intros n Hn; apply Hs; right]).
      assert (Hu : sg_allocatedSegments (ctx {{ sg_allocatedSegments ::= fun n => u64 (n + 1) }}) = Z.of_nat (S live0)).
      { transitivity (u64 (sg_allocatedSegments ctx + 1)); [by destruct ctx |]. rewrite Ha, u64_small; [lia |]. solve_int. }
      apply (IH _ _ Hr); [done | lia | by destruct ctx | by intros n Hn; apply Hs; right].
    - destruct live0 as [| live0]; [done |]. intros Hr Ha Hle Hm Hs.
      assert (He : exec (seg_free sd) ctx = ctx {{ sg_allocatedSegments ::= fun n => u64 (n - 1) }}) by (by destruct sd).
      rewrite He in Hr.
      assert (Hu : sg_allocatedSegments (ctx {{ sg_allocatedSegments ::= fun n => u64 (n - 1) }}) = Z.of_nat live0).
      { transitivity (u64 (sg_allocatedSegments ctx - 1)); [by destruct ctx |]. rewrite Ha, u64_small; [lia |]. solve_int. }
      apply (IH _ _ Hr); [done | lia | by destruct ctx | by intros n Hn; apply Hs; right].
    - intros Hr Ha Hle Hm Hs. apply (IH _ _ Hr); [by destruct ctx | done | | by intros k Hk; apply Hs; right].
      replace (sg_maxSegments _) with n by (by destruct ctx). apply Hs. left. }
  destruct (Hg _ _ _ Hrun) as [E Hle]; [by rewrite Hz | lia | done | done |].
  split; [done |]. split; [done |]. intros c m. unfold result. rewrite seg_alloc_run, E. by case_match.
Qed.
End StreamManager.

(** ** Witnesses *)

Definition example_manager : nc_stream_manager_context (L := queue_lib) (H := heap) :=
  exec nc_stream_manager_init (manager_zero ∅ nabto_stream_init).

Definition example_penv : packet_env := mk_penv [] true 1500 0 NABTO_EC_OK 8.

(** A SYN for stream 4 of connection 3, then one for stream 6. *)
Definition example_packets : list manager_input :=
  [MiPacket example_penv 3 77 [5; 4; 2; 0] 4; MiPacket example_penv 3 77 [5; 6; 2; 0] 4].

Lemma stream_ids_distinct_witness :
  exists ctx t, manager_run example_packets example_manager = Def (tt, ctx, t) /\
  forall s, sg_streams ctx !! 1%nat = Some s -> ns_active s = true -> ns_streamId s mod 2 = 0.
Proof.
  eexists _, _. split; [vm_compute; reflexivity |]. intros s Hs Ha.
  refine (proj1 (stream_ids_distinct (∅ : heap) (nabto_stream_init : queue_lib) example_packets _ _ _ 1 s Hs Ha)).
  vm_compute. reflexivity.
Defined.

(** The next packet of stream 6 reaches the stream in slot 1. *)
Lemma stream_packet_dispatch_witness :
  exists ctx t s, manager_run example_packets example_manager = Def (tt, ctx, t) /\
    sg_streams ctx !! 1%nat = Some s /\
    nc_stream_manager_handle_packet example_penv 3 77 [5; 6; 8; 1; 2] 5 ctx = delivered example_penv 1 s [8; 1; 2] ctx.
Proof.
  eexists _, _, _. split; [vm_compute; reflexivity |]. split; [vm_compute; reflexivity |].
  refine (proj1 (stream_packet_dispatch (∅ : heap) (nabto_stream_init : queue_lib) example_packets _ _
            example_penv 3 77 [5; 6; 8; 1; 2] 5 6 2 8 _ _) 1%nat _ _ _ _ _ _).
  - vm_compute. reflexivity.
  - split; [lia |]. exists 1. vm_compute. auto.
  - reflexivity.
  - reflexivity.
  - reflexivity.
  - discriminate.
  - reflexivity.
Defined.

Lemma listener_ports_distinct_witness :
  exists port, 2147483648 <= port < 2 ^ 32 /\
    find_listener (exec (nc_stream_manager_add_listener [5] 2%nat 0 9) example_manager) port = Some (mk_listener port 9).
Proof.
  destruct (listener_ports_distinct example_manager [5] 2%nat 0 9) as [Hadd _].
  - assert (E : forall l, heap_items (sg_links example_manager) l = []) by 
      (intros l; change (default [] ((<[0%nat := []]> ∅ : heap) !! l) = []); destruct (decide (0%nat = l)) as [<- | Hne];
       [done | by rewrite lookup_insert_ne, lookup_empty]).
    split; [intros l; rewrite E; constructor | intros l l' n; rewrite E; by intros ?%elem_of_nil].
  - vm_compute. constructor.
  - vm_compute. reflexivity.
  - destruct Hadd as (port & _ & _ & Hport & _ & _ & Hf). exists port. split; [exact Hport | exact Hf].
Defined.

Lemma segments_bounded_witness :
  exists ctx, seg_run [SegSetMax 2; SegAlloc true true true; SegAlloc false true true; SegFree true;
                       SegAlloc true true false; SegAlloc true true true] 0 example_manager = Some (2%nat, ctx) /\
    result (seg_alloc true true true) ctx = false.
Proof.
  eexists. split; [vm_compute; reflexivity |].
  destruct (segments_bounded 1000000
    [SegSetMax 2; SegAlloc true true true; SegAlloc false true true; SegFree true; SegAlloc true true false;
     SegAlloc true true true] 2 example_manager
    _ true ltac:(vm_compute; reflexivity)) as (_ & _ & Hr).
  - reflexivity.
  - vm_compute. split; discriminate.
  - reflexivity.
  - intros n Hn. repeat (apply elem_of_cons in Hn as [Hn | Hn]; [try discriminate; injection Hn as ->; lia |]).
    by apply elem_of_nil in Hn.
  - exact (Hr true true).
Defined.
