(* ===== verification/Futures.v ===== *)
(** * Futures and listeners of the API (nabto_device_future.c, nabto_device_future_queue.c,
      nabto_device_event_handler.c, nabto_device_events.c)

    A future is resolved once with an error code; its callback, if the user set one, is called by
    the thread of the future queue. A listener hands the events of the core to the futures of the
    user, one each, in order, until it is put into an error state. Every operation runs under a
    mutex, so the operations are atomic steps; waiting on a condition is a parameter. *)

From S2P Require Import Prelude Platform Collections.
From stdpp Require Import functions sets gmap.

#[local] Open Scope Z_scope.
#[local] Open Scope list_scope.
#[local] Open Scope handler_scope.

(** ** Futures and their queue *)

(** The API codes are the core's: [NABTO_DEVICE_EC_x] is defined as [NABTO_EC_x]. *)
Definition nabto_device_error_core_to_api (ec : np_error_code) : np_error_code := ec.

Record nabto_device_future : Type := mk_future {
  fu_cb : option nat;
  fu_ec : np_error_code;
  fu_ready : bool
}.

Definition future_zero : nabto_device_future := mk_future None NABTO_EC_OK false.

Inductive future_call : Type :=
| FuSignal (f : nid)                              (* cond_signal of the future *)
| FuQueueSignal
| FuCallback (f : nid) (cb : nat) (ec : np_error_code).

Section Futures.
Context {H : Type} `{LList H}.

(** The futures of the program by their address, and the queue. *)
Record future_state : Type := mk_fs {
  fs_futures : nid -> nabto_device_future;
  fs_links : H;                                   (* the nodes of [futureList] *)
  fs_stopped : bool
}.

Definition futureList : lid := 0%nat.

Definition fu_handler (A : Type) : Type := handler future_state future_call A.
Definition fu_uhandler (A : Type) : Type := uhandler future_state future_call A.

Definition set_future (f : nid) (g : nabto_device_future -> nabto_device_future) : fu_handler unit :=
  hmod (fun s => s {{ fs_futures ::= fun m => <[f := g (m f)]> m }}).

Definition nabto_device_future_queue_init (h : H) : future_state :=
  mk_fs (fun _ => future_zero) (ll_init h futureList) false.

Definition nabto_device_future_queue_stop : fu_handler unit :=
  hmod (fun s => s {{ fs_stopped := true }}) ;;; emit FuQueueSignal.

(** Appending a node that is in a list is undefined. *)
Definition nabto_device_future_queue_post (f : nid) : fu_uhandler unit :=
  let+ s := ulift hget in
  if ll_in_list (fs_links s) f then fun _ => UB
  else ulift (hmod (fun s => s {{ fs_links ::= fun h => ll_append h futureList f }}) ;;; emit FuQueueSignal).

Definition nabto_device_future_set_callback (f : nid) (cb : nat) : fu_uhandler unit :=
  let+ _ := ulift (set_future f (fun fut => fut {{ fu_cb := Some cb }})) in
  let+ s := ulift hget in
  if fu_ready (fs_futures s f) then nabto_device_future_queue_post f else ulift hskip.

(** What [nabto_device_future_wait] returns when the wait on the condition returns, for whatever
    reason; it is not called when the future is ready. *)
Definition nabto_device_future_wait (fut : nabto_device_future) : np_error_code := fu_ec fut.

(** The same with a timeout, for the state of the future after the wait. *)
Definition nabto_device_future_timed_wait (fut : nabto_device_future) : np_error_code :=
  if fu_ready fut then fu_ec fut else NABTO_EC_FUTURE_NOT_RESOLVED.

Definition nabto_device_future_error_code (fut : nabto_device_future) : np_error_code :=
  if negb (fu_ready fut) then NABTO_EC_FUTURE_NOT_RESOLVED else fu_ec fut.

Definition nabto_device_future_ready (fut : nabto_device_future) : np_error_code :=
  nabto_device_future_error_code fut.

Definition nabto_device_future_reset (f : nid) : fu_handler unit := set_future f (fun _ => future_zero).

Definition nabto_device_future_popped (f : nid) : fu_handler unit :=
  let* s := hget in
  set_future f (fun fut => fut {{ fu_cb := None }}) ;;;
  match fu_cb (fs_futures s f) with
  | Some cb => emit (FuCallback f cb (fu_ec (fs_futures s f)))
  | None => hskip
  end.

Definition nabto_device_future_resolve (f : nid) (ec : np_error_code) : fu_uhandler unit :=
  let+ _ := ulift (set_future f (fun fut => fut {{ fu_ec := ec; fu_ready := true }})) in
  let+ s := ulift hget in
  match fu_cb (fs_futures s f) with
  | Some _ => nabto_device_future_queue_post f
  | None => ulift (emit (FuSignal f))
  end.

(** One round of [execution_thread]. *)
Inductive round_result : Type := RoundPopped | RoundStopped | RoundWait.

Definition execution_round : fu_handler round_result :=
  let* s := hget in
  match ll_items (fs_links s) futureList with
  | f :: _ =>
      hmod (fun s => s {{ fs_links ::= fun h => ll_erase_node h f }}) ;;;
      nabto_device_future_popped f ;;;
      hret RoundPopped
  | [] => if fs_stopped s then hret RoundStopped else hret RoundWait
  end.

Fixpoint execution_rounds (n : nat) : fu_handler round_result :=
  match n with
  | O => execution_round
  | S n => execution_round ;;; execution_rounds n
  end.

(** Resetting a future that is queued is the user's error: the next resolve would post it again. *)
Inductive future_input : Type :=
| FiReset (f : nid)
| FiSetCallback (f : nid) (cb : nat)
| FiResolve (f : nid) (ec : np_error_code)
| FiRound
| FiStop.

Definition future_step (i : future_input) : fu_uhandler unit :=
  match i with
  | FiReset f =>
      let+ s := ulift hget in
      if ll_in_list (fs_links s) f then fun _ => UB else ulift (nabto_device_future_reset f)
  | FiSetCallback f cb => nabto_device_future_set_callback f cb
  | FiResolve f ec => nabto_device_future_resolve f ec
  | FiRound => ulift (execution_round ;;; hskip)
  | FiStop => ulift nabto_device_future_queue_stop
  end.

Fixpoint future_run (inputs : list future_input) : fu_uhandler unit :=
  match inputs with
  | [] => ulift hskip
  | i :: rest => let+ _ := future_step i in future_run rest
  end.
End Futures.

Section FutureLaws.
Context {H : Type} `{LListLaws H}.

(** The queue holds exactly the futures that are ready and have a callback. *)
Record future_inv (s : future_state (H := H)) : Prop := {
  fi_ok : ll_ok (fs_links s);
  fi_other : forall l, l <> futureList -> ll_items (fs_links s) l = [];
  fi_queue : forall f, f ∈ ll_items (fs_links s) futureList <->
    fu_ready (fs_futures s f) = true /\ fu_cb (fs_futures s f) <> None
}.

Lemma in_queue s f : future_inv s ->
  ll_in_list (fs_links s) f = true <-> f ∈ ll_items (fs_links s) futureList.
Proof.
  intros [Hok Ho _]. rewrite ll_in_list_spec by done. split; [| by exists futureList].
  intros (l & Hl). destruct (decide (l = futureList)) as [-> | Hne]; [done |].
  rewrite Ho in Hl by done. by apply elem_of_nil in Hl.
Qed.

(** Changing a future that stays out of the queue, or stays in it. *)
Lemma inv_set f g s :
  future_inv s ->
  (fu_ready (g (fs_futures s f)) = true /\ fu_cb (g (fs_futures s f)) <> None <->
   fu_ready (fs_futures s f) = true /\ fu_cb (fs_futures s f) <> None) ->
  future_inv (exec (set_future f g) s).
Proof.
  intros [Hok Ho Hq] Hg. unfold exec, set_future, hmod. cbn [fst snd].
  assert (E : fs_futures (s {{ fs_futures ::= fun m => <[f := g (m f)]> m }}) =
    <[f := g (fs_futures s f)]> (fs_futures s) /\
    fs_links (s {{ fs_futures ::= fun m => <[f := g (m f)]> m }}) = fs_links s) by (by destruct s).
  destruct E as [E1 E2]. split; rewrite ?E1, ?E2; try done. intros f'. rewrite Hq.
  destruct (decide (f = f')) as [<- | Hne]; [by rewrite fn_lookup_insert | by rewrite fn_lookup_insert_ne].
Qed.

(** A future gets ready or gets a callback, and is posted. *)
Lemma inv_post f g s s' t :
  future_inv s ->
  ubind (ulift (set_future f g)) (fun _ => nabto_device_future_queue_post f) s = Def (tt, s', t) ->
  fu_ready (g (fs_futures s f)) = true -> fu_cb (g (fs_futures s f)) <> None -> future_inv s'.
Proof.
  intros Hi. pose proof Hi as [Hok Ho Hq]. unfold set_future. rewrite u_hmod. set (s1 := s {{ _ ::= _ }}).
  unfold nabto_device_future_queue_post. rewrite u_hget.
  assert (E : fs_futures s1 = <[f := g (fs_futures s f)]> (fs_futures s) /\ fs_links s1 = fs_links s) by (by destruct s).
  destruct E as [E1 E2]. rewrite E2. destruct (ll_in_list (fs_links s) f) eqn:Ein; [done |].
  intros [-> ->]%ulift_inv Hr Hc. unfold exec, hbind, hmod, emit. cbn [fst snd].
  set (s2 := s1 {{ _ ::= _ }}).
  assert (E3 : fs_futures s2 = fs_futures s1 /\ fs_links s2 = ll_append (fs_links s) futureList f)
    by (rewrite <- E2; by destruct s1).
  destruct E3 as [E3 E4]. split; rewrite ?E3, ?E4, ?E1.
  - by apply ll_append_ok.
  - intros l Hl. rewrite ll_append_items, decide_False by done. by apply Ho.
  - intros f'. rewrite ll_append_items, decide_True by done. rewrite elem_of_app, Hq, list_elem_of_singleton.
    destruct (decide (f = f')) as [<- | Hne].
    + rewrite fn_lookup_insert. naive_solver.
    + rewrite fn_lookup_insert_ne by done. naive_solver.
Qed.

(** A round takes the first future of the queue. *)
Lemma round_run s f q :
  ll_items (fs_links s) futureList = f :: q ->
  execution_round s =
    (RoundPopped,
     s {{ fs_links := ll_erase_node (fs_links s) f;
          fs_futures := <[f := (fs_futures s f) {{ fu_cb := None }}]> (fs_futures s) }},
     match fu_cb (fs_futures s f) with Some cb => [FuCallback f cb (fu_ec (fs_futures s f))] | None => [] end).
Proof.
  intros E. unfold execution_round. rewrite hget_seq, E, hmod_seq. unfold nabto_device_future_popped.
  unfold hbind at 1. rewrite hget_seq. unfold set_future. rewrite hmod_seq. destruct s as [fs h st]. cbn.
  by destruct (fu_cb (fs f)).
Qed.

Lemma filter_tail (f : nid) q : NoDup (f :: q) -> filter (fun m => m <> f) (f :: q) = q.
Proof.
  intros [Hf _]%NoDup_cons. rewrite filter_cons_False by auto. apply filter_all. intros x Hx ->. done.
Qed.

Lemma inv_round s f q :
  future_inv s -> ll_items (fs_links s) futureList = f :: q ->
  future_inv (exec execution_round s) /\ ll_items (fs_links (exec execution_round s)) futureList = q /\
  forall f', f' <> f -> fs_futures (exec execution_round s) f' = fs_futures s f'.
Proof.
  intros Hi E. pose proof Hi as [Hok Ho Hq]. unfold exec. rewrite (round_run _ _ _ E). cbn [fst snd].
  set (s1 := s {{ _ := _; _ := _ }}).
  assert (E1 : fs_links s1 = ll_erase_node (fs_links s) f /\
    fs_futures s1 = <[f := (fs_futures s f) {{ fu_cb := None }}]> (fs_futures s)) by (by destruct s).
  destruct E1 as [E1 E2].
  assert (Hin : ll_in_list (fs_links s) f = true) by (apply in_queue; [done | rewrite E; left]).
  assert (Hnd : NoDup (f :: q)) by (rewrite <- E; by apply ll_nodup).
  assert (Eq : ll_items (fs_links s1) futureList = q) by (rewrite E1, ll_erase_items, E by done; by apply filter_tail).
  split; [| split; [done |]].
  - split; [rewrite E1; by apply ll_erase_ok | |].
    + intros l Hl. rewrite E1, ll_erase_items, Ho by done. done.
    + intros f'. rewrite Eq, E2. apply NoDup_cons in Hnd as [Hf _]. destruct (decide (f = f')) as [<- | Hne].
      * rewrite fn_lookup_insert. split; [done |]. intros [_ Hc]. by destruct (fs_futures s f).
      * rewrite fn_lookup_insert_ne, <- Hq, E, elem_of_cons by done. naive_solver.
  - intros f' Hne. rewrite E2. by rewrite fn_lookup_insert_ne.
Qed.

Lemma future_step_inv i s a s' t : future_inv s -> future_step i s = Def (a, s', t) -> future_inv s'.
Proof.
  intros Hi. destruct a. destruct i as [f | f cb | f ec | |]; cbn [future_step].
  - rewrite u_hget. destruct (ll_in_list (fs_links s) f) eqn:Ein; [done |]. intros [-> ->]%ulift_inv.
    apply inv_set; [done |]. rewrite <- (fi_queue _ Hi), <- (in_queue s f Hi), Ein. cbn. naive_solver.
  - unfold nabto_device_future_set_callback. destruct (fu_ready (fs_futures s f)) eqn:Er.
    + intros E. eapply (inv_post f (fun fut => fut {{ fu_cb := Some cb }})); [exact Hi | | by destruct (fs_futures s f) |].
      * rewrite <- E. unfold set_future. rewrite !u_hmod, u_hget.
        match goal with |- _ = (if ?b then _ else _) _ => replace b with true; [done |] end.
        destruct s as [fs h st]. cbn in *. rewrite fn_lookup_insert. by destruct (fs f).
      * by destruct (fs_futures s f).
    + unfold set_future. rewrite u_hmod, u_hget.
      match goal with |- (if ?b then _ else _) _ = _ -> _ => replace b with false end.
      2:{ destruct s as [fs h st]. cbn in *. rewrite fn_lookup_insert. by destruct (fs f). }
      intros [-> ->]%ulift_inv. change (future_inv (exec (set_future f (fun fut => fut {{ fu_cb := Some cb }})) s)).
      apply inv_set; [done |]. destruct (fs_futures s f). cbn in *. naive_solver congruence.
  - unfold nabto_device_future_resolve. destruct (fu_cb (fs_futures s f)) as [cb |] eqn:Ec.
    + intros E. eapply (inv_post f (fun fut => fut {{ fu_ec := ec; fu_ready := true }})); [exact Hi | | |].
      * rewrite <- E. unfold set_future. rewrite !u_hmod, u_hget.
        match goal with |- _ = (match ?b with _ => _ end) _ => replace b with (Some cb); [done |] end.
        destruct s as [fs h st]. cbn in *. rewrite fn_lookup_insert. by destruct (fs f).
      * by destruct (fs_futures s f).
      * destruct (fs_futures s f). cbn in *. congruence.
    + unfold set_future. rewrite u_hmod, u_hget.
      match goal with |- (match ?b with _ => _ end) _ = _ -> _ => replace b with (@None nat) end.
      2:{ destruct s as [fs h st]. cbn in *. rewrite fn_lookup_insert. by destruct (fs f). }
      intros [-> ->]%ulift_inv.
      change (future_inv (exec (set_future f (fun fut => fut {{ fu_ec := ec; fu_ready := true }})) s)).
      apply inv_set; [done |]. destruct (fs_futures s f). cbn in *. naive_solver.
  - intros [-> ->]%ulift_inv. rewrite exec_seq. destruct (ll_items (fs_links s) futureList) as [| f q] eqn:Eq.
    + unfold execution_round, exec, result. rewrite hget_seq, Eq. by destruct (fs_stopped s).
    + exact (proj1 (inv_round _ _ _ Hi Eq)).
  - intros [-> ->]%ulift_inv. by destruct s, Hi.
Qed.

Lemma future_run_inv inputs : forall s a s' t,
  future_inv s -> future_run inputs s = Def (a, s', t) -> future_inv s'.
Proof.
  induction inputs as [| i inputs IH]; intros s a s' t Hi; cbn [future_run]; [by intros [-> ->]%ulift_inv |].
  intros (b & s1 & t1 & t2 & E1 & E2 & ->)%ubind_inv. exact (IH _ _ _ _ (future_step_inv _ _ _ _ _ Hi E1) E2).
Qed.

Lemma rounds_drain q : forall s,
  future_inv s -> ll_items (fs_links s) futureList = q ->
  let m := execution_rounds (length q) in
  trace m s = omap (fun f => (fun cb => FuCallback f cb (fu_ec (fs_futures s f))) <$> fu_cb (fs_futures s f)) q /\
  result m s = (if fs_stopped s then RoundStopped else RoundWait) /\
  ll_items (fs_links (exec m s)) futureList = [].
Proof.
  induction q as [| f q IH]; intros s Hi Eq; cbv zeta; cbn [length execution_rounds].
  { unfold execution_round, trace, result, exec. rewrite hget_seq, Eq. by destruct (fs_stopped s) eqn:E. }
  destruct (inv_round _ _ _ Hi Eq) as (Hi1 & Eq1 & Hsame). destruct (IH _ Hi1 Eq1) as (Ht & Hr & He).
  assert (Hnd : NoDup (f :: q)) by (rewrite <- Eq; apply ll_nodup, Hi). apply NoDup_cons in Hnd as [Hf _].
  rewrite trace_seq, exec_seq, Ht. split; [| split; [| done]].
  - unfold trace at 1. rewrite (round_run _ _ _ Eq). cbn [fst snd omap list_omap].
    assert (El : forall l : list nid, (forall x, x ∈ l -> x <> f) ->
      omap (fun x => (fun cb => FuCallback x cb (fu_ec (fs_futures (exec execution_round s) x))) <$>
                     fu_cb (fs_futures (exec execution_round s) x)) l =
      omap (fun x => (fun cb => FuCallback x cb (fu_ec (fs_futures s x))) <$> fu_cb (fs_futures s x)) l).
    { intros l Hl. apply list_omap_ext. apply Forall2_same_length_lookup. split; [done |].
      intros i x y Ex Ey. assert (x = y) as <- by congruence.
      by rewrite Hsame by (apply Hl; by eapply list_elem_of_lookup_2). }
    rewrite El by (intros x Hx ->; done). by destruct (fu_cb (fs_futures s f)).
  - unfold result. unfold hbind. destruct (execution_round s) as [[r s1] t1] eqn:E.
    assert (Es : exec execution_round s = s1) by (unfold exec; by rewrite E). rewrite Es in Hr.
    assert (Est : fs_stopped s1 = fs_stopped s).
    { pose proof (round_run _ _ _ Eq) as Er. rewrite E in Er. injection Er as _ -> _. by destruct s. }
    unfold result in Hr. rewrite <- Est, <- Hr. by destruct (execution_rounds (length q) s1) as [[??]?].
Qed.

(** A new queue. *)
Lemma init_inv (h : H) : ll_ok h -> (forall l, ll_items h l = []) -> future_inv (nabto_device_future_queue_init h).
Proof.
  intros Hok He. split; cbn; [by apply ll_init_ok | intros l _; by rewrite ll_init_items |].
  intros f. rewrite ll_init_items, He by done. split; [by intros ?%elem_of_nil | naive_solver].
Qed.

(** C34. No callback of a future is lost or called twice: at any time the queue holds exactly the
    futures that are resolved and whose callback has not been called, each once; the queue's
    thread calls their callbacks in the order in which the futures were queued, each with the
    code its future was resolved with, and then waits, or ends when the queue was stopped. *)
Theorem future_callbacks_delivered h inputs s t
    (Hh : ll_ok h /\ forall l, ll_items h l = [])
    (Hrun : future_run inputs (nabto_device_future_queue_init h) = Def (tt, s, t)) :
  let queue := ll_items (fs_links s) futureList in
  let m := execution_rounds (length queue) in
  NoDup queue /\
  (forall f, f ∈ queue <-> fu_ready (fs_futures s f) = true /\ fu_cb (fs_futures s f) <> None) /\
  trace m s = omap (fun f => (fun cb => FuCallback f cb (fu_ec (fs_futures s f))) <$> fu_cb (fs_futures s f)) queue /\
  result m s = (if fs_stopped s then RoundStopped else RoundWait) /\
  ll_items (fs_links (exec m s)) futureList = [].
Proof.
  cbv zeta. assert (Hi : future_inv s).
  { eapply future_run_inv; [| exact Hrun]. by destruct Hh; apply init_inv. }
  split; [apply ll_nodup, Hi |]. split; [apply Hi |]. by apply rounds_drain.
Qed.
End FutureLaws.

(** ** Listeners *)

(** [eventsList] as the list of the events whose nodes are in it; the callback is always the one
    of [nabto_device_listener_init], so only whether it is set matters. *)
Record nabto_device_listener : Type := mk_dl {
  dl_initialized : bool;
  dl_events : list nat;
  dl_cb : bool;                                   (* cb != NULL *)
  dl_fut : option nid;
  dl_ec : np_error_code
}.

(** [DlCallback ec fut event]: the callback of the listener. *)
Inductive listener_call : Type :=
| DlCallback (ec : np_error_code) (fut : option nid) (event : option nat)
| DlResolve (fut : nid) (ec : np_error_code).

Definition dl_handler (A : Type) : Type := handler nabto_device_listener listener_call A.

(** [calloc]. *)
Definition nabto_device_listener_new : nabto_device_listener := mk_dl false [] false None NABTO_EC_OK.

Definition nabto_device_listener_init : dl_handler np_error_code :=
  hmod (fun l => l {{ dl_cb := true; dl_events := []; dl_ec := NABTO_EC_OK; dl_initialized := true }}) ;;;
  hret NABTO_EC_OK.

Definition dl_is_set {A} (o : option A) : bool := match o with Some _ => true | None => false end.

Section Listener.
(** What the callback answers for an event and a future. *)
Context (answer : nat -> np_error_code).

Definition nabto_device_listener_try_resolve : dl_handler unit :=
  let* l := hget in
  match dl_fut l, dl_events l with
  | Some fut, item :: rest =>
      hmod (fun l => l {{ dl_events := rest }}) ;;;
      (if dl_cb l then emit (DlCallback NABTO_EC_OK (Some fut) (Some item)) else hskip) ;;;
      emit (DlResolve fut (nabto_device_error_core_to_api
                             (if dl_cb l then answer item else NABTO_EC_UNKNOWN))) ;;;
      hmod (fun l => l {{ dl_fut := None }})
  | _, _ => hskip
  end.

Definition nabto_device_listener_add_event (event : nat) : dl_handler np_error_code :=
  let* l := hget in
  if negb (dl_initialized l) then hret NABTO_EC_INVALID_STATE
  else if is_error (dl_ec l) then hret (dl_ec l)
  else
    hmod (fun l => l {{ dl_events ::= fun es => es ++ [event] }}) ;;;
    nabto_device_listener_try_resolve ;;;
    hret NABTO_EC_OK.

Definition nabto_device_listener_init_future (future : nid) : dl_handler np_error_code :=
  let* l := hget in
  if negb (dl_initialized l) then hret NABTO_EC_INVALID_STATE
  else if is_error (dl_ec l) then hret (dl_ec l)
  else if dl_is_set (dl_fut l) then hret NABTO_EC_OPERATION_IN_PROGRESS
  else hmod (fun l => l {{ dl_fut := Some future }}) ;;; hret NABTO_EC_OK.

(** The loop of [nabto_device_listener_resolve_error_state] over the events. *)
Fixpoint drain_events (ec : np_error_code) (events : list nat) : dl_handler unit :=
  match events with
  | [] => hskip
  | item :: rest =>
      hmod (fun l => l {{ dl_events := rest }}) ;;;
      let* l := hget in
      (if dl_cb l then emit (DlCallback ec None (Some item)) else hskip) ;;;
      drain_events ec rest
  end.

Definition nabto_device_listener_resolve_error_state : dl_handler unit :=
  let* l := hget in
  let ec := if ec_eqb (dl_ec l) NABTO_EC_ABORTED then NABTO_EC_STOPPED else dl_ec l in
  drain_events ec (dl_events l) ;;;
  match dl_fut l with
  | Some fut =>
      emit (DlResolve fut (nabto_device_error_core_to_api (dl_ec l))) ;;;
      hmod (fun l => l {{ dl_fut := None }})
  | None => hskip
  end ;;;
  (if dl_cb l then emit (DlCallback NABTO_EC_ABORTED None None) else hskip) ;;;
  hmod (fun l => l {{ dl_cb := false }}).

Definition nabto_device_listener_set_error_code (ec : np_error_code) : dl_handler unit :=
  let* l := hget in
  if negb (dl_initialized l) then hskip
  else hmod (fun l => l {{ dl_ec := ec }}) ;;; nabto_device_listener_resolve_error_state.

Definition nabto_device_listener_stop_internal : dl_handler np_error_code :=
  let* l := hget in
  if negb (dl_initialized l) then hret NABTO_EC_INVALID_STATE
  else if is_error (dl_ec l) then hret (dl_ec l)
  else nabto_device_listener_set_error_code NABTO_EC_STOPPED ;;; hret NABTO_EC_STOPPED.

Definition nabto_device_listener_stop : dl_handler np_error_code :=
  let* ec := nabto_device_listener_stop_internal in hret (nabto_device_error_core_to_api ec).

Definition nabto_device_listener_get_status (l : nabto_device_listener) : np_error_code := dl_ec l.

(** [nabto_device_listener_device_event] of nabto_device_events.c, and the functions of its
    shape: the future waits for the next event, or is resolved with an error at once; the
    answer tells whether it was accepted. The type of the listener is the right one. *)
Definition nabto_device_listener_device_event (future : nid) : dl_handler bool :=
  let* l := hget in
  if is_error (nabto_device_listener_get_status l)
  then emit (DlResolve future (nabto_device_error_core_to_api (dl_ec l))) ;;; hret false
  else
    let* ec := nabto_device_listener_init_future future in
    if is_error ec then emit (DlResolve future ec) ;;; hret false
    else nabto_device_listener_try_resolve ;;; hret true.

(** The steps, with the event or the future that a step accepts. *)
Inductive listener_input : Type :=
| LiEvent (event : nat)
| LiListen (future : nid)
| LiSetError (ec : np_error_code)
| LiStop.

Definition listener_step (i : listener_input) : dl_handler (list nat * list nid) :=
  match i with
  | LiEvent e => let* ec := nabto_device_listener_add_event e in hret (if is_error ec then [] else [e], [])
  | LiListen f =>
      nabto_device_listener_device_event f ;;; hret ([], [f])
  | LiSetError ec => nabto_device_listener_set_error_code ec ;;; hret ([], [])
  | LiStop => nabto_device_listener_stop ;;; hret ([], [])
  end.

Fixpoint listener_run (inputs : list listener_input) : dl_handler (list nat * list nid) :=
  match inputs with
  | [] => hret ([], [])
  | i :: rest =>
      let* a := listener_step i in let* b := listener_run rest in hret (a.1 ++ b.1, a.2 ++ b.2)
  end.

(** What the calls handed out: the events, the futures, and the last call. *)
Definition handed (t : list listener_call) : list nat :=
  omap (fun c => match c with DlCallback _ _ e => e | _ => None end) t.
Definition resolved (t : list listener_call) : list nid :=
  omap (fun c => match c with DlResolve f _ => Some f | _ => None end) t.
Definition is_callback (c : listener_call) : bool :=
  match c with DlCallback _ _ _ => true | _ => false end.
Definition is_end (c : listener_call) : bool :=
  match c with DlCallback NABTO_EC_ABORTED _ _ => true | _ => false end.
End Listener.

Section ListenerLaws.
Context (answer : nat -> np_error_code).

(** A listener that works: a future waits only when no event does. *)
Definition open (l : nabto_device_listener) : Prop :=
  dl_initialized l = true /\ dl_ec l = NABTO_EC_OK /\ dl_cb l = true /\ (dl_fut l = None \/ dl_events l = []).
(** A listener in an error state. *)
Definition ended (l : nabto_device_listener) : Prop :=
  dl_initialized l = true /\ is_error (dl_ec l) = true /\ dl_cb l = false /\ dl_fut l = None /\ dl_events l = [].

Lemma handed_app t t' : handed (t ++ t') = handed t ++ handed t'.
Proof. apply omap_app. Qed.
Lemma resolved_app t t' : resolved (t ++ t') = resolved t ++ resolved t'.
Proof. apply omap_app. Qed.

Lemma drain_run ec es : forall l, dl_cb l = true -> dl_events l = es ->
  drain_events ec es l = (tt, l {{ dl_events := [] }}, map (fun e => DlCallback ec None (Some e)) es).
Proof.
  induction es as [| e es IH]; intros l Hcb He; cbn [drain_events].
  - destruct l. cbn in He. by subst.
  - rewrite hmod_seq, hget_seq. set (l1 := l {{ dl_events := es }}).
    assert (E : dl_cb l1 = true /\ dl_events l1 = es) by (by destruct l). destruct E as [E1 E2]. rewrite E1.
    unfold hbind, emit. cbn beta iota. rewrite (IH l1 E1 E2). by destruct l.
Qed.

(** The end of a listener: the events, the future, and the last callback. *)
Definition end_trace (ec : np_error_code) (l : nabto_device_listener) : list listener_call :=
  map (fun e => DlCallback (if ec_eqb ec NABTO_EC_ABORTED then NABTO_EC_STOPPED else ec) None (Some e)) (dl_events l) ++
  map (fun f => DlResolve f ec) (option_list (dl_fut l)) ++ [DlCallback NABTO_EC_ABORTED None None].

Lemma set_error_open ec l :
  open l ->
  nabto_device_listener_set_error_code ec l =
    (tt, l {{ dl_ec := ec; dl_events := []; dl_fut := None; dl_cb := false }}, end_trace ec l).
Proof.
  intros (Hi & He & Hcb & _). unfold nabto_device_listener_set_error_code. rewrite hget_seq, Hi. cbn [negb].
  rewrite hmod_seq. set (l1 := l {{ dl_ec := ec }}).
  assert (E : dl_cb l1 = true /\ dl_events l1 = dl_events l /\ dl_ec l1 = ec /\ dl_fut l1 = dl_fut l) by (by destruct l).
  destruct E as (E1 & E2 & E3 & E4). unfold nabto_device_listener_resolve_error_state, nabto_device_error_core_to_api.
  rewrite hget_seq, E1, E2, E3, E4. unfold hbind at 1. rewrite (drain_run _ _ l1 E1 E2).
  unfold end_trace. destruct l as [i es cb [f |] ec0]; reflexivity.
Qed.

Lemma set_error_ended ec l :
  ended l -> nabto_device_listener_set_error_code ec l = (tt, l {{ dl_ec := ec }}, []).
Proof. intros (Hi & _ & Hcb & Hf & Hes). destruct l. cbn in *. subst. reflexivity. Qed.

Lemma no_end_callbacks ec es : ec <> NABTO_EC_ABORTED ->
  existsb is_end (map (fun e => DlCallback ec None (Some e)) es) = false.
Proof. intros Hne. induction es as [| e es IH]; [done |]. cbn. rewrite IH. by destruct ec. Qed.

Lemma handed_callbacks ec es : handed (map (fun e => DlCallback ec None (Some e)) es) = es.
Proof. induction es as [| e es IH]; [done |]. cbn. by f_equal. Qed.
Lemma resolved_callbacks ec es : resolved (map (fun e => DlCallback ec None (Some e)) es) = [].
Proof. by induction es. Qed.

(** What a step does: [es] and [fs] are what it accepts. *)
Definition step_ok (l l' : nabto_device_listener) (t : list listener_call) (es : list nat) (fs : list nid) : Prop :=
  handed t ++ dl_events l' = dl_events l ++ es /\
  resolved t ++ option_list (dl_fut l') ≡ₚ option_list (dl_fut l) ++ fs /\
  (open l -> (open l' /\ existsb is_end t = false) \/
             (ended l' /\ exists t1, t = t1 ++ [DlCallback NABTO_EC_ABORTED None None] /\ existsb is_end t1 = false)) /\
  (ended l -> ended l' /\ existsb is_callback t = false).

Lemma end_ok ec l : ec <> NABTO_EC_OK -> open l ->
  step_ok l (l {{ dl_ec := ec; dl_events := []; dl_fut := None; dl_cb := false }}) (end_trace ec l) [] [].
Proof.
  intros Hne Ho. set (l' := l {{ _ := _; _ := _; _ := _; _ := _ }}).
  assert (E : dl_events l' = [] /\ dl_fut l' = None /\ dl_ec l' = ec /\ dl_cb l' = false /\
    dl_initialized l' = dl_initialized l) by (by destruct l).
  destruct E as (E1 & E2 & E3 & E4 & E5). unfold step_ok, end_trace. rewrite E1, E2.
  rewrite !handed_app, !resolved_app, handed_callbacks, resolved_callbacks. cbn [option_list app].
  split_and!.
  - destruct (dl_fut l); cbn; by rewrite !app_nil_r.
  - destruct (dl_fut l); reflexivity.
  - intros _. right. split.
    + unfold ended. rewrite E1, E2, E3, E4, E5. destruct Ho as (-> & _). by destruct ec.
    + eexists. split; [apply app_assoc |]. rewrite existsb_app, no_end_callbacks.
      * by destruct (dl_fut l).
      * unfold ec_eqb. by case_bool_decide.
  - intros (_ & He & _). destruct Ho as (_ & Ho & _). by rewrite Ho in He.
Qed.

Ltac open_goals :=
  split_and!; first
    [ done
    | intros _; left; split; [repeat split; by auto | done]
    | intros (_ & [=] & _)
    | intros (_ & E & _); discriminate E
    | by rewrite ?app_nil_r
    | solve_Permutation ].

Lemma listener_step_ok i l :
  (forall ec, i = LiSetError ec -> ec <> NABTO_EC_OK) -> open l \/ ended l ->
  let m := listener_step answer i in
  step_ok l (exec m l) (trace m l) (result m l).1 (result m l).2.
Proof.
  intros Hec Hl. cbv zeta. unfold exec, trace, result.
  assert (Hclosed : open l -> ended l -> False).
  { intros (_ & E & _) (_ & E' & _). by rewrite E in E'. }
  destruct i as [e | f | ec |]; cbn [listener_step].
  - destruct Hl as [Hl | Hl].
    + destruct Hl as (Hi & Ho & Hcb & Hw). destruct l as [i es cb fut ec]. cbn in *. subst.
      destruct fut as [f |].
      * destruct Hw as [[=] | ->]. unfold step_ok. cbn. open_goals.
      * unfold step_ok. cbn. open_goals.
    + destruct Hl as (Hi & Ho & Hcb & Hf & Hes). destruct l as [i es cb fut ec]. cbn in *. subst.
      destruct ec; try discriminate Ho; unfold step_ok; cbn; open_goals.
  - destruct Hl as [Hl | Hl].
    + destruct Hl as (Hi & Ho & Hcb & Hw). destruct l as [i es cb fut ec]. cbn in *. subst.
      destruct fut as [g |].
      * destruct Hw as [[=] | ->]. unfold step_ok. cbn. open_goals.
      * destruct es as [| e es]; unfold step_ok; cbn; open_goals.
    + destruct Hl as (Hi & Ho & Hcb & Hf & Hes). destruct l as [i es cb fut ec]. cbn in *. subst.
      destruct ec; try discriminate Ho; unfold step_ok; cbn; open_goals.
  - destruct Hl as [Hl | Hl]; unfold hbind at 1 2 3 4.
    + rewrite (set_error_open ec l Hl). cbn [hret fst snd]. rewrite app_nil_r. by apply end_ok; [apply Hec |].
    + rewrite (set_error_ended ec l Hl). cbn [hret fst snd]. destruct Hl as (Hi & Ho & Hcb & Hf & Hes).
      destruct l as [i es cb fut ec0]. cbn in *. subst. unfold step_ok. cbn. split_and!; try done.
      * by intros (_ & E & _); cbn in E; subst ec0.
      * intros _. split; [| done]. repeat split. specialize (Hec _ eq_refl). by destruct ec.
  - unfold nabto_device_listener_stop, nabto_device_listener_stop_internal. destruct Hl as [Hl | Hl].
    + pose proof Hl as (Hi & Ho & _). unfold hbind. cbn [hget]. unfold hget. rewrite Hi, Ho. cbn [negb is_error].
      rewrite (set_error_open NABTO_EC_STOPPED l Hl). cbn [hret fst snd app]. rewrite !app_nil_r. by apply end_ok.
    + pose proof Hl as (Hi & Ho & Hcb & Hf & Hes). unfold hbind. cbn [hget]. unfold hget. rewrite Hi, Ho. cbn.
      unfold step_ok. rewrite Hes, Hf. cbn. split_and!; try done. by intros (_ & E & _); rewrite E in Ho.
Qed.

Lemma listener_run_ok inputs : forall l,
  (forall ec, LiSetError ec ∈ inputs -> ec <> NABTO_EC_OK) -> open l \/ ended l ->
  let m := listener_run answer inputs in
  handed (trace m l) ++ dl_events (exec m l) = dl_events l ++ (result m l).1 /\
  resolved (trace m l) ++ option_list (dl_fut (exec m l)) ≡ₚ option_list (dl_fut l) ++ (result m l).2 /\
  (open l -> (open (exec m l) /\ existsb is_end (trace m l) = false) \/
    (ended (exec m l) /\ exists t1 t2, trace m l = t1 ++ DlCallback NABTO_EC_ABORTED None None :: t2 /\
       existsb is_end t1 = false /\ existsb is_callback t2 = false)) /\
  (ended l -> ended (exec m l) /\ existsb is_callback (trace m l) = false).
Proof.
  induction inputs as [| i inputs IH]; intros l Hec Hl; cbv zeta.
  { cbn. rewrite !app_nil_r. split_and!; try done. by left. }
  destruct (listener_step_ok i l) as (Hh & Hr & Ho & Hd); [intros ec ->; apply Hec; left | done |].
  assert (Hl1 : open (exec (listener_step answer i) l) \/ ended (exec (listener_step answer i) l)).
  { destruct Hl as [Hl | Hl]; [destruct (Ho Hl) as [[? _] | [? _]]; by auto | right; apply (Hd Hl)]. }
  destruct (IH _ ltac:(intros ec Hin; apply Hec; by right) Hl1) as (Hh2 & Hr2 & Ho2 & Hd2). clear IH.
  unfold exec, trace, result in *. cbn [listener_run]. unfold hbind.
  destruct (listener_step answer i l) as [[a l1] t1]. cbn [fst snd] in *.
  destruct (listener_run answer inputs l1) as [[b l2] t2]. cbn [hret fst snd] in *. rewrite app_nil_r.
  rewrite handed_app, resolved_app. split_and!.
  - by rewrite <- app_assoc, Hh2, app_assoc, Hh, app_assoc.
  - rewrite <- app_assoc, Hr2, app_assoc, Hr. by rewrite app_assoc.
  - intros Hop. destruct (Ho Hop) as [[Hop1 Hn1] | [Hen (t0 & -> & Hn0)]].
    + destruct (Ho2 Hop1) as [[Hop2 Hn2] | [Hen2 (u1 & u2 & -> & Hn2 & Hn3)]].
      * left. split; [done |]. by rewrite existsb_app, Hn1, Hn2.
      * right. split; [done |]. exists (t1 ++ u1), u2. rewrite <- app_assoc, existsb_app, Hn1. done.
    + right. destruct (Hd2 Hen) as [Hen2 Hc2]. split; [done |]. exists t0, t2. by rewrite <- app_assoc.
  - intros Hen. destruct (Hd Hen) as [Hen1 Hc1]. destruct (Hd2 Hen1) as [Hen2 Hc2]. split; [done |].
    by rewrite existsb_app, Hc1, Hc2.
Qed.

(** C33. The contract of a listener: every event it accepts is handed to its callback exactly once and
    in order, or still waits; every future it is given is resolved exactly once, or waits, and
    never while an event waits; and the callback with NABTO_EC_ABORTED is the last one, made
    once, when the listener gets into an error state (in which nothing waits any more). *)
Theorem listener_contract inputs
    (Hec : forall ec, LiSetError ec ∈ inputs -> ec <> NABTO_EC_OK) :
  let m := nabto_device_listener_init ;;; listener_run answer inputs in
  let l := exec m nabto_device_listener_new in
  let t := trace m nabto_device_listener_new in
  let '(es, fs) := result m nabto_device_listener_new in
  handed t ++ dl_events l = es /\
  resolved t ++ option_list (dl_fut l) ≡ₚ fs /\
  (if is_error (dl_ec l)
   then dl_events l = [] /\ dl_fut l = None /\
        exists t1 t2, t = t1 ++ DlCallback NABTO_EC_ABORTED None None :: t2 /\
          existsb is_end t1 = false /\ existsb is_callback t2 = false
   else (dl_fut l = None \/ dl_events l = []) /\ existsb is_end t = false).
Proof.
  cbv zeta. set (l0 := mk_dl true [] true None NABTO_EC_OK).
  assert (E : (nabto_device_listener_init ;;; listener_run answer inputs) nabto_device_listener_new =
    listener_run answer inputs l0).
  { unfold hbind at 1. replace (nabto_device_listener_init nabto_device_listener_new)
      with (NABTO_EC_OK, l0, @nil listener_call) by reflexivity.
    destruct (listener_run answer inputs l0) as [[b s2] t2]. reflexivity. }
  assert (Hopen : open l0) by (by repeat split; left).
  destruct (listener_run_ok inputs l0 Hec (or_introl Hopen)) as (Hh & Hr & Ho & _).
  unfold exec, trace, result in *. rewrite E. destruct (listener_run answer inputs l0) as [[[es fs] l] t]. cbn [fst snd] in *.
  split; [done |]. split; [done |]. destruct (Ho Hopen) as [[(_ & He & _ & Hw) Hn] | [(_ & He & _ & Hf & Hes) Ht]].
  - rewrite He. done.
  - rewrite He. done.
Qed.
End ListenerLaws.

(** ** Witnesses *)

Definition example_futures : list future_input :=
  [FiResolve 3%nat NABTO_EC_EOF; FiSetCallback 1%nat 7; FiSetCallback 3%nat 8; FiResolve 1%nat NABTO_EC_OK; FiStop].

Lemma future_callbacks_delivered_witness :
  exists s t, future_run example_futures (nabto_device_future_queue_init (∅ : heap)) = Def (tt, s, t) /\
    trace (execution_rounds (length (ll_items (fs_links s) futureList))) s =
      [FuCallback 3%nat 8 NABTO_EC_EOF; FuCallback 1%nat 7 NABTO_EC_OK].
Proof.
  eexists _, _. split; [reflexivity |].
  edestruct (future_callbacks_delivered (∅ : heap) example_futures) as (_ & _ & Ht & _); [| reflexivity |].
  - split; [| done]. split; [intros l; constructor |]. intros l l' n Hn. by apply elem_of_nil in Hn.
  - refine (eq_trans Ht _). vm_compute. reflexivity.
Defined.

Lemma listener_contract_witness :
  let m := nabto_device_listener_init ;;;
    listener_run (fun _ => NABTO_EC_OK) [LiEvent 1; LiListen 5%nat; LiEvent 2; LiEvent 3; LiSetError NABTO_EC_ABORTED; LiEvent 4] in
  handed (trace m nabto_device_listener_new) ++ dl_events (exec m nabto_device_listener_new) = [1; 2; 3]%nat.
Proof.
  refine (proj1 (listener_contract (fun _ => NABTO_EC_OK)
    [LiEvent 1; LiListen 5%nat; LiEvent 2; LiEvent 3; LiSetError NABTO_EC_ABORTED; LiEvent 4] _)).
  intros ec Hin. repeat (apply elem_of_cons in Hin as [Hin | Hin]; [try discriminate; injection Hin as ->; discriminate |]).
  by apply elem_of_nil in Hin.
Defined.
