(* ===== verification/ListenLoop.v ===== *)
(** * Loops that listen for requests (modules/iam/nm_iam_coap_handler.c, nm_iam_auth_handler.c,
      apps/tcp_tunnel_device/src/device_event_handler.c)

    A handler has a listener and a future: it asks the listener for the next request, and when the
    future is resolved its callback handles the request, frees it, and asks for the next one. The
    listener, the future and the queue of futures are those of Futures.v; here they run together.
    The functions of the API are steps, between which the core may add a request or stop the listener;
    what handling a request does is in Iam.v. *)

From S2P Require Import Prelude Platform Collections Futures.
From stdpp Require Import functions.

#[local] Open Scope Z_scope.
#[local] Open Scope list_scope.
#[local] Open Scope handler_scope.

Section ListenLoop.
Context {H : Type} `{LList H}.
(** [handler->future], and [request_callback]. *)
Variables (future : nid) (callback : nat).

(** [lp_request] is [handler->request]; [lp_arm] is whether [start_listen] is between its two calls. *)
Record listen_loop : Type := mk_lp {
  lp_futures : future_state (H := H);
  lp_listener : nabto_device_listener;
  lp_request : option nat;
  lp_arm : bool
}.

Inductive loop_call : Type :=
| LpFuture (c : future_call)
| LpListener (c : listener_call)
| LpHandle (request : nat)
| LpFree (request : nat).

Definition lp_handler (A : Type) : Type := handler listen_loop loop_call A.
Definition lp_uhandler (A : Type) : Type := uhandler listen_loop loop_call A.

(** A function of the futures. *)
Definition on_futures {A} (m : fu_uhandler (H := H) A) : lp_uhandler A := fun s =>
  match m (lp_futures s) with
  | Def (a, fs, t) => Def (a, s {{ lp_futures := fs }}, map LpFuture t)
  | UB => UB
  end.

(** What the callback of the listener does (it stores the request where [start_listen] said), and the
    futures that the listener resolves. *)
Definition listener_effect (c : listener_call) : lp_uhandler unit :=
  let+ _ := ulift (emit (LpListener c)) in
  match c with
  | DlCallback NABTO_EC_OK (Some _) (Some item) => ulift (hmod (fun s => s {{ lp_request := Some item }}))
  | DlCallback _ _ _ => ulift hskip
  | DlResolve fut ec => on_futures (nabto_device_future_resolve fut ec)
  end.

Fixpoint listener_effects (t : list listener_call) : lp_uhandler unit :=
  match t with
  | [] => ulift hskip
  | c :: rest => let+ _ := listener_effect c in listener_effects rest
  end.

(** A function of the listener. *)
Definition on_listener {A} (m : dl_handler A) : lp_uhandler A := fun s =>
  let '(a, l, t) := m (lp_listener s) in
  (let+ _ := ulift (hmod (fun s => s {{ lp_listener := l }})) in
   let+ _ := listener_effects t in ulift (hret a)) s.

(** The callback of the listener answers OK for a request. *)
Definition accepts_all (_ : nat) : np_error_code := NABTO_EC_OK.

(** [start_listen]: [nabto_device_listener_new_coap_request] (or the function of the authorization requests),
    and [nabto_device_future_set_callback]. *)
Definition start_listen : lp_uhandler unit :=
  let+ _ := on_futures (future_step (FiReset future)) in
  let+ accepted := on_listener (nabto_device_listener_device_event accepts_all future) in
  ulift (hmod (fun s => s {{ lp_arm := true }})).

Definition start_listen_callback : lp_uhandler unit :=
  let+ s := ulift hget in
  if lp_arm s then
    let+ _ := on_futures (nabto_device_future_set_callback future callback) in
    ulift (hmod (fun s => s {{ lp_arm := false }}))
  else ulift hskip.

Definition request_callback (ec : np_error_code) : lp_uhandler unit :=
  if is_error ec then ulift hskip
  else
    let+ s := ulift hget in
    match lp_request s with
    | None => uof UB
    | Some request =>
        let+ _ := ulift (emit (LpHandle request)) in
        let+ _ := ulift (emit (LpFree request)) in
        start_listen
    end.

(** [listening]: whether the future, the listener and the resource could be made; without them the handler
    does not listen. *)
Definition nm_iam_coap_handler_init (listening : bool) : lp_uhandler np_error_code :=
  if listening then let+ _ := start_listen in ulift (hret NABTO_EC_OK) else ulift (hret NABTO_EC_OUT_OF_MEMORY).

(** [nabto_device_future_free]: the queue keeps a pointer to a future that is queued, so that its memory
    would be used after it was freed. *)
Definition nabto_device_future_free (f : nid) : fu_uhandler (H := H) unit :=
  let+ s := ulift hget in
  if ll_in_list (fs_links s) f then uof UB else ulift hskip.

(** [device]: whether [handler->device] is set. *)
Definition nm_iam_coap_handler_deinit (device : bool) : lp_uhandler unit :=
  if device then
    let+ _ := on_listener nabto_device_listener_stop in
    on_futures (nabto_device_future_free future)
  else ulift hskip.

(** A round of the queue's thread, with the callback when it is ours. *)
Definition loop_round : lp_uhandler unit :=
  let+ s := ulift hget in
  let t := trace execution_round (lp_futures s) in
  let+ _ := on_futures (ulift execution_round) in
  match t with
  | [FuCallback f cb ec] =>
      if (f =? future)%nat && (cb =? callback)%nat then request_callback ec else ulift hskip
  | _ => ulift hskip
  end.

Inductive loop_input : Type :=
| LoRequest (r : nat)                 (* the core has a request *)
| LoSetError (ec : np_error_code)
| LoStop
| LoArm
| LoRound.

(** The answer is the requests that were accepted. *)
Definition loop_step (i : loop_input) : lp_uhandler (list nat) :=
  match i with
  | LoRequest r =>
      let+ ec := on_listener (nabto_device_listener_add_event accepts_all r) in
      ulift (hret (if is_error ec then [] else [r]))
  | LoSetError ec => let+ _ := on_listener (nabto_device_listener_set_error_code ec) in ulift (hret [])
  | LoStop => let+ _ := on_listener nabto_device_listener_stop in ulift (hret [])
  | LoArm => let+ _ := start_listen_callback in ulift (hret [])
  | LoRound => let+ _ := loop_round in ulift (hret [])
  end.

Fixpoint loop_run (inputs : list loop_input) : lp_uhandler (list nat) :=
  match inputs with
  | [] => ulift (hret [])
  | i :: rest =>
      let+ accepted := loop_step i in
      let+ accepted' := loop_run rest in
      ulift (hret (accepted ++ accepted'))
  end.

(** The new listener, and the futures as they are. *)
Definition loop_start (fs : future_state (H := H)) : listen_loop :=
  mk_lp fs (exec nabto_device_listener_init nabto_device_listener_new) None false.
End ListenLoop.

(** ** Proofs *)

Section Proofs.
Context {H : Type} `{LListLaws H}.
Variables (future : nid) (callback : nat).

Abbreviation loop_t := (listen_loop (H := H)).

(** What the calls tell: requests that were handled, freed, and given back because the listener ended. *)
Definition handled (t : list loop_call) : list nat := omap (fun c => match c with LpHandle r => Some r | _ => None end) t.
Definition freed (t : list loop_call) : list nat := omap (fun c => match c with LpFree r => Some r | _ => None end) t.
Definition dropped (t : list loop_call) : list nat :=
  omap (fun c => match c with LpListener (DlCallback _ None (Some r)) => Some r | _ => None end) t.

Definition quiet_calls (t : list loop_call) : Prop := handled t = [] /\ freed t = [] /\ dropped t = [].

Definition ours (s : loop_t) : nabto_device_future := fs_futures (lp_futures s) future.

(** *** Our future *)

Definition not_queued (fut : nabto_device_future) : Prop := fu_ready fut = false \/ fu_cb fut = None.

Lemma queued_ours (fs : future_state (H := H)) :
  future_inv fs -> not_queued (fs_futures fs future) -> ll_in_list (fs_links fs) future = false.
Proof.
  intros Hi Hn. destruct (ll_in_list (fs_links fs) future) eqn:E; [| done]. exfalso.
  apply (in_queue fs future Hi), (fi_queue fs Hi) in E as [Hr Hc]. destruct Hn; congruence.
Qed.

Lemma step_ours i (fs : future_state (H := H)) fs' t :
  future_inv fs -> future_step i fs = Def (tt, fs', t) -> future_inv fs'.
Proof. intros Hi Hs. by eapply future_step_inv. Qed.

Lemma reset_ours (fs : future_state (H := H)) :
  future_inv fs -> not_queued (fs_futures fs future) ->
  exists fs' t, future_step (FiReset future) fs = Def (tt, fs', t) /\ future_inv fs' /\ fs_futures fs' future = future_zero.
Proof.
  intros Hi Hn. pose proof (queued_ours fs Hi Hn) as Hq. eexists _, _.
  assert (E : future_step (FiReset future) fs = Def (nabto_device_future_reset future fs)).
  { cbn [future_step]. rewrite u_hget, Hq. done. }
  rewrite E. split; [reflexivity |]. split.
  - eapply step_ours; [exact Hi | exact E].
  - destruct fs. cbn. by rewrite fn_lookup_insert.
Qed.

Lemma resolve_ours ec (fs : future_state (H := H)) :
  future_inv fs -> fu_ready (fs_futures fs future) = false ->
  exists fs' t, nabto_device_future_resolve future ec fs = Def (tt, fs', t) /\ future_inv fs' /\
    fs_futures fs' future = (fs_futures fs future) {{ fu_ec := ec; fu_ready := true }}.
Proof.
  intros Hi Hr. pose proof (queued_ours fs Hi (or_introl Hr)) as Hq.
  assert (Hd : exists fs' t, nabto_device_future_resolve future ec fs = Def (tt, fs', t) /\
    fs_futures fs' future = (fs_futures fs future) {{ fu_ec := ec; fu_ready := true }}).
  { unfold nabto_device_future_resolve, set_future. rewrite u_hmod, u_hget. destruct fs as [m h st]. cbn in Hq |- *.
    rewrite fn_lookup_insert. destruct (m future) as [[c |] e r]; cbn.
    - unfold nabto_device_future_queue_post, ubind, ulift, hget. cbn. rewrite Hq. eexists _, _. split; [reflexivity |].
      cbn. by rewrite fn_lookup_insert.
    - eexists _, _. split; [reflexivity |]. cbn. by rewrite fn_lookup_insert. }
  destruct Hd as (fs' & t & E & Hf). exists fs', t. split; [done |]. split; [| done].
  by apply (step_ours (FiResolve future ec) fs fs' t).
Qed.

Lemma set_callback_ours (fs : future_state (H := H)) :
  future_inv fs -> fu_cb (fs_futures fs future) = None ->
  exists fs' t, nabto_device_future_set_callback future callback fs = Def (tt, fs', t) /\ future_inv fs' /\
    fs_futures fs' future = (fs_futures fs future) {{ fu_cb := Some callback }}.
Proof.
  intros Hi Hc. pose proof (queued_ours fs Hi (or_intror Hc)) as Hq.
  assert (Hd : exists fs' t, nabto_device_future_set_callback future callback fs = Def (tt, fs', t) /\
    fs_futures fs' future = (fs_futures fs future) {{ fu_cb := Some callback }}).
  { unfold nabto_device_future_set_callback, set_future. rewrite u_hmod, u_hget. destruct fs as [m h st]. cbn in Hq |- *.
    rewrite fn_lookup_insert. destruct (m future) as [c e []]; cbn.
    - unfold nabto_device_future_queue_post, ubind, ulift, hget. cbn. rewrite Hq. eexists _, _. split; [reflexivity |].
      cbn. by rewrite fn_lookup_insert.
    - eexists _, _. split; [reflexivity |]. cbn. by rewrite fn_lookup_insert. }
  destruct Hd as (fs' & t & E & Hf). exists fs', t. split; [done |]. split; [| done].
  by apply (step_ours (FiSetCallback future callback) fs fs' t).
Qed.

(** *** The invariant *)

Inductive loop_phase : Type := LWaiting | LResolved | LEnded.

Definition listener_open (l : nabto_device_listener) : Prop := dl_ec l = NABTO_EC_OK /\ dl_cb l = true.
Definition listener_over (l : nabto_device_listener) : Prop :=
  is_error (dl_ec l) = true /\ dl_cb l = false /\ dl_events l = [].

Definition phase_inv (p : loop_phase) (s : loop_t) : Prop :=
  let l := lp_listener s in
  match p with
  | LWaiting => listener_open l /\ dl_fut l = Some future /\ dl_events l = [] /\ fu_ready (ours s) = false
  | LResolved => dl_fut l = None /\ fu_ready (ours s) = true /\
      (if is_error (fu_ec (ours s)) then listener_over l else is_Some (lp_request s))
  | LEnded => dl_fut l = None /\ listener_over l /\ lp_arm s = false
  end.

(** The request that is on its way to the handler. *)
Definition in_flight (p : loop_phase) (s : loop_t) : list nat :=
  match p with
  | LResolved => if is_error (fu_ec (ours s)) then [] else option_list (lp_request s)
  | _ => []
  end.

Record loop_inv (p : loop_phase) (accepted : list nat) (t : list loop_call) (s : loop_t) : Prop := {
  li_futures : future_inv (lp_futures s);
  li_initialized : dl_initialized (lp_listener s) = true;
  li_listener : listener_open (lp_listener s) \/ listener_over (lp_listener s);
  li_callback : fu_cb (ours s) = match p with LEnded => None | _ => if lp_arm s then None else Some callback end;
  li_phase : phase_inv p s;
  li_dropped : listener_open (lp_listener s) -> dropped t = [];
  li_conserved : accepted = handled t ++ in_flight p s ++ dropped t ++ dl_events (lp_listener s);
  li_freed : freed t = handled t
}.

Lemma handled_app t t' : handled (t ++ t') = handled t ++ handled t'.
Proof. apply omap_app. Qed.
Lemma freed_requests_app t t' : freed (t ++ t') = freed t ++ freed t'.
Proof. apply omap_app. Qed.
Lemma dropped_app t t' : dropped (t ++ t') = dropped t ++ dropped t'.
Proof. apply omap_app. Qed.

Lemma quiet_futures t : quiet_calls (map LpFuture t).
Proof. unfold quiet_calls. by induction t. Qed.

Lemma quiet_app t t' : quiet_calls t -> quiet_calls t' -> quiet_calls (t ++ t').
Proof.
  unfold quiet_calls. rewrite handled_app, freed_requests_app, dropped_app. intros (-> & -> & ->) (-> & -> & ->). done.
Qed.

(** The listener resolves our future. *)
Lemma effect_resolve ec (s : loop_t) :
  future_inv (lp_futures s) -> fu_ready (ours s) = false ->
  exists fs' t, listener_effect (DlResolve future ec) s = Def (tt, s {{ lp_futures := fs' }}, t) /\ future_inv fs' /\
    fs_futures fs' future = (ours s) {{ fu_ec := ec; fu_ready := true }} /\ quiet_calls t.
Proof.
  intros Hi Hr. destruct (resolve_ours ec _ Hi Hr) as (fs' & t & E & Hi' & Hf).
  exists fs', (LpListener (DlResolve future ec) :: map LpFuture t). split; [| split; [done |]].
  - unfold listener_effect. rewrite (ubind_def _ _ s tt s [LpListener (DlResolve future ec)]) by done.
    unfold on_futures. by rewrite E.
  - split; [done |]. apply (quiet_app [_]); [done | apply quiet_futures].
Qed.

(** It hands out a request with our future. *)
Lemma effect_request r (s : loop_t) :
  future_inv (lp_futures s) -> fu_ready (ours s) = false ->
  exists fs' t, listener_effects [DlCallback NABTO_EC_OK (Some future) (Some r); DlResolve future NABTO_EC_OK] s =
      Def (tt, s {{ lp_request := Some r }} {{ lp_futures := fs' }}, t) /\ future_inv fs' /\
    fs_futures fs' future = (ours s) {{ fu_ec := NABTO_EC_OK; fu_ready := true }} /\ quiet_calls t.
Proof.
  intros Hi Hr. set (s1 := s {{ lp_request := Some r }}).
  destruct (effect_resolve NABTO_EC_OK s1) as (fs' & t & E & Hi' & Hf & Hq); [by destruct s.. |].
  exists fs', (LpListener (DlCallback NABTO_EC_OK (Some future) (Some r)) :: t). split; [| split; [done |]].
  - cbn [listener_effects].
    rewrite (ubind_def _ _ s tt s1 [LpListener (DlCallback NABTO_EC_OK (Some future) (Some r))]) by done.
    unfold ubind. rewrite E. cbn. by rewrite app_nil_r.
  - split; [by destruct s |]. by apply (quiet_app [_]).
Qed.

Lemma on_listener_eq {A} (m : dl_handler A) (s : loop_t) a l t s' t' :
  m (lp_listener s) = (a, l, t) -> listener_effects t (s {{ lp_listener := l }}) = Def (tt, s', t') ->
  on_listener m s = Def (a, s', t').
Proof.
  intros Em Et. unfold on_listener. rewrite Em. rewrite u_hmod. rewrite (ubind_def _ _ _ _ _ _ Et). cbn.
  by rewrite app_nil_r.
Qed.

(** What a listener that listens has after [start_listen], with the requests that are not given out yet. *)
Definition started (s s' : loop_t) (p : loop_phase) : Prop :=
  future_inv (lp_futures s') /\ dl_initialized (lp_listener s') = true /\
  (listener_open (lp_listener s) -> listener_open (lp_listener s')) /\
  (listener_over (lp_listener s) -> listener_over (lp_listener s')) /\
  fu_cb (ours s') = None /\ phase_inv p s' /\ lp_arm s' = true /\ p <> LEnded /\
  in_flight p s' ++ dl_events (lp_listener s') = dl_events (lp_listener s).

Lemma start_listen_ok (s : loop_t) :
  future_inv (lp_futures s) -> not_queued (ours s) -> dl_initialized (lp_listener s) = true ->
  listener_open (lp_listener s) \/ listener_over (lp_listener s) -> dl_fut (lp_listener s) = None ->
  exists s' t p, start_listen future s = Def (tt, s', t) /\ quiet_calls t /\ started s s' p.
Proof.
  intros Hi Hn Hini Hst Hfut. destruct (reset_ours _ Hi Hn) as (fs1 & t1 & E1 & Hi1 & Hf1).
  set (s1 := s {{ lp_futures := fs1 }}).
  assert (Hours1 : ours s1 = future_zero) by exact Hf1.
  assert (Hs1 : on_futures (future_step (FiReset future)) s = Def (tt, s1, map LpFuture t1)) by (unfold on_futures; by rewrite E1).
  assert (Hrest : exists a s2 t2 p, on_listener (nabto_device_listener_device_event accepts_all future) s1 = Def (a, s2, t2) /\
    quiet_calls t2 /\ started s (s2 {{ lp_arm := true }}) p).
  { destruct s as [fs [ini ev cb fut ec] rq arm]. cbn in Hini, Hfut, Hst. subst ini fut.
    destruct Hst as [[Hec Hcb] | (Hec & Hcb & Hev)]; cbn in Hec, Hcb.
    - subst ec cb. destruct ev as [| r ev].
      + (* waiting *)
        exists true, (mk_lp fs1 (mk_dl true [] true (Some future) NABTO_EC_OK) rq arm), [], LWaiting.
        split; [| split; [done |]].
        * eapply on_listener_eq; [reflexivity | reflexivity].
        * unfold started. cbn. split_and!; try done; try (by intros (? & _)); [by unfold ours; cbn; rewrite Hf1 |].
          unfold phase_inv, ours. cbn. by rewrite Hf1.
      + (* a request is there *)
        set (l2 := mk_dl true ev true None NABTO_EC_OK).
        destruct (effect_request r (mk_lp fs1 l2 rq arm)) as (fs2 & t2 & E2 & Hi2 & Hf2 & Hq2);
          [done | unfold ours; cbn; by rewrite Hf1 |].
        exists true, (mk_lp fs2 l2 (Some r) arm), t2, LResolved. split; [| split; [done |]].
        * eapply on_listener_eq; [reflexivity | exact E2].
        * unfold started, phase_inv, in_flight, ours. cbn. unfold ours in Hf2. cbn in Hf2. rewrite Hf1 in Hf2.
          rewrite Hf2. cbn. split_and!; try done; first [by eexists | intros (Hx & _); by cbn in Hx].
    - (* the listener has ended *)
      cbn in Hev. subst cb ev. set (l2 := mk_dl true [] false None ec).
      destruct (effect_resolve ec (mk_lp fs1 l2 rq arm)) as (fs2 & t2 & E2 & Hi2 & Hf2 & Hq2);
        [done | unfold ours; cbn; by rewrite Hf1 |].
      exists false, (mk_lp fs2 l2 rq arm), t2, LResolved. split; [| split; [done |]].
      + assert (E3 : listener_effects [DlResolve future ec] (mk_lp fs1 l2 rq arm) = Def (tt, mk_lp fs2 l2 rq arm, t2))
          by (cbn [listener_effects]; rewrite (ubind_def _ _ _ _ _ _ E2); cbn; by rewrite app_nil_r).
        eapply on_listener_eq; [| exact E3]. unfold nabto_device_listener_device_event. rewrite hget_seq. cbn. rewrite Hec. reflexivity.
      + unfold started, phase_inv, in_flight, ours. cbn. unfold ours in Hf2. cbn in Hf2. rewrite Hf1 in Hf2.
        rewrite Hf2. cbn. unfold constant. rewrite Hec. split_and!; try done; intros (Hx & ?); cbn in Hx; by subst ec. }
  destruct Hrest as (a & s2 & t2 & p & E2 & Hq2 & Hp).
  exists (s2 {{ lp_arm := true }}), (map LpFuture t1 ++ t2), p. split; [| split; [| done]].
  - unfold start_listen. rewrite (ubind_def _ _ _ _ _ _ Hs1), (ubind_def _ _ _ _ _ _ E2). cbn. by rewrite app_nil_r.
  - apply quiet_app; [apply quiet_futures | done].
Qed.

(** What a step adds to the requests that are accepted. *)
Definition accepts (i : loop_input) (s : loop_t) : list nat :=
  match i with
  | LoRequest r => if negb (dl_initialized (lp_listener s)) || is_error (dl_ec (lp_listener s)) then [] else [r]
  | _ => []
  end.

Definition loop_input_ok (i : loop_input) : Prop := match i with LoSetError ec => is_error ec = true | _ => True end.

Definition loop_goal (i : loop_input) (acc : list nat) (t : list loop_call) (s : loop_t) : Prop :=
  exists p' s' t', loop_step future callback i s = Def (accepts i s, s', t') /\ loop_inv p' (acc ++ accepts i s) (t ++ t') s'.

Lemma loop_request_ok p acc t s r : loop_inv p acc t s -> loop_goal (LoRequest r) acc t s.
Proof.
  intros [Hi Hini Hl Hcb Hph Hd Hc Hf]. unfold loop_goal. cbn [loop_step accepts].
  destruct s as [fs [ini ev cb fut ec] rq arm]. cbn in Hini. subst ini. cbn.
  destruct (is_error ec) eqn:Eec.
  { exists p, (mk_lp fs (mk_dl true ev cb fut ec) rq arm), [].
    assert (E : on_listener (nabto_device_listener_add_event accepts_all r) (mk_lp fs (mk_dl true ev cb fut ec) rq arm) =
      Def (ec, mk_lp fs (mk_dl true ev cb fut ec) rq arm, [])).
    { apply (on_listener_eq _ _ ec (mk_dl true ev cb fut ec) []); [| done].
      unfold nabto_device_listener_add_event. rewrite hget_seq. cbn. by rewrite Eec. }
    rewrite (ubind_def _ _ _ _ _ _ E). cbn. rewrite Eec. cbn. rewrite !app_nil_r. split; [done | by split]. }
  assert (Hopen : listener_open (mk_dl true ev cb fut ec)) by (destruct Hl as [| (Hx & _)]; [done | cbn in Hx; congruence]).
  destruct Hopen as [Hec Hcb']. cbn in Hec, Hcb'. subst ec cb.
  destruct p; cbn in Hph.
  - destruct Hph as (_ & Hfut & Hev & Hr). subst fut ev. set (l2 := mk_dl true [] true None NABTO_EC_OK).
    destruct (effect_request r (mk_lp fs l2 rq arm)) as (fs2 & t2 & E2 & Hi2 & Hf2 & Hq1 & Hq2 & Hq3); [done.. |].
    exists LResolved, (mk_lp fs2 l2 (Some r) arm), t2.
    assert (E : on_listener (nabto_device_listener_add_event accepts_all r) (mk_lp fs (mk_dl true [] true (Some future) NABTO_EC_OK) rq arm) =
      Def (NABTO_EC_OK, mk_lp fs2 l2 (Some r) arm, t2)) by (eapply on_listener_eq; [reflexivity | exact E2]).
    rewrite (ubind_def _ _ _ _ _ _ E). cbn. rewrite app_nil_r. split; [done |].
    unfold ours in Hf2, Hcb. cbn in Hf2, Hcb. split; cbn; try done; unfold ours; cbn; rewrite ?Hf2; cbn; try done.
    + intros _. rewrite dropped_app, Hq3, app_nil_r. by apply Hd.
    + rewrite handled_app, dropped_app, Hq1, Hq3, !app_nil_r, Hd by done. rewrite Hc, Hd by done. cbn. by rewrite !app_nil_r.
    + by rewrite handled_app, freed_requests_app, Hq1, Hq2, !app_nil_r.
  - destruct Hph as (Hfut & Hr & Hres). subst fut.
    exists LResolved, (mk_lp fs (mk_dl true (ev ++ [r]) true None NABTO_EC_OK) rq arm), [].
    assert (E : on_listener (nabto_device_listener_add_event accepts_all r) (mk_lp fs (mk_dl true ev true None NABTO_EC_OK) rq arm) =
      Def (NABTO_EC_OK, mk_lp fs (mk_dl true (ev ++ [r]) true None NABTO_EC_OK) rq arm, []))
      by (eapply on_listener_eq; reflexivity).
    rewrite (ubind_def _ _ _ _ _ _ E). cbn. rewrite !app_nil_r. split; [done |]. split; cbn; try done.
    + by left.
    + split_and!; try done. unfold ours in *. cbn in *. destruct (is_error _); [| done]. by destruct Hres.
    + rewrite Hc. cbn. by rewrite <- !app_assoc.
  - by destruct Hph as (_ & (Hx & _) & _).
Qed.

(** [start_listen] sets the callback. *)
Lemma arm_spec p acc t (s : loop_t) : loop_inv p acc t s ->
  exists s' t', start_listen_callback future callback s = Def (tt, s', t') /\ loop_inv p acc (t ++ t') s' /\
    lp_arm s' = false /\ lp_listener s' = lp_listener s /\ in_flight p s' = in_flight p s /\ handled t' = [].
Proof.
  intros Hinv. pose proof Hinv as [Hi Hini Hl Hcb Hph Hd Hc Hf].
  unfold start_listen_callback. rewrite u_hget. destruct (lp_arm s) eqn:Ea.
  2: { exists s, []. rewrite app_nil_r. by split_and!. }
  assert (Hne : p <> LEnded) by (intros ->; cbn in Hph; destruct Hph as (_ & _ & Hx); congruence).
  assert (Hnone : fu_cb (ours s) = None) by (by destruct p).
  destruct (set_callback_ours _ Hi Hnone) as (fs2 & t2 & E2 & Hi2 & Hf2).
  destruct (quiet_futures t2) as (Q1 & Q2 & Q3).
  set (s2 := s {{ lp_futures := fs2 }} {{ lp_arm := false }}).
  exists s2, (map LpFuture t2).
  assert (E : on_futures (nabto_device_future_set_callback future callback) s = Def (tt, s {{ lp_futures := fs2 }}, map LpFuture t2))
    by (unfold on_futures; by rewrite E2).
  rewrite (ubind_def _ _ _ _ _ _ E). split; [cbn; by rewrite app_nil_r |].
  assert (Hours : ours s2 = (ours s) {{ fu_cb := Some callback }}) by exact Hf2.
  assert (Hfl : in_flight p s2 = in_flight p s) by (destruct p; cbn [in_flight]; by rewrite ?Hours).
  split; [| by split_and!].
  split; rewrite ?handled_app, ?dropped_app, ?freed_requests_app, ?Q1, ?Q2, ?Q3, ?app_nil_r; try done.
  - rewrite Hours. by destruct p.
  - destruct p; cbn [phase_inv] in *; by rewrite ?Hours.
  - by rewrite Hfl.
Qed.

Lemma arm_ok p acc t (s : loop_t) : loop_inv p acc t s -> loop_goal LoArm acc t s.
Proof.
  intros Hinv. destruct (arm_spec _ _ _ _ Hinv) as (s' & t' & E & Hi & _). unfold loop_goal.
  exists p, s', t'. cbn [loop_step accepts]. rewrite (ubind_def _ _ _ _ _ _ E). cbn. by rewrite !app_nil_r.
Qed.

(** The listener gives its events back. *)
Lemma effects_drop ec es : forall rest (s s' : loop_t) t,
  listener_effects rest s = Def (tt, s', t) ->
  listener_effects (map (fun e => DlCallback ec None (Some e)) es ++ rest) s =
    Def (tt, s', map (fun e => LpListener (DlCallback ec None (Some e))) es ++ t).
Proof.
  induction es as [| e es IH]; intros rest s s' t E; [done |]. cbn [map app listener_effects].
  rewrite (ubind_def _ _ s tt s [LpListener (DlCallback ec None (Some e))]) by (by destruct ec).
  by rewrite (IH _ _ _ _ E).
Qed.

Lemma drop_calls ec es :
  let t : list loop_call := map (fun e => LpListener (DlCallback ec None (Some e))) es in
  handled t = [] /\ freed t = [] /\ dropped t = es.
Proof.
  cbv zeta. induction es as [| e es (IH1 & IH2 & IH3)]; [done |].
  split_and!; [exact IH1 | exact IH2 | exact (f_equal (cons e) IH3)].
Qed.

(** The listener of a loop gets an error. *)
Lemma over_ended p acc t (s : loop_t) :
  loop_inv p acc t s -> listener_over (lp_listener s) -> ended (lp_listener s) /\ p <> LWaiting.
Proof.
  intros [_ Hini _ _ Hph _ _ _] (He & Hcb & Hev).
  assert (Hx : dl_fut (lp_listener s) = None /\ p <> LWaiting).
  { destruct p; cbn in Hph; [| by destruct Hph | by destruct Hph].
    destruct Hph as ([Hok _] & _). by rewrite Hok in He. }
  destruct Hx as [Hf Hp]. by split.
Qed.

Lemma error_ok p acc t (s : loop_t) ec : loop_inv p acc t s -> is_error ec = true ->
  exists p' s' t', on_listener (nabto_device_listener_set_error_code ec) s = Def (tt, s', t') /\ loop_inv p' acc (t ++ t') s'.
Proof.
  intros Hinv Hec. pose proof Hinv as [Hi Hini Hl Hcb Hph Hd Hc Hf]. destruct Hl as [Ho | Ho].
  - assert (Hop : open (lp_listener s)).
    { destruct Ho as [Ho1 Ho2]. split_and!; try done. destruct p; cbn in Hph; [right | left | left]; by destruct Hph as (? & ?); destruct_and?. }
    pose proof (set_error_open ec _ Hop) as E. specialize (Hd Ho).
    destruct s as [fs [ini ev cb fut lec] rq arm]. cbn in Hini, E. destruct Ho as [Ho1 Ho2]. cbn in Ho1, Ho2.
    unfold constant in E. cbn in E. unfold end_trace in E. cbn in E.
    set (ec1 := if ec_eqb ec NABTO_EC_ABORTED then NABTO_EC_STOPPED else ec) in E.
    set (l2 := mk_dl ini [] false None ec) in E.
    destruct (drop_calls ec1 ev) as (D1 & D2 & D3).
    destruct p; cbn in Hph.
    + destruct Hph as (_ & Hfut & Hev & Hr). subst fut ev.
      destruct (effect_resolve ec (mk_lp fs l2 rq arm)) as (fs2 & t2 & E2 & Hi2 & Hf2 & Hq1 & Hq2 & Hq3); [done.. |].
      exists LResolved, (mk_lp fs2 l2 rq arm), (t2 ++ [LpListener (DlCallback NABTO_EC_ABORTED None None)]).
      split.
      * eapply on_listener_eq; [exact E |]. change (listener_effects [DlResolve future ec; DlCallback NABTO_EC_ABORTED None None] (mk_lp fs l2 rq arm) = Def (tt, mk_lp fs2 l2 rq arm, t2 ++ [LpListener (DlCallback NABTO_EC_ABORTED None None)])).
        cbn [listener_effects]. rewrite (ubind_def _ _ _ _ _ _ E2). done.
      * unfold ours in *. cbn in *.
        split; cbn; unfold ours, constant; cbn; rewrite ?handled_app, ?dropped_app, ?freed_requests_app, ?Hq1, ?Hq2, ?Hq3, ?app_nil_r; try done.
        -- by right.
        -- rewrite Hf2. done.
        -- rewrite Hf2. cbn. unfold constant. by rewrite Hec.
        -- rewrite Hc, Hd, Hf2. cbn. unfold constant. rewrite Hec. by rewrite !app_nil_r.
    + destruct Hph as (Hfut & Hr & Hres). subst fut.
      set (t2 := map (fun e => LpListener (DlCallback ec1 None (Some e))) ev ++ [LpListener (DlCallback NABTO_EC_ABORTED None None)] : list loop_call).
      exists LResolved, (mk_lp fs l2 rq arm), t2. split.
      * eapply on_listener_eq; [exact E |]. by apply effects_drop.
      * assert (Q : handled t2 = [] /\ freed t2 = [] /\ dropped t2 = ev)
          by (unfold t2; rewrite handled_app, freed_requests_app, dropped_app, D1, D2, D3; by split_and!; [.. | exact (app_nil_r ev)]).
        destruct Q as (Q1 & Q2 & Q3).
        split; cbn; rewrite ?handled_app, ?dropped_app, ?freed_requests_app, ?Q1, ?Q2, ?Q3, ?app_nil_r; try done.
        -- by right.
        -- split_and!; [done.. |]. unfold ours in *. cbn in *. destruct (is_error (fu_ec (fs_futures fs future))); [| done].
           by split_and!.
        -- intros [Hx _]. cbn in Hx. by subst ec.
    + by destruct Hph as (_ & (Hx & _) & _); cbn in Hx; subst lec.
  - destruct (over_ended _ _ _ _ Hinv Ho) as [He Hp]. pose proof (set_error_ended ec _ He) as E.
    destruct s as [fs [ini ev cb fut lec] rq arm]. destruct Ho as (Ho1 & Ho2 & Ho3). cbn in Hini, E, Ho1, Ho2, Ho3. subst cb ev.
    unfold constant in E. exists p, (mk_lp fs (mk_dl ini [] false fut ec) rq arm), [].
    split; [by eapply on_listener_eq; [exact E |] |]. rewrite app_nil_r. split; try done.
    + by right.
    + destruct p; cbn in Hph |- *; [done | |].
      * destruct Hph as (Hfut & Hr & Hres). split_and!; [done.. |]. unfold ours in *. cbn in *.
        destruct (is_error (fu_ec (fs_futures fs future))); [by split_and! | done].
      * destruct Hph as (Hfut & _ & Ha). by split_and!.
    + intros [Hx _]. cbn in Hx. by subst ec.
Qed.

Lemma set_error_input_ok p acc t (s : loop_t) ec :
  loop_inv p acc t s -> is_error ec = true -> loop_goal (LoSetError ec) acc t s.
Proof.
  intros Hinv Hec. destruct (error_ok _ _ _ _ _ Hinv Hec) as (p' & s' & t' & E & Hi). unfold loop_goal.
  exists p', s', t'. cbn [loop_step accepts]. rewrite (ubind_def _ _ _ _ _ _ E). cbn. by rewrite !app_nil_r.
Qed.

Lemma stop_ok p acc t (s : loop_t) : loop_inv p acc t s -> loop_goal LoStop acc t s.
Proof.
  intros Hinv. unfold loop_goal. cbn [loop_step accepts]. rewrite app_nil_r.
  destruct (is_error (dl_ec (lp_listener s))) eqn:Eec.
  - exists p, s, []. rewrite app_nil_r. split; [| done].
    assert (E : on_listener nabto_device_listener_stop s = Def (dl_ec (lp_listener s), s, [])).
    { apply (on_listener_eq _ _ _ (lp_listener s) []); [| by destruct s].
      unfold nabto_device_listener_stop, nabto_device_listener_stop_internal, hbind, hget.
      rewrite (li_initialized _ _ _ _ Hinv). cbn. by rewrite Eec. }
    by rewrite (ubind_def _ _ _ _ _ _ E).
  - destruct (error_ok _ _ _ _ NABTO_EC_STOPPED Hinv eq_refl) as (p' & s' & t' & E & Hinv').
    exists p', s', t'. split; [| done].
    assert (E1 : on_listener nabto_device_listener_stop s = Def (NABTO_EC_STOPPED, s', t')).
    { unfold on_listener in *.
      destruct (nabto_device_listener_set_error_code NABTO_EC_STOPPED (lp_listener s)) as [[[] l] tl] eqn:El.
      rewrite u_hmod in E. apply ubind_inv in E as (x & s1 & t1 & t2 & E1 & E2 & Et).
      destruct x. apply ulift_inv in E2 as [-> ->]. cbn in Et. rewrite app_nil_r in Et. subst t1.
      assert (Ex : nabto_device_listener_stop (lp_listener s) = (NABTO_EC_STOPPED, l, tl)).
      { unfold nabto_device_listener_stop, nabto_device_listener_stop_internal, hget, hbind.
        rewrite (li_initialized _ _ _ _ Hinv). cbn [negb]. rewrite Eec, El. cbn. by rewrite !app_nil_r. }
      rewrite Ex, u_hmod, (ubind_def _ _ _ _ _ _ E1). cbn. by rewrite app_nil_r. }
    rewrite (ubind_def _ _ _ _ _ _ E1). cbn. by rewrite app_nil_r.
Qed.

(** A round of the queue. *)
Lemma callback_ok acc t (s : loop_t) ec :
  loop_inv LResolved acc t s -> fu_ec (ours s) = ec ->
  forall s1, s1 {{ lp_futures := lp_futures s }} = s -> future_inv (lp_futures s1) ->
  fu_cb (ours s1) = None -> fu_ready (ours s1) = true -> lp_arm s = false ->
  exists p' s' t', request_callback future ec s1 = Def (tt, s', t') /\ loop_inv p' acc (t ++ t') s' /\
    handled t' = in_flight LResolved s /\ (listener_open (lp_listener s) -> listener_open (lp_listener s')).
Proof.
  intros [Hi Hini Hl Hcb Hph Hd Hc Hf] Hec s1 Hs1 Hi1 Hcb1 Hr1 Ha.
  assert (E : lp_listener s1 = lp_listener s /\ lp_request s1 = lp_request s /\ lp_arm s1 = lp_arm s)
    by (rewrite <- Hs1; by destruct s1).
  destruct E as (El & Er & Ea). destruct Hph as (Hfut & Hr & Hres). unfold request_callback.
  cbn [in_flight] in *. rewrite Hec in *. destruct (is_error ec) eqn:Eec.
  - exists LEnded, s1, []. rewrite app_nil_r. split; [done |]. split; [| by rewrite El].
    split; rewrite ?El; try done. cbn. rewrite El, Ea. by split_and!.
  - destruct Hres as [r Hrq]. rewrite Hrq in Hc. cbn in Hc. rewrite u_hget, Er, Hrq.
    destruct (start_listen_ok s1) as (s' & t' & p & E & (Q1 & Q2 & Q3) & Hst); rewrite ?El; try done; [by right |].
    destruct Hst as (S1 & S2 & S3 & S4 & S5 & S6 & S7 & S8 & S9). rewrite El in S3, S4, S9.
    assert (Q : handled (LpHandle r :: LpFree r :: t') = [r] /\ freed (LpHandle r :: LpFree r :: t') = [r] /\
      dropped (LpHandle r :: LpFree r :: t') = [])
      by (split_and!; [exact (f_equal (cons r) Q1) | exact (f_equal (cons r) Q2) | exact Q3]).
    destruct Q as (Q4 & Q5 & Q6).
    exists p, s', (LpHandle r :: LpFree r :: t'). split; [| split; [| split]].
    + rewrite (ubind_def _ _ s1 tt s1 [LpHandle r]) by done. rewrite (ubind_def _ _ s1 tt s1 [LpFree r]) by done.
      by rewrite E.
    + assert (Hopen : listener_open (lp_listener s') -> listener_open (lp_listener s)).
      { intros Ho. destruct Hl as [| Hl]; [done |]. destruct Ho as [Ho _], (S4 Hl) as [Hx _]. by rewrite Ho in Hx. }
      split; try done.
      * destruct Hl; [left | right]; auto.
      * rewrite S5, S7. by destruct p.
      * intros Ho. rewrite dropped_app, Q6, app_nil_r. auto.
      * rewrite handled_app, dropped_app, Q4, Q6, app_nil_r, Hc.
        destruct Hl as [Ho | (_ & _ & Hev)].
        -- rewrite (Hd Ho). rewrite <- S9, <- app_assoc. done.
        -- rewrite Hev in *. apply app_nil in S9 as [-> ->]. by rewrite !app_nil_r, <- app_assoc.
      * by rewrite handled_app, freed_requests_app, Q4, Q5, Hf.
    + exact Q4.
    + exact S3.
Qed.

Lemma round_spec p acc t (s : loop_t) : loop_inv p acc t s ->
  exists p' s' t', loop_round future callback s = Def (tt, s', t') /\ loop_inv p' acc (t ++ t') s' /\
    match ll_items (fs_links (lp_futures s)) futureList with
    | [] => s' = s /\ p' = p
    | f :: q => (listener_open (lp_listener s) -> listener_open (lp_listener s')) /\ if decide (f = future) then handled t' = in_flight p s
                else p' = p /\ in_flight p' s' = in_flight p s /\ lp_arm s' = lp_arm s /\ handled t' = [] /\
                     lp_listener s' = lp_listener s /\
                     ll_items (fs_links (lp_futures s')) futureList = q
    end.
Proof.
  intros Hinv. pose proof Hinv as [Hi Hini Hl Hcb Hph Hd Hc Hf]. unfold loop_round. rewrite u_hget.
  destruct (ll_items (fs_links (lp_futures s)) futureList) as [| f q] eqn:Eq.
  - assert (E : exists r, execution_round (lp_futures s) = (r, lp_futures s, []))
      by (unfold execution_round; rewrite hget_seq, Eq; destruct (fs_stopped _); by eexists).
    destruct E as [r E]. exists p, s, []. rewrite app_nil_r. split; [| done].
    assert (E1 : on_futures (ulift execution_round) s = Def (r, s, [])) by (unfold on_futures, ulift; rewrite E; by destruct s).
    rewrite (ubind_def _ _ _ _ _ _ E1). unfold trace. by rewrite E.
  - pose proof (round_run _ _ _ Eq) as E. destruct (inv_round _ _ _ Hi Eq) as (Hi1 & Eq1 & Hsame).
    assert (Hin : f ∈ ll_items (fs_links (lp_futures s)) futureList) by (rewrite Eq; left).
    apply (fi_queue _ Hi) in Hin as [Hready Hsome]. destruct (fu_cb (fs_futures (lp_futures s) f)) as [cb |] eqn:Ecb; [| done].
    set (fs1 := exec execution_round (lp_futures s)) in *. set (ec := fu_ec (fs_futures (lp_futures s) f)) in E.
    assert (Efs : execution_round (lp_futures s) = (RoundPopped, fs1, [FuCallback f cb ec])) by (unfold fs1, exec; by rewrite E).
    set (s1 := s {{ lp_futures := fs1 }}).
    assert (E1 : on_futures (ulift execution_round) s = Def (RoundPopped, s1, [LpFuture (FuCallback f cb ec)]))
      by (unfold on_futures, ulift; by rewrite Efs).
    rewrite (ubind_def _ _ _ _ _ _ E1). unfold trace. rewrite Efs. cbn [snd].
    assert (Hs1 : s1 {{ lp_futures := lp_futures s }} = s) by (by destruct s).
    destruct (decide (f = future)) as [-> | Hne].
    + fold (ours s) in Ecb, Hready, ec. rewrite Nat.eqb_refl. cbn [andb].
      assert (Hp : p = LResolved /\ lp_arm s = false /\ cb = callback).
      { rewrite Ecb in Hcb. destruct p; [| | done]; destruct (lp_arm s); try done; [| split_and!; congruence].
        cbn in Hph. destruct Hph as (_ & _ & _ & Hx). congruence. }
      destruct Hp as (-> & Ha & ->). rewrite Nat.eqb_refl.
      assert (Hours : ours s1 = (ours s) {{ fu_cb := None }}).
      { unfold ours. change (lp_futures s1) with fs1. unfold fs1, exec. rewrite E. cbn [fst snd].
        generalize (lp_futures s). intros [m h st]. cbn. unfold constant. by rewrite fn_lookup_insert. }
      destruct (callback_ok acc t s ec Hinv eq_refl s1 Hs1) as (p' & s' & t' & E2 & Hinv' & Hh & Hopen);
        [done | by rewrite Hours | rewrite Hours; by destruct (ours s) | done |].
      exists p', s', (LpFuture (FuCallback future callback ec) :: t'). rewrite E2. split; [done |]. split; [| done].
      destruct Hinv' as [J1 J2 J3 J4 J5 J6 J7 J8]. rewrite handled_app, dropped_app in J7. rewrite dropped_app in J6.
      rewrite handled_app, freed_requests_app in J8. by split; rewrite ?handled_app, ?freed_requests_app, ?dropped_app.
    + rewrite (proj2 (Nat.eqb_neq f future)) by done. cbn [andb].
      assert (Hours : ours s1 = ours s) by (apply Hsame; auto).
      exists p, s1, [LpFuture (FuCallback f cb ec)]. split; [done |].
      assert (Hfl : in_flight p s1 = in_flight p s) by (destruct p; cbn [in_flight]; rewrite ?Hours; done).
      split; [| by split_and!].
      split; try done; rewrite ?handled_app, ?freed_requests_app, ?dropped_app; cbn [handled freed dropped omap list_omap]; rewrite ?app_nil_r, ?Hours; try done.
      * destruct p; cbn [phase_inv] in *; rewrite ?Hours; done.
      * by rewrite Hfl.
Qed.

Lemma round_ok p acc t (s : loop_t) : loop_inv p acc t s -> loop_goal LoRound acc t s.
Proof.
  intros Hinv. destruct (round_spec _ _ _ _ Hinv) as (p' & s' & t' & E & Hi & _).
  unfold loop_goal. exists p', s', t'. cbn [loop_step accepts]. rewrite (ubind_def _ _ _ _ _ _ E). cbn.
  by rewrite !app_nil_r.
Qed.

Lemma loop_step_ok i p acc t (s : loop_t) : loop_input_ok i -> loop_inv p acc t s -> loop_goal i acc t s.
Proof.
  destruct i; cbn [loop_input_ok]; intros Hok Hinv.
  - by eapply loop_request_ok.
  - by eapply set_error_input_ok.
  - by eapply stop_ok.
  - by eapply arm_ok.
  - by eapply round_ok.
Qed.

Lemma loop_run_ok inputs : forall p acc t (s : loop_t),
  Forall loop_input_ok inputs -> loop_inv p acc t s ->
  exists p' more s' t', loop_run future callback inputs s = Def (more, s', t') /\ loop_inv p' (acc ++ more) (t ++ t') s'.
Proof.
  induction inputs as [| i inputs IH]; intros p acc t s Hok Hinv.
  { exists p, [], s, []. by rewrite !app_nil_r. }
  apply Forall_cons_1 in Hok as [Hi Hok]. destruct (loop_step_ok i _ _ _ _ Hi Hinv) as (p1 & s1 & t1 & E1 & Hinv1).
  destruct (IH _ _ _ _ Hok Hinv1) as (p2 & more & s2 & t2 & E2 & Hinv2).
  exists p2, (accepts i s ++ more), s2, (t1 ++ t2). cbn [loop_run].
  rewrite (ubind_def _ _ _ _ _ _ E1), (ubind_def _ _ _ _ _ _ E2). cbn. rewrite app_nil_r. split; [done |].
  by rewrite !(app_assoc acc), !(app_assoc t).
Qed.

Lemma loop_run_cons i inputs (s s1 s2 : loop_t) t1 t2 :
  loop_step future callback i s = Def ([], s1, t1) -> loop_run future callback inputs s1 = Def ([], s2, t2) ->
  loop_run future callback (i :: inputs) s = Def ([], s2, t1 ++ t2).
Proof.
  intros E1 E2. cbn [loop_run]. rewrite (ubind_def _ _ _ _ _ _ E1), (ubind_def _ _ _ _ _ _ E2). cbn. by rewrite app_nil_r.
Qed.

(** The steps of the handler and of the queue's thread. *)
Definition serving (i : loop_input) : Prop := i = LoArm \/ i = LoRound.

(** Rounds of the queue's thread get to our callback. *)
Lemma rounds_serve q : forall p acc t (s : loop_t),
  loop_inv p acc t s -> listener_open (lp_listener s) -> lp_arm s = false ->
  ll_items (fs_links (lp_futures s)) futureList = q -> future ∈ q ->
  exists n p' s' t', loop_run future callback (replicate n LoRound) s = Def ([], s', t') /\ loop_inv p' acc (t ++ t') s' /\
    listener_open (lp_listener s') /\ handled t' = in_flight p s.
Proof.
  induction q as [| f q IH]; intros p acc t s Hinv Ho Ha Eq Hin; [by apply not_elem_of_nil in Hin |].
  destruct (round_spec _ _ _ _ Hinv) as (p1 & s1 & t1 & E1 & Hinv1 & Hs1). rewrite Eq in Hs1. destruct Hs1 as [Ho1 Hs1].
  assert (E1' : loop_step future callback LoRound s = Def ([], s1, t1))
    by (cbn [loop_step]; rewrite (ubind_def _ _ _ _ _ _ E1); cbn; by rewrite app_nil_r).
  destruct (decide (f = future)) as [-> | Hne].
  - exists 1%nat, p1, s1, (t1 ++ []). split; [by eapply loop_run_cons |]. rewrite app_nil_r. split_and!; auto.
  - destruct Hs1 as (-> & Hfl & Ha1 & Hh & Hl1 & Eq1).
    apply elem_of_cons in Hin as [-> | Hin]; [done |].
    destruct (IH _ _ _ _ Hinv1 (Ho1 Ho) ltac:(congruence) Eq1 Hin) as (n & p2 & s2 & t2 & E2 & Hinv2 & Ho2 & Hh2).
    exists (Datatypes.S n), p2, s2, (t1 ++ t2). split; [by eapply loop_run_cons |]. rewrite app_assoc. split_and!; try done.
    by rewrite handled_app, Hh, Hh2, Hfl.
Qed.

(** A request that is given out is handled. *)
Lemma flight_served p acc t (s : loop_t) r :
  loop_inv p acc t s -> listener_open (lp_listener s) -> in_flight p s = [r] ->
  exists inputs p' s' t', Forall serving inputs /\ loop_run future callback inputs s = Def ([], s', t') /\
    loop_inv p' acc (t ++ t') s' /\ listener_open (lp_listener s') /\ handled t' = [r].
Proof.
  intros Hinv Ho Hfl. destruct (arm_spec _ _ _ _ Hinv) as (s1 & t1 & E1 & Hinv1 & Ha1 & Hl1 & Hfl1 & Hh1).
  assert (E1' : loop_step future callback LoArm s = Def ([], s1, t1))
    by (cbn [loop_step]; rewrite (ubind_def _ _ _ _ _ _ E1); cbn; by rewrite app_nil_r).
  assert (Hin : future ∈ ll_items (fs_links (lp_futures s1)) futureList).
  { apply (fi_queue _ (li_futures _ _ _ _ Hinv1)). fold (ours s1). destruct p; cbn [in_flight] in Hfl; try done.
    destruct (li_phase _ _ _ _ Hinv1) as (_ & Hr & _). rewrite Hr, (li_callback _ _ _ _ Hinv1), Ha1. done. }
  destruct (rounds_serve _ _ _ _ _ Hinv1 ltac:(by rewrite Hl1) Ha1 eq_refl Hin) as (n & p2 & s2 & t2 & E2 & Hinv2 & Ho2 & Hh2).
  exists (LoArm :: replicate n LoRound), p2, s2, (t1 ++ t2). split_and!; try done.
  - constructor; [by left |]. apply Forall_replicate. by right.
  - by eapply loop_run_cons.
  - by rewrite app_assoc.
  - by rewrite handled_app, Hh1, Hh2, Hfl1.
Qed.

Lemma loop_run_app inputs : forall inputs' (s s1 s2 : loop_t) t1 t2,
  loop_run future callback inputs s = Def ([], s1, t1) -> loop_run future callback inputs' s1 = Def ([], s2, t2) ->
  loop_run future callback (inputs ++ inputs') s = Def ([], s2, t1 ++ t2).
Proof.
  induction inputs as [| i inputs IH]; intros inputs' s s1 s2 t1 t2 E1 E2.
  { injection E1 as <- <-. done. }
  cbn [loop_run] in E1. apply ubind_inv in E1 as (a & s3 & t3 & t4 & E3 & E4 & ->).
  apply ubind_inv in E4 as (b & s4 & t5 & t6 & E5 & E6 & ->). injection E6 as Eab <- <-.
  apply app_nil in Eab as [-> ->]. rewrite app_nil_r, <- app_assoc. cbn [app].
  eapply loop_run_cons; [exact E3 |]. by eapply IH.
Qed.

(** All that is queued is handled. *)
Lemma all_served k : forall p acc t (s : loop_t),
  loop_inv p acc t s -> listener_open (lp_listener s) -> length acc = (length (handled t) + k)%nat ->
  exists inputs s' t', Forall serving inputs /\ loop_run future callback inputs s = Def ([], s', t') /\ handled (t ++ t') = acc.
Proof.
  induction k as [| k IH]; intros p acc t s Hinv Ho Hk; pose proof (li_conserved _ _ _ _ Hinv) as Hc;
    rewrite (li_dropped _ _ _ _ Hinv Ho) in Hc.
  - exists [], s, []. split_and!; [done.. |]. rewrite app_nil_r.
    rewrite Hc, !length_app in Hk. symmetry. rewrite Hc. rewrite (nil_length_inv (in_flight p s)), (nil_length_inv (dl_events _)) by lia.
    by rewrite app_nil_r.
  - assert (Hr : exists r, in_flight p s = [r]).
    { assert (Hlen : in_flight p s ++ dl_events (lp_listener s) <> []).
      { intros E. rewrite Hc in Hk. cbn in Hk. rewrite E, app_nil_r in Hk. lia. }
      pose proof (li_phase _ _ _ _ Hinv) as Hph. destruct p; cbn [phase_inv in_flight] in *.
      - destruct Hph as (_ & _ & Hev & _). by rewrite Hev in Hlen.
      - destruct Hph as (_ & _ & Hx). destruct (is_error _); [| destruct Hx as [r ->]; by exists r].
        destruct Hx as (Hx & _), Ho as [Ho _]. by rewrite Ho in Hx.
      - destruct Hph as (_ & (Hx & _) & _), Ho as [Ho _]. by rewrite Ho in Hx. }
    destruct Hr as [r Hr]. destruct (flight_served _ _ _ _ _ Hinv Ho Hr) as (i1 & p1 & s1 & t1 & Hs1 & E1 & Hinv1 & Ho1 & Hh1).
    destruct (IH _ _ _ _ Hinv1 Ho1) as (i2 & s2 & t2 & Hs2 & E2 & Hh2); [rewrite handled_app, Hh1, length_app; cbn; lia |].
    exists (i1 ++ i2), s2, (t1 ++ t2). split_and!; [by apply Forall_app | by eapply loop_run_app | by rewrite app_assoc].
Qed.

Lemma flight_cases p acc t (s : loop_t) : loop_inv p acc t s ->
  in_flight p s = [] \/ exists r, in_flight p s = [r] /\ lp_request s = Some r.
Proof.
  intros Hinv. pose proof (li_phase _ _ _ _ Hinv) as Hph. destruct p; cbn [in_flight phase_inv] in *; [by left | | by left].
  destruct Hph as (_ & _ & Hx). destruct (is_error _); [by left |]. destruct Hx as [r ->]. right. by exists r.
Qed.

(** The start. *)
Lemma init_ok (fs : future_state (H := H)) : future_inv fs -> not_queued (fs_futures fs future) ->
  exists p s t, nm_iam_coap_handler_init future true (loop_start fs) = Def (NABTO_EC_OK, s, t) /\ loop_inv p [] t s.
Proof.
  intros Hi Hn. destruct (start_listen_ok (loop_start fs)) as (s & t & p & E & (Q1 & Q2 & Q3) & Hst); try done; [by left |].
  destruct Hst as (S1 & S2 & S3 & S4 & S5 & S6 & S7 & S8 & S9). exists p, s, t. split.
  - unfold nm_iam_coap_handler_init. rewrite (ubind_def _ _ _ _ _ _ E). cbn. by rewrite app_nil_r.
  - cbn in S9. split; rewrite ?Q1, ?Q2, ?Q3; try done.
    + left. by apply S3.
    + rewrite S5, S7. by destruct p.
Qed.

(** C4. A handler that listens misses no request and handles none twice: whatever happens on its
    listener and however its steps interleave with the core and with the thread of the future queue,
    nothing is undefined; the requests that were accepted are, in their order, those that were
    handled, the one that is on its way to the handler, if any, those that were given back because
    the listener ended, and those that wait in the listener; each request that was handled was freed once.
    As long as the listener has no error nothing was given back, and the steps of the handler and
    of the queue's thread alone can get all that was accepted handled. *)
Theorem listen_loop_serves (fs : future_state (H := H)) inputs
    (Hfs : future_inv fs) (Hn : not_queued (fs_futures fs future)) (Hin : Forall loop_input_ok inputs) :
  exists accepted flight s0 t0 s t,
    nm_iam_coap_handler_init future true (loop_start fs) = Def (NABTO_EC_OK, s0, t0) /\
    loop_run future callback inputs s0 = Def (accepted, s, t) /\
    accepted = handled (t0 ++ t) ++ flight ++ dropped (t0 ++ t) ++ dl_events (lp_listener s) /\
    (flight = [] \/ exists r, flight = [r] /\ lp_request s = Some r) /\
    freed (t0 ++ t) = handled (t0 ++ t) /\
    (dl_ec (lp_listener s) = NABTO_EC_OK ->
     dropped (t0 ++ t) = [] /\
     exists more s' t', Forall serving more /\ loop_run future callback more s = Def ([], s', t') /\
       handled ((t0 ++ t) ++ t') = accepted).
Proof.
  destruct (init_ok fs Hfs Hn) as (p0 & s0 & t0 & E0 & Hinv0).
  destruct (loop_run_ok _ _ _ _ _ Hin Hinv0) as (p & acc & s & t & E & Hinv). cbn [app] in Hinv.
  exists acc, (in_flight p s), s0, t0, s, t.
  split_and!; [done.. | apply (li_conserved _ _ _ _ Hinv) | by eapply flight_cases | apply (li_freed _ _ _ _ Hinv) |].
  intros Hok. destruct (li_listener _ _ _ _ Hinv) as [Ho | [Hx _]]; [| by rewrite Hok in Hx].
  split; [by apply (li_dropped _ _ _ _ Hinv) |].
  apply (all_served (length acc - length (handled (t0 ++ t))) _ _ _ _ Hinv Ho).
  rewrite (li_conserved _ _ _ _ Hinv) at 1 2. rewrite !length_app. lia.
Qed.
End Proofs.

Section Deinit.
Context {H : Type} `{LListLaws H}.
Variables (future : nid) (callback : nat).

(** When the loop has ended - the device was stopped and its queue ran - the handler can be freed. *)
Lemma deinit_after_end acc t (s : listen_loop (H := H)) :
  loop_inv future callback LEnded acc t s ->
  exists s', nm_iam_coap_handler_deinit future true s = Def (tt, s', []).
Proof.
  intros Hinv. destruct (li_phase _ _ _ _ _ _ Hinv) as (_ & (He & _ & _) & _).
  unfold nm_iam_coap_handler_deinit.
  assert (E : on_listener nabto_device_listener_stop s = Def (dl_ec (lp_listener s), s, [])).
  { apply (on_listener_eq _ _ _ (lp_listener s) []); [| by destruct s].
    unfold nabto_device_listener_stop, nabto_device_listener_stop_internal, hbind, hget.
    rewrite (li_initialized _ _ _ _ _ _ Hinv). cbn. by rewrite He. }
  exists s. rewrite (ubind_def _ _ _ _ _ _ E). unfold nabto_device_future_free, on_futures. rewrite u_hget.
  rewrite (queued_ours future _ (li_futures _ _ _ _ _ _ Hinv)); [by destruct s |].
  right. apply (li_callback _ _ _ _ _ _ Hinv).
Qed.
End Deinit.

Definition example_start : listen_loop (H := heap) := loop_start (nabto_device_future_queue_init ∅).

(** A handler that listens: stopping its listener queues the future, which is then freed. *)
Example deinit_while_listening :
  (let+ _ := nm_iam_coap_handler_init 7%nat true in
   let+ _ := start_listen_callback 7%nat 1%nat in
   nm_iam_coap_handler_deinit 7%nat true) example_start = UB.
Proof. vm_compute. reflexivity. Qed.

Definition example_inputs : list loop_input := [LoArm; LoRequest 5; LoRequest 6; LoRound; LoArm; LoRequest 8; LoRound; LoArm].

Example two_requests_handled :
  match (let+ _ := nm_iam_coap_handler_init 7%nat true in loop_run 7%nat 1%nat example_inputs) example_start with
  | Def (accepted, s, t) => accepted = [5; 6; 8]%nat /\ handled t = [5; 6]%nat /\ lp_request s = Some 8%nat
  | UB => False
  end.
Proof. vm_compute. by split_and!. Qed.

Lemma listen_loop_serves_witness :
  exists accepted flight s0 t0 s t,
    loop_run 7%nat 1%nat example_inputs s0 = Def (accepted, s, t) /\
    accepted = handled (t0 ++ t) ++ flight ++ dropped (t0 ++ t) ++ dl_events (lp_listener (H := heap) s).
Proof.
  destruct (listen_loop_serves (H := heap) 7%nat 1%nat (nabto_device_future_queue_init ∅) example_inputs)
    as (accepted & flight & s0 & t0 & s & t & _ & E & Hc & _).
  - apply init_inv; [| done]. split; [intros l; constructor |]. intros l l' n Hn. by apply elem_of_nil in Hn.
  - by left.
  - repeat constructor.
  - by exists accepted, flight, s0, t0, s, t.
Defined.
