(* ===== verification/Tunnel.v ===== *)
(** * TCP tunnelling (nm_tcp_tunnel.c, nm_tcp_tunnel_connection.c, nm_tcp_tunnel_coap.c)

    A tunnel connection forwards data between a stream and a TCP connection, one operation at a
    time in each direction; the services that tunnel connections belong to listen for streams
    and ask the authorization module before they open one. The streams, the TCP module and the
    authorization module are clients and servers of this code: their calls are the trace, the
    completions of operations are inputs. *)

From S2P Require Import Prelude Platform Cbor Rendezvous.
From stdpp Require Import sets.

#[local] Open Scope Z_scope.
#[local] Open Scope list_scope.
#[local] Open Scope handler_scope.

Definition NM_TCP_TUNNEL_BUFFER_SIZE : Z := 8192.

(** ** Connections *)

(** [tc_tcpRecv], [tc_streamRecv]: the first [readLength] and [streamReadSize] bytes of the two
    buffers. *)
Record nm_tcp_tunnel_connection : Type := mk_tc {
  tc_stream : bool;                               (* stream != NULL *)
  tc_tcpRecv : list Z;
  tc_readLength : nat;
  tc_streamRecv : list Z;
  tc_streamReadSize : nat;
  tc_tcpReadEnded : bool;
  tc_streamReadEnded : bool
}.

Inductive tunnel_call : Type :=
| TcStreamAccept
| TcConnect
| TcTcpRead (size : Z)
| TcTcpWrite (data : list Z)
| TcTcpShutdown
| TcTcpAbort
| TcTcpDestroy
| TcStreamRead (size : Z)
| TcStreamWrite (data : list Z)
| TcStreamClose
| TcStreamAbort                                   (* nc_stream_abort, nc_stream_release *)
| TcErase                                         (* nn_llist_erase_node *)
| TcFree.                                         (* free(connection) *)

Definition tc_handler (A : Type) : Type := handler nm_tcp_tunnel_connection tunnel_call A.
Definition tc_uhandler (A : Type) : Type := uhandler nm_tcp_tunnel_connection tunnel_call A.

Definition nm_tcp_tunnel_connection_new : nm_tcp_tunnel_connection := mk_tc false [] 0 [] 0 false false.

Definition nm_tcp_tunnel_connection_free : tc_handler unit :=
  emit TcTcpDestroy ;;;
  let* c := hget in
  (if tc_stream c then emit TcStreamAbort else hskip) ;;;
  emit TcFree.

(** [socket]: the answer of creating the socket; [events] those of the completion events. The
    connection is in the service's list once the socket exists, whatever follows. *)
Definition nm_tcp_tunnel_connection_init (socket : np_error_code) (events : list np_error_code) :
    tc_handler (np_error_code * bool) :=
  if is_error socket then hret (socket, false)
  else
    hmod (fun c => c {{ tc_stream := true }}) ;;;
    match List.find is_error events with
    | Some ec => hret (ec, true)
    | None =>
        hmod (fun c => c {{ tc_tcpReadEnded := false; tc_streamReadEnded := false }}) ;;;
        hret (NABTO_EC_OK, true)
    end.

Definition start_connect : tc_handler unit := emit TcConnect.
Definition start_tcp_read : tc_handler unit := emit (TcTcpRead NM_TCP_TUNNEL_BUFFER_SIZE).

(** The operations of a stream dereference it. *)
Definition with_stream {A} (m : tc_handler A) : tc_uhandler A :=
  let+ c := ulift hget in if tc_stream c then ulift m else fun _ => UB.

(** [nc_stream_async_read_some] stores 0 through the length first. *)
Definition start_stream_read : tc_uhandler unit :=
  with_stream (hmod (fun c => c {{ tc_streamReadSize := 0%nat }}) ;;; emit (TcStreamRead NM_TCP_TUNNEL_BUFFER_SIZE)).

Definition start_stream_write (transferred : nat) : tc_uhandler unit :=
  with_stream (let* c := hget in emit (TcStreamWrite (take transferred (tc_tcpRecv c)))).

Definition start_tcp_write (transferred : nat) : tc_handler unit :=
  let* c := hget in emit (TcTcpWrite (take transferred (tc_streamRecv c))).

Definition nm_tcp_tunnel_connection_start : tc_handler unit := emit TcStreamAccept ;;; start_connect.

Definition abort_connection : tc_handler unit :=
  emit TcTcpAbort ;;;
  let* c := hget in
  if tc_stream c then emit TcStreamAbort ;;; hmod (fun c => c {{ tc_stream := false }}) else hskip.

Definition nm_tcp_tunnel_connection_stop_from_manager : tc_handler unit := abort_connection.

Definition the_end : tc_handler unit := emit TcErase ;;; nm_tcp_tunnel_connection_free.

Definition is_ended : tc_handler unit :=
  let* c := hget in
  if tc_tcpReadEnded c && tc_streamReadEnded c then the_end else hskip.

Definition connected : tc_uhandler unit :=
  let+ _ := ulift start_tcp_read in start_stream_read.

Definition connect_callback (ec : np_error_code) : tc_uhandler unit :=
  if is_error ec then ulift the_end else connected.

Definition close_stream : tc_handler unit :=
  let* c := hget in
  if tc_stream c then emit TcStreamClose
  else hmod (fun c => c {{ tc_tcpReadEnded := true }}) ;;; is_ended.

Definition tcp_readen (ec : np_error_code) : tc_uhandler unit :=
  let+ c := ulift hget in
  if (tc_readLength c =? 0)%nat || ec_eqb ec NABTO_EC_EOF then ulift close_stream
  else if is_error ec then
    ulift (hmod (fun c => c {{ tc_tcpReadEnded := true }}) ;;; abort_connection)
  else start_stream_write (tc_readLength c).

Definition stream_closed (ec : np_error_code) : tc_handler unit :=
  hmod (fun c => c {{ tc_tcpReadEnded := true }}) ;;; is_ended.

Definition stream_written (ec : np_error_code) : tc_handler unit :=
  if is_error ec then
    hmod (fun c => c {{ tc_tcpReadEnded := true }}) ;;; abort_connection ;;; is_ended
  else start_tcp_read.

Definition close_tcp : tc_handler unit :=
  emit TcTcpShutdown ;;; hmod (fun c => c {{ tc_streamReadEnded := true }}) ;;; is_ended.

Definition stream_readen (ec : np_error_code) : tc_handler unit :=
  let* c := hget in
  if (tc_streamReadSize c =? 0)%nat || ec_eqb ec NABTO_EC_EOF then close_tcp
  else if is_error ec then
    hmod (fun c => c {{ tc_streamReadEnded := true }}) ;;; abort_connection ;;; is_ended
  else start_tcp_write (tc_streamReadSize c).

Definition tcp_written (ec : np_error_code) : tc_uhandler unit :=
  if is_error ec then
    ulift (hmod (fun c => c {{ tc_streamReadEnded := true }}) ;;; abort_connection ;;; is_ended)
  else start_stream_read.

(** ** The life of a connection *)

(** The operation that is under way in each direction. *)
Inductive up_op : Type := UpTcpRead | UpStreamWrite | UpStreamClose.
Inductive down_op : Type := DownStreamRead | DownTcpWrite.

#[global] Instance up_op_eq : EqDecision up_op.
Proof. solve_decision. Defined.
#[global] Instance down_op_eq : EqDecision down_op.
Proof. solve_decision. Defined.

Record pending : Type := mk_pending {
  pd_connect : bool;
  pd_up : option up_op;
  pd_down : option down_op;
  pd_freed : bool
}.

(** What a call starts. *)
Definition start_op (p : pending) (c : tunnel_call) : pending :=
  match c with
  | TcConnect => p {{ pd_connect := true }}
  | TcTcpRead _ => p {{ pd_up := Some UpTcpRead }}
  | TcStreamWrite _ => p {{ pd_up := Some UpStreamWrite }}
  | TcStreamClose => p {{ pd_up := Some UpStreamClose }}
  | TcStreamRead _ => p {{ pd_down := Some DownStreamRead }}
  | TcTcpWrite _ => p {{ pd_down := Some DownTcpWrite }}
  | TcFree => p {{ pd_freed := true }}
  | _ => p
  end.
Definition start_ops (p : pending) (t : list tunnel_call) : pending := fold_left start_op t p.

(** Completions. A read that succeeds has filled the buffer and stored the length; one that fails
    has changed neither. *)
Inductive tunnel_input : Type :=
| TiConnected (ec : np_error_code)
| TiTcpRead (r : np_error_code + list Z)
| TiStreamWritten (ec : np_error_code)
| TiStreamClosed (ec : np_error_code)
| TiStreamRead (r : np_error_code + list Z)
| TiTcpWritten (ec : np_error_code)
| TiStop.

(** Only an operation that is under way completes, a read without data with an error; a connection
    is only stopped while it is in the list of its service. *)
Definition completes (p : pending) (i : tunnel_input) : bool :=
  match i with
  | TiConnected _ => pd_connect p
  | TiTcpRead r => bool_decide (pd_up p = Some UpTcpRead) && match r with inl ec => is_error ec | inr _ => true end
  | TiStreamWritten _ => bool_decide (pd_up p = Some UpStreamWrite)
  | TiStreamClosed _ => bool_decide (pd_up p = Some UpStreamClose)
  | TiStreamRead r =>
      bool_decide (pd_down p = Some DownStreamRead) && match r with inl ec => is_error ec | inr _ => true end
  | TiTcpWritten _ => bool_decide (pd_down p = Some DownTcpWrite)
  | TiStop => negb (pd_freed p)
  end.

Definition finish_op (p : pending) (i : tunnel_input) : pending :=
  match i with
  | TiConnected _ => p {{ pd_connect := false }}
  | TiTcpRead _ | TiStreamWritten _ | TiStreamClosed _ => p {{ pd_up := None }}
  | TiStreamRead _ | TiTcpWritten _ => p {{ pd_down := None }}
  | TiStop => p
  end.

Definition tunnel_handler (i : tunnel_input) : tc_uhandler unit :=
  match i with
  | TiConnected ec => connect_callback ec
  | TiTcpRead (inl ec) => tcp_readen ec
  | TiTcpRead (inr data) =>
      let+ _ := ulift (hmod (fun c => c {{ tc_tcpRecv := data; tc_readLength := length data }})) in
      tcp_readen NABTO_EC_OK
  | TiStreamWritten ec => ulift (stream_written ec)
  | TiStreamClosed ec => ulift (stream_closed ec)
  | TiStreamRead (inl ec) => ulift (stream_readen ec)
  | TiStreamRead (inr data) =>
      ulift (hmod (fun c => c {{ tc_streamRecv := data; tc_streamReadSize := length data }}) ;;;
             stream_readen NABTO_EC_OK)
  | TiTcpWritten ec => tcp_written ec
  | TiStop => ulift nm_tcp_tunnel_connection_stop_from_manager
  end.

Definition tunnel_state : Type := nm_tcp_tunnel_connection * pending.

(** A connection that was initialized and started, and the states it can reach; a step is labelled
    with its completion and its calls. *)
Definition tunnel_started : tunnel_state :=
  (mk_tc true [] 0 [] 0 false false, mk_pending true None None false).

Inductive tunnel_step : tunnel_state -> tunnel_input -> list tunnel_call -> tunnel_state -> Prop :=
| tunnel_does c p i c' t :
    completes p i = true -> tunnel_handler i c = Def (tt, c', t) ->
    tunnel_step (c, p) i t (c', start_ops (finish_op p i) t).

Inductive tunnel_reachable : list (tunnel_input * list tunnel_call) -> tunnel_state -> Prop :=
| tunnel_init : tunnel_reachable [] tunnel_started
| tunnel_next tr s i t s' :
    tunnel_reachable tr s -> tunnel_step s i t s' -> tunnel_reachable (tr ++ [(i, t)]) s'.

(** *** Invariant *)

Definition idle (p : pending) : Prop := pd_connect p = false /\ pd_up p = None /\ pd_down p = None.

(** One operation in each direction until the direction has ended; nothing after the connection is
    freed. *)
Definition tunnel_inv (s : tunnel_state) : Prop :=
  let '(c, p) := s in
  if pd_freed p then idle p
  else if pd_connect p then
    pd_up p = None /\ pd_down p = None /\ tc_tcpReadEnded c = false /\ tc_streamReadEnded c = false
  else (pd_up p = None <-> tc_tcpReadEnded c = true) /\ (pd_down p = None <-> tc_streamReadEnded c = true).

(** When a step is undefined: an operation on the stream that an abort has given up. *)
Definition uses_stream (i : tunnel_input) : bool :=
  match i with
  | TiConnected ec | TiTcpWritten ec => negb (is_error ec)
  | TiTcpRead (inr data) => negb (length data =? 0)%nat
  | _ => false
  end.

(** The bytes read on one side, and those written on the other. *)
Definition tcp_data (i : tunnel_input) : list (list Z) :=
  match i with TiTcpRead (inr (b :: data)) => [b :: data] | _ => [] end.
Definition stream_data (i : tunnel_input) : list (list Z) :=
  match i with TiStreamRead (inr (b :: data)) => [b :: data] | _ => [] end.
Definition stream_writes (t : list tunnel_call) : list (list Z) :=
  omap (fun c => match c with TcStreamWrite d => Some d | _ => None end) t.
Definition tcp_writes (t : list tunnel_call) : list (list Z) :=
  omap (fun c => match c with TcTcpWrite d => Some d | _ => None end) t.

(** The error on which a connection is aborted without a test whether it has ended. *)
Definition is_read_error (i : tunnel_input) : bool :=
  match i with TiTcpRead (inl ec) => is_error ec && negb (ec_eqb ec NABTO_EC_EOF) | _ => false end.

Ltac run_tunnel :=
  unfold tunnel_handler, connect_callback, connected, tcp_readen, stream_written, stream_closed, stream_readen,
    tcp_written, nm_tcp_tunnel_connection_stop_from_manager, close_stream, close_tcp, is_ended, the_end,
    abort_connection, nm_tcp_tunnel_connection_free, start_tcp_read, start_stream_read, start_stream_write,
    start_tcp_write, with_stream, ubind, ulift, uof, hbind, hget, hmod, emit, hskip, hret;
  cbn.

Lemma take_cons_all {A} (x : A) (l : list A) : take (S (length l)) (x :: l) = x :: l.
Proof. by apply take_ge. Qed.

Lemma pending_flag {A} (x : A) b : (Some x = None <-> b = true) -> b = false.
Proof. destruct b; [| done]. intros [_ Hb]. by specialize (Hb eq_refl). Qed.

Ltac tunnel_goals :=
  unfold tunnel_inv, idle, uses_stream, is_read_error; cbn;
  repeat match goal with E : _ = _ |- _ => rewrite E end; cbn;
  unfold constant; cbn; split_and!; first
    [ done
    | unfold stream_writes, tcp_writes; cbn -[take]; by rewrite take_cons_all
    | intros; lia
    | naive_solver ].

(** What one completion does, by cases. *)
Lemma tunnel_step_cases c p i :
  tunnel_inv (c, p) -> completes p i = true ->
  match tunnel_handler i c with
  | UB => tc_stream c = false /\ uses_stream i = true
  | Def (_, c', t) =>
      (tc_stream c = false -> uses_stream i = false) /\
      tunnel_inv (c', start_ops (finish_op p i) t) /\
      stream_writes t = tcp_data i /\ tcp_writes t = stream_data i /\
      (idle (start_ops (finish_op p i) t) -> pd_freed (start_ops (finish_op p i) t) = false ->
       idle p \/ is_read_error i = true) /\
      (is_read_error i = true -> (0 < tc_readLength c)%nat -> pd_freed (start_ops (finish_op p i) t) = false)
  end.
Proof.
  intros Hi Hc. destruct c as [st tb tl sb sl te se], p as [pc up dn fr].
  unfold tunnel_inv in Hi. cbn in Hi, Hc.
  assert (Hfr : fr = false) by (destruct fr; [exfalso; unfold idle in Hi; cbn in Hi; destruct Hi as (-> & -> & ->);
    by destruct i as [ec | [ec | data] | ec | ec | [ec | data] | ec |] | done]). subst fr.
  destruct i as [ec | [ec | data] | ec | ec | [ec | data] | ec |]; cbn in Hc.
  - subst pc. destruct Hi as (-> & -> & -> & ->). run_tunnel. destruct (is_error ec), st; cbn; tunnel_goals.
  - apply andb_prop in Hc as [->%bool_decide_eq_true He]. destruct pc; [by destruct Hi as (? & ? & _) |].
    destruct Hi as [->%pending_flag Hd]. run_tunnel. rewrite He.
    destruct (Nat.eqb_spec tl 0), (ec_eqb ec NABTO_EC_EOF) eqn:Eeof, st, se; cbn; tunnel_goals.
  - apply andb_prop in Hc as [->%bool_decide_eq_true _]. destruct pc; [by destruct Hi as (? & ? & _) |].
    destruct Hi as [->%pending_flag Hd]. destruct data as [| b data]; run_tunnel; destruct st, se; cbn; tunnel_goals.
  - apply bool_decide_eq_true in Hc as ->. destruct pc; [by destruct Hi as (? & ? & _) |].
    destruct Hi as [->%pending_flag Hd]. run_tunnel. destruct (is_error ec), st, se; cbn; tunnel_goals.
  - apply bool_decide_eq_true in Hc as ->. destruct pc; [by destruct Hi as (? & ? & _) |].
    destruct Hi as [->%pending_flag Hd]. run_tunnel. destruct st, se; cbn; tunnel_goals.
  - apply andb_prop in Hc as [->%bool_decide_eq_true He]. destruct pc; [by destruct Hi as (? & ? & _) |].
    destruct Hi as [Hu ->%pending_flag]. run_tunnel. rewrite He.
    destruct (Nat.eqb_spec sl 0), (ec_eqb ec NABTO_EC_EOF) eqn:Eeof, st, te; cbn; tunnel_goals.
  - apply andb_prop in Hc as [->%bool_decide_eq_true _]. destruct pc; [by destruct Hi as (? & ? & _) |].
    destruct Hi as [Hu ->%pending_flag]. destruct data as [| b data]; run_tunnel; destruct st, te; cbn; tunnel_goals.
  - apply bool_decide_eq_true in Hc as ->. destruct pc; [by destruct Hi as (? & ? & _) |].
    destruct Hi as [Hu ->%pending_flag]. run_tunnel. destruct (is_error ec), st, te; cbn; tunnel_goals.
  - run_tunnel. destruct st, pc; cbn; tunnel_goals.
Qed.

Lemma tunnel_reachable_inv tr s : tunnel_reachable tr s -> tunnel_inv s.
Proof.
  induction 1 as [| tr s i t s' _ IH Hs]; [done |]. destruct Hs as [c p i c' t Hc Hd].
  pose proof (tunnel_step_cases c p i IH Hc) as Hx. rewrite Hd in Hx. apply Hx.
Qed.


(** All the calls, and all the completions, of a history. *)
Definition all_calls (tr : list (tunnel_input * list tunnel_call)) : list tunnel_call := concat (map snd tr).
Definition all_inputs (tr : list (tunnel_input * list tunnel_call)) : list tunnel_input := map fst tr.

(** A tunnel connection neither loses, nor repeats, nor reorders, nor changes data: in each
    direction the pieces written on one side are exactly the pieces read on the other. *)
Lemma tunnel_data_in_order tr s (Hr : tunnel_reachable tr s) :
  stream_writes (all_calls tr) = concat (map tcp_data (all_inputs tr)) /\
  tcp_writes (all_calls tr) = concat (map stream_data (all_inputs tr)).
Proof.
  induction Hr as [| tr s i t s' Hr IH Hs]; [done |]. pose proof (tunnel_reachable_inv _ _ Hr) as Hi.
  destruct Hs as [c p i c' t Hc Hd]. pose proof (tunnel_step_cases c p i Hi Hc) as Hx. rewrite Hd in Hx.
  destruct Hx as (_ & _ & Hu & Hdn & _). destruct IH as [IH1 IH2]. unfold all_calls, all_inputs in *.
  rewrite !map_app, !concat_app. cbn [map concat fst snd]. rewrite !app_nil_r.
  unfold stream_writes, tcp_writes in *. by rewrite !omap_app, IH1, IH2, Hu, Hdn.
Qed.

(** ** Services *)

Record nm_tcp_tunnel_service : Type := mk_service {
  sv_id : string;
  sv_type : string;
  sv_address : np_ip_address;
  sv_port : Z;
  sv_streamPort : Z;
  sv_weakPtr : Z
}.

Record nm_tcp_tunnels : Type := mk_tunnels {
  tt_services : list nm_tcp_tunnel_service;
  tt_weakPtrCounter : Z
}.

(** Streams and CoAP requests are numbers. An authorization request is made with the attributes
    of a service; the one for a stream remembers the weak pointer of the service. *)
Inductive tunnels_call : Type :=
| TtUnlisten (weakPtr : Z)                        (* the stream listener is removed *)
| TtStopConnections (weakPtr : Z)
| TtCheckStream (connectionRef : Z) (id type : string) (weakPtr : Z) (stream : nat)
| TtStreamRelease (stream : nat)
| TtConnectionStart (stream : nat) (service : nm_tcp_tunnel_service)
| TtConnectionFree (stream : nat)
| TtCheckCoap (connectionRef : Z) (action : string) (service : option (string * string)) (request : nat)
| TtCoapError (request : nat) (code : Z)
| TtCoapReady (request : nat) (code : Z) (payload : list cbor_token)
| TtRequestFree (request : nat).

Definition tt_handler (A : Type) : Type := handler nm_tcp_tunnels tunnels_call A.

Definition nm_tcp_tunnels_init : nm_tcp_tunnels := mk_tunnels [] 1.

Definition nm_tcp_tunnels_find_service (tunnels : nm_tcp_tunnels) (id : option string) : option nm_tcp_tunnel_service :=
  match id with
  | None => None
  | Some id => List.find (fun s => String.eqb (sv_id s) id) (tt_services tunnels)
  end.

Definition nm_tcp_tunnels_find_service_by_weak_ptr (tunnels : nm_tcp_tunnels) (weakPtr : Z) :
    option nm_tcp_tunnel_service := List.find (fun s => sv_weakPtr s =? weakPtr) (tt_services tunnels).

(** The weak pointer of the new service: the counter never comes back to an old value, which a
    pointer that is only incremented could do after 2^64 services. *)
Definition nm_tcp_tunnel_service_create : tt_handler Z :=
  hmod (fun tunnels => tunnels {{ tt_weakPtrCounter ::= fun n => n + 1 }}) ;;;
  let* tunnels := hget in hret (tt_weakPtrCounter tunnels).

(** [listener]: the answer of [nc_stream_manager_add_listener], the port or an error. *)
Definition nm_tcp_tunnel_service_init (weakPtr : Z) (id type : string) (address : np_ip_address) (port : Z)
    (listener : np_error_code + Z) : tt_handler np_error_code :=
  match listener with
  | inl ec => hret ec
  | inr streamPort =>
      hmod (fun tunnels => tunnels {{ tt_services ::= fun ss =>
              ss ++ [mk_service id type address port streamPort weakPtr] }}) ;;;
      hret NABTO_EC_OK
  end.

Definition nm_tcp_tunnel_service_deinit (service : nm_tcp_tunnel_service) : tt_handler unit :=
  emit (TtStopConnections (sv_weakPtr service)) ;;; emit (TtUnlisten (sv_weakPtr service)).

Definition nm_tcp_tunnel_service_destroy (service : nm_tcp_tunnel_service) : tt_handler unit :=
  hmod (fun tunnels => tunnels {{ tt_services ::= filter (fun s => sv_weakPtr s <> sv_weakPtr service) }}).

Definition nm_tcp_tunnel_service_destroy_by_id (id : string) : tt_handler np_error_code :=
  let* tunnels := hget in
  match nm_tcp_tunnels_find_service tunnels (Some id) with
  | None => hret NABTO_EC_NOT_FOUND
  | Some service =>
      nm_tcp_tunnel_service_deinit service ;;; nm_tcp_tunnel_service_destroy service ;;; hret NABTO_EC_OK
  end.

(** The loop of [nm_tcp_tunnels_deinit]. *)
Fixpoint deinit_services (services : list nm_tcp_tunnel_service) : tt_handler unit :=
  match services with
  | [] => hskip
  | s :: rest => nm_tcp_tunnel_service_deinit s ;;; nm_tcp_tunnel_service_destroy s ;;; deinit_services rest
  end.

Definition nm_tcp_tunnels_deinit : tt_handler unit :=
  let* tunnels := hget in deinit_services (tt_services tunnels).

(** [nabto_device_add_tcp_tunnel_service] with a host that was parsed; the code of
    [nm_tcp_tunnel_service_init] is not looked at. [uninit] is the memory of the address. *)
Definition nabto_device_add_tcp_tunnel_service (uninit : np_ip_address) (id type : string) (host : list Z) (port : Z)
    (listener : np_error_code + Z) : tt_handler np_error_code :=
  match np_ip_address_read_v4 host uninit with
  | Some address =>
      let* weakPtr := nm_tcp_tunnel_service_create in
      nm_tcp_tunnel_service_init weakPtr id type address port listener ;;;
      hret NABTO_EC_OK
  | None => hret NABTO_EC_INVALID_ARGUMENT
  end.

(** [prepared]: whether the authorization request could be made. *)
Definition nm_tcp_tunnel_service_stream_listener_callback (ec : np_error_code) (prepared : bool)
    (connectionRef : Z) (stream : nat) (service : nm_tcp_tunnel_service) : tt_handler unit :=
  if is_error ec then hskip
  else if prepared then
    emit (TtCheckStream connectionRef (sv_id service) (sv_type service) (sv_weakPtr service) stream)
  else emit (TtStreamRelease stream).

(** [allocated]: whether a connection could be allocated, [ec] the answer of its init. *)
Definition service_stream_iam_callback (allow : bool) (weakPtr : Z) (stream : nat) (allocated : bool)
    (ec : np_error_code) : tt_handler unit :=
  let* tunnels := hget in
  match nm_tcp_tunnels_find_service_by_weak_ptr tunnels weakPtr with
  | None => emit (TtStreamRelease stream)
  | Some service =>
      if negb allow then emit (TtStreamRelease stream)
      else if negb allocated then emit (TtStreamRelease stream)
      else if is_error ec then emit (TtConnectionFree stream)
      else emit (TtConnectionStart stream service)
  end.

(** ** CoAP resources *)

Definition encode_services_list (tunnels : nm_tcp_tunnels) : list cbor_token :=
  [TokArray] ++ map (fun s => TokText (ascii_codes (sv_id s))) (tt_services tunnels) ++ [TokClose].

Definition encode_service (service : nm_tcp_tunnel_service) : list cbor_token :=
  [TokMap; TokText (ascii_codes "Id"); TokText (ascii_codes (sv_id service));
   TokText (ascii_codes "Type"); TokText (ascii_codes (sv_type service));
   TokText (ascii_codes "Host"); TokText (np_ip_address_to_string (sv_address service));
   TokText (ascii_codes "Port"); TokUint (sv_port service);
   TokText (ascii_codes "StreamPort"); TokUint (sv_streamPort service); TokClose].

Definition coap_error (request : nat) (code : Z) : tt_handler unit :=
  emit (TtCoapError request code) ;;; emit (TtRequestFree request).

(** The answer with a payload: [allocated], whether there is memory for it; [set], whether the
    response takes it. *)
Definition coap_answer (request : nat) (payload : list cbor_token) (allocated set : bool) : tt_handler unit :=
  if negb allocated then coap_error request (COAP_CODE 5 0)
  else
    (if set then emit (TtCoapReady request (COAP_CODE 2 5) payload)
     else emit (TtCoapError request (COAP_CODE 5 0))) ;;;
    emit (TtRequestFree request).

Definition list_services (prepared : bool) (connectionRef : Z) (request : nat) : tt_handler unit :=
  if prepared then emit (TtCheckCoap connectionRef "TcpTunnel:ListServices" None request)
  else coap_error request (COAP_CODE 5 0).

Definition list_services_iam (allow allocated set : bool) (request : nat) : tt_handler unit :=
  let* tunnels := hget in
  if negb allow then coap_error request (COAP_CODE 4 3)
  else coap_answer request (encode_services_list tunnels) allocated set.

Definition get_service_action (prepared : bool) (connectionRef : Z) (action : string) (id : option string)
    (request : nat) : tt_handler unit :=
  let* tunnels := hget in
  match nm_tcp_tunnels_find_service tunnels id with
  | None => coap_error request (COAP_CODE 4 4)
  | Some service =>
      if prepared
      then emit (TtCheckCoap connectionRef action (Some (sv_id service, sv_type service)) request)
      else coap_error request (COAP_CODE 5 0)
  end.

Definition get_service (prepared : bool) (connectionRef : Z) (id : option string) (request : nat) : tt_handler unit :=
  get_service_action prepared connectionRef "TcpTunnel:GetService" id request.
Definition get_connect (prepared : bool) (connectionRef : Z) (id : option string) (request : nat) : tt_handler unit :=
  get_service_action prepared connectionRef "TcpTunnel:Connect" id request.

Definition get_service_iam (allow allocated set : bool) (id : option string) (request : nat) : tt_handler unit :=
  let* tunnels := hget in
  if negb allow then coap_error request (COAP_CODE 4 3)
  else
    match nm_tcp_tunnels_find_service tunnels id with
    | None => coap_error request (COAP_CODE 4 4)
    | Some service => coap_answer request (encode_service service) allocated set
    end.

(** ** The steps *)

(** An authorization request for a stream that is not decided yet. *)
Record stream_request : Type := mk_sr {
  sr_stream : nat;
  sr_weakPtr : Z;
  sr_id : string;
  sr_type : string
}.

Inductive tunnels_input : Type :=
| TnAdd (uninit : np_ip_address) (id type : string) (host : list Z) (port : Z) (listener : np_error_code + Z)
| TnRemove (id : string)
| TnStream (service : nm_tcp_tunnel_service) (ec : np_error_code) (prepared : bool) (connectionRef : Z) (stream : nat)
| TnVerdict (request : stream_request) (allow allocated : bool) (ec : np_error_code).

Definition tunnels_handler (i : tunnels_input) : tt_handler unit :=
  match i with
  | TnAdd u id type host port l => nabto_device_add_tcp_tunnel_service u id type host port l ;;; hskip
  | TnRemove id => nm_tcp_tunnel_service_destroy_by_id id ;;; hskip
  | TnStream s ec prepared ref stream => nm_tcp_tunnel_service_stream_listener_callback ec prepared ref stream s
  | TnVerdict r allow allocated ec => service_stream_iam_callback allow (sr_weakPtr r) (sr_stream r) allocated ec
  end.

(** A service that exists gets streams; a request is decided once. *)
Definition tunnels_enabled (tunnels : nm_tcp_tunnels) (requests : list stream_request) (i : tunnels_input) : Prop :=
  match i with
  | TnStream s _ _ _ _ => s ∈ tt_services tunnels
  | TnVerdict r _ _ _ => r ∈ requests
  | _ => True
  end.

(** The requests after the calls of a step. *)
Definition new_requests (t : list tunnels_call) : list stream_request :=
  omap (fun c => match c with TtCheckStream _ id type w stream => Some (mk_sr stream w id type) | _ => None end) t.

Inductive tunnels_reachable : nm_tcp_tunnels -> list stream_request -> Prop :=
| tunnels_start : tunnels_reachable nm_tcp_tunnels_init []
| tunnels_next tunnels requests i :
    tunnels_reachable tunnels requests -> tunnels_enabled tunnels requests i ->
    tunnels_reachable (exec (tunnels_handler i) tunnels) (requests ++ new_requests (trace (tunnels_handler i) tunnels)).

(** Weak pointers are never used twice, so a request names the service it was made for. *)
Definition tunnels_inv (tunnels : nm_tcp_tunnels) (requests : list stream_request) : Prop :=
  NoDup (map sv_weakPtr (tt_services tunnels)) /\
  (forall s, s ∈ tt_services tunnels -> sv_weakPtr s <= tt_weakPtrCounter tunnels) /\
  (forall r, r ∈ requests -> sr_weakPtr r <= tt_weakPtrCounter tunnels) /\
  (forall r s, r ∈ requests -> s ∈ tt_services tunnels -> sv_weakPtr s = sr_weakPtr r ->
     sv_id s = sr_id r /\ sv_type s = sr_type r).

Lemma weak_ptr_unique tunnels requests s s' :
  tunnels_inv tunnels requests -> s ∈ tt_services tunnels -> s' ∈ tt_services tunnels ->
  sv_weakPtr s = sv_weakPtr s' -> s = s'.
Proof.
  intros (Hnd & _) Hs Hs' E. apply list_elem_of_lookup in Hs as (i & Hi). apply list_elem_of_lookup in Hs' as (j & Hj).
  assert (i = j) as ->; [| congruence].
  apply (NoDup_lookup (map sv_weakPtr (tt_services tunnels)) i j (sv_weakPtr s) Hnd);
    rewrite list_lookup_fmap; [by rewrite Hi | by rewrite Hj, E].
Qed.

Lemma inv_sub tunnels tunnels' requests :
  tunnels_inv tunnels requests -> tt_weakPtrCounter tunnels' = tt_weakPtrCounter tunnels ->
  sublist (tt_services tunnels') (tt_services tunnels) -> tunnels_inv tunnels' requests.
Proof.
  intros (Hnd & Hs & Hr & Hm) Ec Hsub.
  assert (Hin : forall s, s ∈ tt_services tunnels' -> s ∈ tt_services tunnels)
    by (intros s Hin; by eapply elem_of_sublist).
  split_and!.
  - eapply sublist_NoDup; [exact Hnd | by apply fmap_sublist].
  - intros s Hin'. rewrite Ec. by apply Hs, Hin.
  - intros r. rewrite Ec. apply Hr.
  - intros r s Hr' Hin'. by apply Hm, Hin.
Qed.

Lemma add_service_inv u id type host port l tunnels requests :
  tunnels_inv tunnels requests ->
  tunnels_inv (exec (nabto_device_add_tcp_tunnel_service u id type host port l) tunnels) requests /\
  new_requests (trace (nabto_device_add_tcp_tunnel_service u id type host port l) tunnels) = [].
Proof.
  intros (Hnd & Hs & Hr & Hm). unfold nabto_device_add_tcp_tunnel_service.
  destruct (np_ip_address_read_v4 host u) as [a |]; [| done].
  destruct tunnels as [ss n]. cbn in *.
  assert (Hbig : forall s, s ∈ ss -> sv_weakPtr s <> n + 1) by (intros s Hin; specialize (Hs s Hin); lia).
  destruct l as [ec | streamPort]; (split; [| done]); unfold tunnels_inv, exec; cbn; split_and!.
  - done.
  - intros s Hin. specialize (Hs s Hin). lia.
  - intros r Hin. specialize (Hr r Hin). lia.
  - done.
  - rewrite map_app. apply NoDup_app. split; [done |]. split; [| apply NoDup_singleton].
    intros w Hin ->%list_elem_of_singleton. cbn in Hin. apply list_elem_of_fmap in Hin as (s & E & Hin).
    by apply (Hbig s Hin).
  - intros s [Hin | ->%list_elem_of_singleton]%elem_of_app; [specialize (Hs s Hin) |]; cbn; lia.
  - intros r Hin. specialize (Hr r Hin). lia.
  - intros r s Hin [Hin' | ->%list_elem_of_singleton]%elem_of_app E; [by apply Hm |].
    specialize (Hr r Hin). cbn in E. lia.
Qed.

Lemma tunnels_destroy_inv id tunnels requests :
  tunnels_inv tunnels requests ->
  tunnels_inv (exec (nm_tcp_tunnel_service_destroy_by_id id) tunnels) requests /\
  new_requests (trace (nm_tcp_tunnel_service_destroy_by_id id) tunnels) = [].
Proof.
  intros Hi. unfold nm_tcp_tunnel_service_destroy_by_id. rewrite exec_hget, trace_hget.
  destruct (nm_tcp_tunnels_find_service tunnels (Some id)) as [s |]; [| done]. split; [| done].
  eapply inv_sub; [exact Hi | by destruct tunnels |]. destruct tunnels as [ss n]. apply sublist_filter.
Qed.

Lemma verdict_same allow w stream a ec tunnels :
  exec (service_stream_iam_callback allow w stream a ec) tunnels = tunnels /\
  new_requests (trace (service_stream_iam_callback allow w stream a ec) tunnels) = [].
Proof.
  unfold service_stream_iam_callback. rewrite exec_hget, trace_hget.
  destruct (nm_tcp_tunnels_find_service_by_weak_ptr tunnels w), allow, a; try done; cbn [negb]; by destruct (is_error ec).
Qed.

Lemma tunnels_step_inv tunnels requests i :
  tunnels_inv tunnels requests -> tunnels_enabled tunnels requests i ->
  tunnels_inv (exec (tunnels_handler i) tunnels) (requests ++ new_requests (trace (tunnels_handler i) tunnels)).
Proof.
  intros IH He. destruct i as [u id type host port l | id | s ec prepared ref stream | r allow a ec]; cbn [tunnels_handler].
  - rewrite exec_seq, trace_seq. destruct (add_service_inv u id type host port l _ _ IH) as [Hi Ht].
    change (trace hskip ?x) with (@nil tunnels_call). change (exec hskip ?x) with x.
    by rewrite app_nil_r, Ht, app_nil_r.
  - rewrite exec_seq, trace_seq. destruct (tunnels_destroy_inv id _ _ IH) as [Hi Ht].
    change (trace hskip ?x) with (@nil tunnels_call). change (exec hskip ?x) with x.
    by rewrite app_nil_r, Ht, app_nil_r.
  - cbn in He. unfold nm_tcp_tunnel_service_stream_listener_callback.
    destruct (is_error ec); [cbn; by rewrite app_nil_r |]. destruct prepared; [| cbn; by rewrite app_nil_r].
    change (tunnels_inv tunnels (requests ++ [mk_sr stream (sv_weakPtr s) (sv_id s) (sv_type s)])).
    pose proof IH as (Hnd & Hs & Hr & Hm). split_and!; [done | done | |].
    + intros r [Hin | ->%list_elem_of_singleton]%elem_of_app; [by apply Hr | by apply Hs].
    + intros r s' [Hin | ->%list_elem_of_singleton]%elem_of_app Hin' E; [by apply Hm |]. cbn in E.
      by rewrite (weak_ptr_unique _ _ _ _ IH Hin' He E).
  - destruct (verdict_same allow (sr_weakPtr r) (sr_stream r) a ec tunnels) as [-> ->]. by rewrite app_nil_r.
Qed.

Lemma tunnels_init_inv : tunnels_inv nm_tcp_tunnels_init [].
Proof. unfold tunnels_inv. cbn. split_and!; [by apply NoDup_nil_2 | by intros s ?%elem_of_nil .. | by intros r s ?%elem_of_nil]. Qed.

Lemma tunnels_reachable_inv tunnels requests : tunnels_reachable tunnels requests -> tunnels_inv tunnels requests.
Proof. induction 1; [apply tunnels_init_inv | by apply tunnels_step_inv]. Qed.

(** What a verdict comes to. *)
Definition verdict_outcome (tunnels : nm_tcp_tunnels) (r : stream_request) (allow : bool) (c : tunnels_call) : Prop :=
  match c with
  | TtConnectionStart stream s =>
      allow = true /\ stream = sr_stream r /\ s ∈ tt_services tunnels /\
      sv_id s = sr_id r /\ sv_type s = sr_type r /\
      forall s', s' ∈ tt_services tunnels -> sv_weakPtr s' = sr_weakPtr r -> s' = s
  | TtStreamRelease stream => stream = sr_stream r
  | TtConnectionFree stream => stream = sr_stream r /\ allow = true
  | _ => False
  end.

Lemma verdict_ends tunnels requests r allow allocated ec :
  tunnels_inv tunnels requests -> r ∈ requests ->
  exists c, tunnels_handler (TnVerdict r allow allocated ec) tunnels = (tt, tunnels, [c]) /\ verdict_outcome tunnels r allow c.
Proof.
  intros Hi Hr. cbn [tunnels_handler]. unfold service_stream_iam_callback. rewrite hget_seq.
  unfold nm_tcp_tunnels_find_service_by_weak_ptr.
  destruct (List.find _ _) as [s |] eqn:Ef; [| by eexists].
  apply find_some in Ef as [Hin%list_elem_of_In E]. apply Z.eqb_eq in E.
  destruct allow; [| by eexists]. destruct allocated; [| by eexists]. cbn [negb].
  destruct (is_error ec); [by eexists |]. eexists. split; [reflexivity |]. do 3 (split; [done |]).
  pose proof Hi as (Hnd & Hs & Hrq & Hm). destruct (Hm r s Hr Hin E) as [-> ->]. do 2 (split; [done |]).
  intros s' Hin' E'. apply (weak_ptr_unique tunnels requests); [done | done | done |]. by rewrite E', E.
Qed.

(** A tunnel is only opened with permission: a connection is started only by a verdict that
    allows it, for a service that still exists, and that service is the one - with the id and
    the type - that the authorization request of the stream was made for, even if services were
    removed and others with the same id were added in the meantime. In all other cases the
    stream is given back or the connection freed. *)
Lemma tunnel_start_authorized tunnels requests r allow allocated ec
    (Hreach : tunnels_reachable tunnels requests) (Hr : r ∈ requests) :
  exists c, trace (tunnels_handler (TnVerdict r allow allocated ec)) tunnels = [c] /\
  match c with
  | TtConnectionStart stream s =>
      allow = true /\ stream = sr_stream r /\ s ∈ tt_services tunnels /\
      sv_id s = sr_id r /\ sv_type s = sr_type r /\
      forall s', s' ∈ tt_services tunnels -> sv_weakPtr s' = sr_weakPtr r -> s' = s
  | TtStreamRelease stream => stream = sr_stream r
  | TtConnectionFree stream => stream = sr_stream r /\ allow = true
  | _ => False
  end.
Proof.
  destruct (verdict_ends _ _ r allow allocated ec (tunnels_reachable_inv _ _ Hreach) Hr) as (c & E & Hc).
  exists c. split; [unfold trace; by rewrite E | exact Hc].
Qed.

(** The information of a service is answered after a check by id only: the service may have been
    replaced, by one of another type, since the request was authorized. *)
Example get_service_replaced :
  let a := mk_ip NABTO_IPV4 (replicate 16 0) in
  let t1 := mk_tunnels [mk_service "ssh" "ssh" a 22 7 2] 2 in
  let t2 := mk_tunnels [mk_service "ssh" "admin" a 23 8 3] 3 in
  trace (get_service true 9 (Some "ssh"%string) 1) t1 = [TtCheckCoap 9 "TcpTunnel:GetService" (Some ("ssh", "ssh")%string) 1] /\
  trace (get_service_iam true true true (Some "ssh"%string) 1) t2 =
    [TtCoapReady 1 (COAP_CODE 2 5) (encode_service (mk_service "ssh" "admin" a 23 8 3)); TtRequestFree 1].
Proof. split; reflexivity. Qed.

(** ** Witnesses *)

(** The stream ends first, then reading the TCP connection fails. *)
Definition example_leak : list (tunnel_input * list tunnel_call) :=
  [(TiConnected NABTO_EC_OK, [TcTcpRead 8192; TcStreamRead 8192]);
   (TiTcpRead (inr [1; 2]), [TcStreamWrite [1; 2]]);
   (TiStreamWritten NABTO_EC_OK, [TcTcpRead 8192]);
   (TiStreamRead (inl NABTO_EC_EOF), [TcTcpShutdown])].

Lemma example_leak_reachable :
  tunnel_reachable example_leak
    (mk_tc true [1; 2] 2 [] 0 false true, mk_pending false (Some UpTcpRead) None false).
Proof.
  apply (tunnel_next (firstn 3 example_leak) _ (TiStreamRead (inl NABTO_EC_EOF)) [TcTcpShutdown]
    _ (tunnel_next (firstn 2 example_leak) _ (TiStreamWritten NABTO_EC_OK) [TcTcpRead 8192]
      _ (tunnel_next (firstn 1 example_leak) _ (TiTcpRead (inr [1; 2])) [TcStreamWrite [1; 2]]
        _ (tunnel_next [] _ (TiConnected NABTO_EC_OK) [TcTcpRead 8192; TcStreamRead 8192]
          _ tunnel_init ltac:(by constructor)) ltac:(by constructor)) ltac:(by constructor)) ltac:(by constructor)).
Defined.


Lemma tunnel_data_in_order_witness :
  stream_writes (all_calls example_leak) = [[1; 2]].
Proof. exact (proj1 (tunnel_data_in_order _ _ example_leak_reachable)). Defined.

Lemma tunnel_start_authorized_witness :
  exists tunnels s, trace (tunnels_handler (TnVerdict (mk_sr 4 2 "ssh" "ssh") true true NABTO_EC_OK)) tunnels =
    [TtConnectionStart 4 s] /\ sv_type s = "ssh"%string.
Proof.
  pose (add := TnAdd (mk_ip NABTO_IPV4 (replicate 16 0)) "ssh" "ssh" (ascii_codes "127.0.0.1") 22 (inr 7)).
  pose (s := mk_service "ssh" "ssh" (mk_ip NABTO_IPV4 ([127; 0; 0; 1] ++ replicate 12 0)) 22 7 2).
  pose proof (tunnels_next _ _ add tunnels_start I) as H1.
  change (exec (tunnels_handler add) nm_tcp_tunnels_init) with (mk_tunnels [s] 2) in H1.
  change (trace (tunnels_handler add) nm_tcp_tunnels_init) with (@nil tunnels_call) in H1.
  pose proof (tunnels_next _ _ (TnStream s NABTO_EC_OK true 9 4) H1 (list_elem_of_here _ _)) as H2.
  destruct (tunnel_start_authorized _ _ (mk_sr 4 2 "ssh" "ssh") true true NABTO_EC_OK H2
    (list_elem_of_here _ _)) as (c & Hc & Hx).
  change ([TtConnectionStart 4 s] = [c]) in Hc. injection Hc as <-. destruct Hx as (_ & _ & _ & _ & Ht & _).
  exists (mk_tunnels [s] 2), s. split; [reflexivity | exact Ht].
Defined.
