(* ===== verification/Payloads.v ===== *)
(** * Payloads of the CoAP resources

    What the SDK encodes - requests to the basestation, and answers to clients - is one CBOR item
    of a fixed type: the names of the fields, which may be missing, and the types of their values. *)

From S2P Require Import Prelude Platform Packet Collections KeepAlive Cbor Rendezvous Policies Attacher Iam Stun Tunnel.
From stdpp Require Import gmap.

#[local] Open Scope Z_scope.
#[local] Open Scope list_scope.

(** A field that is always there, and one that may be missing. *)
Definition field (k : string) (t : cbor_type) : string * bool * cbor_type := (k, false, t).
Definition maybe (k : string) (t : cbor_type) : string * bool * cbor_type := (k, true, t).

#[local] Open Scope string_scope.

(** POST device/attach-start *)
Definition attach_type : cbor_type :=
  CtMap [field "NabtoVersion" CtText; field "AppName" CtText; field "AppVersion" CtText;
         field "ProductId" CtText; field "DeviceId" CtText].
(** the request device/sct *)
Definition scts_type : cbor_type := CtArray CtText.
(** nm_iam_get_user.c; nm_iam_list_users.c and nm_iam_list_roles.c *)
Definition user_type : cbor_type :=
  CtMap [field "Id" CtText; maybe "Roles" (CtArray CtText); maybe "Fingerprint" CtText; maybe "Attributes" (CtMapOf CtText)].
Definition names_type : cbor_type := CtArray CtText.
(** nm_iam_pairing_get.c, nm_iam_client_settings.c *)
Definition pairing_type : cbor_type := CtMap [field "Modes" (CtArray CtText)].
Definition client_settings_type : cbor_type := CtMap [maybe "ServerConnectToken" CtText].
(** an endpoint, in the array of p2p/endpoints *)
Definition endpoint_type : cbor_type := CtMap [field "Ip" CtBytes; field "Port" CtUint].
(** tcp-tunnels/services/{id}, and the array tcp-tunnels/services *)
Definition service_type : cbor_type :=
  CtMap [field "Id" CtText; field "Type" CtText; field "Host" CtText; field "Port" CtUint; field "StreamPort" CtUint].

#[local] Close Scope string_scope.

(** ** Building typed items *)

Lemma text_typed s : has_type CtText [TokText s].
Proof. by exists s. Qed.
Lemma bytes_typed b : has_type CtBytes [TokBytes b].
Proof. by exists b. Qed.
Lemma uint_typed n : is_uint 64 n -> has_type CtUint [TokUint n].
Proof. by exists n. Qed.

Lemma texts_typed {A} (f : A -> list Z) (l : list A) :
  has_type (CtArray CtText) (TokArray :: map (fun x => TokText (f x)) l ++ [TokClose]).
Proof.
  exists (map (fun x => [TokText (f x)]) l). split.
  - f_equal. f_equal. induction l as [| x l IH]; [done |]. cbn. by rewrite IH.
  - apply Forall_forall. intros ts Hin. apply list_elem_of_fmap in Hin as (x & -> & _). apply text_typed.
Qed.

(** The fields of a map. *)
Definition has_fields : list (string * bool * cbor_type) -> list cbor_token -> Prop :=
  fix has_fields fields body :=
    match fields with
    | [] => body = []
    | (k, optional, t) :: fields =>
        (optional = true /\ has_fields fields body) \/
        exists v rest, body = TokText (ascii_codes k) :: v ++ rest /\ has_type t v /\ has_fields fields rest
    end.

Lemma map_typed fields body : has_fields fields body -> has_type (CtMap fields) (TokMap :: body ++ [TokClose]).
Proof. intros Hb. exists body. by split. Qed.

Lemma field_present k o t fields v rest :
  has_type t v -> has_fields fields rest -> has_fields ((k, o, t) :: fields) (TokText (ascii_codes k) :: v ++ rest).
Proof. intros Hv Hr. right. by exists v, rest. Qed.

Lemma field_missing k t fields body : has_fields fields body -> has_fields ((k, true, t) :: fields) body.
Proof. intros Hb. by left. Qed.

Lemma fields_end : has_fields [] [].
Proof. done. Qed.

Lemma field_last k o t v : has_type t v -> has_fields [(k, o, t)] (TokText (ascii_codes k) :: v).
Proof. intros Hv. rewrite <- (app_nil_r v). by apply field_present. Qed.

#[local] Hint Resolve text_typed bytes_typed texts_typed field_missing fields_end : nabto.

(** The next field has a value of one token. *)
Ltac one_token := refine (field_present _ _ _ _ [_] _ _ _); [solve [auto with nabto] |].

(** ** The payloads *)

Lemma port_uint p : is_uint 16 p -> has_type CtUint [TokUint p].
Proof. intros Hp. apply uint_typed. unfold is_uint in *. lia. Qed.

Lemma port32_uint p : is_uint 32 p -> has_type CtUint [TokUint p].
Proof. intros Hp. apply uint_typed. unfold is_uint in *. lia. Qed.

#[local] Hint Resolve port_uint port32_uint : nabto.

(** Closing brackets are at the end of the body. *)
Lemma map_typed' fields body ts : ts = TokMap :: body ++ [TokClose] -> has_fields fields body -> has_type (CtMap fields) ts.
Proof. intros ->. apply map_typed. Qed.

Lemma ep_typed ep : is_uint 16 (ep_port ep) -> has_type endpoint_type (encode_ep ep).
Proof. intros Hp. apply (map_typed _ [_; _; _; _]). one_token. one_token. apply fields_end. Qed.

Lemma eps_typed eps :
  Forall (fun ep => is_uint 16 (ep_port ep)) eps ->
  has_type (CtArray endpoint_type) ([TokArray] ++ flat_map encode_ep eps ++ [TokClose]).
Proof.
  intros Heps. exists (map encode_ep eps). rewrite <- flat_map_concat_map. split; [done |].
  apply Forall_map. eapply Forall_impl; [exact Heps |]. intros ep. apply ep_typed.
Qed.

Lemma service_typed service :
  is_uint 16 (sv_port service) -> is_uint 32 (sv_streamPort service) ->
  has_type service_type (encode_service service).
Proof.
  intros Hp Hs. apply (map_typed _ [_; _; _; _; _; _; _; _; _; _]). do 5 one_token. apply fields_end.
Qed.

(** Key and value pairs. *)
Lemma attributes_typed (items : list (string * string)) :
  has_type (CtMapOf CtText) (TokMap :: flat_map (fun kv => [text kv.1; text kv.2]) items ++ [TokClose]).
Proof.
  exists (map (fun kv => (ascii_codes kv.1, [text kv.2])) items). split.
  - by rewrite map_map, flat_map_concat_map.
  - apply Forall_map. apply Forall_forall. intros kv _. apply text_typed.
Qed.

Section Payloads.
#[local] Open Scope string_scope.
#[local] Open Scope list_scope.
Context {T : Type} `{StringSet T}.

Lemma attach_typed `{NcVersion} (ctx : nc_attach_context (T := T)) : has_type attach_type (encode_cbor_request ctx).
Proof. apply (map_typed _ [_; _; _; _; _; _; _; _; _; _]). do 5 one_token. apply fields_end. Qed.

Context {M : Type} `{StringMap M}.

Lemma user_typed (user : nm_iam_user (T := T) (M := M)) : has_type user_type (encode_user user).
Proof.
  unfold encode_user.
  set (roles := match ss_elements _ with [] => _ | _ => _ end).
  set (fp := match u_fingerprint _ with Some _ => _ | None => _ end).
  set (attrs := match sm_items _ with [] => _ | _ => _ end).
  apply (map_typed' _ (text "Id" :: [text (u_id user)] ++ roles ++ fp ++ attrs)).
  { cbn. by rewrite <- !app_assoc. }
  apply (field_present "Id" false CtText _ [text (u_id user)] (roles ++ fp ++ attrs)); [apply text_typed |].
  assert (Hattrs : has_fields [maybe "Attributes" (CtMapOf CtText)] attrs).
  { subst attrs. destruct (sm_items _) as [| kv items]; [by apply field_missing |].
    exact (field_last "Attributes" true (CtMapOf CtText) _ (attributes_typed (kv :: items))). }
  assert (Hfp : has_fields [maybe "Fingerprint" CtText; maybe "Attributes" (CtMapOf CtText)] (fp ++ attrs)).
  { subst fp. destruct (u_fingerprint _) as [f |]; [| by apply field_missing].
    apply (field_present "Fingerprint" true CtText _ [text f] attrs); [apply text_typed | done]. }
  subst roles. destruct (ss_elements _) as [| r rs]; [by apply field_missing |].
  apply (field_present "Roles" true (CtArray CtText) _ (TokArray :: map text (r :: rs) ++ [TokClose]) (fp ++ attrs));
    [apply texts_typed | done].
Qed.

Lemma pairing_typed (iam : nm_iam (T := T) (M := M)) (isLocal : bool) : has_type pairing_type (encode_pairing_modes iam isLocal).
Proof.
  unfold encode_pairing_modes.
  set (pw := match iam_pairingPassword _ with Some _ => _ | None => _ end).
  apply (map_typed' _ (text "Modes" :: TokArray :: (pw ++ if isLocal then [text "Local"] else []) ++ [TokClose])).
  { cbn. by rewrite <- !app_assoc. }
  apply (field_last "Modes" false (CtArray CtText)).
  assert (Hl : (pw ++ if isLocal then [text "Local"] else []) =
               map text ((match iam_pairingPassword iam with Some _ => ["Password"] | None => [] end) ++
                         if isLocal then ["Local"] else [])).
  { subst pw. by destruct (iam_pairingPassword iam), isLocal. }
  rewrite Hl. apply texts_typed.
Qed.

Lemma client_settings_typed (user : nm_iam_user (T := T) (M := M)) : has_type client_settings_type (encode_client_settings user).
Proof.
  unfold encode_client_settings. destruct (u_serverConnectToken user) as [token |].
  - apply (map_typed _ [_; _]). apply (field_last "ServerConnectToken" true CtText), text_typed.
  - apply (map_typed _ []). by apply field_missing.
Qed.

End Payloads.

(** ** The answers *)

(** The type of what a resource of the IAM module answers. *)
Definition resource_type (op : iam_op) : option cbor_type :=
  match op with
  | OpGetUser => Some user_type
  | OpListUsers | OpListRoles => Some names_type
  | OpPairingGet => Some pairing_type
  | OpClientSettings => Some client_settings_type
  | _ => None
  end.

(** Every payload among the calls has the type. *)
Definition iam_answers (ty : cbor_type) (t : list iam_call) : Prop :=
  forall code payload, IamCoapReady code (Some payload) ∈ t -> has_type ty payload.
Definition service_answers (ty : cbor_type) (t : list tunnels_call) : Prop :=
  forall request code payload, TtCoapReady request code payload ∈ t -> has_type ty payload.
Definition stun_answers (ty : cbor_type) (t : list stun_coap_call) : Prop :=
  forall request code payload, ScReady request code (Some payload) ∈ t -> has_type ty payload.

Section Answers.
Context `{Strtod} {T : Type} `{StringSet T} {M : Type} `{StringMap M} {V : Type} `{CborDec V}.
Implicit Types iam : nm_iam (T := T) (M := M).

Lemma no_answer ty c iam r iam' t :
  (forall code payload, c <> IamCoapReady code (Some payload)) ->
  ulift (emit c) iam = Def (r, iam', t) -> iam_answers ty t.
Proof. intros Hc [= _ _ <-] code payload Hin%list_elem_of_singleton. by destruct (Hc code payload). Qed.

Lemma one_answer ty rq p iam r iam' t :
  ulift (respond_payload rq p) iam = Def (r, iam', t) -> has_type ty p -> iam_answers ty t.
Proof.
  unfold respond_payload. intros Hs Hty.
  destruct (rq_malloc rq); [cbn [negb] in Hs; destruct (rq_set_payload rq) |]; [| by eapply no_answer in Hs |].
  - injection Hs as _ _ <-. intros code payload Hin%list_elem_of_singleton. by injection Hin as _ ->.
  - injection Hs as _ _ <-. by intros code payload Hin%elem_of_nil.
Qed.

(** To the answer of a handler that reads. *)
Ltac to_answer :=
  repeat match goal with
  | H : ubind (check_access _ _ _) _ _ = Def _ |- _ => apply access_seq in H as ([] & _ & H); cbn [negb] in H
  | H : ubind (uof _) _ _ = Def _ |- _ => apply uof_seq in H as (? & _ & H)
  | H : ubind (ulift hget) _ _ = Def _ |- _ => rewrite u_hget in H
  | H : match ?x with Some _ => _ | None => _ end _ = Def _ |- _ => destruct x
  | H : ulift (emit _) _ = Def _ |- _ => by eapply no_answer in H
  | H : ulift (respond_payload _ _) _ = Def _ |- _ => eapply one_answer in H; [exact H |]
  end.

Lemma iam_answers_typed op ty rq iam r iam' t :
  resource_type op = Some ty -> iam_handle op rq iam = Def (r, iam', t) -> iam_answers ty t.
Proof.
  intros Hty Hs. destruct op; try discriminate; injection Hty as <-; cbn [iam_handle] in Hs;
    unfold get_user_handle_request, list_users_handle_request, list_roles_handle_request,
      pairing_get_handle_request, client_settings_handle_request in Hs; to_answer;
    auto using user_typed, pairing_typed, client_settings_typed, texts_typed;
    apply texts_typed.
Qed.
End Answers.

Lemma coap_error_answers ty request code tunnels : service_answers ty (trace (coap_error request code) tunnels).
Proof. intros rq c p [? | [? | ?%elem_of_nil]%elem_of_cons]%elem_of_cons; done. Qed.

Lemma coap_answer_answers ty request payload allocated set tunnels :
  has_type ty payload -> service_answers ty (trace (coap_answer request payload allocated set) tunnels).
Proof.
  intros Hty. unfold coap_answer. destruct allocated; [cbn [negb] | apply coap_error_answers].
  destruct set; intros rq c p [Hc | [? | ?%elem_of_nil]%elem_of_cons]%elem_of_cons; try done. by injection Hc as _ _ ->.
Qed.

Lemma list_services_answers allow allocated set request tunnels :
  service_answers names_type (trace (list_services_iam allow allocated set request) tunnels).
Proof.
  unfold list_services_iam. rewrite trace_hget. destruct allow; [cbn [negb] | apply coap_error_answers].
  apply coap_answer_answers. apply (texts_typed (fun s => ascii_codes (sv_id s))).
Qed.

Lemma get_service_answers allow allocated set id request tunnels :
  Forall (fun s => is_uint 16 (sv_port s) /\ is_uint 32 (sv_streamPort s)) (tt_services tunnels) ->
  service_answers service_type (trace (get_service_iam allow allocated set id request) tunnels).
Proof.
  intros Hs. unfold get_service_iam. rewrite trace_hget. destruct allow; [cbn [negb] | apply coap_error_answers].
  destruct (nm_tcp_tunnels_find_service tunnels id) as [s |] eqn:E; [| apply coap_error_answers].
  apply coap_answer_answers. unfold nm_tcp_tunnels_find_service in E. destruct id as [id |]; [| done].
  apply List.find_some in E as [Hin%list_elem_of_In _]. rewrite Forall_forall in Hs.
  by apply service_typed; apply Hs.
Qed.

Lemma flat_map_via {A B C} (f : B -> list C) (g : A -> B) (l : list A) :
  flat_map f (map g l) = flat_map (fun x => f (g x)) l.
Proof. by rewrite !flat_map_concat_map, map_map. Qed.

Lemma endpoints_answers `{NabtoStun L R} localAddrs localPort fits set ec (res : option R) ctx r ctx' t :
  is_uint 16 localPort -> (forall r, is_uint 16 (sep_port (stun_result_extEp r))) ->
  nc_rendezvous_endpoints_completed localAddrs localPort fits set ec res ctx = Def (r, ctx', t) ->
  stun_answers (CtArray endpoint_type) t.
Proof.
  intros Hl Hr. unfold nc_rendezvous_endpoints_completed. rewrite u_hget.
  destruct (sc_deinitialized ctx); [intros [= _ _ <-] ??? ?%elem_of_nil; done |].
  intros (global & s1 & t1 & t2 & (Hg & -> & ->)%uof_inv & Hk & ->)%ubind_inv.
  destruct (sc_stunRequest ctx) as [request |]; [| done].
  assert (Hglobal : exists eps, global = flat_map encode_ep eps /\ Forall (fun ep => is_uint 16 (ep_port ep)) eps).
  { destruct (is_error ec); [exists []; by injection Hg as <- |]. destruct res as [r0 |]; [| done].
    injection Hg as <-. eexists [_]. split; [reflexivity | by repeat constructor; apply Hr]. }
  destruct Hglobal as (eps & -> & Heps).
  set (payload := [TokArray] ++ _) in Hk.
  assert (Hty : has_type (CtArray endpoint_type) payload).
  { subst payload. rewrite (app_assoc (flat_map _ localAddrs)), <- (flat_map_via encode_ep (fun ip => mk_ep ip localPort)).
    rewrite <- flat_map_app. apply eps_typed. apply Forall_app. split; [| done]. apply Forall_map.
    by apply Forall_forall. }
  apply ulift_inv in Hk as [_ ->]. intros rq code p Hin. revert Hin.
  destruct (fits payload); [cbn [negb]; destruct set |];
    intros [Hc | [? | ?%elem_of_nil]%elem_of_cons]%elem_of_cons; try done. by injection Hc as _ _ ->.
Qed.

(** C36. What the device encodes has the type of its resource. The attach request carries the five
    texts the basestation expects and the upload of tokens an array of texts; whatever a client
    is answered - a user, the users and the roles, the ways of pairing, its settings, a TCP tunnel
    service and the list of them, the endpoints of the device - is one item of the type of the
    resource, with the fields in their order, all there that must be and integers that fit; no
    branch writes a part of an item. *)
Theorem payloads_well_typed `{Strtod} `{StringSet T} `{StringMap M} `{CborDec V} `{NcVersion} `{NabtoStun L R}
    (localPort : Z) (Hport : is_uint 16 localPort)
    (Hlib : forall r, is_uint 16 (sep_port (stun_result_extEp r)))
    (tunnels : nm_tcp_tunnels)
    (Hservices : Forall (fun s => is_uint 16 (sv_port s) /\ is_uint 32 (sv_streamPort s)) (tt_services tunnels)) :
  (forall ctx : nc_attach_context (T := T), has_type attach_type (encode_cbor_request ctx)) /\
  (forall tokens : T, has_type scts_type (encode_scts tokens)) /\
  (forall op ty rq (iam : nm_iam (T := T) (M := M)) res iam' t,
    resource_type op = Some ty -> iam_handle op rq iam = Def (res, iam', t) -> iam_answers ty t) /\
  (forall allow allocated set request,
    service_answers names_type (trace (list_services_iam allow allocated set request) tunnels)) /\
  (forall allow allocated set id request,
    service_answers service_type (trace (get_service_iam allow allocated set id request) tunnels)) /\
  (forall localAddrs fits set ec (res : option R) ctx r ctx' t,
    nc_rendezvous_endpoints_completed localAddrs localPort fits set ec res ctx = Def (r, ctx', t) ->
    stun_answers (CtArray endpoint_type) t).
Proof.
  repeat split.
  - intros ctx. apply attach_typed.
  - intros tokens. apply (texts_typed ascii_codes).
  - intros op ty rq iam res iam' t. apply iam_answers_typed.
  - intros. apply list_services_answers.
  - intros. by apply get_service_answers.
  - intros localAddrs fits set ec res ctx r ctx' t. by apply endpoints_answers.
Qed.

(** ** Witnesses *)

#[local] Instance example_strtod : Strtod := fun s => (SpecFloat.S754_zero false, s).
#[local] Instance example_dec : CborDec tree := tree_dec (fun _ => TreeText []).
#[local] Instance example_version : NcVersion := ascii_codes "5.0.0".

(** A library that finds port 4711. *)
#[local] Instance example_stun : NabtoStun unit unit := {
  nabto_stun_init := fun _ => tt;
  nabto_stun_async_analyze := fun s _ => s;
  nabto_stun_next_event_to_handle := fun s => (STUN_ET_COMPLETED, s);
  nabto_stun_get_data_endpoint := fun s => (None, s);
  nabto_stun_get_send_data := fun s _ => ([], s);
  nabto_stun_get_timeout_ms := fun s => (0, s);
  nabto_stun_handle_wait_event := fun s => s;
  nabto_stun_handle_packet := fun s _ => s;
  nabto_stun_get_result := fun s => s;
  stun_result_extEp := fun _ => mk_sep true [10; 0; 0; 1] 4711
}.

Definition example_service : nm_tcp_tunnel_service :=
  mk_service "ssh" "ssh" (mk_ip NABTO_IPV4 ([127; 0; 0; 1] ++ replicate 12 0)) 22 7 2.

(** The service is answered, and the answer has its type. *)
Lemma payloads_well_typed_witness :
  trace (get_service_iam true true true (Some "ssh"%string) 1) (mk_tunnels [example_service] 2) =
    [TtCoapReady 1 (COAP_CODE 2 5) (encode_service example_service); TtRequestFree 1] /\
  has_type service_type (encode_service example_service).
Proof.
  split; [reflexivity |].
  destruct (payloads_well_typed (T := gset string) (M := gmap string string) (V := tree) 4242 ltac:(by_compute)
    ltac:(intros r; by_compute) (mk_tunnels [example_service] 2) ltac:(by_compute)) as (_ & _ & _ & _ & Hs & _).
  apply (Hs true true true (Some "ssh"%string) 1%nat 1%nat (COAP_CODE 2 5)), list_elem_of_here.
Defined.
