(* ===== verification/Spake2.v ===== *)
(** * Password authentication (nc_spake2.c, nc_spake2_coap.c)

    The device side of SPAKE2: a client sends a point T that hides a password, the device answers
    with a point S, both compute a key from the points, their certificates and the password, and
    the client then proves with a hash of the key that it has the same one. mbedTLS, third-party
    code, is a class of operations with their statuses; random choices are arguments. *)

From S2P Require Import Prelude Platform Cbor Rendezvous KeepAlive ClientConnection.
From stdpp Require Import sets.

#[local] Open Scope Z_scope.
#[local] Open Scope list_scope.
#[local] Open Scope handler_scope.

Definition NC_SPAKE2_USERNAME_MAX_LENGTH : nat := 32.
Definition NC_SPAKE2_MAX_PASSWORD_AUTHENTICATION_REQUESTS : Z := 6.
Definition NABTO_COAP_CONTENT_FORMAT_APPLICATION_CBOR : Z := 60.

(** ** Interface of mbedTLS *)

(** Points are [P], states of a message digest are [C]. An operation yields its status, 0 for
    success, and what it leaves in its output. *)
Class Mbedtls (P C : Type) : Type := {
  mbedtls_ecp_group_load : Z;
  grp_N : Z;                                      (* the order of the group *)
  mbedtls_ecp_point_init : P;
  mbedtls_ecp_point_read_binary : list Z -> Z * P;
  mbedtls_ecp_point_write_binary : P -> Z * list Z;
  mbedtls_ecp_muladd : Z -> P -> Z -> P -> Z * P;
  mbedtls_mpi_lset : Z -> Z * Z;
  mbedtls_mpi_mul_mpi : Z -> Z -> Z * Z;
  mbedtls_mpi_mod_mpi : Z -> Z -> Z * Z;
  mbedtls_mpi_read_binary : list Z -> Z * Z;
  mbedtls_mpi_size : Z -> Z;
  mbedtls_mpi_write_binary : Z -> Z -> Z * list Z;
  mbedtls_sha256_ret : list Z -> Z * list Z;
  mbedtls_md_init : C;
  mbedtls_md_setup : C -> Z * C;
  mbedtls_md_starts : C -> Z * C;
  mbedtls_md_update : C -> list Z -> Z * C;
  mbedtls_md_finish : C -> Z * list Z
}.

(** What the random generator does in one key calculation: the status of seeding it, of the key
    pair and the pair itself, and of 32 random bytes and the bytes. *)
Record randomness (P : Type) : Type := mk_rnd {
  rnd_seed : Z;
  rnd_keypair : Z * (Z * P);
  rnd_bytes : Z * list Z
}.
Arguments mk_rnd {P}.
Arguments rnd_seed {P}.
Arguments rnd_keypair {P}.
Arguments rnd_bytes {P}.

(** The documented behaviour of operations that succeed. The group is written additively:
    [ec_add], and [ec_mul] by integers; [ec_G] is the base point. [md_data]: the bytes a digest was
    given since it was started. *)
Class MbedtlsLaws (P C : Type) `{Mbedtls P C} : Type := {
  ec_add : P -> P -> P;
  ec_mul : Z -> P -> P;
  ec_zero : P;
  ec_G : P;
  sha256 : list Z -> list Z;
  md_data : C -> list Z;
  ec_add_assoc : forall a b c, ec_add a (ec_add b c) = ec_add (ec_add a b) c;
  ec_add_comm : forall a b, ec_add a b = ec_add b a;
  ec_add_zero : forall a, ec_add a ec_zero = a;
  ec_mul_zero : forall a, ec_mul 0 a = ec_zero;
  ec_mul_one : forall a, ec_mul 1 a = a;
  ec_mul_plus : forall m n a, ec_mul (m + n) a = ec_add (ec_mul m a) (ec_mul n a);
  ec_mul_add : forall m a b, ec_mul m (ec_add a b) = ec_add (ec_mul m a) (ec_mul m b);
  ec_mul_mul : forall m n a, ec_mul m (ec_mul n a) = ec_mul (m * n) a;
  ec_order : forall a, ec_mul grp_N a = ec_zero;
  ec_order_pos : 0 < grp_N;
  ecp_muladd_ok : forall m p n q r, mbedtls_ecp_muladd m p n q = (0, r) -> r = ec_add (ec_mul m p) (ec_mul n q);
  mpi_lset_ok : forall z r, mbedtls_mpi_lset z = (0, r) -> r = z;
  mpi_mul_ok : forall x y r, mbedtls_mpi_mul_mpi x y = (0, r) -> r = x * y;
  mpi_mod_ok : forall x n r, 0 < n -> mbedtls_mpi_mod_mpi x n = (0, r) -> r = x mod n;
  ecp_write_length : forall p r, mbedtls_ecp_point_write_binary p = (0, r) -> (length r <= 256)%nat;
  mpi_write_length : forall n s r, mbedtls_mpi_write_binary n s = (0, r) -> Z.of_nat (length r) = s;
  sha256_ok : forall b r, mbedtls_sha256_ret b = (0, r) -> r = sha256 b;
  sha256_length : forall b, length (sha256 b) = 32%nat;
  sha256_bytes : forall b, bytes (sha256 b);
  md_starts_ok : forall c r, mbedtls_md_starts c = (0, r) -> md_data r = [];
  md_update_ok : forall c b r, mbedtls_md_update c b = (0, r) -> md_data r = md_data c ++ b;
  md_finish_ok : forall c r, mbedtls_md_finish c = (0, r) -> r = sha256 (md_data c)
}.

Section Spake2.
Context {P C V : Type} `{Mbedtls P C} `{CborDec V}.

(** ** Module and requests *)

(** The handler is named by the listener it was registered with. *)
Record nc_spake2_module : Type := mk_spake2 {
  sp_passwordRequestHandler : option nat
}.

Record nc_spake2_password_request : Type := mk_pr {
  pr_username : list Z;                           (* NC_SPAKE2_USERNAME_MAX_LENGTH + 1 bytes *)
  pr_T : P;
  pr_coapRequest : nat
}.

Definition nc_spake2_init : nc_spake2_module := mk_spake2 None.

Definition nc_spake2_clear_password_request_callback (module : nc_spake2_module) : nc_spake2_module :=
  module {{ sp_passwordRequestHandler := None }}.

Definition nc_spake2_set_password_request_callback (module : nc_spake2_module) (handler : nat) :
    np_error_code * nc_spake2_module :=
  match sp_passwordRequestHandler module with
  | Some _ => (NABTO_EC_IN_USE, module)
  | None => (NABTO_EC_OK, module {{ sp_passwordRequestHandler := Some handler }})
  end.

(** The zeroed structure of [calloc]. *)
Definition nc_spake2_password_request_new (coapRequest : nat) : nc_spake2_password_request :=
  mk_pr (replicate (S NC_SPAKE2_USERNAME_MAX_LENGTH) 0) mbedtls_ecp_point_init coapRequest.

(** ** The key *)

(** A status and an output; a status is collected with a bitwise or. *)
Definition status_or (status : Z) (s : Z) : Z := Z.lor status s.

Definition hashLength (mdCtx : C) (val : Z) : Z * C :=
  mbedtls_md_update mdCtx
    [u8 (Z.shiftr (u32 val) 24); u8 (Z.shiftr (u32 val) 16); u8 (Z.shiftr (u32 val) 8); u8 (u32 val)].

Definition hashData (mdCtx : C) (data : list Z) : Z * C :=
  let '(s1, mdCtx) := hashLength mdCtx (Z.of_nat (length data)) in
  let '(s2, mdCtx) := mbedtls_md_update mdCtx data in
  (status_or s1 s2, mdCtx).

Definition hashPoint (mdCtx : C) (p : P) : Z * C :=
  let '(s1, buffer) := mbedtls_ecp_point_write_binary p in
  let '(s2, mdCtx) := hashData mdCtx buffer in
  (status_or s1 s2, mdCtx).

(** [MBEDTLS_ERR_MPI_BUFFER_TOO_SMALL]. *)
Definition MBEDTLS_ERR_MPI_BUFFER_TOO_SMALL : Z := -8.

Definition hashMpi (mdCtx : C) (n : Z) : Z * C :=
  let s := mbedtls_mpi_size n in
  if 256 <? s then (MBEDTLS_ERR_MPI_BUFFER_TOO_SMALL, mdCtx)
  else
    let '(s1, buffer) := mbedtls_mpi_write_binary n s in
    let '(s2, mdCtx) := hashData mdCtx buffer in
    (status_or s1 s2, mdCtx).

Definition Mdata : list Z :=
  [0x04; 0x88; 0x6e; 0x2f; 0x97; 0xac; 0xe4; 0x6e; 0x55; 0xba; 0x9d; 0xd7; 0x24; 0x25; 0x79; 0xf2; 0x99;
   0x3b; 0x64; 0xe1; 0x6e; 0xf3; 0xdc; 0xab; 0x95; 0xaf; 0xd4; 0x97; 0x33; 0x3d; 0x8f; 0xa1; 0x2f; 0x5f;
   0xf3; 0x55; 0x16; 0x3e; 0x43; 0xce; 0x22; 0x4e; 0x0b; 0x0e; 0x65; 0xff; 0x02; 0xac; 0x8e; 0x5c; 0x7b;
   0xe0; 0x94; 0x19; 0xc7; 0x85; 0xe0; 0xca; 0x54; 0x7d; 0x55; 0xa1; 0x2e; 0x2d; 0x20].

Definition Ndata : list Z :=
  [0x04; 0xd8; 0xbb; 0xd6; 0xc6; 0x39; 0xc6; 0x29; 0x37; 0xb0; 0x4d; 0x99; 0x7f; 0x38; 0xc3; 0x77; 0x07;
   0x19; 0xc6; 0x29; 0xd7; 0x01; 0x4d; 0x49; 0xa2; 0x4b; 0x4f; 0x98; 0xba; 0xa1; 0x29; 0x2b; 0x49; 0x07;
   0xd6; 0x0a; 0xa6; 0xbf; 0xad; 0xe4; 0x50; 0x08; 0xa6; 0x36; 0x33; 0x7f; 0x51; 0x68; 0xc6; 0x4d; 0x9b;
   0xd3; 0x60; 0x34; 0x80; 0x8c; 0xd5; 0x64; 0x49; 0x0b; 0x1e; 0x65; 0x6e; 0xdb; 0xe7].

(** The status, S and the key. *)
Definition calculateKey (rnd : randomness P) (T : P) (password : option (list Z))
    (fingerprintClient fingerprintDevice : list Z) : Z * P * list Z :=
  let '(s1, M) := mbedtls_ecp_point_read_binary Mdata in
  let '(s2, N) := mbedtls_ecp_point_read_binary Ndata in
  let '(s4, (y, Y)) := rnd_keypair rnd in
  let '(s5, passwordHash) :=
    match password with None => rnd_bytes rnd | Some password => mbedtls_sha256_ret password end in
  let '(s6, w) := mbedtls_mpi_read_binary passwordHash in
  let '(s7, one) := mbedtls_mpi_lset 1 in
  let '(s8, Sp) := mbedtls_ecp_muladd w N one Y in
  let '(s9, tmp) := mbedtls_mpi_lset (-1) in
  let '(s10, tmp) := mbedtls_mpi_mul_mpi tmp y in
  let '(s11, tmp) := mbedtls_mpi_mul_mpi tmp w in
  let '(s12, tmp) := mbedtls_mpi_mod_mpi tmp grp_N in
  let '(s13, K) := mbedtls_ecp_muladd y T tmp M in
  let '(s14, mdCtx) := mbedtls_md_setup mbedtls_md_init in
  let '(s15, mdCtx) := mbedtls_md_starts mdCtx in
  let '(s16, mdCtx) := hashData mdCtx fingerprintClient in
  let '(s17, mdCtx) := hashData mdCtx fingerprintDevice in
  let '(s18, mdCtx) := hashPoint mdCtx T in
  let '(s19, mdCtx) := hashPoint mdCtx Sp in
  let '(s20, mdCtx) := hashPoint mdCtx K in
  let '(s21, mdCtx) := hashMpi mdCtx w in
  let '(s22, key) := mbedtls_md_finish mdCtx in
  (fold_left status_or
     [s2; rnd_seed rnd; s4; s5; s6; s7; s8; s9; s10; s11; s12; s13; s14; s15; s16; s17; s18; s19; s20; s21; s22] s1,
   Sp, key).

(** ** Requests *)

(** [SpError]: an error response; [SpPasswordRequest]: the registered handler gets the request. *)
Inductive spake2_call : Type :=
| SpError (coap : nat) (code : Z)
| SpResponse (coap : nat) (code : Z) (payload : list Z)
| SpRequestFree (coap : nat)
| SpPasswordRequest (handler : nat) (req : nc_spake2_password_request)
| SpPasswordRequestFree (req : nc_spake2_password_request).

(** The state is the connection of the request. *)
Definition sp_handler (A : Type) : Type := handler nc_client_connection spake2_call A.
Definition sp_uhandler (A : Type) : Type := uhandler nc_client_connection spake2_call A.

Definition nc_spake2_password_request_free (passwordRequest : option nc_spake2_password_request) : sp_handler unit :=
  match passwordRequest with None => hskip | Some req => emit (SpPasswordRequestFree req) end.

(** [connected]: the CoAP request still has a connection; the fingerprints are what the buffers
    hold after they were asked for. *)
Definition nc_spake2_password_ready (connected : bool) (rnd : randomness P)
    (fingerprintClient fingerprintDevice : list Z) (req : nc_spake2_password_request) (password : option (list Z)) :
    sp_handler unit :=
  let coap := pr_coapRequest req in
  (if negb connected then emit (SpError coap (COAP_CODE 5 0))
   else
     let '(s, Sp, key) := calculateKey rnd (pr_T req) password fingerprintClient fingerprintDevice in
     hmod (fun connection => connection {{ cc_spake2Key := key }}) ;;;
     let '(s', buffer) := mbedtls_ecp_point_write_binary Sp in
     if status_or (status_or mbedtls_ecp_group_load s) s' =? 0 then
       hmod (fun connection => connection {{ cc_hasSpake2Key := true }}) ;;;
       emit (SpResponse coap 201 buffer)
     else emit (SpError coap (COAP_CODE 5 0))) ;;;
  emit (SpRequestFree coap) ;;;
  nc_spake2_password_request_free (Some req).

(** The length of a string whose computation fails is uninitialized. *)
Definition read_text_string (value : V) (out : list Z) (maxLength : nat) : cres (option (list Z)) :=
  if negb (cv_is_text_string value) then Def None
  else
    match cv_string_length value with
    | None => UB
    | Some strLength =>
        if (maxLength <? strLength)%nat then Def None else Def (Some (memcpy out 0 (cv_string value)))
    end.

Definition read_group_element (value : V) : cres (option P) :=
  if negb (cv_is_byte_string value) then Def None
  else
    match cv_string_length value with
    | None => UB
    | Some length =>
        if (256 <? length)%nat then Def None
        else
          let '(status, p) := mbedtls_ecp_point_read_binary (cv_string value) in
          if negb (status =? 0) then Def None else Def (Some p)
    end.

#[local] Open Scope c_scope.

(** The request with its fields filled in, or [None] for [false]. *)
Definition read_username_and_password (passwordRequest : nc_spake2_password_request) (payload : list Z) :
    cres (option nc_spake2_password_request) :=
  let map := cv_parse payload in
  let username := cv_find map "Username" in
  let T := cv_find map "T" in
  let! p := read_group_element T in
  match p with
  | None => Def None
  | Some p =>
      let! s := read_text_string username (pr_username passwordRequest) NC_SPAKE2_USERNAME_MAX_LENGTH in
      match s with
      | None => Def None
      | Some s => Def (Some (passwordRequest {{ pr_T := p; pr_username := s }}))
      end
  end.

(** The end of a request that was answered with an error. *)
Definition coap_1_error (request : nat) (code : Z) (passwordRequest : option nc_spake2_password_request) :
    sp_uhandler unit :=
  ulift (emit (SpError request code) ;;; nc_spake2_password_request_free passwordRequest ;;;
         emit (SpRequestFree request)).

(** [allocated]: whether there is memory for the password request. *)
Definition nc_spake2_handle_coap_1 (spake2 : nc_spake2_module) (contentFormat : Z) (payload : option (list Z))
    (allocated : bool) (request : nat) : sp_uhandler unit :=
  let+ _ := ulift (hmod (fun connection => connection {{ cc_passwordAuthenticationRequests ::= fun n => u64 (n + 1) }})) in
  let+ connection := ulift hget in
  match sp_passwordRequestHandler spake2 with
  | None => coap_1_error request (COAP_CODE 4 4) None
  | Some handler =>
      if NC_SPAKE2_MAX_PASSWORD_AUTHENTICATION_REQUESTS <? cc_passwordAuthenticationRequests connection
      then coap_1_error request (COAP_CODE 4 29) None
      else if negb (contentFormat =? NABTO_COAP_CONTENT_FORMAT_APPLICATION_CBOR)
      then coap_1_error request (COAP_CODE 4 15) None
      else
        match payload with
        | None => coap_1_error request (COAP_CODE 4 0) None
        | Some payload =>
            if negb allocated then coap_1_error request (COAP_CODE 5 0) None
            else
              let passwordRequest := nc_spake2_password_request_new request in
              let+ r := uof (read_username_and_password passwordRequest payload) in
              match r with
              | None => coap_1_error request (COAP_CODE 4 0) (Some passwordRequest)
              | Some passwordRequest => ulift (emit (SpPasswordRequest handler passwordRequest))
              end
        end
  end.

Definition nc_spake2_handle_coap_2 (spake2 : nc_spake2_module) (payload : option (list Z)) (request : nat) :
    sp_handler unit :=
  hmod (fun connection => connection {{ cc_passwordAuthenticationRequests ::= fun n => u64 (n + 1) }}) ;;;
  let* connection := hget in
  (match sp_passwordRequestHandler spake2 with
   | None => emit (SpError request (COAP_CODE 4 4))
   | Some _ =>
       if NC_SPAKE2_MAX_PASSWORD_AUTHENTICATION_REQUESTS <? cc_passwordAuthenticationRequests connection
       then emit (SpError request (COAP_CODE 4 29))
       else
         match payload with
         | None => emit (SpError request (COAP_CODE 4 0))
         | Some payload =>
             if negb (length payload =? 32)%nat then emit (SpError request (COAP_CODE 4 0))
             else if negb (cc_hasSpake2Key connection) then emit (SpError request (COAP_CODE 4 0))
             else
               let '(_, hash1) := mbedtls_sha256_ret (take 32 (cc_spake2Key connection)) in
               let '(_, hash2) := mbedtls_sha256_ret (take 32 hash1) in
               if bool_decide (payload <> hash2) then emit (SpError request (COAP_CODE 4 1))
               else emit (SpResponse request 201 hash1)
         end
   end) ;;;
  emit (SpRequestFree request).

(** ** A connection and its requests *)

Inductive spake2_input : Type :=
| SiCoap1 (spake2 : nc_spake2_module) (contentFormat : Z) (payload : option (list Z)) (allocated : bool) (request : nat)
| SiCoap2 (spake2 : nc_spake2_module) (payload : option (list Z)) (request : nat)
| SiReady (connected : bool) (rnd : randomness P) (fingerprintClient fingerprintDevice : list Z)
    (req : nc_spake2_password_request) (password : option (list Z)).

Definition spake2_step (i : spake2_input) : sp_uhandler unit :=
  match i with
  | SiCoap1 spake2 cf payload a request => nc_spake2_handle_coap_1 spake2 cf payload a request
  | SiCoap2 spake2 payload request => ulift (nc_spake2_handle_coap_2 spake2 payload request)
  | SiReady connected rnd fc fd req password => ulift (nc_spake2_password_ready connected rnd fc fd req password)
  end.

(** The inputs of a connection, each with the calls it led to. *)
Fixpoint spake2_history (inputs : list spake2_input) (connection : nc_client_connection) :
    cres (list (spake2_input * list spake2_call) * nc_client_connection) :=
  match inputs with
  | [] => Def ([], connection)
  | i :: inputs =>
      let! r := spake2_step i connection in
      let! h := spake2_history inputs r.1.2 in
      Def ((i, r.2) :: h.1, h.2)
  end.

Definition is_coap (i : spake2_input) : bool := match i with SiReady _ _ _ _ _ _ => false | _ => true end.

(** The answer to a request that is not looked at. *)
Definition refused (t : list spake2_call) : bool :=
  match t with
  | [SpError r c; SpRequestFree r'] => (r =? r')%nat && ((c =? COAP_CODE 4 4) || (c =? COAP_CODE 4 29))
  | _ => false
  end.

(** The requests that were looked at. *)
Definition looked_at (h : list (spake2_input * list spake2_call)) : list (spake2_input * list spake2_call) :=
  List.filter (fun it => is_coap it.1 && negb (refused it.2)) h.

Ltac run_spake2 :=
  unfold spake2_step, nc_spake2_handle_coap_1, nc_spake2_handle_coap_2, nc_spake2_password_ready, coap_1_error,
    nc_spake2_password_request_free, uof, ubind, ulift, hbind, hget, hmod, emit, hskip, hret, apply_update; cbn.

(** The cases of the conditions and matches of a handler that was run. *)
Ltac spake2_cases :=
  repeat match goal with
  | |- context [match ?x with _ => _ end] => lazymatch x with context [match _ with _ => _ end] => fail | _ => destruct x eqn:? end; cbn
  end.

Ltac spake2_done :=
  intros [= <- <-]; cbn -[Nat.eqb]; split_and!; [done | by intros | intros _; split_and!; [done | intros Hn]];
  first [by rewrite Nat.eqb_refl | lia].

Lemma spake2_step_counts i connection connection' t :
  spake2_step i connection = Def (tt, connection', t) ->
  cc_passwordAuthenticated connection' = cc_passwordAuthenticated connection /\
  (is_coap i = false -> cc_passwordAuthenticationRequests connection' = cc_passwordAuthenticationRequests connection) /\
  (is_coap i = true ->
   cc_passwordAuthenticationRequests connection' = u64 (cc_passwordAuthenticationRequests connection + 1) /\
   (NC_SPAKE2_MAX_PASSWORD_AUTHENTICATION_REQUESTS < cc_passwordAuthenticationRequests connection' -> refused t = true)).
Proof.
  destruct i as [spake2 cf payload a request | spake2 payload request | c rnd fc fd req password];
    destruct connection as [? ? ? ? ? ? ? ? ? ? n]; run_spake2; unfold constant;
    [destruct (sp_passwordRequestHandler spake2); cbn; [| spake2_done];
     destruct (Z.ltb_spec NC_SPAKE2_MAX_PASSWORD_AUTHENTICATION_REQUESTS (u64 (n + 1))); [cbn; spake2_done |] .. |].
  - spake2_cases; try done; spake2_done.
  - spake2_cases; try done; spake2_done.
  - spake2_cases; intros [= <- <-]; done.
Qed.

Lemma spake2_history_counts inputs : forall connection h connection',
  spake2_history inputs connection = Def (h, connection') ->
  0 <= cc_passwordAuthenticationRequests connection ->
  cc_passwordAuthenticationRequests connection + Z.of_nat (length inputs) < 2 ^ 64 ->
  cc_passwordAuthenticated connection' = cc_passwordAuthenticated connection /\ map fst h = inputs /\
  Z.of_nat (length (looked_at h)) <=
    Z.max 0 (NC_SPAKE2_MAX_PASSWORD_AUTHENTICATION_REQUESTS - cc_passwordAuthenticationRequests connection).
Proof.
  induction inputs as [| i inputs IH]; intros connection h connection' Hh Hpos Hn.
  { injection Hh as <- <-. cbn [looked_at map List.filter length] in *. split_and!; [done | done | lia]. }
  cbn [spake2_history] in Hh. destruct (spake2_step i connection) as [[[[] c1] t] |] eqn:Es; [| done]. cbn in Hh.
  destruct (spake2_history inputs c1) as [[h' c2] |] eqn:Eh; [| done]. injection Hh as <- <-.
  destruct (spake2_step_counts _ _ _ _ Es) as (Hp & Hr & Hc). rewrite length_cons in Hn.
  unfold looked_at. cbn [List.filter fst snd map]. fold (looked_at h').
  destruct (is_coap i) eqn:Ei; cbn [andb].
  - destruct (Hc eq_refl) as [Hc1 Hc2]. rewrite u64_small in Hc1 by solve_int.
    destruct (IH _ _ _ Eh) as (IHp & IHf & IHn); [lia | lia |]. cbn [fst].
    split; [congruence |]. split; [by rewrite IHf |].
    destruct (refused t) eqn:Ef; cbn [negb length]; [lia |].
    destruct (Z.le_gt_cases (cc_passwordAuthenticationRequests c1) NC_SPAKE2_MAX_PASSWORD_AUTHENTICATION_REQUESTS);
      [lia | by specialize (Hc2 ltac:(lia))].
  - specialize (Hr eq_refl). destruct (IH _ _ _ Eh) as (IHp & IHf & IHn); [lia | lia |]. cbn [fst].
    split; [congruence |]. split; [by rewrite IHf | lia].
Qed.


(** ** The key *)

Context `{!MbedtlsLaws P C}.

(** A piece of the transcript, and the transcript. *)
Definition field (data : list Z) : list Z :=
  let n := u32 (Z.of_nat (length data)) in
  [u8 (Z.shiftr n 24); u8 (Z.shiftr n 16); u8 (Z.shiftr n 8); u8 n] ++ data.

Definition point_bytes (p : P) : list Z := (mbedtls_ecp_point_write_binary p).2.
Definition mpi_bytes (n : Z) : list Z := (mbedtls_mpi_write_binary n (mbedtls_mpi_size n)).2.

Definition transcript (fields : list (list Z)) : list Z := concat (map field fields).

Lemma status_or_zero s s' : status_or s s' = 0 -> s = 0 /\ s' = 0.
Proof. apply Z.lor_eq_0_iff. Qed.

Lemma fold_status_zero l : forall s, fold_left status_or l s = 0 -> s = 0 /\ Forall (fun x => x = 0) l.
Proof.
  induction l as [| x l IH]; intros s Hs; [by split |]. destruct (IH _ Hs) as [[Hs0 Hx]%status_or_zero Hl].
  split; [done | by constructor].
Qed.

Lemma hashData_ok c data c' : hashData c data = (0, c') -> md_data c' = md_data c ++ field data.
Proof.
  unfold hashData, hashLength. destruct (mbedtls_md_update c _) as [s1 c1] eqn:E1.
  destruct (mbedtls_md_update c1 data) as [s2 c2] eqn:E2. intros [= Hs <-].
  apply status_or_zero in Hs as [-> ->]. apply md_update_ok in E1, E2. by rewrite E2, E1, <- app_assoc.
Qed.

(** Pieces are short: they were written to buffers of 256 bytes. *)
Definition short (data : list Z) : Prop := (length data <= 256)%nat.

Lemma hashPoint_ok c p c' :
  hashPoint c p = (0, c') -> md_data c' = md_data c ++ field (point_bytes p) /\ short (point_bytes p).
Proof.
  unfold hashPoint, point_bytes. destruct (mbedtls_ecp_point_write_binary p) as [s1 b] eqn:E1.
  destruct (hashData c b) as [s2 c2] eqn:E2. intros [= Hs <-]. apply status_or_zero in Hs as [-> ->].
  apply hashData_ok in E2. apply ecp_write_length in E1. by split.
Qed.

Lemma hashMpi_ok c n c' :
  hashMpi c n = (0, c') -> md_data c' = md_data c ++ field (mpi_bytes n) /\ short (mpi_bytes n).
Proof.
  unfold hashMpi, mpi_bytes. destruct (Z.ltb_spec 256 (mbedtls_mpi_size n)); [done |].
  destruct (mbedtls_mpi_write_binary n _) as [s1 b] eqn:E1. destruct (hashData c b) as [s2 c2] eqn:E2.
  intros [= Hs <-]. apply status_or_zero in Hs as [-> ->]. apply hashData_ok in E2. apply mpi_write_length in E1.
  split; [done |]. unfold short. cbn [snd]. lia.
Qed.

(** *** Group computations *)

Lemma ec_mul_mod k p : ec_mul (k mod grp_N) p = ec_mul k p.
Proof.
  pose proof ec_order_pos. rewrite (Z.div_mod k grp_N) at 2 by lia.
  rewrite ec_mul_plus, Z.mul_comm, <- ec_mul_mul, ec_order, ec_add_comm.
  replace (ec_mul (k / grp_N) ec_zero) with ec_zero; [by rewrite ec_add_zero |].
  by rewrite <- (ec_mul_zero ec_zero), ec_mul_mul, Z.mul_0_r.
Qed.

(** Taking away what a password hides. *)
Lemma ec_unmask k w x p q :
  ec_add (ec_mul k (ec_add (ec_mul x p) (ec_mul w q))) (ec_mul (-1 * k * w) q) = ec_mul (k * x) p.
Proof.
  rewrite ec_mul_add, !ec_mul_mul, <- ec_add_assoc, <- ec_mul_plus.
  replace (k * w + -1 * k * w) with 0 by lia. by rewrite ec_mul_zero, ec_add_zero.
Qed.

Lemma calculateKey_ok rnd T password fc fd Sp key :
  calculateKey rnd T password fc fd = (0, Sp, key) ->
  let M := (mbedtls_ecp_point_read_binary Mdata).2 in
  let N := (mbedtls_ecp_point_read_binary Ndata).2 in
  let '(y, Y) := (rnd_keypair rnd).2 in
  let h := match password with None => (rnd_bytes rnd).2 | Some password => sha256 password end in
  let w := (mbedtls_mpi_read_binary h).2 in
  exists K, K = ec_add (ec_mul y T) (ec_mul (-1 * y * w) M) /\
  Sp = ec_add (ec_mul w N) Y /\
  key = sha256 (transcript [fc; fd; point_bytes T; point_bytes Sp; point_bytes K; mpi_bytes w]) /\
  Forall short [point_bytes T; point_bytes Sp; point_bytes K; mpi_bytes w].
Proof.
  unfold calculateKey.
  destruct (mbedtls_ecp_point_read_binary Mdata) as [s1 M], (mbedtls_ecp_point_read_binary Ndata) as [s2 N],
    (rnd_keypair rnd) as [s4 [y Y]]. cbn [snd].
  destruct (match password with None => rnd_bytes rnd | Some pw => mbedtls_sha256_ret pw end) as [s5 h] eqn:Eh.
  destruct (mbedtls_mpi_read_binary h) as [s6 w] eqn:Ew. destruct (mbedtls_mpi_lset 1) as [s7 one] eqn:E7.
  destruct (mbedtls_ecp_muladd w N one Y) as [s8 Sp'] eqn:E8. destruct (mbedtls_mpi_lset (-1)) as [s9 t9] eqn:E9.
  destruct (mbedtls_mpi_mul_mpi t9 y) as [s10 t10] eqn:E10. destruct (mbedtls_mpi_mul_mpi t10 w) as [s11 t11] eqn:E11.
  destruct (mbedtls_mpi_mod_mpi t11 grp_N) as [s12 t12] eqn:E12. destruct (mbedtls_ecp_muladd y T t12 M) as [s13 K] eqn:E13.
  destruct (mbedtls_md_setup mbedtls_md_init) as [s14 c14]. destruct (mbedtls_md_starts c14) as [s15 c15] eqn:E15.
  destruct (hashData c15 fc) as [s16 c16] eqn:E16. destruct (hashData c16 fd) as [s17 c17] eqn:E17.
  destruct (hashPoint c17 T) as [s18 c18] eqn:E18. destruct (hashPoint c18 Sp') as [s19 c19] eqn:E19.
  destruct (hashPoint c19 K) as [s20 c20] eqn:E20. destruct (hashMpi c20 w) as [s21 c21] eqn:E21.
  destruct (mbedtls_md_finish c21) as [s22 k] eqn:E22. intros [[Hs <-]%pair_equal_spec <-]%pair_equal_spec.
  apply fold_status_zero in Hs as [-> Hs].
  repeat (apply Forall_cons in Hs as [? Hs]). subst.
  apply mpi_lset_ok in E7 as ->, E9 as ->. apply mpi_mul_ok in E10 as ->. apply mpi_mul_ok in E11 as ->.
  apply mpi_mod_ok in E12 as ->; [| apply ec_order_pos]. apply ecp_muladd_ok in E8 as ->, E13 as ->.
  rewrite ec_mul_mod, ec_mul_one in *.
  apply md_starts_ok in E15. apply hashData_ok in E16, E17. apply hashPoint_ok in E18 as [E18 ?], E19 as [E19 ?], E20 as [E20 ?].
  apply hashMpi_ok in E21 as [E21 ?].
  apply md_finish_ok in E22 as ->.
  assert (Hh : h = match password with None => (rnd_bytes rnd).2 | Some pw => sha256 pw end).
  { destruct password; [by apply sha256_ok in Eh | by rewrite Eh]. }
  rewrite <- Hh, Ew. cbn [snd]. eexists. split; [reflexivity |]. split; [done |].
  split; [| by rewrite !Forall_cons]. f_equal. rewrite E21, E20, E19, E18, E17, E16, E15. unfold transcript. cbn [map concat].
  by rewrite <- !app_assoc, app_nil_r.
Qed.

(** Both sides get the same key: when the client hid the password [password] in
    T = x*G + w*M, and all operations succeed, the device answers with S = y*G + w*N, and its key
    is the hash of the fingerprints, T, S, the password's number w and the point x*(S - w*N),
    which is what the client computes from S. *)
Lemma spake2_key_agreement rnd T password fc fd Sp key x
    (Hkey : calculateKey rnd T (Some password) fc fd = (0, Sp, key))
    (Hpair : (rnd_keypair rnd).2.2 = ec_mul (rnd_keypair rnd).2.1 ec_G)
    (HT : T = ec_add (ec_mul x ec_G)
                (ec_mul (mbedtls_mpi_read_binary (sha256 password)).2 (mbedtls_ecp_point_read_binary Mdata).2)) :
  let N := (mbedtls_ecp_point_read_binary Ndata).2 in
  let w := (mbedtls_mpi_read_binary (sha256 password)).2 in
  Sp = ec_add (ec_mul w N) (ec_mul (rnd_keypair rnd).2.1 ec_G) /\
  key = sha256 (transcript [fc; fd; point_bytes T; point_bytes Sp;
                            point_bytes (ec_mul x (ec_add Sp (ec_mul (- w) N))); mpi_bytes w]).
Proof.
  apply calculateKey_ok in Hkey. destruct (rnd_keypair rnd) as [s [y Y]]. cbn [fst snd] in *. subst Y.
  destruct Hkey as (K & HK & HS & Hk & _). cbn zeta in *.
  set (w := (mbedtls_mpi_read_binary (sha256 password)).2) in *.
  set (M := (mbedtls_ecp_point_read_binary Mdata).2) in *. set (N := (mbedtls_ecp_point_read_binary Ndata).2) in *.
  split; [done |]. rewrite Hk. do 2 f_equal. do 4 f_equal. f_equal.
  rewrite HK, HT, ec_unmask, HS, (ec_add_comm (ec_mul w N)), <- ec_add_assoc, <- ec_mul_plus.
  by rewrite Z.add_opp_diag_r, ec_mul_zero, ec_add_zero, ec_mul_mul, Z.mul_comm.
Qed.

(** *** The transcript *)

Lemma bytes_of_length_inj m n :
  is_uint 32 m -> is_uint 32 n ->
  [u8 (Z.shiftr m 24); u8 (Z.shiftr m 16); u8 (Z.shiftr m 8); u8 m] =
  [u8 (Z.shiftr n 24); u8 (Z.shiftr n 16); u8 (Z.shiftr n 8); u8 n] -> m = n.
Proof.
  intros Hm Hn [= E1 E2 E3 E4]. revert E1 E2 E3 E4. rewrite !Z.shiftr_div_pow2 by lia. divlia.
Qed.

Lemma field_inj a b ra rb :
  is_uint 32 (Z.of_nat (length a)) -> is_uint 32 (Z.of_nat (length b)) ->
  field a ++ ra = field b ++ rb -> a = b /\ ra = rb.
Proof.
  intros Ha Hb. unfold field. rewrite !u32_small by done. rewrite <- !app_assoc.
  intros [E1 E2]%app_inj_1; [| done]. apply bytes_of_length_inj in E1; [| done | done].
  apply app_inj_1 in E2; [done | lia].
Qed.

Lemma transcript_inj (fields : list (list Z)) : forall fields',
  Forall short fields -> Forall short fields' -> length fields = length fields' ->
  transcript fields = transcript fields' -> fields = fields'.
Proof.
  unfold transcript, short. induction fields as [| d fields IH]; intros [| d' fields'] Hf Hf' Hlen Heq; try done.
  apply Forall_cons in Hf as [Hd Hf], Hf' as [Hd' Hf']. cbn [map concat] in Heq.
  apply field_inj in Heq as [-> Heq]; [| unfold_ints; eval_pows; lia | unfold_ints; eval_pows; lia].
  f_equal. apply IH; [done | done | by injection Hlen | done].
Qed.

(** A key is bound to its exchange: two exchanges that end with the same key had the same
    fingerprints, the same points T and S and the same password number, unless their two
    transcripts are a collision of the hash function. *)
Lemma spake2_key_binding rnd T password fc fd Sp rnd' T' password' fc' fd' Sp' key
    (Hk : calculateKey rnd T (Some password) fc fd = (0, Sp, key))
    (Hk' : calculateKey rnd' T' (Some password') fc' fd' = (0, Sp', key))
    (Hfc : length fc = 32%nat) (Hfd : length fd = 32%nat) (Hfc' : length fc' = 32%nat) (Hfd' : length fd' = 32%nat) :
  (fc = fc' /\ fd = fd' /\ point_bytes T = point_bytes T' /\ point_bytes Sp = point_bytes Sp' /\
   mpi_bytes (mbedtls_mpi_read_binary (sha256 password)).2 = mpi_bytes (mbedtls_mpi_read_binary (sha256 password')).2) \/
  exists K K' : P,
    let t := transcript [fc; fd; point_bytes T; point_bytes Sp; point_bytes K;
                         mpi_bytes (mbedtls_mpi_read_binary (sha256 password)).2] in
    let t' := transcript [fc'; fd'; point_bytes T'; point_bytes Sp'; point_bytes K';
                          mpi_bytes (mbedtls_mpi_read_binary (sha256 password')).2] in
    key = sha256 t /\ t <> t' /\ sha256 t = sha256 t'.
Proof.
  apply calculateKey_ok in Hk, Hk'. destruct (rnd_keypair rnd) as [? [y Y]], (rnd_keypair rnd') as [? [y' Y']].
  cbn zeta in *. cbn [snd] in *. destruct Hk as (K & _ & _ & Hk & Hs), Hk' as (K' & _ & _ & Hk' & Hs').
  match type of Hk with key = sha256 ?t => match type of Hk' with key = sha256 ?t' =>
    destruct (decide (t = t')) as [Heq | Hne] end end.
  - left. apply transcript_inj in Heq as [= ? ? ? ? ? ?]; [done | ..]; [| | done];
      (constructor; [unfold short; lia | constructor; [unfold short; lia | done]]).
  - right. exists K, K'. cbn zeta. split; [done |]. split; [done | congruence].
Qed.

(** ** The confirmation *)

(** C30. The confirmation of a key: a request is answered with 2.01 exactly when a handler is
    registered, it is one of the first six requests of the connection, a key has been computed on the
    connection, and the payload is the hash of the hash of that key; the answer then is the hash
    of the key. Otherwise the code tells which of these fails, in this order. *)
Theorem spake2_confirmation_iff spake2 payload request connection
    (Hsha : forall b, (mbedtls_sha256_ret b).1 = 0)
    (Hcount : is_uint 64 (cc_passwordAuthenticationRequests connection + 1))
    (Hkey : length (cc_spake2Key connection) = 32%nat) :
  let key := cc_spake2Key connection in
  let answer :=
    if bool_decide (sp_passwordRequestHandler spake2 = None) then SpError request (COAP_CODE 4 4)
    else if bool_decide (6 <= cc_passwordAuthenticationRequests connection) then SpError request (COAP_CODE 4 29)
    else if negb (match payload with Some p => (length p =? 32)%nat | None => false end) || negb (cc_hasSpake2Key connection)
    then SpError request (COAP_CODE 4 0)
    else if bool_decide (payload = Some (sha256 (sha256 key))) then SpResponse request 201 (sha256 key)
    else SpError request (COAP_CODE 4 1) in
  trace (nc_spake2_handle_coap_2 spake2 payload request) connection = [answer; SpRequestFree request].
Proof.
  cbn zeta. unfold nc_spake2_handle_coap_2. rewrite trace_hmod, trace_hget, trace_seq.
  change (trace (emit (SpRequestFree request)) ?s) with [SpRequestFree request].
  destruct connection as [? ? ? ? ? ? ? has key ? n]. cbn [cc_passwordAuthenticationRequests] in *. cbn.
  unfold constant. cbn in Hkey. rewrite u64_small by done.
  destruct (sp_passwordRequestHandler spake2); [| done]. rewrite (bool_decide_eq_false_2 (Some _ = None)) by done.
  change NC_SPAKE2_MAX_PASSWORD_AUTHENTICATION_REQUESTS with 6.
  destruct (Z.ltb_spec 6 (n + 1)); [by rewrite bool_decide_eq_true_2 by lia |]. rewrite bool_decide_eq_false_2 by lia.
  destruct payload as [p |]; [| done]. destruct (length p =? 32)%nat; [| done]. destruct has; [| done]. cbn [negb orb].
  rewrite take_ge by lia. destruct (mbedtls_sha256_ret key) as [s1 h1] eqn:E1. pose proof (Hsha key) as Hs. rewrite E1 in Hs.
  cbn in Hs. subst s1. apply sha256_ok in E1 as ->. rewrite take_ge by (by rewrite sha256_length).
  destruct (mbedtls_sha256_ret (sha256 key)) as [s2 h2] eqn:E2. pose proof (Hsha (sha256 key)) as Hs. rewrite E2 in Hs.
  cbn in Hs. subst s2. apply sha256_ok in E2 as ->.
  destruct (decide (p = sha256 (sha256 key))) as [-> | Hne].
  - by rewrite bool_decide_eq_false_2, bool_decide_eq_true_2 by naive_solver.
  - by rewrite bool_decide_eq_true_2, bool_decide_eq_false_2 by naive_solver.
Qed.

(** ** The requests of the API (nabto_device_password_authentication.c) *)

Record nabto_device_password_authentication_request : Type := mk_pa {
  pa_passwordRequest : nc_spake2_password_request;
  pa_handled : bool
}.

(** [PaReady]: the call of [nc_spake2_password_ready]. *)
Inductive password_call : Type :=
| PaAddEvent (listener : nat) (r : nabto_device_password_authentication_request)
| PaReady (req : nc_spake2_password_request) (password : option (list Z))
| PaFree.

Definition pa_handler (A : Type) : Type := handler nabto_device_password_authentication_request password_call A.

(** [added]: the answer of [nabto_device_listener_add_event]. The caller ignores the result. *)
Definition password_request_handler (req : nc_spake2_password_request) (data : nat) (allocated : bool)
    (added : np_error_code) : np_error_code * list password_call :=
  if negb allocated then (NABTO_EC_OUT_OF_MEMORY, [])
  else (added, [PaAddEvent data (mk_pa req false)]).

Definition nabto_device_password_authentication_request_get_username : pa_handler (option (list Z)) :=
  let* req := hget in
  hret (if pa_handled req then None else Some (cstr (pr_username (pa_passwordRequest req)))).

Definition nabto_device_password_authentication_request_set_password (password : option (list Z)) :
    pa_handler np_error_code :=
  let* req := hget in
  if pa_handled req then hret NABTO_EC_INVALID_STATE
  else
    emit (PaReady (pa_passwordRequest req) password) ;;;
    hmod (fun req => req {{ pa_handled := true }}) ;;;
    hret NABTO_EC_OK.

Definition nabto_device_password_authentication_request_free : pa_handler unit :=
  let* req := hget in
  (if negb (pa_handled req) then emit (PaReady (pa_passwordRequest req) None) else hskip) ;;;
  emit PaFree.

(** What the application may do with a request before it frees it. *)
Inductive password_op : Type := PoUsername | PoPassword (password : option (list Z)).

Fixpoint password_ops (ops : list password_op) : pa_handler unit :=
  match ops with
  | [] => nabto_device_password_authentication_request_free
  | PoUsername :: ops => nabto_device_password_authentication_request_get_username ;;; password_ops ops
  | PoPassword p :: ops => nabto_device_password_authentication_request_set_password p ;;; password_ops ops
  end.

(** The first password that is set. *)
Fixpoint first_password (ops : list password_op) : option (list Z) :=
  match ops with
  | [] => None
  | PoUsername :: ops => first_password ops
  | PoPassword p :: _ => p
  end.

(** Whatever the application does, the key exchange continues exactly once: with the first
    password that is set, or with none - that is with a random key - when the request is freed. *)
Lemma password_request_answered_once ops : forall req h,
  trace (password_ops ops) (mk_pa req h) = (if h then [] else [PaReady req (first_password ops)]) ++ [PaFree].
Proof.
  induction ops as [| [| p] ops IH]; intros req h; cbn [password_ops first_password].
  - by destruct h.
  - rewrite trace_seq. apply IH.
  - unfold nabto_device_password_authentication_request_set_password. rewrite trace_seq, trace_hget, exec_hget.
    cbn [pa_handled]. destruct h; [apply (IH req true) |]. cbn. unfold constant. by rewrite (IH req true).
Qed.
End Spake2.

(** ** Witnesses *)

(** The group of two elements, and a checksum for the hash. *)
Definition toy_hash (b : list Z) : list Z := replicate 31 0 ++ [u8 (foldr Z.add 0 b)].

Definition toy_mbedtls : Mbedtls bool (list Z) := {|
  mbedtls_ecp_group_load := 0;
  grp_N := 2;
  mbedtls_ecp_point_init := false;
  mbedtls_ecp_point_read_binary := fun b => (0, Z.odd (List.last b 0));
  mbedtls_ecp_point_write_binary := fun p => (0, [4; if p : bool then 1 else 0]);
  mbedtls_ecp_muladd := fun m p n q => (0, xorb (Z.odd m && p) (Z.odd n && q));
  mbedtls_mpi_lset := fun z => (0, z);
  mbedtls_mpi_mul_mpi := fun x y => (0, x * y);
  mbedtls_mpi_mod_mpi := fun x n => (0, x mod n);
  mbedtls_mpi_read_binary := fun b => (0, List.last b 0);
  mbedtls_mpi_size := fun n => 1;
  mbedtls_mpi_write_binary := fun n s => if s =? 1 then (0, [u8 n]) else (-8, []);
  mbedtls_sha256_ret := fun b => (0, toy_hash b);
  mbedtls_md_init := [];
  mbedtls_md_setup := fun c => (0, c);
  mbedtls_md_starts := fun c => (0, []);
  mbedtls_md_update := fun c b => (0, c ++ b);
  mbedtls_md_finish := fun c => (0, toy_hash c)
|}.

Lemma toy_mbedtls_laws : @MbedtlsLaws bool (list Z) toy_mbedtls.
Proof.
  refine (@Build_MbedtlsLaws bool (list Z) toy_mbedtls xorb (fun k p => Z.odd k && p) false true toy_hash (fun c => c)
    _ _ _ _ _ _ _ _ _ _ _ _ _ _ _ _ _ _ _ _ _ _); cbn.
  - by intros [] [] [].
  - by intros [] [].
  - by intros [].
  - done.
  - done.
  - intros m n a. rewrite Z.odd_add. by destruct (Z.odd m), (Z.odd n), a.
  - intros m a b. by destruct (Z.odd m), a, b.
  - intros m n a. rewrite Z.odd_mul. by destruct (Z.odd m), (Z.odd n), a.
  - done.
  - lia.
  - by intros m p n q r [= <-].
  - by intros z r [= <-].
  - by intros x y r [= <-].
  - by intros x n r _ [= <-].
  - intros p r [= <-]. cbn. lia.
  - intros n s r. destruct (Z.eqb_spec s 1); [| done]. by intros [= <-].
  - by intros b r [= <-].
  - done.
  - intros b. change (bytes (replicate 31 0 ++ [u8 (foldr Z.add 0 b)])). apply Forall_app. split; [by_compute |]. apply Forall_singleton, u8_byte.
  - by intros c r [= <-].
  - by intros c b r [= <-].
  - by intros c r [= <-].
Defined.

#[local] Existing Instance toy_mbedtls.
#[local] Existing Instance toy_mbedtls_laws.
#[local] Instance toy_cbor : CborDec tree := tree_dec (fun _ => TreeInvalid).

Definition example_rnd : randomness bool := mk_rnd 0 (0, (3, true)) (0, []).
Definition fp (n : Z) : list Z := replicate 32 n.


Lemma spake2_key_agreement_witness :
  exists key, calculateKey example_rnd true (Some [1; 2]) (fp 1) (fp 2) = (0, false, key).
Proof.
  destruct (calculateKey example_rnd true (Some [1; 2]) (fp 1) (fp 2)) as [[s Sp] key] eqn:E.
  assert (Es : s = 0) by (pose proof (f_equal (fun r => r.1.1) E) as Es; vm_compute in Es; exact (eq_sym Es)). subst s.
  destruct (spake2_key_agreement (MbedtlsLaws0 := toy_mbedtls_laws) example_rnd true [1; 2] (fp 1) (fp 2) Sp key 1 E
    ltac:(vm_compute; reflexivity) ltac:(vm_compute; reflexivity)) as [HS _].
  exists key. rewrite HS. vm_compute. reflexivity.
Defined.

Lemma spake2_key_binding_witness :
  let run := calculateKey example_rnd true (Some [1; 2]) (fp 1) (fp 2) in
  (fp 1 = fp 1 /\ fp 2 = fp 2) \/ exists t t', t <> t' /\ toy_hash t = toy_hash t' /\ run.2 = toy_hash t.
Proof.
  cbn zeta. destruct (calculateKey example_rnd true (Some [1; 2]) (fp 1) (fp 2)) as [[s Sp] key] eqn:E.
  assert (Es : s = 0) by (pose proof (f_equal (fun r => r.1.1) E) as Es; vm_compute in Es; exact (eq_sym Es)). subst s.
  destruct (spake2_key_binding example_rnd true [1; 2] (fp 1) (fp 2) Sp example_rnd true [1; 2] (fp 1) (fp 2) Sp key
    E E eq_refl eq_refl eq_refl eq_refl) as [(H1 & H2 & _) | (K & K' & Hk & Hne & Hc)].
  - left. exact (conj H1 H2).
  - right. eexists _, _. exact (conj Hne (conj Hc Hk)).
Defined.

Definition key_conn : nc_client_connection := zero_conn {{ cc_hasSpake2Key := true; cc_spake2Key := fp 7 }}.

Lemma spake2_confirmation_iff_witness :
  trace (nc_spake2_handle_coap_2 (P := bool) (mk_spake2 (Some 1%nat)) (Some (toy_hash (toy_hash (fp 7)))) 5) key_conn =
    [SpResponse 5 201 (toy_hash (fp 7)); SpRequestFree 5] /\
  trace (nc_spake2_handle_coap_2 (P := bool) (mk_spake2 (Some 1%nat)) (Some (fp 7)) 5) key_conn =
    [SpError 5 (COAP_CODE 4 1); SpRequestFree 5].
Proof.
  split.
  - rewrite (spake2_confirmation_iff (MbedtlsLaws0 := toy_mbedtls_laws) (mk_spake2 (Some 1%nat)) (Some (toy_hash (toy_hash (fp 7)))) 5 key_conn
      (fun b => eq_refl) ltac:(by_compute) eq_refl). reflexivity.
  - rewrite (spake2_confirmation_iff (MbedtlsLaws0 := toy_mbedtls_laws) (mk_spake2 (Some 1%nat)) (Some (fp 7)) 5 key_conn
      (fun b => eq_refl) ltac:(by_compute) eq_refl). reflexivity.
Defined.

(** A key calculation that fails overwrites the key of the one before, and leaves it in use. *)
Example failed_exchange_keeps_flag :
  let bad := mk_rnd (P := bool) (-52) (0, (3, true)) (0, []) in
  let c := exec (nc_spake2_password_ready (P := bool) true bad (fp 1) (fp 2) (mk_pr [] true 5) (Some [1])) key_conn in
  cc_hasSpake2Key c = true /\ cc_spake2Key c <> cc_spake2Key key_conn.
Proof. split; [reflexivity | vm_compute; discriminate]. Qed.
