(* ===== verification/Dtls.v ===== *)
(** * DTLS: the interface of mbedTLS, the timer, keys (nm_mbedtls_timer.c, nm_mbedtls_util.c)

    mbedTLS, third-party code, calls back while one of its functions runs: to send and to receive
    a datagram, and to set and to ask a timer. A call of the library is therefore a program whose
    instructions are these callbacks; running it interleaves the code of the SDK. *)

From S2P Require Import Prelude Platform EventQueue.

#[local] Open Scope Z_scope.
#[local] Open Scope list_scope.
#[local] Open Scope handler_scope.

Inductive sslState : Type := CONNECTING | DATA | CLOSING.

#[global] Instance sslState_eq : EqDecision sslState.
Proof. solve_decision. Defined.

Definition is_closing (s : sslState) : bool := match s with CLOSING => true | _ => false end.

(** ** The library *)

Definition MBEDTLS_ERR_SSL_WANT_READ : Z := -0x6900.
Definition MBEDTLS_ERR_SSL_WANT_WRITE : Z := -0x6880.
Definition MBEDTLS_ERR_SSL_TIMEOUT : Z := -0x6800.
Definition MBEDTLS_ERR_SSL_BAD_INPUT_DATA : Z := -0x7100.
Definition MBEDTLS_ERR_SSL_PEER_CLOSE_NOTIFY : Z := -0x7880.
Definition MBEDTLS_ERR_SSL_FATAL_ALERT_MESSAGE : Z := -0x7780.
Definition MBEDTLS_SSL_ALERT_MSG_ACCESS_DENIED : Z := 49.

Inductive ssl_prog (A : Type) : Type :=
| SslRet (a : A)
| SslSend (buffer : list Z) (k : Z -> ssl_prog A)
| SslRecv (bufferSize : nat) (k : Z + list Z -> ssl_prog A)
| SslSetDelay (intermediate final : Z) (k : ssl_prog A)
| SslGetDelay (k : Z -> ssl_prog A).
Arguments SslRet {A} a.
Arguments SslSend {A} buffer k.
Arguments SslRecv {A} bufferSize k.
Arguments SslSetDelay {A} intermediate final k.
Arguments SslGetDelay {A} k.

(** Reading yields what it returns and what is in the buffer then. *)
Class MbedtlsSsl (L : Type) : Type := {
  mbedtls_ssl_handshake : L -> ssl_prog (Z * L);
  mbedtls_ssl_read : L -> ssl_prog (Z * list Z * L);
  mbedtls_ssl_write : L -> list Z -> ssl_prog (Z * L);
  mbedtls_ssl_close_notify : L -> ssl_prog (Z * L);
  mbedtls_ssl_session_reset : L -> ssl_prog (Z * L);
  ssl_in_ctr : L -> Z;                            (* *((uint64_t* )ssl.in_ctr) *)
  ssl_in_msg_1 : L -> Z                           (* ssl.in_msg[1] *)
}.

(** All datagrams a program sends have a property, and the documented behaviour of the library:
    what it sends are records, which are never empty, and resetting a session sends nothing. *)
Fixpoint ssl_sends {A} (P : list Z -> Prop) (p : ssl_prog A) : Prop :=
  match p with
  | SslRet _ => True
  | SslSend b k => P b /\ forall r, ssl_sends P (k r)
  | SslRecv _ k => forall r, ssl_sends P (k r)
  | SslSetDelay _ _ k => ssl_sends P k
  | SslGetDelay k => forall r, ssl_sends P (k r)
  end.

Class MbedtlsSslLaws (L : Type) `{MbedtlsSsl L} : Prop := {
  ssl_handshake_sends : forall l, ssl_sends (fun b => b <> []) (mbedtls_ssl_handshake l);
  ssl_read_sends : forall l, ssl_sends (fun b => b <> []) (mbedtls_ssl_read l);
  ssl_write_sends : forall l b, ssl_sends (fun b => b <> []) (mbedtls_ssl_write l b);
  ssl_close_notify_sends : forall l, ssl_sends (fun b => b <> []) (mbedtls_ssl_close_notify l);
  ssl_session_reset_sends : forall l, ssl_sends (fun b => False) (mbedtls_ssl_session_reset l)
}.

(** Running a program with the callbacks it was given. *)
Section Run.
Context {S E A : Type}.
Variable send : list Z -> uhandler S E Z.
Variable recv : nat -> uhandler S E (Z + list Z).
Variable set_delay : Z -> Z -> uhandler S E unit.
Variable get_delay : uhandler S E Z.

Fixpoint ssl_run (p : ssl_prog A) : uhandler S E A :=
  match p with
  | SslRet a => ulift (hret a)
  | SslSend b k => let+ r := send b in ssl_run (k r)
  | SslRecv n k => let+ r := recv n in ssl_run (k r)
  | SslSetDelay i f k => let+ _ := set_delay i f in ssl_run k
  | SslGetDelay k => let+ r := get_delay in ssl_run (k r)
  end.

(** What holds of every callback, and of doing nothing, and of one thing after another, holds of
    every call of the library. *)
Lemma ssl_run_rel_on (P : list Z -> Prop) (R : S -> S -> list E -> Prop) :
  (forall s, R s s []) ->
  (forall s1 s2 s3 t t', R s1 s2 t -> R s2 s3 t' -> R s1 s3 (t ++ t')) ->
  (forall b s a s' t, P b -> send b s = Def (a, s', t) -> R s s' t) ->
  (forall n s a s' t, recv n s = Def (a, s', t) -> R s s' t) ->
  (forall i f s a s' t, set_delay i f s = Def (a, s', t) -> R s s' t) ->
  (forall s a s' t, get_delay s = Def (a, s', t) -> R s s' t) ->
  forall p s a s' t, ssl_sends P p -> ssl_run p s = Def (a, s', t) -> R s s' t.
Proof.
  intros Hrefl Htrans Hsend Hrecv Hset Hget.
  induction p as [a | b k IH | n k IH | i f k IH | k IH]; intros s a' s' t Hp Hr; cbn [ssl_run ssl_sends] in Hr, Hp;
    [injection Hr as <- <- <-; apply Hrefl | apply ubind_inv in Hr as (r & s1 & t1 & t2 & H1 & H2 & ->) ..];
    [destruct Hp | ..]; eauto.
Qed.

Lemma ssl_sends_any (p : ssl_prog A) : ssl_sends (fun _ => True) p.
Proof. induction p; cbn; auto. Qed.

Lemma ssl_run_rel (R : S -> S -> list E -> Prop) :
  (forall s, R s s []) ->
  (forall s1 s2 s3 t t', R s1 s2 t -> R s2 s3 t' -> R s1 s3 (t ++ t')) ->
  (forall b s a s' t, send b s = Def (a, s', t) -> R s s' t) ->
  (forall n s a s' t, recv n s = Def (a, s', t) -> R s s' t) ->
  (forall i f s a s' t, set_delay i f s = Def (a, s', t) -> R s s' t) ->
  (forall s a s' t, get_delay s = Def (a, s', t) -> R s s' t) ->
  forall p s a s' t, ssl_run p s = Def (a, s', t) -> R s s' t.
Proof. intros Hrefl Htrans Hsend Hrecv Hset Hget p s a s' t. eapply ssl_run_rel_on; eauto using ssl_sends_any. Qed.
End Run.

(** ** The timer *)

Record nm_mbedtls_timer : Type := mk_timer {
  tm_intermediateTp : Z;
  tm_finalTp : Z
}.

Inductive timer_call : Type :=
| TimerCancel
| TimerPost (milliseconds : Z).

Definition nm_mbedtls_timer_init : nm_mbedtls_timer := mk_timer 0 0.

Definition nm_mbedtls_timer_cancel : handler nm_mbedtls_timer timer_call unit := emit TimerCancel.

(** [now]: what the clock shows. *)
Definition nm_mbedtls_timer_set_delay (now intermediateMilliseconds finalMilliseconds : Z) :
    handler nm_mbedtls_timer timer_call unit :=
  if finalMilliseconds =? 0 then
    emit TimerCancel ;;; hmod (fun ctx => ctx {{ tm_finalTp := 0 }})
  else
    hmod (fun ctx => ctx {{ tm_intermediateTp := np_timestamp_future now intermediateMilliseconds }}) ;;;
    hmod (fun ctx => ctx {{ tm_finalTp := np_timestamp_future now finalMilliseconds }}) ;;;
    emit TimerCancel ;;;
    emit (TimerPost finalMilliseconds).

#[local] Open Scope c_scope.

Definition nm_mbedtls_timer_get_delay (now : Z) (ctx : nm_mbedtls_timer) : cres Z :=
  if negb (tm_finalTp ctx =? 0) then
    let! passed := np_timestamp_passed_or_now now (tm_finalTp ctx) in
    if passed : bool then Def 2
    else
      let! passed := np_timestamp_passed_or_now now (tm_intermediateTp ctx) in
      if passed : bool then Def 1 else Def 0
  else Def (-1).

(** ** Keys and certificates (nm_mbedtls_util.c)

    The statuses of the library's functions, and what they write, are arguments. *)

(** [len]: what [mbedtls_pk_write_pubkey_der] answers, [der] the bytes it writes to the end of the
    buffer; the status of the hash is ignored. *)
Definition nm_dtls_util_fp_from_crt (len : Z) (der : list Z) (sha256 : list Z -> Z * list Z) : np_error_code * list Z :=
  if len <=? 0 then (NABTO_EC_UNKNOWN, [])
  else (NABTO_EC_OK, (sha256 der).2).

Definition nm_dtls_create_crt_from_private_key_inner
    (seed parse serial subject issuer validity constraints pem : Z) (duplicate : option (list Z)) :
    np_error_code * option (list Z) :=
  if negb (seed =? 0) then (NABTO_EC_UNKNOWN, None)
  else if negb (parse =? 0) then (NABTO_EC_UNKNOWN, None)
  else if negb (serial =? 0) then (NABTO_EC_UNKNOWN, None)
  else if negb (subject =? 0) then (NABTO_EC_UNKNOWN, None)
  else if negb (issuer =? 0) then (NABTO_EC_UNKNOWN, None)
  else if negb (validity =? 0) then (NABTO_EC_UNKNOWN, None)
  else if negb (constraints =? 0) then (NABTO_EC_UNKNOWN, None)
  else if negb (pem =? 0) then (NABTO_EC_OK, None)                     (* return false *)
  else
    match duplicate with
    | None => (NABTO_EC_UNKNOWN, None)
    | Some publicKey => (NABTO_EC_OK, Some publicKey)
    end.

Definition nm_dtls_get_fingerprint_from_private_key (parse len : Z) (der : list Z) (sha256 : list Z -> Z * list Z) :
    np_error_code * list Z :=
  if negb (parse =? 0) then (NABTO_EC_UNKNOWN, [])
  else if len <=? 0 then (NABTO_EC_UNKNOWN, [])
  else
    let '(ret, hash) := sha256 der in
    if negb (ret =? 0) then (NABTO_EC_UNKNOWN, hash) else (NABTO_EC_OK, hash).

Definition nm_dtls_util_create_private_key (seed setup gen_key write_pem : Z) (duplicate : option (list Z)) :
    np_error_code * option (list Z) :=
  if negb (seed =? 0) || negb (setup =? 0) || negb (gen_key =? 0) || negb (write_pem =? 0)
  then (NABTO_EC_UNKNOWN, None)
  else (NABTO_EC_OK, duplicate).

(** A certificate that cannot be written is reported as a success. *)
Example crt_write_error_is_ok :
  nm_dtls_create_crt_from_private_key_inner 0 0 0 0 0 0 0 (-1) (Some [1]) = (NABTO_EC_OK, None).
Proof. reflexivity. Qed.

(** ** Theorems about the timer *)

Lemma passed_after now d e :
  is_uint 32 now -> 0 <= d < 2 ^ 31 -> 0 <= e < 2 ^ 31 ->
  to_int32 now + d < 2 ^ 31 -> to_int32 now + e < 2 ^ 31 ->
  np_timestamp_passed_or_now (u32 (now + e)) (np_timestamp_future now d) = Def (d <=? e).
Proof.
  intros Hn Hd He Hwd Hwe. unfold np_timestamp_passed_or_now, np_timestamp_future.
  pose proof (to_int32_range now) as Hr.
  assert (Hx : forall x, 0 <= x < 2 ^ 31 -> to_int32 now + x < 2 ^ 31 -> to_int32 (u32 (now + x)) = to_int32 now + x).
  { intros x Hx Hw. rewrite to_int32_add by done. by rewrite (proj2 (Z.ltb_lt _ _)). }
  unfold np_timestamp_less_or_equal. rewrite !Hx by done.
  rewrite sub_int32_small by (unfold INT32_MIN, INT32_MAX; lia). cbn [cres_bind]. f_equal.
  destruct (Z.leb_spec (to_int32 now + d - (to_int32 now + e)) 0), (Z.leb_spec d e); lia.
Qed.

(** The timer that mbedTLS is given: asked [e] ms after it was set, it answers 0 before the
    intermediate delay is over, 1 before the final one is, 2 after it, and -1 when it was switched off; this
    needs clocks that do not cross 2^31 between, and a final time that is not 0: a timer that
    ends at time 0 counts as switched off. *)
Lemma timer_delay_correct now int fin e tm
    (Hnow : is_uint 32 now) (Hint : 0 <= int <= fin) (Hfin : fin < 2 ^ 31) (He : 0 <= e < 2 ^ 31)
    (Hwrap : to_int32 now + Z.max fin e < 2 ^ 31) :
  nm_mbedtls_timer_get_delay (u32 (now + e)) (exec (nm_mbedtls_timer_set_delay now int fin) tm) =
    Def (if (fin =? 0) || (u32 (now + fin) =? 0) then -1 else if fin <=? e then 2 else if int <=? e then 1 else 0).
Proof.
  unfold nm_mbedtls_timer_set_delay. destruct (Z.eqb_spec fin 0) as [-> | Hf0]; [done |]. cbn [orb].
  unfold nm_mbedtls_timer_get_delay. destruct tm as [i0 f0]. cbn -[np_timestamp_future]. unfold constant.
  unfold np_timestamp_future at 1. destruct (u32 (now + fin) =? 0); [done |]. cbn [negb].
  rewrite !passed_after by first [exact Hnow | lia]. cbn [cres_bind].
  destruct (fin <=? e); [done |]. by destruct (int <=? e).
Qed.

Lemma timer_delay_correct_witness :
  nm_mbedtls_timer_get_delay (u32 (1000 + 50)) (exec (nm_mbedtls_timer_set_delay 1000 40 100) (mk_timer 0 0)) = Def 1 /\
  nm_mbedtls_timer_get_delay (u32 (2 ^ 32 - 100 + 5)) (exec (nm_mbedtls_timer_set_delay (2 ^ 32 - 100) 40 100) (mk_timer 0 0)) = Def (-1).
Proof.
  split.
  - rewrite (timer_delay_correct 1000 40 100 50) by (vm_compute; intuition congruence). reflexivity.
  - rewrite (timer_delay_correct (2 ^ 32 - 100) 40 100 5) by (vm_compute; intuition congruence). reflexivity.
Defined.

(** ** A small library *)

(** It shakes hands on any packet, reads what it receives - an end of file for the packet [0], an error for
    [255] -,
    writes in the clear behind a header, and refuses more than 100 bytes. *)
Definition plain_ssl : MbedtlsSsl unit := {|
  mbedtls_ssl_handshake := fun l =>
    SslRecv 1500 (fun r => SslRet (match r with inl e => e | inr _ => 0 end, l));
  mbedtls_ssl_read := fun l =>
    SslRecv 1500 (fun r =>
      SslRet (match r with
              | inl e => (e, [])
              | inr d => (if bool_decide (d = [0]) then 0 else if bool_decide (d = [255]) then -1
                          else Z.of_nat (length d), d)
              end, l));
  mbedtls_ssl_write := fun l b =>
    if (100 <? length b)%nat then SslRet (MBEDTLS_ERR_SSL_BAD_INPUT_DATA, l) else SslSend (23 :: b) (fun r => SslRet (r, l));
  mbedtls_ssl_close_notify := fun l => SslSend [21] (fun r => SslRet (r, l));
  mbedtls_ssl_session_reset := fun l => SslSetDelay 0 0 (SslRet (0, l));
  ssl_in_ctr := fun _ => 0;
  ssl_in_msg_1 := fun _ => 0
|}.

Lemma plain_ssl_laws : @MbedtlsSslLaws unit plain_ssl.
Proof.
  split; intros; cbn -[Nat.ltb]; [done | done | | by split | done].
  destruct (100 <? length b)%nat; [done | by split].
Qed.
