(* ===== verification/DtlsServer.v ===== *)
(** * DTLS server connections (nm_mbedtls_srv.c)

    A connection feeds received packets to mbedTLS, sends what the library wants to send, one
    datagram at a time, queues the data of the users, and tells the client connection about the
    end of the handshake and of the connection. The event queue, the sender, and the users'
    callbacks are the trace; events that run and sends that complete are inputs. *)

From S2P Require Import Prelude Platform KeepAlive EventQueue ClientConnection Dtls.
From stdpp Require Import sets.

#[local] Open Scope Z_scope.
#[local] Open Scope list_scope.
#[local] Open Scope handler_scope.

Section DtlsServer.
Context {L : Type} `{MbedtlsSsl L}.

Record np_dtls_srv_send_context : Type := mk_sc {
  sc_buffer : list Z;
  sc_channelId : Z;
  sc_cb : option nat
}.

(** [ds_now] and [ds_answers] are not fields of the structure: what the clock shows, and what the
    sender will answer to the next datagrams (success when the list is empty). *)
Record np_dtls_srv_connection : Type := mk_ds {
  ds_state : sslState;
  ds_ssl : L;
  ds_currentChannelId : Z;
  ds_recvBuffer : list Z;
  ds_recvBufferSize : nat;
  ds_sslSendBuffer : list Z;
  ds_sslSendBufferSize : nat;
  ds_timer : nm_mbedtls_timer;
  ds_closeCb : option nat;
  ds_recvCount : Z;
  ds_sentCount : Z;
  ds_sendList : list np_dtls_srv_send_context;
  ds_deferredEvent : np_dtls_srv_event;
  ds_sending : bool;
  ds_channelId : Z;
  ds_now : Z;
  ds_answers : list np_error_code
}.

(** [DsLogEof] is the log line of an end of file. [DsDestroyed]: the events, the buffers and the
    structure are gone. *)
Inductive srv_call : Type :=
| DsSend (channelId : Z) (data : list Z) (ec : np_error_code)
| DsData (channelId sequence : Z) (data : list Z)
| DsEvent (event : np_dtls_srv_event)
| DsSendCb (cb : nat) (ec : np_error_code)
| DsCloseCb (cb : nat) (ec : np_error_code)
| DsPostStartSend
| DsPostDeferred
| DsPostClose
| DsCancelStartSend
| DsCancelDeferred
| DsCancelClose
| DsTimer (c : timer_call)
| DsLogEof
| DsDestroyed.

Definition ds_handler (A : Type) : Type := handler np_dtls_srv_connection srv_call A.
Definition ds_uhandler (A : Type) : Type := uhandler np_dtls_srv_connection srv_call A.

(** A call of the timer's functions. *)
Definition ds_on_timer (m : handler nm_mbedtls_timer timer_call unit) : ds_handler unit :=
  fun ctx => let '(_, tm, t) := m (ds_timer ctx) in (tt, ctx {{ ds_timer := tm }}, map DsTimer t).

(** ** Callbacks of mbedTLS *)

(** The bytes go to the send buffer before the sender gets them. *)
Definition nm_mbedtls_srv_mbedtls_send (buffer : list Z) : ds_uhandler Z :=
  let+ ctx := ulift hget in
  if negb (ds_sending ctx) then
    ulift (hmod (fun ctx => ctx {{ ds_sslSendBuffer := buffer; ds_sslSendBufferSize := length buffer;
                                   ds_sending := true }}) ;;;
           hmod (fun ctx => ctx {{ ds_answers ::= tail }}) ;;;
           let ec := default NABTO_EC_OK (head (ds_answers ctx)) in
           emit (DsSend (ds_channelId ctx) buffer ec) ;;;
           if is_error ec then
             hmod (fun ctx => ctx {{ ds_sending := false; ds_sslSendBufferSize := 0%nat }}) ;;;
             hret MBEDTLS_ERR_SSL_WANT_WRITE
           else hret (Z.of_nat (length buffer)))
  else ulift (hret MBEDTLS_ERR_SSL_WANT_WRITE).

Definition nm_mbedtls_srv_mbedtls_recv (bufferSize : nat) : ds_uhandler (Z + list Z) :=
  let+ ctx := ulift hget in
  if (ds_recvBufferSize ctx =? 0)%nat then ulift (hret (inl MBEDTLS_ERR_SSL_WANT_READ))
  else
    let maxCp := if (ds_recvBufferSize ctx <? bufferSize)%nat then ds_recvBufferSize ctx else bufferSize in
    ulift (hmod (fun ctx => ctx {{ ds_recvBufferSize := 0%nat }}) ;;;
           hret (inr (take maxCp (ds_recvBuffer ctx)))).

Definition srv_ssl {A} (p : ssl_prog A) : ds_uhandler A :=
  ssl_run nm_mbedtls_srv_mbedtls_send nm_mbedtls_srv_mbedtls_recv
    (fun i f => let+ ctx := ulift hget in ulift (ds_on_timer (nm_mbedtls_timer_set_delay (ds_now ctx) i f)))
    (let+ ctx := ulift hget in uof (nm_mbedtls_timer_get_delay (ds_now ctx) (ds_timer ctx)))
    p.

(** A function of the library with a status. *)
Definition srv_ssl_call {R} (f : L -> ssl_prog (R * L)) : ds_uhandler R :=
  let+ ctx := ulift hget in
  let+ r := srv_ssl (f (ds_ssl ctx)) in
  ulift (hmod (fun ctx => ctx {{ ds_ssl := r.2 }}) ;;; hret r.1).

(** ** Events *)

Definition deferred_event_callback (event : np_dtls_srv_event) : ds_handler unit :=
  hmod (fun ctx => ctx {{ ds_deferredEvent := event }}) ;;; emit DsPostDeferred.

Definition srv_close_with_event : ds_handler unit :=
  hmod (fun ctx => ctx {{ ds_state := CLOSING }}) ;;; deferred_event_callback NP_DTLS_SRV_EVENT_CLOSED.

Definition want_io (ret : Z) : bool :=
  (ret =? MBEDTLS_ERR_SSL_WANT_READ) || (ret =? MBEDTLS_ERR_SSL_WANT_WRITE).

Definition nm_mbedtls_srv_do_one : ds_uhandler unit :=
  let+ ctx := ulift hget in
  match ds_state ctx with
  | CONNECTING =>
      let+ ret := srv_ssl_call mbedtls_ssl_handshake in
      if want_io ret then ulift hskip
      else if ret =? MBEDTLS_ERR_SSL_TIMEOUT then
        ulift (ds_on_timer nm_mbedtls_timer_cancel ;;; srv_close_with_event)
      else if ret =? 0 then
        ulift (hmod (fun ctx => ctx {{ ds_state := DATA }}) ;;;
               deferred_event_callback NP_DTLS_SRV_EVENT_HANDSHAKE_COMPLETE)
      else ulift (ds_on_timer nm_mbedtls_timer_cancel ;;; srv_close_with_event)
  | DATA =>
      let+ r := srv_ssl_call mbedtls_ssl_read in
      let '(ret, data) := r in
      if ret =? 0 then ulift (hmod (fun ctx => ctx {{ ds_state := CLOSING }}) ;;; emit DsLogEof)
      else if 0 <? ret then
        ulift (let* ctx := hget in
               hmod (fun ctx => ctx {{ ds_recvCount ::= fun n => u32 (n + 1) }}) ;;;
               emit (DsData (ds_currentChannelId ctx) (ssl_in_ctr (ds_ssl ctx)) (take (Z.to_nat ret) data)))
      else if want_io ret then ulift hskip
      else if ret =? MBEDTLS_ERR_SSL_PEER_CLOSE_NOTIFY then ulift srv_close_with_event
      else ulift srv_close_with_event
  | CLOSING => ulift hskip
  end.

Definition nm_mbedtls_srv_handle_packet (channelId : Z) (buffer : list Z) : ds_uhandler np_error_code :=
  let+ _ := ulift (hmod (fun ctx => ctx {{ ds_currentChannelId := channelId; ds_recvBuffer := buffer;
                                           ds_recvBufferSize := length buffer; ds_channelId := channelId }})) in
  let+ _ := nm_mbedtls_srv_do_one in
  ulift (hmod (fun ctx => ctx {{ ds_channelId := NP_DTLS_SRV_DEFAULT_CHANNEL_ID; ds_recvBuffer := [];
                                 ds_recvBufferSize := 0%nat }}) ;;;
         hret NABTO_EC_OK).

Definition nm_mbedtls_srv_do_event_callback : ds_handler unit :=
  let* ctx := hget in
  if is_closing (ds_state ctx) && ds_sending ctx then emit DsPostDeferred
  else emit (DsEvent (ds_deferredEvent ctx)).

Definition nm_mbedtls_srv_timed_event_do_one : ds_uhandler unit := nm_mbedtls_srv_do_one.

(** ** Sending *)

Definition nm_mbedtls_srv_start_send : ds_handler unit := emit DsPostStartSend.

Definition nm_mbedtls_srv_start_send_deferred : ds_uhandler unit :=
  let+ ctx := ulift hget in
  if ds_sending ctx then ulift hskip
  else
    match ds_sendList ctx with
    | [] => ulift hskip
    | next :: rest =>
        let+ _ := ulift (hmod (fun ctx => ctx {{ ds_sendList := rest; ds_channelId := sc_channelId next }})) in
        let+ ret := srv_ssl_call (fun ssl => mbedtls_ssl_write ssl (sc_buffer next)) in
        let+ _ := ulift (hmod (fun ctx => ctx {{ ds_channelId := NP_DTLS_SRV_DEFAULT_CHANNEL_ID }})) in
        let sent := hmod (fun ctx => ctx {{ ds_sentCount ::= fun n => u32 (n + 1) }}) in
        ulift (match sc_cb next with
               | None => sent
               | Some cb =>
                   if ret =? MBEDTLS_ERR_SSL_BAD_INPUT_DATA then emit (DsSendCb cb NABTO_EC_MALFORMED_PACKET)
                   else if ret <? 0 then emit (DsSendCb cb NABTO_EC_UNKNOWN)
                   else sent ;;; emit (DsSendCb cb NABTO_EC_OK)
               end)
    end.

Definition nm_mbedtls_srv_async_send_data (sendCtx : np_dtls_srv_send_context) : ds_handler np_error_code :=
  let* ctx := hget in
  if is_closing (ds_state ctx) then hret NABTO_EC_CONNECTION_CLOSING
  else
    hmod (fun ctx => ctx {{ ds_sendList ::= fun l => l ++ [sendCtx] }}) ;;;
    nm_mbedtls_srv_start_send ;;;
    hret NABTO_EC_OK.

Definition nm_mbedtls_srv_connection_send_callback (ec : np_error_code) : ds_uhandler unit :=
  let+ _ := ulift (hmod (fun ctx => ctx {{ ds_sending := false }})) in
  if is_error ec then ulift hskip
  else
    let+ _ := ulift (hmod (fun ctx => ctx {{ ds_sslSendBufferSize := 0%nat }})) in
    let+ ctx := ulift hget in
    if is_closing (ds_state ctx) then ulift hskip
    else
      let+ _ := nm_mbedtls_srv_do_one in
      ulift nm_mbedtls_srv_start_send.

(** ** Closing *)

Definition nm_mbedtls_srv_event_close : ds_handler unit :=
  let* ctx := hget in
  if ds_sending ctx then emit DsPostClose
  else
    ds_on_timer nm_mbedtls_timer_cancel ;;;
    emit DsCancelClose ;;;
    emit DsCancelStartSend ;;;
    emit DsCancelDeferred ;;;
    hmod (fun ctx => ctx {{ ds_closeCb := None }}) ;;;
    match ds_closeCb ctx with None => hskip | Some cb => emit (DsCloseCb cb NABTO_EC_OK) end.

Definition nm_mbedtls_srv_async_close (cb : nat) : ds_uhandler np_error_code :=
  let+ ctx := ulift hget in
  if is_closing (ds_state ctx) then ulift (hret NABTO_EC_OK)
  else
    let+ _ := ulift (hmod (fun ctx => ctx {{ ds_closeCb := Some cb; ds_state := CLOSING }})) in
    let+ _ := srv_ssl_call mbedtls_ssl_close_notify in
    ulift (emit DsPostClose ;;; hret NABTO_EC_OK).

(** The loop over the waiting sends; a send without a callback calls through NULL. *)
Fixpoint srv_drain (l : list np_dtls_srv_send_context) : ds_uhandler unit :=
  match l with
  | [] => ulift hskip
  | first :: l =>
      let+ _ := ulift (hmod (fun ctx => ctx {{ ds_sendList := l }})) in
      match sc_cb first with
      | None => fun _ => UB
      | Some cb => let+ _ := ulift (emit (DsSendCb cb NABTO_EC_CONNECTION_CLOSING)) in srv_drain l
      end
  end.

Definition nm_mbedtls_srv_destroy_connection : ds_uhandler unit :=
  let+ _ := ulift (hmod (fun ctx => ctx {{ ds_state := CLOSING }})) in
  let+ ctx := ulift hget in
  let+ _ := srv_drain (ds_sendList ctx) in
  ulift (ds_on_timer nm_mbedtls_timer_cancel ;;; emit DsDestroyed).

(** The connection after [calloc], the fields that are set, and the set up of the library, which
    leaves it in the state [ssl] if it succeeds; [buffers] and [events] are the answers of the
    allocations. *)
Definition nm_mbedtls_srv_create_connection (ssl : L) (buffers : bool) (events : list np_error_code)
    (setup own_cert : Z) : np_error_code + np_dtls_srv_connection :=
  if negb buffers then inl NABTO_EC_OUT_OF_MEMORY
  else
    match List.find is_error events with
    | Some ec => inl ec
    | None =>
        if negb (setup =? 0) || negb (own_cert =? 0) then inl NABTO_EC_UNKNOWN
        else inr (mk_ds CONNECTING ssl 0 [] 0 [] 0 nm_mbedtls_timer_init None 0 0 [] NP_DTLS_SRV_EVENT_CLOSED false
                    NP_DTLS_SRV_DEFAULT_CHANNEL_ID 0 [])
    end.

(** ** The life of a connection *)

(** The events that are posted, the datagram that is being sent, and whether the connection is gone.
    [pn_unsafe]: a datagram was handed to the sender, or the end of the connection was told to the
    client connection - which destroys it -, while the sender still had a datagram. *)
Record srv_pending : Type := mk_pn {
  pn_startSend : bool;
  pn_deferred : bool;
  pn_close : bool;
  pn_timer : bool;
  pn_udp : option (list Z);
  pn_unsafe : bool;
  pn_destroyed : bool
}.

Definition in_flight (p : srv_pending) : bool := match pn_udp p with Some _ => true | None => false end.

Definition srv_op (p : srv_pending) (c : srv_call) : srv_pending :=
  match c with
  | DsPostStartSend => p {{ pn_startSend := true }}
  | DsCancelStartSend => p {{ pn_startSend := false }}
  | DsPostDeferred => p {{ pn_deferred := true }}
  | DsCancelDeferred => p {{ pn_deferred := false }}
  | DsPostClose => p {{ pn_close := true }}
  | DsCancelClose => p {{ pn_close := false }}
  | DsTimer (TimerPost _) => p {{ pn_timer := true }}
  | DsTimer TimerCancel => p {{ pn_timer := false }}
  | DsSend _ data ec =>
      if is_error ec then p {{ pn_unsafe ::= orb (in_flight p) }}
      else p {{ pn_unsafe ::= orb (in_flight p); pn_udp := Some data }}
  | DsEvent NP_DTLS_SRV_EVENT_CLOSED | DsCloseCb _ _ => p {{ pn_unsafe ::= orb (in_flight p) }}
  | DsDestroyed => mk_pn false false false false (pn_udp p) (pn_unsafe p) true
  | _ => p
  end.
Definition srv_ops (p : srv_pending) (t : list srv_call) : srv_pending := fold_left srv_op t p.

Inductive srv_input : Type :=
| SvPacket (channelId : Z) (buffer : list Z)
| SvSendData (sendCtx : np_dtls_srv_send_context)
| SvClose (cb : nat)
| SvStartSend
| SvDeferred
| SvCloseEv
| SvTimer
| SvSent (ec : np_error_code)
| SvDestroy.

Definition srv_enabled (p : srv_pending) (i : srv_input) : bool :=
  negb (pn_destroyed p) &&
  match i with
  | SvStartSend => pn_startSend p
  | SvDeferred => pn_deferred p
  | SvCloseEv => pn_close p
  | SvTimer => pn_timer p
  | SvSent _ => in_flight p
  | _ => true
  end.

Definition srv_taken (p : srv_pending) (i : srv_input) : srv_pending :=
  match i with
  | SvStartSend => p {{ pn_startSend := false }}
  | SvDeferred => p {{ pn_deferred := false }}
  | SvCloseEv => p {{ pn_close := false }}
  | SvTimer => p {{ pn_timer := false }}
  | SvSent _ => p {{ pn_udp := None }}
  | _ => p
  end.

Definition srv_ok (m : ds_uhandler unit) : ds_uhandler np_error_code :=
  let+ _ := m in ulift (hret NABTO_EC_OK).

Definition srv_handler (i : srv_input) : ds_uhandler np_error_code :=
  match i with
  | SvPacket channelId buffer => nm_mbedtls_srv_handle_packet channelId buffer
  | SvSendData sendCtx => ulift (nm_mbedtls_srv_async_send_data sendCtx)
  | SvClose cb => nm_mbedtls_srv_async_close cb
  | SvStartSend => srv_ok nm_mbedtls_srv_start_send_deferred
  | SvDeferred => srv_ok (ulift nm_mbedtls_srv_do_event_callback)
  | SvCloseEv => srv_ok (ulift nm_mbedtls_srv_event_close)
  | SvTimer => srv_ok nm_mbedtls_srv_timed_event_do_one
  | SvSent ec => srv_ok (nm_mbedtls_srv_connection_send_callback ec)
  | SvDestroy => srv_ok nm_mbedtls_srv_destroy_connection
  end.

(** What the environment does in a step: the clock and the sender's answers. *)
Definition with_env (ctx : np_dtls_srv_connection) (now : Z) (answers : list np_error_code) : np_dtls_srv_connection :=
  ctx {{ ds_now := now; ds_answers := answers }}.

Definition srv_history : Type := list (srv_input * np_error_code * list srv_call).

Inductive srv_reachable (ssl : L) : srv_history -> np_dtls_srv_connection -> srv_pending -> Prop :=
| srv_created c :
    nm_mbedtls_srv_create_connection ssl true [] 0 0 = inr c ->
    srv_reachable ssl [] c (mk_pn false false false false None false false)
| srv_next h c p i now answers r c' t :
    srv_reachable ssl h c p -> srv_enabled p i = true ->
    srv_handler i (with_env c now answers) = Def (r, c', t) ->
    srv_reachable ssl (h ++ [(i, r, t)]) c' (srv_ops (srv_taken p i) t).

(** *** What a call of the library changes *)

Definition flight (c : np_dtls_srv_connection) : option (list Z) :=
  if ds_sending c then Some (ds_sslSendBuffer c) else None.

Definition is_io (c : srv_call) : bool := match c with DsSend _ _ _ | DsTimer _ => true | _ => false end.

(** The pending work, up to the timer. *)
Definition same_events (p p' : srv_pending) : Prop :=
  pn_startSend p' = pn_startSend p /\ pn_deferred p' = pn_deferred p /\ pn_close p' = pn_close p /\
  pn_unsafe p' = pn_unsafe p /\ pn_destroyed p' = pn_destroyed p.

Record srv_io (c c' : np_dtls_srv_connection) (t : list srv_call) : Prop := mk_srv_io {
  io_state : ds_state c' = ds_state c;
  io_list : ds_sendList c' = ds_sendList c;
  io_closeCb : ds_closeCb c' = ds_closeCb c;
  io_deferred : ds_deferredEvent c' = ds_deferredEvent c;
  io_trace : forallb is_io t = true;
  io_flight : forall p, pn_udp p = flight c ->
    pn_udp (srv_ops p t) = flight c' /\ same_events p (srv_ops p t)
}.

Lemma srv_ops_app p t t' : srv_ops p (t ++ t') = srv_ops (srv_ops p t) t'.
Proof. apply fold_left_app. Qed.

Lemma srv_io_refl c : srv_io c c [].
Proof. split; [done .. |]. intros p Hp. by repeat split. Qed.

Lemma srv_io_trans c1 c2 c3 t t' : srv_io c1 c2 t -> srv_io c2 c3 t' -> srv_io c1 c3 (t ++ t').
Proof.
  intros [S1 L1 B1 D1 T1 F1] [S2 L2 B2 D2 T2 F2]. split; try congruence; [by rewrite forallb_app, T1, T2 |].
  intros p Hp. rewrite srv_ops_app. destruct (F1 p Hp) as [Hu1 He1]. destruct (F2 _ Hu1) as [Hu2 He2].
  split; [done |]. unfold same_events in *. intuition congruence.
Qed.

Lemma srv_send_io b c a c' t : nm_mbedtls_srv_mbedtls_send b c = Def (a, c', t) -> srv_io c c' t.
Proof.
  unfold nm_mbedtls_srv_mbedtls_send. rewrite u_hget. destruct (ds_sending c) eqn:Es; cbn [negb].
  { intros [= <- <- <-]. apply srv_io_refl. }
  unfold ulift, hbind, hmod, emit, hret. cbn. destruct (is_error _) eqn:Ee; intros [= <- <- <-]; cbn in *;
    (split; [done .. |]); intros p Hp; unfold flight in *; rewrite Es in Hp;
    cbn; rewrite ?Ee; destruct p; cbn in *; subst; repeat split.
Qed.

Lemma srv_ssl_io {A} (q : ssl_prog A) c a c' t : srv_ssl q c = Def (a, c', t) -> srv_io c c' t.
Proof.
  unfold srv_ssl. apply ssl_run_rel.
  - apply srv_io_refl.
  - apply srv_io_trans.
  - apply srv_send_io.
  - intros n s r s' t' Hr. unfold nm_mbedtls_srv_mbedtls_recv in Hr. rewrite u_hget in Hr.
    destruct (ds_recvBufferSize s =? 0)%nat; injection Hr as <- <- <-; [apply srv_io_refl | by split].
  - intros i f s r s' t' Hr. rewrite u_hget in Hr. unfold ds_on_timer, nm_mbedtls_timer_set_delay in Hr.
    destruct (f =? 0); injection Hr as <- <- <-; by split.
  - intros s r s' t' Hr. rewrite u_hget in Hr. apply uof_inv in Hr as (_ & -> & ->). apply srv_io_refl.
Qed.

Lemma srv_ssl_call_io {R} (f : L -> ssl_prog (R * L)) c a c' t : srv_ssl_call f c = Def (a, c', t) -> srv_io c c' t.
Proof.
  unfold srv_ssl_call. rewrite u_hget. intros (r & s1 & t1 & t2 & Hr & Hk & ->)%ubind_inv.
  apply srv_ssl_io in Hr. unfold ulift, hbind, hmod, hret in Hk. injection Hk as <- <- <-.
  eapply srv_io_trans; [exact Hr |]. split; [done .. |]. intros p Hp. by repeat split.
Qed.

(** *** Invariant *)

(** The callbacks of sends that were called, and how often the end was told - or only logged. *)
Definition send_cbs (t : list srv_call) : list nat :=
  omap (fun c => match c with DsSendCb cb _ => Some cb | _ => None end) t.

Definition is_end_call (c : srv_call) : bool :=
  match c with DsEvent NP_DTLS_SRV_EVENT_CLOSED | DsCloseCb _ _ | DsLogEof => true | _ => false end.
Definition ends (t : list srv_call) : nat := length (List.filter is_end_call t).

Definition event_is_closed (e : np_dtls_srv_event) : bool :=
  match e with NP_DTLS_SRV_EVENT_CLOSED => true | _ => false end.

(** The end that is still to be told. *)
Definition owed (c : np_dtls_srv_connection) (p : srv_pending) : nat :=
  (if pn_deferred p && event_is_closed (ds_deferredEvent c) then 1 else 0) + (if pn_close p then 1 else 0).

Definition srv_notify (c : np_dtls_srv_connection) (p : srv_pending) (n : nat) : Prop :=
  if is_closing (ds_state c) then (n + owed c p)%nat = 1%nat
  else n = 0%nat /\ pn_close p = false /\ (pn_deferred p = true -> ds_deferredEvent c = NP_DTLS_SRV_EVENT_HANDSHAKE_COMPLETE).

(** [n]: the ends told so far; [accepted], [called]: the callbacks of the sends that were accepted,
    and those that were called. *)
Record srv_inv (c : np_dtls_srv_connection) (p : srv_pending) (n : nat) (accepted called : list nat) : Prop := mk_srv_inv {
  v_udp : pn_udp p = flight c;
  v_unsafe : pn_unsafe p = false;
  v_notify : pn_destroyed p = true \/ srv_notify c p n;
  v_close : pn_close p = true -> ds_closeCb c <> None;
  v_fifo : accepted = called ++ omap sc_cb (ds_sendList c)
}.

Lemma ends_app t t' : ends (t ++ t') = (ends t + ends t')%nat.
Proof. unfold ends. by rewrite List.filter_app, length_app. Qed.
Lemma send_cbs_app t t' : send_cbs (t ++ t') = send_cbs t ++ send_cbs t'.
Proof. apply omap_app. Qed.

Lemma io_ends t : forallb is_io t = true -> ends t = 0%nat /\ send_cbs t = [].
Proof.
  induction t as [| c t IH]; [done |]. cbn [forallb]. intros [Hc Ht]%andb_prop. destruct (IH Ht) as [He Hs].
  destruct c; try done; unfold ends, send_cbs in *; cbn; by rewrite ?He, ?Hs.
Qed.

(** A handler that keeps the invariant, and handlers one after another. *)
Definition keeps {A} (m : ds_uhandler A) (c : np_dtls_srv_connection) : Prop :=
  forall p n accepted called r c' t, srv_inv c p n accepted called -> m c = Def (r, c', t) ->
  srv_inv c' (srv_ops p t) (n + ends t) accepted (called ++ send_cbs t).

Lemma skeeps_bind {A B} (m : ds_uhandler A) (k : A -> ds_uhandler B) c :
  keeps m c -> (forall a c1 t, m c = Def (a, c1, t) -> keeps (k a) c1) -> keeps (ubind m k) c.
Proof.
  intros Hm Hk p n acc called r c' t Hi (a & c1 & t1 & t2 & H1 & H2 & ->)%ubind_inv.
  specialize (Hm _ _ _ _ _ _ _ Hi H1). specialize (Hk _ _ _ H1 _ _ _ _ _ _ _ Hm H2).
  by rewrite srv_ops_app, ends_app, send_cbs_app, Nat.add_assoc, app_assoc.
Qed.

Lemma skeeps_hget {A} (k : np_dtls_srv_connection -> ds_uhandler A) c : keeps (k c) c -> keeps (ubind (ulift hget) k) c.
Proof. intros Hk p n acc called r c' t Hi. rewrite u_hget. by apply Hk. Qed.

Lemma keeps_nothing {A} (a : A) c : keeps (ulift (hret a)) c.
Proof. intros p n acc called r c' t Hi [= <- <- <-]. cbn. by rewrite Nat.add_0_r, app_nil_r. Qed.

Lemma same_notify c c' p p' n :
  same_events p p' -> ds_state c' = ds_state c -> ds_deferredEvent c' = ds_deferredEvent c ->
  pn_destroyed p = true \/ srv_notify c p n -> pn_destroyed p' = true \/ srv_notify c' p' n.
Proof.
  intros (_ & Hd & Hc & _ & Hx) Es Ed. rewrite Hx. unfold srv_notify, owed. by rewrite Hd, Hc, Es, Ed.
Qed.

Lemma io_keeps c c' t p n accepted called :
  srv_io c c' t -> srv_inv c p n accepted called -> srv_inv c' (srv_ops p t) (n + ends t) accepted (called ++ send_cbs t).
Proof.
  intros [Es El Ec Ed Ht Hf] [Hu Hun Hn Hc Hq]. destruct (io_ends t Ht) as [-> ->]. rewrite Nat.add_0_r, app_nil_r.
  destruct (Hf p Hu) as [Hu' He]. pose proof He as (_ & _ & Hcl & Hus & _).
  split; [done | congruence | by eapply same_notify | by rewrite Hcl, Ec | by rewrite El].
Qed.

Lemma keeps_ssl {R} (f : L -> ssl_prog (R * L)) c : keeps (srv_ssl_call f) c.
Proof. intros p n acc called r c' t Hi Hr. apply srv_ssl_call_io in Hr. by eapply io_keeps. Qed.

(** Steps that touch nothing the invariant is about. *)
Definition inert (f : np_dtls_srv_connection -> np_dtls_srv_connection) : Prop :=
  forall c, ds_state (f c) = ds_state c /\ ds_sendList (f c) = ds_sendList c /\ ds_closeCb (f c) = ds_closeCb c /\
    ds_deferredEvent (f c) = ds_deferredEvent c /\ flight (f c) = flight c.

Lemma inert_inv f c p n accepted called : inert f -> srv_inv c p n accepted called -> srv_inv (f c) p n accepted called.
Proof.
  intros Hf [Hu Hun Hn Hc Hq]. destruct (Hf c) as (Es & El & Ec & Ed & Efl).
  split; [by rewrite Efl | done | by eapply same_notify | by rewrite Ec | by rewrite El].
Qed.

Lemma skeeps_hmod f c : inert f -> keeps (ulift (hmod f)) c.
Proof.
  intros Hf p n acc called r c' t Hi [= <- <- <-]. cbn. rewrite Nat.add_0_r, app_nil_r. by apply inert_inv.
Qed.

Ltac inert_tac := intros [] ; repeat split.

(** The end of a step that is run to its end. *)
Ltac inv_tac := split; cbn; rewrite ?Nat.add_0_r, ?app_nil_r in *; try done; try congruence.

(** Going to the state [CLOSING]: with an event, or with a line in the log. *)
Lemma keeps_closing c : is_closing (ds_state c) = false -> keeps (ulift srv_close_with_event) c.
Proof.
  intros Es p n acc called r c' t [Hu Hun Hn Hc Hq] [= <- <- <-]. destruct c, p. cbn in *.
  unfold srv_notify, owed in *. cbn in *. rewrite Es in Hn. cbn. unfold constant. inv_tac.
  destruct Hn as [Hn | (-> & -> & _)]; [by left | by right].
Qed.

Lemma keeps_timer_closing c :
  is_closing (ds_state c) = false -> keeps (ulift (ds_on_timer nm_mbedtls_timer_cancel ;;; srv_close_with_event)) c.
Proof.
  intros Es p n acc called r c' t [Hu Hun Hn Hc Hq] [= <- <- <-]. destruct c, p. cbn in *.
  unfold srv_notify, owed in *. cbn in *. rewrite Es in Hn. cbn. unfold constant. inv_tac.
  destruct Hn as [Hn | (-> & -> & _)]; [by left | by right].
Qed.

Lemma keeps_eof c :
  is_closing (ds_state c) = false ->
  keeps (ulift (hmod (fun ctx => ctx {{ ds_state := CLOSING }}) ;;; emit DsLogEof)) c.
Proof.
  intros Es p n acc called r c' t [Hu Hun Hn Hc Hq] [= <- <- <-]. destruct c, p. cbn in *.
  unfold srv_notify, owed in *. cbn in *. rewrite Es in Hn. cbn. unfold constant. inv_tac.
  destruct Hn as [Hn | (-> & -> & Hd)]; [by left | right]. cbn.
  destruct pn_deferred0; [by rewrite Hd | done].
Qed.

Lemma skeeps_handshake c :
  is_closing (ds_state c) = false ->
  keeps (ulift (hmod (fun ctx => ctx {{ ds_state := DATA }}) ;;;
                deferred_event_callback NP_DTLS_SRV_EVENT_HANDSHAKE_COMPLETE)) c.
Proof.
  intros Es p n acc called r c' t [Hu Hun Hn Hc Hq] [= <- <- <-]. destruct c, p. cbn in *.
  unfold srv_notify, owed in *. cbn in *. rewrite Es in Hn. cbn. unfold constant. inv_tac.
  destruct Hn as [Hn | (-> & -> & Hd)]; [by left | by right].
Qed.

Lemma ssl_call_state {R} (f : L -> ssl_prog (R * L)) c r c' t :
  srv_ssl_call f c = Def (r, c', t) -> ds_state c' = ds_state c.
Proof. intros Hr. apply srv_ssl_call_io in Hr. apply Hr. Qed.

Lemma keeps_do_one c : keeps nm_mbedtls_srv_do_one c.
Proof.
  apply skeeps_hget. destruct (ds_state c) eqn:Es.
  - apply skeeps_bind; [apply keeps_ssl |]. intros ret c1 t1 H1. apply ssl_call_state in H1. rewrite Es in H1.
    assert (Ec : is_closing (ds_state c1) = false) by by rewrite H1.
    destruct (want_io ret); [apply keeps_nothing |]. destruct (ret =? MBEDTLS_ERR_SSL_TIMEOUT); [by apply keeps_timer_closing |].
    destruct (ret =? 0); [by apply skeeps_handshake | by apply keeps_timer_closing].
  - apply skeeps_bind; [apply keeps_ssl |]. intros [ret data] c1 t1 H1. apply ssl_call_state in H1. rewrite Es in H1.
    assert (Ec : is_closing (ds_state c1) = false) by by rewrite H1.
    destruct (ret =? 0); [by apply keeps_eof |]. destruct (0 <? ret).
    + intros p n acc called r c' t [Hu Hun Hn Hc Hq] [= <- <- <-]. destruct c1. cbn. unfold constant. by inv_tac.
    + destruct (want_io ret); [apply keeps_nothing |]. destruct (ret =? _); by apply keeps_closing.
  - apply keeps_nothing.
Qed.

(** *** The inputs *)

Definition accepted_by (i : srv_input) (r : np_error_code) : list nat :=
  match i with SvSendData s => if is_error r then [] else option_list (sc_cb s) | _ => [] end.

(** What a step makes of the invariant. *)
Definition step_keeps (i : srv_input) (c : np_dtls_srv_connection) : Prop :=
  forall p n accepted called r c' t,
    srv_inv c p n accepted called -> srv_enabled p i = true -> srv_handler i c = Def (r, c', t) ->
    srv_inv c' (srv_ops (srv_taken p i) t) (n + ends t) (accepted ++ accepted_by i r) (called ++ send_cbs t).

(** Inputs that only clear a flag the invariant is not about. *)
Definition plain_input (i : srv_input) : bool :=
  match i with SvPacket _ _ | SvStartSend | SvTimer => true | _ => false end.

Lemma keeps_step i c : plain_input i = true -> keeps (srv_handler i) c -> step_keeps i c.
Proof.
  intros Hp Hk p n acc called r c' t Hi _ Hr.
  assert (Ha : accepted_by i r = []) by by destruct i. rewrite Ha, app_nil_r.
  eapply Hk; [| exact Hr]. destruct Hi as [Hu Hun Hn Hc Hq]. destruct i, p; try discriminate Hp; by split.
Qed.

Lemma keeps_srv_ok m c : keeps m c -> keeps (srv_ok m) c.
Proof. intros Hm. apply skeeps_bind; [done |]. intros. apply keeps_nothing. Qed.

Lemma step_packet channelId buffer c : step_keeps (SvPacket channelId buffer) c.
Proof.
  apply keeps_step; [done |]. cbn [srv_handler]. unfold nm_mbedtls_srv_handle_packet.
  apply skeeps_bind; [apply skeeps_hmod; inert_tac |]. intros _ c1 _ _.
  apply skeeps_bind; [apply keeps_do_one |]. intros _ c2 _ _.
  intros p n acc called r c' t [Hu Hun Hn Hc Hq] [= <- <- <-]. destruct c2. cbn. unfold constant. by inv_tac.
Qed.

Lemma step_timer c : step_keeps SvTimer c.
Proof. apply keeps_step; [done |]. apply keeps_srv_ok, keeps_do_one. Qed.

Lemma step_send_data s c : step_keeps (SvSendData s) c.
Proof.
  intros p n acc called r c' t [Hu Hun Hn Hc Hq] _. cbn [srv_handler]. unfold ulift, nm_mbedtls_srv_async_send_data.
  unfold hbind, hget. destruct (is_closing (ds_state c)) eqn:Es; intros [= <- <- <-]; destruct c, p; cbn in *; unfold constant;
    inv_tac. by rewrite omap_app, Hq, <- app_assoc; cbn; destruct (sc_cb s).
Qed.

(** A send is taken from the list, and its callback called. *)
Lemma keeps_start_send c : keeps nm_mbedtls_srv_start_send_deferred c.
Proof.
  apply skeeps_hget. destruct (ds_sending c) eqn:Es; [apply keeps_nothing |].
  destruct (ds_sendList c) as [| next rest] eqn:El; [apply keeps_nothing |].
  intros p n acc called r c' t Hi. rewrite u_hmod. intros (ret & c1 & t1 & t2 & H1 & H2 & ->)%ubind_inv.
  apply srv_ssl_call_io in H1. rewrite u_hmod in H2.
  assert (Hi1 : srv_inv c1 (srv_ops p t1) (n + ends t1) acc
                  (called ++ omap sc_cb [next] ++ send_cbs t1)).
  { replace (called ++ omap sc_cb [next] ++ send_cbs t1) with ((called ++ omap sc_cb [next]) ++ send_cbs t1) by by rewrite app_assoc.
    eapply io_keeps; [exact H1 |]. destruct Hi as [Hu Hun Hn Hc Hq]. destruct c; cbn in *; subst. split; try done.
    cbn. unfold constant. rewrite <- app_assoc. by cbn; destruct (sc_cb next). }
  destruct (io_ends _ (io_trace _ _ _ H1)) as [He Hs]. rewrite He, Hs, Nat.add_0_r, app_nil_r in Hi1.
  rewrite srv_ops_app, ends_app, send_cbs_app, He, Hs. cbn [app Nat.add]. clear Hi H1 He Hs.
  destruct Hi1 as [Hu Hun Hn Hc Hq]. cbn [omap list_omap] in Hq. destruct c1.
  destruct (sc_cb next) as [cb |]; [destruct (ret =? MBEDTLS_ERR_SSL_BAD_INPUT_DATA); [| destruct (ret <? 0)] |];
    injection H2 as <- <- <-; cbn in *; unfold constant; by inv_tac.
Qed.

Lemma step_start_send c : step_keeps SvStartSend c.
Proof. apply keeps_step; [done |]. apply keeps_srv_ok, keeps_start_send. Qed.

Lemma step_deferred c : step_keeps SvDeferred c.
Proof.
  intros p n acc called r c' t [Hu Hun Hn Hc Hq] He Hr. apply andb_prop in He as [Hd He]. cbn in He. rewrite app_nil_r.
  cbn [srv_handler] in Hr. unfold srv_ok, ubind, ulift, nm_mbedtls_srv_do_event_callback, hbind, hget in Hr.
  destruct c, p; cbn in *; subst. rewrite ?negb_true_iff in Hd. subst. destruct Hn as [| Hn]; [done |].
  unfold srv_notify, owed in *. cbn in *.
  destruct (is_closing ds_state0) eqn:Es, ds_sending0, ds_deferredEvent0; cbn in *; injection Hr as <- <- <-; cbn;
    unfold constant; inv_tac; try (right; unfold srv_notify, owed; cbn; rewrite Es; lia).
  all: destruct Hn as (? & ? & Hx); first [by specialize (Hx eq_refl) | by right; unfold srv_notify; cbn; rewrite Es].
Qed.

Lemma step_close_ev c : step_keeps SvCloseEv c.
Proof.
  intros p n acc called r c' t [Hu Hun Hn Hc Hq] He Hr. apply andb_prop in He as [Hd He]. cbn in He. rewrite app_nil_r.
  cbn [srv_handler] in Hr. unfold srv_ok, ubind, ulift, nm_mbedtls_srv_event_close, ds_on_timer, hbind, hget in Hr.
  destruct c, p; cbn in *; subst. rewrite ?negb_true_iff in Hd. subst. destruct Hn as [| Hn]; [done |].
  unfold srv_notify, owed in *. cbn in *. specialize (Hc eq_refl).
  destruct (is_closing ds_state0) eqn:Es; [| by destruct Hn as (_ & ? & _)].
  destruct ds_sending0, ds_closeCb0; try done; injection Hr as <- <- <-; cbn; unfold constant; inv_tac;
    try (right; unfold srv_notify, owed; cbn; rewrite Es; lia).
Qed.

Lemma step_close cb c : step_keeps (SvClose cb) c.
Proof.
  intros p n acc called r c' t Hi _. cbn [srv_handler accepted_by]. rewrite app_nil_r. unfold nm_mbedtls_srv_async_close.
  rewrite u_hget. destruct (is_closing (ds_state c)) eqn:Es.
  { intros [= <- <- <-]. by rewrite Nat.add_0_r, app_nil_r. }
  rewrite u_hmod. intros (x & c1 & t1 & t2 & H1 & H2 & ->)%ubind_inv. apply srv_ssl_call_io in H1.
  destruct H1 as [Hs Hl Hcb Hde Ht Hf]. destruct (io_ends _ Ht) as [He Hsc]. injection H2 as <- <- <-.
  rewrite srv_ops_app, ends_app, send_cbs_app, He, Hsc. destruct Hi as [Hu Hun Hn Hc Hq].
  destruct (Hf p) as [Hu' (_ & Hpd & Hpc & Hpu & Hpx)]; [by rewrite Hu; destruct c |].
  cbn [srv_taken]. destruct (srv_ops p t1) as [? ? ? ? ? ? ?], c, c1. cbn in *. subst. unfold constant in *. rewrite Nat.add_0_r, app_nil_r.
  split; cbn; [done | done | | done | done].
  destruct Hn as [Hn | Hn]; [by left | right]. unfold srv_notify, owed in *. cbn in *. rewrite Es in Hn.
  destruct Hn as (-> & _ & Hd). by destruct (pn_deferred p); [rewrite Hd |].
Qed.

Lemma step_sent ec c : step_keeps (SvSent ec) c.
Proof.
  intros p n acc called r c' t Hi _. cbn [srv_handler accepted_by]. rewrite app_nil_r.
  assert (Hk : keeps (if is_error ec then ulift hskip
                      else
                        let+ _ := ulift (hmod (fun ctx => ctx {{ ds_sslSendBufferSize := 0%nat }})) in
                        let+ ctx := ulift hget in
                        if is_closing (ds_state ctx) then ulift hskip
                        else
                          let+ _ := nm_mbedtls_srv_do_one in
                          ulift nm_mbedtls_srv_start_send) (c {{ ds_sending := false }})).
  { destruct (is_error ec); [apply keeps_nothing |].
    apply skeeps_bind; [apply skeeps_hmod; inert_tac |]. intros _ c1 _ _. apply skeeps_hget.
    destruct (is_closing (ds_state c1)); [apply keeps_nothing |].
    apply skeeps_bind; [apply keeps_do_one |]. intros _ c2 _ _.
    intros p' n' acc' called' r' c'' t' [Hu Hun Hn Hc Hq] [= <- <- <-]. destruct c2, p'. cbn in *. unfold constant. by inv_tac. }
  unfold srv_ok. intros (x & c1 & t1 & t2 & H1 & H2 & ->)%ubind_inv. injection H2 as <- <- <-. rewrite app_nil_r.
  unfold nm_mbedtls_srv_connection_send_callback in H1. rewrite u_hmod in H1.
  eapply Hk; [| exact H1]. destruct Hi as [Hu Hun Hn Hc Hq]. destruct c, p. by split.
Qed.

Lemma drain_calls l : forall c r c' t,
  srv_drain l c = Def (r, c', t) ->
  send_cbs t = omap sc_cb l /\ (forall p, srv_ops p t = p) /\
  (ds_sendList c = l -> ds_sendList c' = []) /\ flight c' = flight c.
Proof.
  induction l as [| first l IH]; intros c r c' t; cbn [srv_drain]; [by intros [= <- <- <-] |].
  rewrite u_hmod. destruct (sc_cb first) as [cb |] eqn:Ecb; [| done].
  intros (x & c1 & t1 & t2 & H1 & H2 & ->)%ubind_inv. injection H1 as <- <- <-. apply IH in H2 as (Hs & Ho & Hl & Hf).
  rewrite send_cbs_app, Hs. split; [cbn; by rewrite Ecb |]. split; [intros p; rewrite srv_ops_app; apply Ho |].
  split; [intros _; by apply Hl; destruct c |]. rewrite Hf. by destruct c.
Qed.

Lemma step_destroy c : step_keeps SvDestroy c.
Proof.
  intros p n acc called r c' t Hi _. cbn [srv_handler accepted_by]. rewrite app_nil_r. unfold srv_ok.
  intros (x & c1 & t1 & t2 & H1 & H2 & ->)%ubind_inv. injection H2 as <- <- <-. rewrite app_nil_r.
  unfold nm_mbedtls_srv_destroy_connection in H1. rewrite u_hmod, u_hget in H1.
  apply ubind_inv in H1 as (? & c2 & t3 & t4 & H1 & H2 & ->). apply drain_calls in H1 as (Hs & Ho & Hl & Hf).
  injection H2 as <- <- <-. rewrite srv_ops_app, send_cbs_app, Hs. cbn [srv_taken]. rewrite Ho.
  destruct Hi as [Hu Hun Hn Hc Hq]. specialize (Hl eq_refl). destruct c, c2, p. cbn in *. subst. unfold constant in *.
  split; cbn; [exact (eq_sym Hf) | done | by left | done | by rewrite !app_nil_r].
Qed.

Lemma srv_step_keeps i c : step_keeps i c.
Proof.
  destruct i; auto using step_packet, step_send_data, step_close, step_start_send, step_deferred, step_close_ev,
    step_timer, step_sent, step_destroy.
Qed.

(** ** Theorems *)

Definition srv_trace (h : srv_history) : list srv_call := concat (map snd h).

(** The callbacks of the sends that were accepted, in order. *)
Definition accepted (h : srv_history) : list nat := concat (map (fun s => accepted_by s.1.1 s.1.2) h).

Lemma with_env_inv c p n acc called now answers :
  srv_inv c p n acc called -> srv_inv (with_env c now answers) p n acc called.
Proof. apply (inert_inv (fun c => with_env c now answers)). inert_tac. Qed.

Lemma srv_reachable_inv ssl h c p :
  srv_reachable ssl h c p -> srv_inv c p (ends (srv_trace h)) (accepted h) (send_cbs (srv_trace h)).
Proof.
  induction 1 as [c [= <-] | h c p i now answers r c' t _ IH He Hr].
  - split; try done. by right.
  - unfold srv_trace, accepted in *. rewrite !map_app, !concat_app. cbn [map concat fst snd]. rewrite !app_nil_r, ends_app, send_cbs_app.
    eapply srv_step_keeps; [by apply with_env_inv | exact He | exact Hr].
Qed.

(** Data is sent in order, and no callback is lost or called twice: at any time the callbacks
    that were called, followed by those of the sends that still wait, are exactly those of the
    accepted sends, in order; and once the connection is destroyed all have been called. *)
Lemma dtls_srv_sends_conserved ssl h c p (Hr : srv_reachable ssl h c p) :
  accepted h = send_cbs (srv_trace h) ++ omap sc_cb (ds_sendList c) /\
  forall now answers r c' t, srv_enabled p SvDestroy = true ->
    srv_handler SvDestroy (with_env c now answers) = Def (r, c', t) ->
    accepted (h ++ [(SvDestroy, r, t)]) = send_cbs (srv_trace (h ++ [(SvDestroy, r, t)])).
Proof.
  split; [apply srv_reachable_inv in Hr; apply Hr |]. intros now answers r c' t He Hh.
  pose proof (srv_next _ _ _ _ _ _ _ _ _ _ Hr He Hh) as Hr'. apply srv_reachable_inv in Hr'. rewrite (v_fifo _ _ _ _ _ Hr').
  assert (ds_sendList c' = []) as ->; [| by rewrite app_nil_r].
  cbn [srv_handler] in Hh. apply ubind_inv in Hh as (x & c1 & t1 & t2 & H1 & H2 & ->). injection H2 as <- <- <-.
  unfold nm_mbedtls_srv_destroy_connection in H1. rewrite u_hmod, u_hget in H1.
  apply ubind_inv in H1 as (? & c2 & t3 & t4 & H1 & H2 & ->). apply drain_calls in H1 as (_ & _ & Hl & _).
  injection H2 as <- <- <-. by apply Hl.
Qed.

(** The send buffer is safe: a datagram is only handed to the sender, and the end of the
    connection is only told, when the sender has no datagram any more; and what the sender has is
    in the send buffer, unchanged. *)
Lemma dtls_srv_send_buffer_safe ssl h c p (Hr : srv_reachable ssl h c p) :
  pn_unsafe p = false /\ pn_udp p = if ds_sending c then Some (ds_sslSendBuffer c) else None.
Proof. apply srv_reachable_inv in Hr as [Hu Hun _ _ _]. by split. Qed.

(** C23. The end of a connection is told once: a connection that is not closing has told nothing; one
    that is closing has told its end, by the event or by the callback of the close, or an event for
    that is posted, or it closed on an end of file, which is only logged - exactly one of these. *)
Theorem dtls_srv_end_told_once ssl h c p (Hr : srv_reachable ssl h c p) (Hd : pn_destroyed p = false) :
  if is_closing (ds_state c) then (ends (srv_trace h) + owed c p)%nat = 1%nat else ends (srv_trace h) = 0%nat.
Proof.
  apply srv_reachable_inv in Hr as [_ _ Hn _ _]. destruct Hn as [Hn | Hn]; [congruence |].
  unfold srv_notify in Hn. by destruct (is_closing _); [| destruct Hn].
Qed.
End DtlsServer.

(** ** Witnesses *)

Section Run.
Context {L : Type} `{MbedtlsSsl L}.

(** A run of inputs, at time 0 and with a sender that accepts everything. *)
Fixpoint srv_run (inputs : list srv_input) (s : srv_history * np_dtls_srv_connection * srv_pending) :
    option (srv_history * np_dtls_srv_connection * srv_pending) :=
  match inputs with
  | [] => Some s
  | i :: inputs =>
      let '(h, c, p) := s in
      if srv_enabled p i then
        match srv_handler i (with_env c 0 []) with
        | Def (r, c', t) => srv_run inputs (h ++ [(i, r, t)], c', srv_ops (srv_taken p i) t)
        | UB => None
        end
      else None
  end.

Lemma srv_run_reachable ssl inputs : forall h c p h' c' p',
  srv_reachable ssl h c p -> srv_run inputs (h, c, p) = Some (h', c', p') -> srv_reachable ssl h' c' p'.
Proof.
  induction inputs as [| i inputs IH]; intros h c p h' c' p' Hr; cbn [srv_run]; [by intros [= <- <- <-] |].
  destruct (srv_enabled p i) eqn:He; [| done]. destruct (srv_handler i (with_env c 0 [])) as [[[r c1] t] |] eqn:Eh; [| done].
  apply IH. by eapply srv_next.
Qed.
End Run.

#[local] Existing Instance plain_ssl.

Definition srv_new : np_dtls_srv_connection :=
  mk_ds CONNECTING tt 0 [] 0 [] 0 nm_mbedtls_timer_init None 0 0 [] NP_DTLS_SRV_EVENT_CLOSED false
    NP_DTLS_SRV_DEFAULT_CHANNEL_ID 0 [].
Definition srv_idle : srv_pending := mk_pn false false false false None false false.

Definition srv_example (inputs : list srv_input) := srv_run inputs ([], srv_new, srv_idle).

Lemma srv_example_reachable inputs h c p : srv_example inputs = Some (h, c, p) -> srv_reachable tt h c p.
Proof. apply srv_run_reachable. by constructor. Qed.

Definition two_sends : list srv_input :=
  [SvPacket 3 [5]; SvDeferred; SvSendData (mk_sc [1; 2] 3 (Some 1%nat)); SvSendData (mk_sc [3] 3 (Some 2%nat)); SvStartSend].

Lemma dtls_srv_sends_conserved_witness :
  exists h c p, srv_example two_sends = Some (h, c, p) /\
  accepted h = [1; 2]%nat /\ send_cbs (srv_trace h) ++ omap sc_cb (ds_sendList c) = [1; 2]%nat.
Proof.
  destruct (srv_example two_sends) as [[[h c] p] |] eqn:E; [| discriminate E].
  assert (Ha : accepted h = [1; 2]%nat)
    by (pose proof (f_equal (fmap (fun s => accepted s.1.1)) E) as Ha; vm_compute in Ha; injection Ha as ->; reflexivity).
  exists h, c, p. split; [reflexivity |]. split; [exact Ha |].
  rewrite <- (proj1 (dtls_srv_sends_conserved tt h c p (srv_example_reachable _ h c p E))). exact Ha.
Defined.

Lemma dtls_srv_send_buffer_safe_witness :
  exists h c p, srv_example two_sends = Some (h, c, p) /\
  pn_unsafe p = false /\ pn_udp p = if ds_sending c then Some (ds_sslSendBuffer c) else None.
Proof.
  destruct (srv_example two_sends) as [[[h c] p] |] eqn:E; [| discriminate E].
  exists h, c, p. exact (conj eq_refl (dtls_srv_send_buffer_safe tt h c p (srv_example_reachable _ h c p E))).
Defined.

Lemma dtls_srv_end_told_once_witness :
  exists h c p, srv_example (two_sends ++ [SvClose 7; SvSent NABTO_EC_OK; SvCloseEv]) = Some (h, c, p) /\
  (ends (srv_trace h) + owed c p)%nat = 1%nat.
Proof.
  destruct (srv_example (two_sends ++ [SvClose 7; SvSent NABTO_EC_OK; SvCloseEv])) as [[[h c] p] |] eqn:E; [| discriminate E].
  assert (Hd : is_closing (ds_state c) = true /\ pn_destroyed p = false)
    by (pose proof (f_equal (fmap (fun s => (is_closing (ds_state s.1.2), pn_destroyed s.2))) E) as Hx;
        vm_compute in Hx; injection Hx as H1 H2; exact (conj (eq_sym H1) (eq_sym H2))).
  exists h, c, p. split; [reflexivity |].
  pose proof (dtls_srv_end_told_once tt h c p (srv_example_reachable _ h c p E) (proj2 Hd)) as Hx.
  rewrite (proj1 Hd) in Hx. exact Hx.
Defined.

(** After an end of file the connection is closing, but nobody is told, and a close is accepted
    without ever calling its callback: nothing is under way. *)
Example dtls_srv_eof_is_silent :
  exists h c p, srv_example [SvPacket 3 [5]; SvDeferred; SvPacket 3 [0]; SvClose 7] = Some (h, c, p) /\
  ds_state c = CLOSING /\ p = srv_idle /\ existsb (fun x => match x with DsCloseCb _ _ => true | _ => false end) (srv_trace h) = false.
Proof. eexists _, _, _. split; [vm_compute; reflexivity |]. by repeat split. Qed.

(** After a write that failed the next send waits, and no event is posted that would take it. *)
Example dtls_srv_stalls :
  exists h c p, srv_example [SvPacket 3 [5]; SvDeferred; SvSendData (mk_sc (replicate 200 7) 3 (Some 1%nat));
    SvSendData (mk_sc [3] 3 (Some 2%nat)); SvStartSend] = Some (h, c, p) /\
  ds_state c = DATA /\ length (ds_sendList c) = 1%nat /\ p = srv_idle.
Proof. eexists _, _, _. split; [vm_compute; reflexivity |]. by repeat split. Qed.
