(* ===== verification/DtlsClient.v ===== *)
(** * The DTLS client (nm_mbedtls_cli.c)

    The connection to the basestation. Unlike the server it tells its user about events at once,
    it is used for one connection after another, and it may be destroyed while its own functions
    run: then the memory is freed when the last user of it is done. *)

From S2P Require Import Prelude Platform KeepAlive EventQueue Cbor Attacher Dtls.
From stdpp Require Import sets.

#[local] Open Scope Z_scope.
#[local] Open Scope list_scope.
#[local] Open Scope handler_scope.

Section DtlsClient.
Context {L : Type} `{MbedtlsSsl L}.

Record np_dtls_cli_send_context : Type := mk_cs {
  cs_buffer : list Z;
  cs_cb : option nat
}.

(** The last three are not fields of the structure: what the clock shows, what the sender will
    answer to the next datagrams (success when the list is empty), and whether the next callback
    of the user destroys the context. *)
Record np_dtls_cli_context : Type := mk_dc {
  dc_state : sslState;
  dc_ssl : L;
  dc_recvBuffer : list Z;
  dc_recvBufferSize : nat;
  dc_sslSendBuffer : list Z;
  dc_sslSendBufferSize : nat;
  dc_timer : nm_mbedtls_timer;
  dc_recvCount : Z;
  dc_sentCount : Z;
  dc_sendList : list np_dtls_cli_send_context;
  dc_sending : bool;
  dc_receiving : bool;
  dc_destroyed : bool;
  dc_now : Z;
  dc_answers : list np_error_code;
  dc_react : bool
}.

(** [DcLogEof] is the log line of an end of file; [DcFree]: the events, the buffers, the library's
    state and the structure are freed. *)
Inductive cli_call : Type :=
| DcSend (data : list Z) (ec : np_error_code)
| DcData (data : list Z)
| DcEvent (event : np_dtls_cli_event)
| DcSendCb (cb : nat) (ec : np_error_code)
| DcPostStartSend
| DcCancelStartSend
| DcTimer (c : timer_call)
| DcLogEof
| DcFree.

Definition dc_handler (A : Type) : Type := handler np_dtls_cli_context cli_call A.
Definition dc_uhandler (A : Type) : Type := uhandler np_dtls_cli_context cli_call A.

Definition dc_on_timer (m : handler nm_mbedtls_timer timer_call unit) : dc_handler unit :=
  fun ctx => let '(_, tm, t) := m (dc_timer ctx) in (tt, ctx {{ dc_timer := tm }}, map DcTimer t).

(** ** Freeing *)

(** The loop over the waiting sends; a send without a callback calls through NULL. *)
Fixpoint cli_drain (l : list np_dtls_cli_send_context) : dc_uhandler unit :=
  match l with
  | [] => ulift hskip
  | first :: l =>
      let+ _ := ulift (hmod (fun ctx => ctx {{ dc_sendList := l }})) in
      match cs_cb first with
      | None => fun _ => UB
      | Some cb => let+ _ := ulift (emit (DcSendCb cb NABTO_EC_CONNECTION_CLOSING)) in cli_drain l
      end
  end.

Definition nm_mbedtls_cli_do_free : dc_uhandler unit :=
  let+ ctx := ulift hget in
  let+ _ := cli_drain (dc_sendList ctx) in
  ulift (dc_on_timer nm_mbedtls_timer_cancel ;;; emit DcFree).

Definition nm_mbedtls_cli_destroy : dc_uhandler unit :=
  let+ _ := ulift (hmod (fun ctx => ctx {{ dc_state := CLOSING; dc_destroyed := true }})) in
  let+ ctx := ulift hget in
  if negb (dc_sending ctx) && negb (dc_receiving ctx) then nm_mbedtls_cli_do_free else ulift hskip.

(** A callback of the user. *)
Definition cli_callback (call : cli_call) : dc_uhandler unit :=
  let+ _ := ulift (emit call) in
  let+ ctx := ulift hget in
  if dc_react ctx then
    let+ _ := ulift (hmod (fun ctx => ctx {{ dc_react := false }})) in
    nm_mbedtls_cli_destroy
  else ulift hskip.

Definition nm_dtls_do_close : dc_uhandler unit :=
  let+ _ := ulift (dc_on_timer nm_mbedtls_timer_cancel) in
  cli_callback (DcEvent NP_DTLS_CLI_EVENT_CLOSED).

(** ** Callbacks of mbedTLS *)

Definition nm_dtls_mbedtls_send (buffer : list Z) : dc_uhandler Z :=
  let+ ctx := ulift hget in
  if (dc_sslSendBufferSize ctx =? 0)%nat then
    let ec := default NABTO_EC_OK (head (dc_answers ctx)) in
    let+ _ := ulift (hmod (fun ctx => ctx {{ dc_sending := true; dc_sslSendBuffer := buffer;
                                             dc_sslSendBufferSize := length buffer }}) ;;;
                     hmod (fun ctx => ctx {{ dc_answers ::= tail }}) ;;;
                     emit (DcSend buffer ec)) in
    if is_error ec then
      let+ _ := ulift (hmod (fun ctx => ctx {{ dc_sending := false; dc_sslSendBufferSize := 0%nat }})) in
      let+ ctx := ulift hget in
      let+ _ :=
        (if is_closing (dc_state ctx) then
           let+ _ := nm_dtls_do_close in
           let+ ctx := ulift hget in
           if dc_destroyed ctx then nm_mbedtls_cli_do_free else ulift hskip
         else ulift hskip) in
      ulift (hret MBEDTLS_ERR_SSL_WANT_WRITE)
    else ulift (hret (Z.of_nat (length buffer)))
  else ulift (hret MBEDTLS_ERR_SSL_WANT_WRITE).

Definition nm_dtls_mbedtls_recv (bufferSize : nat) : dc_uhandler (Z + list Z) :=
  let+ ctx := ulift hget in
  if (dc_recvBufferSize ctx =? 0)%nat then ulift (hret (inl MBEDTLS_ERR_SSL_WANT_READ))
  else
    let maxCp := if (dc_recvBufferSize ctx <? bufferSize)%nat then dc_recvBufferSize ctx else bufferSize in
    ulift (hmod (fun ctx => ctx {{ dc_recvBufferSize := 0%nat }}) ;;;
           hret (inr (take maxCp (dc_recvBuffer ctx)))).

Definition cli_ssl {A} (p : ssl_prog A) : dc_uhandler A :=
  ssl_run nm_dtls_mbedtls_send nm_dtls_mbedtls_recv
    (fun i f => let+ ctx := ulift hget in ulift (dc_on_timer (nm_mbedtls_timer_set_delay (dc_now ctx) i f)))
    (let+ ctx := ulift hget in uof (nm_mbedtls_timer_get_delay (dc_now ctx) (dc_timer ctx)))
    p.

Definition cli_ssl_call {R} (f : L -> ssl_prog (R * L)) : dc_uhandler R :=
  let+ ctx := ulift hget in
  let+ r := cli_ssl (f (dc_ssl ctx)) in
  ulift (hmod (fun ctx => ctx {{ dc_ssl := r.2 }}) ;;; hret r.1).

(** ** Events *)

Definition cli_want_io (ret : Z) : bool :=
  (ret =? MBEDTLS_ERR_SSL_WANT_READ) || (ret =? MBEDTLS_ERR_SSL_WANT_WRITE).

Definition cli_access_denied (ret : Z) (ctx : np_dtls_cli_context) : bool :=
  (ret =? MBEDTLS_ERR_SSL_FATAL_ALERT_MESSAGE) && (ssl_in_msg_1 (dc_ssl ctx) =? MBEDTLS_SSL_ALERT_MSG_ACCESS_DENIED).

Definition nm_dtls_event_do_one : dc_uhandler unit :=
  let+ ctx := ulift hget in
  match dc_state ctx with
  | CONNECTING =>
      let+ ret := cli_ssl_call mbedtls_ssl_handshake in
      let+ ctx := ulift hget in
      if cli_want_io ret then ulift hskip
      else if cli_access_denied ret ctx then
        let+ _ := ulift (hmod (fun ctx => ctx {{ dc_state := CLOSING }}) ;;; dc_on_timer nm_mbedtls_timer_cancel) in
        cli_callback (DcEvent NP_DTLS_CLI_EVENT_ACCESS_DENIED)
      else if negb (ret =? 0) then
        let+ _ := ulift (hmod (fun ctx => ctx {{ dc_state := CLOSING }}) ;;; dc_on_timer nm_mbedtls_timer_cancel) in
        cli_callback (DcEvent NP_DTLS_CLI_EVENT_CLOSED)
      else
        let+ _ := ulift (hmod (fun ctx => ctx {{ dc_state := DATA }})) in
        cli_callback (DcEvent NP_DTLS_CLI_EVENT_HANDSHAKE_COMPLETE)
  | DATA =>
      let+ r := cli_ssl_call mbedtls_ssl_read in
      let '(ret, data) := r in
      let+ ctx := ulift hget in
      if ret =? 0 then ulift (hmod (fun ctx => ctx {{ dc_state := CLOSING }}) ;;; emit DcLogEof)
      else if 0 <? ret then
        let+ _ := ulift (hmod (fun ctx => ctx {{ dc_recvCount ::= fun n => u32 (n + 1) }})) in
        cli_callback (DcData (take (Z.to_nat ret) data))
      else if cli_want_io ret then ulift hskip
      else if cli_access_denied ret ctx then
        let+ _ := ulift (dc_on_timer nm_mbedtls_timer_cancel) in
        cli_callback (DcEvent NP_DTLS_CLI_EVENT_ACCESS_DENIED)
      else
        let+ _ := ulift (hmod (fun ctx => ctx {{ dc_state := CLOSING }})) in
        nm_dtls_do_close
  | CLOSING => ulift hskip
  end.

Definition nm_dtls_connect : dc_uhandler np_error_code :=
  let+ _ := ulift (hmod (fun ctx => ctx {{ dc_state := CONNECTING; dc_sending := false }})) in
  let+ _ := nm_dtls_event_do_one in
  ulift (hret NABTO_EC_OK).

Definition nm_mbedtls_cli_reset : dc_uhandler np_error_code :=
  let+ _ := cli_ssl_call mbedtls_ssl_session_reset in
  let+ ctx := ulift hget in
  let+ _ := cli_drain (dc_sendList ctx) in
  ulift (hmod (fun ctx => ctx {{ dc_sslSendBufferSize := 0%nat; dc_recvBufferSize := 0%nat }}) ;;;
         dc_on_timer nm_mbedtls_timer_cancel ;;;
         emit DcCancelStartSend ;;;
         hret NABTO_EC_OK).

Definition dc_handle_packet (buffer : list Z) : dc_uhandler np_error_code :=
  let+ _ := ulift (hmod (fun ctx => ctx {{ dc_recvBuffer := buffer; dc_recvBufferSize := length buffer;
                                           dc_receiving := true }})) in
  let+ _ := nm_dtls_event_do_one in
  let+ _ := ulift (hmod (fun ctx => ctx {{ dc_recvBuffer := []; dc_recvBufferSize := 0%nat; dc_receiving := false }})) in
  let+ ctx := ulift hget in
  let+ _ := (if dc_destroyed ctx && negb (dc_sending ctx) then nm_mbedtls_cli_do_free else ulift hskip) in
  ulift (hret NABTO_EC_OK).

Definition nm_dtls_timed_event_do_one : dc_uhandler unit :=
  let+ ctx := ulift hget in
  if is_closing (dc_state ctx) then ulift hskip else nm_dtls_event_do_one.

(** ** Sending *)

Definition nm_mbedtls_cli_start_send : dc_handler unit := emit DcPostStartSend.

Definition nm_mbedtls_cli_start_send_deferred : dc_uhandler unit :=
  let+ ctx := ulift hget in
  if is_closing (dc_state ctx) then ulift hskip
  else if dc_sending ctx then ulift hskip
  else
    match dc_sendList ctx with
    | [] => ulift hskip
    | next :: rest =>
        let+ _ := ulift (hmod (fun ctx => ctx {{ dc_sendList := rest }})) in
        let+ ret := cli_ssl_call (fun ssl => mbedtls_ssl_write ssl (cs_buffer next)) in
        let sent := hmod (fun ctx => ctx {{ dc_sentCount ::= fun n => u32 (n + 1) }}) in
        ulift (match cs_cb next with
               | None => sent
               | Some cb =>
                   if ret =? MBEDTLS_ERR_SSL_BAD_INPUT_DATA then emit (DcSendCb cb NABTO_EC_MALFORMED_PACKET)
                   else if ret <? 0 then emit (DcSendCb cb NABTO_EC_UNKNOWN)
                   else sent ;;; emit (DcSendCb cb NABTO_EC_OK)
               end ;;;
               nm_mbedtls_cli_start_send)
    end.

Definition dc_async_send_data (sendCtx : np_dtls_cli_send_context) : dc_handler np_error_code :=
  let* ctx := hget in
  if is_closing (dc_state ctx) then hret NABTO_EC_CONNECTION_CLOSING
  else
    hmod (fun ctx => ctx {{ dc_sendList ::= fun l => l ++ [sendCtx] }}) ;;;
    nm_mbedtls_cli_start_send ;;;
    hret NABTO_EC_OK.

Definition nm_dtls_udp_send_callback : dc_uhandler unit :=
  let+ _ := ulift (hmod (fun ctx => ctx {{ dc_sending := false; dc_sslSendBufferSize := 0%nat }})) in
  let+ ctx := ulift hget in
  if is_closing (dc_state ctx) then
    let+ _ := nm_dtls_do_close in
    let+ ctx := ulift hget in
    if dc_destroyed ctx then nm_mbedtls_cli_do_free else ulift hskip
  else nm_dtls_event_do_one.

(** ** Closing *)

Definition dtls_cli_close : dc_uhandler np_error_code :=
  let+ ctx := ulift hget in
  if negb (is_closing (dc_state ctx)) then
    let+ _ := ulift (hmod (fun ctx => ctx {{ dc_state := CLOSING }})) in
    let+ _ := cli_ssl_call mbedtls_ssl_close_notify in
    let+ ctx := ulift hget in
    let+ _ := (if negb (dc_sending ctx) then nm_dtls_do_close else ulift hskip) in
    ulift (hret NABTO_EC_OK)
  else ulift (hret NABTO_EC_OK).

(** The context after [calloc] and the fields that are set; [ssl]: what the library's set up leaves;
    [event]: the answer for the event, whose failure does not free the context. *)
Definition nm_mbedtls_cli_create (ssl : L) (buffers : bool) (init : np_error_code) (setup : Z)
    (event : np_error_code) : np_error_code + np_dtls_cli_context :=
  if negb buffers then inl NABTO_EC_OUT_OF_MEMORY
  else if is_error init then inl init
  else if negb (setup =? 0) then inl NABTO_EC_UNKNOWN
  else if is_error event then inl event
  else inr (mk_dc CONNECTING ssl [] 0 [] 0 nm_mbedtls_timer_init 0 0 [] false false false 0 [] false).

(** ** The life of the context *)

(** [pc_told]: the user was told that the connection is closed - or an end of file was logged -
    since the last connect. [pc_unsafe]: something was done with the context after it was freed, or
    a datagram was sent, or the context freed, while the sender had a datagram. *)
Record cli_pending : Type := mk_pc {
  pc_startSend : bool;
  pc_timer : bool;
  pc_udp : option (list Z);
  pc_told : bool;
  pc_unsafe : bool;
  pc_freed : bool
}.

Definition cli_in_flight (p : cli_pending) : bool := match pc_udp p with Some _ => true | None => false end.

Definition cli_effect (p : cli_pending) (c : cli_call) : cli_pending :=
  match c with
  | DcPostStartSend => p {{ pc_startSend := true }}
  | DcCancelStartSend => p {{ pc_startSend := false }}
  | DcTimer (TimerPost _) => p {{ pc_timer := true }}
  | DcTimer TimerCancel => p {{ pc_timer := false }}
  | DcSend data ec =>
      if is_error ec then p {{ pc_unsafe ::= orb (cli_in_flight p) }}
      else p {{ pc_unsafe ::= orb (cli_in_flight p); pc_udp := Some data }}
  | DcEvent NP_DTLS_CLI_EVENT_HANDSHAKE_COMPLETE => p
  | DcEvent _ | DcLogEof => p {{ pc_told := true }}
  | DcFree => mk_pc false false (pc_udp p) (pc_told p) (pc_unsafe p || cli_in_flight p) true
  | _ => p
  end.

Definition cli_op (p : cli_pending) (c : cli_call) : cli_pending :=
  (cli_effect p c) {{ pc_unsafe ::= orb (pc_freed p) }}.
Definition cli_ops (p : cli_pending) (t : list cli_call) : cli_pending := fold_left cli_op t p.

(** [CiPacket b d]: with [d], the user destroys the context in the first callback of this packet. *)
Inductive cli_input : Type :=
| CiPacket (buffer : list Z) (destroys : bool)
| CiSendData (sendCtx : np_dtls_cli_send_context)
| CiConnect
| CiReset
| CiClose
| CiStartSend
| CiTimer
| CiSent (ec : np_error_code)
| CiDestroy.

(** The user uses a context that it has not destroyed; it connects when the datagrams of the last
    connection are gone, and resets a closed context, or an idle one. *)
Definition cli_enabled (c : np_dtls_cli_context) (p : cli_pending) (i : cli_input) : bool :=
  negb (pc_freed p) &&
  match i with
  | CiStartSend => pc_startSend p
  | CiTimer => pc_timer p
  | CiSent _ => cli_in_flight p
  | CiConnect => negb (dc_destroyed c) && negb (cli_in_flight p)
  | CiReset => negb (dc_destroyed c) && (is_closing (dc_state c) || negb (cli_in_flight p))
  | _ => negb (dc_destroyed c)
  end.

Definition cli_taken (p : cli_pending) (i : cli_input) : cli_pending :=
  match i with
  | CiStartSend => p {{ pc_startSend := false }}
  | CiTimer => p {{ pc_timer := false }}
  | CiSent _ => p {{ pc_udp := None }}
  | CiConnect => p {{ pc_told := false }}
  | _ => p
  end.

Definition cli_ok (m : dc_uhandler unit) : dc_uhandler np_error_code :=
  let+ _ := m in ulift (hret NABTO_EC_OK).

Definition cli_handler (i : cli_input) : dc_uhandler np_error_code :=
  match i with
  | CiPacket buffer d => let+ _ := ulift (hmod (fun ctx => ctx {{ dc_react := d }})) in dc_handle_packet buffer
  | CiSendData s => ulift (dc_async_send_data s)
  | CiConnect => nm_dtls_connect
  | CiReset => nm_mbedtls_cli_reset
  | CiClose => dtls_cli_close
  | CiStartSend => cli_ok nm_mbedtls_cli_start_send_deferred
  | CiTimer => cli_ok nm_dtls_timed_event_do_one
  | CiSent ec => cli_ok nm_dtls_udp_send_callback
  | CiDestroy => cli_ok nm_mbedtls_cli_destroy
  end.

(** The clock and the sender's answers; between two inputs no callback is to destroy anything. *)
Definition cli_env (ctx : np_dtls_cli_context) (now : Z) (answers : list np_error_code) : np_dtls_cli_context :=
  ctx {{ dc_now := now; dc_answers := answers; dc_react := false }}.

Definition cli_history : Type := list (cli_input * np_error_code * list cli_call).

Inductive cli_reachable (ssl : L) : cli_history -> np_dtls_cli_context -> cli_pending -> Prop :=
| cli_created c :
    nm_mbedtls_cli_create ssl true NABTO_EC_OK 0 NABTO_EC_OK = inr c ->
    cli_reachable ssl [] c (mk_pc false false None false false false)
| cli_next h c p i now answers r c' t :
    cli_reachable ssl h c p -> cli_enabled c p i = true ->
    cli_handler i (cli_env c now answers) = Def (r, c', t) ->
    cli_reachable ssl (h ++ [(i, r, t)]) c' (cli_ops (cli_taken p i) t).

(** *** What a call of the library changes *)

Definition cli_flight (c : np_dtls_cli_context) : option (list Z) :=
  if dc_sending c then Some (dc_sslSendBuffer c) else None.

Definition cli_cbs (t : list cli_call) : list nat :=
  omap (fun c => match c with DcSendCb cb _ => Some cb | _ => None end) t.

(** The library may run: the context is alive, the mark of the send buffer is right, and when it is
    closing no callback destroys it. *)
Record cli_open (c : np_dtls_cli_context) : Prop := mk_open {
  o_alive : dc_destroyed c = false;
  o_size : dc_sending c = negb (dc_sslSendBufferSize c =? 0)%nat;
  o_react : is_closing (dc_state c) = true -> dc_react c = false
}.

Record cli_clean (c : np_dtls_cli_context) (p : cli_pending) : Prop := mk_clean {
  k_udp : pc_udp p = cli_flight c;
  k_unsafe : pc_unsafe p = false;
  k_freed : pc_freed p = false
}.

Record cli_io (c c' : np_dtls_cli_context) (t : list cli_call) : Prop := mk_cli_io {
  ci_state : dc_state c' = dc_state c;
  ci_list : dc_sendList c' = dc_sendList c;
  ci_destroyed : dc_destroyed c' = dc_destroyed c;
  ci_receiving : dc_receiving c' = dc_receiving c;
  ci_react : dc_react c' = dc_react c;
  ci_open : cli_open c';
  ci_cbs : cli_cbs t = [];
  ci_clean : forall p, cli_clean c p -> cli_clean c' (cli_ops p t) /\ (pc_told p = true -> pc_told (cli_ops p t) = true)
}.

Lemma cli_ops_app p t t' : cli_ops p (t ++ t') = cli_ops (cli_ops p t) t'.
Proof. apply fold_left_app. Qed.
Lemma cli_cbs_app t t' : cli_cbs (t ++ t') = cli_cbs t ++ cli_cbs t'.
Proof. apply omap_app. Qed.

Lemma cli_io_refl c : cli_open c -> cli_io c c [].
Proof. intros Ho. by split. Qed.

Lemma cli_io_trans c1 c2 c3 t t' : cli_io c1 c2 t -> (cli_open c2 -> cli_io c2 c3 t') -> cli_io c1 c3 (t ++ t').
Proof.
  intros [S1 L1 D1 R1 X1 O1 B1 K1] H2. destruct (H2 O1) as [S2 L2 D2 R2 X2 O2 B2 K2].
  split; try congruence; [by rewrite cli_cbs_app, B1, B2 |].
  intros p Hp. rewrite cli_ops_app. destruct (K1 p Hp) as [Hc1 Ht1]. destruct (K2 _ Hc1) as [Hc2 Ht2]. auto.
Qed.

Lemma cli_send_io b c a c' t : b <> [] -> nm_dtls_mbedtls_send b c = Def (a, c', t) -> cli_open c -> cli_io c c' t.
Proof.
  intros Hb Hr Ho. unfold nm_dtls_mbedtls_send in Hr. rewrite u_hget in Hr. pose proof Ho as [Ha Hs Hx].
  destruct (dc_sslSendBufferSize c =? 0)%nat eqn:Ez; [| injection Hr as <- <- <-; by apply cli_io_refl].
  unfold nm_dtls_do_close, cli_callback, dc_on_timer, ubind, ulift, hbind, hget, hmod, emit, hret in Hr. cbn in Hr.
  destruct c as [st ssl rb rs sb ss tm rc sc sl sg rv ds nw an rx]. cbn in *. subst.
  destruct (is_error (default NABTO_EC_OK (head an))) eqn:Ee; cbn in Hr.
  - destruct (is_closing st) eqn:Est; cbn in Hr; [specialize (Hx eq_refl); subst rx; cbn in Hr |]; injection Hr as <- <- <-; cbn; unfold constant;
      (split; [done .. | | done |]); [by split; cbn; [| | congruence] | | by split; cbn; [| | congruence] |].
    + intros [? ? ? ? ? ?] [Hu Hun Hf]. cbn in *. subst. rewrite Ee. cbn. unfold constant. by repeat split.
    + intros [? ? ? ? ? ?] [Hu Hun Hf]. cbn in *. subst. rewrite Ee. cbn. unfold constant. by repeat split.
  - injection Hr as <- <- <-. cbn. unfold constant. split; [done .. | | done |]; [split; cbn; [done | by destruct b | done] |].
    intros [? ? ? ? ? ?] [Hu Hun Hf]. cbn in *. subst. rewrite Ee. cbn. unfold constant. by repeat split.
Qed.

Lemma cli_ssl_io {A} (q : ssl_prog A) c a c' t :
  ssl_sends (fun b => b <> []) q -> cli_ssl q c = Def (a, c', t) -> cli_open c -> cli_io c c' t.
Proof.
  unfold cli_ssl. apply (ssl_run_rel_on _ _ _ _ (fun b => b <> []) (fun c c' t => cli_open c -> cli_io c c' t)).
  - apply cli_io_refl.
  - intros s1 s2 s3 t1 t2 H1 H2 Ho. apply (cli_io_trans _ s2); [by apply H1 | done].
  - intros. by eapply cli_send_io.
  - intros n s r s' t' Hr Ho. unfold nm_dtls_mbedtls_recv in Hr. rewrite u_hget in Hr.
    destruct (dc_recvBufferSize s =? 0)%nat; injection Hr as <- <- <-; [by apply cli_io_refl |].
    destruct Ho, s; cbn in *. split; [done .. | by split | done |]. intros p [Hu Hun Hf]. by repeat split.
  - intros i f s r s' t' Hr Ho. rewrite u_hget in Hr. unfold dc_on_timer, nm_mbedtls_timer_set_delay in Hr.
    destruct Ho, s; destruct (f =? 0); injection Hr as <- <- <-; cbn in *; unfold constant; (split; [done .. | by split | done |]);
      intros [] []; cbn in *; subst; cbn; unfold constant; by repeat split.
  - intros s r s' t' Hr Ho. rewrite u_hget in Hr. apply uof_inv in Hr as (_ & -> & ->). by apply cli_io_refl.
Qed.

Lemma cli_ssl_call_io {R} (f : L -> ssl_prog (R * L)) c a c' t :
  (forall l, ssl_sends (fun b => b <> []) (f l)) -> cli_ssl_call f c = Def (a, c', t) -> cli_open c -> cli_io c c' t.
Proof.
  intros Hf Hr Ho. unfold cli_ssl_call in Hr. rewrite u_hget in Hr. apply ubind_inv in Hr as (r & s1 & t1 & t2 & Hr & Hk & ->).
  apply cli_ssl_io in Hr; [| done | done]. injection Hk as <- <- <-.
  eapply cli_io_trans; [exact Hr |]. intros []. destruct s1; cbn in *. split; [done .. | by split | done |].
  intros p [Hu Hun Hfr]. by repeat split.
Qed.

(** *** Invariant *)

Context `{!MbedtlsSslLaws L}.

Record cli_inv (c : np_dtls_cli_context) (p : cli_pending) (accepted called : list nat) : Prop := mk_cli_inv {
  w_udp : pc_udp p = cli_flight c;
  w_unsafe : pc_unsafe p = false;
  w_idle : dc_sending c = false -> dc_sslSendBufferSize c = 0%nat;
  w_size : is_closing (dc_state c) = false -> dc_sending c = negb (dc_sslSendBufferSize c =? 0)%nat;
  w_destroyed : dc_destroyed c = true -> is_closing (dc_state c) = true;
  w_freed : pc_freed p = true -> dc_destroyed c = true /\ dc_sending c = false;
  w_alive : dc_destroyed c = true -> pc_freed p = true \/ dc_sending c = true \/ dc_receiving c = true;
  w_told : is_closing (dc_state c) = true -> pc_told p = true \/ dc_sending c = true \/ dc_destroyed c = true;
  w_empty : pc_freed p = true -> dc_sendList c = [];
  w_fifo : accepted = called ++ omap cs_cb (dc_sendList c)
}.

Definition reacts_ok (c : np_dtls_cli_context) : Prop := dc_react c = true -> dc_receiving c = true.

(** A handler that keeps the invariant. *)
Definition ckeeps {A} (m : dc_uhandler A) (c : np_dtls_cli_context) : Prop :=
  forall p accepted called r c' t, cli_inv c p accepted called -> reacts_ok c -> m c = Def (r, c', t) ->
  cli_inv c' (cli_ops p t) accepted (called ++ cli_cbs t) /\ reacts_ok c' /\ dc_receiving c' = dc_receiving c /\
  pc_freed (cli_ops p t) = pc_freed p.

Lemma ckeeps_bind {A B} (m : dc_uhandler A) (k : A -> dc_uhandler B) c :
  ckeeps m c ->
  (forall a c1 t, m c = Def (a, c1, t) -> (exists p acc called, cli_inv c p acc called) -> ckeeps (k a) c1) ->
  ckeeps (ubind m k) c.
Proof.
  intros Hm Hk p acc called r c' t Hi Hx (a & c1 & t1 & t2 & H1 & H2 & ->)%ubind_inv.
  destruct (Hm _ _ _ _ _ _ Hi Hx H1) as (Hi1 & Hx1 & Hr1 & Hf1).
  destruct (Hk _ _ _ H1 ltac:(eauto) _ _ _ _ _ _ Hi1 Hx1 H2) as (Hi2 & Hx2 & Hr2 & Hf2).
  rewrite cli_ops_app, cli_cbs_app, app_assoc. split_and!; [done | done | congruence | congruence].
Qed.

Lemma ckeeps_hget {A} (k : np_dtls_cli_context -> dc_uhandler A) c : ckeeps (k c) c -> ckeeps (ubind (ulift hget) k) c.
Proof. intros Hk p acc called r c' t Hi Hx. rewrite u_hget. by apply Hk. Qed.

Lemma ckeeps_nothing {A} (a : A) c : ckeeps (ulift (hret a)) c.
Proof. intros p acc called r c' t Hi Hx [= <- <- <-]. cbn. by rewrite app_nil_r. Qed.

Lemma inv_open c p acc called : cli_inv c p acc called -> is_closing (dc_state c) = false -> cli_open c /\ cli_clean c p.
Proof.
  intros [Hu Hun Hid Hs Hd Hf Ha Ht Hem Hq] Ec.
  assert (Hnd : dc_destroyed c = false) by (destruct (dc_destroyed c); [by rewrite Hd in Ec | done]).
  split; split; auto; [congruence |]. destruct (pc_freed p); [| done]. destruct (Hf eq_refl). congruence.
Qed.

Lemma ckeeps_ssl {R} (f : L -> ssl_prog (R * L)) c :
  (forall l, ssl_sends (fun b => b <> []) (f l)) -> is_closing (dc_state c) = false -> ckeeps (cli_ssl_call f) c.
Proof.
  intros Hf Ec p acc called r c' t Hi Hx Hr. destruct (inv_open _ _ _ _ Hi Ec) as [Ho Hcl].
  destruct (cli_ssl_call_io _ _ _ _ _ Hf Hr Ho) as [Es El Ed Erc Ex [Ha' Hs' Hx'] Ecb Hk].
  destruct (Hk p Hcl) as [[Hu Hun Hfr] _]. unfold reacts_ok. rewrite Ecb, app_nil_r, Ex, Erc.
  split_and!; [| done | done | destruct Hcl; congruence]. split; rewrite ?Es, ?El, ?Ed, ?Ec; try done; try congruence.
  - intros Hsn. rewrite Hs' in Hsn. apply negb_false_iff, Nat.eqb_eq in Hsn. done.
  - by apply Hi.
Qed.

(** The calls of the user's callbacks. *)
Definition is_user_call (c : cli_call) : bool := match c with DcData _ | DcEvent _ => true | _ => false end.

(** Running what is left, on all fields. *)
Ltac run_cli :=
  unfold cli_callback, nm_mbedtls_cli_destroy, nm_dtls_do_close, dc_on_timer, ubind, ulift, hbind, hget, hmod, emit, hskip, hret;
  cbn.

(** All facts about concrete structures. *)
Ltac open_cli c p :=
  destruct c as [st ssl rb rs sb ss tm rc sc sl sg rv ds nw an rx], p as [ps pt pu pd pn pf]; cbn in *; subst.

Lemma ckeeps_callback call c :
  is_user_call call = true -> dc_destroyed c = false -> ckeeps (cli_callback call) c.
Proof.
  intros Hc Hnd p acc called r c' t [Hu Hun Hid Hs Hd Hf Ha Ht Hem Hq] Hx. unfold reacts_ok in *.
  assert (Hfr : pc_freed p = false) by (destruct (pc_freed p); [destruct (Hf eq_refl); congruence | done]).
  run_cli. open_cli c p. destruct rx; cbn; [rewrite (Hx eq_refl), andb_false_r |]; cbn; intros [= <- <- <-]; cbn; unfold constant;
    destruct call as [| d | e | | | | | |]; try discriminate Hc; try destruct e; cbn; rewrite app_nil_r;
    (split_and!; [split; cbn; try done; naive_solver | done | done | done]).
Qed.

(** Closing, with an event or a line in the log. *)
(** The invariant of a state that was reached by running a handler, field by field. *)
Ltac ckeeps_end := rewrite app_nil_r; split_and!; [split; cbn; try done; naive_solver | done | done | done].

Ltac ckeeps_closing c Ec :=
  let p := fresh "p" in let Hi := fresh "Hi" in let Hx := fresh "Hx" in
  intros p ? ? ? ? ? Hi Hx; destruct (inv_open _ _ _ _ Hi Ec) as [[? _ _] [_ _ ?]];
  destruct Hi; unfold reacts_ok in *; run_cli; open_cli c p.

Lemma ckeeps_closed e c :
  e <> NP_DTLS_CLI_EVENT_HANDSHAKE_COMPLETE -> is_closing (dc_state c) = false ->
  ckeeps (let+ _ := ulift (hmod (fun ctx => ctx {{ dc_state := CLOSING }}) ;;; dc_on_timer nm_mbedtls_timer_cancel) in
          cli_callback (DcEvent e)) c.
Proof.
  intros He Ec. ckeeps_closing c Ec. destruct rx; cbn; [rewrite (Hx eq_refl), andb_false_r |]; cbn; intros [= <- <- <-]; cbn; unfold constant;
    destruct e; try done; cbn; ckeeps_end.
Qed.

Lemma ckeeps_do_close c :
  is_closing (dc_state c) = false ->
  ckeeps (let+ _ := ulift (hmod (fun ctx => ctx {{ dc_state := CLOSING }})) in nm_dtls_do_close) c.
Proof.
  intros Ec. ckeeps_closing c Ec. destruct rx; cbn; [rewrite (Hx eq_refl), andb_false_r |]; cbn; intros [= <- <- <-]; cbn; unfold constant;
    ckeeps_end.
Qed.

Lemma ckeeps_eof c :
  is_closing (dc_state c) = false ->
  ckeeps (ulift (hmod (fun ctx => ctx {{ dc_state := CLOSING }}) ;;; emit DcLogEof)) c.
Proof. intros Ec. ckeeps_closing c Ec. intros [= <- <- <-]. cbn. unfold constant. ckeeps_end. Qed.

(** Steps on fields the invariant is not about. *)
Definition cli_inert (f : np_dtls_cli_context -> np_dtls_cli_context) : Prop :=
  forall c, is_closing (dc_state (f c)) = is_closing (dc_state c) /\ dc_sendList (f c) = dc_sendList c /\
    dc_destroyed (f c) = dc_destroyed c /\ dc_sending (f c) = dc_sending c /\ dc_receiving (f c) = dc_receiving c /\
    dc_sslSendBufferSize (f c) = dc_sslSendBufferSize c /\ dc_react (f c) = dc_react c /\ cli_flight (f c) = cli_flight c.

Lemma ckeeps_hmod f c : cli_inert f -> ckeeps (ulift (hmod f)) c.
Proof.
  intros Hf p acc called r c' t [Hu Hun Hid Hs Hd Hfr Ha Ht Hem Hq] Hx [= <- <- <-]. unfold reacts_ok in *.
  destruct (Hf c) as (E1 & E2 & E3 & E4 & E5 & E6 & E7 & E8). cbn. rewrite app_nil_r, E7, E5.
  split_and!; [| done | done | done]. split; rewrite ?E1, ?E2, ?E3, ?E4, ?E5, ?E6, ?E8; done.
Qed.

(** The state after a call of the library. *)
Lemma cli_ssl_call_same {R} (f : L -> ssl_prog (R * L)) c r c' t :
  (forall l, ssl_sends (fun b => b <> []) (f l)) -> (exists p acc called, cli_inv c p acc called) ->
  is_closing (dc_state c) = false -> cli_ssl_call f c = Def (r, c', t) ->
  dc_state c' = dc_state c /\ dc_destroyed c' = false.
Proof.
  intros Hf (p & acc & called & Hi) Ec Hr. destruct (inv_open _ _ _ _ Hi Ec) as [Ho _].
  destruct (cli_ssl_call_io _ _ _ _ _ Hf Hr Ho) as [? ? ? ? ? Ho' _ _]. split; [done | apply Ho'].
Qed.

Lemma ckeeps_do_one c : ckeeps nm_dtls_event_do_one c.
Proof.
  apply ckeeps_hget. destruct (dc_state c) eqn:Es.
  - apply ckeeps_bind; [apply ckeeps_ssl; [apply ssl_handshake_sends | by rewrite Es] |]. intros ret c1 t1 H1 Hi1.
    apply cli_ssl_call_same in H1 as [H1 Hd]; [| apply ssl_handshake_sends | done | by rewrite Es]. rewrite Es in H1.
    assert (Ec : is_closing (dc_state c1) = false) by by rewrite H1.
    apply ckeeps_hget. destruct (cli_want_io ret); [apply ckeeps_nothing |].
    destruct (cli_access_denied ret c1); [by apply ckeeps_closed |]. destruct (ret =? 0); cbn [negb]; [| by apply ckeeps_closed].
    apply ckeeps_bind; [intros p acc called r c' t Hi Hx [= <- <- <-] |
      intros _ c2 t2 [= <- <-] _; by apply ckeeps_callback; [| destruct c1]].
    destruct Hi as [Hu Hun Hid Hs Hdd Hf Ha Ht Hem Hq]. unfold reacts_ok in *. open_cli c1 p. unfold constant.
    rewrite app_nil_r. split_and!; [split; cbn; try done; auto | done | done | done].
  - apply ckeeps_bind; [apply ckeeps_ssl; [apply ssl_read_sends | by rewrite Es] |]. intros [ret data] c1 t1 H1 Hi1.
    apply cli_ssl_call_same in H1 as [H1 Hd]; [| apply ssl_read_sends | done | by rewrite Es]. rewrite Es in H1.
    assert (Ec : is_closing (dc_state c1) = false) by by rewrite H1.
    apply ckeeps_hget. destruct (ret =? 0); [by apply ckeeps_eof |]. destruct (0 <? ret).
    { apply ckeeps_bind; [apply ckeeps_hmod; intros []; by repeat split |].
      intros _ c2 t2 [= <- <-] _. by apply ckeeps_callback; [| destruct c1]. }
    destruct (cli_want_io ret); [apply ckeeps_nothing |]. destruct (cli_access_denied ret c1); [| by apply ckeeps_do_close].
    apply ckeeps_bind; [| intros _ c2 t2 [= <- <-] _; by apply ckeeps_callback; [| destruct c1]].
    intros p acc called r c' t [Hu Hun Hid Hs Hdd Hf Ha Ht Hem Hq] Hx [= <- <- <-]. unfold reacts_ok in *. open_cli c1 p.
    destruct pf; [by destruct (Hf eq_refl) |]. rewrite app_nil_r. split_and!; [split; cbn; try done; auto | done | done | done].
  - apply ckeeps_nothing.
Qed.

(** *** The inputs *)

Lemma cli_drain_calls l : forall c r c' t,
  cli_drain l c = Def (r, c', t) ->
  cli_cbs t = omap cs_cb l /\ (forall p, pc_freed p = false -> cli_ops p t = p) /\
  exists sl, c' = c {{ dc_sendList := sl }} /\ (dc_sendList c = l -> sl = []).
Proof.
  induction l as [| first l IH]; intros c r c' t; cbn [cli_drain].
  - intros [= <- <- <-]. split_and!; [done | done |]. exists (dc_sendList c). by destruct c.
  - rewrite u_hmod. destruct (cs_cb first) as [cb |] eqn:Ecb; [| done].
    intros (x & c1 & t1 & t2 & H1 & H2 & ->)%ubind_inv. injection H1 as <- <- <-. apply IH in H2 as (Hs & Ho & sl & -> & Hsl).
    rewrite cli_cbs_app, Hs. split_and!; [cbn; by rewrite Ecb | |].
    + intros p Hf. rewrite cli_ops_app. cbn. unfold cli_op. cbn. destruct p; cbn in *. subst. unfold constant. cbn. by apply Ho.
    + exists sl. split; [by destruct c | intros _; apply Hsl; by destruct c].
Qed.

(** Freeing: the context is destroyed and idle, and nothing of it is used any more. *)
Lemma do_free_inv c p acc called r c' t :
  nm_mbedtls_cli_do_free c = Def (r, c', t) ->
  pc_udp p = cli_flight c -> pc_unsafe p = false -> pc_freed p = false ->
  dc_sending c = false -> dc_sslSendBufferSize c = 0%nat -> dc_destroyed c = true -> is_closing (dc_state c) = true ->
  acc = called ++ omap cs_cb (dc_sendList c) ->
  cli_inv c' (cli_ops p t) acc (called ++ cli_cbs t) /\ dc_receiving c' = dc_receiving c.
Proof.
  intros Hr Hu Hun Hf Hsn Hsz Hd Hc Hq. unfold nm_mbedtls_cli_do_free in Hr. rewrite u_hget in Hr.
  apply ubind_inv in Hr as (x & c1 & t1 & t2 & H1 & H2 & ->). apply cli_drain_calls in H1 as (Hs & Ho & sl & -> & Hsl).
  specialize (Hsl eq_refl). subst sl. injection H2 as <- <- <-. rewrite cli_ops_app, cli_cbs_app, Hs, Ho by done.
  open_cli c p. unfold constant. rewrite !app_nil_r. split; [| done]. split; cbn; rewrite ?app_nil_r; auto.
Qed.

Definition cli_accepted_by (i : cli_input) (r : np_error_code) : list nat :=
  match i with CiSendData s => if is_error r then [] else option_list (cs_cb s) | _ => [] end.

(** What a step makes of the invariant; between two steps no packet is being handled. *)
Definition cli_step_keeps (i : cli_input) (c : np_dtls_cli_context) : Prop :=
  forall p accepted called r c' t,
    cli_inv c p accepted called -> dc_react c = false -> dc_receiving c = false ->
    cli_enabled c p i = true -> cli_handler i c = Def (r, c', t) ->
    cli_inv c' (cli_ops (cli_taken p i) t) (accepted ++ cli_accepted_by i r) (called ++ cli_cbs t) /\
    dc_receiving c' = false.

Lemma ckeeps_ok m c : ckeeps m c -> ckeeps (cli_ok m) c.
Proof. intros Hm. apply ckeeps_bind; [done |]. intros. apply ckeeps_nothing. Qed.

Lemma no_react c : dc_react c = false -> reacts_ok c.
Proof. unfold reacts_ok. congruence. Qed.

Lemma cstep_timer c : cli_step_keeps CiTimer c.
Proof.
  intros p acc called r c' t Hi Hx Hrc _ Hr. cbn [cli_accepted_by]. rewrite app_nil_r.
  assert (Hi' : cli_inv c (cli_taken p CiTimer) acc called) by (destruct Hi, p; by split).
  assert (Hk : ckeeps (cli_ok nm_dtls_timed_event_do_one) c).
  { apply ckeeps_ok, ckeeps_hget. destruct (is_closing (dc_state c)); [apply ckeeps_nothing | apply ckeeps_do_one]. }
  destruct (Hk _ _ _ _ _ _ Hi' (no_react _ Hx) Hr) as (H1 & _ & H2 & _). by rewrite H2.
Qed.

Lemma cstep_send_data s c : cli_step_keeps (CiSendData s) c.
Proof.
  intros p acc called r c' t [Hu Hun Hid Hs Hd Hf Ha Ht Hem Hq] Hx Hrc He Hr. cbn in He. apply andb_prop in He as [Hpf _].
  apply negb_true_iff in Hpf. cbn [cli_handler] in Hr. unfold ulift, dc_async_send_data, hbind, hget in Hr.
  destruct (is_closing (dc_state c)) eqn:Es; injection Hr as <- <- <-; open_cli c p; unfold constant; rewrite !app_nil_r;
    (split; [split; cbn; rewrite ?Es; auto; try done | done]).
  by rewrite omap_app, app_assoc; cbn; destruct (cs_cb s).
Qed.

Lemma cstep_connect c : cli_step_keeps CiConnect c.
Proof.
  intros p acc called r c' t Hi Hx Hrc He Hr. cbn [cli_accepted_by]. rewrite app_nil_r. cbn in He.
  apply andb_prop in He as [Hpf He]. apply andb_prop in He as [Hnd Hfl]. apply negb_true_iff in Hpf, Hnd, Hfl.
  cbn [cli_handler] in Hr. unfold nm_dtls_connect in Hr. rewrite u_hmod in Hr.
  set (c1 := c {{ dc_state := CONNECTING; dc_sending := false }}) in Hr.
  assert (Hsn : dc_sending c = false).
  { pose proof (w_udp _ _ _ _ Hi) as Hu. unfold cli_in_flight, cli_flight in *. rewrite Hu in Hfl. by destruct (dc_sending c). }
  assert (Hi' : cli_inv c1 (cli_taken p CiConnect) acc called).
  { unfold c1. destruct Hi as [Hu Hun Hid Hs Hd Hf Ha Ht Hem Hq]. open_cli c p. unfold constant. split; cbn; auto; try congruence.
    intros _. by rewrite Hid. }
  assert (Hk : ckeeps (let+ _ := nm_dtls_event_do_one in ulift (hret NABTO_EC_OK)) c1)
    by (apply ckeeps_bind; [apply ckeeps_do_one | intros; apply ckeeps_nothing]).
  destruct (Hk _ _ _ _ _ _ Hi' (no_react c1 ltac:(by destruct c)) Hr) as (H1 & _ & H2 & _). split; [done |]. rewrite H2. by destruct c.
Qed.

Lemma cstep_packet buffer d c : cli_step_keeps (CiPacket buffer d) c.
Proof.
  intros p acc called r c' t Hi Hx Hrc He Hr. cbn [cli_accepted_by]. rewrite app_nil_r. cbn [cli_taken].
  cbn [cli_handler] in Hr. unfold dc_handle_packet in Hr. rewrite !u_hmod in Hr.
  match type of Hr with ubind _ _ ?s = _ => set (c1 := s) in Hr end.
  assert (Hi' : cli_inv c1 p acc called).
  { unfold c1. destruct Hi as [Hu Hun Hid Hs Hd Hf Ha Ht Hem Hq]. open_cli c p. unfold constant. split; cbn; auto. }
  assert (Hx' : reacts_ok c1) by (unfold c1; by destruct c).
  apply ubind_inv in Hr as (x & c2 & t1 & t2 & H1 & H2 & ->).
  destruct (ckeeps_do_one c1 _ _ _ _ _ _ Hi' Hx' H1) as (Hi2 & _ & _ & Hf2). clear H1 Hi' Hx' c1 Hi.
  apply andb_prop in He as [Hpf _]. apply negb_true_iff in Hpf. rewrite Hpf in Hf2.
  rewrite cli_ops_app, cli_cbs_app, app_assoc. rewrite u_hmod, u_hget in H2. set (p2 := cli_ops p t1) in *.
  apply ubind_inv in H2 as (y & c3 & t3 & t4 & H3 & H4 & ->). injection H4 as <- <- <-. rewrite app_nil_r.
  destruct Hi2 as [Hu Hun Hid Hs Hd Hf Ha Ht Hem Hq].
  match type of H3 with (if dc_destroyed ?s && _ then _ else _) _ = _ => set (c4 := s) in * end.
  assert (E4 : dc_destroyed c4 = dc_destroyed c2 /\ dc_sending c4 = dc_sending c2 /\ dc_state c4 = dc_state c2 /\
    dc_sslSendBufferSize c4 = dc_sslSendBufferSize c2 /\ dc_sendList c4 = dc_sendList c2 /\ cli_flight c4 = cli_flight c2 /\
    dc_receiving c4 = false) by (unfold c4; destruct c2; by repeat split).
  destruct E4 as (E1 & E2 & E3 & E4 & E5 & E6 & E7). clearbody c4.
  rewrite <- E1, <- E2, <- E3, <- ?E4, <- ?E5, <- ?E6 in *.
  destruct (dc_destroyed c4) eqn:Ed; [destruct (dc_sending c4) eqn:Esn |]; cbn [andb negb] in H3.
  - injection H3 as <- <- <-. cbn. rewrite app_nil_r. split; [| done]. split; rewrite ?Ed, ?Esn; auto.
  - destruct (do_free_inv c4 p2 acc (called ++ cli_cbs t1) _ _ _ H3) as [Hi4 Hr4]; auto. by rewrite Hr4.
  - injection H3 as <- <- <-. cbn. rewrite app_nil_r. split; [| done]. by split; rewrite ?Ed; auto.
Qed.

Lemma cstep_start_send c : cli_step_keeps CiStartSend c.
Proof.
  intros p acc called r c' t Hi Hx Hrc He Hr. cbn [cli_accepted_by]. rewrite app_nil_r.
  apply andb_prop in He as [Hpf _]. apply negb_true_iff in Hpf.
  assert (Hi' : cli_inv c (cli_taken p CiStartSend) acc called) by (destruct Hi, p; by split).
  assert (Hpf' : pc_freed (cli_taken p CiStartSend) = false) by by destruct p. clear Hi Hpf.
  set (p1 := cli_taken p CiStartSend) in *. clearbody p1. clear p.
  cbn [cli_handler] in Hr. apply ubind_inv in Hr as (x & c0 & t0 & t5 & Hr & Hz & ->). injection Hz as <- <- <-. rewrite app_nil_r.
  unfold nm_mbedtls_cli_start_send_deferred in Hr. rewrite u_hget in Hr.
  destruct (is_closing (dc_state c)) eqn:Es; [injection Hr as <- <- <-; cbn; by rewrite app_nil_r |].
  destruct (dc_sending c) eqn:Esn; [injection Hr as <- <- <-; cbn; by rewrite app_nil_r |].
  destruct (dc_sendList c) as [| next rest] eqn:El; [injection Hr as <- <- <-; cbn; by rewrite app_nil_r |].
  rewrite u_hmod in Hr. apply ubind_inv in Hr as (ret & c1 & t1 & t2 & H1 & H2 & ->).
  set (c2 := c {{ dc_sendList := rest }}) in *.
  assert (Hi2 : cli_inv c2 p1 acc (called ++ omap cs_cb [next])).
  { unfold c2. destruct Hi' as [Hu Hun Hid Hs Hd Hf Ha Ht Hem Hq]. destruct c. cbn in *. subst. unfold constant. split; cbn; auto; [congruence |].
    rewrite <- app_assoc. by cbn; destruct (cs_cb next). }
  assert (Es2 : is_closing (dc_state c2) = false) by (unfold c2; by destruct c).
  destruct (inv_open _ _ _ _ Hi2 Es2) as [Ho2 _].
  pose proof (cli_ssl_call_io _ _ _ _ _ ltac:(intros; apply ssl_write_sends) H1 Ho2) as Hio.
  pose proof (ckeeps_ssl _ c2 ltac:(intros; apply ssl_write_sends) Es2 _ _ _ _ _ _ Hi2 (no_react c2 ltac:(unfold c2; by destruct c)) H1)
    as (Hi3 & _ & Hr3 & Hf3).
  rewrite (ci_cbs _ _ _ Hio), app_nil_r in Hi3. rewrite cli_ops_app, cli_cbs_app, (ci_cbs _ _ _ Hio). cbn [app].
  rewrite Hpf' in Hf3. set (p3 := cli_ops p1 t1) in *. clearbody p3. clear Hio.
  assert (Hr4 : dc_receiving c1 = false) by (rewrite Hr3; unfold c2; by destruct c).
  destruct Hi3 as [Hu Hun Hid Hs Hd Hf Ha Ht Hem Hq]. cbn [omap list_omap] in Hq. clear - H2 Hu Hun Hid Hs Hd Hf Ha Ht Hq Hr4 Hf3.
  unfold nm_mbedtls_cli_start_send, ulift, hbind, hmod, emit in H2. open_cli c1 p3.
  destruct (cs_cb next) as [cb |]; [destruct (ret =? MBEDTLS_ERR_SSL_BAD_INPUT_DATA); [| destruct (ret <? 0)] |];
    injection H2 as <- <- <-; cbn in *; unfold constant; rewrite ?app_nil_r; (split; [split; cbn; rewrite ?app_nil_r; auto; congruence | done]).
Qed.

Lemma cstep_close c : cli_step_keeps CiClose c.
Proof.
  intros p acc called r c' t Hi Hx Hrc He Hr. cbn [cli_accepted_by cli_taken]. rewrite app_nil_r.
  cbn [cli_handler] in Hr. unfold dtls_cli_close in Hr. rewrite u_hget in Hr.
  destruct (is_closing (dc_state c)) eqn:Es; cbn [negb] in Hr; [injection Hr as <- <- <-; cbn; by rewrite app_nil_r |].
  destruct (inv_open _ _ _ _ Hi Es) as [[Hnd Hsz _] Hcl]. rewrite u_hmod in Hr.
  apply ubind_inv in Hr as (x & c1 & t1 & t2 & H1 & H2 & ->). set (c0 := c {{ dc_state := CLOSING }}) in *.
  assert (Ho : cli_open c0) by (unfold c0; destruct c; cbn in *; by split).
  assert (Hcl0 : cli_clean c0 p) by (unfold c0; destruct Hcl; destruct c; by split).
  apply cli_ssl_call_io in H1; [| apply ssl_close_notify_sends | done].
  destruct H1 as [E1 E2 E3 E4 E5 [Ha1 Hs1 _] Ecb Hk]. destruct (Hk p Hcl0) as [[Hu1 Hun1 Hf1] _].
  assert (E0 : is_closing (dc_state c1) = true /\ dc_sendList c1 = dc_sendList c /\ dc_receiving c1 = false /\ dc_react c1 = false)
    by (rewrite E1, E2, E4, E5; unfold c0; destruct c; by repeat split).
  destruct E0 as (F1 & F2 & F3 & F4). pose proof (w_fifo _ _ _ _ Hi) as Hq. rewrite <- F2 in Hq.
  rewrite cli_ops_app, cli_cbs_app, Ecb. cbn [app]. set (p1 := cli_ops p t1) in *. clearbody p1.
  rewrite u_hget in H2. clear - H2 Ha1 Hs1 Hu1 Hun1 Hf1 F1 F3 F4 Hq.
  revert H2. run_cli. open_cli c1 p1. destruct (Nat.eqb_spec ss 0); cbn; intros [= <- <- <-]; cbn; unfold constant;
    rewrite ?app_nil_r; (split; [split; cbn; rewrite ?F1; auto; by intros | done]).
Qed.

Lemma cstep_destroy c : cli_step_keeps CiDestroy c.
Proof.
  intros p acc called r c' t Hi Hx Hrc He Hr. cbn [cli_accepted_by cli_taken]. rewrite app_nil_r.
  apply andb_prop in He as [Hpf Hnd]. apply negb_true_iff in Hpf. cbn in Hnd. apply negb_true_iff in Hnd.
  cbn [cli_handler] in Hr. apply ubind_inv in Hr as (x & c1 & t1 & t2 & H1 & H2 & ->). injection H2 as <- <- <-. rewrite app_nil_r.
  unfold nm_mbedtls_cli_destroy in H1. rewrite u_hmod, u_hget in H1. set (c0 := c {{ dc_state := CLOSING; dc_destroyed := true }}) in *.
  destruct Hi as [Hu Hun Hid Hs Hd Hf Ha Ht Hem Hq].
  assert (E : is_closing (dc_state c0) = true /\ dc_destroyed c0 = true /\ dc_sending c0 = dc_sending c /\
    dc_sslSendBufferSize c0 = dc_sslSendBufferSize c /\ dc_sendList c0 = dc_sendList c /\ cli_flight c0 = cli_flight c /\
    dc_receiving c0 = false) by (unfold c0; destruct c; by repeat split).
  destruct E as (E1 & E2 & E3 & E4 & E5 & E6 & E7). clearbody c0. rewrite E7, E3 in H1.
  destruct (dc_sending c) eqn:Esn; cbn in H1.
  - injection H1 as <- <- <-. cbn. rewrite app_nil_r. split; [| done].
    split; rewrite ?E1, ?E2, ?E3, ?E4, ?E5, ?E6; auto; try done. by rewrite Hpf.
  - destruct (do_free_inv c0 p acc called _ _ _ H1) as [Hi' Hr']; try congruence; [rewrite E4; auto |].
    by rewrite Hr'.
Qed.

Lemma cstep_sent ec c : cli_step_keeps (CiSent ec) c.
Proof.
  intros p acc called r c' t Hi Hx Hrc He Hr. cbn [cli_accepted_by]. rewrite app_nil_r.
  apply andb_prop in He as [Hpf Hfl]. apply negb_true_iff in Hpf.
  cbn [cli_handler] in Hr. apply ubind_inv in Hr as (x & c1 & t1 & t2 & H1 & H2 & ->). injection H2 as <- <- <-. rewrite app_nil_r.
  unfold nm_dtls_udp_send_callback in H1. rewrite u_hmod, u_hget in H1.
  set (c0 := c {{ dc_sending := false; dc_sslSendBufferSize := 0%nat }}) in *.
  destruct Hi as [Hu Hun Hid Hs Hd Hf Ha Ht Hem Hq].
  destruct (is_closing (dc_state c0)) eqn:Es.
  - apply ubind_inv in H1 as (y & c2 & t3 & t4 & H1 & H2 & ->). rewrite u_hget in H2.
    assert (E : is_closing (dc_state c2) = true /\ dc_sending c2 = false /\ dc_sslSendBufferSize c2 = 0%nat /\
      dc_destroyed c2 = dc_destroyed c /\ dc_sendList c2 = dc_sendList c /\ dc_receiving c2 = false /\
      pc_freed (cli_ops (cli_taken p (CiSent ec)) t3) = false /\ pc_unsafe (cli_ops (cli_taken p (CiSent ec)) t3) = false /\
      pc_udp (cli_ops (cli_taken p (CiSent ec)) t3) = None /\ pc_told (cli_ops (cli_taken p (CiSent ec)) t3) = true /\ cli_cbs t3 = []).
    { revert H1. unfold c0 in *. clear - Es Hx Hrc Hpf Hun. run_cli. open_cli c p. intros [= <- <- <-]. cbn. unfold constant.
      by repeat split. }
    destruct E as (E1 & E2 & E3 & E4 & E5 & E6 & E7 & E8 & E9 & E10 & E11).
    rewrite cli_ops_app, cli_cbs_app, E11. cbn [app]. set (p1 := cli_ops _ t3) in *. clearbody p1. clear H1 Es. clearbody c0.
    assert (Hu2 : pc_udp p1 = cli_flight c2) by (unfold cli_flight; by rewrite E2).
    destruct (dc_destroyed c2) eqn:Ed.
    + destruct (do_free_inv c2 p1 acc called _ _ _ H2) as [Hi' Hr']; try done; [by rewrite E5 |]. split; [done | by rewrite Hr'].
    + injection H2 as <- <- <-. cbn. rewrite app_nil_r. split; [| done]. split; rewrite ?E1, ?E2, ?E5, ?E10, ?Ed, ?E7; auto; try done.
  - assert (Hi' : cli_inv c0 (cli_taken p (CiSent ec)) acc called).
    { unfold c0 in *. open_cli c p. unfold constant. split; cbn; rewrite ?Es; auto; try done; intros Hds; by rewrite (Hd Hds) in Es. }
    destruct (ckeeps_do_one c0 _ _ _ _ _ _ Hi' (no_react c0 ltac:(unfold c0; by destruct c)) H1) as (H1' & _ & H2' & _).
    split; [done |]. rewrite H2'. unfold c0. by destruct c.
Qed.

(** A reset sends nothing. *)
Record cli_quiet (c c' : np_dtls_cli_context) (t : list cli_call) : Prop := mk_quiet {
  q_inert : is_closing (dc_state c') = is_closing (dc_state c) /\ dc_sendList c' = dc_sendList c /\
    dc_destroyed c' = dc_destroyed c /\ dc_sending c' = dc_sending c /\ dc_receiving c' = dc_receiving c /\
    dc_sslSendBufferSize c' = dc_sslSendBufferSize c /\ cli_flight c' = cli_flight c;
  q_ops : forall p, pc_freed p = false -> exists b, cli_ops p t = p {{ pc_timer := b }};
  q_cbs : cli_cbs t = []
}.

Lemma cli_quiet_refl c : cli_quiet c c [].
Proof. split; [done | intros p Hp; exists (pc_timer p); by destruct p | done]. Qed.

Lemma cli_quiet_trans c1 c2 c3 t t' : cli_quiet c1 c2 t -> cli_quiet c2 c3 t' -> cli_quiet c1 c3 (t ++ t').
Proof.
  intros [I1 O1 B1] [I2 O2 B2]. split; [intuition congruence | | by rewrite cli_cbs_app, B1, B2].
  intros p Hp. rewrite cli_ops_app. destruct (O1 p Hp) as [b1 ->]. destruct (O2 (p {{ pc_timer := b1 }})) as [b2 ->]; [by destruct p |].
  exists b2. by destruct p.
Qed.

Lemma reset_quiet c r c' t : cli_ssl_call mbedtls_ssl_session_reset c = Def (r, c', t) -> cli_quiet c c' t.
Proof.
  unfold cli_ssl_call. rewrite u_hget. intros (x & c1 & t1 & t2 & H1 & H2 & ->)%ubind_inv. injection H2 as <- <- <-. rewrite app_nil_r.
  assert (Hq : cli_quiet c c1 t1).
  { revert H1. unfold cli_ssl. apply (ssl_run_rel_on _ _ _ _ (fun _ => False) cli_quiet);
      [apply cli_quiet_refl | apply cli_quiet_trans | done | | | | apply ssl_session_reset_sends].
    - intros n s a s' t' Hr. unfold nm_dtls_mbedtls_recv in Hr. rewrite u_hget in Hr.
      destruct (dc_recvBufferSize s =? 0)%nat; injection Hr as <- <- <-; [apply cli_quiet_refl |].
      split; [by destruct s | intros p Hp; exists (pc_timer p); by destruct p | done].
    - intros i f s a s' t' Hr. rewrite u_hget in Hr. unfold dc_on_timer, nm_mbedtls_timer_set_delay in Hr.
      destruct (f =? 0); injection Hr as <- <- <-; (split; [by destruct s | | done]); intros [] Hp; cbn in *; subst; eexists; reflexivity.
    - intros s a s' t' Hr. rewrite u_hget in Hr. apply uof_inv in Hr as (_ & -> & ->). apply cli_quiet_refl. }
  destruct Hq as [Hin Hop Hcb]. split; [by destruct c1 | done | done].
Qed.

Lemma cstep_reset c : cli_step_keeps CiReset c.
Proof.
  intros p acc called r c' t Hi Hx Hrc He Hr. cbn [cli_accepted_by cli_taken]. rewrite app_nil_r.
  apply andb_prop in He as [Hpf He]. apply negb_true_iff in Hpf. apply andb_prop in He as [Hnd He]. apply negb_true_iff in Hnd.
  cbn [cli_handler] in Hr. unfold nm_mbedtls_cli_reset in Hr. apply ubind_inv in Hr as (x & c1 & t1 & t2 & H1 & H2 & ->).
  apply reset_quiet in H1 as [(I1 & I2 & I3 & I4 & I5 & I6 & I7) Hop Hcb]. destruct (Hop p Hpf) as [b Hb].
  rewrite cli_ops_app, cli_cbs_app, Hcb, Hb. cbn [app]. rewrite u_hget in H2.
  apply ubind_inv in H2 as (y & c2 & t3 & t4 & H3 & H4 & ->). apply cli_drain_calls in H3 as (Hs3 & Ho3 & sl & -> & Hsl).
  specialize (Hsl eq_refl). subst sl. rewrite cli_ops_app, cli_cbs_app, Hs3, Ho3 by by destruct p.
  destruct Hi as [Hu Hun Hid Hs Hd Hf Ha Ht Hem Hq]. rewrite <- I2 in Hq. injection H4 as <- <- <-.
  assert (Hidle : is_closing (dc_state c) = false -> dc_sending c = false).
  { intros Ec. rewrite Ec in He. cbn in He. unfold cli_in_flight in He. rewrite Hu in He. unfold cli_flight in He. by destruct (dc_sending c). }
  destruct c1, p. cbn in *. subst. unfold constant in *. rewrite app_nil_r.
  split; [split; cbn; rewrite ?app_nil_r, ?I1, ?I7; auto | congruence].
Qed.

Lemma cli_step_inv i c : cli_step_keeps i c.
Proof.
  destruct i; auto using cstep_packet, cstep_send_data, cstep_connect, cstep_reset, cstep_close, cstep_start_send, cstep_timer,
    cstep_sent, cstep_destroy.
Qed.

(** ** Theorems *)

Definition cli_trace (h : cli_history) : list cli_call := concat (map snd h).
Definition cli_accepted (h : cli_history) : list nat := concat (map (fun s => cli_accepted_by s.1.1 s.1.2) h).

Lemma cli_reachable_inv ssl h c p :
  cli_reachable ssl h c p -> cli_inv c p (cli_accepted h) (cli_cbs (cli_trace h)) /\ dc_receiving c = false.
Proof.
  induction 1 as [c [= <-] | h c p i now answers r c' t _ [IH Hrc] He Hr].
  - split; [by split | done].
  - unfold cli_trace, cli_accepted in *. rewrite !map_app, !concat_app. cbn [map concat fst snd]. rewrite !app_nil_r, cli_cbs_app.
    eapply cli_step_inv; [| | | | exact Hr].
    + destruct IH, c; by split.
    + by destruct c.
    + by destruct c.
    + rewrite <- He. by destruct c, i.
Qed.

(** Data is sent in order, and no callback is lost or called twice: at any time the callbacks
    that were called, followed by those of the sends that still wait, are exactly those of the
    accepted sends, in order; nothing waits any more when the context is freed. *)
Lemma dtls_cli_sends_conserved ssl h c p (Hr : cli_reachable ssl h c p) :
  cli_accepted h = cli_cbs (cli_trace h) ++ omap cs_cb (dc_sendList c) /\
  (pc_freed p = true -> cli_accepted h = cli_cbs (cli_trace h)).
Proof.
  destruct (cli_reachable_inv _ _ _ _ Hr) as [[Hu Hun Hid Hs Hd Hf Ha Ht Hem Hq] _]. split; [done |].
  intros Hfr. by rewrite Hq, (Hem Hfr), app_nil_r.
Qed.


(** The end of a connection is told: when the context is closing and not destroyed, its user
    was told since the last connect - or the connection ended with an end of file, which is only
    logged -, or a datagram is on its way, and its completion tells it. *)
Lemma dtls_cli_end_told ssl h c p (Hr : cli_reachable ssl h c p)
    (Hc : dc_state c = CLOSING) (Hd : dc_destroyed c = false) :
  pc_told p = true \/
  is_Some (pc_udp p) /\
  forall ec now answers r c' t, cli_handler (CiSent ec) (cli_env c now answers) = Def (r, c', t) ->
    DcEvent NP_DTLS_CLI_EVENT_CLOSED ∈ t.
Proof.
  destruct (cli_reachable_inv _ _ _ _ Hr) as [[Hu Hun Hid Hs Hds Hf Ha Ht Hem Hq] _]. rewrite Hc in Ht.
  destruct (Ht eq_refl) as [? | [Hsn | ?]]; [by left | right | congruence].
  split; [rewrite Hu; unfold cli_flight; rewrite Hsn; by eexists |]. intros ec now answers r c' t Hh.
  cbn [cli_handler] in Hh. apply ubind_inv in Hh as (x & c1 & t1 & t2 & H1 & H2 & ->). injection H2 as <- <- <-.
  revert H1. unfold nm_dtls_udp_send_callback. run_cli. destruct c; cbn in *; subst; unfold constant. cbn.
  intros [= <- <- <-]. right. left.
Qed.
End DtlsClient.

(** ** Witnesses *)

Section Run.
Context {L : Type} `{MbedtlsSsl L}.

(** A run of inputs, at time 0 and with a sender that accepts everything. *)
Fixpoint cli_run (inputs : list cli_input) (s : cli_history * np_dtls_cli_context * cli_pending) :
    option (cli_history * np_dtls_cli_context * cli_pending) :=
  match inputs with
  | [] => Some s
  | i :: inputs =>
      let '(h, c, p) := s in
      if cli_enabled c p i then
        match cli_handler i (cli_env c 0 []) with
        | Def (r, c', t) => cli_run inputs (h ++ [(i, r, t)], c', cli_ops (cli_taken p i) t)
        | UB => None
        end
      else None
  end.

Lemma cli_run_reachable ssl inputs : forall h c p h' c' p',
  cli_reachable ssl h c p -> cli_run inputs (h, c, p) = Some (h', c', p') -> cli_reachable ssl h' c' p'.
Proof.
  induction inputs as [| i inputs IH]; intros h c p h' c' p' Hr; cbn [cli_run]; [by intros [= <- <- <-] |].
  destruct (cli_enabled c p i) eqn:He; [| done]. destruct (cli_handler i (cli_env c 0 [])) as [[[r c1] t] |] eqn:Eh; [| done].
  apply IH. by eapply cli_next.
Qed.
End Run.

#[local] Existing Instance plain_ssl.
#[local] Existing Instance plain_ssl_laws.

Definition cli_new : np_dtls_cli_context :=
  mk_dc CONNECTING tt [] 0 [] 0 nm_mbedtls_timer_init 0 0 [] false false false 0 [] false.
Definition cli_idle : cli_pending := mk_pc false false None false false false.

Definition cli_example (inputs : list cli_input) := cli_run inputs ([], cli_new, cli_idle).

Lemma cli_example_reachable inputs h c p : cli_example inputs = Some (h, c, p) -> cli_reachable tt h c p.
Proof. apply cli_run_reachable. by constructor. Qed.

(** Two sends one after the other: the first is sent, the second waits. *)
Definition cli_two_sends : list cli_input :=
  [CiConnect; CiPacket [5] false; CiSendData (mk_cs [1; 2] (Some 1%nat)); CiSendData (mk_cs [3] (Some 2%nat)); CiStartSend].

Lemma dtls_cli_sends_conserved_witness :
  exists h c p, cli_example cli_two_sends = Some (h, c, p) /\
  cli_accepted h = [1; 2]%nat /\ cli_cbs (cli_trace h) ++ omap cs_cb (dc_sendList c) = [1; 2]%nat.
Proof.
  destruct (cli_example cli_two_sends) as [[[h c] p] |] eqn:E; [| discriminate E].
  assert (Ha : cli_accepted h = [1; 2]%nat)
    by (pose proof (f_equal (fmap (fun s => cli_accepted s.1.1)) E) as Ha; vm_compute in Ha; injection Ha as ->; reflexivity).
  exists h, c, p. split; [reflexivity |]. split; [exact Ha |].
  rewrite <- (proj1 (dtls_cli_sends_conserved tt h c p (cli_example_reachable _ h c p E))). exact Ha.
Defined.


Lemma dtls_cli_end_told_witness :
  exists h c p, cli_example (cli_two_sends ++ [CiClose]) = Some (h, c, p) /\
  (pc_told p = true \/ is_Some (pc_udp p)).
Proof.
  destruct (cli_example (cli_two_sends ++ [CiClose])) as [[[h c] p] |] eqn:E; [| discriminate E].
  assert (Hd : (dc_state c, dc_destroyed c) = (CLOSING, false))
    by (pose proof (f_equal (fmap (fun s => (dc_state s.1.2, dc_destroyed s.1.2))) E) as Hx;
        vm_compute in Hx; injection Hx as H1 H2; exact (eq_sym (f_equal2 pair H1 H2))).
  exists h, c, p. split; [reflexivity |].
  destruct (dtls_cli_end_told tt h c p (cli_example_reachable _ h c p E) (f_equal fst Hd) (f_equal snd Hd)) as [Ht | [Hu _]];
    [left; exact Ht | right; exact Hu].
Defined.

(** The second of two sends is never sent: after the first datagram is gone, it waits, and no event is
    posted that would take it. *)
Example dtls_cli_stalls :
  exists h c p, cli_example (cli_two_sends ++ [CiStartSend; CiSent NABTO_EC_OK]) = Some (h, c, p) /\
  dc_state c = DATA /\ length (dc_sendList c) = 1%nat /\ p = cli_idle.
Proof. eexists _, _, _. split; [vm_compute; reflexivity |]. by repeat split. Qed.

Definition closed_events (h : cli_history) : nat :=
  length (List.filter (fun c => match c with DcEvent NP_DTLS_CLI_EVENT_CLOSED => true | _ => false end) (cli_trace h)).

(** A read that fails while a datagram is sent: the end is told at once, and again when the datagram is
    gone. *)
Example dtls_cli_told_twice :
  exists h c p, cli_example (cli_two_sends ++ [CiPacket [255] false; CiSent NABTO_EC_OK]) = Some (h, c, p) /\
  closed_events h = 2%nat.
Proof. eexists _, _, _. split; [vm_compute; reflexivity | reflexivity]. Qed.

(** A user that destroys the context when it is told the end by the completion of a send: the context is
    freed twice. *)
Example dtls_cli_double_free :
  let c := cli_new {{ dc_state := CLOSING; dc_sending := true; dc_react := true }} in
  match nm_dtls_udp_send_callback c with
  | Def (_, _, t) => t = [DcTimer TimerCancel; DcEvent NP_DTLS_CLI_EVENT_CLOSED; DcTimer TimerCancel; DcFree;
                          DcTimer TimerCancel; DcFree]
  | UB => False
  end.
Proof. reflexivity. Qed.
