(* ===== verification/Authorization.v ===== *)
(** * Authorization requests (nabto_device_authorization.c, nabto_device_authorization_events.c)

    A component that needs a permission creates a request, adds attributes, and asks for access;
    the request goes to the listener of the application, which gives a verdict and frees the
    request; the verdict reaches the component in an event. The request is shared by both sides
    and freed by the one that is done last. *)

From S2P Require Import Prelude Platform.

#[local] Open Scope Z_scope.
#[local] Open Scope list_scope.
#[local] Open Scope handler_scope.

(** The attributes are a linked list, the newest first; a callback is a number, with its data. *)
Record nabto_device_authorization_request : Type := mk_ar {
  ar_attributes : list (string * string);
  ar_connectionReference : Z;
  ar_action : string;
  ar_apiDone : bool;
  ar_platformDone : bool;
  ar_verdict : bool;
  ar_verdictDone : bool;
  ar_verdictCallback : option nat
}.

Inductive auth_call : Type :=
| AzListenerAdd                           (* the request is given to the listener *)
| AzPostVerdict
| AzVerdict (cb : nat) (allowed : bool)
| AzDestroyEvent
| AzFree.

(** A request that was freed is [None]: to use it is undefined. *)
Definition az_uhandler (A : Type) : Type := uhandler (option nabto_device_authorization_request) auth_call A.

Definition az_get : az_uhandler nabto_device_authorization_request :=
  let+ r := ulift hget in uof (match r with Some r => Def r | None => UB end).
Definition az_mod (f : nabto_device_authorization_request -> nabto_device_authorization_request) : az_uhandler unit :=
  let+ r := az_get in ulift (hmod (fun _ => Some (f r))).

(** ** The module for the platform *)

(** The result of [calloc] is not checked. *)
Definition create_request (allocated : bool) (event : np_error_code) (connectionRef : Z) (action : string) :
    cres (option nabto_device_authorization_request) :=
  if negb allocated then UB
  else if is_error event then Def None
  else Def (Some (mk_ar [] connectionRef action true false false false None)).

Definition free_request_when_unused : az_uhandler unit :=
  let+ _ := az_get in
  ulift (emit AzDestroyEvent ;;; emit AzFree ;;; hmod (fun _ => None)).

Definition discard_request : az_uhandler unit :=
  let+ _ := az_mod (fun r => r {{ ar_platformDone := true }}) in
  let+ r := az_get in
  if ar_apiDone r then free_request_when_unused else ulift hskip.

Definition handle_verdict : az_uhandler unit :=
  let+ authReq := az_get in
  let+ cb := uof (match ar_verdictCallback authReq with Some cb => Def cb | None => UB end) in
  let+ _ := ulift (emit (AzVerdict cb (ar_verdict authReq))) in
  let+ _ := az_mod (fun r => r {{ ar_platformDone := true }}) in
  let+ r := az_get in
  if ar_apiDone r then free_request_when_unused else ulift hskip.

Definition do_verdict (verdict : bool) : az_uhandler unit :=
  let+ authReq := az_get in
  if negb (ar_verdictDone authReq) then
    let+ _ := az_mod (fun r => r {{ ar_verdict := verdict; ar_verdictDone := true }}) in
    ulift (emit AzPostVerdict)
  else ulift hskip.

(** [listener]: the answer of the listener to the event, if there is a listener. *)
Definition check_access (listener : option np_error_code) (callback : nat) : az_uhandler unit :=
  let+ _ := az_mod (fun r => r {{ ar_apiDone := false }}) in
  let+ _ := az_mod (fun r => r {{ ar_verdictCallback := Some callback }}) in
  let refuse :=
    let+ _ := az_mod (fun r => r {{ ar_apiDone := true }}) in do_verdict false in
  match listener with
  | Some ec => let+ _ := ulift (emit AzListenerAdd) in if is_error ec then refuse else ulift hskip
  | None => refuse
  end.

(** [allocated]: whether the attribute and its two strings could be allocated. The request is not
    NULL. *)
Definition add_string_attribute (key value : string) (allocated : bool * bool * bool) : az_uhandler np_error_code :=
  let '(attribute, k, v) := allocated in
  if negb attribute then ulift (hret NABTO_EC_OUT_OF_MEMORY)
  else if negb k || negb v then ulift (hret NABTO_EC_OUT_OF_MEMORY)
  else
    let+ _ := az_mod (fun r => r {{ ar_attributes ::= fun old => (key, value) :: old }}) in
    ulift (hret NABTO_EC_OK).

(** ** The API *)

Definition nabto_device_authorization_request_free : az_uhandler unit :=
  let+ authReq := az_get in
  let+ _ := (if negb (ar_verdictDone authReq) then do_verdict false else ulift hskip) in
  let+ _ := az_mod (fun r => r {{ ar_apiDone := true }}) in
  let+ r := az_get in
  if ar_platformDone r then free_request_when_unused else ulift hskip.

Definition nabto_device_authorization_request_verdict (verdict : bool) : az_uhandler unit := do_verdict verdict.

Definition nabto_device_authorization_request_get_action : az_uhandler string :=
  let+ r := az_get in ulift (hret (ar_action r)).
Definition nabto_device_authorization_request_get_connection_ref : az_uhandler Z :=
  let+ r := az_get in ulift (hret (ar_connectionReference r)).

Definition get_attribute (authReq : nabto_device_authorization_request) (index : nat) : option (string * string) :=
  ar_attributes authReq !! index.
Definition get_attributes_size (authReq : nabto_device_authorization_request) : nat := length (ar_attributes authReq).

Definition nabto_device_authorization_request_get_attributes_size : az_uhandler nat :=
  let+ r := az_get in ulift (hret (get_attributes_size r)).

(** There is no check of the index. *)
Definition nabto_device_authorization_request_get_attribute_name (index : nat) : az_uhandler string :=
  let+ r := az_get in uof (match get_attribute r index with Some a => Def a.1 | None => UB end).
Definition nabto_device_authorization_request_get_attribute_value (index : nat) : az_uhandler string :=
  let+ r := az_get in uof (match get_attribute r index with Some a => Def a.2 | None => UB end).

(** ** The listener *)

(** Where the application wants the next request, and whether a listener is set. *)
Record nabto_device_authorization_module : Type := mk_am {
  am_request : option nat;
  am_listener : bool
}.

Inductive module_call : Type :=
| MoListenerInit
| MoClear (request : nat)                 (* the variable of the application is set to NULL *)
| MoDeliver (request : nat)               (* the request is written to it *)
| MoResolve (future : nat) (ec : np_error_code)
| MoTryResolve.

Definition mo_handler (A : Type) : Type := handler nabto_device_authorization_module module_call A.

Definition nabto_device_authorization_init_module : nabto_device_authorization_module := mk_am None false.

Definition nabto_device_authorization_listener_callback (ec : np_error_code) :
    uhandler nabto_device_authorization_module module_call np_error_code :=
  let+ ctx := ulift hget in
  if is_error ec then ulift (hret NABTO_EC_OK)
  else
    let+ request := uof (match am_request ctx with Some r => Def r | None => UB end) in
    ulift (emit (MoDeliver request) ;;; hret NABTO_EC_OK).

(** [ec]: the answer of [nabto_device_listener_init]. *)
Definition nabto_device_authorization_request_init_listener (ec : np_error_code) : mo_handler np_error_code :=
  let* dev := hget in
  if am_listener dev then hret NABTO_EC_IN_USE
  else
    emit MoListenerInit ;;;
    (if is_error ec then hskip else hmod (fun m => m {{ am_listener := true }})) ;;;
    hret ec.

(** [rightType]: whether the listener is one for authorization requests, [status] its status, [init] the
    answer to the future. *)
Definition nabto_device_listener_new_authorization_request (rightType : bool) (status init : np_error_code)
    (future request : nat) : mo_handler unit :=
  if negb rightType then emit (MoResolve future NABTO_EC_INVALID_ARGUMENT)
  else if is_error status then emit (MoResolve future status)
  else if is_error init then emit (MoResolve future init)
  else
    emit (MoClear request) ;;;
    hmod (fun m => m {{ am_request := Some request }}) ;;;
    emit MoTryResolve.

(** ** The life of a request *)

(** Where the component and the application are. A request is lost when the listener gives up the
    events of its queue: it calls its callback with an error, which does nothing. *)
Inductive platform_phase : Type := PfBuilding | PfWaiting | PfDone.
Inductive api_phase : Type := ApNone | ApQueued | ApHeld | ApDone | ApLost.

#[global] Instance platform_phase_eq : EqDecision platform_phase.
Proof. solve_decision. Defined.
#[global] Instance api_phase_eq : EqDecision api_phase.
Proof. solve_decision. Defined.

Record auth_env : Type := mk_env {
  en_platform : platform_phase;
  en_api : api_phase;
  en_posted : bool                        (* the event of the verdict is in the queue *)
}.

Inductive auth_input : Type :=
| AuAttribute (key value : string) (allocated : bool * bool * bool)
| AuDiscard
| AuCheck (listener : option np_error_code) (callback : nat)
| AuDelivered
| AuDropped
| AuVerdictEvent
| AuUserVerdict (verdict : bool)
| AuUserFree
| AuUserLook (index : nat).

(** The component discards a request or asks, once; the application uses a request while it has it;
    the queue runs an event that was posted. *)
Definition allowed (e : auth_env) (i : auth_input) : bool :=
  match i with
  | AuAttribute _ _ _ | AuDiscard | AuCheck _ _ => bool_decide (en_platform e = PfBuilding)
  | AuDelivered | AuDropped => bool_decide (en_api e = ApQueued)
  | AuVerdictEvent => en_posted e
  | AuUserVerdict _ | AuUserFree | AuUserLook _ => bool_decide (en_api e = ApHeld)
  end.

(** The application looks at attributes that exist. *)
Definition auth_handler (i : auth_input) : az_uhandler unit :=
  match i with
  | AuAttribute key value allocated => let+ _ := add_string_attribute key value allocated in ulift hskip
  | AuDiscard => discard_request
  | AuCheck listener callback => check_access listener callback
  | AuDelivered | AuDropped => ulift hskip
  | AuVerdictEvent => handle_verdict
  | AuUserVerdict verdict => nabto_device_authorization_request_verdict verdict
  | AuUserFree => nabto_device_authorization_request_free
  | AuUserLook index =>
      let+ _ := nabto_device_authorization_request_get_action in
      let+ _ := nabto_device_authorization_request_get_connection_ref in
      let+ size := nabto_device_authorization_request_get_attributes_size in
      if (index <? size)%nat then
        let+ _ := nabto_device_authorization_request_get_attribute_name index in
        let+ _ := nabto_device_authorization_request_get_attribute_value index in
        ulift hskip
      else ulift hskip
  end.

Definition is_post (c : auth_call) : bool := match c with AzPostVerdict => true | _ => false end.
Definition is_free (c : auth_call) : bool := match c with AzFree => true | _ => false end.

Definition accepts (listener : option np_error_code) : bool :=
  match listener with Some ec => negb (is_error ec) | None => false end.

Definition auth_next (e : auth_env) (i : auth_input) (t : list auth_call) : auth_env :=
  let e := match i with
           | AuDiscard => e {{ en_platform := PfDone }}
           | AuCheck listener _ =>
               e {{ en_platform := PfWaiting; en_api := if accepts listener then ApQueued else ApNone }}
           | AuDelivered => e {{ en_api := ApHeld }}
           | AuDropped => e {{ en_api := ApLost }}
           | AuVerdictEvent => e {{ en_platform := PfDone; en_posted := false }}
           | AuUserFree => e {{ en_api := ApDone }}
           | _ => e
           end in
  e {{ en_posted ::= orb (existsb is_post t) }}.

Definition auth_state : Type := option nabto_device_authorization_request * auth_env.

Section Life.
(** The request as it was created. *)
Context (connectionRef : Z) (action : string).

Definition auth_start : auth_state :=
  (Some (mk_ar [] connectionRef action true false false false None), mk_env PfBuilding ApNone false).

Inductive auth_reachable : list auth_input -> list auth_call -> auth_state -> Prop :=
| auth_init : auth_reachable [] [] auth_start
| auth_does ins t r e i r' t' :
    auth_reachable ins t (r, e) -> allowed e i = true -> auth_handler i r = Def (tt, r', t') ->
    auth_reachable (ins ++ [i]) (t ++ t') (r', auth_next e i t').

(** *** What should come of it *)

(** The first decision counts: a verdict, or false when the application frees the request without one
    or never gets it. *)
Definition decides (i : auth_input) : option bool :=
  match i with
  | AuCheck listener _ => if accepts listener then None else Some false
  | AuUserVerdict verdict => Some verdict
  | AuUserFree => Some false
  | _ => None
  end.
Definition decision (ins : list auth_input) : option bool := head (omap decides ins).

Definition asked (ins : list auth_input) : option nat :=
  head (omap (fun i => match i with AuCheck _ callback => Some callback | _ => None end) ins).

Definition ran (ins : list auth_input) : bool :=
  existsb (fun i => match i with AuVerdictEvent => true | _ => false end) ins.

Definition verdicts (t : list auth_call) : list (nat * bool) :=
  omap (fun c => match c with AzVerdict cb allowed => Some (cb, allowed) | _ => None end) t.
Definition frees (t : list auth_call) : nat := length (filter is_free t).

(** Both sides are done. *)
Definition both_done (e : auth_env) : bool :=
  bool_decide (en_platform e = PfDone) && bool_decide (en_api e = ApNone \/ en_api e = ApDone).

(** The one answer to the component. *)
Definition answer (ins : list auth_input) : list (nat * bool) :=
  match asked ins, decision ins with
  | Some callback, Some verdict => if ran ins then [(callback, verdict)] else []
  | _, _ => []
  end.

(** *** The invariant *)

Definition is_event (i : auth_input) : bool := match i with AuVerdictEvent => true | _ => false end.
Definition asks (i : auth_input) : option nat := match i with AuCheck _ callback => Some callback | _ => None end.
Definition first {A} (a b : option A) : option A := match a with Some x => Some x | None => b end.

Lemma head_omap_snoc {A B} (f : A -> option B) (l : list A) x :
  head (omap f (l ++ [x])) = first (head (omap f l)) (f x).
Proof.
  induction l as [| y l IH]; cbn; [by destruct (f x) |]. by destruct (f y).
Qed.

Lemma decision_snoc ins i : decision (ins ++ [i]) = first (decision ins) (decides i).
Proof. apply head_omap_snoc. Qed.
Lemma asked_snoc ins i : asked (ins ++ [i]) = first (asked ins) (asks i).
Proof. unfold asked. rewrite head_omap_snoc. by destruct i. Qed.
Lemma ran_snoc ins i : ran (ins ++ [i]) = ran ins || is_event i.
Proof. unfold ran. rewrite existsb_app. f_equal. by destruct i. Qed.
Lemma verdicts_app t t' : verdicts (t ++ t') = verdicts t ++ verdicts t'.
Proof. apply omap_app. Qed.
Lemma frees_app t t' : frees (t ++ t') = (frees t + frees t')%nat.
Proof. unfold frees. by rewrite filter_app, length_app. Qed.

Definition is_some {A} (o : option A) : bool := match o with Some _ => true | None => false end.

(** The phases agree with the inputs: the decision [d], the callback [a], whether the event ran. *)
Definition phases_fit (d : option bool) (a : option nat) (rn : bool) (e : auth_env) : bool :=
  Bool.eqb (en_posted e) (is_some d && negb rn) &&
  match en_platform e with
  | PfBuilding => bool_decide (d = None /\ a = None /\ en_api e = ApNone) && negb rn
  | PfWaiting =>
      is_some a && negb rn &&
      match en_api e with
      | ApNone | ApDone => is_some d
      | ApHeld => true
      | ApQueued | ApLost => negb (is_some d)
      end
  | PfDone =>
      if rn then is_some a && is_some d && bool_decide (en_api e <> ApQueued /\ en_api e <> ApLost)
      else bool_decide (d = None /\ a = None /\ en_api e = ApNone)
  end.

Definition request_fits (d : option bool) (a : option nat) (r : option nabto_device_authorization_request)
    (e : auth_env) : Prop :=
  match r with
  | None => both_done e = true
  | Some r =>
      both_done e = false /\
      ar_apiDone r = bool_decide (en_api e = ApNone \/ en_api e = ApDone) /\
      ar_platformDone r = bool_decide (en_platform e = PfDone) /\
      ar_verdictDone r = is_some d /\ (forall v, d = Some v -> ar_verdict r = v) /\ ar_verdictCallback r = a
  end.

Definition one (b : bool) : nat := if b then 1%nat else 0%nat.

Lemma az_get_seq {A} (k : nabto_device_authorization_request -> az_uhandler A) r :
  ubind az_get k (Some r) = k r (Some r).
Proof. apply u_quiet. reflexivity. Qed.

Lemma look_defined index r : auth_handler (AuUserLook index) (Some r) = Def (tt, Some r, []).
Proof.
  cbn [auth_handler]. do 3 (rewrite (u_quiet _ _ (Some r) _ eq_refl)).
  destruct (Nat.ltb_spec index (get_attributes_size r)) as [Hlt |]; [| done].
  destruct (lookup_lt_is_Some_2 _ _ Hlt) as (a & Ha).
  unfold nabto_device_authorization_request_get_attribute_name, nabto_device_authorization_request_get_attribute_value.
  rewrite (u_quiet _ _ (Some r) a.1), (u_quiet _ _ (Some r) a.2); [done | |];
    rewrite az_get_seq; unfold get_attribute; by rewrite Ha.
Qed.

Lemma attribute_defined key value allocated r :
  exists l, auth_handler (AuAttribute key value allocated) (Some r) = Def (tt, Some (r {{ ar_attributes := l }}), []).
Proof.
  destruct r as [attrs ref act apiDone platformDone verdict verdictDone cb].
  destruct allocated as [[[] []] []]; (exists attrs; reflexivity) || (exists ((key, value) :: attrs); reflexivity).
Qed.

(** A step of a request that fits is defined, keeps the fit, and answers and frees as it should. *)
Lemma auth_step_fits d a rn r e i :
  phases_fit d a rn e = true -> request_fits d a r e -> allowed e i = true ->
  let d' := first d (decides i) in let a' := first a (asks i) in let rn' := rn || is_event i in
  exists r' t', auth_handler i r = Def (tt, r', t') /\
    phases_fit d' a' rn' (auth_next e i t') = true /\ request_fits d' a' r' (auth_next e i t') /\
    verdicts t' = (if is_event i then match a, d with Some cb, Some v => [(cb, v)] | _, _ => [] end else []) /\
    (one (both_done e) + frees t' = one (both_done (auth_next e i t')))%nat /\
    (is_event i = true -> rn = false).
Proof.
  intros Hp Hr Hok.
  destruct r as [r |].
  2: { destruct e as [[] [] []], i, d, a, rn; cbn in *; discriminate. }
  destruct Hr as (Hb & Hapi & Hpf & Hvd & Hv & Hcb).
  destruct r as [attrs ref act apiDone platformDone verdict verdictDone cb]. cbn in Hapi, Hpf, Hvd, Hv, Hcb. subst apiDone platformDone verdictDone cb.
  destruct i as [k v al | | listener callback | | | | verdict' | | index].
  all: destruct e as [pf api posted]; cbn in Hok.
  { destruct (attribute_defined k v al (mk_ar attrs ref act (bool_decide (api = ApNone \/ api = ApDone))
      (bool_decide (pf = PfDone)) verdict (is_some d) a)) as (l & Hd).
    destruct pf; [| discriminate ..].
    eexists _, _. split; [exact Hd |]. destruct api, posted, d, a, rn; cbn in *; try discriminate. split_and!; try done. }
  all: try (destruct listener as [ec |]; [destruct (is_error ec) eqn:Hec |]).
  all: destruct pf, api, posted, d as [v |], a as [cb |], rn; try discriminate.
  all: try (specialize (Hv v eq_refl); subst verdict).
  all: cbv zeta; eexists _, _; split; [first [apply look_defined | cbn -[first]; rewrite ?Hec; reflexivity] |].
  all: cbn; unfold accepts; rewrite ?Hec; cbn.
  all: split_and!; try done; try congruence.
  all: intros ? [= <-]; reflexivity.
Qed.

Lemma auth_reachable_fits ins t r e :
  auth_reachable ins t (r, e) ->
  phases_fit (decision ins) (asked ins) (ran ins) e = true /\
  request_fits (decision ins) (asked ins) r e /\
  verdicts t = answer ins /\ frees t = one (both_done e).
Proof.
  intros Hr. remember (r, e) as s eqn:Es. revert r e Es.
  induction Hr as [| ins t r0 e0 i r1 t1 _ IH Hok Hrun]; intros r e [= <- <-].
  { by split_and!. }
  destruct (IH _ _ eq_refl) as (Hp & Hf & Hv & Hn).
  destruct (auth_step_fits _ _ _ _ _ _ Hp Hf Hok) as (r' & t' & Hrun' & Hp' & Hf' & Hv' & Hn' & Hev).
  rewrite Hrun in Hrun'. injection Hrun' as <- <-.
  rewrite decision_snoc, asked_snoc, ran_snoc, verdicts_app, frees_app. split_and!; try done; [| lia].
  rewrite Hv, Hv'. unfold answer. rewrite decision_snoc, asked_snoc, ran_snoc.
  destruct (is_event i) eqn:Ei.
  - rewrite (Hev eq_refl). destruct i; try done. cbn.
    by destruct (asked ins), (decision ins).
  - rewrite orb_false_r, app_nil_r. destruct (ran ins) eqn:Er; [| by repeat case_match].
    clear - Hp Er. unfold phases_fit in Hp.
    destruct (en_platform e0), (asked ins), (decision ins); cbn in *; try done;
      rewrite ?andb_false_r in Hp; try done.
Qed.

(** C18. The life of an authorization request. Whatever the component, the application, the listener
    and the event queue do with a request while they have it, nobody uses it after it was freed.
    The component gets one answer, when the event of the verdict runs, and it is the first
    decision: the verdict of the application, or false when there is no listener, when the listener
    refuses, or when the request is freed without a verdict. As soon as there is a decision
    the event is in the queue until it runs. The request is freed once, when both sides are
    done. Only when the listener gives up its queue - it was stopped - is the request lost:
    there never is an answer, nothing can happen to the request any more, and it is not freed. *)
Theorem authorization_request_life ins t r e (Hreach : auth_reachable ins t (r, e)) :
  (forall i, allowed e i = true -> is_def (auth_handler i r) = true) /\
  verdicts t = answer ins /\
  en_posted e = is_some (decision ins) && negb (ran ins) /\
  frees t = one (both_done e) /\ (r = None <-> both_done e = true) /\
  (en_api e = ApLost -> verdicts t = [] /\ (forall i, allowed e i = false) /\ r <> None).
Proof.
  destruct (auth_reachable_fits _ _ _ _ Hreach) as (Hp & Hf & Hv & Hn).
  assert (Hposted : en_posted e = is_some (decision ins) && negb (ran ins)).
  { unfold phases_fit in Hp. apply andb_prop in Hp as [Hp _]. by apply Bool.eqb_prop in Hp. }
  assert (Hnone : r = None <-> both_done e = true).
  { destruct r as [r |]; [| done]. destruct Hf as [Hb _]. rewrite Hb. done. }
  split_and!; try done.
  - intros i Hi. destruct (auth_step_fits _ _ _ _ _ i Hp Hf Hi) as (r' & t' & -> & _). done.
  - intros Hl. unfold phases_fit in Hp. rewrite Hl in Hp.
    destruct (en_platform e) eqn:Epf, (decision ins) as [v |] eqn:Ed, (ran ins) eqn:Er; cbn in *;
      rewrite ?andb_false_r in Hp; try done;
      try (exfalso; rewrite !andb_true_iff, ?bool_decide_eq_true in Hp; naive_solver).
    rewrite Hv; unfold answer; rewrite Ed.
    split_and!; [by destruct (asked ins) | | by rewrite Hnone; unfold both_done; rewrite Epf].
    intros i. destruct i; cbn; rewrite ?Epf, ?Hl, ?Hposted; done.
Qed.
End Life.

(** A name or a value of an attribute that does not exist: nothing checks the index. *)
Example attribute_undefined r :
  ar_attributes r = [] -> nabto_device_authorization_request_get_attribute_name 0 (Some r) = UB.
Proof. intros Hr. unfold nabto_device_authorization_request_get_attribute_name. rewrite az_get_seq. unfold get_attribute. by rewrite Hr. Qed.

(** The module keeps its listener: after one was set there is never another. *)
Lemma listener_stays ec m :
  am_listener m = true -> nabto_device_authorization_request_init_listener ec m = (NABTO_EC_IN_USE, m, []).
Proof. unfold nabto_device_authorization_request_init_listener. intros Hm. by rewrite hget_seq, Hm. Qed.

(** ** Witnesses *)

(** A request of connection 1 is given to the application, which allows it and frees the request
    before the event runs. *)
Definition example_inputs : list auth_input :=
  [AuCheck (Some NABTO_EC_OK) 7; AuDelivered; AuUserVerdict true; AuUserFree; AuVerdictEvent].

Lemma authorization_request_life_witness :
  exists t e, auth_reachable 1 "read" example_inputs t (None, e) /\
    verdicts t = [(7%nat, true)] /\ frees t = 1%nat.
Proof.
  assert (Hreach : exists t e, auth_reachable 1 "read" example_inputs t (None, e)).
  { pose proof (auth_does 1 "read" _ _ _ _ (AuCheck (Some NABTO_EC_OK) 7) _ _ (auth_init 1 "read") eq_refl eq_refl) as H1.
    pose proof (auth_does 1 "read" _ _ _ _ AuDelivered _ _ H1 eq_refl eq_refl) as H2.
    pose proof (auth_does 1 "read" _ _ _ _ (AuUserVerdict true) _ _ H2 eq_refl eq_refl) as H3.
    pose proof (auth_does 1 "read" _ _ _ _ AuUserFree _ _ H3 eq_refl eq_refl) as H4.
    pose proof (auth_does 1 "read" _ _ _ _ AuVerdictEvent _ _ H4 eq_refl eq_refl) as H5.
    eexists _, _. exact H5. }
  destruct Hreach as (t & e & Hr). exists t, e. split; [exact Hr |].
  destruct (authorization_request_life 1 "read" example_inputs t None e Hr) as (_ & Hv & _ & Hf & [Hn _] & _).
  split; [exact Hv |]. rewrite (Hn eq_refl) in Hf. exact Hf.
Defined.
