(* ===== verification/ApiStream.v ===== *)
(** * Streams of the API (nabto_device_stream.c)

    The futures of a stream - accept, read, write, close - on top of a stream of the core
    (Stream.v), which calls back when an operation has ended, and the listener that gives new
    streams to the application. Every function runs under the mutex; the callbacks of the core
    only resolve futures, so they run in the order of the calls of the core's trace. *)

From S2P Require Import Prelude Platform Stream Futures.

#[local] Open Scope Z_scope.
#[local] Open Scope list_scope.
#[local] Open Scope handler_scope.

(** A future is a number. *)
Record nabto_device_stream : Type := mk_as {
  as_acceptFut : option nat;
  as_readFut : option nat;
  as_writeFut : option nat;
  as_closeFut : option nat
}.

(** The operations a future is for. *)
Inductive api_op : Type := KAccept | KRead | KWrite | KClose.

#[global] Instance api_op_eq : EqDecision api_op.
Proof. solve_decision. Defined.

Inductive api_call : Type :=
| AsReset (fut : nat)                               (* nabto_device_future_reset *)
| AsResolve (k : api_op) (fut : nat) (ec : np_error_code)
| AsFree.

(** A stream that was freed is [None]: to use it is undefined. *)
Definition as_uhandler (A : Type) : Type := uhandler (option nabto_device_stream) api_call A.

Definition as_get : as_uhandler nabto_device_stream :=
  let+ s := ulift hget in uof (match s with Some s => Def s | None => UB end).
Definition as_mod (f : nabto_device_stream -> nabto_device_stream) : as_uhandler unit :=
  let+ s := as_get in ulift (hmod (fun _ => Some (f s))).

(** [nabto_device_future_resolve]; resolving NULL is undefined. *)
Definition resolve (k : api_op) (fut : option nat) (ec : np_error_code) : as_uhandler unit :=
  let+ fut := uof (match fut with Some f => Def f | None => UB end) in
  ulift (emit (AsResolve k fut (nabto_device_error_core_to_api ec))).

(** ** Callbacks of the core *)

Definition nabto_device_stream_accept_callback (ec : np_error_code) : as_uhandler unit :=
  let+ str := as_get in resolve KAccept (as_acceptFut str) ec.

Definition nabto_device_stream_read_callback (ec : np_error_code) : as_uhandler unit :=
  let+ str := as_get in
  let+ _ := resolve KRead (as_readFut str) ec in
  as_mod (fun s => s {{ as_readFut := None }}).

Definition nabto_device_stream_write_callback (ec : np_error_code) : as_uhandler unit :=
  let+ str := as_get in
  let+ _ := resolve KWrite (as_writeFut str) ec in
  as_mod (fun s => s {{ as_writeFut := None }}).

Definition nabto_device_stream_close_callback (ec : np_error_code) : as_uhandler unit :=
  let+ str := as_get in resolve KClose (as_closeFut str) ec.

Definition kind (op : stream_op) : api_op :=
  match op with
  | OpAccept => KAccept
  | OpReadAll | OpReadSome => KRead
  | OpWrite => KWrite
  | OpClose => KClose
  end.

(** The callbacks among the calls of the core. *)
Fixpoint core_callbacks (t : list stream_call) : as_uhandler unit :=
  match t with
  | [] => ulift hskip
  | SmCallback op _ ec :: t =>
      let+ _ := match kind op with
                | KAccept => nabto_device_stream_accept_callback ec
                | KRead => nabto_device_stream_read_callback ec
                | KWrite => nabto_device_stream_write_callback ec
                | KClose => nabto_device_stream_close_callback ec
                end in core_callbacks t
  | _ :: t => core_callbacks t
  end.

Section ApiStream.
Context {L : Type} `{NabtoStream L}.
Abbreviation nc_stream_context := (nc_stream_context (L := L)).

Definition api_state : Type := option nabto_device_stream * nc_stream_context.
Definition sa_uhandler (A : Type) : Type := uhandler api_state api_call A.

Definition on_api {A} (m : as_uhandler A) : sa_uhandler A := fun '(s, c) =>
  match m s with Def (a, s', t) => Def (a, (s', c), t) | UB => UB end.

(** A function of the core, with the callbacks it makes. *)
Definition on_core {A} (m : sm_uhandler (L := L) A) : sa_uhandler A := fun '(s, c) =>
  match m c with
  | Def (a, c', t) =>
      match core_callbacks t s with Def (_, s', t') => Def (a, (s', c'), t') | UB => UB end
  | UB => UB
  end.

(** The user data of the callbacks is the stream of the API, the only user of this stream. *)
Definition str_data : nat := 0.

(** ** The API *)

Definition nabto_device_stream_free : sa_uhandler unit :=
  let+ _ := on_api as_get in
  let+ _ := on_core (ulift nc_stream_release) in
  on_api (ulift (emit AsFree ;;; hmod (fun _ => None))).

Definition nabto_device_stream_abort : sa_uhandler unit :=
  let+ _ := on_api as_get in on_core (ulift nc_stream_abort).

Definition nabto_device_stream_accept (fut : nat) : sa_uhandler unit :=
  let+ _ := on_api (ulift (emit (AsReset fut))) in
  let+ str := on_api as_get in
  if is_some (as_acceptFut str) then on_api (resolve KAccept (Some fut) NABTO_EC_OPERATION_IN_PROGRESS)
  else
    let+ _ := on_api (as_mod (fun s => s {{ as_acceptFut := Some fut }})) in
    let+ ec := on_core (ulift (nc_stream_async_accept str_data)) in
    if is_error ec then on_api (resolve KAccept (Some fut) ec) else ulift hskip.

Definition nabto_device_stream_get_connection_ref : sa_uhandler Z :=
  let+ _ := on_api as_get in let+ s := ulift hget in ulift (hret (ns_connectionRef s.2)).

Definition nabto_device_stream_read_all (fut : nat) (buffer : list Z) : sa_uhandler unit :=
  let+ _ := on_api (ulift (emit (AsReset fut))) in
  let+ str := on_api as_get in
  if is_some (as_readFut str) then on_api (resolve KRead (Some fut) NABTO_EC_OPERATION_IN_PROGRESS)
  else
    let+ _ := on_api (as_mod (fun s => s {{ as_readFut := Some fut }})) in
    let+ ec := on_core (ulift (nc_stream_async_read_all buffer str_data)) in
    if is_error ec then
      let+ _ := on_api (resolve KRead (Some fut) NABTO_EC_OPERATION_IN_PROGRESS) in
      on_api (as_mod (fun s => s {{ as_readFut := None }}))
    else ulift hskip.

(** Here the future stays in its field when the core refuses. *)
Definition nabto_device_stream_read_some (fut : nat) (buffer : list Z) : sa_uhandler unit :=
  let+ _ := on_api (ulift (emit (AsReset fut))) in
  let+ str := on_api as_get in
  if is_some (as_readFut str) then on_api (resolve KRead (Some fut) NABTO_EC_OPERATION_IN_PROGRESS)
  else
    let+ _ := on_api (as_mod (fun s => s {{ as_readFut := Some fut }})) in
    let+ ec := on_core (ulift (nc_stream_async_read_some buffer str_data)) in
    if is_error ec then on_api (resolve KRead (Some fut) NABTO_EC_OPERATION_IN_PROGRESS) else ulift hskip.

Definition nabto_device_stream_write (fut : nat) (buffer : list Z) : sa_uhandler unit :=
  let+ _ := on_api (ulift (emit (AsReset fut))) in
  let+ str := on_api as_get in
  if is_some (as_writeFut str) then on_api (resolve KWrite (Some fut) NABTO_EC_OPERATION_IN_PROGRESS)
  else
    let+ _ := on_api (as_mod (fun s => s {{ as_writeFut := Some fut }})) in
    let+ ec := on_core (ulift (nc_stream_async_write buffer str_data)) in
    if is_error ec then on_api (resolve KWrite (Some fut) NABTO_EC_OPERATION_IN_PROGRESS) else ulift hskip.

Definition nabto_device_stream_close (fut : nat) : sa_uhandler unit :=
  let+ _ := on_api (ulift (emit (AsReset fut))) in
  let+ _ := on_api (as_mod (fun s => s {{ as_closeFut := Some fut }})) in
  let+ ec := on_core (ulift (nc_stream_async_close str_data)) in
  if is_error ec then on_api (resolve KClose (Some fut) NABTO_EC_OPERATION_IN_PROGRESS) else ulift hskip.

(** ** The life of a stream *)

(** What the application and the rest of the core do. *)
Inductive api_input : Type :=
| AiAccept (fut : nat)
| AiReadAll (fut : nat) (buffer : list Z)
| AiReadSome (fut : nat) (buffer : list Z)
| AiWrite (fut : nat) (buffer : list Z)
| AiClose (fut : nat)
| AiAbort
| AiFree
| AiCore (v : stream_env) (i : stream_input).

Definition api_handler (i : api_input) : sa_uhandler unit :=
  match i with
  | AiAccept fut => nabto_device_stream_accept fut
  | AiReadAll fut b => nabto_device_stream_read_all fut b
  | AiReadSome fut b => nabto_device_stream_read_some fut b
  | AiWrite fut b => nabto_device_stream_write fut b
  | AiClose fut => nabto_device_stream_close fut
  | AiAbort => nabto_device_stream_abort
  | AiFree => nabto_device_stream_free
  | AiCore v i => let+ _ := on_core (stream_step v i) in ulift hskip
  end.

(** What the core does to a stream by itself. *)
Definition core_input (i : stream_input) : bool :=
  match i with NiEvent | NiTimeout | NiPacket _ | NiConnectionClosed | NiSent => true | _ => false end.

Definition count (k : api_op) (l : list (stream_op * nat)) : nat :=
  length (filter (fun p => kind p.1 = k) l).
(** The callbacks of a kind that the core will call. *)
Definition pending (k : api_op) (c : nc_stream_context) : nat := count k (live c).

(** Operations are called while the stream is alive, closing only while no close waits, and the stream
    is freed when no future waits, as its documentation asks for. *)
Definition api_allowed (s : option nabto_device_stream) (c : nc_stream_context) (i : api_input) : Prop :=
  ns_active c = true /\
  match i with
  | AiCore _ i => core_input i = true
  | AiClose _ => s <> None /\ pending KClose c = 0%nat
  | AiFree => s <> None /\ live c = []
  | _ => s <> None
  end.

(** The future an input hands over. *)
Definition given_of (i : api_input) : list (api_op * nat) :=
  match i with
  | AiAccept f => [(KAccept, f)]
  | AiReadAll f _ | AiReadSome f _ => [(KRead, f)]
  | AiWrite f _ => [(KWrite, f)]
  | AiClose f => [(KClose, f)]
  | _ => []
  end.
Definition resolved_of (t : list api_call) : list (api_op * nat) :=
  omap (fun c => match c with AsResolve k f _ => Some (k, f) | _ => None end) t.

Inductive api_reachable (lib : L) (streamId connectionRef : Z) :
    list (api_op * nat) -> list api_call -> api_state -> Prop :=
| api_init : api_reachable lib streamId connectionRef [] []
    (Some (mk_as None None None None), stream_fresh lib streamId connectionRef)
| api_does g t s c i s' c' t' :
    api_reachable lib streamId connectionRef g t (s, c) -> api_allowed s c i ->
    api_handler i (s, c) = Def (tt, (s', c'), t') ->
    api_reachable lib streamId connectionRef (g ++ given_of i) (t ++ t') (s', c').

(** The futures that wait: those in the fields whose callbacks the core will call. *)
Definition field (k : api_op) (s : nabto_device_stream) : option nat :=
  match k with
  | KAccept => as_acceptFut s | KRead => as_readFut s | KWrite => as_writeFut s | KClose => as_closeFut s
  end.
Definition futures_of (s : nabto_device_stream) (l : list (stream_op * nat)) (k : api_op) : list (api_op * nat) :=
  if (count k l =? 0)%nat then [] else pair k <$> option_list (field k s).
Definition futures (s : nabto_device_stream) (l : list (stream_op * nat)) : list (api_op * nat) :=
  futures_of s l KAccept ++ futures_of s l KRead ++ futures_of s l KWrite ++ futures_of s l KClose.
Definition waiting_futures (s : option nabto_device_stream) (c : nc_stream_context) : list (api_op * nat) :=
  match s with Some s => futures s (live c) | None => [] end.

(** *** The invariant *)

(** The fields of reading and writing are emptied by their callbacks. *)
Definition clears (k : api_op) : bool := match k with KRead | KWrite => true | _ => false end.

(** The fields agree with the callbacks the core will call. *)
Definition fits (s : nabto_device_stream) (l : list (stream_op * nat)) : Prop :=
  forall k, (count k l <= 1)%nat /\ (count k l = 1%nat -> is_Some (field k s)) /\
            (clears k = true -> count k l = 0%nat -> field k s = None).
Definition api_inv (s : option nabto_device_stream) (c : nc_stream_context) : Prop :=
  match s with Some s => fits s (live c) | None => live c = [] end.

Lemma count_app k l l' : count k (l ++ l') = (count k l + count k l')%nat.
Proof. unfold count. by rewrite filter_app, length_app. Qed.

#[local] Instance count_proper k : Proper ((≡ₚ) ==> eq) (count k).
Proof. intros l l' E. unfold count. by rewrite E. Qed.

Lemma count_cons k op cb l : count k ((op, cb) :: l) = ((if decide (kind op = k) then 1 else 0) + count k l)%nat.
Proof. unfold count. rewrite filter_cons. cbn. by case_decide. Qed.

Lemma api_resolved_app t t' : resolved_of (t ++ t') = resolved_of t ++ resolved_of t'.
Proof. apply omap_app. Qed.

Lemma callbacks_quiet t s : called t = [] -> core_callbacks t s = Def (tt, s, []).
Proof. induction t as [| [] t IH]; try done. Qed.

Lemma as_get_seq {A} (k : nabto_device_stream -> as_uhandler A) s : ubind as_get k (Some s) = k s (Some s).
Proof. apply u_quiet. reflexivity. Qed.

(** One callback: it resolves the future in its field. *)
Definition callback (k : api_op) (ec : np_error_code) : as_uhandler unit :=
  match k with
  | KAccept => nabto_device_stream_accept_callback ec
  | KRead => nabto_device_stream_read_callback ec
  | KWrite => nabto_device_stream_write_callback ec
  | KClose => nabto_device_stream_close_callback ec
  end.

Lemma callback_run k ec s f :
  field k s = Some f ->
  exists s', callback k ec (Some s) = Def (tt, Some s', [AsResolve k f (nabto_device_error_core_to_api ec)]) /\
    forall k', field k' s' = if decide (k' = k /\ clears k = true) then None else field k' s.
Proof.
  intros Hf. destruct s as [a r w cl], k; cbn in Hf; subst; (eexists; split; [reflexivity |]);
    intros []; case_decide; try done; naive_solver.
Qed.

Lemma futures_perm (s : nabto_device_stream) l l' : l ≡ₚ l' -> futures s l = futures s l'.
Proof. intros E. unfold futures, futures_of. by rewrite !E. Qed.

Lemma futures_insert k f s s1 l l' :
  count k l' = 0%nat -> field k s = Some f ->
  (forall k', count k' l = ((if decide (k = k') then 1 else 0) + count k' l')%nat) ->
  (forall k', k' <> k -> field k' s1 = field k' s) ->
  futures s l ≡ₚ (k, f) :: futures s1 l'.
Proof.
  intros Hz Hf Hc Hs.
  assert (Hk : futures_of s l k = [(k, f)] /\ futures_of s1 l' k = []).
  { unfold futures_of. rewrite Hc, Hz, decide_True by done. cbn. by rewrite Hf. }
  assert (Hne : forall k', k' <> k -> futures_of s l k' = futures_of s1 l' k').
  { intros k' Hk'. unfold futures_of. rewrite Hc, decide_False by done. by rewrite Hs. }
  destruct Hk as [E1 E2]. unfold futures.
  destruct k; rewrite E1, E2, !Hne by done; cbn; solve_Permutation.
Qed.

Lemma callbacks_run t : forall s,
  (forall k, (count k (called t) <= 1)%nat) -> (forall k, count k (called t) = 1%nat -> is_Some (field k s)) ->
  exists s' t', core_callbacks t (Some s) = Def (tt, Some s', t') /\ resolved_of t' ≡ₚ futures s (called t) /\
    forall k, field k s' = if decide (count k (called t) = 1%nat /\ clears k = true) then None else field k s.
Proof.
  induction t as [| c t IH]; intros s H1 Hf.
  { exists s, []. by split_and!. }
  destruct c as [| | | | | | op cb ec]; try exact (IH s H1 Hf).
  change (called (SmCallback op cb ec :: t)) with ((op, cb) :: called t) in *.
  assert (Hz : count (kind op) (called t) = 0%nat).
  { specialize (H1 (kind op)). rewrite count_cons, decide_True in H1 by done. lia. }
  destruct (Hf (kind op)) as [f Ef]; [rewrite count_cons, decide_True by done; lia |].
  destruct (callback_run (kind op) ec s f Ef) as (s1 & Hrun & Hs1).
  assert (Hne : forall k, k <> kind op -> field k s1 = field k s).
  { intros k Hk. by rewrite Hs1, decide_False by naive_solver. }
  destruct (IH s1) as (s' & t' & Hrun' & Hres & Hs').
  { intros k. specialize (H1 k). rewrite count_cons in H1. lia. }
  { intros k Hk. rewrite Hne; [apply Hf; rewrite count_cons, decide_False by congruence; done | congruence]. }
  exists s', (AsResolve (kind op) f (nabto_device_error_core_to_api ec) :: t'). split_and!.
  - change (core_callbacks (SmCallback op cb ec :: t)) with
      (ubind (callback (kind op) ec) (fun _ => core_callbacks t)).
    unfold ubind. by rewrite Hrun, Hrun'.
  - cbn [resolved_of omap list_omap]. change (omap _ t') with (resolved_of t'). rewrite Hres. symmetry.
    apply futures_insert; [done | done | intros k; apply count_cons | done].
  - intros k. rewrite Hs', Hs1, count_cons. repeat case_decide; try done; naive_solver lia.
Qed.

(** A function of the core: the callbacks it makes resolve their futures, the others go on waiting. *)
Lemma on_core_run {A} (m : sm_uhandler A) s c a c' t l :
  m c = Def (a, c', t) -> called t ++ live c' ≡ₚ l -> fits s l ->
  exists s' t', on_core m (Some s, c) = Def (a, (Some s', c'), t') /\ fits s' (live c') /\
    resolved_of t' ++ futures s' (live c') ≡ₚ futures s l.
Proof.
  intros Hm Hl Hfit.
  assert (Hc : forall k, count k l = (count k (called t) + count k (live c'))%nat).
  { intros k. by rewrite <- Hl, count_app. }
  destruct (callbacks_run t s) as (s' & t' & Hrun & Hres & Hs').
  { intros k. destruct (Hfit k) as (H1 & _). specialize (Hc k). lia. }
  { intros k Hk. destruct (Hfit k) as (H1 & Hf & _). apply Hf. specialize (Hc k). lia. }
  exists s', t'. split_and!.
  - unfold on_core. by rewrite Hm, Hrun.
  - intros k. destruct (Hfit k) as (H1 & Hf & Hz). specialize (Hc k). rewrite Hs'. case_decide as Hd.
    + destruct Hd. split_and!; [lia | intros; lia | done].
    + split_and!; [lia | intros; apply Hf; lia | intros Hk Hn; apply Hz; [done |]].
      destruct (decide (count k (called t) = 1%nat)); [naive_solver | lia].
  - rewrite Hres.
    assert (Hk : forall k, futures_of s (called t) k ++ futures_of s' (live c') k = futures_of s l k).
    { intros k. destruct (Hfit k) as (H1 & _). specialize (Hc k). unfold futures_of. rewrite Hs'.
      destruct (count k (called t)) as [| [|]] eqn:E1; cbn [Nat.eqb]; [| | lia].
      - rewrite decide_False by naive_solver. cbn. by rewrite Hc.
      - replace (count k (live c')) with 0%nat by lia. rewrite Hc. replace (count k (live c')) with 0%nat by lia.
        cbn. by rewrite app_nil_r. }
    unfold futures. rewrite <- !Hk. solve_Permutation.
Qed.

(** A request to the core. *)
Definition request (op : stream_op) (buffer : list Z) : sm_handler np_error_code :=
  match op with
  | OpAccept => nc_stream_async_accept str_data
  | OpReadAll => nc_stream_async_read_all buffer str_data
  | OpReadSome => nc_stream_async_read_some buffer str_data
  | OpWrite => nc_stream_async_write buffer str_data
  | OpClose => nc_stream_async_close str_data
  end.

Lemma no_read_waits (c : nc_stream_context) :
  count KRead (waiting c) = 0%nat -> ns_readAllCb c = None /\ ns_readSomeCb c = None.
Proof.
  unfold waiting. destruct (ns_acceptCb c), (ns_readAllCb c), (ns_readSomeCb c), (ns_writeCb c), (ns_closeCb c); by cbn.
Qed.
Lemma none_waits k (c : nc_stream_context) :
  count k (waiting c) = 0%nat ->
  match k with
  | KAccept => ns_acceptCb c = None | KRead => True | KWrite => ns_writeCb c = None | KClose => ns_closeCb c = None
  end.
Proof.
  unfold waiting.
  destruct k, (ns_acceptCb c), (ns_readAllCb c), (ns_readSomeCb c), (ns_writeCb c), (ns_closeCb c); by cbn.
Qed.

Lemma request_ok op buffer (c : nc_stream_context) :
  count (kind op) (waiting c) = 0%nat -> result (request op buffer) c = NABTO_EC_OK.
Proof.
  intros Hz. pose proof (none_waits _ _ Hz) as Hn. unfold result.
  destruct op; cbn [kind request] in *;
    [unfold nc_stream_async_accept | apply no_read_waits in Hz as [Ha Hs]; unfold nc_stream_async_read_all
     | apply no_read_waits in Hz as [Ha Hs]; unfold nc_stream_async_read_some
     | unfold nc_stream_async_write | unfold nc_stream_async_close];
    rewrite hget_seq, ?Hn, ?Ha, ?Hs; cbn [is_some orb]; rewrite !hmod_seq; unfold stream_lib;
    rewrite ?hmod_seq; try done; apply result_then.
Qed.

Lemma request_runs op buffer (c : nc_stream_context) :
  ns_active c = true -> count (kind op) (live c) = 0%nat ->
  exists c' t, ulift (request op buffer) c = Def (NABTO_EC_OK, c', t) /\ called t ++ live c' ≡ₚ live c ++ [(op, str_data)].
Proof.
  intros Ha Hz. unfold live in Hz |- *. rewrite Ha in *. pose proof (request_ok op buffer c Hz) as Hr.
  unfold result in Hr. destruct (request op buffer c) as [[ec c'] t] eqn:Em. cbn in Hr. subst ec.
  exists c', t. split; [unfold ulift; by rewrite Em |].
  pose (i := match op with OpAccept => NiAccept str_data | OpReadAll => NiReadAll buffer str_data
             | OpReadSome => NiReadSome buffer str_data | OpWrite => NiWrite buffer str_data
             | OpClose => NiClose str_data end).
  apply (stream_step_spec (mk_env (fun _ => true) 0 NABTO_EC_OK 0) i c [(op, str_data)] c' t Ha).
  assert (Hi : stream_step (mk_env (fun _ => true) 0 NABTO_EC_OK 0) i c = accepting op str_data (request op buffer) c)
    by (subst i; by destruct op).
  rewrite Hi. unfold accepting, ulift, hbind. rewrite Em. cbn. by rewrite app_nil_r.
Qed.

Definition set_field (k : api_op) (fut : nat) (s : nabto_device_stream) : nabto_device_stream :=
  match k with
  | KAccept => s {{ as_acceptFut := Some fut }}
  | KRead => s {{ as_readFut := Some fut }}
  | KWrite => s {{ as_writeFut := Some fut }}
  | KClose => s {{ as_closeFut := Some fut }}
  end.

Lemma set_field_spec k fut s k' : field k' (set_field k fut s) = if decide (k' = k) then Some fut else field k' s.
Proof. by destruct s, k, k'. Qed.

(** An operation that starts: its future is in the field, the core accepts the request. *)
Lemma start_run op buffer s (c : nc_stream_context) fut :
  ns_active c = true -> fits s (live c) -> count (kind op) (live c) = 0%nat ->
  exists s' c' t', on_core (ulift (request op buffer)) (Some (set_field (kind op) fut s), c) =
      Def (NABTO_EC_OK, (Some s', c'), t') /\
    fits s' (live c') /\ resolved_of t' ++ futures s' (live c') ≡ₚ futures s (live c) ++ [(kind op, fut)].
Proof.
  intros Ha Hfit Hz. destruct (request_runs op buffer c Ha Hz) as (c' & t & Hm & Hc).
  assert (Hcount : forall k, count k (live c ++ [(op, str_data)]) =
      ((if decide (kind op = k) then 1 else 0) + count k (live c))%nat).
  { intros k. rewrite count_app, count_cons. change (count k []) with 0%nat. lia. }
  destruct (on_core_run _ (set_field (kind op) fut s) c _ c' t _ Hm Hc) as (s' & t' & Hrun & Hfit' & Hf).
  { intros k. rewrite Hcount, set_field_spec. destruct (Hfit k) as (H1 & H2 & H3).
    destruct (decide (k = kind op)) as [-> | Hne].
    - rewrite decide_True by done. rewrite Hz. split_and!; [lia | done | lia].
    - by rewrite decide_False by congruence. }
  exists s', c', t'. split_and!; [done | done |]. rewrite Hf, (futures_insert (kind op) fut _ s _ (live c)).
  - apply Permutation_cons_append.
  - done.
  - by rewrite set_field_spec, decide_True.
  - done.
  - intros k' Hk. by rewrite set_field_spec, decide_False.
Qed.

Lemma field_free k s (c : nc_stream_context) : fits s (live c) -> field k s = None -> count k (live c) = 0%nat.
Proof.
  intros Hfit Hn. destruct (Hfit k) as (H1 & H2 & _).
  destruct (count k (live c)) as [| [|]]; [done | | lia]. destruct (H2 eq_refl) as [f Hf]. congruence.
Qed.

(** What a step must do. *)
Definition step_good (i : api_input) (s : option nabto_device_stream) (c : nc_stream_context)
    (r : cres (unit * api_state * list api_call)) : Prop :=
  exists s' c' t, r = Def (tt, (s', c'), t) /\ api_inv s' c' /\
    resolved_of t ++ waiting_futures s' c' ≡ₚ waiting_futures s c ++ given_of i.

(** The operation is refused at once, or started. *)
Lemma refused_good i k fut s (c : nc_stream_context) :
  fits s (live c) -> given_of i = [(k, fut)] ->
  step_good i (Some s) c (Def (tt, (Some s, c), [AsReset fut; AsResolve k fut NABTO_EC_OPERATION_IN_PROGRESS])).
Proof.
  intros Hfit Hg. exists (Some s), c, [AsReset fut; AsResolve k fut NABTO_EC_OPERATION_IN_PROGRESS].
  split_and!; [done | done |]. rewrite Hg. cbn. apply Permutation_cons_append.
Qed.

Lemma started_good i op fut s (c : nc_stream_context) s' c' t :
  given_of i = [(kind op, fut)] -> fits s' (live c') ->
  resolved_of t ++ futures s' (live c') ≡ₚ futures s (live c) ++ [(kind op, fut)] ->
  step_good i (Some s) c (Def (tt, (Some s', c'), AsReset fut :: t)).
Proof.
  intros Hg Hfit Hf. exists (Some s'), c', (AsReset fut :: t). split_and!; [done | done |]. by rewrite Hg.
Qed.

(** The call of the core in the goal, whose result is known. *)
Ltac run_core Hrun :=
  match type of Hrun with
  | ?l = _ => match goal with |- context [on_core ?m ?st] => change (on_core m st) with l end
  end; rewrite Hrun.

(** The guarded operations, as one. *)
Definition guarded_op (i : api_input) : option (stream_op * nat * list Z) :=
  match i with
  | AiAccept fut => Some (OpAccept, fut, [])
  | AiReadAll fut b => Some (OpReadAll, fut, b)
  | AiReadSome fut b => Some (OpReadSome, fut, b)
  | AiWrite fut b => Some (OpWrite, fut, b)
  | _ => None
  end.

Lemma guarded_refuses i op fut b f s (c : nc_stream_context) :
  guarded_op i = Some (op, fut, b) -> field (kind op) s = Some f ->
  api_handler i (Some s, c) =
    Def (tt, (Some s, c), [AsReset fut; AsResolve (kind op) fut NABTO_EC_OPERATION_IN_PROGRESS]).
Proof.
  intros Hi Hf. destruct i; try discriminate; injection Hi as <- <- <-; cbn in Hf; cbn [api_handler];
    [unfold nabto_device_stream_accept | unfold nabto_device_stream_read_all
     | unfold nabto_device_stream_read_some | unfold nabto_device_stream_write];
    unfold ubind, on_api, ulift, emit; cbn; by rewrite Hf.
Qed.

Lemma guarded_starts i op fut b s (c : nc_stream_context) st' t :
  guarded_op i = Some (op, fut, b) -> field (kind op) s = None ->
  on_core (ulift (request op b)) (Some (set_field (kind op) fut s), c) = Def (NABTO_EC_OK, st', t) ->
  api_handler i (Some s, c) = Def (tt, st', AsReset fut :: t).
Proof.
  intros Hi Hf Hrun. destruct i; try discriminate; injection Hi as <- <- <-; cbn in Hf; cbn [kind set_field request] in Hrun;
    cbn [api_handler];
    [unfold nabto_device_stream_accept | unfold nabto_device_stream_read_all
     | unfold nabto_device_stream_read_some | unfold nabto_device_stream_write];
    unfold ubind, on_api; cbn -[on_core nc_stream_async_accept nc_stream_async_read_all nc_stream_async_read_some
      nc_stream_async_write]; rewrite Hf; cbn -[on_core nc_stream_async_accept nc_stream_async_read_all
      nc_stream_async_read_some nc_stream_async_write]; run_core Hrun; cbn; by rewrite app_nil_r.
Qed.

Lemma close_starts fut s (c : nc_stream_context) st' t :
  on_core (ulift (request OpClose [])) (Some (set_field KClose fut s), c) = Def (NABTO_EC_OK, st', t) ->
  api_handler (AiClose fut) (Some s, c) = Def (tt, st', AsReset fut :: t).
Proof.
  intros Hrun. cbn [set_field request] in Hrun. cbn [api_handler]. unfold nabto_device_stream_close.
  unfold ubind, on_api; cbn -[on_core nc_stream_async_close]; run_core Hrun; cbn; by rewrite app_nil_r.
Qed.

(** Releasing the stream of the core calls nobody back. *)
Lemma release_runs s (c : nc_stream_context) :
  exists c', on_core (ulift nc_stream_release) (s, c) = Def (tt, (s, c'), []) /\ live c' = live c.
Proof. eexists. split; [reflexivity |]. by destruct c. Qed.

Lemma core_step_accepts v i (c c' : nc_stream_context) acc t :
  core_input i = true -> stream_step v i c = Def (acc, c', t) -> acc = [].
Proof.
  intros Hi. destruct v, i; try discriminate; cbn [stream_step]; intros (a & c1 & t1 & t2 & _ & E & _)%ubind_inv;
    by injection E.
Qed.

Lemma api_step_good s (c : nc_stream_context) i :
  api_inv s c -> api_allowed s c i ->
  (forall v j, i = AiCore v j -> is_def (stream_step v j c) = true) ->
  step_good i s c (api_handler i (s, c)).
Proof.
  intros Hinv [Ha Hok] Hdef.
  assert (Hg : forall op fut b s0, guarded_op i = Some (op, fut, b) -> given_of i = [(kind op, fut)] -> s = Some s0 ->
            step_good i s c (api_handler i (s, c))).
  { intros op fut b s0 Hi Hgiven ->. destruct (field (kind op) s0) as [f |] eqn:Ef.
    - rewrite (guarded_refuses i op fut b f s0 c Hi Ef). by apply refused_good.
    - destruct (start_run op b s0 c fut Ha Hinv (field_free _ _ _ Hinv Ef)) as (s' & c' & t' & Hrun & Hf & Hp).
      rewrite (guarded_starts i op fut b s0 c _ t' Hi Ef Hrun). by apply (started_good i op fut). }
  destruct i as [fut | fut b | fut b | fut b | fut | | | v j]; (destruct s as [s |]; [| try (by destruct Hok)]);
    try (by eapply Hg).
  - destruct Hok as [_ Hz]. destruct (start_run OpClose [] s c fut Ha Hinv Hz) as (s' & c' & t' & Hrun & Hf & Hp).
    rewrite (close_starts fut s c _ t' Hrun). by apply (started_good _ OpClose fut).
  - destruct (release_runs (Some s) c) as (c' & Hrun & Hl).
    exists (Some s), c', []. split_and!.
    + cbn [api_handler]. unfold nabto_device_stream_abort, ubind, on_api. cbn -[on_core nc_stream_abort].
      by run_core Hrun.
    + cbn. by rewrite Hl.
    + cbn. by rewrite Hl, app_nil_r.
  - destruct Hok as [_ Hl0]. destruct (release_runs (Some s) c) as (c' & Hrun & Hl).
    exists None, c', [AsFree]. split_and!.
    + cbn [api_handler]. unfold nabto_device_stream_free, ubind, on_api. cbn -[on_core nc_stream_release].
      by run_core Hrun.
    + cbn. by rewrite Hl.
    + cbn. by rewrite Hl0.
  - specialize (Hdef v j eq_refl). destruct (stream_step v j c) as [[[acc c'] t] |] eqn:Es; [| done].
    pose proof (stream_step_spec v j c acc c' t Ha Es) as Hc. rewrite (core_step_accepts _ _ _ _ _ _ Hok Es), app_nil_r in Hc.
    replace (waiting c) with (live c) in Hc by (unfold live; by rewrite Ha).
    destruct (on_core_run _ s c _ c' t _ Es Hc Hinv) as (s' & t' & Hrun & Hf & Hp).
    exists (Some s'), c', t'. split_and!; [| done | by rewrite app_nil_r].
    cbn [api_handler]. unfold ubind. rewrite Hrun. cbn. by rewrite app_nil_r.
  - specialize (Hdef v j eq_refl). destruct (stream_step v j c) as [[[acc c'] t] |] eqn:Es; [| done].
    pose proof (stream_step_spec v j c acc c' t Ha Es) as Hc. rewrite (core_step_accepts _ _ _ _ _ _ Hok Es), app_nil_r in Hc.
    replace (waiting c) with (live c) in Hc by (unfold live; by rewrite Ha).
    cbn in Hinv. rewrite Hinv in Hc. symmetry in Hc. apply Permutation_nil_l in Hc. symmetry in Hc. apply app_eq_nil in Hc as [Hct Hcl].
    exists None, c', []. split_and!; [| done | done].
    cbn [api_handler]. unfold ubind, on_core. rewrite Es, (callbacks_quiet t None Hct). done.
Qed.

Lemma api_reachable_inv lib streamId connectionRef g t s c :
  api_reachable lib streamId connectionRef g t (s, c) ->
  api_inv s c /\ resolved_of t ++ waiting_futures s c ≡ₚ g.
Proof.
  intros Hr. remember (s, c) as st eqn:Es. revert s c Es.
  induction Hr as [| g t s0 c0 i s1 c1 t1 _ IH Hok Hrun]; intros s c [= <- <-].
  { split; [| done]. intros k. split_and!; [| | by destruct k]; destruct k; cbn; lia. }
  destruct (IH _ _ eq_refl) as [Hinv Hg].
  destruct (api_step_good s0 c0 i Hinv Hok) as (s' & c' & t' & Hrun' & Hinv' & Hp).
  { intros v j ->. cbn [api_handler] in Hrun. unfold ubind, on_core in Hrun.
    by destruct (stream_step v j c0) as [[[??]?] |]. }
  rewrite Hrun in Hrun'. injection Hrun' as <- <- <-. split; [done |].
  by rewrite api_resolved_app, <- app_assoc, Hp, app_assoc, Hg.
Qed.


(** Closing a stream that is being closed: the answer is that it is in progress, but the second future
    has taken the place of the first. When the close has ended the second is resolved again, and the
    first never. *)
Lemma close_twice s (c : nc_stream_context) cb f1 f2 ec :
  as_closeFut s = Some f1 -> ns_closeCb c = Some cb ->
  let s2 := s {{ as_closeFut := Some f2 }} in
  api_handler (AiClose f2) (Some s, c) =
    Def (tt, (Some s2, c), [AsReset f2; AsResolve KClose f2 NABTO_EC_OPERATION_IN_PROGRESS]) /\
  core_callbacks [SmCallback OpClose cb ec] (Some s2) = Def (tt, Some s2, [AsResolve KClose f2 ec]).
Proof.
  intros Hs Hc s2. split; [| by destruct s].
  assert (Hcore : on_core (ulift (nc_stream_async_close str_data)) (Some s2, c) =
                  Def (NABTO_EC_OPERATION_IN_PROGRESS, (Some s2, c), [])).
  { unfold on_core, ulift, nc_stream_async_close. rewrite hget_seq, Hc. done. }
  cbn [api_handler]. unfold nabto_device_stream_close, ubind, on_api. cbn -[on_core nc_stream_async_close].
  run_core Hcore. done.
Qed.

(** A callback of the core after the stream was freed is undefined. *)
Lemma freed_callback_undefined v i (c c' : nc_stream_context) acc t :
  stream_step v i c = Def (acc, c', t) -> called t <> [] -> api_handler (AiCore v i) (None, c) = UB.
Proof.
  intros Hs Ht. cbn [api_handler]. unfold ubind, on_core. rewrite Hs.
  assert (Hub : core_callbacks t None = UB).
  { clear Hs. induction t as [| [] t IH]; try exact (IH Ht); [done |]. destruct op; done. }
  by rewrite Hub.
Qed.

(** An aborted stream is released a second time when it is freed, also when its slot in the core
    belongs to another stream by then. *)
Lemma free_releases_slot s streamId connectionRef (c : nc_stream_context) :
  let other := exec (nc_stream_init streamId connectionRef []) c in
  nabto_device_stream_free (Some s, other) =
    Def (tt, (None, other {{ ns_stream ::= nabto_stream_release }}), [AsFree]).
Proof. reflexivity. Qed.
End ApiStream.

(** ** The listener *)

(** [slc_stream]: where the application wants the next stream. *)
Record nabto_device_stream_listener_context : Type := mk_slc {
  slc_stream : option nat;
  slc_type : Z
}.

Inductive sl_call : Type :=
| SlLock
| SlUnlock
| SlListenerInit
| SlAddListener (type : Z)
| SlRemoveListener
| SlFreeContext
| SlResolve (fut : nat) (ec : np_error_code)
| SlClear (stream : nat)
| SlDeliver (stream : nat) (str : nat)
| SlTryResolve
| SlAddEvent (stream : nat)
| SlSetError (ec : np_error_code)
| SlReleaseStream (stream : nat)
| SlFreeStream (stream : nat).

Definition sl_handler (A : Type) : Type := handler nabto_device_stream_listener_context sl_call A.

(** [init]: the answer of [nabto_device_listener_init]; [add] that of [nc_stream_manager_add_listener],
    with the type the listener got. *)
Definition nabto_device_stream_init_listener (allocated : bool) (init : np_error_code) (add : np_error_code * Z)
    (type : Z) : sl_handler np_error_code :=
  if negb allocated then hret NABTO_EC_OUT_OF_MEMORY
  else
    emit SlLock ;;;
    emit SlListenerInit ;;;
    if is_error init then emit SlFreeContext ;;; hret (nabto_device_error_core_to_api init)
    else
      emit (SlAddListener type) ;;;
      if is_error add.1 then emit SlFreeContext ;;; hret (nabto_device_error_core_to_api add.1)
      else hmod (fun l => l {{ slc_type := add.2 }}) ;;; emit SlUnlock ;;; hret NABTO_EC_OK.

(** The type of the listener is the second result. *)
Definition nabto_device_stream_init_listener_ephemeral (allocated : bool) (init : np_error_code)
    (add : np_error_code * Z) : sl_handler (np_error_code * Z) :=
  let* ec := nabto_device_stream_init_listener allocated init add 0 in
  let* l := hget in
  hret (ec, if is_error ec then 0 else slc_type l).

Definition nabto_device_listener_new_stream (rightType : bool) (status init : np_error_code) (fut stream : nat) :
    sl_handler unit :=
  emit SlLock ;;;
  if negb rightType then emit SlUnlock ;;; emit (SlResolve fut NABTO_EC_INVALID_ARGUMENT)
  else if is_error status then emit SlUnlock ;;; emit (SlResolve fut status)
  else
    (if is_error init then emit (SlResolve fut init)
     else emit (SlClear stream) ;;; hmod (fun l => l {{ slc_stream := Some stream }}) ;;; emit SlTryResolve) ;;;
    emit SlUnlock.

(** [str]: the stream of the API, the event. *)
Definition nabto_device_stream_listener_callback (ec : np_error_code) (str : nat) : sl_handler np_error_code :=
  let* l := hget in
  if negb (is_error ec) then
    match slc_stream l with
    | Some stream =>
        emit (SlDeliver stream str) ;;; hmod (fun l => l {{ slc_stream := None }}) ;;; hret NABTO_EC_OK
    | None => hret NABTO_EC_UNKNOWN
    end
  else if ec_eqb ec NABTO_EC_ABORTED then emit SlRemoveListener ;;; emit SlFreeContext ;;; hret ec
  else emit (SlReleaseStream str) ;;; emit (SlFreeStream str) ;;; hret ec.

(** Without memory for the stream of the API its field is read. [added]: the answer of the listener. *)
Definition nabto_device_stream_core_callback (ec : np_error_code) (allocated : bool) (added : np_error_code) (str : nat) :
    uhandler nabto_device_stream_listener_context sl_call unit :=
  if is_error ec then ulift (emit (SlSetError ec))
  else if negb allocated then fun _ => UB
  else
    ulift (emit (SlAddEvent str) ;;;
           if is_error added then emit (SlReleaseStream str) ;;; emit (SlFreeStream str) else hskip).

(** A listener that cannot be added leaves the mutex locked: every later call of the API waits. *)
Lemma init_listener_keeps_lock init add type l :
  is_error init = true \/ is_error add.1 = true ->
  exists t, trace (nabto_device_stream_init_listener true init add type) l = SlLock :: t /\ SlUnlock ∉ t.
Proof.
  intros He. unfold nabto_device_stream_init_listener, trace. hsimpl.
  destruct (is_error init); [| destruct He as [| He]; [done |]; rewrite He];
    (eexists; split; [reflexivity |]; intros Hin; repeat (apply elem_of_cons in Hin as [? | Hin]; [done |]);
     by apply elem_of_nil in Hin).
Qed.

(** ** Witnesses *)

Definition example_core : stream_env := mk_env (fun _ => true) 0 NABTO_EC_OK 8.

