(* ===== verification/Device.v ===== *)
(** * The device core (nc_device.c)

    The device owns the components of the core: it initializes them, binds its three sockets one
    after another, starts the attacher, and closes them in order. The components are other models;
    their calls are the trace, and what they call back are inputs. *)

From S2P Require Import Prelude Platform Attacher ClientConnection.

#[local] Open Scope Z_scope.
#[local] Open Scope list_scope.
#[local] Open Scope handler_scope.

Inductive nc_device_state : Type :=
| NC_DEVICE_STATE_SETUP
| NC_DEVICE_STATE_RUNNING
| NC_DEVICE_STATE_STOPPED.

#[global] Instance device_state_eq : EqDecision nc_device_state.
Proof. solve_decision. Defined.

Inductive device_socket : Type := SkUdp | SkSecondaryUdp | SkLocalUdp.

(** The callback of [socketBoundCompletionEvent]. *)
Inductive bound_callback : Type := UdpBound | LocalUdpBound | SecondaryUdpBound.

(** Strings are lists of characters without the final NUL; a callback and a listener are numbers. *)
Record nc_device_context : Type := mk_dev {
  dv_state : nc_device_state;
  dv_dtlsServer : bool;                         (* dtlsServer != NULL *)
  dv_enableMdns : bool;
  dv_connectionRef : Z;
  dv_stunHost : option (list Z);
  dv_stunPort : Z;
  dv_productId : list Z;
  dv_deviceId : list Z;
  dv_hostname : list Z;
  dv_serverPort : Z;
  dv_localPort : Z;
  dv_closeCb : option nat;
  dv_eventsListeners : list nat;
  dv_deviceEvents : list nat;
  dv_bound : bound_callback
}.

(** The components, in the order in which they are initialized. *)
Inductive device_component : Type :=
| CpUdp | CpSecondaryUdp | CpLocalUdp | CpDtlsServer | CpCoapServer | CpCoapClient | CpAttacher
| CpRendezvous | CpRendezvousCoap | CpStun | CpStunCoap | CpSpake2 | CpSpake2Coap
| CpClientConnect | CpStreamManager | CpSocketBoundEvent.

#[global] Instance device_component_eq : EqDecision device_component.
Proof. solve_decision. Defined.

Inductive device_call : Type :=
| DvInit (c : device_component)
| DvDeinit (c : device_component)
| DvSetKeys (publicKey privateKey : list Z)       (* of the attacher, then of the DTLS server *)
| DvBind (s : device_socket) (port : Z)
| DvSetClientConnection (s : device_socket)
| DvSetStun (s : device_socket)
| DvStartRecv (s : device_socket)
| DvAbort (s : device_socket)
| DvRendezvousSet
| DvRendezvousRemove
| DvStunSetSockets
| DvStunRemoveSockets
| DvStunSetHost (host : option (list Z)) (port : Z)
| DvAttacherInfo (appName appVersion productId deviceId : list Z)
| DvAttacherStart (hostname : list Z) (port : Z)
| DvAttacherStop
| DvAttacherClose
| DvMdnsPublish (port : Z) (productId deviceId : list Z)
| DvConnectionsClose
| DvCloseCb (cb : nat) (ec : np_error_code)
| DvConnectionEvent (listener : nat) (connectionRef : Z) (event : nc_connection_event)
| DvDeviceEvent (listener : nat) (event : nc_device_event)
| DvAddServerConnectToken (token : string)
| DvTokensSynchronized.

Definition dv_handler (A : Type) : Type := handler nc_device_context device_call A.

(** ** Initialization *)

Definition device_zero : nc_device_context :=
  mk_dev NC_DEVICE_STATE_SETUP false false 0 None 0 [] [] [] 0 0 None [] [] UdpBound.

Definition nc_device_deinit : dv_handler unit :=
  emit (DvDeinit CpStreamManager) ;;;
  emit (DvDeinit CpClientConnect) ;;;
  emit (DvDeinit CpStunCoap) ;;;
  emit (DvDeinit CpStun) ;;;
  emit (DvDeinit CpRendezvousCoap) ;;;
  emit (DvDeinit CpRendezvous) ;;;
  emit (DvDeinit CpAttacher) ;;;
  emit (DvDeinit CpCoapClient) ;;;
  emit (DvDeinit CpCoapServer) ;;;
  emit (DvDeinit CpSpake2Coap) ;;;
  emit (DvDeinit CpSpake2) ;;;
  let* device := hget in
  (if dv_dtlsServer device then emit (DvDeinit CpDtlsServer) else hskip) ;;;
  emit (DvDeinit CpUdp) ;;;
  emit (DvDeinit CpLocalUdp) ;;;
  emit (DvDeinit CpSecondaryUdp) ;;;
  emit (DvDeinit CpSocketBoundEvent).

(** The components whose initialization may fail; that of [CpSpake2] cannot. *)
Definition fallible_components : list device_component :=
  [CpUdp; CpSecondaryUdp; CpLocalUdp; CpDtlsServer; CpCoapServer; CpCoapClient; CpAttacher; CpRendezvous;
   CpRendezvousCoap; CpStun; CpStunCoap; CpSpake2; CpSpake2Coap].

(** The sequence of initializations up to the first error; creating the DTLS server stores it. *)
Fixpoint init_components (answer : device_component -> np_error_code) (cs : list device_component) :
    dv_handler np_error_code :=
  match cs with
  | [] => hret NABTO_EC_OK
  | c :: cs =>
      emit (DvInit c) ;;;
      if bool_decide (c <> CpSpake2) && is_error (answer c) then hret (answer c)
      else
        (if bool_decide (c = CpDtlsServer) then hmod (fun d => d {{ dv_dtlsServer := true }}) else hskip) ;;;
        init_components answer cs
  end.

Definition nc_device_init (answer : device_component -> np_error_code) : dv_handler np_error_code :=
  hmod (fun _ => device_zero) ;;;
  let* ec := init_components answer fallible_components in
  if is_error ec then nc_device_deinit ;;; hret ec
  else
    emit (DvInit CpClientConnect) ;;;
    emit (DvInit CpStreamManager) ;;;
    hmod (fun d => d {{ dv_eventsListeners := []; dv_deviceEvents := []; dv_serverPort := 443 }}) ;;;
    emit (DvInit CpSocketBoundEvent) ;;;
    hmod (fun d => d {{ dv_bound := UdpBound }}) ;;;
    hret (answer CpSocketBoundEvent).

Definition nc_device_set_keys (publicKey privateKey : list Z) : dv_handler unit := emit (DvSetKeys publicKey privateKey).

(** ** Starting *)

Definition is_stopped (s : nc_device_state) : bool := match s with NC_DEVICE_STATE_STOPPED => true | _ => false end.
Definition is_running (s : nc_device_state) : bool := match s with NC_DEVICE_STATE_RUNNING => true | _ => false end.

Definition nc_device_secondary_udp_bound_cb (ec : np_error_code) : dv_handler unit :=
  let* dev := hget in
  if is_stopped (dv_state dev) then hskip
  else if is_error ec then hskip
  else
    emit DvStunSetSockets ;;;
    emit (DvSetStun SkUdp) ;;;
    emit (DvSetStun SkSecondaryUdp) ;;;
    emit (DvStartRecv SkSecondaryUdp).

(** [localPort]: the port of the local socket. *)
Definition nc_device_local_udp_bound_cb (localPort : Z) (ec : np_error_code) : dv_handler unit :=
  let* dev := hget in
  if is_stopped (dv_state dev) then hskip
  else if is_error ec then hskip
  else
    (if dv_enableMdns dev then emit (DvMdnsPublish localPort (dv_productId dev) (dv_deviceId dev)) else hskip) ;;;
    emit (DvSetClientConnection SkLocalUdp) ;;;
    emit (DvStartRecv SkLocalUdp) ;;;
    hmod (fun d => d {{ dv_bound := SecondaryUdpBound }}) ;;;
    emit (DvBind SkSecondaryUdp 0).

Definition nc_device_udp_bound_cb (ec : np_error_code) : dv_handler unit :=
  let* dev := hget in
  if is_stopped (dv_state dev) then hskip
  else if is_error ec then hmod (fun d => d {{ dv_state := NC_DEVICE_STATE_STOPPED }})
  else
    emit (DvSetClientConnection SkUdp) ;;;
    emit DvRendezvousSet ;;;
    emit (DvAttacherStart (dv_hostname dev) (dv_serverPort dev)) ;;;
    emit (DvStartRecv SkUdp) ;;;
    hmod (fun d => d {{ dv_bound := LocalUdpBound }}) ;;;
    emit (DvBind SkLocalUdp (dv_localPort dev)).

(** The completion event runs its callback. *)
Definition socket_bound (localPort : Z) (ec : np_error_code) : dv_handler unit :=
  let* dev := hget in
  match dv_bound dev with
  | UdpBound => nc_device_udp_bound_cb ec
  | LocalUdpBound => nc_device_local_udp_bound_cb localPort ec
  | SecondaryUdpBound => nc_device_secondary_udp_bound_cb ec
  end.

Definition nc_device_start (appName appVersion productId deviceId hostname : list Z) (port : Z) (enableMdns : bool) :
    dv_handler np_error_code :=
  hmod (fun d => d {{ dv_state := NC_DEVICE_STATE_RUNNING; dv_enableMdns := enableMdns; dv_productId := productId;
                      dv_deviceId := deviceId; dv_hostname := hostname; dv_connectionRef := 0; dv_localPort := port }}) ;;;
  emit (DvAttacherInfo appName appVersion productId deviceId) ;;;
  emit (DvBind SkUdp 0) ;;;
  hret NABTO_EC_OK.

(** ** Closing *)

Definition nc_device_attach_closed_cb : dv_handler unit :=
  emit (DvAbort SkUdp) ;;;
  emit (DvAbort SkLocalUdp) ;;;
  emit (DvAbort SkSecondaryUdp) ;;;
  let* dev := hget in
  match dv_closeCb dev with
  | Some cb => hmod (fun d => d {{ dv_closeCb := None }}) ;;; emit (DvCloseCb cb NABTO_EC_OK)
  | None => hskip
  end.

Definition nc_device_client_connections_closed_cb : dv_handler unit := emit DvAttacherClose.

Definition nc_device_stop : dv_handler unit :=
  hmod (fun d => d {{ dv_state := NC_DEVICE_STATE_STOPPED }}) ;;;
  emit (DvAbort SkUdp) ;;;
  emit (DvAbort SkSecondaryUdp) ;;;
  emit DvRendezvousRemove ;;;
  emit DvStunRemoveSockets ;;;
  emit DvAttacherStop.

(** [answer]: what closing the connections answers; [NABTO_EC_STOPPED] when there are none. *)
Definition nc_device_close (answer : np_error_code) (cb : nat) : dv_handler np_error_code :=
  let* dev := hget in
  if negb (is_running (dv_state dev)) then hret NABTO_EC_INVALID_STATE
  else
    hmod (fun d => d {{ dv_closeCb := Some cb; dv_state := NC_DEVICE_STATE_STOPPED }}) ;;;
    emit DvConnectionsClose ;;;
    (if ec_eqb answer NABTO_EC_STOPPED then nc_device_client_connections_closed_cb else hskip) ;;;
    hret NABTO_EC_OK.

(** ** Listeners *)

Definition nc_device_add_connection_events_listener (listener : nat) : dv_handler unit :=
  hmod (fun d => d {{ dv_eventsListeners ::= fun l => l ++ [listener] }}).
Definition nc_device_remove_connection_events_listener (listener : nat) : dv_handler unit :=
  hmod (fun d => d {{ dv_eventsListeners ::= filter (fun l => l <> listener) }}).
Definition nc_device_add_device_events_listener (listener : nat) : dv_handler unit :=
  hmod (fun d => d {{ dv_deviceEvents ::= fun l => l ++ [listener] }}).
Definition nc_device_remove_device_events_listener (listener : nat) : dv_handler unit :=
  hmod (fun d => d {{ dv_deviceEvents ::= filter (fun l => l <> listener) }}).

Fixpoint emit_all (t : list device_call) : dv_handler unit :=
  match t with [] => hskip | c :: t => emit c ;;; emit_all t end.

(** Every listener that is in the list is told, in order. *)
Definition nc_device_connection_events_listener_notify (connectionRef : Z) (event : nc_connection_event) : dv_handler unit :=
  let* dev := hget in
  emit_all (map (fun l => DvConnectionEvent l connectionRef event) (dv_eventsListeners dev)).

(** [attacher]: the STUN host and port the attacher was told. *)
Definition nc_device_events_listener_notify (attacher : option (list Z) * Z) (event : nc_device_event) : dv_handler unit :=
  (if bool_decide (event = NC_DEVICE_EVENT_ATTACHED) && negb (attacher.2 =? 0)
   then hmod (fun d => d {{ dv_stunHost := attacher.1; dv_stunPort := attacher.2 }}) ;;;
        emit (DvStunSetHost attacher.1 attacher.2)
   else hskip) ;;;
  let* dev := hget in
  emit_all (map (fun l => DvDeviceEvent l event) (dv_deviceEvents dev)).

Definition nc_device_add_server_connect_token (token : string) : dv_handler unit := emit (DvAddServerConnectToken token).
Definition nc_device_is_server_connect_tokens_synchronized : dv_handler unit := emit DvTokensSynchronized.

(** ** The life of a device *)

Section Life.
(** What the device is started with, and the port its local socket gets. *)
Context (appName appVersion productId deviceId hostname : list Z) (port : Z) (enableMdns : bool).
Context (boundPort : Z).
(** The device after its initialization, and the port of the basestation. *)
Context (serverPort : Z).

Definition device_fresh : nc_device_context :=
  mk_dev NC_DEVICE_STATE_SETUP true false 0 None 0 [] [] [] serverPort 0 None [] [] UdpBound.

Inductive device_input : Type :=
| DiStart
| DiBound (ec : np_error_code)
| DiClose (answer : np_error_code) (cb : nat)
| DiConnectionsClosed
| DiAttacherClosed
| DiStop.

(** What is under way: binding a socket, closing the connections or the attacher. *)
Inductive closing_phase : Type := ClNone | ClConnections | ClAttacher.
#[local] Instance closing_phase_eq : EqDecision closing_phase.
Proof. solve_decision. Defined.
Record device_env : Type := mk_env { de_binding : bool; de_closing : closing_phase }.

(** The device is started once; a bind that is under way completes, and so does closing. *)
Definition device_allowed (d : nc_device_context) (e : device_env) (i : device_input) : bool :=
  match i with
  | DiStart => bool_decide (dv_state d = NC_DEVICE_STATE_SETUP)
  | DiBound _ => de_binding e
  | DiConnectionsClosed => bool_decide (de_closing e = ClConnections)
  | DiAttacherClosed => bool_decide (de_closing e = ClAttacher)
  | DiClose _ _ | DiStop => true
  end.

(** A step, with the close it accepts. *)
Definition device_handler (i : device_input) : dv_handler (list nat) :=
  match i with
  | DiStart => nc_device_start appName appVersion productId deviceId hostname port enableMdns ;;; hret []
  | DiBound ec => socket_bound boundPort ec ;;; hret []
  | DiClose answer cb => let* ec := nc_device_close answer cb in hret (if is_error ec then [] else [cb])
  | DiConnectionsClosed => nc_device_client_connections_closed_cb ;;; hret []
  | DiAttacherClosed => nc_device_attach_closed_cb ;;; hret []
  | DiStop => nc_device_stop ;;; hret []
  end.

Definition is_bind (c : device_call) : bool := match c with DvBind _ _ => true | _ => false end.
Definition phase_of (p : closing_phase) (t : list device_call) : closing_phase :=
  fold_left (fun p c => match c with DvConnectionsClose => ClConnections | DvAttacherClose => ClAttacher
                                | DvCloseCb _ _ => ClNone | _ => p end) t p.
Definition device_next (e : device_env) (i : device_input) (t : list device_call) : device_env :=
  mk_env ((match i with DiBound _ => false | _ => de_binding e end) || existsb is_bind t)
         (phase_of (match i with DiAttacherClosed => ClNone | _ => de_closing e end) t).

Inductive device_reachable : list nat -> list device_call -> nc_device_context * device_env -> Prop :=
| device_init : device_reachable [] [] (device_fresh, mk_env false ClNone)
| device_does cbs t d e i :
    device_reachable cbs t (d, e) -> device_allowed d e i = true ->
    device_reachable (cbs ++ result (device_handler i) d) (t ++ trace (device_handler i) d)
      (exec (device_handler i) d, device_next e i (trace (device_handler i) d)).

(** *** What should happen *)

(** The calls that start something. *)
Definition starting (c : device_call) : bool :=
  match c with
  | DvBind _ _ | DvSetClientConnection _ | DvSetStun _ | DvStartRecv _ | DvRendezvousSet | DvStunSetSockets
  | DvAttacherInfo _ _ _ _ | DvAttacherStart _ _ | DvMdnsPublish _ _ _ => true
  | _ => false
  end.
(** A full start: the main socket and the attacher, the socket for local clients, the second socket
    of STUN. *)
Definition startup : list (list device_call) :=
  [[DvAttacherInfo appName appVersion productId deviceId; DvBind SkUdp 0];
   [DvSetClientConnection SkUdp; DvRendezvousSet; DvAttacherStart hostname serverPort; DvStartRecv SkUdp;
    DvBind SkLocalUdp port];
   (if enableMdns then [DvMdnsPublish boundPort productId deviceId] else []) ++
   [DvSetClientConnection SkLocalUdp; DvStartRecv SkLocalUdp; DvBind SkSecondaryUdp 0];
   [DvStunSetSockets; DvSetStun SkUdp; DvSetStun SkSecondaryUdp; DvStartRecv SkSecondaryUdp]].
Definition started (n : nat) : list device_call := concat (take n startup).

(** The calls of closing. *)
Definition ending (c : device_call) : bool :=
  match c with DvConnectionsClose | DvAttacherClose | DvCloseCb _ _ => true | _ => false end.
Definition ended (p : closing_phase) (cb : nat) : list device_call :=
  match p with
  | ClConnections => [DvConnectionsClose]
  | ClAttacher => [DvConnectionsClose; DvAttacherClose]
  | ClNone => [DvConnectionsClose; DvAttacherClose; DvCloseCb cb NABTO_EC_OK]
  end.

(** *** The invariant *)

Definition bind_number (b : bound_callback) : nat :=
  match b with UdpBound => 1 | LocalUdpBound => 2 | SecondaryUdpBound => 3 end.

(** The device holds what it was started with. *)
Definition holds (d : nc_device_context) : Prop :=
  dv_productId d = productId /\ dv_deviceId d = deviceId /\ dv_hostname d = hostname /\ dv_localPort d = port /\
  dv_enableMdns d = enableMdns /\ dv_serverPort d = serverPort.

Definition device_inv (cbs : list nat) (t : list device_call) (d : nc_device_context) (e : device_env) : Prop :=
  (if de_binding e then holds d /\ filter starting t = started (bind_number (dv_bound d))
   else exists n, filter starting t = started n) /\
  (dv_state d = NC_DEVICE_STATE_SETUP ->
     de_binding e = false /\ filter starting t = [] /\ dv_bound d = UdpBound /\ dv_serverPort d = serverPort) /\
  match cbs with
  | [] => filter ending t = [] /\ de_closing e = ClNone
  | [cb] =>
      dv_state d = NC_DEVICE_STATE_STOPPED /\ filter ending t = ended (de_closing e) cb /\
      dv_closeCb d = (if bool_decide (de_closing e = ClNone) then None else Some cb)
  | _ => False
  end.

Lemma device_step_inv cbs t d e i :
  device_inv cbs t d e -> device_allowed d e i = true ->
  device_inv (cbs ++ result (device_handler i) d) (t ++ trace (device_handler i) d)
    (exec (device_handler i) d) (device_next e i (trace (device_handler i) d)).
Proof.
  intros (Hb & Hs & Hc) Hok. destruct d as [st ds md cr sh sp pr dv hn svp lp cb ev de bd]. destruct e as [binding closing].
  unfold device_inv. rewrite !filter_app.
  destruct i as [| ec | answer cb' | | |]; cbn in Hok.
  - apply bool_decide_eq_true in Hok. cbn in Hok. subst st. cbn in Hs. destruct (Hs eq_refl) as (-> & Ht & -> & ->).
    cbn in Hc. cbn. rewrite Ht. cbn. split_and!; try done.
    rewrite !app_nil_r. destruct cbs as [| ? [|]]; naive_solver.
  - subst binding. destruct Hb as [(Hp & Hd & Hh & Hl & Hm & Hsv) Ht]. cbn in Hp, Hd, Hh, Hl, Hm, Hsv. subst.
    cbn [de_binding dv_bound] in Ht. cbn [device_handler device_next].
    destruct st; [by destruct (Hs eq_refl) | |].
    + destruct cbs as [| ? [|]]; [| by destruct Hc | done]. destruct Hc as [Hc Hcl]. cbn in Hcl. subst closing.
      unfold started, startup in *.
      destruct (is_error ec) eqn:Eec; destruct bd; destruct enableMdns eqn:Em; unfold socket_bound, nc_device_udp_bound_cb,
        nc_device_local_udp_bound_cb, nc_device_secondary_udp_bound_cb; hsimpl; rewrite Eec; hsimpl.
      all: rewrite ?filter_app, ?Ht, ?Hc.
      all: split_and!; try done; try discriminate; try (unfold holds; rewrite Em; by split_and!).
      all: try first [by exists 1%nat | by exists 2%nat | by exists 3%nat | by exists 4%nat].
    + assert (Hq : socket_bound boundPort ec (mk_dev NC_DEVICE_STATE_STOPPED ds enableMdns cr sh sp productId deviceId
        hostname serverPort port cb ev de bd) = (tt, mk_dev NC_DEVICE_STATE_STOPPED ds enableMdns cr sh sp productId
        deviceId hostname serverPort port cb ev de bd, [])) by (by destruct bd).
      unfold result, trace, exec, hbind. rewrite Hq. cbn. rewrite !app_nil_r. split_and!; [by eexists | done | exact Hc].
  - unfold nc_device_close. destruct st; cbn [device_handler]; hsimpl.
    + rewrite !app_nil_r. rewrite orb_false_r. done.
    + destruct cbs as [| ? [|]]; [| by destruct Hc | done]. destruct Hc as [Hc ->].
      rewrite Hc. assert (Hb' : if binding || false
        then holds (mk_dev NC_DEVICE_STATE_STOPPED ds md cr sh sp pr dv hn svp lp (Some cb') ev de bd) /\
             filter starting t ++ [] = started (bind_number bd)
        else exists n, filter starting t ++ [] = started n).
      { rewrite orb_false_r, app_nil_r. destruct binding; [| exact Hb]. exact Hb. }
      destruct (ec_eqb answer NABTO_EC_STOPPED) eqn:Ea; hsimpl; rewrite ?Ea; hsimpl; split_and!; try done; exact Hb'.
    + rewrite !app_nil_r, orb_false_r. split_and!; [exact Hb | done | exact Hc].
  - apply bool_decide_eq_true in Hok. cbn in Hok. subst closing. destruct cbs as [| cb1 [|]]; [by destruct Hc | | done].
    destruct Hc as (Hst & Hc & Hcb). cbn in Hst, Hc, Hcb. subst st cb. hsimpl. rewrite Hc, orb_false_r, !app_nil_r.
    split_and!; try done.
  - apply bool_decide_eq_true in Hok. cbn in Hok. subst closing. destruct cbs as [| cb1 [|]]; [by destruct Hc | | done].
    destruct Hc as (Hst & Hc & Hcb). cbn in Hst, Hc, Hcb. subst st cb. hsimpl. rewrite Hc, orb_false_r, !app_nil_r.
    split_and!; try done.
  - hsimpl. rewrite orb_false_r, !app_nil_r. split_and!; try done. destruct cbs as [| cb1 [|]]; [done | | done].
    destruct Hc as (Hst & Hc & Hcb). by split_and!.
Qed.

End Life.

(** Without a socket for local clients the second socket is never bound: the device continues without
    local clients, as the log says, and without STUN. *)
Example local_bind_failure ec boundPort d :
  is_error ec = true -> dv_bound d = LocalUdpBound -> socket_bound boundPort ec d = (tt, d, []).
Proof.
  intros He Hb. unfold socket_bound, nc_device_local_udp_bound_cb. rewrite hget_seq, Hb, hget_seq.
  destruct (is_stopped _); [done |]. by rewrite He.
Qed.

(** An initialization that fails - unless it is the last - ends with every component deinitialized. *)
Lemma init_failure_deinits answer c d :
  c ∈ fallible_components -> c <> CpSpake2 -> is_error (answer c) = true ->
  is_error (result (nc_device_init answer) d) = true /\
  forall c', c' <> CpDtlsServer -> c' ∈ fallible_components -> DvDeinit c' ∈ trace (nc_device_init answer) d.
Proof.
  intros Hc Hs He. unfold nc_device_init. unfold result at 1. rewrite hmod_seq. rewrite trace_hmod, trace_seq.
  set (m := init_components answer fallible_components).
  assert (Herr : is_error (result m device_zero) = true).
  { assert (Hall : forall cs d, c ∈ cs -> is_error (result (init_components answer cs) d) = true).
    { induction cs as [| x cs IH]; intros d0 Hin; [by apply elem_of_nil in Hin |].
      cbn [init_components]. unfold result, hbind, emit. cbn.
      destruct (bool_decide (x <> CpSpake2) && is_error (answer x)) eqn:Ex.
      - apply andb_prop in Ex as [_ Ex]. exact Ex.
      - apply elem_of_cons in Hin as [<- | Hin].
        + rewrite He, andb_true_r in Ex. apply bool_decide_eq_false in Ex.
          by destruct Ex.
        + unfold result in IH. destruct (bool_decide (x = CpDtlsServer)).
          * specialize (IH (d0 {{ dv_dtlsServer := true }}) Hin). unfold hmod.
            destruct (init_components answer cs _) as [[??]?]. exact IH.
          * specialize (IH d0 Hin). unfold hskip, hret.
            destruct (init_components answer cs _) as [[??]?]. exact IH. }
    by apply Hall. }
  split.
  - unfold hbind at 1. destruct (m device_zero) as [[ec d1] t1] eqn:Em. unfold result in Herr. rewrite Em in Herr. cbn in Herr.
    rewrite Herr. hsimpl. by destruct (dv_dtlsServer d1).
  - intros c' Hne Hin. rewrite Herr. apply elem_of_app. right. clear Herr Hc He.
    set (d1 := exec m device_zero). clearbody d1. unfold nc_device_deinit. hsimpl.
    destruct (dv_dtlsServer d1); destruct c'; cbn; try done; rewrite ?elem_of_cons; try tauto;
      exfalso; revert Hin; rewrite !elem_of_cons, elem_of_nil; naive_solver.
Qed.

(** Which components [init_components] initializes. *)
Lemma init_components_trace answer cs d x :
  DvInit x ∈ trace (init_components answer cs) d -> x ∈ cs.
Proof.
  revert d. induction cs as [| c cs IH]; intros d Hin; [by apply elem_of_nil in Hin |]. cbn [init_components] in Hin.
  rewrite trace_seq in Hin. apply elem_of_cons. apply elem_of_app in Hin as [Hin | Hin].
  - left. apply list_elem_of_singleton in Hin. by injection Hin.
  - destruct (_ && _); [by apply elem_of_nil in Hin |]. right. rewrite trace_seq in Hin.
    apply elem_of_app in Hin as [Hin | Hin]; [| by apply IH in Hin].
    destruct (bool_decide _); by apply elem_of_nil in Hin.
Qed.

(** An initialization that fails before its end deinitializes the completion event of the sockets, which it
    has not initialized: its table of functions is NULL (CompletionEvent.v). *)
Lemma init_failure_deinits_unset_event answer d :
  is_error (result (init_components answer fallible_components) device_zero) = true ->
  DvDeinit CpSocketBoundEvent ∈ trace (nc_device_init answer) d /\
  DvInit CpSocketBoundEvent ∉ trace (nc_device_init answer) d.
Proof.
  intros He. unfold nc_device_init. rewrite trace_hmod, trace_seq, He.
  set (d1 := exec _ device_zero). clearbody d1. rewrite trace_seq. split.
  - apply elem_of_app. right. apply elem_of_app. left. unfold nc_device_deinit. hsimpl.
    destruct (dv_dtlsServer d1); cbn; rewrite ?elem_of_cons; tauto.
  - intros Hin. apply elem_of_app in Hin as [Hin | Hin].
    + apply init_components_trace in Hin. revert Hin. unfold fallible_components. rewrite !elem_of_cons, elem_of_nil.
      intros Hin. repeat destruct Hin as [Hin | Hin]; done.
    + apply elem_of_app in Hin as [Hin | Hin]; [| by apply elem_of_nil in Hin].
      unfold nc_device_deinit in Hin. hsimpl. revert Hin.
      destruct (dv_dtlsServer d1); cbn; rewrite !elem_of_cons, elem_of_nil; intros Hin; repeat destruct Hin as [Hin | Hin]; done.
Qed.

(** ** Witnesses *)

