(* ===== verification/DeviceApi.v ===== *)
(** * The device of the API (nabto_device.c)

    What the application configures, starts, stops and closes; the core is the model of Device.v. Every
    function runs under the mutex, so it is a step. *)

From S2P Require Import Prelude Platform HexUtil Cbor Attacher Futures Device.

#[local] Open Scope Z_scope.
#[local] Open Scope list_scope.
#[local] Open Scope handler_scope.

(** [nd_appName] and [nd_appVersion] are the arrays of 33 characters; the other strings are
    allocated, without the final NUL. A future is a number. *)
Record nabto_device_context : Type := mk_nd {
  nd_core : nc_device_context;
  nd_enableMdns : bool;
  nd_closing : bool;
  nd_appName : list Z;
  nd_appVersion : list Z;
  nd_productId : option (list Z);
  nd_deviceId : option (list Z);
  nd_serverUrl : option (list Z);
  nd_publicKey : option (list Z);
  nd_privateKey : option (list Z);
  nd_port : Z;
  nd_closeFut : option nat
}.

Inductive nabto_device_call : Type :=
| NdCore (c : device_call)
| NdModulesInit                           (* logging, buffers, mbedTLS *)
| NdPlatformInit
| NdPlatformDeinit
| NdPlatformStop
| NdTunnelsInit
| NdTunnelsDeinit
| NdFutureQueueInit
| NdFutureQueueStop
| NdFutureQueueDeinit
| NdListenerStopAll
| NdReset (fut : nat)
| NdResolve (fut : nat) (ec : np_error_code)
| NdSetLogLevel (severity : Z)
| NdFree.

Definition nd_handler (A : Type) : Type := handler nabto_device_context nabto_device_call A.
Definition nd_uhandler (A : Type) : Type := uhandler nabto_device_context nabto_device_call A.

(** A function of the core. *)
Definition nd_on_core {A} (m : dv_handler A) : nd_handler A := fun dev =>
  let '(a, core, t) := m (nd_core dev) in (a, dev {{ nd_core := core }}, map NdCore t).

(** ** Life *)

Definition nabto_device_zero : nabto_device_context :=
  mk_nd device_zero false false (replicate 33 0) (replicate 33 0) None None None None None 0 None.

Definition nabto_device_do_stop : nd_handler unit := emit NdFutureQueueStop ;;; emit NdPlatformStop.

Definition nabto_device_stop : nd_handler unit :=
  let* dev := hget in
  if nd_closing dev then hskip
  else
    emit NdListenerStopAll ;;;
    emit NdTunnelsDeinit ;;;
    nd_on_core nc_device_stop ;;;
    hmod (fun d => d {{ nd_closing := true }}) ;;;
    nabto_device_do_stop.

Definition nabto_device_free : nd_handler unit :=
  nabto_device_stop ;;;
  nd_on_core nc_device_deinit ;;;
  emit NdPlatformDeinit ;;;
  emit NdFutureQueueDeinit ;;;
  emit NdFree.

Definition nabto_device_new_resolve_failure : nd_handler unit :=
  hmod (fun d => d {{ nd_closing := true }}) ;;;
  nabto_device_do_stop ;;;
  nabto_device_free.

(** What the rest of the system answers while a device is created. *)
Record new_answers : Type := mk_new {
  na_allocated : bool;
  na_mutex : bool;
  na_platform : np_error_code;
  na_core : device_component -> np_error_code;
  na_tunnels : np_error_code;
  na_futureQueue : np_error_code
}.

(** The result tells whether there is a device. *)
Definition nabto_device_new (v : new_answers) : nd_handler bool :=
  if negb (na_allocated v) then hret false
  else
    hmod (fun _ => nabto_device_zero) ;;;
    if negb (na_mutex v) then nabto_device_new_resolve_failure ;;; hret false
    else
      emit NdModulesInit ;;;
      emit NdPlatformInit ;;;
      if is_error (na_platform v) then hret false
      else
        let* ec := nd_on_core (nc_device_init (na_core v)) in
        if is_error ec then nabto_device_new_resolve_failure ;;; hret false
        else
          emit NdTunnelsInit ;;;
          if is_error (na_tunnels v) then nabto_device_new_resolve_failure ;;; hret false
          else
            emit NdFutureQueueInit ;;;
            if is_error (na_futureQueue v) then nabto_device_new_resolve_failure ;;; hret false
            else hret true.

(** ** Configuration *)

(** [allocated]: whether [strdup] has memory. *)
Definition strdup (str : list Z) (allocated : bool) : option (list Z) := if allocated then Some str else None.
Definition strdup_ec (allocated : bool) : np_error_code := if allocated then NABTO_EC_OK else NABTO_EC_OUT_OF_MEMORY.

Definition nabto_device_set_product_id (str : list Z) (allocated : bool) : nd_handler np_error_code :=
  hmod (fun d => d {{ nd_productId := strdup str allocated }}) ;;; hret (strdup_ec allocated).
Definition nabto_device_set_device_id (str : list Z) (allocated : bool) : nd_handler np_error_code :=
  hmod (fun d => d {{ nd_deviceId := strdup str allocated }}) ;;; hret (strdup_ec allocated).
Definition nabto_device_set_server_url (str : list Z) (allocated : bool) : nd_handler np_error_code :=
  hmod (fun d => d {{ nd_serverUrl := strdup str allocated }}) ;;; hret (strdup_ec allocated).
Definition nabto_device_set_server_port (port : Z) : nd_handler np_error_code :=
  hmod (fun d => d {{ nd_core ::= fun c => c {{ dv_serverPort := port }} }}) ;;; hret NABTO_EC_OK.

(** [crt]: the answer of [nm_dtls_create_crt_from_private_key], and the certificate it writes. *)
Definition nabto_device_set_private_key (str : list Z) (allocated : bool) (crt : np_error_code * option (list Z)) :
    nd_handler np_error_code :=
  hmod (fun d => d {{ nd_privateKey := strdup str allocated }}) ;;;
  if negb allocated then hret (nabto_device_error_core_to_api NABTO_EC_OUT_OF_MEMORY)
  else hmod (fun d => d {{ nd_publicKey := crt.2 }}) ;;; hret (nabto_device_error_core_to_api crt.1).

Definition nabto_device_set_app_name (name : list Z) : nd_handler np_error_code :=
  if (32 <? length name)%nat then hret NABTO_EC_STRING_TOO_LONG
  else hmod (fun d => d {{ nd_appName ::= fun mem => memcpy mem 0 name }}) ;;; hret NABTO_EC_OK.
Definition nabto_device_set_app_version (version : list Z) : nd_handler np_error_code :=
  if (32 <? length version)%nat then hret NABTO_EC_STRING_TOO_LONG
  else hmod (fun d => d {{ nd_appVersion ::= fun mem => memcpy mem 0 version }}) ;;; hret NABTO_EC_OK.

Definition nabto_device_set_local_port (port : Z) : nd_handler np_error_code :=
  hmod (fun d => d {{ nd_port := port }}) ;;; hret NABTO_EC_OK.
(** [p]: the port of the main socket; the second result is stored. *)
Definition nabto_device_get_local_port (p : Z) : np_error_code * option Z :=
  if p =? 0 then (NABTO_EC_INVALID_STATE, None) else (NABTO_EC_OK, Some p).
Definition nabto_device_enable_mdns : nd_handler np_error_code :=
  hmod (fun d => d {{ nd_enableMdns := true }}) ;;; hret NABTO_EC_OK.

(** ** Starting *)

Definition defaultServerUrlSuffix : list Z := ascii_codes ".devices.nabto.net".

(** The string in an array, up to the first NUL. *)
Fixpoint cstr (mem : list Z) : list Z :=
  match mem with [] => [] | c :: mem => if c =? 0 then [] else c :: cstr mem end.

Definition nabto_device_start (allocated : bool) : nd_handler np_error_code :=
  let* dev := hget in
  match nd_publicKey dev, nd_privateKey dev with
  | Some publicKey, Some privateKey =>
      match nd_deviceId dev, nd_productId dev with
      | Some deviceId, Some productId =>
          let go url :=
            nd_on_core (nc_device_set_keys publicKey privateKey) ;;;
            let* ec := nd_on_core (nc_device_start (cstr (nd_appName dev)) (cstr (nd_appVersion dev)) productId deviceId
                                     url (nd_port dev) (nd_enableMdns dev)) in
            hret (nabto_device_error_core_to_api ec) in
          match nd_serverUrl dev with
          | Some url => go url
          | None =>
              if negb allocated then hret NABTO_EC_OUT_OF_MEMORY
              else
                hmod (fun d => d {{ nd_serverUrl := Some (productId ++ defaultServerUrlSuffix) }}) ;;;
                go (productId ++ defaultServerUrlSuffix)
          end
      | _, _ => hret NABTO_EC_INVALID_STATE
      end
  | _, _ => hret NABTO_EC_INVALID_STATE
  end.

(** ** Fingerprints *)

(** [sprintf] of a byte with the format "%02x". *)
Definition hex_digits : list Z := ascii_codes "0123456789abcdef".
Definition sprintf_02x (b : Z) : list Z :=
  [nth (Z.to_nat (b / 16)) hex_digits 0; nth (Z.to_nat (b mod 16)) hex_digits 0].

Definition toHex (data : list Z) (allocated : bool) : option (list Z) :=
  if allocated then Some (flat_map sprintf_02x data) else None.

(** [answer]: the result and the hash of [nm_dtls_get_fingerprint_from_private_key], which reads the
    key as a string; [size]: 16, or 32 for the full fingerprint. *)
Definition device_fingerprint (size : nat) (answer : np_error_code * list Z) (allocated : bool)
    (dev : nabto_device_context) : cres (np_error_code * option (list Z)) :=
  match nd_privateKey dev with
  | None => UB
  | Some _ =>
      Def (nabto_device_error_core_to_api answer.1,
           if is_error answer.1 then None else toHex (take size answer.2) allocated)
  end.
Definition nabto_device_get_device_fingerprint_hex := device_fingerprint 16.
Definition nabto_device_get_device_fingerprint_full_hex := device_fingerprint 32.

(** [connection]: the connection with the reference, if there is one: the answer of
    [nc_client_connection_get_client_fingerprint] and the fingerprint. *)
Definition client_fingerprint (size : nat) (connection : option (np_error_code * list Z)) (allocated : bool) :
    np_error_code * option (list Z) :=
  match connection with
  | Some (NABTO_EC_OK, fingerprint) => (NABTO_EC_OK, toHex (take size fingerprint) allocated)
  | _ => (NABTO_EC_INVALID_CONNECTION, None)
  end.
Definition nabto_device_connection_get_client_fingerprint_hex := client_fingerprint 16.
Definition nabto_device_connection_get_client_fingerprint_full_hex := client_fingerprint 32.

(** [connection]: whether the connection with the reference is local. *)
Definition nabto_device_connection_is_local (connection : option bool) : bool := default false connection.

(** ** Closing *)

(** [attacher]: the STUN host and port of the attacher. *)
Definition nabto_device_close_cb (attacher : option (list Z) * Z) (ec : np_error_code) : nd_uhandler unit :=
  let+ dev := ulift hget in
  let+ fut := uof (match nd_closeFut dev with Some f => Def f | None => UB end) in
  ulift (emit (NdResolve fut (nabto_device_error_core_to_api ec)) ;;;
         nd_on_core (nc_device_events_listener_notify attacher NC_DEVICE_EVENT_CLOSED)).

(** [answer]: what closing the connections answers; the callback of the core is [nabto_device_close_cb]. *)
Definition nabto_device_close (answer : np_error_code) (fut : nat) : nd_handler unit :=
  emit (NdReset fut) ;;;
  hmod (fun d => d {{ nd_closeFut := Some fut }}) ;;;
  let* ec := nd_on_core (nc_device_close answer 0) in
  if is_error ec then emit (NdResolve fut ec) else hskip.

(** ** The rest *)

(** The severities of np_logging_defines.h: each level has those before it. *)
Definition NABTO_LOG_SEVERITY_LEVEL_ERROR : Z := 2.
Definition NABTO_LOG_SEVERITY_LEVEL_WARN : Z := Z.lor 4 NABTO_LOG_SEVERITY_LEVEL_ERROR.
Definition NABTO_LOG_SEVERITY_LEVEL_INFO : Z := Z.lor 8 NABTO_LOG_SEVERITY_LEVEL_WARN.
Definition NABTO_LOG_SEVERITY_LEVEL_TRACE : Z := Z.lor 16 NABTO_LOG_SEVERITY_LEVEL_INFO.

Definition nabto_device_set_log_level (level : string) : nd_handler np_error_code :=
  let set l := emit (NdSetLogLevel l) ;;; hret NABTO_EC_OK in
  if bool_decide (level = "error"%string) then set NABTO_LOG_SEVERITY_LEVEL_ERROR
  else if bool_decide (level = "warn"%string) then set NABTO_LOG_SEVERITY_LEVEL_WARN
  else if bool_decide (level = "info"%string) then set NABTO_LOG_SEVERITY_LEVEL_INFO
  else if bool_decide (level = "trace"%string) then set NABTO_LOG_SEVERITY_LEVEL_TRACE
  else hret NABTO_EC_INVALID_ARGUMENT.

Definition nabto_device_add_server_connect_token (answer : np_error_code) (token : string) : nd_handler np_error_code :=
  nd_on_core (nc_device_add_server_connect_token token) ;;; hret (nabto_device_error_core_to_api answer).
Definition nabto_device_are_server_connect_tokens_synchronized (answer : np_error_code) : nd_handler np_error_code :=
  nd_on_core nc_device_is_server_connect_tokens_synchronized ;;; hret (nabto_device_error_core_to_api answer).

Definition alphabet : list Z := ascii_codes "ABCDEFGHIJKLMNOPQRSTUVWXYZabcdefghijklmnopqrtsuvwxyz0123456789".

(** The loop: [random] are the answers of the random module and the bytes it writes; [None], it asks for
    more of them. *)
Fixpoint token_loop (random : list (np_error_code * Z)) (output : list Z) : option (np_error_code * list Z) :=
  if (length output <? 12)%nat then
    match random with
    | [] => None
    | (ec, randByte) :: random =>
        if is_error ec then Some (ec, output)
        else if randByte <? Z.of_nat (length alphabet)
        then token_loop random (output ++ [nth (Z.to_nat randByte) alphabet 0])
        else token_loop random output
    end
  else Some (NABTO_EC_OK, output).

(** The token is stored when there is no error. *)
Definition nabto_device_create_server_connect_token (random : list (np_error_code * Z)) (allocated : bool) :
    option (np_error_code * option (list Z)) :=
  match token_loop random [] with
  | None => None
  | Some (ec, output) =>
      Some (nabto_device_error_core_to_api ec, if is_error ec then None else strdup output allocated)
  end.

(** ** The name and the version of the application *)

(** The array with a string, as [calloc] and the copies leave it. *)
Definition padded (s : list Z) : list Z := s ++ replicate (33 - length s) 0.

Lemma cstr_app s rest : Forall (fun c => c <> 0) s -> cstr (s ++ 0 :: rest) = s.
Proof.
  induction 1 as [| c s Hc _ IH]; [done |]. cbn. rewrite (proj2 (Z.eqb_neq _ _) Hc). by rewrite IH.
Qed.

Lemma cstr_padded s : Forall (fun c => c <> 0) s -> (length s <= 32)%nat -> cstr (padded s) = s.
Proof.
  intros Hs Hl. unfold padded. replace (33 - length s)%nat with (S (32 - length s)) by lia. by apply cstr_app.
Qed.

(** Copying a name over an older one keeps what was behind it. *)
Lemma memcpy_padded s name :
  (length s <= 32)%nat -> (length name <= 32)%nat ->
  memcpy (padded s) 0 name = padded (name ++ drop (length name) s).
Proof.
  intros Hs Hn. unfold memcpy, padded. rewrite take_0. cbn [app Nat.add]. rewrite <- app_assoc. apply (f_equal (app name)).
  rewrite drop_app, drop_replicate, length_app, length_drop. f_equal. f_equal. lia.
Qed.

(** A name is stored without a final NUL: what the device is started with is the new name followed
    by the end of the older one, if that was longer. Only the first name, and a name that is at least as
    long as all before it, is stored as it is. *)
Lemma app_name_stored dev s name :
  nd_appName dev = padded s -> Forall (fun c => c <> 0) s -> (length s <= 32)%nat ->
  Forall (fun c => c <> 0) name ->
  let dev' := exec (nabto_device_set_app_name name) dev in
  if (32 <? length name)%nat
  then result (nabto_device_set_app_name name) dev = NABTO_EC_STRING_TOO_LONG /\ dev' = dev
  else result (nabto_device_set_app_name name) dev = NABTO_EC_OK /\
       cstr (nd_appName dev') = name ++ drop (length name) s.
Proof.
  intros Hm Hz Hl Hn dev'. subst dev'. unfold nabto_device_set_app_name.
  destruct (Nat.ltb_spec 32 (length name)); [by split |]. split; [done |].
  assert (He : nd_appName (exec (hmod (fun d => d {{ nd_appName ::= fun mem => memcpy mem 0 name }}) ;;;
                                   (hret NABTO_EC_OK : nd_handler _)) dev) = memcpy (nd_appName dev) 0 name) by (by destruct dev).
  rewrite He, Hm, memcpy_padded by lia.
  apply cstr_padded; [by apply Forall_app_2; [| apply Forall_drop] |].
  rewrite length_app, length_drop. lia.
Qed.

(** ** Fingerprints as text *)

Lemma sprintf_encode b : is_byte b -> sprintf_02x b = [encodeChar (Z.land (Z.shiftr b 4) 15); encodeChar (Z.land b 15)].
Proof.
  intros Hb.
  assert (Hall : Forall (fun n => sprintf_02x (Z.of_nat n) =
            [encodeChar (Z.land (Z.shiftr (Z.of_nat n) 4) 15); encodeChar (Z.land (Z.of_nat n) 15)]) (seq 0 256))
    by by_compute.
  rewrite Forall_forall in Hall. specialize (Hall (Z.to_nat b)). unfold is_byte, is_uint in Hb.
  rewrite Z2Nat.id in Hall by lia. apply Hall. apply elem_of_seq. lia.
Qed.

Lemma toHex_encodes data : bytes data -> toHex data true = Some (np_data_to_hex data).
Proof.
  intros Hb. unfold toHex. f_equal. induction Hb as [| b data Hb _ IH]; [done |].
  cbn [flat_map np_data_to_hex]. by rewrite sprintf_encode, IH.
Qed.

(** The text of a fingerprint is read back as its bytes. *)
Lemma fingerprint_text_roundtrip size hash dev :
  bytes hash -> length hash = 32%nat -> (0 < size <= 32)%nat -> is_Some (nd_privateKey dev) ->
  exists hex, device_fingerprint size (NABTO_EC_OK, hash) true dev = Def (NABTO_EC_OK, Some hex) /\
    np_hex_to_data hex (replicate size 0) = Def (true, take size hash).
Proof.
  intros Hb Hl Hs [key Hk]. exists (np_data_to_hex (take size hash)).
  assert (Hbt : bytes (take size hash)) by (by apply Forall_take).
  assert (Hlen : length (take size hash) = size) by (rewrite length_take; lia).
  split.
  - unfold device_fingerprint. rewrite Hk. cbn [is_error fst snd]. by rewrite toHex_encodes.
  - apply hex_roundtrip; [done | rewrite length_replicate; lia |]. rewrite Hlen. eval_pows. lia.
Qed.

(** ** Server connect tokens *)

(** The byte is taken. *)
Definition taken (b : Z) : bool := b <? Z.of_nat (length alphabet).

Definition chosen (random : list (np_error_code * Z)) : list Z :=
  map (fun b => nth (Z.to_nat b) alphabet 0) (filter taken random.*2).

Lemma token_loop_app random rest : forall output,
  Forall (fun r => is_error r.1 = false) random -> (length output <= 12)%nat ->
  let chars := output ++ chosen random in
  token_loop (random ++ rest) output =
    if (length chars <? 12)%nat then token_loop rest chars else Some (NABTO_EC_OK, take 12 chars).
Proof.
  induction random as [| [ec b] random IH]; intros output Hr Hl chars; subst chars; unfold chosen.
  - cbn [app fmap list_fmap filter list_filter map]. rewrite app_nil_r.
    destruct (Nat.ltb_spec (length output) 12); [done |]. rewrite take_ge by lia.
    destruct rest; cbn [token_loop]; by rewrite (proj2 (Nat.ltb_ge _ _)) by lia.
  - apply Forall_cons in Hr as [He Hr]. cbn [fst] in He. cbn [app token_loop fmap list_fmap snd].
    change (b <? Z.of_nat (length alphabet)) with (taken b). rewrite filter_cons.
    destruct (Nat.ltb_spec (length output) 12) as [Hlt | Hge].
    + rewrite He. destruct (decide (taken b)) as [Ht | Ht].
      * rewrite (Is_true_true_1 _ Ht), IH; [unfold chosen; by rewrite <- app_assoc | done | rewrite length_app; cbn; lia].
      * destruct (taken b); [by destruct Ht |]. by apply IH.
    + rewrite (proj2 (Nat.ltb_ge _ _)) by (rewrite length_app; lia).
      rewrite take_app_le by lia. by rewrite take_ge by lia.
Qed.

Lemma alphabet_nodup : NoDup alphabet.
Proof. by_compute. Qed.

(** C16. A server connect token. With random bytes that have twelve numbers below the size of the alphabet, the
    loop ends with a token of twelve characters, those of these numbers in order, and with fewer it asks
    for more; an error of the random module is the answer, and there is no token. Every character of the
    alphabet comes from exactly one value of a byte, so with uniform bytes the characters are
    uniform. *)
Theorem server_connect_token_uniform random (Hr : Forall (fun r => is_error r.1 = false) random) :
  nabto_device_create_server_connect_token random true =
    (if (length (chosen random) <? 12)%nat then None else Some (NABTO_EC_OK, Some (take 12 (chosen random)))) /\
  (forall ec b rest, (length (chosen random) < 12)%nat -> is_error ec = true ->
     nabto_device_create_server_connect_token (random ++ (ec, b) :: rest) true = Some (ec, None)) /\
  (forall c, c ∈ alphabet -> exists b, is_byte b /\ taken b = true /\ nth (Z.to_nat b) alphabet 0 = c /\
     forall b', is_byte b' -> taken b' = true -> nth (Z.to_nat b') alphabet 0 = c -> b' = b).
Proof.
  split_and!.
  - unfold nabto_device_create_server_connect_token. rewrite <- (app_nil_r random) at 1.
    rewrite token_loop_app by (done || cbn; lia). cbn [app].
    destruct (Nat.ltb_spec (length (chosen random)) 12); [| done].
    cbn [token_loop]. by rewrite (proj2 (Nat.ltb_lt _ _)) by done.
  - intros ec b rest Hl He. unfold nabto_device_create_server_connect_token.
    rewrite token_loop_app by (done || cbn; lia). cbn [app].
    rewrite (proj2 (Nat.ltb_lt _ _)) by done. cbn [token_loop]. rewrite (proj2 (Nat.ltb_lt _ _)) by done.
    by rewrite He, He.
  - intros c (i & Hi)%list_elem_of_lookup. pose proof (lookup_lt_Some _ _ _ Hi) as Hlt.
    assert (Hlen : length alphabet = 62%nat) by reflexivity.
    exists (Z.of_nat i). split_and!; [unfold is_byte, is_uint; lia | unfold taken; lia | |].
    + rewrite Nat2Z.id. by apply nth_lookup_Some.
    + intros b' Hb Ht Hn. unfold taken, is_byte, is_uint in *.
      destruct (lookup_lt_is_Some_2 alphabet (Z.to_nat b')) as [c' Hc']; [lia |].
      rewrite (nth_lookup_Some _ _ 0 _ Hc') in Hn. subst c'.
      pose proof (proj1 (NoDup_alt alphabet) alphabet_nodup _ _ _ Hi Hc'). lia.
Qed.

(** ** Closing and failing *)

(** Closing a device that is being closed: the answer is that its state is wrong, but the second future
    has taken the place of the first. When the close has ended the second is resolved again, and the
    first never. *)
Lemma close_device_twice dev answer f1 f2 attacher :
  nd_closeFut dev = Some f1 -> dv_state (nd_core dev) = NC_DEVICE_STATE_STOPPED ->
  let dev' := exec (nabto_device_close answer f2) dev in
  trace (nabto_device_close answer f2) dev = [NdReset f2; NdResolve f2 NABTO_EC_INVALID_STATE] /\
  nd_closeFut dev' = Some f2 /\
  exists r dev'' t, nabto_device_close_cb attacher NABTO_EC_OK dev' = Def (r, dev'', NdResolve f2 NABTO_EC_OK :: t).
Proof.
  intros Hf Hs dev'. subst dev'. destruct dev as [core md cl an av pi di su pk sk po cf]. cbn in Hf, Hs. subst cf.
  unfold nabto_device_close, nd_on_core, nc_device_close. hsimpl. rewrite Hs. hsimpl. split_and!; [done | done |].
  unfold nabto_device_close_cb, ubind, uof, ulift, nd_on_core. hsimpl.
  destruct (nc_device_events_listener_notify _ _ _) as [[??]?]. cbn. by eexists _, _, _.
Qed.

(** When a component of the core cannot be initialized, the core is deinitialized by its own
    initialization and once more when the device is freed: its sockets are destroyed twice. *)
Lemma new_failure_deinits_twice v c dev :
  na_allocated v = true -> na_mutex v = true -> is_error (na_platform v) = false ->
  c ∈ fallible_components -> c <> CpSpake2 -> is_error (na_core v c) = true ->
  result (nabto_device_new v) dev = false /\
  exists t1 t2, trace (nabto_device_new v) dev = t1 ++ t2 /\
    NdCore (DvDeinit CpUdp) ∈ t1 /\ NdCore (DvDeinit CpUdp) ∈ t2.
Proof.
  intros Ha Hm Hp Hc Hne He.
  destruct (init_failure_deinits (na_core v) c device_zero Hc Hne He) as [Hec Hd].
  specialize (Hd CpUdp ltac:(done) ltac:(by_compute)). unfold nabto_device_new. rewrite Ha, Hm. cbn [negb].
  set (init := nc_device_init (na_core v)) in *. clearbody init. clear He Hne Hc.
  unfold result, trace in *. destruct (init device_zero) as [[ec core] t] eqn:Ei. cbn [fst snd] in Hec, Hd.
  unfold nabto_device_new_resolve_failure, nabto_device_free, nabto_device_stop, nabto_device_do_stop, nd_on_core.
  hsimpl. rewrite Hp. hsimpl. rewrite Ei. cbn. rewrite Hec. hsimpl.
  destruct core as [st [] md cr sh sp pr dv hn svp lp cb ev de bd]; hsimpl; (split; [done |]);
    (exists (NdModulesInit :: NdPlatformInit :: map NdCore t); eexists; split; [reflexivity |]; split;
     [do 2 (apply list_elem_of_further); apply list_elem_of_fmap; by eexists | rewrite !elem_of_cons; tauto]).
Qed.

(** ** Witnesses *)

(** Bytes that are too large are left out: the token is of the numbers 0 to 11. *)
Definition example_random : list (np_error_code * Z) :=
  (NABTO_EC_OK, 62) :: map (fun n => (NABTO_EC_OK, Z.of_nat n)) (seq 0 12) ++ [(NABTO_EC_OK, 255)].

Lemma server_connect_token_uniform_witness :
  nabto_device_create_server_connect_token example_random true = Some (NABTO_EC_OK, Some (ascii_codes "ABCDEFGHIJKL")).
Proof.
  exact (proj1 (server_connect_token_uniform example_random ltac:(by_compute))).
Defined.
