(* ===== verification/CoapServer.v ===== *)
(** * The CoAP server over the connections (nc_coap_server.c)

    The CoAP library of nabto-common decides what to send and when to try again; this code moves
    its packets over the DTLS connections, one at a time, and keeps one timer for it. The library
    is a class of operations on its state [L]; a connection is a number. The library calls
    [notify_event] while it runs: its operations answer how often. A timestamp is an argument. *)

From S2P Require Import Prelude Platform Attacher.

#[local] Open Scope Z_scope.
#[local] Open Scope list_scope.
#[local] Open Scope handler_scope.

(** ** Interfaces of the library *)

(** Stamps are 32-bit milliseconds that wrap around. *)
Class NabtoCoapStamp : Type := {
  nabto_coap_is_stamp_less : Z -> Z -> bool;
  nabto_coap_stamp_diff : Z -> Z -> Z
}.

Inductive coap_server_next_event : Type :=
| NABTO_COAP_SERVER_NEXT_EVENT_SEND
| NABTO_COAP_SERVER_NEXT_EVENT_WAIT
| NABTO_COAP_SERVER_NEXT_EVENT_NOTHING.

(** [nabto_coap_server_handle_send l now n] is the packet that was made in a buffer of [n]
    bytes, [None] when the result is NULL or lies before the buffer. *)
Class NabtoCoapServer (L : Type) : Type := {
  nabto_coap_server_init : L;
  nabto_coap_server_handle_packet : L -> Z -> nat -> list Z -> L * nat;
  nabto_coap_server_next_event : L -> coap_server_next_event * L;
  nabto_coap_server_get_connection_send : L -> option nat * L;
  nabto_coap_server_handle_send : L -> Z -> nat -> option (list Z) * L;
  nabto_coap_server_get_next_timeout : L -> Z;
  nabto_coap_server_stamp_now : L -> Z -> Z;
  nabto_coap_server_handle_timeout : L -> Z -> L * nat;
  nabto_coap_server_remove_connection : L -> nat -> L * nat;
  nabto_coap_server_request_get_connection : L -> nat -> option nat
}.

(** What the code relies on: a stamp is not before itself; asking for the next event again gives the same
    answer, and a new server has nothing to do; the time is the one of the callback; and when there is something to send there is a
    connection and a packet - otherwise, the code says, is what "should not happen". *)
Class NabtoCoapStampLaws `{NabtoCoapStamp} : Prop := {
  stamp_less_irrefl : forall s, nabto_coap_is_stamp_less s s = false
}.

Class NabtoCoapServerLaws (L : Type) `{NabtoCoapServer L} : Prop := {
  server_next_event_stable : forall l e l',
    nabto_coap_server_next_event l = (e, l') -> nabto_coap_server_next_event l' = (e, l');
  server_init_idle : (nabto_coap_server_next_event nabto_coap_server_init).1 = NABTO_COAP_SERVER_NEXT_EVENT_NOTHING;
  server_stamp_now_spec : forall l now, nabto_coap_server_stamp_now l now = now;
  server_send_ready : forall l l' now n,
    nabto_coap_server_next_event l = (NABTO_COAP_SERVER_NEXT_EVENT_SEND, l') ->
    exists c d, (nabto_coap_server_get_connection_send l').1 = Some c /\
      (nabto_coap_server_handle_send (nabto_coap_server_get_connection_send l').2 now n).1 = Some d
}.

(** ** nc_coap_server.c *)

Inductive coap_server_call : Type :=
| CsFreeBuffer
| CsCreateEvent
| CsCreateTimer
| CsDestroyServer
| CsDestroyEvent
| CsDestroyTimer
| CsPostEvent                                   (* post_maybe_double *)
| CsPostTimer (milliseconds : Z)
| CsAsyncSend (connection : nat) (data : list Z).

(** The calls that send, and those that post the event or the timer. *)
Definition is_send (c : coap_server_call) : bool := match c with CsAsyncSend _ _ => true | _ => false end.
Definition is_notify (c : coap_server_call) : bool := match c with CsPostEvent => true | _ => false end.
Definition is_timer (c : coap_server_call) : bool := match c with CsPostTimer _ => true | _ => false end.
Definition server_sends (t : list coap_server_call) : nat := length (List.filter is_send t).

Section CoapServer.
Context {L : Type} `{NabtoCoapServer L} `{NabtoCoapStamp}.

(** [csv_sendBuffer]: the size of the buffer; [csv_sendCtx]: the connection and the data that
    were last given to DTLS. *)
Record nc_coap_server_context : Type := mk_csv {
  csv_pl : bool;
  csv_server : L;
  csv_currentExpiry : Z;
  csv_sendBuffer : option nat;
  csv_sendCtx : option (nat * list Z);
  csv_isSending : bool
}.

(** The context is part of the device, which is zeroed. *)
Definition coap_server_zero : nc_coap_server_context :=
  mk_csv false nabto_coap_server_init 0 None None false.

Definition cs_handler (A : Type) : Type := handler nc_coap_server_context coap_server_call A.
Definition cs_uhandler (A : Type) : Type := uhandler nc_coap_server_context coap_server_call A.

Fixpoint repeat_call (n : nat) (c : coap_server_call) : cs_handler unit :=
  match n with O => hskip | S n => emit c ;;; repeat_call n c end.

(** [np_event_queue_post_maybe_double]. *)
Definition nc_coap_server_notify_event : cs_handler unit := emit CsPostEvent.

(** A call of the library, and the events it announces. *)
Definition server_lib (f : L -> L * nat) : cs_handler unit :=
  let* ctx := hget in
  hmod (fun ctx => ctx {{ csv_server := (f (csv_server ctx)).1 }}) ;;;
  repeat_call (f (csv_server ctx)).2 CsPostEvent.

Definition server_query {A} (f : L -> A * L) : cs_handler A :=
  let* ctx := hget in
  hmod (fun ctx => ctx {{ csv_server := (f (csv_server ctx)).2 }}) ;;;
  hret (f (csv_server ctx)).1.

Definition nc_coap_server_get_stamp (now : Z) : Z := now.

Definition nc_coap_server_set_infinite_stamp (now : Z) : cs_handler unit :=
  hmod (fun ctx => ctx {{ csv_currentExpiry :=
    nabto_coap_server_stamp_now (csv_server ctx) (nc_coap_server_get_stamp now) }}) ;;;
  hmod (fun ctx => ctx {{ csv_currentExpiry ::= fun e => u32 (e + Z.shiftl 1 29) }}).

(** [buf]: the size of the buffer, when there is memory for it; [err]: the answer of the library;
    [ec1], [ec2] those of the event queue. *)
Definition nc_coap_server_init (buf : option nat) (err : nabto_coap_error) (ec1 ec2 : np_error_code) (now : Z) :
    cs_handler np_error_code :=
  hmod (fun ctx => ctx {{ csv_sendBuffer := buf }}) ;;;
  if negb (from_option (fun _ => true) false buf) then hret NABTO_EC_OUT_OF_MEMORY
  else
    hmod (fun ctx => ctx {{ csv_isSending := false }}) ;;;
    match err with
    | NABTO_COAP_ERROR_OK =>
        hmod (fun ctx => ctx {{ csv_server := nabto_coap_server_init }}) ;;;
        hmod (fun ctx => ctx {{ csv_pl := true }}) ;;;
        nc_coap_server_set_infinite_stamp now ;;;
        if is_error ec1 then hret ec1
        else
          emit CsCreateEvent ;;;
          if is_error ec2 then hret ec2 else emit CsCreateTimer ;;; hret NABTO_EC_OK
    | _ =>
        emit CsFreeBuffer ;;;
        hmod (fun ctx => ctx {{ csv_sendBuffer := None }}) ;;;
        hret (nc_coap_error_to_core err)
    end.

Definition nc_coap_server_deinit : cs_handler unit :=
  let* ctx := hget in
  hwhen (csv_pl ctx) (emit CsDestroyServer ;;; emit CsFreeBuffer ;;; emit CsDestroyEvent ;;; emit CsDestroyTimer).

(** [again] is [nc_coap_server_event]. The answer of [async_send_data] is not looked at. *)
Definition nc_coap_server_handle_send (again : cs_uhandler unit) (now : Z) : cs_uhandler unit :=
  let+ ctx := ulift hget in
  if csv_isSending ctx then ulift hskip
  else
    let+ connection := ulift (server_query nabto_coap_server_get_connection_send) in
    match connection with
    | None => again
    | Some connection =>
        let+ sendBufferSize := uof (match csv_sendBuffer ctx with Some n => Def n | None => UB end) in
        let+ packet := ulift (server_query (fun l => nabto_coap_server_handle_send l now sendBufferSize)) in
        match packet with
        | None => again
        | Some data =>
            ulift (hmod (fun ctx => ctx {{ csv_sendCtx := Some (connection, data) }}) ;;;
                   hmod (fun ctx => ctx {{ csv_isSending := true }}) ;;;
                   emit (CsAsyncSend connection data))
        end
    end.

Definition nc_coap_server_handle_wait (now : Z) : cs_handler unit :=
  let* ctx := hget in
  let nextStamp := nabto_coap_server_get_next_timeout (csv_server ctx) in
  if nabto_coap_is_stamp_less nextStamp (csv_currentExpiry ctx) then
    hmod (fun ctx => ctx {{ csv_currentExpiry := nextStamp }}) ;;;
    let now := nabto_coap_server_stamp_now (csv_server ctx) (nc_coap_server_get_stamp now) in
    let diff := nabto_coap_stamp_diff nextStamp now in
    emit (CsPostTimer (if diff <? 0 then 0 else diff))
  else hskip.

(** The recursion of [nc_coap_server_event] and [nc_coap_server_handle_send]: without fuel it does
    not return. *)
Fixpoint nc_coap_server_event (fuel : nat) (now : Z) : cs_uhandler unit :=
  match fuel with
  | O => fun _ => UB
  | S fuel =>
      let+ nextEvent := ulift (server_query nabto_coap_server_next_event) in
      match nextEvent with
      | NABTO_COAP_SERVER_NEXT_EVENT_SEND => nc_coap_server_handle_send (nc_coap_server_event fuel now) now
      | NABTO_COAP_SERVER_NEXT_EVENT_WAIT => ulift (nc_coap_server_handle_wait now)
      | NABTO_COAP_SERVER_NEXT_EVENT_NOTHING => ulift hskip
      end
  end.

Definition nc_coap_server_handle_packet (fuel : nat) (now : Z) (conn : nat) (buffer : list Z) : cs_uhandler unit :=
  let+ _ := ulift (server_lib (fun l => nabto_coap_server_handle_packet l now conn buffer)) in
  nc_coap_server_event fuel now.

Definition nc_coap_server_handle_timeout (fuel : nat) (now : Z) : cs_uhandler unit :=
  let+ _ := ulift (nc_coap_server_set_infinite_stamp now) in
  let+ _ := ulift (server_lib (fun l => nabto_coap_server_handle_timeout l now)) in
  nc_coap_server_event fuel now.

Definition nc_coap_server_send_to_callback (fuel : nat) (now : Z) : cs_uhandler unit :=
  let+ _ := ulift (hmod (fun ctx => ctx {{ csv_isSending := false }})) in
  nc_coap_server_event fuel now.

Definition nc_coap_server_notify_event_callback (fuel : nat) (now : Z) : cs_uhandler unit :=
  nc_coap_server_event fuel now.

Definition nc_coap_server_remove_connection (connection : nat) : cs_handler unit :=
  server_lib (fun l => nabto_coap_server_remove_connection l connection).

Definition nc_coap_server_get_connection (ctx : nc_coap_server_context) (request : nat) : option nat :=
  nabto_coap_server_request_get_connection (csv_server ctx) request.

(** [ids]: the 16 bytes of the ids of the connections. *)
Definition nc_coap_server_context_request_get_connection_id (ids : nat -> list Z) (ctx : nc_coap_server_context)
    (request : nat) : cres (list Z) :=
  match nc_coap_server_get_connection ctx request with
  | Some conn => Def (take 14 (drop 1 (ids conn)))
  | None => UB
  end.

(** ** Steps *)

(** [CsiUse f]: the application uses the library itself ([nc_coap_server_get_server]). *)
Inductive cs_input : Type :=
| CsiPacket (conn : nat) (buffer : list Z)
| CsiTimeout
| CsiNotified
| CsiSent
| CsiRemove (conn : nat)
| CsiUse (f : L -> L * nat).

Definition cs_step (fuel : nat) (now : Z) (i : cs_input) : cs_uhandler unit :=
  match i with
  | CsiPacket conn buffer => nc_coap_server_handle_packet fuel now conn buffer
  | CsiTimeout => nc_coap_server_handle_timeout fuel now
  | CsiNotified => nc_coap_server_notify_event_callback fuel now
  | CsiSent => nc_coap_server_send_to_callback fuel now
  | CsiRemove conn => ulift (nc_coap_server_remove_connection conn)
  | CsiUse f => ulift (server_lib f)
  end.

(** The library has something for this code to do: a packet to send, or a timeout before the
    one the timer is set to. *)
Definition server_due (l : L) (expiry : Z) : bool :=
  match (nabto_coap_server_next_event l).1 with
  | NABTO_COAP_SERVER_NEXT_EVENT_SEND => true
  | NABTO_COAP_SERVER_NEXT_EVENT_WAIT => nabto_coap_is_stamp_less (nabto_coap_server_get_next_timeout l) expiry
  | NABTO_COAP_SERVER_NEXT_EVENT_NOTHING => false
  end.

(** What the queue and DTLS owe: the sends that have not completed, whether the event is
    posted, the stamp the timer is set to, and when "infinite" was last set. *)
Record cs_ghost : Type := mk_csg {
  csg_outstanding : nat;
  csg_posted : bool;
  csg_armed : option Z;
  csg_since : Z
}.

Definition cs_ghost_step (now : Z) (i : cs_input) (s' : nc_coap_server_context) (t : list coap_server_call)
    (g : cs_ghost) : cs_ghost :=
  mk_csg ((csg_outstanding g - match i with CsiSent => 1 | _ => 0 end) + server_sends t)
         ((match i with CsiNotified => false | _ => csg_posted g end) || existsb is_notify t)
         (if existsb is_timer t then Some (csv_currentExpiry s')
          else match i with CsiTimeout => None | _ => csg_armed g end)
         (match i with CsiTimeout => now | _ => csg_since g end).

(** A send completes that is under way; the timer and the event run when they were set; and the
    library announces what other calls gave it to do. *)
Definition cs_allowed (i : cs_input) (s : nc_coap_server_context) (g : cs_ghost) : Prop :=
  let announces (f : L -> L * nat) :=
    (f (csv_server s)).2 = 0%nat -> server_due (f (csv_server s)).1 (csv_currentExpiry s) = true ->
    server_due (csv_server s) (csv_currentExpiry s) = true in
  match i with
  | CsiPacket _ _ => True
  | CsiTimeout => csg_armed g <> None
  | CsiNotified => csg_posted g = true
  | CsiSent => csg_outstanding g <> 0%nat
  | CsiRemove conn => announces (fun l => nabto_coap_server_remove_connection l conn)
  | CsiUse f => announces f
  end.

Inductive cs_reachable (size : nat) : cs_ghost -> nc_coap_server_context -> Prop :=
| cs_init now s t :
    nc_coap_server_init (Some size) NABTO_COAP_ERROR_OK NABTO_EC_OK NABTO_EC_OK now coap_server_zero =
      (NABTO_EC_OK, s, t) ->
    cs_reachable size (mk_csg 0 false None now) s
| cs_does fuel now i g s s' t :
    cs_reachable size g s -> cs_allowed i s g -> cs_step fuel now i s = Def (tt, s', t) ->
    cs_reachable size (cs_ghost_step now i s' t g) s'.
End CoapServer.

Section CoapServerLaws.
Context {L : Type} `{NabtoCoapServerLaws L} `{NabtoCoapStampLaws}.
Abbreviation nc_coap_server_context := (nc_coap_server_context (L := L)).

(** The timer covers what [currentExpiry] says. *)
Definition server_expiry (g : cs_ghost) : Z :=
  default (u32 (csg_since g + Z.shiftl 1 29)) (csg_armed g).

Record cs_inv (size : nat) (g : cs_ghost) (s : nc_coap_server_context) : Prop := {
  ci_buffer : csv_sendBuffer s = Some size;
  ci_sending : csg_outstanding g = if csv_isSending s then 1%nat else 0%nat;
  ci_expiry : csv_currentExpiry s = server_expiry g;
  ci_due : server_due (csv_server s) (csv_currentExpiry s) = true -> csv_isSending s = true \/ csg_posted g = true
}.

(** What the event does: it sends when nothing is being sent, or sets the timer; in the end nothing is due
    that waits for nothing. *)
Definition event_done (s s' : nc_coap_server_context) (t : list coap_server_call) : Prop :=
  csv_sendBuffer s' = csv_sendBuffer s /\
  (server_due (csv_server s') (csv_currentExpiry s') = true -> csv_isSending s' = true) /\
  existsb is_notify t = false /\
  (if existsb is_timer t then True else csv_currentExpiry s' = csv_currentExpiry s) /\
  ((csv_isSending s' = csv_isSending s /\ csv_sendCtx s' = csv_sendCtx s /\ server_sends t = 0%nat) \/
   (csv_isSending s = false /\ csv_isSending s' = true /\ server_sends t = 1%nat)).

Lemma server_query_seq {A B} (f : L -> A * L) (k : A -> cs_uhandler B) (s : nc_coap_server_context) :
  ubind (ulift (server_query f)) k s = k (f (csv_server s)).1 (s {{ csv_server := (f (csv_server s)).2 }}).
Proof.
  unfold ubind, ulift, server_query. rewrite hget_seq, hmod_seq. unfold hret.
  by destruct (k _ _) as [[[??]?] |].
Qed.

Lemma stable_due (l l' : L) e expiry :
  nabto_coap_server_next_event l = (e, l') ->
  server_due l' expiry = match e with
    | NABTO_COAP_SERVER_NEXT_EVENT_SEND => true
    | NABTO_COAP_SERVER_NEXT_EVENT_WAIT => nabto_coap_is_stamp_less (nabto_coap_server_get_next_timeout l') expiry
    | NABTO_COAP_SERVER_NEXT_EVENT_NOTHING => false
    end.
Proof. intros E. unfold server_due. by rewrite (server_next_event_stable _ _ _ E). Qed.

Lemma event_runs fuel now size (s : nc_coap_server_context) :
  csv_sendBuffer s = Some size ->
  exists s' t, nc_coap_server_event (S fuel) now s = Def (tt, s', t) /\ event_done s s' t.
Proof.
  intros Hb. cbn [nc_coap_server_event]. rewrite server_query_seq.
  destruct (nabto_coap_server_next_event (csv_server s)) as [e l'] eqn:E. cbn [fst snd].
  pose proof (stable_due _ _ _ (csv_currentExpiry s) E) as Hdue. destruct e.
  - unfold nc_coap_server_handle_send. rewrite u_hget. destruct s as [pl l x b sc snd]. cbn in *.
    destruct snd.
    + eexists _, _. split; [reflexivity |]. split_and!; try done. by left.
    + destruct (server_send_ready l l' now size E) as (c & d & Hc & Hd).
      rewrite server_query_seq. cbn. unfold constant. rewrite Hc, Hb, u_def, server_query_seq. cbn. unfold constant. rewrite Hd.
      eexists _, _. split; [reflexivity |]. split_and!; try done. by right.
  - unfold nc_coap_server_handle_wait, ulift. rewrite hget_seq. destruct s as [pl l x b sc snd]. cbn in *.
    destruct (nabto_coap_is_stamp_less _ x) eqn:El.
    + eexists _, _. split; [reflexivity |]. split_and!; try done; [| by left].
      unfold constant. cbn. unfold constant. rewrite (stable_due _ _ _ _ E), stamp_less_irrefl. done.
    + eexists _, _. split; [reflexivity |]. split_and!; try done; [| by left]. cbn. unfold constant in *. by rewrite Hdue.
  - eexists _, _. split; [reflexivity |]. destruct s as [pl l x b sc snd]. cbn in *.
    split_and!; try done; [| by left]. cbn. unfold constant in *. by rewrite Hdue.
Qed.

(** An event after a change of the library, from any state. *)
Lemma cs_inv_event size g now i fuel (s s1 : nc_coap_server_context) t0 :
  cs_inv size g s -> cs_allowed i s g -> csv_sendBuffer s1 = Some size ->
  existsb is_timer t0 = false -> server_sends t0 = 0%nat ->
  csv_isSending s1 = (match i with CsiSent => false | _ => csv_isSending s end) ->
  csv_currentExpiry s1 = default (u32 ((match i with CsiTimeout => now | _ => csg_since g end) + Z.shiftl 1 29))
                           (match i with CsiTimeout => None | _ => csg_armed g end) ->
  exists s' t, nc_coap_server_event (S fuel) now s1 = Def (tt, s', t) /\
    cs_inv size (cs_ghost_step now i s' (t0 ++ t) g) s' /\
    (csv_isSending s1 = true -> csv_isSending s' = true /\ csv_sendCtx s' = csv_sendCtx s1 /\ server_sends (t0 ++ t) = 0%nat).
Proof.
  intros [Hb Hs He Hd] Hok Hb1 Ht0 Hs0 Hs1 He1.
  destruct (event_runs fuel now size s1 Hb1) as (s' & t & Hrun & Hb' & Hd' & Hn & Hx & Hcase).
  exists s', t. split; [done |].
  assert (Happ : server_sends (t0 ++ t) = server_sends t).
  { unfold server_sends in *. rewrite List.filter_app, length_app. lia. }
  assert (Htm : existsb is_timer (t0 ++ t) = existsb is_timer t) by (by rewrite existsb_app, Ht0).
  split; [| rewrite Happ; intros Hsend; destruct Hcase as [(-> & -> & ->) | (Hf & _)]; [done | congruence]].
  split; unfold cs_ghost_step; cbn.
  - by rewrite Hb'.
  - rewrite Happ, Hs. destruct Hcase as [(-> & _ & ->) | (Ef & -> & ->)]; rewrite ?Hs1 in *.
    + destruct i; cbn in *; destruct (csv_isSending s); try lia. 
    + destruct i; cbn in *; rewrite ?Ef; try lia. destruct (csv_isSending s); lia.
  - unfold server_expiry. cbn. rewrite Htm. destruct (existsb is_timer t); [done |]. rewrite Hx, He1. done.
  - intros Hdue. left. by apply Hd'.
Qed.

Lemma repeat_run n c (s : nc_coap_server_context) : repeat_call n c s = (tt, s, repeat c n).
Proof. induction n as [| n IH]; [done |]. cbn [repeat_call]. unfold hbind, emit. by rewrite IH. Qed.

Lemma server_lib_run (f : L -> L * nat) (s : nc_coap_server_context) :
  server_lib f s = (tt, s {{ csv_server := (f (csv_server s)).1 }}, repeat CsPostEvent (f (csv_server s)).2).
Proof. unfold server_lib. by rewrite hget_seq, hmod_seq, repeat_run. Qed.

Lemma repeat_notify n : existsb is_timer (repeat CsPostEvent n) = false /\ server_sends (repeat CsPostEvent n) = 0%nat /\
  existsb is_notify (repeat CsPostEvent n) = negb (n =? 0)%nat.
Proof. induction n as [| n (IH1 & IH2 & IH3)]; [done |]. split_and!; try done. Qed.

Lemma ulift_seq {A B} (m : cs_handler A) (k : A -> cs_uhandler B) (s s' : nc_coap_server_context) a t r :
  m s = (a, s', t) -> k a s' = r ->
  ubind (ulift m) k s = match r with UB => UB | Def (b, s2, t2) => Def (b, s2, t ++ t2) end.
Proof. unfold ubind, ulift. intros -> ->. done. Qed.

Lemma cs_use_good size now i (f : L -> L * nat) g (s : nc_coap_server_context) :
  cs_inv size g s -> (i = CsiUse f \/ exists c, i = CsiRemove c /\ f = fun l => nabto_coap_server_remove_connection l c) ->
  cs_allowed i s g ->
  exists s' t, server_lib f s = (tt, s', t) /\ cs_inv size (cs_ghost_step now i s' t g) s' /\
    csv_isSending s' = csv_isSending s /\ csv_sendCtx s' = csv_sendCtx s /\ server_sends t = 0%nat.
Proof.
  intros [Hb Hs He Hd] Hi Hok. eexists _, _. split; [apply server_lib_run |].
  destruct (repeat_notify (f (csv_server s)).2) as (R1 & R2 & R3).
  assert (Hok' : (f (csv_server s)).2 = 0%nat -> server_due (f (csv_server s)).1 (csv_currentExpiry s) = true ->
                 server_due (csv_server s) (csv_currentExpiry s) = true) by (by destruct Hi as [-> | (c & -> & ->)]).
  rewrite R2. destruct s as [pl l x b sc sn]. cbn in *. split; [| done]. split; cbn; rewrite ?R1, ?R2, ?R3.
  - done.
  - rewrite Hs. destruct Hi as [-> | (c & -> & _)]; destruct sn; lia.
  - rewrite He. unfold server_expiry. by destruct Hi as [-> | (c & -> & _)].
  - intros Hdue. destruct (f l).2 as [| n] eqn:En; cbn; [| by rewrite orb_true_r; right].
    destruct (Hd (Hok' eq_refl Hdue)) as [? | ->]; [by left |]. right. by destruct Hi as [-> | (c & -> & _)].
Qed.

Lemma cs_step_good size fuel now i g (s : nc_coap_server_context) :
  cs_inv size g s -> cs_allowed i s g ->
  exists s' t, cs_step (S fuel) now i s = Def (tt, s', t) /\ cs_inv size (cs_ghost_step now i s' t g) s' /\
    (csv_isSending s = true -> i <> CsiSent ->
     csv_isSending s' = true /\ csv_sendCtx s' = csv_sendCtx s /\ server_sends t = 0%nat).
Proof.
  intros Hinv Hok. pose proof Hinv as [Hb Hs He Hd]. destruct i as [conn buffer | | | | conn | f].
  - destruct (repeat_notify (nabto_coap_server_handle_packet (csv_server s) now conn buffer).2) as (R1 & R2 & _).
    destruct (cs_inv_event size g now (CsiPacket conn buffer) fuel s
      (s {{ csv_server := (nabto_coap_server_handle_packet (csv_server s) now conn buffer).1 }})
      (repeat CsPostEvent (nabto_coap_server_handle_packet (csv_server s) now conn buffer).2)) as (s' & t & Hrun & Hi' & Hk);
      [exact Hinv | exact Hok | by destruct s | exact R1 | exact R2 | by destruct s | by destruct s |].
    eexists s', _. split; [| split; [exact Hi' | intros E _; destruct s; exact (Hk E)]]. unfold cs_step, nc_coap_server_handle_packet.
    by rewrite (ulift_seq _ _ _ _ _ _ _ (server_lib_run _ s) Hrun).
  - destruct (repeat_notify (nabto_coap_server_handle_timeout (csv_server s) now).2) as (R1 & R2 & _).
    destruct (cs_inv_event size g now CsiTimeout fuel s
      (s {{ csv_currentExpiry := u32 (now + Z.shiftl 1 29);
            csv_server := (nabto_coap_server_handle_timeout (csv_server s) now).1 }})
      (repeat CsPostEvent (nabto_coap_server_handle_timeout (csv_server s) now).2)) as (s' & t & Hrun & Hi' & Hk);
      [exact Hinv | exact Hok | by destruct s | exact R1 | exact R2 | by destruct s | by destruct s |].
    eexists s', _. split; [| split; [exact Hi' | intros E _; destruct s; exact (Hk E)]].
    pose (s1 := s {{ csv_currentExpiry := u32 (now + Z.shiftl 1 29) }}).
    assert (E1 : nc_coap_server_set_infinite_stamp now s = (tt, s1, [])).
    { unfold nc_coap_server_set_infinite_stamp. rewrite hmod_seq. unfold hmod, s1. destruct s. cbn.
      unfold constant, nc_coap_server_get_stamp. by rewrite server_stamp_now_spec. }
    assert (E2 : csv_server s1 = csv_server s) by (by destruct s).
    assert (E3 : s1 {{ csv_server := (nabto_coap_server_handle_timeout (csv_server s1) now).1 }} =
                 s {{ csv_currentExpiry := u32 (now + Z.shiftl 1 29);
                      csv_server := (nabto_coap_server_handle_timeout (csv_server s) now).1 }}) by (by destruct s).
    rewrite <- E3 in Hrun. rewrite <- E2. unfold cs_step, nc_coap_server_handle_timeout.
    pose proof (ulift_seq _ (fun _ => nc_coap_server_event (S fuel) now) _ _ _ _ _
      (server_lib_run (fun l => nabto_coap_server_handle_timeout l now) s1) Hrun) as E4.
    by rewrite (ulift_seq _ _ _ _ _ _ _ E1 E4).
  - edestruct (cs_inv_event size g now CsiNotified fuel s s []) as (s' & t & Hrun & Hi' & Hk);
      [exact Hinv | exact Hok | exact Hb | done | done | done | | exists s', t; split_and!; try done; by intros E _; apply Hk].
    by rewrite He.
  - edestruct (cs_inv_event size g now CsiSent fuel s (s {{ csv_isSending := false }}) []) as (s' & t & Hrun & Hi' & Hk);
      [exact Hinv | exact Hok | by destruct s | done | done | by destruct s | | exists s', t].
    { destruct s; exact He. }
    split; [| by split]. unfold cs_step, nc_coap_server_send_to_callback. by rewrite u_hmod.
  - edestruct (cs_use_good size now (CsiRemove conn)) as (s' & t & Hrun & Hi' & Hk); [exact Hinv | by right; exists conn | exact Hok |].
    destruct Hk as (Hk1 & Hk2 & Hk3). exists s', t. split; [| by rewrite Hk1, Hk2]. cbn. unfold ulift, nc_coap_server_remove_connection. by rewrite Hrun.
  - edestruct (cs_use_good size now (CsiUse f)) as (s' & t & Hrun & Hi' & Hk); [exact Hinv | by left | exact Hok |].
    destruct Hk as (Hk1 & Hk2 & Hk3). exists s', t. split; [| by rewrite Hk1, Hk2]. cbn. unfold ulift. by rewrite Hrun.
Qed.

Lemma cs_reachable_inv size g (s : nc_coap_server_context) : cs_reachable size g s -> cs_inv size g s.
Proof.
  induction 1 as [now s t Hrun | fuel now i g s s' t _ IH Hok Hrun].
  - unfold nc_coap_server_init, coap_server_zero, nc_coap_server_set_infinite_stamp in Hrun.
    cbn in Hrun. injection Hrun as <- _. unfold constant. split; cbn; try done.
    + by rewrite server_stamp_now_spec.
    + unfold server_due. by rewrite server_init_idle.
  - destruct fuel as [| fuel].
    { assert (Hub : forall i', cs_step 0 now i' s = Def (tt, s', t) ->
                     match i' with CsiRemove _ | CsiUse _ => False | _ => True end -> False).
      { intros [] Hu Hi; try done; cbn [cs_step] in Hu; unfold nc_coap_server_handle_packet, nc_coap_server_handle_timeout,
          nc_coap_server_send_to_callback in Hu; repeat (apply ubind_inv in Hu as (?&?&?&?&?&Hu&?)); done. }
      destruct (cs_step_good size 0 now i g s IH Hok) as (s1 & t1 & Hrun1 & Hi & _).
      destruct i; try (by destruct (Hub _ Hrun I)); cbn [cs_step] in Hrun, Hrun1; congruence. }
    destruct (cs_step_good size fuel now i g s IH Hok) as (s1 & t1 & Hrun1 & Hi & _). congruence.
Qed.

End CoapServerLaws.

(** ** What one would not expect *)

Section CoapServerStuck.
Context {L : Type} `{NabtoCoapServer L} `{NabtoCoapStamp}.
Abbreviation nc_coap_server_context := (nc_coap_server_context (L := L)).

Lemma sending_event fuel now (s s' : nc_coap_server_context) t :
  csv_isSending s = true -> nc_coap_server_event fuel now s = Def (tt, s', t) ->
  csv_isSending s' = true /\ server_sends t = 0%nat.
Proof.
  destruct fuel as [| fuel]; [done |]. intros Hs. cbn [nc_coap_server_event]. rewrite server_query_seq.
  destruct (nabto_coap_server_next_event (csv_server s)) as [[] l']; cbn [fst snd];
    destruct s as [pl l x b sc sn]; cbn in Hs; subst.
  - intros E. by injection E as <- <-.
  - unfold nc_coap_server_handle_wait, ulift. rewrite hget_seq. cbn.
    destruct (nabto_coap_is_stamp_less _ x); intros E; by injection E as <- <-.
  - intros E. by injection E as <- <-.
Qed.

Lemma sending_lib f (s : nc_coap_server_context) :
  csv_isSending (exec (server_lib f) s) = csv_isSending s /\ server_sends (trace (server_lib f) s) = 0%nat.
Proof.
  unfold exec, trace. rewrite server_lib_run. split; [by destruct s |]. apply repeat_notify.
Qed.

Lemma sending_step fuel now i (s s' : nc_coap_server_context) t :
  csv_isSending s = true -> i <> CsiSent -> cs_step fuel now i s = Def (tt, s', t) ->
  csv_isSending s' = true /\ server_sends t = 0%nat.
Proof.
  assert (Hlib : forall f s1 s2 t', csv_isSending s1 = true ->
            ubind (ulift (server_lib f)) (fun _ => nc_coap_server_event fuel now) s1 = Def (tt, s2, t') ->
            csv_isSending s2 = true /\ server_sends t' = 0%nat).
  { intros f s1 s2 t' Hs ([] & s3 & t1 & t2 & [-> ->]%ulift_inv & E & ->)%ubind_inv.
    destruct (sending_lib f s1) as [E1 E2]. destruct (sending_event _ _ _ _ _ (eq_trans E1 Hs) E) as [? E3].
    split; [done |]. unfold server_sends in *. rewrite List.filter_app, length_app. lia. }
  intros Hs Hi. destruct i as [conn buffer | | | | conn | f]; cbn [cs_step]; try done.
  - by apply Hlib.
  - unfold nc_coap_server_handle_timeout, nc_coap_server_set_infinite_stamp. intros E.
    apply ubind_inv in E as ([] & s1 & t1 & t2 & [-> ->]%ulift_inv & E & ->). apply Hlib in E; [by destruct s | by destruct s].
  - by apply sending_event.
  - intros [-> ->]%ulift_inv. unfold nc_coap_server_remove_connection.
    destruct (sending_lib (fun l => nabto_coap_server_remove_connection l conn) s) as [-> ?]. done.
  - intros [-> ->]%ulift_inv. destruct (sending_lib f s) as [-> ?]. done.
Qed.

Fixpoint cs_run (fuel : nat) (inputs : list (Z * cs_input (L := L))) : cs_uhandler (L := L) unit :=
  match inputs with
  | [] => ulift hskip
  | (now, i) :: rest => let+ _ := cs_step fuel now i in cs_run fuel rest
  end.

(** DTLS refuses to send on a connection that is closing, and then it does not call back. That is not looked
    at: without the callback no packet is sent again, on any connection, whatever happens. *)
Lemma send_refused_blocks fuel inputs : forall (s s' : nc_coap_server_context) t,
  csv_isSending s = true -> Forall (fun '(_, i) => i <> CsiSent) inputs ->
  cs_run fuel inputs s = Def (tt, s', t) -> server_sends t = 0%nat.
Proof.
  induction inputs as [| [now i] inputs IH]; intros s s' t Hs Hf.
  { cbn. intros E. by injection E as _ <-. }
  inversion_clear Hf. intros ([] & s1 & t1 & t2 & E1 & E2 & ->)%ubind_inv.
  destruct (sending_step _ _ _ _ _ _ Hs ltac:(eassumption) E1) as [Hs1 Ht1].
  pose proof (IH _ _ _ Hs1 ltac:(eassumption) E2). unfold server_sends in *. rewrite List.filter_app, length_app. lia.
Qed.

(** When the library announces a packet and then has none, and stays as it is, the handler calls itself
    without end. *)
Lemma send_without_connection_loops now (s : nc_coap_server_context) :
  csv_isSending s = false ->
  nabto_coap_server_next_event (csv_server s) = (NABTO_COAP_SERVER_NEXT_EVENT_SEND, csv_server s) ->
  nabto_coap_server_get_connection_send (csv_server s) = (None, csv_server s) ->
  forall fuel, nc_coap_server_event fuel now s = UB.
Proof.
  intros Hs He Hc fuel. induction fuel as [| fuel IH]; [done |]. cbn [nc_coap_server_event].
  assert (Hsame : s {{ csv_server := csv_server s }} = s) by (by destruct s).
  rewrite server_query_seq, He. cbn [fst snd]. rewrite Hsame.
  unfold nc_coap_server_handle_send. rewrite u_hget, Hs, server_query_seq, Hc. cbn [fst snd]. by rewrite Hsame.
Qed.
End CoapServerStuck.

(** ** Witnesses *)

(** Stamps compared as signed differences. *)
Definition example_stamps : NabtoCoapStamp := {|
  nabto_coap_is_stamp_less a b := to_int32 (a - b) <? 0;
  nabto_coap_stamp_diff a b := to_int32 (a - b)
|}.
#[local] Existing Instance example_stamps.

#[local] Instance example_stamps_laws : NabtoCoapStampLaws.
Proof. split. intros s. cbn. by rewrite Z.sub_diag. Qed.

(** A server that echoes packets and waits two seconds for an answer. *)
Definition echo_server : Type := list (nat * list Z) * option Z.

#[local] Instance echo_library : NabtoCoapServer echo_server := {|
  nabto_coap_server_init := ([], None);
  nabto_coap_server_handle_packet l now c d := ((l.1 ++ [(c, d)], Some (u32 (now + 2000))), 0%nat);
  nabto_coap_server_next_event l :=
    (match l.1, l.2 with
     | _ :: _, _ => NABTO_COAP_SERVER_NEXT_EVENT_SEND
     | [], Some _ => NABTO_COAP_SERVER_NEXT_EVENT_WAIT
     | [], None => NABTO_COAP_SERVER_NEXT_EVENT_NOTHING
     end, l);
  nabto_coap_server_get_connection_send l := (fst <$> head l.1, l);
  nabto_coap_server_handle_send l _ n := (take n <$> (snd <$> head l.1), (tail l.1, l.2));
  nabto_coap_server_get_next_timeout l := default 0 l.2;
  nabto_coap_server_stamp_now _ now := now;
  nabto_coap_server_handle_timeout l _ := ((l.1, None), 0%nat);
  nabto_coap_server_remove_connection l c := ((filter (fun p => p.1 <> c) l.1, l.2), 0%nat);
  nabto_coap_server_request_get_connection _ _ := None
|}.

#[local] Instance echo_library_laws : NabtoCoapServerLaws echo_server.
Proof.
  split; cbn; try done.
  - by intros l e l' [= <- <-].
  - intros [[| [c d] q] [w |]] l' now n [= <-]; by eexists _, _.
Qed.


(** The timer is not set when the library's next timeout comes more than [2^29] ms after the last timeout:
    "infinite" is then in the past. Here the server was started at 0, a packet comes after a week
    and is answered; the answer will not be sent again. *)
Example infinite_passes :
  let week := 7 * 24 * 3600 * 1000 in
  let s0 := exec (nc_coap_server_init (Some 100%nat) NABTO_COAP_ERROR_OK NABTO_EC_OK NABTO_EC_OK 0)
              (coap_server_zero (L := echo_server)) in
  cs_run 1 [(week, CsiPacket 3 [1]); (week, CsiSent)] s0 =
    Def (tt, mk_csv true ([], Some (week + 2000)) (2 ^ 29) (Some 100%nat) (Some (3%nat, [1])) false,
         [CsAsyncSend 3 [1]]).
Proof. vm_compute. reflexivity. Qed.
