(* ===== verification/CoapClient.v ===== *)
(** * The CoAP client over the connection to the basestation (nc_coap_client.c, nc_coap_rest_error.c)

    The same work as in CoapServer.v for the client of the CoAP library. Here the library also
    announces callbacks: the answers of requests. *)

From S2P Require Import Prelude Platform Attacher Cbor CoapServer.

#[local] Open Scope Z_scope.
#[local] Open Scope list_scope.
#[local] Open Scope handler_scope.

(** ** Interface of the library *)

Inductive coap_client_next_event : Type :=
| NABTO_COAP_CLIENT_NEXT_EVENT_CALLBACK
| NABTO_COAP_CLIENT_NEXT_EVENT_SEND
| NABTO_COAP_CLIENT_NEXT_EVENT_WAIT
| NABTO_COAP_CLIENT_NEXT_EVENT_NOTHING.

(** [nabto_coap_client_create_packet l now n]: the packet made in a buffer of [n] bytes and its
    connection, [None] when the result is NULL or lies before the buffer. *)
Class NabtoCoapClient (L : Type) : Type := {
  nabto_coap_client_init : L;
  nabto_coap_client_handle_packet : L -> Z -> list Z -> nat -> L * nat;
  nabto_coap_client_get_next_event : L -> Z -> coap_client_next_event * L;
  nabto_coap_client_create_packet : L -> Z -> nat -> option (list Z * option nat) * L;
  nabto_coap_client_get_next_timeout : L -> Z -> Z;
  nabto_coap_client_handle_timeout : L -> Z -> L * nat;
  nabto_coap_client_handle_callback : L -> L * nat
}.

(** What the code relies on, as for the server. *)
Class NabtoCoapClientLaws (L : Type) `{NabtoCoapClient L} : Prop := {
  client_next_event_stable : forall l now e l',
    nabto_coap_client_get_next_event l now = (e, l') -> nabto_coap_client_get_next_event l' now = (e, l');
  client_init_idle : forall now,
    (nabto_coap_client_get_next_event nabto_coap_client_init now).1 = NABTO_COAP_CLIENT_NEXT_EVENT_NOTHING;
  client_send_ready : forall l l' now n,
    nabto_coap_client_get_next_event l now = (NABTO_COAP_CLIENT_NEXT_EVENT_SEND, l') ->
    exists d c, (nabto_coap_client_create_packet l' now n).1 = Some (d, Some c)
}.

(** ** nc_coap_client.c *)

Inductive coap_client_call : Type :=
| CcFreeBuffer
| CcCreateEvent
| CcCreateTimer
| CcDestroyClient
| CcDestroyEvent
| CcDestroyTimer
| CcPostEvent                                   (* post_maybe_double *)
| CcPostTimer (milliseconds : Z)
| CcAsyncSend (dtls : nat) (data : list Z).

Definition is_client_send (c : coap_client_call) : bool := match c with CcAsyncSend _ _ => true | _ => false end.
Definition is_client_notify (c : coap_client_call) : bool := match c with CcPostEvent => true | _ => false end.
Definition is_client_timer (c : coap_client_call) : bool := match c with CcPostTimer _ => true | _ => false end.
Definition client_sends (t : list coap_client_call) : nat := length (List.filter is_client_send t).

Section CoapClient.
Context {L : Type} `{NabtoCoapClient L} `{NabtoCoapStamp}.

Record nc_coap_client_context : Type := mk_ccv {
  ccv_pl : bool;
  ccv_client : L;
  ccv_currentExpiry : Z;
  ccv_sendBuffer : option nat;
  ccv_sendCtx : option (nat * list Z);
  ccv_isSending : bool
}.

Definition coap_client_zero : nc_coap_client_context :=
  mk_ccv false nabto_coap_client_init 0 None None false.

Definition cc_handler (A : Type) : Type := handler nc_coap_client_context coap_client_call A.
Definition cc_uhandler (A : Type) : Type := uhandler nc_coap_client_context coap_client_call A.

(** [np_event_queue_post_maybe_double]. *)
Definition nc_coap_client_notify_event : cc_handler unit := emit CcPostEvent.

Fixpoint notify_times (n : nat) : cc_handler unit :=
  match n with O => hskip | S n => nc_coap_client_notify_event ;;; notify_times n end.

(** A call of the library, and the events it announces. *)
Definition client_lib (f : L -> L * nat) : cc_handler unit :=
  let* ctx := hget in
  hmod (fun ctx => ctx {{ ccv_client := (f (ccv_client ctx)).1 }}) ;;;
  notify_times (f (ccv_client ctx)).2.

Definition client_query {A} (f : L -> A * L) : cc_handler A :=
  let* ctx := hget in
  hmod (fun ctx => ctx {{ ccv_client := (f (ccv_client ctx)).2 }}) ;;;
  hret (f (ccv_client ctx)).1.

Definition nc_coap_client_set_infinite_stamp (now : Z) : cc_handler unit :=
  hmod (fun ctx => ctx {{ ccv_currentExpiry := now }}) ;;;
  hmod (fun ctx => ctx {{ ccv_currentExpiry ::= fun e => u32 (e + Z.shiftl 1 29) }}).

(** When the library cannot be initialized the buffer is freed, and the pointer to it stays. *)
Definition nc_coap_client_init (buf : option nat) (ec1 ec2 : np_error_code) (err : nabto_coap_error) (now : Z) :
    cc_handler np_error_code :=
  hmod (fun ctx => ctx {{ ccv_sendBuffer := buf }}) ;;;
  if negb (from_option (fun _ => true) false buf) then hret NABTO_EC_OUT_OF_MEMORY
  else
    hmod (fun ctx => ctx {{ ccv_pl := true }}) ;;;
    hmod (fun ctx => ctx {{ ccv_isSending := false }}) ;;;
    if is_error ec1 then hret ec1
    else
      emit CcCreateEvent ;;;
      if is_error ec2 then hret ec2
      else
        emit CcCreateTimer ;;;
        match err with
        | NABTO_COAP_ERROR_OK =>
            hmod (fun ctx => ctx {{ ccv_client := nabto_coap_client_init }}) ;;;
            nc_coap_client_set_infinite_stamp now ;;;
            hret NABTO_EC_OK
        | _ => emit CcFreeBuffer ;;; hret (nc_coap_error_to_core err)
        end.

Definition nc_coap_client_deinit : cc_handler unit :=
  let* ctx := hget in
  hwhen (ccv_pl ctx) (emit CcDestroyEvent ;;; emit CcDestroyTimer ;;; emit CcDestroyClient ;;; emit CcFreeBuffer).

(** The answer of [async_send_data] is not looked at. *)
Definition nc_coap_client_handle_send (now : Z) : cc_uhandler unit :=
  let+ ctx := ulift hget in
  if ccv_isSending ctx then ulift hskip
  else
    let+ size := uof (match ccv_sendBuffer ctx with Some n => Def n | None => UB end) in
    let+ packet := ulift (client_query (fun l => nabto_coap_client_create_packet l now size)) in
    match packet with
    | Some (data, Some connection) =>
        ulift (hmod (fun ctx => ctx {{ ccv_isSending := true }}) ;;;
               hmod (fun ctx => ctx {{ ccv_sendCtx := Some (connection, data) }}) ;;;
               emit (CcAsyncSend connection data))
    | _ => ulift hskip
    end.

Definition nc_coap_client_handle_wait (now : Z) : cc_handler unit :=
  let* ctx := hget in
  let nextStamp := nabto_coap_client_get_next_timeout (ccv_client ctx) now in
  if nabto_coap_is_stamp_less nextStamp (ccv_currentExpiry ctx) then
    hmod (fun ctx => ctx {{ ccv_currentExpiry := nextStamp }}) ;;;
    let diff := nabto_coap_stamp_diff nextStamp now in
    emit (CcPostTimer (if diff <? 0 then 0 else diff))
  else hskip.

Definition nc_coap_client_handle_callback : cc_handler unit :=
  nc_coap_client_notify_event ;;; client_lib nabto_coap_client_handle_callback.

Definition nc_coap_client_event (now : Z) : cc_uhandler unit :=
  let+ nextEvent := ulift (client_query (fun l => nabto_coap_client_get_next_event l now)) in
  match nextEvent with
  | NABTO_COAP_CLIENT_NEXT_EVENT_CALLBACK => ulift nc_coap_client_handle_callback
  | NABTO_COAP_CLIENT_NEXT_EVENT_SEND => nc_coap_client_handle_send now
  | NABTO_COAP_CLIENT_NEXT_EVENT_WAIT => ulift (nc_coap_client_handle_wait now)
  | NABTO_COAP_CLIENT_NEXT_EVENT_NOTHING => ulift hskip
  end.

(** The status of the library is only logged. *)
Definition nc_coap_client_handle_packet (now : Z) (buffer : list Z) (dtls : nat) : cc_uhandler unit :=
  let+ _ := ulift (client_lib (fun l => nabto_coap_client_handle_packet l now buffer dtls)) in
  nc_coap_client_event now.

Definition nc_coap_client_handle_timeout (now : Z) : cc_uhandler unit :=
  let+ _ := ulift (nc_coap_client_set_infinite_stamp now) in
  let+ _ := ulift (client_lib (fun l => nabto_coap_client_handle_timeout l now)) in
  nc_coap_client_event now.

Definition nc_coap_client_send_to_callback (now : Z) : cc_uhandler unit :=
  let+ _ := ulift (hmod (fun ctx => ctx {{ ccv_isSending := false }})) in
  nc_coap_client_event now.

Definition nc_coap_client_notify_event_callback (now : Z) : cc_uhandler unit := nc_coap_client_event now.

(** ** Steps *)

(** [CciUse f]: the application uses the library itself ([nc_coap_client_get_client]). *)
Inductive cc_input : Type :=
| CciPacket (buffer : list Z) (dtls : nat)
| CciTimeout
| CciNotified
| CciSent
| CciUse (f : L -> L * nat).

Definition cc_step (now : Z) (i : cc_input) : cc_uhandler unit :=
  match i with
  | CciPacket buffer dtls => nc_coap_client_handle_packet now buffer dtls
  | CciTimeout => nc_coap_client_handle_timeout now
  | CciNotified => nc_coap_client_notify_event_callback now
  | CciSent => nc_coap_client_send_to_callback now
  | CciUse f => ulift (client_lib f)
  end.

Definition is_use (i : cc_input) : bool := match i with CciUse _ => true | _ => false end.

(** The library has something to do, asked at [now]. *)
Definition client_due (l : L) (now expiry : Z) : bool :=
  match (nabto_coap_client_get_next_event l now).1 with
  | NABTO_COAP_CLIENT_NEXT_EVENT_CALLBACK | NABTO_COAP_CLIENT_NEXT_EVENT_SEND => true
  | NABTO_COAP_CLIENT_NEXT_EVENT_WAIT =>
      nabto_coap_is_stamp_less (nabto_coap_client_get_next_timeout l now) expiry
  | NABTO_COAP_CLIENT_NEXT_EVENT_NOTHING => false
  end.

(** As in CoapServer.v, with the time at which the library was last asked. *)
Record cc_ghost : Type := mk_ccg {
  ccg_outstanding : nat;
  ccg_posted : bool;
  ccg_armed : option Z;
  ccg_since : Z;
  ccg_asked : Z
}.

Definition cc_ghost_step (now : Z) (i : cc_input) (s' : nc_coap_client_context) (t : list coap_client_call)
    (g : cc_ghost) : cc_ghost :=
  mk_ccg ((ccg_outstanding g - match i with CciSent => 1 | _ => 0 end) + client_sends t)
         ((match i with CciNotified => false | _ => ccg_posted g end) || existsb is_client_notify t)
         (if existsb is_client_timer t then Some (ccv_currentExpiry s')
          else match i with CciTimeout => None | _ => ccg_armed g end)
         (match i with CciTimeout => now | _ => ccg_since g end)
         (if is_use i then ccg_asked g else now).

Definition cc_allowed (i : cc_input) (s : nc_coap_client_context) (g : cc_ghost) : Prop :=
  match i with
  | CciPacket _ _ => True
  | CciTimeout => ccg_armed g <> None
  | CciNotified => ccg_posted g = true
  | CciSent => ccg_outstanding g <> 0%nat
  | CciUse f =>
      (f (ccv_client s)).2 = 0%nat ->
      client_due (f (ccv_client s)).1 (ccg_asked g) (ccv_currentExpiry s) = true ->
      client_due (ccv_client s) (ccg_asked g) (ccv_currentExpiry s) = true
  end.

Inductive cc_reachable (size : nat) : cc_ghost -> nc_coap_client_context -> Prop :=
| cc_init now s t :
    nc_coap_client_init (Some size) NABTO_EC_OK NABTO_EC_OK NABTO_COAP_ERROR_OK now coap_client_zero =
      (NABTO_EC_OK, s, t) ->
    cc_reachable size (mk_ccg 0 false None now now) s
| cc_does now i g s s' t :
    cc_reachable size g s -> cc_allowed i s g -> cc_step now i s = Def (tt, s', t) ->
    cc_reachable size (cc_ghost_step now i s' t g) s'.
End CoapClient.

(** ** nc_coap_rest_error.c *)

Inductive nc_coap_rest_error : Type :=
| NC_COAP_REST_ERROR_UNKNOWN
| NC_COAP_REST_ERROR_UNKNOWN_DEVICE_FINGERPRINT
| NC_COAP_REST_ERROR_WRONG_PRODUCT_ID
| NC_COAP_REST_ERROR_WRONG_DEVICE_ID.

Definition INVALID_JWT_TOKEN : Z := 1.
Definition DEVICE_NOT_ATTACHED : Z := 2.
Definition UNKNOWN_PRODUCT_ID : Z := 3.
Definition UNKNOWN_DEVICE_ID : Z := 4.
Definition UNKNOWN_DEVICE_FINGERPRINT : Z := 5.
Definition REJECTED_SERVER_CONNECT_TOKEN : Z := 6.
Definition WRONG_PRODUCT_ID : Z := 7.
Definition WRONG_DEVICE_ID : Z := 8.
Definition NABTO_COAP_CONTENT_FORMAT_APPLICATION_CBOR : Z := 60.

(** [cbor_value_is_integer], and [cbor_value_get_int], which keeps 32 bits. *)
Class CborInt (V : Type) : Type := {
  cv_is_integer : V -> bool;
  cv_get_int : V -> Z
}.

Section RestError.
Context {V : Type} `{CborDec V} `{CborInt V}.

(** A response: its content format and its payload, if it has them. The message is only logged. *)
Definition nc_coap_rest_error_handle_response (contentFormat : option Z) (payload : option (list Z)) :
    nc_coap_rest_error :=
  match contentFormat, payload with
  | Some contentFormat, Some payload =>
      if contentFormat =? NABTO_COAP_CONTENT_FORMAT_APPLICATION_CBOR then
        let root := cv_parse payload in
        if negb (cv_is_map root) then NC_COAP_REST_ERROR_UNKNOWN
        else
          let error := cv_find root "Error" in
          if negb (cv_is_map error) then NC_COAP_REST_ERROR_UNKNOWN
          else
            let cborCode := cv_find error "Code" in
            let code := if cv_is_integer cborCode then cv_get_int cborCode else 0 in
            if code =? UNKNOWN_DEVICE_FINGERPRINT then NC_COAP_REST_ERROR_UNKNOWN_DEVICE_FINGERPRINT
            else if code =? WRONG_PRODUCT_ID then NC_COAP_REST_ERROR_WRONG_PRODUCT_ID
            else if code =? WRONG_DEVICE_ID then NC_COAP_REST_ERROR_WRONG_DEVICE_ID
            else NC_COAP_REST_ERROR_UNKNOWN
      else NC_COAP_REST_ERROR_UNKNOWN
  | _, _ => NC_COAP_REST_ERROR_UNKNOWN
  end.

(** The encoder calls of the basestation's error, and what is read from a payload. *)
Definition error_code_of (payload : list Z) : option Z :=
  let code := cv_find (cv_find (cv_parse payload) "Error") "Code" in
  if cv_is_map (cv_parse payload) && cv_is_map (cv_find (cv_parse payload) "Error") && cv_is_integer code
  then Some (cv_get_int code) else None.

Lemma rest_error_code format payload e :
  e <> NC_COAP_REST_ERROR_UNKNOWN ->
  nc_coap_rest_error_handle_response format payload = e <->
  exists p code, format = Some NABTO_COAP_CONTENT_FORMAT_APPLICATION_CBOR /\ payload = Some p /\
    error_code_of p = Some code /\
    (code, e) ∈ [(UNKNOWN_DEVICE_FINGERPRINT, NC_COAP_REST_ERROR_UNKNOWN_DEVICE_FINGERPRINT);
                 (WRONG_PRODUCT_ID, NC_COAP_REST_ERROR_WRONG_PRODUCT_ID);
                 (WRONG_DEVICE_ID, NC_COAP_REST_ERROR_WRONG_DEVICE_ID)].
Proof.
  intros He. unfold nc_coap_rest_error_handle_response, error_code_of. split.
  - destruct format as [cf |]; [| congruence]. destruct payload as [p |]; [| congruence].
    destruct (Z.eqb_spec cf NABTO_COAP_CONTENT_FORMAT_APPLICATION_CBOR) as [-> |]; [| congruence].
    destruct (cv_is_map (cv_parse p)) eqn:E1; [| cbn; congruence].
    destruct (cv_is_map (cv_find (cv_parse p) "Error")) eqn:E2; [| cbn; congruence]. cbn.
    destruct (cv_is_integer _) eqn:E3; [| cbn; congruence]. intros Hr.
    eexists p, _. split; [done |]. split; [done |]. split; [by rewrite E1, E2, E3 |]. rewrite !elem_of_cons. revert Hr.
    generalize (cv_get_int (cv_find (cv_find (cv_parse p) "Error") "Code")). intros code.
    repeat match goal with |- context [Z.eqb ?a ?b] => destruct (Z.eqb_spec a b) as [-> |] end; naive_solver.
  - intros (p & code & -> & -> & Hc & Hin). rewrite Z.eqb_refl.
    revert Hc. destruct (cv_is_map (cv_parse p)); [| done]. destruct (cv_is_map (cv_find (cv_parse p) "Error")); [| done].
    cbn. destruct (cv_is_integer _); [| done]. intros [= ->].
    by repeat (apply elem_of_cons in Hin as [[= -> ->] | Hin]; [done |]); apply elem_of_nil in Hin.
Qed.
End RestError.

(** ** The invariant of the client *)

Section CoapClientLaws.
Context {L : Type} `{NabtoCoapClientLaws L} `{NabtoCoapStampLaws}.
Abbreviation nc_coap_client_context := (nc_coap_client_context (L := L)).

Record cc_inv (size : nat) (g : cc_ghost) (s : nc_coap_client_context) : Prop := {
  ki_buffer : ccv_sendBuffer s = Some size;
  ki_sending : ccg_outstanding g = if ccv_isSending s then 1%nat else 0%nat;
  ki_expiry : ccv_currentExpiry s = default (u32 (ccg_since g + Z.shiftl 1 29)) (ccg_armed g);
  ki_due : client_due (ccv_client s) (ccg_asked g) (ccv_currentExpiry s) = true ->
           ccv_isSending s = true \/ ccg_posted g = true
}.

Definition client_event_done (now : Z) (s s' : nc_coap_client_context) (t : list coap_client_call) : Prop :=
  ccv_sendBuffer s' = ccv_sendBuffer s /\
  (client_due (ccv_client s') now (ccv_currentExpiry s') = true ->
   ccv_isSending s' = true \/ existsb is_client_notify t = true) /\
  (if existsb is_client_timer t then True else ccv_currentExpiry s' = ccv_currentExpiry s) /\
  ((ccv_isSending s' = ccv_isSending s /\ ccv_sendCtx s' = ccv_sendCtx s /\ client_sends t = 0%nat) \/
   (ccv_isSending s = false /\ ccv_isSending s' = true /\ client_sends t = 1%nat)).

Lemma client_query_seq {A B} (f : L -> A * L) (k : A -> cc_uhandler B) (s : nc_coap_client_context) :
  ubind (ulift (client_query f)) k s = k (f (ccv_client s)).1 (s {{ ccv_client := (f (ccv_client s)).2 }}).
Proof.
  unfold ubind, ulift, client_query. rewrite hget_seq, hmod_seq. unfold hret.
  by destruct (k _ _) as [[[??]?] |].
Qed.

Lemma notify_run n (s : nc_coap_client_context) : notify_times n s = (tt, s, repeat CcPostEvent n).
Proof. induction n as [| n IH]; [done |]. cbn [notify_times]. unfold hbind, nc_coap_client_notify_event, emit. by rewrite IH. Qed.

Lemma client_lib_run (f : L -> L * nat) (s : nc_coap_client_context) :
  client_lib f s = (tt, s {{ ccv_client := (f (ccv_client s)).1 }}, repeat CcPostEvent (f (ccv_client s)).2).
Proof. unfold client_lib. by rewrite hget_seq, hmod_seq, notify_run. Qed.

Lemma repeat_post n : existsb is_client_timer (repeat CcPostEvent n) = false /\
  client_sends (repeat CcPostEvent n) = 0%nat /\
  existsb is_client_notify (repeat CcPostEvent n) = negb (n =? 0)%nat.
Proof. induction n as [| n (IH1 & IH2 & IH3)]; [done |]. split_and!; try done. Qed.

Lemma client_event_runs now size (s : nc_coap_client_context) :
  ccv_sendBuffer s = Some size ->
  exists s' t, nc_coap_client_event now s = Def (tt, s', t) /\ client_event_done now s s' t.
Proof.
  intros Hb. unfold nc_coap_client_event. rewrite client_query_seq.
  destruct (nabto_coap_client_get_next_event (ccv_client s) now) as [e l'] eqn:E. cbn [fst snd].
  pose proof (client_next_event_stable _ _ _ _ E) as Est.
  destruct s as [pl l x b sc sn]. cbn in Hb, E. subst b. destruct e.
  - unfold nc_coap_client_handle_callback, nc_coap_client_notify_event, ulift, hbind, emit. rewrite client_lib_run.
    destruct (repeat_post (nabto_coap_client_handle_callback l').2) as (R1 & R2 & R3).
    eexists _, _. split; [reflexivity |]. cbn. unfold constant. split_and!; cbn; try done; [by right | by rewrite R1 | left].
    split_and!; try done.
  - unfold nc_coap_client_handle_send. rewrite u_hget. cbn. destruct sn.
    + eexists _, _. split; [reflexivity |]. split_and!; try done; [by left | by left].
    + destruct (client_send_ready l l' now size E) as (d & c & Hd). rewrite u_def, client_query_seq. cbn.
      unfold constant. rewrite Hd. eexists _, _. split; [reflexivity |]. split_and!; try done; [by left | by right].
  - unfold nc_coap_client_handle_wait, ulift. rewrite hget_seq. cbn. unfold constant.
    destruct (nabto_coap_is_stamp_less _ x) eqn:El.
    + eexists _, _. split; [reflexivity |]. split_and!; try done; [| by left].
      cbn. unfold client_due, constant. by rewrite Est, stamp_less_irrefl.
    + eexists _, _. split; [reflexivity |]. split_and!; try done; [| by left]. cbn. unfold client_due, constant.
      by rewrite Est, El.
  - eexists _, _. split; [reflexivity |]. split_and!; try done; [| by left]. cbn. unfold client_due, constant.
    by rewrite Est.
Qed.

(** An event after a change of the library. *)
Lemma cc_inv_event size g now i (s s1 : nc_coap_client_context) t0 :
  cc_inv size g s -> is_use i = false -> ccv_sendBuffer s1 = Some size ->
  existsb is_client_timer t0 = false -> client_sends t0 = 0%nat ->
  ccv_isSending s1 = (match i with CciSent => false | _ => ccv_isSending s end) ->
  ccv_currentExpiry s1 = default (u32 ((match i with CciTimeout => now | _ => ccg_since g end) + Z.shiftl 1 29))
                           (match i with CciTimeout => None | _ => ccg_armed g end) ->
  exists s' t, nc_coap_client_event now s1 = Def (tt, s', t) /\
    cc_inv size (cc_ghost_step now i s' (t0 ++ t) g) s' /\
    (ccv_isSending s1 = true -> ccv_isSending s' = true /\ ccv_sendCtx s' = ccv_sendCtx s1 /\ client_sends (t0 ++ t) = 0%nat).
Proof.
  intros [Hb Hs He Hd] Hi Hb1 Ht0 Hs0 Hs1 He1.
  destruct (client_event_runs now size s1 Hb1) as (s' & t & Hrun & Hb' & Hd' & Hx & Hcase).
  exists s', t. split; [done |].
  assert (Happ : client_sends (t0 ++ t) = client_sends t).
  { unfold client_sends in *. rewrite List.filter_app, length_app. lia. }
  assert (Htm : existsb is_client_timer (t0 ++ t) = existsb is_client_timer t) by (by rewrite existsb_app, Ht0).
  split; [| rewrite Happ; intros Hsend; destruct Hcase as [(-> & -> & ->) | (Hf & _)]; [done | congruence]].
  split; unfold cc_ghost_step; cbn.
  - by rewrite Hb'.
  - rewrite Happ, Hs. destruct Hcase as [(-> & _ & ->) | (Ef & -> & ->)]; rewrite ?Hs1 in *.
    + destruct i; cbn in *; destruct (ccv_isSending s); lia.
    + destruct i; cbn in *; rewrite ?Ef; try lia. destruct (ccv_isSending s); lia.
  - rewrite Htm. destruct (existsb is_client_timer t); [done |]. by rewrite Hx, He1.
  - rewrite Hi. intros Hdue. destruct (Hd' Hdue) as [? | Hn]; [by left |]. right.
    by rewrite existsb_app, Hn, !orb_true_r.
Qed.

Lemma client_step_good size now i g (s : nc_coap_client_context) :
  cc_inv size g s -> cc_allowed i s g ->
  exists s' t, cc_step now i s = Def (tt, s', t) /\ cc_inv size (cc_ghost_step now i s' t g) s' /\
    (ccv_isSending s = true -> i <> CciSent ->
     ccv_isSending s' = true /\ ccv_sendCtx s' = ccv_sendCtx s /\ client_sends t = 0%nat).
Proof.
  intros Hinv Hok. pose proof Hinv as [Hb Hs He Hd].
  assert (Hlib : forall i f (s1 : nc_coap_client_context), i = CciTimeout \/ (exists b d, i = CciPacket b d) ->
    ccv_sendBuffer s1 = Some size -> ccv_isSending s1 = ccv_isSending s -> ccv_sendCtx s1 = ccv_sendCtx s ->
    ccv_currentExpiry s1 = default (u32 ((match i with CciTimeout => now | _ => ccg_since g end) + Z.shiftl 1 29))
                             (match i with CciTimeout => None | _ => ccg_armed g end) ->
    exists s' t, ubind (ulift (client_lib f)) (fun _ => nc_coap_client_event now) s1 = Def (tt, s', t) /\
      cc_inv size (cc_ghost_step now i s' t g) s' /\
      (ccv_isSending s = true -> ccv_isSending s' = true /\ ccv_sendCtx s' = ccv_sendCtx s /\ client_sends t = 0%nat)).
  { intros j f s1 Hj Hb1 Hs1 Hc1 He1. destruct (repeat_post (f (ccv_client s1)).2) as (R1 & R2 & _).
    destruct (cc_inv_event size g now j s (s1 {{ ccv_client := (f (ccv_client s1)).1 }})
      (repeat CcPostEvent (f (ccv_client s1)).2)) as (s' & t & Hrun & Hi' & Hk);
      [exact Hinv | by destruct Hj as [-> | (? & ? & ->)] | by destruct s1 | done | done
       | destruct s1; by destruct Hj as [-> | (? & ? & ->)] | by destruct s1 |].
    eexists s', _. split; [unfold ubind, ulift; rewrite client_lib_run, Hrun; reflexivity |]. split; [done |].
    rewrite <- Hs1, <- Hc1. destruct s1; exact Hk. }
  destruct i as [buffer dtls | | | | f]; cbn [cc_step].
  - destruct (Hlib (CciPacket buffer dtls) (fun l => nabto_coap_client_handle_packet l now buffer dtls) s)
      as (s' & t & ? & ? & Hk); [right; by eexists _, _ | done | done | done | done |]. exists s', t.
    split_and!; [done | done | by intros E _; apply Hk].
  - unfold nc_coap_client_handle_timeout, nc_coap_client_set_infinite_stamp.
    pose (s1 := s {{ ccv_currentExpiry := u32 (now + Z.shiftl 1 29) }}).
    destruct (Hlib CciTimeout (fun l => nabto_coap_client_handle_timeout l now) s1) as (s' & t & Hrun & ? & Hk);
      [by left | by destruct s | by destruct s | by destruct s | by destruct s |]. exists s', t.
    split; [| split; [done | by intros E _; apply Hk]].
    unfold ubind at 1, ulift at 1. rewrite hmod_seq. unfold hmod. replace (_ {{ _ ::= _ }}) with s1 by (by destruct s).
    by rewrite Hrun.
  - destruct (cc_inv_event size g now CciNotified s s []) as (s' & t & Hrun & Hi' & Hk); try done. exists s', t.
    split_and!; [done | done | by intros E _; apply Hk].
  - destruct (cc_inv_event size g now CciSent s (s {{ ccv_isSending := false }}) []) as (s' & t & Hrun & Hi' & Hk);
      [exact Hinv | done | by destruct s | done | done | by destruct s | by destruct s |].
    exists s', t. split; [| by split]. unfold nc_coap_client_send_to_callback. by rewrite u_hmod.
  - destruct (repeat_post (f (ccv_client s)).2) as (R1 & R2 & R3).
    eexists _, _. split; [unfold ulift; by rewrite client_lib_run |]. rewrite R2.
    cbn [cc_allowed] in Hok. destruct s as [pl l x b sc sn]. cbn in *. split; [| done]. split; cbn; rewrite ?R1, ?R2, ?R3.
    + done.
    + rewrite Hs. destruct sn; lia.
    + done.
    + intros Hdue. destruct (f l).2 as [| n] eqn:En; cbn; [| by rewrite orb_true_r; right].
      destruct (Hd (Hok eq_refl Hdue)) as [? | ->]; [by left | by right].
Qed.

Lemma client_reachable_inv size g (s : nc_coap_client_context) : cc_reachable size g s -> cc_inv size g s.
Proof.
  induction 1 as [now s t Hrun | now i g s s' t _ IH Hok Hrun].
  - cbn in Hrun. injection Hrun as <- _. unfold constant. split; cbn; try done.
    unfold client_due. by rewrite client_init_idle.
  - destruct (client_step_good size now i g s IH Hok) as (s1 & t1 & Hrun1 & Hi & _). congruence.
Qed.

(** The CoAP client is never stuck and never sends twice at a time, as the server: one send is under
    way exactly when [isSending] says so; when the library has an answer to deliver, a packet to
    send or a timeout before the timer, a send is under way or the event is posted; the timer is
    set to what [currentExpiry] says; every handler returns, and while a send is under way it starts
    no other and leaves the send context and its data alone. *)
Lemma coap_client_serves size g (s : nc_coap_client_context) (Hreach : cc_reachable size g s) :
  ccg_outstanding g = (if ccv_isSending s then 1%nat else 0%nat) /\
  (client_due (ccv_client s) (ccg_asked g) (ccv_currentExpiry s) = true ->
   ccv_isSending s = true \/ ccg_posted g = true) /\
  ccv_currentExpiry s = default (u32 (ccg_since g + Z.shiftl 1 29)) (ccg_armed g) /\
  (forall now i, cc_allowed i s g ->
     exists s' t, cc_step now i s = Def (tt, s', t) /\
       (ccv_isSending s = true -> i <> CciSent ->
        ccv_isSending s' = true /\ ccv_sendCtx s' = ccv_sendCtx s /\ client_sends t = 0%nat)).
Proof.
  pose proof (client_reachable_inv _ _ _ Hreach) as Hinv. pose proof Hinv as [Hb Hs He Hd].
  split_and!; try done. intros now i Hok.
  destruct (client_step_good size now i g s Hinv Hok) as (s' & t & ? & _ & ?). by exists s', t.
Qed.

(** The buffer is freed twice when the library cannot be initialized and the device is freed. *)
Lemma client_init_failure_frees_twice size err now :
  err <> NABTO_COAP_ERROR_OK ->
  let init := nc_coap_client_init (Some size) NABTO_EC_OK NABTO_EC_OK err now in
  trace (init ;;; nc_coap_client_deinit) (coap_client_zero (L := L)) =
    [CcCreateEvent; CcCreateTimer; CcFreeBuffer; CcDestroyEvent; CcDestroyTimer; CcDestroyClient; CcFreeBuffer].
Proof. by destruct err. Qed.
End CoapClientLaws.

(** ** Witnesses *)

(** A client with requests to send, an answer to deliver, and a time to try again. *)
Record toy_client : Type := mk_toy { toy_requests : list (list Z); toy_answer : bool; toy_wait : option Z }.

#[local] Instance toy_client_library : NabtoCoapClient toy_client := {|
  nabto_coap_client_init := mk_toy [] false None;
  nabto_coap_client_handle_packet l _ _ _ := (mk_toy (toy_requests l) true None, 0%nat);
  nabto_coap_client_get_next_event l _ :=
    (match toy_answer l, toy_requests l, toy_wait l with
     | true, _, _ => NABTO_COAP_CLIENT_NEXT_EVENT_CALLBACK
     | _, _ :: _, _ => NABTO_COAP_CLIENT_NEXT_EVENT_SEND
     | _, [], Some _ => NABTO_COAP_CLIENT_NEXT_EVENT_WAIT
     | _, [], None => NABTO_COAP_CLIENT_NEXT_EVENT_NOTHING
     end, l);
  nabto_coap_client_create_packet l now n :=
    ((fun d => (take n d, Some 1%nat)) <$> head (toy_requests l),
     mk_toy (tail (toy_requests l)) (toy_answer l) (Some (u32 (now + 2000))));
  nabto_coap_client_get_next_timeout l _ := default 0 (toy_wait l);
  nabto_coap_client_handle_timeout l _ := (mk_toy (toy_requests l) (toy_answer l) None, 0%nat);
  nabto_coap_client_handle_callback l := (mk_toy (toy_requests l) false (toy_wait l), 0%nat)
|}.

#[local] Instance toy_client_laws : NabtoCoapClientLaws toy_client.
Proof.
  split; cbn; try done.
  - by intros l now e l' [= <- <-].
  - intros [[| d q] [|] [w |]] l' now n [= <-]; by eexists _, _.
Qed.

#[local] Existing Instances example_stamps example_stamps_laws.

(** A request is announced and sent; the timer is set when the send has completed. *)
Lemma coap_client_serves_witness :
  exists g s, cc_reachable (L := toy_client) 100 g s /\ ccv_currentExpiry s = 2020 /\ ccg_armed g = Some 2020.
Proof.
  pose proof (cc_init (L := toy_client) 100 5 _ _ eq_refl) as H0.
  pose proof (cc_does (L := toy_client) 100 10 (CciUse (fun l => (mk_toy [[7; 8]] false None, 1%nat))) _ _ _ _ H0
    ltac:(discriminate) eq_refl) as H1.
  pose proof (cc_does (L := toy_client) 100 20 CciNotified _ _ _ _ H1 eq_refl eq_refl) as H2.
  pose proof (cc_does (L := toy_client) 100 30 CciSent _ _ _ _ H2 ltac:(discriminate) eq_refl) as H3.
  eexists _, _. split; [exact H3 |]. split; [| reflexivity].
  exact (proj1 (proj2 (proj2 (coap_client_serves 100 _ _ H3)))).
Defined.
