(* ===== verification/ApiCoap.v ===== *)
(** * CoAP requests of the API (nabto_device_coap.c, nabto_device_error.c)

    A resource of the application: the CoAP library calls its handler with a request, the listener
    (Futures.v) gives the request to the future of the application, and the application answers and
    frees it. The answers of the CoAP library are arguments; requests of the library and the objects
    of the API have numbers. Every function runs under the mutex. *)

From S2P Require Import Prelude Platform Attacher Futures.
From stdpp Require Import gmap.

#[local] Open Scope Z_scope.
#[local] Open Scope list_scope.
#[local] Open Scope handler_scope.

Definition nabto_device_coap_error_module_to_api (ec : nabto_coap_error) : np_error_code :=
  match ec with
  | NABTO_COAP_ERROR_OK => NABTO_EC_OK
  | NABTO_COAP_ERROR_OUT_OF_MEMORY => NABTO_EC_OUT_OF_MEMORY
  | NABTO_COAP_ERROR_NO_CONNECTION => NABTO_EC_ABORTED
  | NABTO_COAP_ERROR_INVALID_PARAMETER => NABTO_EC_INVALID_ARGUMENT
  | NABTO_COAP_ERROR_OTHER => NABTO_EC_UNKNOWN
  end.

Inductive NabtoDeviceCoapMethod : Type :=
| NABTO_DEVICE_COAP_GET
| NABTO_DEVICE_COAP_POST
| NABTO_DEVICE_COAP_PUT
| NABTO_DEVICE_COAP_DELETE.

Inductive nabto_coap_code : Type :=
| NABTO_COAP_CODE_GET
| NABTO_COAP_CODE_POST
| NABTO_COAP_CODE_PUT
| NABTO_COAP_CODE_DELETE.

Definition nabto_device_coap_method_to_code (method : NabtoDeviceCoapMethod) : nabto_coap_code :=
  match method with
  | NABTO_DEVICE_COAP_GET => NABTO_COAP_CODE_GET
  | NABTO_DEVICE_COAP_POST => NABTO_COAP_CODE_POST
  | NABTO_DEVICE_COAP_PUT => NABTO_COAP_CODE_PUT
  | NABTO_DEVICE_COAP_DELETE => NABTO_COAP_CODE_DELETE
  end.

(** ** State *)

Record nabto_device_coap_request : Type := mk_cr {
  cr_req : nat;
  cr_connectionRef : Z
}.

(** [ca_res]: the resource, unless it was freed, with its [futureRequest]; [ca_requests]: the
    requests of the API that are allocated. *)
Record coap_api : Type := mk_ca {
  ca_listener : nabto_device_listener;
  ca_res : option (option nat);
  ca_requests : gmap nat nabto_device_coap_request
}.

(** Status codes are written as class and detail: 503 is 5.03. *)
Inductive coap_api_call : Type :=
| AcAddResource (method : nabto_coap_code)
| AcRemoveResource
| AcFreeResource
| AcSendError (req : nat) (code : Z) (message : string)
| AcRequestFree (req : nat)                      (* nabto_coap_server_request_free *)
| AcFree (request : nat)
| AcReset (fut : nat)
| AcResolve (fut : nat) (ec : np_error_code)
| AcStore (pointer : nat) (request : option nat)  (* *request = ... *)
| AcSetCode (req : nat) (code : Z)
| AcSetPayload (req : nat) (data : list Z)
| AcSetContentFormat (req : nat) (format : Z)
| AcReady (req : nat).

Definition ca_uhandler (A : Type) : Type := uhandler coap_api coap_api_call A.

(** The fields of a request; a request that was freed must not be used. *)
Definition get_request (request : nat) : ca_uhandler nabto_device_coap_request :=
  let+ s := ulift hget in
  uof (match ca_requests s !! request with Some r => Def r | None => UB end).
Definition free_request (request : nat) : ca_uhandler unit :=
  let+ _ := get_request request in
  ulift (emit (AcFree request) ;;; hmod (fun s => s {{ ca_requests ::= delete request }})).
Definition get_resource : ca_uhandler (option nat) :=
  let+ s := ulift hget in uof (match ca_res s with Some r => Def r | None => UB end).

(** ** The callback of the listener *)

Definition nabto_device_coap_listener_callback (ec : np_error_code) (eventData : option nat) :
    ca_uhandler np_error_code :=
  let+ req := uof (match eventData with Some n => Def n | None => if ec_eqb ec NABTO_EC_ABORTED then Def 0%nat else UB end) in
  if negb (is_error ec) then
    let+ futureRequest := get_resource in
    match futureRequest with
    | Some pointer =>
        let+ _ := ulift (emit (AcStore pointer (Some req)) ;;;
                         hmod (fun s => s {{ ca_res := Some None }})) in
        ulift (hret NABTO_EC_OK)
    | None =>
        let+ r := get_request req in
        let+ _ := ulift (emit (AcSendError (cr_req r) 503 "Handler unavailable")) in
        let+ _ := free_request req in
        ulift (hret NABTO_EC_UNKNOWN)
    end
  else if ec_eqb ec NABTO_EC_ABORTED then
    let+ _ := get_resource in
    ulift (emit AcRemoveResource ;;; emit AcFreeResource ;;;
           hmod (fun s => s {{ ca_res := None }}) ;;; hret ec)
  else
    let+ r := get_request req in
    let+ _ := ulift (emit (AcSendError (cr_req r) 503 "Handler unavailable")) in
    let+ _ := free_request req in
    ulift (hret ec).

(** What the callback answers when a future waits. *)
Definition callback_answer (s : coap_api) (_ : nat) : np_error_code :=
  match ca_res s with Some (Some _) => NABTO_EC_OK | _ => NABTO_EC_UNKNOWN end.

(** The calls of the listener, run in order. *)
Fixpoint listener_calls (t : list listener_call) : ca_uhandler unit :=
  match t with
  | [] => ulift hskip
  | DlCallback ec _ event :: t =>
      let+ _ := nabto_device_coap_listener_callback ec event in listener_calls t
  | DlResolve fut ec :: t => let+ _ := ulift (emit (AcResolve fut ec)) in listener_calls t
  end.

(** A function of the listener. *)
Definition on_listener {A} (m : (nat -> np_error_code) -> dl_handler A) : ca_uhandler A :=
  let+ s := ulift hget in
  let '(a, l, t) := m (callback_answer s) (ca_listener s) in
  let+ _ := ulift (hmod (fun s => s {{ ca_listener := l }})) in
  let+ _ := listener_calls t in
  ulift (hret a).

(** ** The API *)

(** [err]: the answer of [nabto_coap_server_add_resource]; its translation is an API code, and it is
    translated once more. A listener is made by [nabto_device_listener_new]. *)
Definition nabto_device_coap_init_listener (allocated : bool) (method : NabtoDeviceCoapMethod)
    (err : nabto_coap_error) : ca_uhandler np_error_code :=
  if negb allocated then ulift (hret NABTO_EC_OUT_OF_MEMORY)
  else
    let+ _ := ulift (hmod (fun s => s {{ ca_res := Some None }})) in
    let+ ec := on_listener (fun _ => nabto_device_listener_init) in
    if is_error ec then
      let+ _ := ulift (emit AcFreeResource ;;; hmod (fun s => s {{ ca_res := None }})) in
      ulift (hret (nabto_device_error_core_to_api ec))
    else
      let+ _ := ulift (emit (AcAddResource (nabto_device_coap_method_to_code method))) in
      match err with
      | NABTO_COAP_ERROR_OK => ulift (hret (nabto_device_error_core_to_api ec))
      | _ =>
          let+ _ := ulift (emit AcFreeResource ;;; hmod (fun s => s {{ ca_res := None }})) in
          ulift (hret (nabto_device_error_core_to_api (nabto_device_coap_error_module_to_api err)))
      end.

(** The type of the listener is the right one unless [rightType] says otherwise. *)
Definition nabto_device_listener_new_coap_request (rightType : bool) (fut request : nat) : ca_uhandler unit :=
  let+ _ := ulift (emit (AcReset fut)) in
  if negb rightType then ulift (emit (AcResolve fut NABTO_EC_INVALID_ARGUMENT))
  else
    let+ s := ulift hget in
    let ec := nabto_device_listener_get_status (ca_listener s) in
    if is_error ec then ulift (emit (AcResolve fut (nabto_device_error_core_to_api ec)))
    else
      let+ ec := on_listener (fun _ => nabto_device_listener_init_future fut) in
      if is_error ec then ulift (emit (AcResolve fut ec))
      else
        let+ _ := ulift (emit (AcStore request None)) in
        let+ _ := get_resource in
        let+ _ := ulift (hmod (fun s => s {{ ca_res := Some (Some request) }})) in
        on_listener nabto_device_listener_try_resolve.

Definition nabto_device_coap_request_free (request : nat) : ca_uhandler unit :=
  let+ r := get_request request in
  let+ _ := ulift (emit (AcRequestFree (cr_req r))) in
  free_request request.

Definition nabto_device_coap_error_response (request : nat) (code : Z) (message : string) (err : nabto_coap_error) :
    ca_uhandler np_error_code :=
  let+ r := get_request request in
  let+ _ := ulift (emit (AcSendError (cr_req r) code message)) in
  ulift (hret (nabto_device_coap_error_module_to_api err)).

Definition nabto_device_coap_response_set_code (request : nat) (code : Z) : ca_uhandler np_error_code :=
  let+ r := get_request request in
  let+ _ := ulift (emit (AcSetCode (cr_req r) code)) in
  ulift (hret NABTO_EC_OK).

Definition nabto_device_coap_response_set_payload (request : nat) (data : list Z) (err : nabto_coap_error) :
    ca_uhandler np_error_code :=
  let+ r := get_request request in
  let+ _ := ulift (emit (AcSetPayload (cr_req r) data)) in
  ulift (hret (nabto_device_coap_error_module_to_api err)).

Definition nabto_device_coap_response_set_content_format (request : nat) (format : Z) : ca_uhandler np_error_code :=
  let+ r := get_request request in
  let+ _ := ulift (emit (AcSetContentFormat (cr_req r) format)) in
  ulift (hret NABTO_EC_OK).

Definition nabto_device_coap_response_ready (request : nat) (err : nabto_coap_error) : ca_uhandler np_error_code :=
  let+ r := get_request request in
  let+ _ := ulift (emit (AcReady (cr_req r))) in
  ulift (hret (nabto_device_coap_error_module_to_api err)).

(** [cf], [payload], [value]: the answers of the library. *)
Definition nabto_device_coap_request_get_content_format (request : nat) (cf : Z) : ca_uhandler (np_error_code * option Z) :=
  let+ _ := get_request request in
  ulift (hret (if 0 <=? cf then (NABTO_EC_OK, Some (u16 cf)) else (NABTO_EC_UNKNOWN, None))).

Definition nabto_device_coap_request_get_payload (request : nat) (payload : option (list Z)) :
    ca_uhandler (np_error_code * option (list Z)) :=
  let+ _ := get_request request in
  ulift (hret (match payload with None => NABTO_EC_UNKNOWN | Some _ => NABTO_EC_OK end, payload)).

Definition nabto_device_coap_request_get_connection_ref (request : nat) : ca_uhandler Z :=
  let+ r := get_request request in ulift (hret (cr_connectionRef r)).

Definition nabto_device_coap_request_get_parameter (request : nat) (value : option string) :
    ca_uhandler (option string) :=
  let+ _ := get_request request in ulift (hret value).

(** [address]: where the request of the API is allocated, when there is memory; [connection]: the
    reference of the connection, if there is one. *)
Definition nabto_device_coap_resource_handler (request : nat) (address : option nat) (connection : option Z) :
    ca_uhandler unit :=
  let+ _ := get_resource in
  match address with
  | None => ulift (emit (AcSendError request 500 "Insufficient resources") ;;; emit (AcRequestFree request))
  | Some req =>
      let r := mk_cr request (default 0 connection) in
      let+ _ := ulift (hmod (fun s => s {{ ca_requests ::= insert req r }})) in
      let+ ec := on_listener (fun answer => nabto_device_listener_add_event answer req) in
      if is_error ec then
        let+ _ := ulift (emit (AcSendError request 500 "Insufficient resources") ;;; emit (AcRequestFree request)) in
        free_request req
      else ulift hskip
  end.

(** Stopping the listener, also when the device is stopped. *)
Definition coap_listener_stop : ca_uhandler np_error_code := on_listener (fun _ => nabto_device_listener_stop).

(** ** The life of requests *)

Inductive coap_input : Type :=
| CiResource (request : nat) (address : option nat) (connection : option Z)
| CiNew (rightType : bool) (fut pointer : nat)
| CiRespond (request : nat) (data : list Z) (err : nabto_coap_error)
| CiFree (request : nat)
| CiStop.

Definition coap_step (i : coap_input) : ca_uhandler unit :=
  match i with
  | CiResource request address connection => nabto_device_coap_resource_handler request address connection
  | CiNew rightType fut pointer => nabto_device_listener_new_coap_request rightType fut pointer
  | CiRespond request data err =>
      let+ _ := nabto_device_coap_response_set_code request 205 in
      let+ _ := nabto_device_coap_response_set_payload request data err in
      let+ _ := nabto_device_coap_response_ready request err in ulift hskip
  | CiFree request => nabto_device_coap_request_free request
  | CiStop => let+ _ := coap_listener_stop in ulift hskip
  end.

(** What the application was given, and what was freed, dropped with an error and given back. *)
Definition delivered (t : list coap_api_call) : list nat :=
  omap (fun c => match c with AcStore _ r => r | _ => None end) t.
Definition freed (t : list coap_api_call) : list nat :=
  omap (fun c => match c with AcRequestFree r => Some r | _ => None end) t.
Definition abandoned (t : list coap_api_call) : list nat :=
  omap (fun c => match c with AcSendError r 503 _ => Some r | _ => None end) t.

Definition given_request (i : coap_input) : list nat := match i with CiResource r _ _ => [r] | _ => [] end.
Definition returned_request (i : coap_input) : list nat := match i with CiFree n => [n] | _ => [] end.

(** The library calls the handler of a resource that is added, with memory that is free; the application uses
    and frees the requests it was given. [user]: what it holds. *)
Definition coap_allowed (user : list nat) (s : coap_api) (i : coap_input) : Prop :=
  match i with
  | CiResource _ address _ => ca_res s <> None /\ (forall n, address = Some n -> ca_requests s !! n = None)
  | CiRespond n _ _ | CiFree n => n ∈ user
  | CiNew _ _ _ | CiStop => True
  end.

Definition coap_api_new : coap_api := mk_ca nabto_device_listener_new None ∅.

(** [given]: the requests of the library the handler was called with. *)
Inductive coap_reachable : list nat -> list nat -> list coap_api_call -> coap_api -> Prop :=
| coap_init method s t :
    nabto_device_coap_init_listener true method NABTO_COAP_ERROR_OK coap_api_new = Def (NABTO_EC_OK, s, t) ->
    coap_reachable [] [] t s
| coap_does given user t i s s' t' user' :
    coap_reachable given user t s -> coap_allowed user s i -> coap_step i s = Def (tt, s', t') ->
    user ++ delivered t' ≡ₚ returned_request i ++ user' ->
    coap_reachable (given ++ given_request i) user' (t ++ t') s'.

(** The requests of the library behind the requests of the API. *)
Definition held (s : coap_api) : list nat := (fun p => cr_req p.2) <$> map_to_list (ca_requests s).

(** *** The invariant *)

Definition keys (s : coap_api) : list nat := (map_to_list (ca_requests s)).*1.

(** Requests of the API wait in the listener or belong to the application; a future that waits has a pointer
    for its request; the resource lives as long as the listener works. *)
Record coap_inv (user : list nat) (s : coap_api) : Prop := {
  cai_keys : dl_events (ca_listener s) ++ user ≡ₚ keys s;
  cai_listener : (open (ca_listener s) /\ ca_res s <> None /\
                  (dl_fut (ca_listener s) <> None -> exists p, ca_res s = Some (Some p))) \/
                 (ended (ca_listener s) /\ ca_res s = None)
}.

(** What a step does: the requests it was given are freed, abandoned or held, and those it delivers are
    the application's. *)
Definition coap_step_good (i : coap_input) (user : list nat) (s : coap_api)
    (r : cres (unit * coap_api * list coap_api_call)) : Prop :=
  exists s' t user', r = Def (tt, s', t) /\ coap_inv user' s' /\
    user ++ delivered t ≡ₚ returned_request i ++ user' /\
    held s ++ given_request i ≡ₚ freed t ++ abandoned t ++ held s'.

Lemma in_keys n s : n ∈ keys s -> exists r, ca_requests s !! n = Some r.
Proof.
  unfold keys. intros ([n' r] & -> & Hin)%list_elem_of_fmap. exists r. by apply elem_of_map_to_list.
Qed.

Lemma inv_request user s n : coap_inv user s -> n ∈ user -> exists r, ca_requests s !! n = Some r.
Proof. intros [Hk _] Hn. apply in_keys. rewrite <- Hk. apply elem_of_app. by right. Qed.

Lemma get_request_seq {A} n r (k : nabto_device_coap_request -> ca_uhandler A) s :
  ca_requests s !! n = Some r -> ubind (get_request n) k s = k r s.
Proof. intros E. apply u_quiet. unfold get_request. by rewrite u_hget, E. Qed.

Lemma delete_held n r s :
  ca_requests s !! n = Some r ->
  held s ≡ₚ cr_req r :: held (s {{ ca_requests ::= delete n }}) /\
  keys s ≡ₚ n :: keys (s {{ ca_requests ::= delete n }}).
Proof.
  intros E. unfold held, keys. destruct s as [l res m]. cbn in *.
  rewrite <- (map_to_list_delete m n r E). done.
Qed.

Lemma insert_held n r s :
  ca_requests s !! n = None ->
  held (s {{ ca_requests ::= insert n r }}) ≡ₚ cr_req r :: held s /\
  keys (s {{ ca_requests ::= insert n r }}) ≡ₚ n :: keys s.
Proof.
  intros E. unfold held, keys. destruct s as [l res m]. cbn in *. by rewrite (map_to_list_insert m n r E).
Qed.

Lemma freed_app t t' : freed (t ++ t') = freed t ++ freed t'.
Proof. apply omap_app. Qed.
Lemma abandoned_app t t' : abandoned (t ++ t') = abandoned t ++ abandoned t'.
Proof. apply omap_app. Qed.
Lemma delivered_app t t' : delivered (t ++ t') = delivered t ++ delivered t'.
Proof. apply omap_app. Qed.

(** The events that a stopped listener gives back are answered, and their requests of the API freed. *)
Lemma abandon_calls es rest : forall s,
  NoDup es -> (forall n, n ∈ es -> n ∈ keys s) ->
  exists s1 t1, (forall n, n ∈ keys s1 <-> n ∈ keys s /\ n ∉ es) /\
    ca_res s1 = ca_res s /\ ca_listener s1 = ca_listener s /\ keys s ≡ₚ es ++ keys s1 /\
    delivered t1 = [] /\ freed t1 = [] /\ held s ≡ₚ abandoned t1 ++ held s1 /\
    listener_calls (map (fun e => DlCallback NABTO_EC_STOPPED None (Some e)) es ++ rest) s =
      match listener_calls rest s1 with Def (a, s2, t2) => Def (a, s2, t1 ++ t2) | UB => UB end.
Proof.
  induction es as [| n es IH]; intros s Hnd Hin.
  { exists s, []. cbn. split_and!; try done; [set_solver |]. by destruct (listener_calls rest s) as [[[??]?] |]. }
  apply NoDup_cons in Hnd as [Hn Hnd]. destruct (in_keys n s (Hin n ltac:(left))) as [r Er].
  destruct (delete_held n r s Er) as [Hh Hk]. set (s0 := s {{ ca_requests ::= delete n }}) in *.
  assert (Hndk : NoDup (keys s)) by apply NoDup_fst_map_to_list.
  rewrite Hk in Hndk. apply NoDup_cons in Hndk as [Hn0 _].
  assert (Hmem : forall m, m ∈ keys s <-> m = n \/ m ∈ keys s0) by (intros m; by rewrite Hk, elem_of_cons).
  destruct (IH s0 Hnd) as (s1 & t1 & Hk1 & Hr1 & Hl1 & Hp1 & Hd1 & Hf1 & Hh1 & Hrun).
  { intros m Hm. destruct (proj1 (Hmem m) (Hin m ltac:(by right))) as [-> |]; [done | done]. }
  exists s1, (AcSendError (cr_req r) 503 "Handler unavailable" :: AcFree n :: t1). split_and!.
  - intros m. rewrite Hk1, Hmem, elem_of_cons. naive_solver.
  - rewrite Hr1. by destruct s.
  - rewrite Hl1. by destruct s.
  - by rewrite Hk, Hp1.
  - done.
  - done.
  - cbn. by rewrite Hh, Hh1.
  - cbn [map app listener_calls].
    assert (E : nabto_device_coap_listener_callback NABTO_EC_STOPPED (Some n) s =
                Def (NABTO_EC_STOPPED, s0, [AcSendError (cr_req r) 503 "Handler unavailable"; AcFree n])).
    { unfold nabto_device_coap_listener_callback. rewrite u_def. cbn [is_error negb].
      unfold ec_eqb. rewrite bool_decide_eq_false_2 by done. rewrite (get_request_seq n r) by done.
      unfold ubind at 1. cbn [ulift emit]. unfold free_request.
      unfold ubind at 1. rewrite (get_request_seq n r) by done. reflexivity. }
    unfold ubind at 1. rewrite E, Hrun. by destruct (listener_calls rest s1) as [[[??]?] |].
Qed.

Ltac run_callback := unfold nabto_device_coap_listener_callback, get_resource, free_request; cbn.

Lemma resource_open user s :
  coap_inv user s -> ca_res s <> None ->
  open (ca_listener s) /\ (dl_fut (ca_listener s) <> None -> exists p, ca_res s = Some (Some p)).
Proof. intros [_ [(Ho & _ & Hf) | [_ Hr]]] Hres; [done | by destruct Hres]. Qed.

Lemma resource_good user s request address connection :
  coap_inv user s -> coap_allowed user s (CiResource request address connection) ->
  coap_step_good (CiResource request address connection) user s (coap_step (CiResource request address connection) s).
Proof.
  intros Hinv [Hres Hfresh]. destruct (resource_open _ _ Hinv Hres) as [Ho Hf]. pose proof Hinv as [Hk Hl].
  cbn [coap_step]. unfold nabto_device_coap_resource_handler.
  assert (Er : exists res, ca_res s = Some res) by (destruct (ca_res s); [by eexists | done]).
  destruct Er as [res Er].
  rewrite (u_quiet _ _ _ res) by (unfold get_resource; by rewrite u_hget, Er).
  destruct address as [n |].
  - specialize (Hfresh n eq_refl). set (r := mk_cr request (default 0 connection)).
    destruct (insert_held n r s Hfresh) as [Hh Hks]. rewrite u_hmod.
    destruct s as [[ini es cb fut ec] res0 m]. destruct Ho as (Hi & He & Hcb & Hw). cbn in *. subst.
    destruct fut as [f |].
    + destruct Hw as [[=] | ->]. destruct (Hf ltac:(done)) as [p [= ->]].
      exists (mk_ca (mk_dl true [] true None NABTO_EC_OK) (Some None) (<[n := r]> m)),
        [AcStore p (Some n); AcResolve f NABTO_EC_OK], (user ++ [n]). split; [reflexivity |]. split_and!.
      * split; [cbn; unfold keys in *; cbn in *; by rewrite Hks, Hk, Permutation_app_comm |].
        left. cbn. split_and!; [by repeat split; left | done | done].
      * done.
      * unfold held in *. cbn in *. rewrite Hh. cbn. by rewrite Permutation_app_comm.
    + exists (mk_ca (mk_dl true (es ++ [n]) true None NABTO_EC_OK) (Some res) (<[n := r]> m)), [], user.
      split; [reflexivity |]. split_and!.
      * split; [cbn; unfold keys in *; cbn in *; rewrite Hks, <- Hk; solve_Permutation |].
        left. cbn. split_and!; [by repeat split; left | done | done].
      * by rewrite app_nil_r.
      * unfold held in *. cbn in *. rewrite Hh. cbn. by rewrite Permutation_app_comm.
  - eexists s, _, user. split; [reflexivity |]. split_and!; [done | by rewrite app_nil_r |]. cbn.
    by rewrite Permutation_app_comm.
Qed.

Lemma new_good user s rightType fut p :
  coap_inv user s -> coap_step_good (CiNew rightType fut p) user s (coap_step (CiNew rightType fut p) s).
Proof.
  intros Hinv. pose proof Hinv as [Hk Hl]. cbn [coap_step]. unfold nabto_device_listener_new_coap_request.
  destruct rightType; cbn [negb].
  2:{ eexists s, _, user. split; [reflexivity |]. by rewrite !app_nil_r. }
  destruct Hl as [(Ho & Hres & Hf) | (Hd & Hres)].
  - destruct s as [[ini es cb f ec] [res |] m]; [| done]. destruct Ho as (Hi & He & Hcb & Hw). cbn in *. subst.
    destruct f as [f |].
    + exists (mk_ca (mk_dl true es true (Some f) NABTO_EC_OK) (Some res) m),
        [AcReset fut; AcResolve fut NABTO_EC_OPERATION_IN_PROGRESS], user. split; [reflexivity |]. rewrite !app_nil_r. split_and!; try done.
    + destruct es as [| e es].
      * exists (mk_ca (mk_dl true [] true (Some fut) NABTO_EC_OK) (Some (Some p)) m), [AcReset fut; AcStore p None], user.
        split; [reflexivity |]. rewrite !app_nil_r. split_and!; try done.
        split; [done |]. left. cbn. split_and!; [repeat split; naive_solver | done | naive_solver].
      * exists (mk_ca (mk_dl true es true None NABTO_EC_OK) (Some None) m),
          [AcReset fut; AcStore p None; AcStore p (Some e); AcResolve fut NABTO_EC_OK], (user ++ [e]).
        split; [reflexivity |]. rewrite !app_nil_r. split_and!; try done.
        split; [cbn; unfold keys in *; cbn in *; rewrite <- Hk; solve_Permutation |].
        left. cbn. split_and!; [repeat split; naive_solver | done | naive_solver].
  - pose proof Hd as (_ & He & _). eexists s, _, user. unfold ubind at 1. cbn [ulift emit]. rewrite u_hget.
    unfold nabto_device_listener_get_status. rewrite He. split; [reflexivity |]. by rewrite !app_nil_r.
Qed.

Lemma respond_good user s n data err :
  coap_inv user s -> n ∈ user -> coap_step_good (CiRespond n data err) user s (coap_step (CiRespond n data err) s).
Proof.
  intros Hinv Hn. destruct (inv_request _ _ _ Hinv Hn) as [r Er].
  eexists s, _, user. split; [| split_and!; [done | |]].
  - cbn [coap_step]. unfold nabto_device_coap_response_set_code, nabto_device_coap_response_set_payload,
      nabto_device_coap_response_ready. unfold ubind, get_request, ulift, hget, uof. repeat (cbn; rewrite Er). reflexivity.
  - cbn. by rewrite app_nil_r.
  - cbn. by rewrite app_nil_r.
Qed.

Lemma free_good user s n :
  coap_inv user s -> n ∈ user -> coap_step_good (CiFree n) user s (coap_step (CiFree n) s).
Proof.
  intros Hinv Hn. destruct (inv_request _ _ _ Hinv Hn) as [r Er]. destruct (delete_held n r s Er) as [Hh Hk].
  apply elem_of_Permutation in Hn as [user' Hu].
  exists (s {{ ca_requests ::= delete n }}), [AcRequestFree (cr_req r); AcFree n], user'. split_and!.
  - cbn [coap_step]. unfold nabto_device_coap_request_free. rewrite (get_request_seq n r) by done.
    unfold ubind at 1. cbn [ulift emit]. unfold free_request. rewrite (get_request_seq n r) by done. reflexivity.
  - destruct Hinv as [Hks Hl]. split; [| by destruct s].
    apply (Permutation_cons_inv (a := n)). rewrite <- Hk, <- Hks. destruct s. cbn. rewrite Hu. solve_Permutation.
  - cbn. by rewrite app_nil_r.
  - cbn. by rewrite app_nil_r, Hh.
Qed.


Lemma stop_run l :
  open l ->
  nabto_device_listener_stop l =
    (NABTO_EC_STOPPED, l {{ dl_ec := NABTO_EC_STOPPED; dl_events := []; dl_fut := None; dl_cb := false }},
     end_trace NABTO_EC_STOPPED l).
Proof.
  intros Ho. pose proof Ho as (Hi & He & _). unfold nabto_device_listener_stop, nabto_device_listener_stop_internal.
  unfold hbind, hget. rewrite Hi, He. cbn [negb is_error]. rewrite (set_error_open NABTO_EC_STOPPED l Ho).
  cbn. by rewrite !app_nil_r.
Qed.

Lemma on_listener_run {A} (m : (nat -> np_error_code) -> dl_handler A) a l t s :
  m (callback_answer s) (ca_listener s) = (a, l, t) ->
  on_listener m s = match listener_calls t (s {{ ca_listener := l }}) with
                    | Def (_, s', t') => Def (a, s', t') | UB => UB end.
Proof.
  intros E. unfold on_listener. rewrite u_hget, E, u_hmod. unfold ubind.
  destruct (listener_calls t _) as [[[[] s1] t1] |]; [| done]. cbn. by rewrite app_nil_r.
Qed.

Lemma stop_good user s : coap_inv user s -> coap_step_good CiStop user s (coap_step CiStop s).
Proof.
  intros Hinv. pose proof Hinv as [Hk Hl]. cbn [coap_step]. unfold coap_listener_stop, ubind at 1.
  destruct Hl as [(Ho & Hres & Hf) | (Hd & Hres)].
  - rewrite (on_listener_run _ _ _ _ _ (stop_run _ Ho)). unfold end_trace. cbn [ec_eqb bool_decide decide_rel].
    set (s0 := s {{ ca_listener := _ }}).
    assert (E0 : keys s0 = keys s /\ held s0 = held s /\ ca_res s0 = ca_res s) by (by destruct s).
    destruct E0 as (Ek & Eh & Er). set (es := dl_events (ca_listener s)) in *.
    assert (Hnd : NoDup (es ++ user)) by (rewrite Hk; apply NoDup_fst_map_to_list).
    apply NoDup_app in Hnd as (Hnd & _ & _).
    destruct (abandon_calls es (map (fun f => DlResolve f NABTO_EC_STOPPED) (option_list (dl_fut (ca_listener s))) ++
                [DlCallback NABTO_EC_ABORTED None None]) s0 Hnd)
      as (s1 & t1 & _ & Hr1 & Hl1 & Hp1 & Hd1 & Hf1 & Hh1 & Hrun).
    { intros n Hn. rewrite Ek, <- Hk. apply elem_of_app. by left. }
    replace (if ec_eqb NABTO_EC_STOPPED NABTO_EC_ABORTED then NABTO_EC_STOPPED else NABTO_EC_STOPPED)
      with NABTO_EC_STOPPED by (by destruct (ec_eqb _ _)).
    rewrite Hrun.
    assert (Hend : exists t2, listener_calls (map (fun f => DlResolve f NABTO_EC_STOPPED) (option_list (dl_fut (ca_listener s))) ++
                [DlCallback NABTO_EC_ABORTED None None]) s1 = Def (tt, s1 {{ ca_res := None }}, t2) /\
              delivered t2 = [] /\ freed t2 = [] /\ abandoned t2 = []).
    { assert (Hres1 : exists res, ca_res s1 = Some res) by (rewrite Hr1, Er; destruct (ca_res s); [by eexists | done]).
      destruct Hres1 as [res Hres1]. destruct s1 as [l1 res1 m1]. cbn in Hres1. subst res1.
      destruct (dl_fut (ca_listener s)); (eexists; split; [reflexivity | done]). }
    destruct Hend as (t2 & -> & Hd2 & Hf2 & Ha2).
    exists (s1 {{ ca_res := None }}), (t1 ++ t2), user. split_and!.
    + cbn. by rewrite app_nil_r.
    + split.
      * replace (ca_listener (s1 {{ ca_res := None }})) with (ca_listener s0) by (rewrite <- Hl1; by destruct s1).
        replace (keys (s1 {{ ca_res := None }})) with (keys s1) by (by destruct s1).
        apply (Permutation_app_inv_l es). rewrite <- Hp1, Ek, <- Hk. destruct s as [[]]. reflexivity.
      * right. split; [| by destruct s1].
        replace (ca_listener (s1 {{ ca_res := None }})) with (ca_listener s0) by (rewrite <- Hl1; by destruct s1).
        destruct Ho as (Hi & _). destruct s as [[]]. cbn in *. by repeat split.
    + rewrite delivered_app, Hd1, Hd2. cbn. by rewrite app_nil_r.
    + cbn. rewrite app_nil_r, freed_app, abandoned_app, Hf1, Hf2, Ha2, app_nil_r. cbn.
      rewrite <- Eh, Hh1. destruct s1. cbn. by rewrite ?app_nil_r.
  - pose proof Hd as (Hi & He & _).
    assert (E : nabto_device_listener_stop (ca_listener s) = (dl_ec (ca_listener s), ca_listener s, [])).
    { unfold nabto_device_listener_stop, nabto_device_listener_stop_internal, hbind, hget. rewrite Hi, He. done. }
    rewrite (on_listener_run _ _ _ _ _ E). exists s, [], user. cbn. rewrite !app_nil_r.
    split; [by destruct s | done].
Qed.

Lemma coap_step_ok user s i :
  coap_inv user s -> coap_allowed user s i -> coap_step_good i user s (coap_step i s).
Proof.
  intros Hinv Hok. destruct i; [by apply resource_good | by apply new_good | by apply respond_good
    | by apply free_good | by apply stop_good].
Qed.

Lemma coap_inv_perm user user' s : user ≡ₚ user' -> coap_inv user s -> coap_inv user' s.
Proof. intros E [Hk Hl]. split; [by rewrite <- E | done]. Qed.

Lemma coap_reachable_inv given user t s :
  coap_reachable given user t s -> coap_inv user s /\ given ≡ₚ freed t ++ abandoned t ++ held s.
Proof.
  induction 1 as [method s t Hrun | given user t i s s' t' user' _ [Hinv Hg] Hok Hrun Huser].
  - injection Hrun as <- <-. split; [| done]. split; [done |]. left. cbn. by split_and!; [repeat split; left | |].
  - destruct (coap_step_ok user s i Hinv Hok) as (s1 & t1 & user1 & Hrun1 & Hi1 & Hu1 & Hh1).
    rewrite Hrun in Hrun1. injection Hrun1 as <- <-. split.
    + apply (coap_inv_perm user1); [| done]. rewrite Hu1 in Huser. by apply Permutation_app_inv_l in Huser.
    + rewrite freed_app, abandoned_app, Hg. rewrite <- !app_assoc, Hh1. solve_Permutation.
Qed.

(** C13. The requests of a resource. Whatever the order in which requests arrive, the application listens, answers
    and frees requests and the listener is stopped: every request the handler was called with was
    freed once, or waits or is in use by the application, or was answered with an error without being
    freed when the listener was stopped - requests that wait then are never given back to the
    library. The application holds exactly the requests it was given and did not free, each
    once; and no step uses memory that was freed. *)
Theorem coap_request_ownership given user t s (Hreach : coap_reachable given user t s) :
  given ≡ₚ freed t ++ abandoned t ++ held s /\
  dl_events (ca_listener s) ++ user ≡ₚ keys s /\ NoDup user /\
  (ca_res s = None -> dl_events (ca_listener s) = [] /\ dl_fut (ca_listener s) = None) /\
  (forall i, coap_allowed user s i -> is_def (coap_step i s) = true).
Proof.
  destruct (coap_reachable_inv _ _ _ _ Hreach) as [Hinv Hg]. pose proof Hinv as [Hk Hl].
  split_and!; try done.
  - assert (Hnd : NoDup (dl_events (ca_listener s) ++ user)) by (rewrite Hk; apply NoDup_fst_map_to_list).
    by apply NoDup_app in Hnd as (_ & _ & ?).
  - intros Hr. destruct Hl as [(_ & Hne & _) | ((_ & _ & _ & Hf & He) & _)]; [done | by rewrite He, Hf].
  - intros i Hok. by destruct (coap_step_ok user s i Hinv Hok) as (? & ? & ? & -> & _).
Qed.

(** A listener whose resource could not be added keeps the resource that was freed: to stop it, or the
    device, or to listen, is undefined. *)
Lemma failed_listener_undefined method err :
  err <> NABTO_COAP_ERROR_OK ->
  exists ec s t, nabto_device_coap_init_listener true method err coap_api_new = Def (ec, s, t) /\ is_error ec = true /\
    coap_listener_stop s = UB /\ forall fut p, nabto_device_listener_new_coap_request true fut p s = UB.
Proof. intros He. destruct err; [done | ..]; (eexists _, _, _; split; [reflexivity |]; done). Qed.

(** ** Witnesses *)

(** Two requests; the application listens once and frees the request, and then stops the listener: the
    second request is abandoned. *)
Lemma coap_request_ownership_witness :
  exists t s, coap_reachable [11; 12]%nat [] t s /\ freed t = [11%nat] /\ [11; 12]%nat ≡ₚ freed t ++ abandoned t ++ held s.
Proof.
  pose proof (coap_init NABTO_DEVICE_COAP_GET _ _ eq_refl) as H0.
  pose proof (coap_does _ _ _ (CiResource 11 (Some 1%nat) (Some 5)) _ _ _ [] H0
    ltac:(split; [discriminate | by intros n [= <-]]) eq_refl (Permutation_refl _)) as H1.
  pose proof (coap_does _ _ _ (CiResource 12 (Some 2%nat) (Some 5)) _ _ _ [] H1
    ltac:(split; [discriminate | by intros n [= <-]]) eq_refl (Permutation_refl _)) as H2.
  pose proof (coap_does _ _ _ (CiNew true 7 8) _ _ _ [1%nat] H2 I eq_refl (Permutation_refl _)) as H3.
  pose proof (coap_does _ _ _ (CiFree 1) _ _ _ [] H3 ltac:(cbn; left) eq_refl (Permutation_refl _)) as H4.
  pose proof (coap_does _ _ _ CiStop _ _ _ [] H4 I eq_refl (Permutation_refl _)) as H5.
  eexists _, _. split; [exact H5 |]. split; [reflexivity |].
  exact (proj1 (coap_request_ownership _ _ _ _ H5)).
Defined.
