(* ===== verification/Udp.v ===== *)
(** * The interface of UDP sockets (platform/interfaces/np_udp.h, np_udp_wrapper.c,
      modules/mdns/nm_mdns_udp_bind.h)

    The table of functions of a UDP implementation as a class over its sockets [S], the calls
    [E] it makes to the system, and the answers [A] of the system to a bind. A completion event
    is a number. The laws are the contract of the interface as its users need it: every
    completion event is resolved exactly once. SelectSockets.v and Libevent.v implement the
    interface, Mdns.v and UdpDispatch.v use it. *)

From S2P Require Import Prelude Platform.

#[local] Open Scope Z_scope.
#[local] Open Scope list_scope.

Class NpUdp (S E A : Type) : Type := {
  np_udp_async_bind_mdns : np_ip_address_type -> A -> nat -> handler S E unit;
  (* the error of the system, if any, and the completion event *)
  np_udp_async_send_to : np_udp_endpoint -> list Z -> option Z -> nat -> handler S E unit;
  np_udp_async_recv_wait : nat -> uhandler S E unit;
  (* the size of the buffer; the data or the error of the system; the sender *)
  np_udp_recv_from : nat -> list Z + Z -> list Z -> Z ->
    handler S E (np_error_code * np_udp_endpoint * option (list Z));
  np_udp_abort : handler S E unit;
  (* the system tells that the socket can be read *)
  udp_readable : handler S E unit;
  (* the completion events that are resolved, in order *)
  udp_resolved : list E -> list (nat * np_error_code);
  (* the completion event that waits for data; whether the socket was aborted; whether it can
     be waited for *)
  udp_waiting : S -> option nat;
  udp_aborted : S -> bool;
  udp_open : S -> bool
}.

(** What a socket keeps when an operation does not change its waiting. *)
Definition udp_same {S E A} `{NpUdp S E A} (s s' : S) : Prop :=
  udp_waiting s' = udp_waiting s /\ udp_aborted s' = udp_aborted s.

Class NpUdpLaws (S E A : Type) `{NpUdp S E A} : Prop := {
  udp_resolved_nil : udp_resolved (@nil E) = [];
  udp_resolved_app : forall t t' : list E, udp_resolved (t ++ t') = udp_resolved t ++ udp_resolved t';
  udp_bind_law : forall type an ev (s : S),
    let m := np_udp_async_bind_mdns type an ev in
    udp_same s (exec m s) /\
    exists ec, udp_resolved (trace m s) = [(ev, ec)] /\ (ec = NABTO_EC_OK -> udp_open (exec m s) = true);
  udp_send_law : forall ep data err ev (s : S),
    let m := np_udp_async_send_to ep data err ev in
    exec m s = s /\ exists ec, udp_resolved (trace m s) = [(ev, ec)];
  udp_wait_law : forall ev (s : S),
    udp_open s = true \/ udp_aborted s = true -> udp_waiting s = None ->
    exists s' t, np_udp_async_recv_wait ev s = Def (tt, s', t) /\
      udp_open s' = udp_open s /\ udp_aborted s' = udp_aborted s /\
      (if udp_aborted s then udp_resolved t = [(ev, NABTO_EC_ABORTED)] /\ udp_waiting s' = None
       else udp_resolved t = [] /\ udp_waiting s' = Some ev);
  udp_recv_law : forall size r address port (s : S),
    let m := np_udp_recv_from size r address port in
    exec m s = s /\ udp_resolved (trace m s) = [] /\
    ((result m s).1.1 = NABTO_EC_OK <-> is_Some (result m s).2) /\
    (result m s).2 = match r with inl data => Some data | inr _ => None end;
  udp_abort_law : forall (s : S), (udp_aborted s = true -> udp_waiting s = None) ->
    let s' := exec np_udp_abort s in
    udp_open s' = udp_open s /\ udp_aborted s' = true /\ udp_waiting s' = None /\
    udp_resolved (trace np_udp_abort s) = map (fun ev => (ev, NABTO_EC_ABORTED)) (option_list (udp_waiting s));
  udp_readable_law : forall (s : S),
    let s' := exec udp_readable s in
    udp_open s' = udp_open s /\ udp_aborted s' = udp_aborted s /\ udp_waiting s' = None /\
    udp_resolved (trace udp_readable s) = map (fun ev => (ev, NABTO_EC_OK)) (option_list (udp_waiting s))
}.

(** Binding to a port, with the answers [B] of the system. *)
Class NpUdpPort (S E B : Type) : Type := {
  np_udp_async_bind_port : Z -> B -> nat -> handler S E unit;
  (* the port of the system *)
  np_udp_get_local_port : Z -> S -> Z
}.

Class NpUdpPortLaws (S E A B : Type) `{NpUdp S E A, NpUdpPort S E B} : Prop := {
  udp_bind_port_law : forall port an ev (s : S),
    let m := np_udp_async_bind_port port an ev in
    udp_same s (exec m s) /\
    exists ec, udp_resolved (trace m s) = [(ev, ec)] /\ (ec = NABTO_EC_OK -> udp_open (exec m s) = true)
}.

(** ** Handlers without completions

    [res] are the completions among the calls, [keep] is a part of the state: a quiet handler
    resolves nothing and keeps that part. *)
Section Quiet.
Context {S E K : Type} (res : E -> option (nat * np_error_code)) (keep : S -> K).

Definition quiet {A} (m : handler S E A) : Prop :=
  forall s, omap res (trace m s) = [] /\ keep (exec m s) = keep s.

Lemma quiet_ret {A} (a : A) : quiet (hret a).
Proof. done. Qed.

Lemma quiet_seq {A B} (m : handler S E A) (k : A -> handler S E B) :
  quiet m -> (forall a, quiet (k a)) -> quiet (hbind m k).
Proof.
  intros Hm Hk s. rewrite trace_seq, exec_seq, omap_app. destruct (Hm s) as [-> Ek].
  destruct (Hk (result m s) (exec m s)) as [-> ->]. done.
Qed.

Lemma quiet_get {A} (k : S -> handler S E A) : (forall s, quiet (k s)) -> quiet (hbind hget k).
Proof. intros Hk s. rewrite trace_hget, exec_hget. apply Hk. Qed.

Lemma quiet_mod f : (forall s, keep (f s) = keep s) -> quiet (hmod f).
Proof. intros Hf s. split; [done | apply Hf]. Qed.

Lemma quiet_call c : res c = None -> quiet (emit c).
Proof. intros Hc s. split; [| done]. cbn. by rewrite Hc. Qed.

(** A handler that ends with one completion. *)
Lemma resolved_at_end {A} (m : handler S E A) (post : A -> E) ev ec s :
  quiet m -> (forall a, res (post a) = Some (ev, ec a)) ->
  let m' := hbind m (fun a => emit (post a)) in
  keep (exec m' s) = keep s /\ omap res (trace m' s) = [(ev, ec (result m s))].
Proof.
  intros Hq Hp m'. unfold m'. rewrite exec_seq, trace_seq, omap_app. destruct (Hq s) as [-> Hk].
  split; [done |]. cbn. by rewrite Hp.
Qed.
End Quiet.

Create HintDb quiet.
#[export] Hint Resolve quiet_ret : quiet.
Ltac solve_quiet := repeat first
  [ apply quiet_get; intros ? | apply quiet_seq; [| intros ?] | solve [auto with quiet]
  | apply quiet_call; done | apply quiet_mod; intros []; done | case_match ].
