(* ===== verification/RawKey.v ===== *)
(** * A raw private key of the device (api/nabto_device_experimental.c, api/nabto_device_util.c)

    The application gives the number of an elliptic curve key as 32 bytes; the device stores it in PEM format like any
    other key (DeviceApi.v). Numbers and points are mbedTLS's: a class has its functions, each with the status it
    answers, and a class of laws what the library documents of them. *)

From S2P Require Import Prelude Platform Futures Stream StreamManager Dtls DeviceApi.

#[local] Open Scope Z_scope.
#[local] Open Scope list_scope.
#[local] Open Scope handler_scope.

Definition secp2566r1GroupOrder : list Z :=
  [0xFF; 0xFF; 0xFF; 0xFF; 0x00; 0x00; 0x00; 0x00; 0xFF; 0xFF; 0xFF; 0xFF; 0xFF; 0xFF; 0xFF; 0xFF;
   0xBC; 0xE6; 0xFA; 0xAD; 0xA7; 0x17; 0x9E; 0x84; 0xF3; 0xB9; 0xCA; 0xC2; 0xFC; 0x63; 0x25; 0x51].

(** [kl_pk_setup] and [kl_group_load] answer a status, [kl_pk_ec] whether there is a key pair. [kl_read_binary] writes the
    number if it has memory. [kl_mul d] is [d * G] with its status, [kl_write_key_pem] the text of a key pair. *)
Class KeyLibrary (P : Type) := {
  kl_pk_setup : Z;
  kl_pk_ec : bool;
  kl_group_load : Z;
  kl_read_binary : list Z -> option Z;
  kl_cmp : Z -> Z -> Z;
  kl_mul : Z -> Z * P;
  kl_write_key_pem : Z -> P -> Z * list Z
}.

(** The number whose digits are the bytes, the most significant first. *)
Definition big_endian (b : list Z) : Z := fold_left (fun n x => n * 256 + x) b 0.

Class KeyLaws (P : Type) `{KeyLibrary P} : Prop := {
  kl_read_law b n : kl_read_binary b = Some n -> n = big_endian b;
  kl_cmp_law a b : kl_cmp a b = match a ?= b with Lt => -1 | Eq => 0 | Gt => 1 end
}.

(** Objects of the library are initialized and freed. *)
Inductive key_call : Type :=
| KlInitPk
| KlInitMpi
| KlFreePk
| KlFreeMpi
| KlDevice (c : nabto_device_call).

Section RawKey.
Context {P : Type} `{KeyLibrary P}.

Definition rk_handler (A : Type) : Type := handler nabto_device_context key_call A.

(** A function of the device. *)
Definition rk_on_device {A} (m : nd_handler A) : rk_handler A := fun dev =>
  let '(a, dev, t) := m dev in (a, dev, map KlDevice t).

(** A number that was initialized is zero until it is read; the answers of the two reads are ignored. *)
Definition read_number (b : list Z) : Z := match kl_read_binary b with Some n => n | None => 0 end.

(** [allocated] and [crt] are for [nabto_device_set_private_key]; [crt] is made from the text. *)
Definition nabto_device_set_private_key_secp256r1 (key : list Z) (allocated : bool)
    (crt : list Z -> np_error_code * option (list Z)) : rk_handler np_error_code :=
  if negb (length key =? 32)%nat then hret NABTO_EC_INVALID_ARGUMENT
  else
    emit KlInitPk ;;; emit KlInitMpi ;;;
    if negb (kl_pk_setup =? 0) then hret NABTO_EC_INVALID_STATE
    else if negb kl_pk_ec then hret NABTO_EC_INVALID_STATE
    else if negb (kl_group_load =? 0) then hret NABTO_EC_INVALID_STATE
    else
      let d := read_number key in
      let n := read_number secp2566r1GroupOrder in
      if kl_cmp d 0 =? 0 then hret NABTO_EC_INVALID_ARGUMENT
      else if negb (kl_cmp d n =? -1) then hret NABTO_EC_INVALID_ARGUMENT
      else
        let '(status, Q) := kl_mul d in
        if negb (status =? 0) then hret NABTO_EC_INVALID_STATE
        else
          let '(status, buffer) := kl_write_key_pem d Q in
          if negb (status =? 0) then hret NABTO_EC_INVALID_STATE
          else
            emit KlFreePk ;;; emit KlFreeMpi ;;;
            rk_on_device (nabto_device_set_private_key buffer allocated (crt buffer)).

(** ** Which keys are accepted *)

Definition secp256r1_order : Z := 0xFFFFFFFF00000000FFFFFFFFFFFFFFFFBCE6FAADA7179E84F3B9CAC2FC632551.

Definition valid_key (key : list Z) : Prop := length key = 32%nat /\ 1 <= big_endian key < secp256r1_order.

(** The library does not fail for this key, and writes this text. *)
Definition library_writes (key pem : list Z) : Prop :=
  kl_pk_setup = 0 /\ kl_pk_ec = true /\ kl_group_load = 0 /\ is_Some (kl_read_binary key) /\
  is_Some (kl_read_binary secp2566r1GroupOrder) /\
  exists Q, kl_mul (big_endian key) = (0, Q) /\ kl_write_key_pem (big_endian key) Q = (0, pem).

Lemma big_endian_nonneg b : bytes b -> 0 <= big_endian b.
Proof.
  unfold big_endian. intros Hb. enough (H' : forall n, 0 <= n -> 0 <= fold_left (fun n x => n * 256 + x) b n) by (by apply H').
  induction Hb as [| x b Hx _ IH]; [done |]. intros n Hn. cbn. apply IH. unfold is_byte, is_uint in Hx. lia.
Qed.

Context `{!KeyLaws P}.

Lemma cmp_zero a b : (kl_cmp a b =? 0) = (a =? b).
Proof. rewrite kl_cmp_law. destruct (Z.compare_spec a b); lia. Qed.

Lemma cmp_less a b : (kl_cmp a b =? -1) = (a <? b).
Proof. rewrite kl_cmp_law. destruct (Z.compare_spec a b); lia. Qed.

Lemma read_number_law b : read_number b = match kl_read_binary b with Some _ => big_endian b | None => 0 end.
Proof. unfold read_number. destruct (kl_read_binary b) as [n |] eqn:E; [| done]. by apply kl_read_law. Qed.

(** The test of the code is the range of the group, also when a read fails. *)
Lemma range_test key :
  bytes key ->
  negb (kl_cmp (read_number key) 0 =? 0) && (kl_cmp (read_number key) (read_number secp2566r1GroupOrder) =? -1) = true <->
  1 <= big_endian key < secp256r1_order /\ is_Some (kl_read_binary key) /\ is_Some (kl_read_binary secp2566r1GroupOrder).
Proof.
  intros Hb%big_endian_nonneg. rewrite cmp_zero, cmp_less, !read_number_law, andb_true_iff, negb_true_iff, Z.eqb_neq, Z.ltb_lt.
  change (big_endian secp2566r1GroupOrder) with secp256r1_order.
  destruct (kl_read_binary key), (kl_read_binary secp2566r1GroupOrder); split; intros Hx; try (destruct Hx as (? & [? Hn1] & [? Hn2]); congruence);
    try lia; (split; [lia | by split]) || idtac.
Qed.

(** What was initialized is freed only when the text was written. *)
Definition key_calls (inited written : bool) : list key_call :=
  (if inited then [KlInitPk; KlInitMpi] else []) ++ (if written then [KlFreePk; KlFreeMpi] else []).

(** The ways a call can end. *)
Inductive key_outcome (key : list Z) (allocated : bool) (crt : list Z -> np_error_code * option (list Z)) (dev : nabto_device_context) :
    np_error_code * nabto_device_context * list key_call -> Prop :=
| key_set pem :
    valid_key key -> library_writes key pem ->
    key_outcome key allocated crt dev
      (let '(ec, dev', _) := nabto_device_set_private_key pem allocated (crt pem) dev in (ec, dev', key_calls true true))
| key_refused ec :
    (forall pem, ~ (valid_key key /\ library_writes key pem)) -> ec = NABTO_EC_INVALID_ARGUMENT \/ ec = NABTO_EC_INVALID_STATE ->
    (valid_key key \/ kl_pk_setup <> 0 \/ kl_pk_ec = false \/ kl_group_load <> 0 \/ ec = NABTO_EC_INVALID_ARGUMENT) ->
    key_outcome key allocated crt dev (ec, dev, key_calls (bool_decide (length key = 32%nat)) false).

Lemma set_private_key_calls pem allocated crt dev : trace (nabto_device_set_private_key pem allocated crt) dev = [].
Proof. unfold nabto_device_set_private_key. by destruct allocated. Qed.

Lemma key_outcomes key allocated crt dev :
  bytes key -> key_outcome key allocated crt dev (nabto_device_set_private_key_secp256r1 key allocated crt dev).
Proof.
  intros Hb. unfold nabto_device_set_private_key_secp256r1.
  destruct (Nat.eqb_spec (length key) 32) as [Hlen | Hlen]; cbn [negb].
  2:{ assert (Hx : key_outcome key allocated crt dev (NABTO_EC_INVALID_ARGUMENT, dev, key_calls (bool_decide (length key = 32%nat)) false))
        by (apply key_refused; [by intros pem [[? _] _] | by left | by do 4 right]).
      by rewrite bool_decide_eq_false_2 in Hx. }
  assert (Hr : forall ec, (forall pem, ~ (valid_key key /\ library_writes key pem)) -> ec = NABTO_EC_INVALID_ARGUMENT \/ ec = NABTO_EC_INVALID_STATE ->
    (valid_key key \/ kl_pk_setup <> 0 \/ kl_pk_ec = false \/ kl_group_load <> 0 \/ ec = NABTO_EC_INVALID_ARGUMENT) ->
    key_outcome key allocated crt dev (ec, dev, [KlInitPk; KlInitMpi])).
  { intros ec H1 H2 H3. pose proof (key_refused key allocated crt dev ec H1 H2 H3) as Hx. by rewrite bool_decide_eq_true_2 in Hx. }
  destruct (Z.eqb_spec kl_pk_setup 0) as [Hs | Hs]; cbn [negb];
    [| apply Hr; [by intros pem (_ & ? & _) | by right | by right; left]].
  destruct kl_pk_ec eqn:He; cbn [negb]; [| apply Hr; [by intros pem (_ & _ & ? & _) ; congruence | by right | by do 2 right; left]].
  destruct (Z.eqb_spec kl_group_load 0) as [Hg | Hg]; cbn [negb];
    [| apply Hr; [by intros pem (_ & _ & _ & ? & _) | by right | by do 3 right; left]].
  pose proof (range_test key Hb) as Hrange.
  destruct (kl_cmp (read_number key) 0 =? 0) eqn:E0; cbn [negb andb] in *.
  { apply Hr; [| by left | by do 4 right]. intros pem [[_ Hv] (_ & _ & _ & Hk & Ho & _)].
    by assert (false = true) by by apply Hrange. }
  destruct (kl_cmp (read_number key) (read_number secp2566r1GroupOrder) =? -1) eqn:E1; cbn [negb].
  2:{ apply Hr; [| by left | by do 4 right]. intros pem [[_ Hv] (_ & _ & _ & Hk & Ho & _)].
      by assert (false = true) by by apply Hrange. }
  destruct (proj1 Hrange eq_refl) as (Hv & Hk & Ho). assert (Hvalid : valid_key key) by done.
  rewrite read_number_law in *. destruct Hk as [k Hk]. rewrite Hk in *.
  destruct (kl_mul (big_endian key)) as [status Q] eqn:Em. destruct (Z.eqb_spec status 0) as [-> | Hst]; cbn [negb];
    [| apply Hr; [intros pem (_ & _ & _ & _ & _ & _ & Q' & ? & _); congruence | by right | by left]].
  destruct (kl_write_key_pem (big_endian key) Q) as [status pem] eqn:Ew. destruct (Z.eqb_spec status 0) as [-> | Hst]; cbn [negb];
    [| apply Hr; [intros pem' (_ & _ & _ & _ & _ & _ & Q' & Em' & Ew'); congruence | by right | by left]].
  pose proof (key_set key allocated crt dev pem Hvalid) as Hset. unfold rk_on_device. pose proof (set_private_key_calls pem allocated (crt pem) dev) as Hc.
  unfold trace in Hc. cbn -[nabto_device_set_private_key]. destruct (nabto_device_set_private_key pem allocated (crt pem) dev) as [[ec dev'] t].
  cbn in Hc. subst t. apply Hset. repeat (split; [done || by eexists |]). by exists Q.
Qed.

(** C40. A raw private key is set exactly when it is one: 32 bytes that give a number from 1 to the order of the group
    less 1, also when reading a number fails. If the library does not fail for such a key, its text becomes the key of
    the device with the certificate that is made from it, and the answer is that of the certificate; what the library
    allocated is freed. In every other case the device is as before, the answer is an error, which says that the argument
    is invalid when the library works, and nothing of what was initialized is freed. *)
Theorem private_key_range key allocated crt dev :
  bytes key ->
  let '(ec, dev', t) := nabto_device_set_private_key_secp256r1 key allocated crt dev in
  (forall pem, valid_key key -> library_writes key pem ->
     t = [KlInitPk; KlInitMpi; KlFreePk; KlFreeMpi] /\
     (if allocated : bool
      then dev' = dev {{ nd_privateKey := Some pem }} {{ nd_publicKey := (crt pem).2 }} /\ ec = nabto_device_error_core_to_api (crt pem).1
      else dev' = dev {{ nd_privateKey := None }} /\ ec = NABTO_EC_OUT_OF_MEMORY)) /\
  ((forall pem, ~ (valid_key key /\ library_writes key pem)) ->
     dev' = dev /\ is_error ec = true /\ KlFreePk ∉ t /\ KlFreeMpi ∉ t) /\
  (kl_pk_setup = 0 -> kl_pk_ec = true -> kl_group_load = 0 -> ~ valid_key key -> ec = NABTO_EC_INVALID_ARGUMENT) /\
  (ec = NABTO_EC_OK -> valid_key key /\ exists pem, library_writes key pem /\ nd_privateKey dev' = Some pem).
Proof.
  intros Hb. pose proof (key_outcomes key allocated crt dev Hb) as Hout.
  destruct (nabto_device_set_private_key_secp256r1 key allocated crt dev) as [[ec dev'] t].
  inversion Hout as [pem Hv Hw E | ec' Hno Hec Hwhy E]; subst; clear Hout.
  - pose proof (Hw) as (_ & _ & _ & _ & _ & Q & Em & Ew). unfold nabto_device_set_private_key in E.
    split; [| split; [intros Hno; by destruct (Hno pem) | split; [done |]]].
    + intros pem' _ (_ & _ & _ & _ & _ & Q' & Em' & Ew'). assert (pem' = pem) as -> by congruence.
      destruct allocated; by inversion E.
    + intros ->. split; [done |]. exists pem. split; [done |]. by destruct allocated; inversion E.
  - split; [intros pem Hv Hw; by destruct (Hno pem) |]. split; [| split].
    + intros _. split; [done |]. split; [by destruct Hec as [-> | ->] |]. case_bool_decide; split; intros Hin; repeat (apply elem_of_cons in Hin as [? | Hin]; [done |]); by apply not_elem_of_nil in Hin.
    + intros H1 H2 H3 H4. destruct Hwhy as [? | [? | [? | [? | ?]]]]; congruence.
    + intros ->. by destruct Hec.
Qed.

Definition nabto_device_create_private_key (seed setup gen_key write_pem : Z) (duplicate : option (list Z)) :
    np_error_code * option (list Z) :=
  let '(ec, privateKey) := nm_dtls_util_create_private_key seed setup gen_key write_pem duplicate in
  (nabto_device_error_core_to_api ec, privateKey).
End RawKey.

Section Segments.
Context {L H : Type} `{NabtoStream L, LList H}.

Definition nabto_device_limit_stream_segments (limit : Z) : sg_handler (L := L) (H := H) np_error_code :=
  nc_stream_manager_set_max_segments limit ;;; hret NABTO_EC_OK.
End Segments.

(** ** Examples *)

(** Points are numbers, the text has the last byte of the number. *)
#[local] Instance toy_keys : KeyLibrary Z := {|
  kl_pk_setup := 0;
  kl_pk_ec := true;
  kl_group_load := 0;
  kl_read_binary b := Some (big_endian b);
  kl_cmp a b := match a ?= b with Lt => -1 | Eq => 0 | Gt => 1 end;
  kl_mul d := (0, d);
  kl_write_key_pem d Q := (0, [d mod 256])
|}.

#[local] Instance toy_key_laws : KeyLaws Z.
Proof. split; [by intros b n [= ->] | done]. Qed.

Definition key_of (last : Z) : list Z := replicate 31 0 ++ [last].

(** The key zero is refused, and what was initialized is not freed. *)
Example zero_key_leaks :
  nabto_device_set_private_key_secp256r1 (key_of 0) true (fun _ => (NABTO_EC_OK, None)) nabto_device_zero =
    (NABTO_EC_INVALID_ARGUMENT, nabto_device_zero, [KlInitPk; KlInitMpi]).
Proof. vm_compute. reflexivity. Qed.

(** The order of the group is refused, the number before it is a key. *)
Example order_is_refused :
  (nabto_device_set_private_key_secp256r1 secp2566r1GroupOrder true (fun _ => (NABTO_EC_OK, None)) nabto_device_zero).1.1 =
    NABTO_EC_INVALID_ARGUMENT /\
  (nabto_device_set_private_key_secp256r1 (take 31 secp2566r1GroupOrder ++ [0x50]) true (fun _ => (NABTO_EC_OK, None))
    nabto_device_zero).1.1 = NABTO_EC_OK.
Proof. split; vm_compute; reflexivity. Qed.

Lemma private_key_range_witness :
  nabto_device_set_private_key_secp256r1 (key_of 7) true (fun pem => (NABTO_EC_OK, Some pem)) nabto_device_zero =
    (NABTO_EC_OK, nabto_device_zero {{ nd_privateKey := Some [7] }} {{ nd_publicKey := Some [7] }},
     [KlInitPk; KlInitMpi; KlFreePk; KlFreeMpi]).
Proof.
  assert (Hb : bytes (key_of 7)) by (apply (bool_decide_unpack _); vm_compute; exact I).
  pose proof (private_key_range (key_of 7) true (fun pem => (NABTO_EC_OK, Some pem)) nabto_device_zero Hb) as Hx.
  destruct (nabto_device_set_private_key_secp256r1 (key_of 7) true _ _) as [[ec dev'] t]. destruct Hx as [Hx _].
  destruct (Hx [7]) as (-> & -> & ->); [split; [reflexivity |]; vm_compute; by split | | reflexivity].
  repeat (split; [reflexivity || by eexists |]). exists 7. split; vm_compute; reflexivity.
Defined.
