(* ===== verification/SelectSockets.v ===== *)
(** * Sockets of the select module (nm_select_unix_udp.c, nm_select_unix_mdns_udp_bind.c,
      nm_select_unix_tcp.c, np_completion_event.c)

    Non-blocking sockets whose operations end with a completion event. What the operating system
    answers are arguments, the calls to it are the trace. The module is built for Linux: the
    sockets are made non-blocking by [SOCK_NONBLOCK], and [EAGAIN] is [EWOULDBLOCK]. *)

From S2P Require Import Prelude Platform Udp.

#[local] Open Scope Z_scope.
#[local] Open Scope list_scope.
#[local] Open Scope handler_scope.

Definition EAGAIN : Z := 11.
Definition EWOULDBLOCK : Z := 11.
Definition EINPROGRESS : Z := 115.

Inductive os_call : Type :=
| OsSocket (type : np_ip_address_type) (stream : bool)
| OsSetOption (fd : Z) (option : string) (value : Z)
| OsJoinGroup (fd : Z) (type : np_ip_address_type) (interface : Z)
| OsBind (fd : Z) (type : np_ip_address_type) (port : Z)
| OsConnect (fd : Z) (address : list Z) (port : Z)
| OsSend (fd : Z) (data : list Z)
| OsSendTo (fd : Z) (address : np_ip_address) (port : Z) (data : list Z)
| OsRecv (fd : Z) (size : nat)
| OsShutdown (fd : Z) (how : string)
| OsClose (fd : Z)
| OsNotify                                       (* a byte into the pipe: select returns *)
| OsPost (ev : nat) (ec : np_error_code)         (* the event of a completion *)
| OsErase                                        (* nn_llist_erase_node *)
| OsFree.

(** [np_completion_event_resolve] sets the code and posts the event, which calls back with it. *)
Definition np_completion_event_resolve {S} (ev : nat) (ec : np_error_code) : handler S os_call unit :=
  emit (OsPost ev ec).

Definition resolved_events (t : list os_call) : list nat :=
  omap (fun c => match c with OsPost ev _ => Some ev | _ => None end) t.

(** ** UDP *)

Record np_udp_socket : Type := mk_us {
  us_sock : Z;
  us_type : np_ip_address_type;
  us_aborted : bool;
  us_recv : option nat                            (* recv.completionEvent *)
}.

Definition us_handler (A : Type) : Type := handler np_udp_socket os_call A.

(** [calloc], and [sock = -1]; adding to the list of sockets is in SelectUnix.v. *)
Definition udp_socket_new : np_udp_socket := mk_us (-1) NABTO_IPV4 false None.

(** What [socket], [setsockopt] and [bind] answer. *)
Record bind_answers : Type := mk_ba {
  ba_sock6 : Z;
  ba_sock4 : Z;
  ba_v6only : bool;
  ba_bind : bool
}.

Definition create_socket_any (an : bind_answers) : us_handler np_error_code :=
  emit (OsSocket NABTO_IPV6 false) ;;;
  if ba_sock6 an =? -1 then
    emit (OsSocket NABTO_IPV4 false) ;;;
    let* s := hget in
    if us_sock s =? -1 then hret NABTO_EC_UDP_SOCKET_CREATION_ERROR
    else
      hmod (fun s => s {{ us_type := NABTO_IPV4 }}) ;;;
      hmod (fun s => s {{ us_sock := ba_sock4 an }}) ;;;
      hret NABTO_EC_OK
  else
    hmod (fun s => s {{ us_type := NABTO_IPV6 }}) ;;;
    emit (OsSetOption (ba_sock6 an) "IPV6_V6ONLY" 0) ;;;
    if negb (ba_v6only an) then
      let* s := hget in emit (OsClose (us_sock s)) ;;; hret NABTO_EC_UDP_SOCKET_CREATION_ERROR
    else
      hmod (fun s => s {{ us_sock := ba_sock6 an }}) ;;;
      hret NABTO_EC_OK.

Definition bind_port (port : Z) (an : bind_answers) : us_handler np_error_code :=
  let* s := hget in
  emit (OsBind (us_sock s) (us_type s) port) ;;;
  hret (if ba_bind an then NABTO_EC_OK else NABTO_EC_UDP_SOCKET_CREATION_ERROR).

Definition nm_select_unix_udp_async_bind_port_ec (port : Z) (an : bind_answers) : us_handler np_error_code :=
  let* s := hget in
  if us_aborted s then hret NABTO_EC_ABORTED
  else
    let* ec := create_socket_any an in
    if is_error ec then hret ec
    else
      let* ec := bind_port port an in
      (if is_error ec then let* s := hget in emit (OsClose (us_sock s)) else hskip) ;;;
      hret NABTO_EC_OK.

Definition nm_select_unix_udp_async_bind_port (port : Z) (an : bind_answers) (completionEvent : nat) : us_handler unit :=
  let* ec := nm_select_unix_udp_async_bind_port_ec port an in
  np_completion_event_resolve completionEvent ec.

(** [sendto]: [None] when it sent the packet, otherwise the error. *)
Definition udp_send_to (ep : np_udp_endpoint) (buffer : list Z) (err : option Z) : us_handler np_error_code :=
  let* s := hget in
  let send (ip : np_ip_address) :=
    emit (OsSendTo (us_sock s) ip (ep_port ep) buffer) ;;;
    hret (match err with
          | None => NABTO_EC_OK
          | Some status => if (status =? EAGAIN) || (status =? EWOULDBLOCK) then NABTO_EC_OK
                           else NABTO_EC_FAILED_TO_SEND_PACKET
          end) in
  if bool_decide (us_type s = ip_type (ep_ip ep)) then send (ep_ip ep)
  else if bool_decide (us_type s = NABTO_IPV6) && bool_decide (ip_type (ep_ip ep) = NABTO_IPV4)
  then send (np_ip_convert_v4_to_v4_mapped (ep_ip ep) zero_ip)
  else if bool_decide (us_type s = NABTO_IPV4) && np_ip_is_v4_mapped (ep_ip ep)
  then send (np_ip_convert_v4_mapped_to_v4 (ep_ip ep) zero_ip)
  else hret NABTO_EC_FAILED_TO_SEND_PACKET.

Definition nm_select_unix_udp_async_send_to_ec (ep : np_udp_endpoint) (buffer : list Z) (err : option Z) :
    us_handler np_error_code :=
  let* s := hget in
  if us_aborted s then hret NABTO_EC_ABORTED else udp_send_to ep buffer err.

Definition nm_select_unix_udp_async_send_to (ep : np_udp_endpoint) (buffer : list Z) (err : option Z)
    (completionEvent : nat) : us_handler unit :=
  let* ec := nm_select_unix_udp_async_send_to_ec ep buffer err in
  np_completion_event_resolve completionEvent ec.

Definition nm_select_unix_udp_async_recv_wait (completionEvent : nat) : us_handler unit :=
  let* s := hget in
  if us_aborted s then np_completion_event_resolve completionEvent NABTO_EC_ABORTED
  else
    match us_recv s with
    | Some _ => np_completion_event_resolve completionEvent NABTO_EC_OPERATION_IN_PROGRESS
    | None => hmod (fun s => s {{ us_recv := Some completionEvent }}) ;;; emit OsNotify
    end.

(** [recvfrom]: the data or the error; [address] and [port] are those of the sender. *)
Definition udp_recv_from (size : nat) (r : list Z + Z) (address : list Z) (port : Z) :
    us_handler (np_error_code * np_udp_endpoint * option (list Z)) :=
  let* s := hget in
  emit (OsRecv (us_sock s) size) ;;;
  let ep := mk_ep (mk_ip (us_type s) address) port in
  hret (match r with
        | inl data => (NABTO_EC_OK, ep, Some data)
        | inr status =>
            (if (status =? EAGAIN) || (status =? EWOULDBLOCK) then NABTO_EC_AGAIN else NABTO_EC_UDP_SOCKET_ERROR,
             ep, None)
        end).

Definition nm_select_unix_udp_recv_from := udp_recv_from.

(** [port]: the one of [getsockname]. *)
Definition nm_select_unix_udp_get_local_port (port : Z) (s : np_udp_socket) : Z :=
  if us_aborted s then 0 else port.

Definition nm_select_unix_udp_abort : us_handler unit :=
  let* s := hget in
  (if negb (us_aborted s) then hmod (fun s => s {{ us_aborted := true }}) else hskip) ;;;
  match us_recv s with
  | Some ev => hmod (fun s => s {{ us_recv := None }}) ;;; np_completion_event_resolve ev NABTO_EC_ABORTED
  | None => hskip
  end.

Definition nm_select_unix_udp_handle_event : us_handler unit :=
  let* s := hget in
  match us_recv s with
  | Some ev => hmod (fun s => s {{ us_recv := None }}) ;;; np_completion_event_resolve ev NABTO_EC_OK
  | None => hskip
  end.

Definition nm_select_unix_udp_free_socket : us_handler unit :=
  emit OsErase ;;;
  nm_select_unix_udp_abort ;;;
  let* s := hget in
  emit (OsShutdown (us_sock s) "RDWR") ;;; emit (OsClose (us_sock s)) ;;; emit OsFree.

(** A NULL socket is not destroyed. *)
Definition nm_select_unix_udp_destroy : us_handler unit := nm_select_unix_udp_free_socket.

(** ** Sockets of mDNS *)

Definition create_socket_ipv6 (sock : Z) : us_handler np_error_code :=
  emit (OsSocket NABTO_IPV6 false) ;;;
  if sock =? -1 then hret NABTO_EC_UDP_SOCKET_CREATION_ERROR
  else
    emit (OsSetOption sock "IPV6_V6ONLY" 0) ;;;
    hmod (fun s => s {{ us_type := NABTO_IPV6; us_sock := sock }}) ;;;
    hret NABTO_EC_OK.

Definition create_socket_ipv4 (sock : Z) : us_handler np_error_code :=
  emit (OsSocket NABTO_IPV4 false) ;;;
  if sock =? -1 then hret NABTO_EC_UDP_SOCKET_CREATION_ERROR
  else hmod (fun s => s {{ us_type := NABTO_IPV4; us_sock := sock }}) ;;; hret NABTO_EC_OK.

(** [reuse], [bound]: whether the options can be set and the port can be bound. *)
Definition init_mdns_socket (type : np_ip_address_type) (sock : Z) (reuse reusePort bound : bool) : us_handler bool :=
  emit (OsSetOption sock "SO_REUSEADDR" 1) ;;;
  if negb reuse then hret false
  else
    emit (OsSetOption sock "SO_REUSEPORT" 1) ;;;
    if negb reusePort then hret false
    else
      emit (OsBind sock type 5353) ;;;
      if negb bound then hret false else emit (OsJoinGroup sock type 0) ;;; hret true.

Definition init_mdns_ipv6_socket := init_mdns_socket NABTO_IPV6.
Definition init_mdns_ipv4_socket := init_mdns_socket NABTO_IPV4.

(** The interfaces: whether they have an address, and their index; errors are ignored. *)
Fixpoint mdns_update_socket_registration (type : np_ip_address_type) (sock : Z) (interfaces : list (bool * Z)) :
    us_handler unit :=
  match interfaces with
  | [] => hskip
  | (hasAddr, index) :: rest =>
      hwhen hasAddr (emit (OsJoinGroup sock type index)) ;;; mdns_update_socket_registration type sock rest
  end.

Definition mdns_update_ipv4_socket_registration := mdns_update_socket_registration NABTO_IPV4.
Definition mdns_update_ipv6_socket_registration := mdns_update_socket_registration NABTO_IPV6.

(** What the system answers to a bind for mDNS. *)
Record mdns_answers : Type := mk_ma {
  ma_sock : Z;
  ma_reuse : bool;
  ma_reusePort : bool;
  ma_bind : bool;
  ma_interfaces : list (bool * Z)
}.

Definition nm_select_unix_async_bind_mdns_ipv4_ec (an : mdns_answers) : us_handler np_error_code :=
  let* s := hget in
  if us_aborted s then hret NABTO_EC_ABORTED
  else
    let* ec := create_socket_ipv4 (ma_sock an) in
    if is_error ec then hret ec
    else
      let* s := hget in
      let* ok := init_mdns_ipv4_socket (us_sock s) (ma_reuse an) (ma_reusePort an) (ma_bind an) in
      if negb ok then emit (OsClose (us_sock s)) ;;; hret NABTO_EC_UDP_SOCKET_CREATION_ERROR
      else mdns_update_ipv4_socket_registration (us_sock s) (ma_interfaces an) ;;; hret NABTO_EC_OK.

Definition nm_select_unix_async_bind_mdns_ipv4 (an : mdns_answers) (completionEvent : nat) : us_handler unit :=
  let* ec := nm_select_unix_async_bind_mdns_ipv4_ec an in np_completion_event_resolve completionEvent ec.

Definition nm_select_unix_async_bind_mdns_ipv6_ec (an : mdns_answers) : us_handler np_error_code :=
  let* s := hget in
  if us_aborted s then hret NABTO_EC_ABORTED
  else
    let* ec := create_socket_ipv6 (ma_sock an) in
    if is_error ec then hret ec
    else
      let* s := hget in
      emit (OsSetOption (us_sock s) "IPV6_V6ONLY" 0) ;;;
      let* ok := init_mdns_ipv6_socket (us_sock s) (ma_reuse an) (ma_reusePort an) (ma_bind an) in
      if negb ok then emit (OsClose (us_sock s)) ;;; hret NABTO_EC_UDP_SOCKET_CREATION_ERROR
      else mdns_update_ipv6_socket_registration (us_sock s) (ma_interfaces an) ;;; hret NABTO_EC_OK.

Definition nm_select_unix_async_bind_mdns_ipv6 (an : mdns_answers) (completionEvent : nat) : us_handler unit :=
  let* ec := nm_select_unix_async_bind_mdns_ipv6_ec an in np_completion_event_resolve completionEvent ec.

(** ** TCP *)

(** [ts_writeData]: the rest of the data that is being written; [ts_readSize]: the size of the buffer. *)
Record np_tcp_socket : Type := mk_ts {
  ts_fd : Z;
  ts_connect : option nat;
  ts_write : option nat;
  ts_writeData : list Z;
  ts_read : option nat;
  ts_readSize : nat;
  ts_aborted : bool
}.

Definition ts_handler (A : Type) : Type := handler np_tcp_socket os_call A.

(** [create], without the list of sockets. *)
Definition tcp_socket_new : np_tcp_socket := mk_ts (-1) None None [] None 0 false.

(** [connect]: it connects, goes on, or fails. *)
Inductive connect_answer : Type := Connected | ConnectWaits | ConnectFails.

(** [sock]: the answer of [socket]. The options that cannot be set are only logged. *)
Definition async_connect_ec (address : np_ip_address) (port : Z) (sock : Z) (connect : connect_answer) :
    ts_handler np_error_code :=
  emit (OsSocket (ip_type address) true) ;;;
  if sock <? 0 then hret NABTO_EC_UNKNOWN
  else
    hmod (fun s => s {{ ts_fd := sock }}) ;;;
    emit (OsSetOption sock "TCP_NODELAY" 1) ;;;
    emit (OsSetOption sock "SO_KEEPALIVE" 1) ;;;
    emit (OsSetOption sock "TCP_KEEPCNT" 9) ;;;
    emit (OsSetOption sock "TCP_KEEPIDLE" 60) ;;;
    emit (OsSetOption sock "TCP_KEEPINTVL" 60) ;;;
    emit (OsConnect sock (match ip_type address with NABTO_IPV4 => ip_v4 address | NABTO_IPV6 => ip_v6 address end) port) ;;;
    match connect with
    | Connected => hret NABTO_EC_OK
    | ConnectFails => hret NABTO_EC_UNKNOWN
    | ConnectWaits => emit OsNotify ;;; hret NABTO_EC_AGAIN
    end.

Definition async_connect (address : np_ip_address) (port : Z) (completionEvent : nat) (sock : Z)
    (connect : connect_answer) : ts_handler unit :=
  let* s := hget in
  if ts_aborted s then np_completion_event_resolve completionEvent NABTO_EC_ABORTED
  else
    match ts_connect s with
    | Some _ => np_completion_event_resolve completionEvent NABTO_EC_OPERATION_IN_PROGRESS
    | None =>
        hmod (fun s => s {{ ts_connect := Some completionEvent }}) ;;;
        let* ec := async_connect_ec address port sock connect in
        if ec_eqb ec NABTO_EC_AGAIN then hskip
        else
          hmod (fun s => s {{ ts_connect := None }}) ;;;
          np_completion_event_resolve completionEvent ec
    end.

(** [so_error]: what [getsockopt] says, when it succeeds. *)
Definition is_connected_ec (so_error : option Z) : np_error_code :=
  match so_error with
  | None => NABTO_EC_UNKNOWN
  | Some err => if err =? 0 then NABTO_EC_OK else if err =? EINPROGRESS then NABTO_EC_AGAIN else NABTO_EC_UNKNOWN
  end.

Definition is_connected (so_error : option Z) : ts_handler unit :=
  let* s := hget in
  match ts_connect s with
  | None => hskip
  | Some ev =>
      let ec := is_connected_ec so_error in
      if negb (ec_eqb ec NABTO_EC_AGAIN) then
        hmod (fun s => s {{ ts_connect := None }}) ;;; np_completion_event_resolve ev ec
      else hskip
  end.

(** [sent]: the answer of [send], the number of bytes or -1; the test looks at it and not at [errno]. *)
Definition tcp_do_write_ec (sent : Z) : ts_handler np_error_code :=
  let* s := hget in
  emit (OsSend (ts_fd s) (ts_writeData s)) ;;;
  if sent <? 0 then
    if (sent =? EAGAIN) || (sent =? EWOULDBLOCK) then hret NABTO_EC_AGAIN else hret NABTO_EC_UNKNOWN
  else
    hmod (fun s => s {{ ts_writeData ::= drop (Z.to_nat sent) }}) ;;;
    let* s := hget in
    if (0 <? length (ts_writeData s))%nat then hret NABTO_EC_AGAIN else hret NABTO_EC_OK.

Definition tcp_do_write (sent : Z) : ts_handler unit :=
  let* s := hget in
  match ts_write s with
  | None => hskip
  | Some _ =>
      let* ec := tcp_do_write_ec sent in
      if negb (ec_eqb ec NABTO_EC_AGAIN) then
        let* s := hget in
        hmod (fun s => s {{ ts_write := None }}) ;;;
        match ts_write s with Some ev => np_completion_event_resolve ev ec | None => hskip end
      else hskip
  end.

Definition async_write_ec (data : list Z) : ts_handler np_error_code :=
  hmod (fun s => s {{ ts_writeData := data }}) ;;; emit OsNotify ;;; hret NABTO_EC_AGAIN.

Definition async_write (data : list Z) (completionEvent : nat) : ts_handler unit :=
  let* s := hget in
  if ts_aborted s then np_completion_event_resolve completionEvent NABTO_EC_ABORTED
  else
    match ts_write s with
    | Some _ => np_completion_event_resolve completionEvent NABTO_EC_OPERATION_IN_PROGRESS
    | None =>
        hmod (fun s => s {{ ts_write := Some completionEvent }}) ;;;
        let* ec := async_write_ec data in
        if negb (ec_eqb ec NABTO_EC_AGAIN) then
          hmod (fun s => s {{ ts_write := None }}) ;;; np_completion_event_resolve completionEvent ec
        else hskip
    end.

(** [recv]: the data or the error; the data is what is in the buffer of the reader afterwards. *)
Definition tcp_do_read_ec (r : list Z + Z) : ts_handler np_error_code :=
  let* s := hget in
  emit (OsRecv (ts_fd s) (ts_readSize s)) ;;;
  hret (match r with
        | inr errno => if (errno =? EAGAIN) || (errno =? EWOULDBLOCK) then NABTO_EC_AGAIN else NABTO_EC_UNKNOWN
        | inl [] => NABTO_EC_EOF
        | inl _ => NABTO_EC_OK
        end).

Definition tcp_do_read (r : list Z + Z) : ts_handler unit :=
  let* s := hget in
  match ts_read s with
  | None => hskip
  | Some ev =>
      let* ec := tcp_do_read_ec r in
      if negb (ec_eqb ec NABTO_EC_AGAIN) then
        hmod (fun s => s {{ ts_read := None }}) ;;; np_completion_event_resolve ev ec
      else hskip
  end.

Definition async_read (bufferSize : nat) (completionEvent : nat) : ts_handler unit :=
  let* s := hget in
  if ts_aborted s then np_completion_event_resolve completionEvent NABTO_EC_ABORTED
  else
    match ts_read s with
    | Some _ => np_completion_event_resolve completionEvent NABTO_EC_OPERATION_IN_PROGRESS
    | None =>
        hmod (fun s => s {{ ts_readSize := bufferSize }}) ;;;
        hmod (fun s => s {{ ts_read := Some completionEvent }}) ;;;
        emit OsNotify
    end.

Definition tcp_shutdown : ts_handler unit := let* s := hget in emit (OsShutdown (ts_fd s) "WR").

Definition tcp_abort : ts_handler unit :=
  let* s := hget in
  if ts_aborted s then hskip
  else
    hmod (fun s => s {{ ts_aborted := true }}) ;;;
    match ts_read s with
    | Some ev => hmod (fun s => s {{ ts_read := None }}) ;;; np_completion_event_resolve ev NABTO_EC_ABORTED
    | None => hskip
    end ;;;
    match ts_write s with
    | Some ev => hmod (fun s => s {{ ts_write := None }}) ;;; np_completion_event_resolve ev NABTO_EC_ABORTED
    | None => hskip
    end ;;;
    match ts_connect s with
    | Some ev => hmod (fun s => s {{ ts_connect := None }}) ;;; np_completion_event_resolve ev NABTO_EC_ABORTED
    | None => hskip
    end.

Definition nm_select_unix_tcp_free_socket : ts_handler unit :=
  emit OsErase ;;;
  tcp_abort ;;;
  let* s := hget in
  emit (OsShutdown (ts_fd s) "RDWR") ;;; emit (OsClose (ts_fd s)) ;;; emit OsFree.

(** A NULL socket is not destroyed. *)
Definition tcp_destroy : ts_handler unit := nm_select_unix_tcp_free_socket.

(** ** What sockets do in the end *)

(** The part of [nm_select_unix_tcp_handle_select] for a socket: whether it is in the sets. *)
Definition tcp_handle_ready (readable writable : bool) (r : list Z + Z) (so_error : option Z) (sent : Z) : ts_handler unit :=
  hwhen readable (tcp_do_read r) ;;;
  hwhen writable (
    (let* s := hget in if from_option (fun _ => true) false (ts_connect s) then is_connected so_error else hskip) ;;;
    (let* s := hget in if from_option (fun _ => true) false (ts_write s) then tcp_do_write sent else hskip)).

Inductive tcp_input : Type :=
| TiConnect (address : np_ip_address) (port : Z) (ev : nat) (sock : Z) (connect : connect_answer)
| TiWrite (data : list Z) (ev : nat)
| TiRead (size : nat) (ev : nat)
| TiSelect (readable writable : bool) (r : list Z + Z) (so_error : option Z) (sent : Z)
| TiShutdown
| TiAbort.

Definition tcp_step (i : tcp_input) : ts_handler unit :=
  match i with
  | TiConnect address port ev sock connect => async_connect address port ev sock connect
  | TiWrite data ev => async_write data ev
  | TiRead size ev => async_read size ev
  | TiSelect readable writable r so_error sent => tcp_handle_ready readable writable r so_error sent
  | TiShutdown => tcp_shutdown
  | TiAbort => tcp_abort
  end.

Definition given_event (i : tcp_input) : list nat :=
  match i with TiConnect _ _ ev _ _ | TiWrite _ ev | TiRead _ ev => [ev] | _ => [] end.

Definition pending_events (s : np_tcp_socket) : list nat :=
  option_list (ts_read s) ++ option_list (ts_write s) ++ option_list (ts_connect s).

(** The data the writes were started with, the data the system took, and whether a write failed. *)
Record tcp_ghost : Type := mk_tg {
  tg_asked : list Z;
  tg_sent : list Z;
  tg_failed : bool
}.

Definition tcp_ghost_step (i : tcp_input) (s : np_tcp_socket) (g : tcp_ghost) : tcp_ghost :=
  match i, ts_write s with
  | TiWrite data _, None => if ts_aborted s then g else g {{ tg_asked ::= fun l => l ++ data }}
  | TiSelect _ true _ _ sent, Some _ =>
      g {{ tg_sent ::= fun l => l ++ take (Z.to_nat sent) (ts_writeData s);
           tg_failed ::= fun b => b || (sent <? 0) }}
  | TiAbort, Some _ => g {{ tg_failed := true }}
  | _, _ => g
  end.

Inductive tcp_reachable : list nat -> list os_call -> tcp_ghost -> np_tcp_socket -> Prop :=
| tcp_init : tcp_reachable [] [] (mk_tg [] [] false) tcp_socket_new
| tcp_does given t g s i :
    tcp_reachable given t g s ->
    tcp_reachable (given ++ given_event i) (t ++ trace (tcp_step i) s) (tcp_ghost_step i s g) (exec (tcp_step i) s).

Definition tcp_inv (g : tcp_ghost) (s : np_tcp_socket) : Prop :=
  (ts_aborted s = true -> pending_events s = []) /\
  (tg_failed g = false ->
   tg_sent g ++ ts_writeData s = tg_asked g /\ (ts_write s = None -> ts_writeData s = [])).

Lemma resolved_events_app t t' : resolved_events (t ++ t') = resolved_events t ++ resolved_events t'.
Proof. apply omap_app. Qed.

(** The events of a step: those that waited and the new one are resolved or wait. *)
Definition events_kept (given : list nat) (s : np_tcp_socket) (m : ts_handler unit) : Prop :=
  pending_events s ++ given ≡ₚ resolved_events (trace m s) ++ pending_events (exec m s).

Lemma events_skip s : events_kept [] s hskip.
Proof. unfold events_kept. cbn. by rewrite app_nil_r. Qed.

Lemma events_seq given s m k :
  events_kept given s m -> events_kept [] (exec m s) k -> events_kept given s (m ;;; k).
Proof.
  unfold events_kept. rewrite trace_seq, exec_seq, resolved_events_app. destruct (result m s).
  rewrite app_nil_r. intros E1 E2. by rewrite E1, E2, app_assoc.
Qed.

(** A step on a socket whose fields are known, by evaluation. *)
Ltac socket_events := unfold events_kept, pending_events; hsimpl; rewrite ?app_nil_r; solve_Permutation.

Lemma read_events r s : events_kept [] s (tcp_do_read r).
Proof.
  unfold tcp_do_read, tcp_do_read_ec. destruct s as [fd c w d [rd |] n a]; [| apply events_skip].
  destruct r as [[| b data] | e]; [socket_events | socket_events |].
  unfold events_kept. hsimpl. destruct (_ || _); socket_events.
Qed.

Lemma write_events sent s : events_kept [] s (tcp_do_write sent).
Proof.
  unfold tcp_do_write, tcp_do_write_ec. destruct s as [fd c [w |] d rd n a]; [| apply events_skip].
  unfold events_kept. hsimpl. destruct (sent <? 0); hsimpl.
  - destruct (_ || _); socket_events.
  - destruct (drop (Z.to_nat sent) d); socket_events.
Qed.

Lemma connected_events so s : events_kept [] s (is_connected so).
Proof.
  unfold is_connected. destruct s as [fd [c |] w d rd n a]; [| apply events_skip].
  unfold events_kept. hsimpl. destruct (negb _); socket_events.
Qed.

Lemma ready_events readable writable r so sent s :
  events_kept [] s (tcp_handle_ready readable writable r so sent).
Proof.
  unfold tcp_handle_ready. apply events_seq; [destruct readable; [apply read_events | apply events_skip] |].
  destruct writable; [| apply events_skip]. cbn [hwhen]. apply events_seq.
  - unfold events_kept. rewrite trace_hget, exec_hget. destruct (from_option _ _ _); [apply connected_events | apply events_skip].
  - match goal with |- events_kept _ ?x _ => generalize x end. intros s1.
    unfold events_kept. rewrite trace_hget, exec_hget. destruct (from_option _ _ (ts_write s1)); [apply write_events | apply events_skip].
Qed.

Lemma connect_events address port ev sock connect s :
  events_kept [ev] s (async_connect address port ev sock connect).
Proof.
  unfold async_connect, async_connect_ec. destruct s as [fd [c |] w d rd n []]; try socket_events.
  unfold events_kept. hsimpl. destruct (sock <? 0); [socket_events |]. destruct connect; socket_events.
Qed.

Lemma tcp_step_events i s : events_kept (given_event i) s (tcp_step i).
Proof.
  destruct i as [address port ev sock connect | data ev | size ev | readable writable r so sent | |]; cbn [tcp_step given_event].
  - apply connect_events.
  - unfold async_write, async_write_ec. destruct s as [fd c [w |] d rd n []]; socket_events.
  - unfold async_read. destruct s as [fd c w d [rd |] n []]; socket_events.
  - apply ready_events.
  - socket_events.
  - unfold tcp_abort. destruct s as [fd [c |] [w |] d [rd |] n []]; socket_events.
Qed.

(** The data of a step of a write. *)
Lemma write_data sent s :
  let s' := exec (tcp_do_write sent) s in
  ts_aborted s' = ts_aborted s /\
  match ts_write s with
  | None => s' = s
  | Some _ => sent < 0 \/ (ts_writeData s' = drop (Z.to_nat sent) (ts_writeData s) /\
                           (ts_write s' = None -> ts_writeData s' = []))
  end.
Proof.
  unfold tcp_do_write, tcp_do_write_ec. destruct s as [fd c [w |] d rd n a]; [| done]. hsimpl.
  destruct (Z.ltb_spec sent 0); hsimpl.
  - split; [| by left]. destruct (_ || _); reflexivity.
  - destruct (drop (Z.to_nat sent) d) eqn:E; hsimpl; (split; [done | right; done]).
Qed.

Lemma read_data r s :
  let s' := exec (tcp_do_read r) s in
  ts_aborted s' = ts_aborted s /\ ts_write s' = ts_write s /\ ts_writeData s' = ts_writeData s.
Proof.
  unfold tcp_do_read, tcp_do_read_ec. destruct s as [fd c w d [rd |] n a]; [| done].
  hsimpl. destruct (negb _); done.
Qed.

Lemma connected_data so s :
  let s' := exec (is_connected so) s in
  ts_aborted s' = ts_aborted s /\ ts_write s' = ts_write s /\ ts_writeData s' = ts_writeData s.
Proof.
  unfold is_connected. destruct s as [fd [c |] w d rd n a]; [| done]. hsimpl. destruct (negb _); done.
Qed.

Lemma ready_data readable writable r so sent s :
  let s' := exec (tcp_handle_ready readable writable r so sent) s in
  ts_aborted s' = ts_aborted s /\
  match ts_write s with
  | Some _ => if writable then sent < 0 \/ (ts_writeData s' = drop (Z.to_nat sent) (ts_writeData s) /\
                                          (ts_write s' = None -> ts_writeData s' = []))
              else ts_write s' = ts_write s /\ ts_writeData s' = ts_writeData s
  | None => ts_write s' = None /\ ts_writeData s' = ts_writeData s
  end.
Proof.
  cbv zeta. unfold tcp_handle_ready. rewrite exec_seq.
  assert (E1 : let s1 := exec (hwhen readable (tcp_do_read r)) s in
            ts_aborted s1 = ts_aborted s /\ ts_write s1 = ts_write s /\ ts_writeData s1 = ts_writeData s)
    by (destruct readable; [apply read_data | done]).
  cbv zeta in E1. generalize dependent (exec (hwhen readable (tcp_do_read r)) s). intros s1 (<- & <- & <-).
  destruct writable; cbn [hwhen]; [| by destruct (ts_write s1) eqn:Ew].
  rewrite exec_seq, exec_hget, exec_hget. 
  assert (E2 : forall b : bool, let s2 := exec (if b then is_connected so else hskip) s1 in
            ts_aborted s2 = ts_aborted s1 /\ ts_write s2 = ts_write s1 /\ ts_writeData s2 = ts_writeData s1).
  { intros []; [apply connected_data | done]. }
  cbv zeta in E2. specialize (E2 (from_option (fun _ => true) false (ts_connect s1))).
  generalize dependent (exec (if from_option (fun _ => true) false (ts_connect s1) then is_connected so else hskip) s1).
  intros s2 (<- & <- & <-).
  destruct (ts_write s2) eqn:Ew; cbn [from_option]; [| split; [done |]; split; [exact Ew | done]].
  pose proof (write_data sent s2) as Hw. cbv zeta in Hw. by rewrite Ew in Hw.
Qed.

Lemma tcp_step_inv i g s : tcp_inv g s -> tcp_inv (tcp_ghost_step i s g) (exec (tcp_step i) s).
Proof.
  intros [Ha Hd]. destruct i as [address port ev sock connect | data ev | size ev | readable writable r so sent | |];
    cbn [tcp_step].
  - unfold async_connect, async_connect_ec. destruct s as [fd [c |] w d rd n []]; [done | done | |].
    + split; [done |]. by destruct w.
    + split; [|]; hsimpl; (destruct (sock <? 0); [by destruct w | by destruct connect, w]).
  - unfold async_write, async_write_ec. destruct s as [fd c [w |] d rd n []]; try by split.
    split; [done |]. destruct g as [asked sent0 failed]. cbn in *. intros Hf. destruct (Hd Hf) as [<- Hn].
    by rewrite (Hn eq_refl), app_nil_r.
  - unfold async_read. destruct s as [fd c w d [rd |] n []]; by destruct w.
  - destruct (ready_data readable writable r so sent s) as [Ea Hw].
    pose proof (ready_events readable writable r so sent s) as He. unfold events_kept in He.
    generalize dependent (exec (tcp_handle_ready readable writable r so sent) s). intros s' Ea Hw He. split.
    + intros Hab. rewrite Ea in Hab. rewrite (Ha Hab) in He. cbn in He. symmetry in He.
      apply Permutation_nil_r, app_eq_nil in He. apply He.
    + unfold tcp_ghost_step. destruct (ts_write s) as [w |].
      * destruct writable; destruct g as [asked sent0 failed]; cbn in *.
        -- intros [Hf Hs]%orb_false_iff. apply Z.ltb_ge in Hs. destruct (Hd Hf) as [<- _].
           destruct Hw as [? | [Hw Hn]]; [lia |]. rewrite Hw, <- app_assoc, take_drop. split; [done |].
           intros E. by rewrite <- Hw, Hn.
        -- destruct Hw as [Ew ->]. intros Hf. destruct (Hd Hf) as [E _]. split; [done |]. by rewrite Ew.
      * destruct Hw as [Ew ->]. replace (_ : tcp_ghost) with g by (by destruct writable). intros Hf.
        destruct (Hd Hf) as [E En]. split; [done |]. intros _. by apply En.
  - by split.
  - unfold tcp_abort. destruct s as [fd [c |] [w |] d [rd |] n []]; try done; (split; [done |]; by destruct g).
Qed.


(** The events of a UDP socket: the one that waits for data is kept until there is data or the socket is aborted. *)
Lemma udp_events_kept s ev :
  let kept (m : us_handler unit) (given : list nat) :=
    option_list (us_recv s) ++ given ≡ₚ resolved_events (trace m s) ++ option_list (us_recv (exec m s)) in
  kept (nm_select_unix_udp_async_recv_wait ev) [ev] /\ kept nm_select_unix_udp_handle_event [] /\
  kept nm_select_unix_udp_abort [] /\ kept nm_select_unix_udp_free_socket [].
Proof.
  cbv zeta. destruct s as [fd ty [] [rv |]]; split_and!; hsimpl; solve_Permutation.
Qed.

(** ** What one would not expect *)

(** A socket whose port cannot be bound is reported as bound; it is closed, and its number kept. *)
Lemma bind_failure_reported_ok port an ev s :
  us_aborted s = false -> ba_sock6 an <> -1 -> ba_v6only an = true -> ba_bind an = false ->
  let m := nm_select_unix_udp_async_bind_port port an ev in
  us_sock (exec m s) = ba_sock6 an /\
  exists t, trace m s = t ++ [OsClose (ba_sock6 an); OsPost ev NABTO_EC_OK].
Proof.
  intros Ha Hs Hv Hb. destruct s as [fd ty ab rv], an as [s6 s4 v6 b]. cbn in *. subst.
  unfold nm_select_unix_udp_async_bind_port, nm_select_unix_udp_async_bind_port_ec, create_socket_any, bind_port.
  hsimpl. destruct (Z.eqb_spec s6 (-1)); [done |]. hsimpl. split; [done |].
  by exists [OsSocket NABTO_IPV6 false; OsSetOption s6 "IPV6_V6ONLY" 0; OsBind s6 NABTO_IPV6 port].
Qed.

(** Without IPv6 there is no UDP socket: the test after the IPv4 socket was opened looks at the old number. *)
Lemma no_ipv4_fallback port an ev s :
  us_aborted s = false -> us_sock s = -1 -> ba_sock6 an = -1 ->
  nm_select_unix_udp_async_bind_port port an ev s =
    (tt, s, [OsSocket NABTO_IPV6 false; OsSocket NABTO_IPV4 false;
             OsPost ev NABTO_EC_UDP_SOCKET_CREATION_ERROR]).
Proof.
  intros Ha Hs H6. destruct s as [fd ty ab rv], an as [s6 s4 v6 b]. cbn in *. by subst.
Qed.

(** A write that would block fails: the answer of [send], -1, is compared with the error codes. *)
Lemma blocked_write_fails s ev :
  ts_write s = Some ev ->
  tcp_do_write (-1) s = (tt, s {{ ts_write := None }}, [OsSend (ts_fd s) (ts_writeData s); OsPost ev NABTO_EC_UNKNOWN]).
Proof. destruct s. cbn. by intros ->. Qed.

(** [async_write] stores its event before its data, without the lock, and the thread of select writes when it
    sees the event: when it comes in between, after an earlier write has ended, it sends
    nothing and ends the write, whose data is never sent. [async_write_begin] is the first
    part of [async_write]. *)
Definition async_write_begin (ev : nat) : ts_handler unit := hmod (fun s => s {{ ts_write := Some ev }}).

Lemma async_write_parts data ev s :
  ts_aborted s = false -> ts_write s = None ->
  async_write data ev s = (async_write_begin ev ;;; async_write_ec data ;;; hskip) s.
Proof. destruct s. cbn. by intros -> ->. Qed.

Lemma write_lost_in_between data ev s :
  ts_aborted s = false -> ts_write s = None -> ts_writeData s = [] ->
  let m := async_write_begin ev ;;; tcp_do_write 0 ;;; async_write_ec data ;;; hskip in
  m s = (tt, s {{ ts_write := None; ts_writeData := data }}, [OsSend (ts_fd s) []; OsPost ev NABTO_EC_OK; OsNotify]).
Proof. destruct s. cbn. by intros -> -> ->. Qed.

(** ** Witness *)


(** ** The UDP sockets implement the interface of np_udp.h *)

Definition os_resolved (c : os_call) : option (nat * np_error_code) :=
  match c with OsPost ev ec => Some (ev, ec) | _ => None end.

#[global] Instance select_udp : NpUdp np_udp_socket os_call mdns_answers := {
  np_udp_async_bind_mdns := fun type => match type with
    | NABTO_IPV4 => nm_select_unix_async_bind_mdns_ipv4
    | NABTO_IPV6 => nm_select_unix_async_bind_mdns_ipv6 end;
  np_udp_async_send_to := nm_select_unix_udp_async_send_to;
  np_udp_async_recv_wait := fun ev => ulift (nm_select_unix_udp_async_recv_wait ev);
  np_udp_recv_from := nm_select_unix_udp_recv_from;
  np_udp_abort := nm_select_unix_udp_abort;
  udp_readable := nm_select_unix_udp_handle_event;
  udp_resolved := omap os_resolved;
  udp_waiting := us_recv;
  udp_aborted := us_aborted;
  udp_open := fun _ => true
}.

(** Handlers that resolve nothing and keep what waits. *)
Abbreviation us_quiet := (quiet os_resolved (fun s : np_udp_socket => (us_recv s, us_aborted s))).

Lemma quiet_registration type sock interfaces : us_quiet (mdns_update_socket_registration type sock interfaces).
Proof.
  induction interfaces as [| [[] i] l IH]; cbn [mdns_update_socket_registration]; [apply quiet_ret | |];
    (apply quiet_seq; [| done]); [by apply quiet_call | apply quiet_ret].
Qed.
#[local] Hint Resolve quiet_registration : quiet.

Lemma bind_mdns_quiet type an :
  us_quiet (match type with NABTO_IPV4 => nm_select_unix_async_bind_mdns_ipv4_ec an
            | NABTO_IPV6 => nm_select_unix_async_bind_mdns_ipv6_ec an end).
Proof.
  destruct type; unfold nm_select_unix_async_bind_mdns_ipv4_ec, nm_select_unix_async_bind_mdns_ipv6_ec,
    create_socket_ipv4, create_socket_ipv6, init_mdns_ipv4_socket, init_mdns_ipv6_socket, init_mdns_socket,
    mdns_update_ipv4_socket_registration, mdns_update_ipv6_socket_registration; solve_quiet.
Qed.

#[global] Instance select_udp_laws : NpUdpLaws np_udp_socket os_call mdns_answers.
Proof.
  split.
  - done.
  - intros t t'. apply omap_app.
  - intros type an ev s m.
    assert (Em : m = hbind (match type with NABTO_IPV4 => nm_select_unix_async_bind_mdns_ipv4_ec an
      | NABTO_IPV6 => nm_select_unix_async_bind_mdns_ipv6_ec an end) (fun ec => emit (OsPost ev ec)))
      by (by destruct type).
    destruct (resolved_at_end _ _ _ (OsPost ev) ev (fun ec => ec) s (bind_mdns_quiet type an) (fun _ => eq_refl)) as [Hs Ht].
    rewrite <- Em in Hs, Ht. injection Hs as Hr Ha. split; [by split |]. by eexists.
  - intros ep data err ev s m.
    assert (Hsend : forall s, exec (udp_send_to ep data err) s = s /\ udp_resolved (trace (udp_send_to ep data err) s) = []).
    { intros s0. unfold udp_send_to. rewrite exec_hget, trace_hget. by repeat case_match. }
    unfold m. cbn [np_udp_async_send_to select_udp]. unfold nm_select_unix_udp_async_send_to.
    rewrite exec_seq, trace_seq. unfold nm_select_unix_udp_async_send_to_ec. rewrite !exec_hget, !trace_hget.
    destruct (us_aborted s); [split; [done | by eexists] |]. destruct (Hsend s) as [-> Et]. split; [done |].
    cbn in *. rewrite omap_app, Et. by eexists.
  - intros ev [fd ty [] [rv |]] _ Hw; try done; cbn in *; do 2 eexists; (split; [reflexivity | done]).
  - intros size r address port s m. split; [done |]. destruct r as [data | status]; cbn; [split_and!; [done | by split | done] |].
    split; [done |]. unfold m, np_udp_recv_from, select_udp, nm_select_unix_udp_recv_from, udp_recv_from. hsimpl.
    split; [| done]. split; [by destruct ((status =? EAGAIN) || (status =? EWOULDBLOCK)) | by intros []].
  - by intros [fd ty [] [rv |]].
  - by intros [fd ty ab [rv |]].
Qed.

#[global] Instance select_udp_port : NpUdpPort np_udp_socket os_call bind_answers := {
  np_udp_async_bind_port := nm_select_unix_udp_async_bind_port;
  np_udp_get_local_port := nm_select_unix_udp_get_local_port
}.

Lemma bind_port_quiet port an : us_quiet (nm_select_unix_udp_async_bind_port_ec port an).
Proof. unfold nm_select_unix_udp_async_bind_port_ec, create_socket_any, bind_port; solve_quiet. Qed.

#[global] Instance select_udp_port_laws : NpUdpPortLaws np_udp_socket os_call mdns_answers bind_answers.
Proof.
  split. intros port an ev s m.
  destruct (resolved_at_end _ _ _ (OsPost ev) ev (fun ec => ec) s (bind_port_quiet port an) (fun _ => eq_refl)) as [Hs Ht].
  injection Hs as Hr Ha. split; [by split |]. by eexists.
Qed.
