(* ===== verification/Logging.v ===== *)
(** * Logging (src/core/nc_coap_packet_printer.c, api/nabto_device_logging.c, platform/np_logging.c,
      modules/logging/unix/nm_unix_logging.c, modules/logging/test/nm_logging_test.c, apps/common/logging.c)

    Texts are lists of character codes. A write past the end of a buffer is undefined. Parsing of CoAP packets is the
    library of nabto-common: its result is an argument of the printer, with the options by the names
    that the printer uses; a format with its arguments is the text it gives. *)

From S2P Require Import Prelude Platform Cbor DeviceApi.
From stdpp Require Import strings.

#[local] Open Scope Z_scope.
#[local] Open Scope list_scope.
#[local] Open Scope c_scope.

(** ** Numbers as text *)

Fixpoint dec_digits (fuel : nat) (n : Z) : list Z :=
  match fuel with
  | O => []
  | S fuel => (if n <? 10 then [] else dec_digits fuel (n / 10)) ++ [chr_0 + n mod 10]
  end.

(** [%d] of an int, from what was passed for it. *)
Definition show_d (n : Z) : list Z :=
  let n := to_int32 n in if n <? 0 then 45 :: dec_digits 20 (- n) else dec_digits 20 n.

(** [%0<width>u]. *)
Definition pad0 (width : nat) (s : list Z) : list Z := replicate (width - length s) chr_0 ++ s.
Definition show_u0 (width : nat) (n : Z) : list Z := pad0 width (dec_digits 20 n).

(** [%s] and [%.*s]: up to the NUL. *)
Fixpoint c_text (s : list Z) : list Z :=
  match s with [] => [] | c :: s => if c =? 0 then [] else c :: c_text s end.

(** [sprintf] to a buffer with room for [size] characters. *)
Definition sprintf (size : nat) (text : list Z) : cres (list Z) :=
  if (length text <? size)%nat then Def text else UB.

Lemma dec_digits_length fuel k n : 0 <= n < 10 ^ Z.of_nat (S k) -> (length (dec_digits fuel n) <= S k)%nat.
Proof.
  revert k n. induction fuel as [| fuel IH]; intros k n Hn; cbn [dec_digits]; [cbn; lia |].
  rewrite length_app. cbn [length]. destruct (n <? 10) eqn:E; [cbn; lia |]. apply Z.ltb_ge in E.
  destruct k as [| k]; [cbn in Hn; lia |].
  assert (H := IH k (n / 10)). rewrite Nat2Z.inj_succ, Z.pow_succ_r in Hn by lia.
  assert (length (dec_digits fuel (n / 10)) <= S k)%nat; [| lia]. apply H. split; [apply Z.div_pos; lia |].
  apply Z.div_lt_upper_bound; lia.
Qed.

Lemma to_int32_small n : 0 <= n < 2 ^ 31 -> to_int32 n = n.
Proof. intros Hn. unfold to_int32. rewrite u32_small by (unfold is_uint; lia). goal_if; [done |]. apply Z.ltb_ge in Heqb. lia. Qed.

Lemma show_d_small k n : 0 <= n < 10 ^ Z.of_nat (S k) -> n < 2 ^ 31 -> (length (show_d n) <= S k)%nat.
Proof.
  intros Hn Hk. unfold show_d. rewrite to_int32_small by lia.
  destruct (n <? 0) eqn:E0; [apply Z.ltb_lt in E0; lia |]. by apply dec_digits_length.
Qed.

Lemma show_d_length n : (length (show_d n) <= 11)%nat.
Proof.
  unfold show_d. assert (H : - 2 ^ 31 <= to_int32 n < 2 ^ 31) by (unfold to_int32; goal_if; divlia).
  assert (Hd : forall m, 0 <= m <= 2 ^ 31 -> (length (dec_digits 20 m) <= 10)%nat).
  { intros m Hm. apply dec_digits_length. change (10 ^ Z.of_nat 10) with 10000000000. lia. }
  destruct (to_int32 n <? 0) eqn:E; cbn [length].
  - apply Z.ltb_lt in E. specialize (Hd (- to_int32 n)). lia.
  - apply Z.ltb_ge in E. specialize (Hd (to_int32 n)). lia.
Qed.

Lemma sprintf_fits size text : (length text < size)%nat -> sprintf size text = Def text.
Proof. intros H. unfold sprintf. by rewrite (proj2 (Nat.ltb_lt _ _) H). Qed.

(** The text of a static buffer that is large enough. *)
Definition fits (n : nat) (c : cres (list Z)) : Prop := exists text, c = Def text /\ (length text <= n)%nat.

Lemma sprintf_ok size n text : (length text <= n)%nat -> (n < size)%nat -> fits n (sprintf size text).
Proof. intros Hl Hs. exists text. split; [apply sprintf_fits; lia | done]. Qed.
Lemma fits_def n text : (length text <= n)%nat -> fits n (Def text).
Proof. by exists text. Qed.

Lemma pad0_length w s : length (pad0 w s) = Nat.max w (length s).
Proof. unfold pad0. rewrite length_app, length_replicate. lia. Qed.

(** ** nc_coap_packet_printer.c *)

Inductive nabto_coap_type : Type :=
| NABTO_COAP_TYPE_CON
| NABTO_COAP_TYPE_NON
| NABTO_COAP_TYPE_ACK
| NABTO_COAP_TYPE_RST.

(** The options by their names; the others by their numbers. *)
Inductive coap_option_number : Type :=
| NABTO_COAP_OPTION_IF_MATCH | NABTO_COAP_OPTION_URI_HOST | NABTO_COAP_OPTION_ETAG | NABTO_COAP_OPTION_IF_NONE_MATCH
| NABTO_COAP_OPTION_URI_PORT | NABTO_COAP_OPTION_LOCATION_PATH | NABTO_COAP_OPTION_URI_PATH
| NABTO_COAP_OPTION_CONTENT_FORMAT | NABTO_COAP_OPTION_MAX_AGE | NABTO_COAP_OPTION_URI_QUERY
| NABTO_COAP_OPTION_ACCEPT | NABTO_COAP_OPTION_LOCATION_QUERY | NABTO_COAP_OPTION_SIZE2 | NABTO_COAP_OPTION_PROXY_URI
| NABTO_COAP_OPTION_PROXY_SCHEME | NABTO_COAP_OPTION_SIZE1 | NABTO_COAP_OPTION_BLOCK1 | NABTO_COAP_OPTION_BLOCK2
| coap_option_other (number : Z).

Record coap_option : Type := mk_co {
  co_option : coap_option_number;
  co_data : list Z
}.

(** [struct nabto_coap_incoming_message], with its options. *)
Record coap_message : Type := mk_cm {
  cm_type : nabto_coap_type;
  cm_code : Z;
  cm_messageId : Z;
  cm_token : list Z;
  cm_options : list coap_option;
  cm_payloadLength : Z
}.

Section Printer.
(** The numbers of the codes and of the block options, and [nabto_coap_parse_variable_int]. *)
Context (code_empty code_get code_post code_put code_delete block1 block2 : Z).
Context (parse_variable_int : list Z -> nat -> option Z).

Definition blockToString (value : Z) : cres (list Z) :=
  let blockSize := u32 (Z.shiftl 16 (Z.land value 7)) in
  let more := Z.shiftr (Z.land value 15) 3 in
  let num := Z.shiftr value 4 in
  sprintf 21 (show_d num ++ ascii_codes "/" ++ show_d (u8 more) ++ ascii_codes "/" ++ show_d (u16 blockSize)).

(** The loop over the token; [size] is the room that is left. *)
Fixpoint token_loop (size : nat) (token : list Z) : cres (list Z) :=
  match token with
  | [] => Def []
  | b :: token =>
      let! text := sprintf size (show_x02 b) in
      let! rest := token_loop (size - length text) token in Def (text ++ rest)
  end.
Definition tokenToString (token : list Z) : cres (list Z) := token_loop 17 token.

Definition coapTypeToString (type : nabto_coap_type) : list Z :=
  match type with
  | NABTO_COAP_TYPE_CON => ascii_codes "CON"
  | NABTO_COAP_TYPE_NON => ascii_codes "NON"
  | NABTO_COAP_TYPE_ACK => ascii_codes "ACK"
  | NABTO_COAP_TYPE_RST => ascii_codes "RST"
  end.

Definition coapCodeToString (code : Z) : cres (list Z) :=
  let realCode := u8 code in
  let codeClass := Z.shiftr realCode 5 in
  let detail := Z.land realCode 31 in
  if (codeClass =? 0) && (detail =? code_empty) then Def (ascii_codes "EMPTY")
  else if (codeClass =? 0) && (detail =? code_get) then Def (ascii_codes "GET")
  else if (codeClass =? 0) && (detail =? code_post) then Def (ascii_codes "POST")
  else if (codeClass =? 0) && (detail =? code_put) then Def (ascii_codes "PUT")
  else if (codeClass =? 0) && (detail =? code_delete) then Def (ascii_codes "DELETE")
  else if (1 <? codeClass) && (codeClass <=? 5)
  then sprintf 15 (show_d codeClass ++ pad0 2 (show_d detail))
  else sprintf 15 (ascii_codes "UNKNOWN(" ++ show_d realCode ++ ascii_codes ")").

(** The numbers of the options that have no name in the switch. *)
Definition unnamed_option (opt : coap_option_number) : option Z :=
  match opt with
  | coap_option_other number => Some number
  | NABTO_COAP_OPTION_BLOCK1 => Some block1
  | NABTO_COAP_OPTION_BLOCK2 => Some block2
  | _ => None
  end.

Definition coapOptionToString (opt : coap_option_number) : cres (list Z) :=
  match opt with
  | NABTO_COAP_OPTION_IF_MATCH => Def (ascii_codes "IF_MATCH")
  | NABTO_COAP_OPTION_URI_HOST => Def (ascii_codes "URI_HOST")
  | NABTO_COAP_OPTION_ETAG => Def (ascii_codes "ETAG")
  | NABTO_COAP_OPTION_IF_NONE_MATCH => Def (ascii_codes "IF_NONE_MATCH")
  | NABTO_COAP_OPTION_URI_PORT => Def (ascii_codes "URI_PORT")
  | NABTO_COAP_OPTION_LOCATION_PATH => Def (ascii_codes "LOCATION_PATH")
  | NABTO_COAP_OPTION_URI_PATH => Def (ascii_codes "URI_PATH")
  | NABTO_COAP_OPTION_CONTENT_FORMAT => Def (ascii_codes "CONTENT_FORMAT")
  | NABTO_COAP_OPTION_MAX_AGE => Def (ascii_codes "MAX_AGE")
  | NABTO_COAP_OPTION_URI_QUERY => Def (ascii_codes "URI_QUERY")
  | NABTO_COAP_OPTION_ACCEPT => Def (ascii_codes "ACCEPT")
  | NABTO_COAP_OPTION_LOCATION_QUERY => Def (ascii_codes "LOCATION_QUERY")
  | NABTO_COAP_OPTION_SIZE2 => Def (ascii_codes "SIZE2")
  | NABTO_COAP_OPTION_PROXY_URI => Def (ascii_codes "PROXY_URI")
  | NABTO_COAP_OPTION_PROXY_SCHEME => Def (ascii_codes "PROXY_SCHEME")
  | NABTO_COAP_OPTION_SIZE1 => Def (ascii_codes "OPTION_SIZE1")
  | _ => sprintf 15 (ascii_codes "UNKNOWN(" ++ show_d (default 0 (unnamed_option opt)) ++ ascii_codes ")")
  end.

(** [buffer] is the text up to the pointer, and [end - buffer] the room; NULL is [None]. *)
Definition safeWrite (size : nat) (buffer : option (list Z)) (text : list Z) : cres (option (list Z)) :=
  match buffer with
  | None => Def None
  | Some out =>
      if (size - length out <? 40)%nat then Def None
      else let! text := sprintf (size - length out) text in Def (Some (out ++ text))
  end.

(** The text that is written for an option. *)
Definition option_text (o : coap_option) : cres (list Z) :=
  let optionDataLength := Z.of_nat (length (co_data o)) in
  let other :=
    let! s := coapOptionToString (co_option o) in
    Def (ascii_codes ", " ++ s ++ ascii_codes ": OptionDataLength: " ++ show_d optionDataLength) in
  match co_option o with
  | NABTO_COAP_OPTION_URI_PATH => Def (ascii_codes ", Uri-Path: " ++ c_text (co_data o))
  | NABTO_COAP_OPTION_URI_HOST => Def (ascii_codes ", Uri-Host: " ++ c_text (co_data o))
  | NABTO_COAP_OPTION_URI_PORT =>
      match parse_variable_int (co_data o) 3 with
      | Some value => Def (ascii_codes ", Uri-Port: " ++ show_d value)
      | None => other
      end
  | NABTO_COAP_OPTION_BLOCK1 =>
      match parse_variable_int (co_data o) 3 with
      | Some value => let! s := blockToString value in Def (ascii_codes ", Block1: " ++ s)
      | None => other
      end
  | NABTO_COAP_OPTION_BLOCK2 =>
      match parse_variable_int (co_data o) 3 with
      | Some value => let! s := blockToString value in Def (ascii_codes ", Block2: " ++ s)
      | None => other
      end
  | _ => other
  end.

Definition buffer_size : nat := 1024.

Fixpoint write_options (ptr : option (list Z)) (options : list coap_option) : cres (option (list Z)) :=
  match options with
  | [] => Def ptr
  | o :: options =>
      let! text := option_text o in
      let! ptr := safeWrite buffer_size ptr text in write_options ptr options
  end.

(** The text for the log; [None]: "Can not print coap packet". [message]: the packet, when it can be parsed. *)
Definition nc_coap_packet_print (header : list Z) (message : option coap_message) : cres (option (list Z)) :=
  let! ptr := safeWrite buffer_size (Some []) (c_text header) in
  match message with
  | None => safeWrite buffer_size ptr (ascii_codes "Invalid packet")
  | Some message =>
      let! code := coapCodeToString (cm_code message) in
      let! token := tokenToString (cm_token message) in
      let! ptr := safeWrite buffer_size ptr
        (ascii_codes "Type: " ++ coapTypeToString (cm_type message) ++ ascii_codes ", Code: " ++ code ++
         ascii_codes ", MessageId: " ++ show_d (cm_messageId message) ++ ascii_codes ", Token: " ++ token) in
      let! ptr := safeWrite buffer_size ptr (ascii_codes ", Options:") in
      let! ptr := write_options ptr (cm_options message) in
      safeWrite buffer_size ptr (ascii_codes ", Payload Length: " ++ show_d (cm_payloadLength message))
  end.

(** ** What fits *)

Lemma code_fits code : fits 12 (coapCodeToString code).
Proof.
  unfold coapCodeToString. pose proof (u8_byte code) as Hc. unfold is_byte, is_uint in Hc.
  repeat (goal_if; [apply fits_def; vm_compute; lia |]).
  assert (Hk : 0 <= Z.shiftr (u8 code) 5 < 10) by (rewrite Z.shiftr_div_pow2 by lia; divlia).
  assert (Hd : 0 <= Z.land (u8 code) 31 < 32) by (change 31 with (Z.ones 5); rewrite Z.land_ones by lia; divlia).
  goal_if.
  - apply sprintf_ok; [| lia]. rewrite length_app, pad0_length.
    pose proof (show_d_small 0 (Z.shiftr (u8 code) 5)). pose proof (show_d_small 1 (Z.land (u8 code) 31)).
    change (10 ^ Z.of_nat 1) with 10 in *. change (10 ^ Z.of_nat 2) with 100 in *. lia.
  - apply sprintf_ok; [| lia]. rewrite !length_app. pose proof (show_d_small 2 (u8 code)).
    change (10 ^ Z.of_nat 3) with 1000 in *. cbn [length ascii_codes map String.list_ascii_of_string] in *. lia.
Qed.

Lemma token_fits token : (length token <= 8)%nat -> fits 16 (tokenToString token).
Proof.
  unfold tokenToString. intros Ht.
  assert (H : forall size, (2 * length token < size)%nat -> exists text, token_loop size token = Def text /\ length text = (2 * length token)%nat).
  { clear Ht. induction token as [| b token IH]; intros size Hs; [by exists [] |]. cbn [token_loop length] in *.
    rewrite sprintf_fits by (cbn; lia). cbn [cres_bind]. destruct (IH (size - length (show_x02 b))%nat) as (text & -> & Hl); [cbn; lia |].
    eexists. split; [done |]. rewrite length_app, Hl. cbn. lia. }
  destruct (H 17%nat) as (text & E & Hl); [lia |]. exists text. split; [done | lia].
Qed.

Lemma long_token token : (8 < length token)%nat -> tokenToString token = UB.
Proof.
  unfold tokenToString. intros Ht.
  assert (H : forall size, (size <= 2 * length token)%nat -> token <> [] -> token_loop size token = UB).
  { clear Ht. induction token as [| b token IH]; intros size Hs Hn; [done |]. cbn [token_loop length] in *.
    unfold sprintf. cbn [length show_x02]. destruct (2 <? size)%nat eqn:E; [| done]. cbn [cres_bind]. apply Nat.ltb_lt in E.
    destruct token as [| b' token]; [cbn in Hs; lia |]. rewrite IH; [done | change (length (show_x02 b)) with 2%nat; cbn [length] in *; lia | done]. }
  apply H; [lia |]. intros ->. cbn in Ht. lia.
Qed.

(** The numbers of options are 16 bits, and numbers in options 32 bits. *)
Definition number_ok (o : coap_option) : Prop :=
  match unnamed_option (co_option o) with Some n => is_uint 16 n | None => True end /\
  (forall v, parse_variable_int (co_data o) 3 = Some v -> is_uint 32 v).

Lemma option_name_fits o : number_ok o -> fits 14 (coapOptionToString (co_option o)).
Proof.
  intros [Hn _]. assert (Hu : forall n, is_uint 16 n ->
    fits 14 (sprintf 15 (ascii_codes "UNKNOWN(" ++ show_d n ++ ascii_codes ")"))).
  { intros n Hi. apply sprintf_ok; [| lia]. rewrite !length_app. unfold is_uint in Hi. pose proof (show_d_small 4 n).
    change (10 ^ Z.of_nat 5) with 100000 in *. cbn [length ascii_codes map String.list_ascii_of_string] in *. lia. }
  destruct o as [opt data]. cbn in *. destruct opt; cbn [unnamed_option coapOptionToString default] in *;
    first [apply Hu; exact Hn | apply fits_def; vm_compute; lia].
Qed.

Lemma block_fits v : is_uint 32 v -> fits 20 (blockToString v).
Proof.
  unfold is_uint. intros Hv. unfold blockToString. apply sprintf_ok; [| lia]. rewrite !length_app.
  assert (Hn : 0 <= Z.shiftr v 4 < 2 ^ 28) by (rewrite Z.shiftr_div_pow2 by lia; divlia).
  pose proof (show_d_small 8 (Z.shiftr v 4)). change (10 ^ Z.of_nat 9) with 1000000000 in *.
  pose proof (u8_byte (Z.shiftr (Z.land v 15) 3)) as Hm. unfold is_byte, is_uint in Hm.
  pose proof (show_d_small 2 (u8 (Z.shiftr (Z.land v 15) 3))). change (10 ^ Z.of_nat 3) with 1000 in *.
  pose proof (u16_range (u32 (Z.shiftl 16 (Z.land v 7)))) as Hb. unfold is_uint in Hb.
  pose proof (show_d_small 4 (u16 (u32 (Z.shiftl 16 (Z.land v 7))))). change (10 ^ Z.of_nat 5) with 100000 in *.
  cbn [length ascii_codes map String.list_ascii_of_string] in *. lia.
Qed.

(** ** The pieces *)

Definition text_of (c : cres (list Z)) : list Z := match c with Def text => text | UB => [] end.

(** The texts that the printer writes, in order. *)
Definition message_text (m : coap_message) : list Z :=
  ascii_codes "Type: " ++ coapTypeToString (cm_type m) ++ ascii_codes ", Code: " ++ text_of (coapCodeToString (cm_code m)) ++
  ascii_codes ", MessageId: " ++ show_d (cm_messageId m) ++ ascii_codes ", Token: " ++ text_of (tokenToString (cm_token m)).

Definition rest_pieces (m : coap_message) : list (list Z) :=
  ascii_codes ", Options:" :: map (fun o => text_of (option_text o)) (cm_options m) ++
  [ascii_codes ", Payload Length: " ++ show_d (cm_payloadLength m)].

Definition print_pieces (header : list Z) (message : option coap_message) : list (list Z) :=
  c_text header ::
  match message with
  | None => [ascii_codes "Invalid packet"]
  | Some m => message_text m :: rest_pieces m
  end.

Fixpoint write_pieces (ptr : option (list Z)) (pieces : list (list Z)) : cres (option (list Z)) :=
  match pieces with
  | [] => Def ptr
  | p :: pieces => cres_bind (safeWrite buffer_size ptr p) (fun ptr => write_pieces ptr pieces)
  end.

Lemma option_defined o : number_ok o -> option_text o = Def (text_of (option_text o)).
Proof.
  intros Ho. destruct (option_name_fits o Ho) as (s & Es & _). destruct Ho as [_ Hv]. destruct o as [opt data]. cbn in *.
  unfold option_text. cbn [co_option co_data]. rewrite Es.
  destruct opt; try done;
    (destruct (parse_variable_int data 3) as [v |] eqn:Ep; [| done]);
    try done; destruct (block_fits v (Hv v eq_refl)) as (t & -> & _); done.
Qed.

Lemma write_pieces_app ptr l l' :
  write_pieces ptr (l ++ l') = cres_bind (write_pieces ptr l) (fun ptr => write_pieces ptr l').
Proof.
  revert ptr. induction l as [| p l IH]; intros ptr; [done |]. cbn. destruct (safeWrite buffer_size ptr p); [apply IH | done].
Qed.

Lemma write_options_pieces options : forall ptr, Forall number_ok options ->
  write_options ptr options = write_pieces ptr (map (fun o => text_of (option_text o)) options).
Proof.
  induction options as [| o options IH]; intros ptr Hall; [done |].
  pose proof (Forall_cons_1 _ _ _ Hall) as [Ho Hall']. cbn [write_options map write_pieces].
  rewrite (option_defined o Ho). cbn. destruct (safeWrite buffer_size ptr _); [by apply IH | done].
Qed.

(** A message whose token and options are well formed. *)
Definition message_ok (m : coap_message) : Prop := (length (cm_token m) <= 8)%nat /\ Forall number_ok (cm_options m).

Lemma print_is_pieces header message :
  (forall m, message = Some m -> message_ok m) ->
  nc_coap_packet_print header message = write_pieces (Some []) (print_pieces header message).
Proof.
  intros Hm. unfold nc_coap_packet_print, print_pieces. cbn [write_pieces].
  destruct (safeWrite buffer_size (Some []) (c_text header)) as [ptr |]; [| done]. cbn [cres_bind].
  destruct message as [m |]; unfold rest_pieces; cbn [write_pieces].
  2:{ by destruct (safeWrite _ _ _). }
  destruct (Hm m eq_refl) as [Ht Ho]. unfold message_text.
  destruct (code_fits (cm_code m)) as (code & -> & _), (token_fits _ Ht) as (token & -> & _). cbn [cres_bind text_of].
  destruct (safeWrite _ _ _) as [ptr1 |]; [| done]. cbn [cres_bind].
  destruct (safeWrite _ _ _) as [ptr2 |]; [| done]. cbn [cres_bind].
  rewrite write_options_pieces by done. rewrite write_pieces_app.
  destruct (write_pieces _ _) as [ptr3 |]; [| done]. cbn. by destruct (safeWrite _ _ _).
Qed.

Lemma write_none l : write_pieces None l = Def None.
Proof. by induction l. Qed.

Lemma safeWrite_some out p :
  safeWrite buffer_size (Some out) p =
    if (984 <? length out)%nat then Def None
    else if (1024 <=? length out + length p)%nat then UB else Def (Some (out ++ p)).
Proof.
  unfold safeWrite, sprintf, buffer_size.
  destruct (1024 - length out <? 40)%nat eqn:E1, (984 <? length out)%nat eqn:E2; try done;
    rewrite ?Nat.ltb_lt, ?Nat.ltb_ge in *; try lia.
  destruct (length p <? 1024 - length out)%nat eqn:E3, (1024 <=? length out + length p)%nat eqn:E4; try done;
    rewrite ?Nat.ltb_lt, ?Nat.ltb_ge, ?Nat.leb_le, ?Nat.leb_gt in *; lia.
Qed.

Lemma write_ub l : forall out,
  write_pieces (Some out) l = UB <->
  exists pre p post, l = pre ++ p :: post /\ (length (out ++ concat pre) <= 984)%nat /\
    (1024 <= length (out ++ concat pre) + length p)%nat.
Proof.
  induction l as [| p l IH]; intros out.
  { split; [done |]. by intros ([|] & ? & ? & ? & _). }
  cbn [write_pieces]. rewrite safeWrite_some.
  destruct (984 <? length out)%nat eqn:E1; cbn [cres_bind].
  - rewrite write_none. split; [done |]. intros (pre & q & post & _ & Hl & _). apply Nat.ltb_lt in E1. rewrite length_app in Hl. lia.
  - apply Nat.ltb_ge in E1. destruct (1024 <=? length out + length p)%nat eqn:E2; cbn [cres_bind].
    + apply Nat.leb_le in E2. split; [| done]. intros _. exists [], p, l. cbn. rewrite app_nil_r. done.
    + apply Nat.leb_gt in E2. rewrite IH. split.
      * intros (pre & q & post & -> & Hl). exists (p :: pre), q, post. cbn. rewrite app_assoc. done.
      * intros ([| p' pre] & q & post & [= -> ->] & Hl).
        { cbn in Hl. rewrite app_nil_r in Hl. lia. }
        exists pre, q, post. cbn in Hl. by rewrite app_assoc in Hl.
Qed.

Lemma write_text l : forall out text,
  write_pieces (Some out) l = Def (Some text) -> (length out <= 1023)%nat -> text = out ++ concat l /\ (length text <= 1023)%nat.
Proof.
  induction l as [| p l IH]; intros out text E Hl.
  { injection E as <-. by rewrite app_nil_r. }
  cbn [write_pieces] in E. rewrite safeWrite_some in E.
  destruct (984 <? length out)%nat eqn:E1; cbn [cres_bind] in E; [by rewrite write_none in E |].
  destruct (1024 <=? length out + length p)%nat eqn:E2; cbn [cres_bind] in E; [done |]. apply Nat.leb_gt in E2.
  cbn [concat]. rewrite app_assoc. apply IH; [done |]. rewrite length_app. lia.
Qed.

Lemma write_fits l : forall out,
  (length (out ++ concat l) <= 984)%nat -> write_pieces (Some out) l = Def (Some (out ++ concat l)).
Proof.
  induction l as [| p l IH]; intros out Hl; [by rewrite app_nil_r |].
  cbn [write_pieces]. cbn [concat] in *. rewrite app_assoc, length_app in Hl. rewrite safeWrite_some.
  rewrite (proj2 (Nat.ltb_ge _ _)) by (rewrite length_app in Hl; lia).
  rewrite (proj2 (Nat.leb_gt _ _)) by (rewrite length_app in Hl; lia). cbn [cres_bind].
  rewrite IH; [by rewrite app_assoc | rewrite length_app; lia].
Qed.

(** Options whose texts fit the 40 characters that the check of the room leaves. *)
Definition short_option (o : coap_option) : Prop :=
  match co_option o with
  | NABTO_COAP_OPTION_URI_PATH | NABTO_COAP_OPTION_URI_HOST => (length (c_text (co_data o)) <= 27)%nat
  | _ => (length (co_data o) <= 999)%nat
  end.

Lemma short_text o : number_ok o -> short_option o -> (length (text_of (option_text o)) <= 39)%nat.
Proof.
  intros Ho Hs. destruct (option_name_fits o Ho) as (s & Es & Hl). destruct Ho as [_ Hv]. destruct o as [opt data].
  assert (Hother : (length data <= 999)%nat ->
    (length (ascii_codes ", " ++ s ++ ascii_codes ": OptionDataLength: " ++ show_d (Z.of_nat (length data))) <= 39)%nat).
  { intros Hd. rewrite !length_app. pose proof (show_d_small 2 (Z.of_nat (length data))).
    change (10 ^ Z.of_nat 3) with 1000 in *. cbn [length ascii_codes map String.list_ascii_of_string] in *. lia. }
  assert (Hport : forall v, (length (ascii_codes ", Uri-Port: " ++ show_d v) <= 39)%nat).
  { intros v. rewrite length_app. pose proof (show_d_length v). cbn [length ascii_codes map String.list_ascii_of_string] in *. lia. }
  unfold option_text, short_option in *. cbn [co_option co_data] in *. rewrite Es.
  destruct opt; cbn [cres_bind text_of] in *; try (by apply Hother);
    try (rewrite length_app; cbn [length ascii_codes map String.list_ascii_of_string] in *; lia);
    (destruct (parse_variable_int data 3) as [v |] eqn:Ep; [| by apply Hother]); try apply Hport;
    (destruct (block_fits v (Hv v eq_refl)) as (t & -> & Ht); cbn [cres_bind text_of]; rewrite length_app;
     cbn [length ascii_codes map String.list_ascii_of_string] in *; lia).
Qed.

Lemma message_text_length m : (length (cm_token m) <= 8)%nat -> (length (message_text m) <= 80)%nat.
Proof.
  intros Ht. unfold message_text. destruct (code_fits (cm_code m)) as (c & -> & Hc), (token_fits _ Ht) as (t & -> & Htl).
  rewrite !length_app. pose proof (show_d_length (cm_messageId m)).
  assert ((length (coapTypeToString (cm_type m)) <= 3)%nat) by (destruct (cm_type m); vm_compute; lia).
  cbn [length ascii_codes map String.list_ascii_of_string text_of] in *. lia.
Qed.

(** Every piece after the first two fits the 40 characters. *)
Lemma short_pieces header message :
  (length (c_text header) <= 900)%nat -> (forall m, message = Some m -> message_ok m) ->
  (forall m, message = Some m -> Forall short_option (cm_options m)) ->
  write_pieces (Some []) (print_pieces header message) <> UB.
Proof.
  intros Hh Hm Hs. rewrite write_ub. intros (pre & p & post & E & Hl & Ho). cbn [app] in Hl, Ho.
  assert (Hp : forall q, (length q <= 39)%nat -> p <> q) by (intros q Hq ->; lia).
  unfold print_pieces in E. destruct pre as [| h pre]; injection E as E1 E.
  { subst p. cbn in Ho. lia. }
  destruct message as [m |].
  2:{ assert (Hin : p ∈ [ascii_codes "Invalid packet"]) by (rewrite E; apply elem_of_app; right; by left).
      apply list_elem_of_singleton in Hin. eapply Hp; [| exact Hin]. vm_compute; lia. }
  destruct (Hm m eq_refl) as [Ht Hn]. specialize (Hs m eq_refl). destruct pre as [| m' pre]; injection E as E2 E.
  { subst p. pose proof (message_text_length m Ht). subst h. cbn [concat] in Ho. rewrite app_nil_r in Ho. lia. }
  assert (Hin : p ∈ rest_pieces m) by (rewrite E; apply elem_of_app; right; by left).
  apply elem_of_cons in Hin as [Hin | [Hin | Hin]%elem_of_app].
  - eapply Hp; [| exact Hin]. vm_compute; lia.
  - apply list_elem_of_fmap in Hin as (o & -> & Hin). rewrite Forall_forall in Hn, Hs.
    pose proof (short_text o (Hn o Hin) (Hs o Hin)). by eapply Hp.
  - apply list_elem_of_singleton in Hin as ->. eapply Hp; [| reflexivity]. rewrite length_app.
    pose proof (show_d_length (cm_payloadLength m)). cbn [length ascii_codes map String.list_ascii_of_string] in *. lia.
Qed.

(** C22. Where the printer of packets stays in its buffer. The static buffers are large enough. The buffer of 1024
    characters is overrun exactly when a text of 1024 or more less what is before it is written while at least
    40 characters are left; so never when the paths and hosts have at most 27 characters and the other
    options at most 999 bytes. A text that is printed is all its pieces, and what fits with the 40
    characters to spare is printed. *)
Theorem packet_print_bounded header message (Hm : forall m, message = Some m -> message_ok m) :
  let pieces := print_pieces header message in
  let print := nc_coap_packet_print header message in
  (print = UB <-> exists pre p post, pieces = pre ++ p :: post /\ (length (concat pre) <= 984)%nat /\
     (1024 <= length (concat pre) + length p)%nat) /\
  (forall text, print = Def (Some text) -> text = concat pieces /\ (length text <= 1023)%nat) /\
  ((length (concat pieces) <= 984)%nat -> print = Def (Some (concat pieces))) /\
  ((length (c_text header) <= 900)%nat -> (forall m, message = Some m -> Forall short_option (cm_options m)) -> print <> UB).
Proof.
  cbv zeta. rewrite print_is_pieces by done. split_and!.
  - apply (write_ub _ []).
  - intros text E. by apply (write_text _ [] text E); cbn; lia.
  - intros Hl. by apply (write_fits _ []).
  - intros Hh Hs. by apply short_pieces.
Qed.
End Printer.

(** The numbers of the CoAP standard. *)
Definition example_print := nc_coap_packet_print 0 1 2 3 4 27 23 (fun _ _ => None).
Definition example_message (options : list coap_option) : coap_message :=
  mk_cm NABTO_COAP_TYPE_CON 1 4660 [1; 2] options 0.
Definition example_header : list Z := ascii_codes "coap server handle packet".

Lemma packet_print_bounded_witness :
  example_print example_header (Some (example_message [mk_co NABTO_COAP_OPTION_URI_PATH (ascii_codes "iam")])) =
    Def (Some (ascii_codes "coap server handle packetType: CON, Code: GET, MessageId: 4660, Token: 0102, Options:, Uri-Path: iam, Payload Length: 0")).
Proof.
  set (m := Some _).
  assert (Hm : forall x, m = Some x -> message_ok 27 23 (fun _ _ => None) x).
  { intros x [= <-]. split; [cbn; lia |]. repeat constructor; done. }
  destruct (packet_print_bounded 0 1 2 3 4 27 23 (fun _ _ => None) example_header m Hm) as (_ & _ & Hfit & _).
  unfold example_print. rewrite Hfit by (vm_compute; lia). vm_compute. reflexivity.
Defined.

(** A request with a path of 1000 characters overruns the buffer: this is a packet that a client can send. *)
Example long_path_overruns :
  example_print example_header (Some (example_message [mk_co NABTO_COAP_OPTION_URI_PATH (replicate 1000 97)])) = UB.
Proof. vm_compute. reflexivity. Qed.

(** Forty characters are not always enough for an option without a text of its own. *)
Example format_overruns :
  example_print example_header (Some (example_message
    (mk_co NABTO_COAP_OPTION_URI_PATH (replicate 887 97) :: [mk_co NABTO_COAP_OPTION_CONTENT_FORMAT (replicate 1000 0)]))) = UB /\
  is_def (example_print example_header (Some (example_message
    (mk_co NABTO_COAP_OPTION_URI_PATH (replicate 887 97) :: [mk_co NABTO_COAP_OPTION_CONTENT_FORMAT (replicate 999 0)])))) = true.
Proof. vm_compute. done. Qed.

(** ** The log (np_logging.h, nabto_device_logging.c, nm_unix_logging.c, nm_logging_test.c) *)

#[local] Open Scope handler_scope.

Inductive NabtoDeviceLogLevel : Type :=
| NABTO_DEVICE_LOG_FATAL
| NABTO_DEVICE_LOG_ERROR
| NABTO_DEVICE_LOG_WARN
| NABTO_DEVICE_LOG_INFO
| NABTO_DEVICE_LOG_TRACE.

Record NabtoDeviceLogMessage : Type := mk_lm {
  lm_severity : NabtoDeviceLogLevel;
  lm_file : list Z;
  lm_line : Z;
  lm_message : list Z
}.

(** The functions that [np_log.log] can be. *)
Inductive log_function : Type := np_default_log | logging_log | nm_unix_log | nm_test_log.

(** [logCallback] is [None] for [default_log_callback]; [lg_logLevel] is that of nm_logging_test.c. *)
Record logging : Type := mk_lg {
  lg_log : log_function;
  lg_level : Z;
  lg_logCallback : option nat;
  lg_userData : nat;
  lg_logLevel : Z
}.

Inductive log_call : Type :=
| LgCallback (cb : nat) (msg : NabtoDeviceLogMessage) (userData : nat)
| LgPrint (text : list Z).

Definition lg_uhandler (A : Type) : Type := uhandler logging log_call A.

Definition logging_start : logging := mk_lg np_default_log NABTO_LOG_SEVERITY_LEVEL_INFO None 0 0.

Definition NM_UNIX_LOGGING_FILE_LENGTH : nat := 24.
Definition NM_API_LOGGING_FILE_LENGTH : nat := 24.

(** [fileTmp], of [room] characters and four more; the same lines are in three files. *)
Definition fileTmp (room : nat) (file : list Z) : cres (list Z) :=
  let fileLen := length file in
  if (room <? fileLen)%nat
  then let! dots := sprintf (room + 4) (ascii_codes "...") in
       let! tail := sprintf (room + 4 - 3) (drop (fileLen - room) file) in Def (dots ++ tail)
  else sprintf (room + 4) file.

Definition NABTO_LOG_SEVERITY_ERROR : Z := 2.
Definition NABTO_LOG_SEVERITY_WARN : Z := 4.
Definition NABTO_LOG_SEVERITY_INFO : Z := 8.
Definition NABTO_LOG_SEVERITY_TRACE : Z := 16.

(** The strings that [strcpy] puts in [level]; it is not initialized for other severities. *)
Definition level_text (severity : Z) : cres (list Z) :=
  if severity =? NABTO_LOG_SEVERITY_ERROR then sprintf 6 (ascii_codes "ERROR")
  else if severity =? NABTO_LOG_SEVERITY_WARN then sprintf 6 (ascii_codes "_WARN")
  else if severity =? NABTO_LOG_SEVERITY_INFO then sprintf 6 (ascii_codes "_INFO")
  else if severity =? NABTO_LOG_SEVERITY_TRACE then sprintf 6 (ascii_codes "TRACE")
  else UB.

Definition NABTO_LOG_MODULE_ALL : Z := 4294967295.

(** The test of the filters, with the default filters and with a level. *)
Definition passes (filter severity module : Z) : bool :=
  negb (Z.land filter severity =? 0) && (negb (Z.land NABTO_LOG_MODULE_ALL module =? 0) || (module =? 0)).

(** [time]: the time of day. *)
Definition nm_unix_log_body (time : Z * Z * Z * Z) (severity module line : Z) (file text : list Z) : lg_uhandler unit :=
  if passes NABTO_LOG_SEVERITY_LEVEL_INFO severity module then
    let+ file := uof (fileTmp NM_UNIX_LOGGING_FILE_LENGTH file) in
    let+ level := uof (level_text severity) in
    let '(hour, min, sec, ms) := time in
    ulift (emit (LgPrint (show_u0 2 hour ++ ascii_codes ":" ++ show_u0 2 min ++ ascii_codes ":" ++ show_u0 2 sec ++
                          ascii_codes ":" ++ show_u0 3 ms ++ ascii_codes " " ++ file ++ ascii_codes "(" ++ show_u0 3 line ++
                          ascii_codes ")[" ++ level ++ ascii_codes "] ")) ;;;
           emit (LgPrint text) ;;; emit (LgPrint [10]))
  else ulift hskip.

Definition nm_test_log_body (severity module line : Z) (file text : list Z) : lg_uhandler unit :=
  let+ s := ulift hget in
  if passes (lg_logLevel s) severity module then
    let+ file := uof (fileTmp NM_UNIX_LOGGING_FILE_LENGTH file) in
    let+ level := uof (level_text severity) in
    ulift (emit (LgPrint (file ++ ascii_codes "(" ++ show_u0 3 line ++ ascii_codes ")[" ++ level ++ ascii_codes "] ")) ;;;
           emit (LgPrint text) ;;; emit (LgPrint [10]))
  else ulift hskip.

Definition api_severity (severity : Z) : NabtoDeviceLogLevel :=
  if severity =? NABTO_LOG_SEVERITY_ERROR then NABTO_DEVICE_LOG_ERROR
  else if severity =? NABTO_LOG_SEVERITY_WARN then NABTO_DEVICE_LOG_WARN
  else if severity =? NABTO_LOG_SEVERITY_INFO then NABTO_DEVICE_LOG_INFO
  else if severity =? NABTO_LOG_SEVERITY_TRACE then NABTO_DEVICE_LOG_TRACE
  else NABTO_DEVICE_LOG_ERROR.

(** [vsnprintf] cuts the text to 255 characters. *)
Definition logging_log_body (severity line : Z) (file text : list Z) : lg_uhandler unit :=
  let+ s := ulift hget in
  if negb (Z.land (lg_level s) severity =? 0) then
    let log := take 255 text in
    let msg := mk_lm (api_severity severity) file line log in
    match lg_logCallback s with
    | Some cb => ulift (emit (LgCallback cb msg (lg_userData s)))
    | None => ulift hskip
    end
  else ulift hskip.

(** [np_log.log]. *)
Definition np_log (time : Z * Z * Z * Z) (severity module line : Z) (file text : list Z) : lg_uhandler unit :=
  let+ s := ulift hget in
  match lg_log s with
  | np_default_log => ulift hskip
  | logging_log => logging_log_body severity line file text
  | nm_unix_log => nm_unix_log_body time severity module line file text
  | nm_test_log => nm_test_log_body severity module line file text
  end.

(** The adapters of the macros do not look at the severity they get; built with variadic macros. *)
Definition np_error_adapter time (severity module line : Z) file text := np_log time NABTO_LOG_SEVERITY_ERROR module line file text.
Definition np_warn_adapter time (severity module line : Z) file text := np_log time NABTO_LOG_SEVERITY_WARN module line file text.
Definition np_info_adapter time (severity module line : Z) file text := np_log time NABTO_LOG_SEVERITY_INFO module line file text.
Definition np_trace_adapter time (severity module line : Z) file text := np_log time NABTO_LOG_SEVERITY_TRACE module line file text.
Definition np_raw_adapter time (severity module line : Z) file text := np_log time severity module line file text.

Definition nabto_device_logging_init : lg_uhandler unit :=
  ulift (hmod (fun s => s {{ lg_log := logging_log; lg_logCallback := None; lg_userData := 0%nat }})).
Definition nabto_device_logging_set_level (level : Z) : lg_uhandler unit := ulift (hmod (fun s => s {{ lg_level := level }})).
Definition nabto_device_logging_set_callback (cb : option nat) (data : nat) : lg_uhandler unit :=
  ulift (hmod (fun s => s {{ lg_userData := data; lg_logCallback := cb }})).
Definition nm_logging_unix_init : lg_uhandler unit := ulift (hmod (fun s => s {{ lg_log := nm_unix_log }})).

(** [logLevelStr]: the variable of the environment in lower case, which is what [strcasecmp] compares. *)
Definition nm_logging_test_init (logLevelStr : option string) : lg_uhandler unit :=
  let+ _ := ulift (hmod (fun s => s {{ lg_log := nm_test_log }})) in
  match logLevelStr with
  | None => ulift hskip
  | Some l =>
      if bool_decide (l = "trace"%string) then ulift (hmod (fun s => s {{ lg_logLevel := NABTO_LOG_SEVERITY_LEVEL_TRACE }}))
      else if bool_decide (l = "info"%string) then ulift (hmod (fun s => s {{ lg_logLevel := NABTO_LOG_SEVERITY_LEVEL_INFO }}))
      else if bool_decide (l = "warn"%string) then ulift (hmod (fun s => s {{ lg_logLevel := NABTO_LOG_SEVERITY_LEVEL_WARN }}))
      else if bool_decide (l = "error"%string) then ulift (hmod (fun s => s {{ lg_logLevel := NABTO_LOG_SEVERITY_LEVEL_ERROR }}))
      else ulift hskip
  end.

Definition nabto_device_log_severity_as_string (severity : NabtoDeviceLogLevel) : list Z :=
  match severity with
  | NABTO_DEVICE_LOG_ERROR => ascii_codes "ERROR"
  | NABTO_DEVICE_LOG_WARN => ascii_codes "WARN"
  | NABTO_DEVICE_LOG_INFO => ascii_codes "INFO"
  | NABTO_DEVICE_LOG_TRACE => ascii_codes "TRACE"
  | NABTO_DEVICE_LOG_FATAL => ascii_codes "NONE"
  end.

(** [now]: the timestamp. *)
Definition nabto_device_logging_std_out_callback (now : Z) (msg : NabtoDeviceLogMessage) : cres (list Z) :=
  let milliseconds := now mod 1000 in
  let seconds := (now / 1000) mod 1000 in
  let! file := fileTmp NM_API_LOGGING_FILE_LENGTH (lm_file msg) in
  let level := match lm_severity msg with
               | NABTO_DEVICE_LOG_ERROR => ascii_codes "ERROR"
               | NABTO_DEVICE_LOG_WARN => ascii_codes "_WARN"
               | NABTO_DEVICE_LOG_INFO => ascii_codes "_INFO"
               | NABTO_DEVICE_LOG_TRACE => ascii_codes "TRACE"
               | NABTO_DEVICE_LOG_FATAL => ascii_codes "_NONE"
               end in
  Def (show_u0 2 seconds ++ ascii_codes "." ++ show_u0 2 milliseconds ++ ascii_codes " " ++ file ++ ascii_codes "(" ++
       show_u0 3 (lm_line msg) ++ ascii_codes ")[" ++ level ++ ascii_codes "] " ++ lm_message msg ++ [10]).

(** *** apps/common/logging.c *)

Definition truncated_file_name (filename : list Z) : list Z :=
  let len := length filename in if (24 <? len)%nat then drop (len - 24) filename else filename.

Definition line_as_str (line : Z) : cres (list Z) :=
  if line <? 10 then sprintf 32 (show_d line ++ ascii_codes "   ")
  else if line <? 100 then sprintf 32 (show_d line ++ ascii_codes "  ")
  else if line <? 1000 then sprintf 32 (show_d line ++ ascii_codes " ")
  else sprintf 32 (show_d line).

Definition device_severity_as_string (severity : NabtoDeviceLogLevel) : list Z :=
  match severity with
  | NABTO_DEVICE_LOG_FATAL => ascii_codes "FATAL"
  | NABTO_DEVICE_LOG_ERROR => ascii_codes "ERROR"
  | NABTO_DEVICE_LOG_WARN => ascii_codes "WARN "
  | NABTO_DEVICE_LOG_INFO => ascii_codes "INFO "
  | NABTO_DEVICE_LOG_TRACE => ascii_codes "TRACE"
  end.

Definition device_log (msg : NabtoDeviceLogMessage) : cres (list Z) :=
  let! line := line_as_str (lm_line msg) in
  Def (truncated_file_name (lm_file msg) ++ ascii_codes ":" ++ line ++ ascii_codes " " ++
       device_severity_as_string (lm_severity msg) ++ ascii_codes " - " ++ lm_message msg ++ [10]).

(** ** Lemmas of the log *)

Lemma file_fits room file : exists text, fileTmp room file = Def text /\ (length text <= room + 3)%nat /\
  text = (if (room <? length file)%nat then ascii_codes "..." ++ drop (length file - room) file else file).
Proof.
  unfold fileTmp. destruct (room <? length file)%nat eqn:E; rewrite ?Nat.ltb_lt, ?Nat.ltb_ge in E.
  - rewrite sprintf_fits by (cbn; lia). cbn [cres_bind]. rewrite sprintf_fits by (rewrite length_drop; lia). cbn [cres_bind].
    eexists. split; [done |]. split; [| done]. rewrite length_app, length_drop. cbn. lia.
  - rewrite sprintf_fits by lia. exists file. split; [done |]. split; [lia | done].
Qed.

Lemma line_fits line : is_def (line_as_str line) = true.
Proof.
  unfold line_as_str. pose proof (show_d_length line). repeat goal_if; rewrite sprintf_fits; try done;
    rewrite ?length_app; cbn [length ascii_codes map String.list_ascii_of_string]; lia.
Qed.

Lemma std_out_defined now msg : is_def (nabto_device_logging_std_out_callback now msg) = true.
Proof. unfold nabto_device_logging_std_out_callback. by destruct (file_fits NM_API_LOGGING_FILE_LENGTH (lm_file msg)) as (t & -> & _). Qed.

Lemma device_log_defined msg : is_def (device_log msg) = true.
Proof. unfold device_log. pose proof (line_fits (lm_line msg)). by destruct (line_as_str (lm_line msg)). Qed.

(** The callback of the application gets a message exactly when the level has its severity, with at most 255
    characters of the text. *)
Lemma callback_iff time s severity module line file text cb :
  lg_log s = logging_log -> lg_logCallback s = Some cb ->
  exists t, np_log time severity module line file text s = Def (tt, s, t) /\
    t = (if Z.land (lg_level s) severity =? 0 then []
         else [LgCallback cb (mk_lm (api_severity severity) file line (take 255 text)) (lg_userData s)]).
Proof.
  intros Hl Hc. unfold np_log. rewrite u_hget, Hl. unfold logging_log_body. rewrite u_hget.
  destruct (Z.land (lg_level s) severity =? 0); cbn [negb]; [by eexists |]. rewrite Hc. by eexists.
Qed.

(** The macros of the code never reach the severities for which the text of the level is not set. *)
Lemma macros_defined time s module line file text severity :
  severity ∈ [NABTO_LOG_SEVERITY_ERROR; NABTO_LOG_SEVERITY_WARN; NABTO_LOG_SEVERITY_INFO; NABTO_LOG_SEVERITY_TRACE] ->
  exists t, np_log time severity module line file text s = Def (tt, s, t).
Proof.
  intros Hs. assert (Hlev : exists l, level_text severity = Def l).
  { repeat (apply elem_of_cons in Hs as [-> | Hs]; [by eexists |]). by apply elem_of_nil in Hs. }
  destruct Hlev as [l Hl]. unfold np_log. rewrite u_hget. destruct (lg_log s).
  - by eexists.
  - unfold logging_log_body. rewrite u_hget. destruct (negb _); [destruct (lg_logCallback s) |]; by eexists.
  - unfold nm_unix_log_body. destruct (passes _ _ _); [| by eexists].
    destruct (file_fits NM_UNIX_LOGGING_FILE_LENGTH file) as (f & -> & _). rewrite u_def, Hl, u_def.
    destruct time as [[[??]?]?]. by eexists.
  - unfold nm_test_log_body. rewrite u_hget. destruct (passes _ _ _); [| by eexists].
    destruct (file_fits NM_UNIX_LOGGING_FILE_LENGTH file) as (f & -> & _). rewrite u_def, Hl, u_def. by eexists.
Qed.

(** Five milliseconds are written as fifty hundredths would be: two digits are not enough. *)
Example milliseconds_ambiguous :
  let msg := mk_lm NABTO_DEVICE_LOG_INFO (ascii_codes "a.c") 7 (ascii_codes "x") in
  nabto_device_logging_std_out_callback 1005 msg = Def (ascii_codes "01.05 a.c(007)[_INFO] x" ++ [10]) /\
  nabto_device_logging_std_out_callback 1050 msg = Def (ascii_codes "01.50 a.c(007)[_INFO] x" ++ [10]).
Proof. vm_compute. done. Qed.
