(* ===== verification/DtlsConfig.v ===== *)
(** * Configuration of the DTLS modules (nm_mbedtls_srv.c, nm_mbedtls_cli.c, nm_mbedtls_util.c, nm_mbedtls_random.c)

    How the server and the client set up mbedTLS: their objects, and the settings they ask for. The statuses of the
    functions of mbedTLS are arguments; of the library is used what its documentation says: an object is initialized
    before use and freed once, a key is parsed into an empty object, and settings are stored. The
    connections are in DtlsServer.v and DtlsClient.v. *)

From S2P Require Import Prelude Platform Dtls Logging.
From stdpp Require Import strings.

#[local] Open Scope Z_scope.
#[local] Open Scope list_scope.
#[local] Open Scope handler_scope.

(** ** Objects of the library *)

(** [Unset]: not initialized. *)
Inductive object_state : Type := Unset | Empty | Filled.

Inductive tls_object : Type := Entropy | CtrDrbg | Conf | PublicKey | PrivateKey | Ssl.

Definition same_object (a b : tls_object) : bool :=
  match a, b with
  | Entropy, Entropy | CtrDrbg, CtrDrbg | Conf, Conf | PublicKey, PublicKey | PrivateKey, PrivateKey | Ssl, Ssl => true
  | _, _ => false
  end.

Inductive tls_endpoint : Type := MBEDTLS_SSL_IS_CLIENT | MBEDTLS_SSL_IS_SERVER.
Inductive tls_authmode : Type := AuthDefault | MBEDTLS_SSL_VERIFY_OPTIONAL.

(** [mbedtls_ssl_config]: what was asked for; [cf_own_certs]: the keys and certificates, in PEM. *)
Record ssl_conf : Type := mk_conf {
  cf_endpoint : option tls_endpoint;
  cf_ciphersuites : list string;
  cf_alpn : list string;
  cf_authmode : tls_authmode;
  cf_rng : bool;
  cf_own_certs : list (list Z * list Z);
  cf_timeout : option (Z * Z)
}.

Definition conf_zero : ssl_conf := mk_conf None [] [] AuthDefault false [] None.

(** [tl_lost]: objects with contents that were initialized again; their memory is lost. [tl_publicKey] and
    [tl_privateKey] are the texts in the objects; [tl_hostname], [tl_bio] are of [ssl]. *)
Record tls_state : Type := mk_tl {
  tl_object : tls_object -> object_state;
  tl_conf : ssl_conf;
  tl_publicKey : list Z;
  tl_privateKey : list Z;
  tl_hostname : option string;
  tl_bio : bool;
  tl_lost : list tls_object
}.

Definition tl_uhandler (A : Type) : Type := uhandler tls_state Empty_set A.

Definition set_object (o : tls_object) (st : object_state) (f : tls_object -> object_state) : tls_object -> object_state :=
  fun o' => if same_object o' o then st else f o'.

Definition tl_init (o : tls_object) : tl_uhandler unit :=
  ulift (hmod (fun s => (match tl_object s o with Filled => s {{ tl_lost ::= fun l => l ++ [o] }} | _ => s end)
                          {{ tl_object ::= set_object o Empty }})).

(** Freeing an object that is not initialized is undefined. *)
Definition tl_free (o : tls_object) : tl_uhandler unit :=
  let+ s := ulift hget in
  match tl_object s o with
  | Unset => uof UB
  | _ => ulift (hmod (fun s => s {{ tl_object ::= set_object o Unset }}))
  end.

(** An object gets contents; [empty]: the documentation wants it to be empty. *)
Definition tl_fill (empty : bool) (o : tls_object) : tl_uhandler unit :=
  let+ s := ulift hget in
  match tl_object s o with
  | Unset => uof UB
  | Filled => if empty then uof UB else ulift hskip
  | Empty => ulift (hmod (fun s => s {{ tl_object ::= set_object o Filled }}))
  end.

Definition tl_set (f : ssl_conf -> ssl_conf) : tl_uhandler unit :=
  let+ s := ulift hget in
  match tl_object s Conf with
  | Unset => uof UB
  | _ => ulift (hmod (fun s => s {{ tl_conf ::= f }}))
  end.

(** [mbedtls_ssl_config_defaults], [mbedtls_ctr_drbg_seed], [mbedtls_x509_crt_parse], [mbedtls_pk_parse_key] and
    [mbedtls_ssl_conf_own_cert], with their statuses. *)
Definition config_defaults (ret : Z) (endpoint : tls_endpoint) : tl_uhandler Z :=
  if ret =? 0 then
    let+ _ := tl_set (fun c => c {{ cf_endpoint := Some endpoint; cf_authmode := AuthDefault }}) in
    let+ _ := tl_fill false Conf in ulift (hret 0)
  else ulift (hret ret).
Definition ctr_drbg_seed (ret : Z) : tl_uhandler Z :=
  if ret =? 0 then let+ _ := tl_fill false CtrDrbg in ulift (hret 0) else ulift (hret ret).
Definition x509_crt_parse (ret : Z) (pem : list Z) : tl_uhandler Z :=
  if ret =? 0 then
    let+ _ := tl_fill false PublicKey in
    let+ _ := ulift (hmod (fun s => s {{ tl_publicKey := pem }})) in ulift (hret 0)
  else ulift (hret ret).
Definition pk_parse_key (ret : Z) (pem : list Z) : tl_uhandler Z :=
  if ret =? 0 then
    let+ _ := tl_fill true PrivateKey in
    let+ _ := ulift (hmod (fun s => s {{ tl_privateKey := pem }})) in ulift (hret 0)
  else ulift (hret ret).
Definition conf_own_cert (ret : Z) : tl_uhandler Z :=
  if ret =? 0 then
    let+ s := ulift hget in
    let+ _ := tl_set (fun c => c {{ cf_own_certs ::= fun l => l ++ [(tl_publicKey s, tl_privateKey s)] }}) in ulift (hret 0)
  else ulift (hret ret).

Definition tl_zero : tls_state := mk_tl (fun _ => Unset) conf_zero [] [] None false [].

Definition allowedCipherSuitesList : list string := ["MBEDTLS_TLS_ECDHE_ECDSA_WITH_AES_128_CCM"%string].

Section DtlsConfig.
(** [NABTO_PROTOCOL_VERSION]. *)
Variable protocol_version : string.
Definition alpnList : list string := [protocol_version].

(** The statuses of the library in a configuration. *)
Record conf_answers : Type := mk_an {
  an_defaults : Z;
  an_seed : Z;
  an_crt : Z;
  an_key : Z;
  an_own : Z
}.

(** ** The server *)

Definition nm_mbedtls_srv_create (allocated : bool) : np_error_code * option tls_state :=
  if allocated then
    match (let+ _ := tl_init Conf in
           let+ _ := tl_init Entropy in
           let+ _ := tl_init CtrDrbg in
           let+ _ := tl_init PublicKey in
           tl_init PrivateKey) tl_zero with
    | Def (_, s, _) => (NABTO_EC_OK, Some s)
    | UB => (NABTO_EC_OK, None)
    end
  else (NABTO_EC_OUT_OF_MEMORY, None).

Definition nm_mbedtls_srv_destroy : tl_uhandler unit :=
  let+ _ := tl_free Conf in
  let+ _ := tl_free Entropy in
  let+ _ := tl_free CtrDrbg in
  let+ _ := tl_free PublicKey in
  tl_free PrivateKey.

(** Built with MBEDTLS_SSL_DTLS_HELLO_VERIFY, whose cookies are turned off. *)
Definition nm_mbedtls_srv_init_config (an : conf_answers) (publicKeyL privateKeyL : list Z) : tl_uhandler np_error_code :=
  let+ ret := config_defaults (an_defaults an) MBEDTLS_SSL_IS_SERVER in
  if negb (ret =? 0) then ulift (hret NABTO_EC_UNKNOWN)
  else
    let+ _ := tl_set (fun c => c {{ cf_ciphersuites := allowedCipherSuitesList }}) in
    let+ _ := tl_set (fun c => c {{ cf_alpn := alpnList }}) in
    let+ ret := ctr_drbg_seed (an_seed an) in
    if negb (ret =? 0) then ulift (hret NABTO_EC_UNKNOWN)
    else
      let+ _ := tl_set (fun c => c {{ cf_rng := true }}) in
      let+ ret := x509_crt_parse (an_crt an) publicKeyL in
      if negb (ret =? 0) then ulift (hret NABTO_EC_UNKNOWN)
      else
        let+ ret := pk_parse_key (an_key an) privateKeyL in
        if negb (ret =? 0) then ulift (hret NABTO_EC_UNKNOWN)
        else
          let+ ret := conf_own_cert (an_own an) in
          if negb (ret =? 0) then ulift (hret NABTO_EC_UNKNOWN)
          else
            let+ _ := tl_set (fun c => c {{ cf_timeout := Some (1000, 16000) }}) in
            ulift (hret NABTO_EC_OK).

Definition nm_mbedtls_srv_set_keys := nm_mbedtls_srv_init_config.

(** [crt]: the certificate of the peer, as what [nm_dtls_util_fp_from_crt] gets from it. *)
Definition nm_mbedtls_srv_get_fingerprint (crt : option (Z * list Z)) (sha256 : list Z -> Z * list Z) :
    np_error_code * list Z :=
  match crt with
  | None => (NABTO_EC_UNKNOWN, [])
  | Some (len, der) => nm_dtls_util_fp_from_crt len der sha256
  end.

Definition nm_mbedtls_srv_get_server_fingerprint (publicKey : Z * list Z) (sha256 : list Z -> Z * list Z) :
    np_error_code * list Z :=
  nm_dtls_util_fp_from_crt publicKey.1 publicKey.2 sha256.

(** The severity of the log line for a level of the library. *)
Definition nm_mbedtls_srv_tls_logger (level : Z) : Z :=
  if level =? 1 then NABTO_LOG_SEVERITY_ERROR else if level =? 2 then NABTO_LOG_SEVERITY_INFO else NABTO_LOG_SEVERITY_TRACE.

(** ** The client *)

(** The objects that [nm_mbedtls_cli_create] initializes. *)
Definition cli_objects : tl_uhandler unit :=
  let+ _ := tl_init Ssl in
  let+ _ := tl_init Conf in
  let+ _ := tl_init CtrDrbg in
  let+ _ := tl_init Entropy in
  let+ _ := tl_init PublicKey in
  tl_init PrivateKey.

(** [timer]: the answer of [nm_mbedtls_timer_init]. *)
Definition dtls_cli_init_connection (timer : np_error_code) (an : conf_answers) : tl_uhandler np_error_code :=
  if is_error timer then ulift (hret timer)
  else
    let+ ret := ctr_drbg_seed (an_seed an) in
    if negb (ret =? 0) then ulift (hret NABTO_EC_UNKNOWN)
    else
      let+ ret := config_defaults (an_defaults an) MBEDTLS_SSL_IS_CLIENT in
      if negb (ret =? 0) then ulift (hret NABTO_EC_UNKNOWN)
      else
        let+ _ := tl_set (fun c => c {{ cf_ciphersuites := allowedCipherSuitesList }}) in
        let+ _ := tl_set (fun c => c {{ cf_alpn := alpnList }}) in
        let+ _ := tl_set (fun c => c {{ cf_authmode := MBEDTLS_SSL_VERIFY_OPTIONAL }}) in
        let+ _ := tl_set (fun c => c {{ cf_rng := true }}) in
        let+ _ := ulift (hmod (fun s => s {{ tl_bio := true }})) in
        ulift (hret NABTO_EC_OK).

Definition nm_mbedtls_cli_set_sni (ret : Z) (sniName : string) : tl_uhandler np_error_code :=
  if negb (ret =? 0) then ulift (hret NABTO_EC_UNKNOWN)
  else ulift (hmod (fun s => s {{ tl_hostname := Some sniName }}) ;;; hret NABTO_EC_OK).

Definition nm_mbedtls_cli_set_keys (an : conf_answers) (publicKeyL privateKeyL : list Z) : tl_uhandler np_error_code :=
  let+ _ := tl_init PublicKey in
  let+ _ := tl_init PrivateKey in
  let+ ret := x509_crt_parse (an_crt an) publicKeyL in
  if negb (ret =? 0) then ulift (hret NABTO_EC_UNKNOWN)
  else
    let+ ret := pk_parse_key (an_key an) privateKeyL in
    if negb (ret =? 0) then ulift (hret NABTO_EC_UNKNOWN)
    else
      let+ ret := conf_own_cert (an_own an) in
      if negb (ret =? 0) then ulift (hret NABTO_EC_UNKNOWN) else ulift (hret NABTO_EC_OK).

Definition set_handshake_timeout (minTimeout maxTimeout : Z) : tl_uhandler np_error_code :=
  let+ _ := tl_set (fun c => c {{ cf_timeout := Some (minTimeout, maxTimeout) }}) in ulift (hret NABTO_EC_OK).

Definition get_fingerprint := nm_mbedtls_srv_get_fingerprint.
Definition my_debug := nm_mbedtls_srv_tls_logger.

(** What [nm_mbedtls_cli_do_free] frees of the library. *)
Definition cli_free_objects : tl_uhandler unit :=
  let+ _ := tl_free PrivateKey in
  let+ _ := tl_free PublicKey in
  let+ _ := tl_free Entropy in
  let+ _ := tl_free CtrDrbg in
  let+ _ := tl_free Conf in
  tl_free Ssl.

(** ** Random numbers (nm_mbedtls_random.c) *)

Definition free_random_ctx : tl_uhandler unit := let+ _ := tl_free CtrDrbg in tl_free Entropy.

(** The answer, and the context that is kept. *)
Definition nm_mbedtls_random_init (allocated : bool) (seed : Z) : cres (bool * option tls_state) :=
  if negb allocated then Def (false, None)
  else
    match (let+ _ := tl_init CtrDrbg in
           let+ _ := tl_init Entropy in
           let+ ret := ctr_drbg_seed seed in
           if negb (ret =? 0) then let+ _ := free_random_ctx in ulift (hret false) else ulift (hret true)) tl_zero with
    | UB => UB
    | Def (b, s, _) => Def (b, if b : bool then Some s else None)
    end.

Definition nm_mbedtls_random_deinit : tl_uhandler unit := free_random_ctx.

Definition make_random (ret : Z) : np_error_code := if ret =? 0 then NABTO_EC_OK else NABTO_EC_UNKNOWN.

(** ** The settings are kept *)

Inductive cli_conf_input : Type :=
| CsKeys (an : conf_answers) (publicKey privateKey : list Z)
| CsSni (ret : Z) (name : string)
| CsTimeout (min max : Z).

Definition cli_conf_step (i : cli_conf_input) : tl_uhandler np_error_code :=
  match i with
  | CsKeys an pk sk => nm_mbedtls_cli_set_keys an pk sk
  | CsSni ret name => nm_mbedtls_cli_set_sni ret name
  | CsTimeout min max => set_handshake_timeout min max
  end.

Fixpoint cli_conf_run (inputs : list cli_conf_input) : tl_uhandler (list np_error_code) :=
  match inputs with
  | [] => ulift (hret [])
  | i :: rest => let+ ec := cli_conf_step i in let+ ecs := cli_conf_run rest in ulift (hret (ec :: ecs))
  end.

(** [nm_mbedtls_cli_create] up to the set up of the connection. *)
Definition cli_conf_create (an : conf_answers) : tl_uhandler np_error_code :=
  let+ _ := cli_objects in dtls_cli_init_connection NABTO_EC_OK an.

(** The keys that were accepted, and the timeouts that were asked for. *)
Definition accepted_keys (inputs : list cli_conf_input) (ecs : list np_error_code) : list (list Z * list Z) :=
  omap (fun x => match x with (CsKeys _ pk sk, NABTO_EC_OK) => Some (pk, sk) | _ => None end) (zip inputs ecs).
Definition last_timeout (inputs : list cli_conf_input) : option (Z * Z) :=
  fold_left (fun acc i => match i with CsTimeout min max => Some (min, max) | _ => acc end) inputs None.
Definition key_calls (inputs : list cli_conf_input) : nat :=
  length (List.filter (fun i => match i with CsKeys _ _ _ => true | _ => false end) inputs).

Definition ready_conf (c : ssl_conf) : Prop :=
  cf_ciphersuites c = allowedCipherSuitesList /\ cf_alpn c = alpnList /\ cf_rng c = true.

Definition cli_objects_ok (s : tls_state) : Prop :=
  tl_object s Ssl = Empty /\ tl_object s Entropy = Empty /\ tl_object s CtrDrbg = Filled /\ tl_object s Conf = Filled /\
  tl_object s PublicKey <> Unset /\ tl_object s PrivateKey <> Unset.

(** [n] is the number of calls of [set_keys] so far. *)
Record cli_conf_inv (keys : list (list Z * list Z)) (timeout : option (Z * Z)) (n : nat) (s : tls_state) : Prop := {
  cci_conf : ready_conf (tl_conf s) /\ cf_endpoint (tl_conf s) = Some MBEDTLS_SSL_IS_CLIENT /\
             cf_authmode (tl_conf s) = MBEDTLS_SSL_VERIFY_OPTIONAL;
  cci_keys : cf_own_certs (tl_conf s) = keys;
  cci_timeout : cf_timeout (tl_conf s) = timeout;
  cci_objects : cli_objects_ok s;
  cci_lost : (length (tl_lost s) <= 2 * pred n)%nat;
  cci_fresh : n = 0%nat -> tl_object s PublicKey = Empty /\ tl_object s PrivateKey = Empty
}.

Lemma tl_init_run o s :
  tl_init o s = Def (tt, mk_tl (set_object o Empty (tl_object s)) (tl_conf s) (tl_publicKey s) (tl_privateKey s) (tl_hostname s)
    (tl_bio s) (match tl_object s o with Filled => tl_lost s ++ [o] | _ => tl_lost s end), []).
Proof. unfold tl_init, ulift, hmod. destruct s. cbn. by destruct (tl_object0 o). Qed.

Local Ltac finish_keys :=
  try done; try congruence; try (by subst);
  try (intros [] ? ?; cbn; try done; match goal with H : forall o, _ -> _ -> _ = _ |- _ => by apply H end).

Lemma set_keys_run an pk sk s :
  tl_object s Conf <> Unset ->
  exists ec s', nm_mbedtls_cli_set_keys an pk sk s = Def (ec, s', []) /\
    (forall o, o <> PublicKey -> o <> PrivateKey -> tl_object s' o = tl_object s o) /\
    tl_object s' PublicKey <> Unset /\ tl_object s' PrivateKey <> Unset /\
    tl_conf s' = (if ec_eqb ec NABTO_EC_OK then (tl_conf s) {{ cf_own_certs ::= fun l => l ++ [(pk, sk)] }} else tl_conf s) /\
    (length (tl_lost s') <= length (tl_lost s) + 2)%nat /\
    (tl_object s PublicKey = Empty /\ tl_object s PrivateKey = Empty -> tl_lost s' = tl_lost s).
Proof.
  intros Hc. unfold nm_mbedtls_cli_set_keys. rewrite (ubind_def _ _ _ _ _ _ (tl_init_run PublicKey s)).
  rewrite (ubind_def _ _ _ _ _ _ (tl_init_run PrivateKey _)). cbn [tl_object tl_conf tl_publicKey tl_privateKey tl_hostname tl_bio tl_lost].
  set (s1 := mk_tl _ _ _ _ _ _ _).
  assert (H1 : tl_object s1 PublicKey = Empty /\ tl_object s1 PrivateKey = Empty /\ tl_object s1 Conf <> Unset /\
    (forall o, o <> PublicKey -> o <> PrivateKey -> tl_object s1 o = tl_object s o) /\ tl_conf s1 = tl_conf s /\
    (length (tl_lost s1) <= length (tl_lost s) + 2)%nat /\
    (tl_object s PublicKey = Empty /\ tl_object s PrivateKey = Empty -> tl_lost s1 = tl_lost s)).
  { subst s1. cbn. unfold set_object. cbn. split_and!; try done.
    - intros o H1 H2. by destruct o.
    - destruct (tl_object s PublicKey), (tl_object s PrivateKey); rewrite ?length_app; cbn; lia.
    - by intros [-> ->]. }
  clearbody s1. destruct H1 as (Hp & Hk & Hcf & Ho & Hcc & Hl & Hf).
  destruct s1 as [ob cf pb pr hn bio lost]. cbn in *. unfold x509_crt_parse.
  destruct (an_crt an =? 0) eqn:E1; cycle 1.
  { eexists NABTO_EC_UNKNOWN, _. split; [cbn; rewrite E1; reflexivity |]. cbn. split_and!; finish_keys. }
  unfold tl_fill, pk_parse_key, conf_own_cert, tl_set, tl_fill, ubind, ulift, hget. cbn. rewrite Hp. cbn.
  unfold apply_update, set_object. cbn.
  destruct (an_key an =? 0) eqn:E2; cbn; cycle 1.
  { rewrite E2. cbn. eexists NABTO_EC_UNKNOWN, _. split; [reflexivity |]. cbn. split_and!; finish_keys. }
  rewrite Hk. cbn. unfold apply_update. cbn. destruct (an_own an =? 0) eqn:E3; cbn; cycle 1.
  { rewrite E3. cbn. eexists NABTO_EC_UNKNOWN, _. split; [reflexivity |]. cbn. split_and!; finish_keys. }
  destruct (ob Conf) eqn:Eo; [done | |];
    (eexists NABTO_EC_OK, _; split; [cbn; reflexivity |]; cbn; split_and!; finish_keys).
Qed.

Lemma keys_step_inv keys timeout n s an pk sk :
  cli_conf_inv keys timeout n s ->
  exists ec s', nm_mbedtls_cli_set_keys an pk sk s = Def (ec, s', []) /\
    cli_conf_inv (if ec_eqb ec NABTO_EC_OK then keys ++ [(pk, sk)] else keys) timeout (S n) s'.
Proof.
  intros [Hc Hk Ht Ho Hl Hf]. pose proof Ho as (O1 & O2 & O3 & O4 & O5 & O6).
  destruct (set_keys_run an pk sk s) as (ec & s' & E & Hob & Hp & Hpr & Hcf & Hls & Hlf); [by rewrite O4 |].
  exists ec, s'. split; [done |]. split.
  - rewrite Hcf. by destruct (ec_eqb ec NABTO_EC_OK), (tl_conf s).
  - rewrite Hcf. destruct (ec_eqb ec NABTO_EC_OK); [| done]. rewrite <- Hk. by destruct (tl_conf s).
  - rewrite Hcf. rewrite <- Ht. by destruct (ec_eqb ec NABTO_EC_OK), (tl_conf s).
  - unfold cli_objects_ok. rewrite !Hob by done. done.
  - destruct n as [| n]; [rewrite Hlf by (by apply Hf); done | cbn in *; lia].
  - done.
Qed.

Lemma cli_run_inv inputs : forall keys timeout n s,
  cli_conf_inv keys timeout n s ->
  exists ecs s', cli_conf_run inputs s = Def (ecs, s', []) /\ length ecs = length inputs /\
    cli_conf_inv (keys ++ accepted_keys inputs ecs)
      (fold_left (fun acc i => match i with CsTimeout min max => Some (min, max) | _ => acc end) inputs timeout)
      (n + key_calls inputs) s'.
Proof.
  induction inputs as [| i inputs IH]; intros keys timeout n s Hi.
  { exists [], s. rewrite app_nil_r, Nat.add_0_r. done. }
  assert (Hstep : exists ec s', cli_conf_step i s = Def (ec, s', []) /\
    cli_conf_inv (keys ++ accepted_keys [i] [ec]) (match i with CsTimeout min max => Some (min, max) | _ => timeout end)
      (n + key_calls [i]) s').
  { destruct i as [an pk sk | ret name | min max]; cbn [cli_conf_step].
    - destruct (keys_step_inv _ _ _ _ an pk sk Hi) as (ec & s' & E & Hi'). exists ec, s'. split; [done |].
      rewrite Nat.add_1_r. unfold accepted_keys. cbn. destruct ec; cbn in *; by rewrite ?app_nil_r.
    - unfold nm_mbedtls_cli_set_sni. destruct (negb (ret =? 0)); (eexists _, _; split; [reflexivity |]);
        cbn; rewrite ?app_nil_r, ?Nat.add_0_r; [done |]. destruct Hi as [H1 H2 H3 H4 H5 H6]. by destruct s.
    - unfold set_handshake_timeout, tl_set. pose proof Hi as [H1 H2 H3 H4 H5 H6]. destruct H4 as (O1 & O2 & O3 & O4 & O5 & O6).
      unfold ubind, ulift, hget. rewrite O4. cbn. eexists _, _. split; [reflexivity |]. rewrite app_nil_r, Nat.add_0_r.
      destruct s as [ob [] pb pr hn bio lost]. cbn in *. split; try done. }
  destruct Hstep as (ec & s1 & E & Hi1). destruct (IH _ _ _ _ Hi1) as (ecs & s2 & E2 & Hl & Hi2).
  exists (ec :: ecs), s2. split; [| split; [cbn; by rewrite Hl |]].
  - cbn [cli_conf_run]. rewrite (ubind_def _ _ _ _ _ _ E), (ubind_def _ _ _ _ _ _ E2). done.
  - assert (Ek : accepted_keys [i] [ec] ++ accepted_keys inputs ecs = accepted_keys (i :: inputs) (ec :: ecs)).
    { unfold accepted_keys. cbn. destruct i as [? pk sk | |]; try done. by destruct ec. }
    assert (En : (n + key_calls [i] + key_calls inputs = n + key_calls (i :: inputs))%nat).
    { unfold key_calls. cbn. destruct i; cbn; lia. }
    rewrite <- app_assoc, Ek, En in Hi2. by destruct i.
Qed.

Lemma create_inv an :
  an_seed an = 0 -> an_defaults an = 0 ->
  exists s, cli_conf_create an tl_zero = Def (NABTO_EC_OK, s, []) /\ cli_conf_inv [] None 0 s.
Proof.
  intros E1 E2. unfold cli_conf_create, dtls_cli_init_connection, ctr_drbg_seed, config_defaults. rewrite E1, E2.
  eexists. split; [reflexivity |]. split; cbn; first [done | lia | unfold cli_objects_ok; cbn; done].
Qed.

Definition all_unset (s : tls_state) : Prop := forall o, tl_object s o = Unset.

Lemma cli_freed s : cli_objects_ok s -> exists s', cli_free_objects s = Def (tt, s', []) /\ all_unset s' /\ tl_lost s' = tl_lost s.
Proof.
  intros (O1 & O2 & O3 & O4 & O5 & O6). destruct s as [ob cf pb pr hn bio lost]. cbn in *.
  unfold cli_free_objects, tl_free, ubind, ulift, hget. cbn. unfold apply_update, set_object.
  destruct (ob PrivateKey) eqn:E6; [done | |]; cbn; (destruct (ob PublicKey) eqn:E5; [done | |]); cbn;
    rewrite O2; cbn; rewrite O3; cbn; rewrite O4; cbn; rewrite O1; cbn;
    (eexists; split; [reflexivity |]; split; [by intros [] | done]).
Qed.


(** ** The server *)

Lemma srv_created : exists s, nm_mbedtls_srv_create true = (NABTO_EC_OK, Some s) /\ tl_lost s = [] /\
  exists s', nm_mbedtls_srv_destroy s = Def (tt, s', []) /\ all_unset s'.
Proof. eexists. split; [reflexivity |]. split; [done |]. eexists. split; [reflexivity |]. by intros []. Qed.

(** Setting the keys succeeds exactly when every function of the library does; the server then has exactly what was
    asked for. *)
Lemma srv_configured an pk sk s :
  nm_mbedtls_srv_create true = (NABTO_EC_OK, Some s) ->
  exists ec s', nm_mbedtls_srv_set_keys an pk sk s = Def (ec, s', []) /\
    (ec = NABTO_EC_OK <-> an_defaults an = 0 /\ an_seed an = 0 /\ an_crt an = 0 /\ an_key an = 0 /\ an_own an = 0) /\
    (ec = NABTO_EC_OK -> tl_conf s' = mk_conf (Some MBEDTLS_SSL_IS_SERVER) allowedCipherSuitesList alpnList AuthDefault true
                                        [(pk, sk)] (Some (1000, 16000))) /\
    exists s'', nm_mbedtls_srv_destroy s' = Def (tt, s'', []) /\ all_unset s''.
Proof.
  intros [= <-]. destruct an as [a1 a2 a3 a4 a5]. unfold nm_mbedtls_srv_set_keys, nm_mbedtls_srv_init_config.
  unfold config_defaults, ctr_drbg_seed, x509_crt_parse, pk_parse_key, conf_own_cert. cbn [an_defaults an_seed an_crt an_key an_own].
  destruct (a1 =? 0) eqn:E1; cycle 1.
  { eexists NABTO_EC_UNKNOWN, _. split; [cbn; rewrite E1; reflexivity |]. split_and!; [split; [done | lia] | done |].
    eexists. split; [reflexivity |]. by intros []. }
  destruct (a2 =? 0) eqn:E2; cycle 1.
  { eexists NABTO_EC_UNKNOWN, _. split; [cbn; rewrite E2; reflexivity |]. split_and!; [split; [done | lia] | done |].
    eexists. split; [reflexivity |]. by intros []. }
  destruct (a3 =? 0) eqn:E3; cycle 1.
  { eexists NABTO_EC_UNKNOWN, _. split; [cbn; rewrite E3; reflexivity |]. split_and!; [split; [done | lia] | done |].
    eexists. split; [reflexivity |]. by intros []. }
  destruct (a4 =? 0) eqn:E4; cycle 1.
  { eexists NABTO_EC_UNKNOWN, _. split; [cbn; rewrite E4; reflexivity |]. split_and!; [split; [done | lia] | done |].
    eexists. split; [reflexivity |]. by intros []. }
  destruct (a5 =? 0) eqn:E5; cycle 1.
  { eexists NABTO_EC_UNKNOWN, _. split; [cbn; rewrite E5; reflexivity |]. split_and!; [split; [done | lia] | done |].
    eexists. split; [reflexivity |]. by intros []. }
  eexists NABTO_EC_OK, _. split; [cbn; reflexivity |]. split_and!; [split; [lia | done] | done |].
  eexists. split; [reflexivity |]. by intros [].
Qed.

Lemma random_balanced allocated seed :
  exists b s, nm_mbedtls_random_init allocated seed = Def (b, s) /\
    (b = true <-> allocated = true /\ seed = 0) /\
    match s with None => b = false | Some s => exists s', nm_mbedtls_random_deinit s = Def (tt, s', []) /\ all_unset s' end.
Proof.
  unfold nm_mbedtls_random_init, ctr_drbg_seed. destruct allocated; cbn [negb]; cycle 1.
  { eexists false, None. split; [done |]. split; [naive_solver | done]. }
  destruct (seed =? 0) eqn:E.
  - eexists true, (Some _). split; [cbn; reflexivity |]. split; [split; [lia | done] |].
    eexists. split; [reflexivity |]. by intros [].
  - eexists false, None. split; [cbn; rewrite E; reflexivity |]. split; [split; [done | lia] | done].
Qed.
End DtlsConfig.

(** ** Examples *)

Definition all_ok : conf_answers := mk_an 0 0 0 0 0.
Definition example_conf : list cli_conf_input :=
  [CsTimeout 1000 16000; CsKeys all_ok [1] [2]; CsSni 0 "pr-1.devices.nabto.net"; CsKeys (mk_an 0 0 (-1) 0 0) [3] [4]].


(** Keys that are set again are parsed into an object that is not empty on the server, and lose the old ones on the
    client. *)
Example second_keys_undefined :
  match nm_mbedtls_srv_create true with
  | (_, Some s) => (let+ _ := nm_mbedtls_srv_set_keys "n5" all_ok [1] [2] in nm_mbedtls_srv_set_keys "n5" all_ok [1] [2]) s = UB
  | _ => False
  end.
Proof. reflexivity. Qed.

Example second_keys_lost :
  match (let+ _ := cli_conf_create "n5" all_ok in
         let+ _ := nm_mbedtls_cli_set_keys all_ok [1] [2] in nm_mbedtls_cli_set_keys all_ok [1] [2]) tl_zero with
  | Def (ec, s, _) => ec = NABTO_EC_OK /\ tl_lost s = [PublicKey; PrivateKey]
  | UB => False
  end.
Proof. vm_compute. done. Qed.
