(* ===== verification/Events.v ===== *)
(** * Listeners for events of the core (api/nabto_device_connection_events.c, nabto_device_events.c,
      nabto_device_event_handler.c)

    The core tells its listeners about connections and about the device; each listener of the application
    (Futures.v) has a context that is in the list of the core, and a queue of events. The two files have the
    same functions over different values, which is the class [EventKind]; at the end of the file they have
    their names. Contexts and events are allocated: a context points to one listener from the start, and
    an event is made for one, so that the heap is kept by listener. The mutex makes every function
    of the API a step. *)

From S2P Require Import Prelude Platform Collections Attacher ClientConnection Futures.
From stdpp Require Import functions gmap.

#[local] Open Scope Z_scope.
#[local] Open Scope list_scope.
#[local] Open Scope handler_scope.

Inductive nabto_device_listener_type : Type :=
| NABTO_DEVICE_LISTENER_TYPE_NONE
| NABTO_DEVICE_LISTENER_TYPE_CONNECTION_EVENTS
| NABTO_DEVICE_LISTENER_TYPE_DEVICE_EVENTS
| NABTO_DEVICE_LISTENER_TYPE_STREAMS
| NABTO_DEVICE_LISTENER_TYPE_COAP
| NABTO_DEVICE_LISTENER_TYPE_AUTHORIZATION
| NABTO_DEVICE_LISTENER_TYPE_PASSWORD_REQUESTS.

#[global] Instance listener_type_eq : EqDecision nabto_device_listener_type.
Proof. solve_decision. Defined.

(** The pointers [P] of the application, and the values [V] of the events. [user_waits] is the test of the
    callback of the listener; [writable]: no pointer that is written through is NULL. *)
Class EventKind (P V : Type) : Type := {
  kind_type : nabto_device_listener_type;
  no_pointers : P;
  user_waits : P -> bool;
  writable : P -> bool;
  no_pointers_waits : user_waits no_pointers = false;
  kind_type_used : kind_type <> NABTO_DEVICE_LISTENER_TYPE_NONE
}.

(** [userRef] and [userEvent]. *)
Definition connection_events : EventKind (option nat * option nat) (Z * nc_connection_event) := {|
  kind_type := NABTO_DEVICE_LISTENER_TYPE_CONNECTION_EVENTS;
  no_pointers := (None, None);
  user_waits p := dl_is_set p.1;
  writable p := dl_is_set p.1 && dl_is_set p.2;
  no_pointers_waits := eq_refl;
  kind_type_used := ltac:(discriminate)
|}.
#[global] Existing Instance connection_events.

(** [userEvent]. *)
Definition device_events : EventKind (option nat) nc_device_event := {|
  kind_type := NABTO_DEVICE_LISTENER_TYPE_DEVICE_EVENTS;
  no_pointers := None;
  user_waits p := dl_is_set p;
  writable p := dl_is_set p;
  no_pointers_waits := eq_refl;
  kind_type_used := ltac:(discriminate)
|}.
#[global] Existing Instance device_events.

Section Events.
Context {P V : Type} `{EventKind P V}.

(** A listener ([None] once it was freed), the contexts that point to it, and its events. *)
Record listen_slot : Type := mk_sl {
  sl_listener : option nabto_device_listener;
  sl_type : nabto_device_listener_type;
  sl_data : option nat;
  sl_contexts : gmap nat P;
  sl_events : gmap nat V
}.

(** [EvStore fut user value]: the value is written through the pointers, for the future. *)
Inductive events_call : Type :=
| EvAddToCore (context : nat)
| EvRemoveFromCore (context : nat)
| EvStore (fut : nid) (user : P) (value : V)
| EvFreeEvent (event : nat)
| EvFreeContext (context : nat)
| EvReset (fut : nid)
| EvResolve (fut : nid) (ec : np_error_code).

Definition sl_uhandler (A : Type) : Type := uhandler listen_slot events_call A.

Definition get_context (context : nat) : sl_uhandler P :=
  let+ s := ulift hget in uof (match sl_contexts s !! context with Some p => Def p | None => UB end).
Definition get_event (event : nat) : sl_uhandler V :=
  let+ s := ulift hget in uof (match sl_events s !! event with Some v => Def v | None => UB end).
Definition free_event (event : nat) : sl_uhandler unit :=
  let+ _ := get_event event in
  ulift (emit (EvFreeEvent event) ;;; hmod (fun s => s {{ sl_events ::= delete event }})).

(** [nabto_device_connection_events_listener_cb] and [nabto_device_events_listener_cb]. *)
Definition listener_cb (ec : np_error_code) (future : option nid) (eventData : option nat) : sl_uhandler np_error_code :=
  let+ s := ulift hget in
  let+ ctx := uof (match sl_data s with Some c => Def c | None => UB end) in
  if negb (is_error ec) then
    let+ ev := uof (match eventData with Some ev => Def ev | None => UB end) in
    let+ value := get_event ev in
    let+ user := get_context ctx in
    let+ retEc :=
      (if user_waits user then
         if writable user then
           let+ _ := ulift (emit (EvStore (default 0%nat future) user value)) in
           let+ _ := ulift (hmod (fun s => s {{ sl_contexts ::= <[ctx := no_pointers]> }})) in
           ulift (hret NABTO_EC_OK)
         else uof UB
       else ulift (hret NABTO_EC_UNKNOWN)) in
    let+ _ := free_event ev in
    ulift (hret retEc)
  else if ec_eqb ec NABTO_EC_ABORTED then
    let+ _ := get_context ctx in
    let+ _ := ulift (emit (EvRemoveFromCore ctx) ;;; emit (EvFreeContext ctx)) in
    let+ _ := ulift (hmod (fun s => s {{ sl_contexts ::= delete ctx }})) in
    ulift (hret ec)
  else
    let+ _ := (match eventData with Some ev => free_event ev | None => ulift hskip end) in
    ulift (hret ec).

(** What the callback answers for the event of a future that waits. *)
Definition callback_answer (s : listen_slot) (_ : nat) : np_error_code :=
  match sl_data s with
  | Some c => match sl_contexts s !! c with
              | Some user => if user_waits user then NABTO_EC_OK else NABTO_EC_UNKNOWN
              | None => NABTO_EC_UNKNOWN
              end
  | None => NABTO_EC_UNKNOWN
  end.

(** The calls of the listener, run in order. *)
Fixpoint listener_calls (t : list listener_call) : sl_uhandler unit :=
  match t with
  | [] => ulift hskip
  | DlCallback ec fut event :: t => let+ _ := listener_cb ec fut event in listener_calls t
  | DlResolve fut ec :: t => let+ _ := ulift (emit (EvResolve fut ec)) in listener_calls t
  end.

(** A function of the listener. *)
Definition on_listener {A} (m : (nat -> np_error_code) -> dl_handler A) : sl_uhandler A :=
  let+ s := ulift hget in
  let+ l := uof (match sl_listener s with Some l => Def l | None => UB end) in
  let '(a, l, t) := m (callback_answer s) l in
  let+ _ := ulift (hmod (fun s => s {{ sl_listener := Some l }})) in
  let+ _ := listener_calls t in
  ulift (hret a).

(** [calloc]. *)
Definition slot_new : listen_slot := mk_sl (Some nabto_device_listener_new) NABTO_DEVICE_LISTENER_TYPE_NONE None ∅ ∅.

(** The listener is taken from the list of the device and freed; nothing else is looked at. *)
Definition nabto_device_listener_free : sl_uhandler unit :=
  let+ _ := on_listener (fun _ => hskip) in
  ulift (hmod (fun s => s {{ sl_listener := None }})).

(** [nabto_device_connection_events_core_cb] and [nabto_device_events_core_cb]; [ev]: the address of the
    new event, if there is memory. *)
Definition core_cb (context : nat) (ev : option nat) (value : V) : sl_uhandler unit :=
  let+ _ := get_context context in
  match ev with
  | None => on_listener (fun _ => nabto_device_listener_set_error_code NABTO_EC_OUT_OF_MEMORY)
  | Some ev =>
      let+ _ := ulift (hmod (fun s => s {{ sl_events ::= <[ev := value]> }})) in
      let+ ec := on_listener (fun answer => nabto_device_listener_add_event answer ev) in
      if is_error ec then free_event ev else ulift hskip
  end.

(** [nabto_device_connection_events_init_listener] and [nabto_device_device_events_init_listener];
    [nabto_device_listener_init] also sets the type and the data, and answers OK. *)
Definition init_listener (ctx : option nat) : sl_uhandler np_error_code :=
  match ctx with
  | None => ulift (hret NABTO_EC_OUT_OF_MEMORY)
  | Some ctx =>
      let+ ec := on_listener (fun _ => nabto_device_listener_init) in
      let+ _ := ulift (hmod (fun s => s {{ sl_type := kind_type; sl_data := Some ctx; sl_contexts ::= <[ctx := no_pointers]> }})) in
      let+ _ := ulift (emit (EvAddToCore ctx)) in
      ulift (hret NABTO_EC_OK)
  end.

Definition nabto_device_listener_get_type (s : listen_slot) : nabto_device_listener_type := sl_type s.

Definition nabto_device_listener_get_listener_data (s : listen_slot) : cres (option nat) :=
  match sl_listener s with
  | Some l => Def (if dl_initialized l then sl_data s else None)
  | None => UB
  end.

(** [nabto_device_listener_connection_event] and [nabto_device_listener_device_event]. *)
Definition listen_event (fut : nid) (user : P) : sl_uhandler unit :=
  let+ l := on_listener (fun _ => hget) in
  let+ _ := ulift (emit (EvReset fut)) in
  let+ s := ulift hget in
  if negb (bool_decide (nabto_device_listener_get_type s = kind_type))
  then ulift (emit (EvResolve fut NABTO_EC_INVALID_ARGUMENT))
  else
    let ec := nabto_device_listener_get_status l in
    if is_error ec then ulift (emit (EvResolve fut (nabto_device_error_core_to_api ec)))
    else
      let+ ctx := uof (nabto_device_listener_get_listener_data s) in
      let+ ec := on_listener (fun _ => nabto_device_listener_init_future fut) in
      if is_error ec then ulift (emit (EvResolve fut ec))
      else
        let+ ctx := uof (match ctx with Some c => Def c | None => UB end) in
        let+ _ := get_context ctx in
        let+ _ := ulift (hmod (fun s => s {{ sl_contexts ::= <[ctx := user]> }})) in
        on_listener nabto_device_listener_try_resolve.

Definition stop_listener : sl_uhandler np_error_code := on_listener (fun _ => nabto_device_listener_stop).

(** ** The device *)

(** The listeners that were made, in the order of the list of the device, and the contexts in the list of
    the core, each with the listener it points to. *)
Record events_api : Type := mk_ea {
  ea_slots : gmap nat listen_slot;
  ea_listeners : list nat;
  ea_core : list (nat * nat)
}.

Definition ea_uhandler (A : Type) : Type := uhandler events_api (nat * events_call) A.

(** [nc_device_add_connection_events_listener] and [nc_device_remove_connection_events_listener] (and those
    of the events of the device): the context is appended to the list, or taken from it. *)
Definition core_list (i : nat) (core : list (nat * nat)) (c : events_call) : list (nat * nat) :=
  match c with
  | EvAddToCore ctx => core ++ [(i, ctx)]
  | EvRemoveFromCore ctx => filter (fun x => x <> (i, ctx)) core
  | _ => core
  end.

(** A function of listener [i]. *)
Definition on_slot {A} (i : nat) (m : sl_uhandler A) : ea_uhandler A := fun s =>
  match ea_slots s !! i with
  | None => UB
  | Some sl =>
      match m sl with
      | UB => UB
      | Def (a, sl, t) =>
          Def (a, s {{ ea_slots ::= <[i := sl]>; ea_core ::= fun core => fold_left (core_list i) t core }}, map (pair i) t)
      end
  end.

Definition nabto_device_listener_new (i : nat) : ea_uhandler unit :=
  ulift (hmod (fun s => s {{ ea_slots ::= <[i := slot_new]>; ea_listeners ::= fun l => l ++ [i] }})).

Definition listener_free (i : nat) : ea_uhandler unit :=
  let+ _ := on_slot i nabto_device_listener_free in
  ulift (hmod (fun s => s {{ ea_listeners ::= filter (fun j => j <> i) }})).

Fixpoint nabto_device_listener_stop_all_loop (listeners : list nat) : ea_uhandler unit :=
  match listeners with
  | [] => ulift hskip
  | i :: rest => let+ _ := on_slot i stop_listener in nabto_device_listener_stop_all_loop rest
  end.

Definition nabto_device_listener_stop_all : ea_uhandler unit :=
  let+ s := ulift hget in nabto_device_listener_stop_all_loop (ea_listeners s).

(** [nc_device_connection_events_listener_notify] and the loop of [nc_device_events_listener_notify]: the
    iterator is moved before the callback. [ev]: the addresses of the new events. *)
Fixpoint notify_loop (ev : nat -> option nat) (value : V) (core : list (nat * nat)) : ea_uhandler unit :=
  match core with
  | [] => ulift hskip
  | (i, ctx) :: rest => let+ _ := on_slot i (core_cb ctx (ev i) value) in notify_loop ev value rest
  end.

Definition events_notify (ev : nat -> option nat) (value : V) : ea_uhandler unit :=
  let+ s := ulift hget in notify_loop ev value (ea_core s).

(** The calls of the application and of the core. *)
Inductive events_input : Type :=
| EiNew (i : nat)
| EiInit (i : nat) (ctx : option nat)
| EiListen (i : nat) (fut : nid) (user : P)
| EiStop (i : nat)
| EiStopAll
| EiFree (i : nat)
| EiNotify (ev : nat -> option nat) (value : V).

Definition events_step (i : events_input) : ea_uhandler unit :=
  match i with
  | EiNew i => nabto_device_listener_new i
  | EiInit i ctx => let+ _ := on_slot i (init_listener ctx) in ulift hskip
  | EiListen i fut user => on_slot i (listen_event fut user)
  | EiStop i => let+ _ := on_slot i stop_listener in ulift hskip
  | EiStopAll => nabto_device_listener_stop_all
  | EiFree i => listener_free i
  | EiNotify ev value => events_notify ev value
  end.

(** ** The runs of a listener *)

Definition working (es : list nat) (fut : option nid) : nabto_device_listener := mk_dl true es true fut NABTO_EC_OK.
Definition stopped (ec : np_error_code) : nabto_device_listener := mk_dl true [] false None ec.

(** A listener that works, with its context [c]; and the others, for which nothing is allocated. *)
Definition open_slot (c : nat) (user : P) (es : list nat) (evs : gmap nat V) (fut : option nid) : listen_slot :=
  mk_sl (Some (working es fut)) kind_type (Some c) {[c := user]} evs.
Definition ended_slot (c : option nat) (ec : np_error_code) : listen_slot := mk_sl (Some (stopped ec)) kind_type c ∅ ∅.

Inductive closed_slot : listen_slot -> Prop :=
| closed_fresh : closed_slot slot_new
| closed_ended c ec : is_error ec = true -> closed_slot (ended_slot c ec)
| closed_freed ty c : closed_slot (mk_sl None ty c ∅ ∅).

Definition allocated (s : listen_slot) : bool := dl_is_set (sl_listener s).

Lemma init_closed s c :
  closed_slot s -> allocated s = true ->
  init_listener (Some c) s = Def (NABTO_EC_OK, open_slot c no_pointers [] ∅ None, [EvAddToCore c]).
Proof. intros [| c' ec Hec | ty c'] Ha; [reflexivity | reflexivity | done]. Qed.

Lemma get_event_run e v s : sl_events s !! e = Some v -> get_event e s = Def (v, s, []).
Proof. intros E. unfold get_event. by rewrite u_hget, E. Qed.
Lemma get_context_run c p s : sl_contexts s !! c = Some p -> get_context c s = Def (p, s, []).
Proof. intros E. unfold get_context. by rewrite u_hget, E. Qed.
Lemma free_event_run e v s :
  sl_events s !! e = Some v -> free_event e s = Def (tt, s {{ sl_events ::= delete e }}, [EvFreeEvent e]).
Proof. intros E. unfold free_event. by rewrite (u_quiet _ _ _ v) by by apply get_event_run. Qed.

(** The callback with an event, for a future that waits. *)
Lemma cb_store l c user evs fut e v :
  user_waits user = true -> writable user = true -> evs !! e = Some v ->
  listener_cb NABTO_EC_OK (Some fut) (Some e) (mk_sl l kind_type (Some c) {[c := user]} evs) =
    Def (NABTO_EC_OK, mk_sl l kind_type (Some c) {[c := no_pointers]} (delete e evs), [EvStore fut user v; EvFreeEvent e]).
Proof.
  intros Hu Hw He. unfold listener_cb. rewrite u_hget. cbn [negb is_error sl_data]. rewrite !u_def.
  rewrite (u_quiet _ _ _ v) by by apply get_event_run.
  rewrite (u_quiet _ _ _ user) by (apply get_context_run; cbn; by rewrite lookup_singleton_eq).
  rewrite Hu, Hw. unfold ubind at 1 2. cbn [ulift emit hmod hret app]. rewrite u_hmod.
  cbn [ulift hret]. unfold ubind at 1. rewrite (free_event_run e v) by (cbn; done). cbn.
  unfold apply_update, constant. cbn. by rewrite insert_singleton_eq.
Qed.

(** The callback with an event when the listener ends. *)
Lemma cb_drop ec l c user evs e v :
  is_error ec = true -> ec <> NABTO_EC_ABORTED -> evs !! e = Some v ->
  listener_cb ec None (Some e) (mk_sl l kind_type (Some c) {[c := user]} evs) =
    Def (ec, mk_sl l kind_type (Some c) {[c := user]} (delete e evs), [EvFreeEvent e]).
Proof.
  intros Hec Hne He. unfold listener_cb. rewrite u_hget. cbn [sl_data]. rewrite u_def, Hec. cbn [negb].
  replace (ec_eqb ec NABTO_EC_ABORTED) with false by (symmetry; by apply bool_decide_eq_false).
  unfold ubind at 1. by rewrite (free_event_run e v) by (cbn; done).
Qed.

Lemma cb_abort l c user evs :
  listener_cb NABTO_EC_ABORTED None None (mk_sl l kind_type (Some c) {[c := user]} evs) =
    Def (NABTO_EC_ABORTED, mk_sl l kind_type (Some c) ∅ evs, [EvRemoveFromCore c; EvFreeContext c]).
Proof.
  unfold listener_cb. rewrite u_hget. cbn [sl_data]. rewrite u_def. cbn [is_error negb].
  rewrite (eq_refl : ec_eqb NABTO_EC_ABORTED NABTO_EC_ABORTED = true).
  rewrite (u_quiet _ _ _ user) by (apply get_context_run; cbn; by rewrite lookup_singleton_eq).
  unfold ubind. cbn. unfold apply_update. cbn. by rewrite delete_singleton_eq.
Qed.

Lemma slot_listener_run {A} (m : (nat -> np_error_code) -> dl_handler A) l0 a l t s s' t' :
  sl_listener s = Some l0 -> m (callback_answer s) l0 = (a, l, t) ->
  listener_calls t (s {{ sl_listener := Some l }}) = Def (tt, s', t') ->
  on_listener m s = Def (a, s', t').
Proof.
  intros El E Et. unfold on_listener. rewrite u_hget, El, u_def, E, u_hmod.
  rewrite (ubind_def _ _ _ _ _ _ Et). cbn. by rewrite app_nil_r.
Qed.

Lemma waits_answer c user es evs fut e :
  user_waits user = true -> callback_answer (open_slot c user es evs fut) e = NABTO_EC_OK.
Proof. intros Hu. unfold callback_answer. cbn. by rewrite lookup_singleton_eq, Hu. Qed.

Lemma try_resolve_run answer e es f :
  answer e = NABTO_EC_OK ->
  nabto_device_listener_try_resolve answer (working (e :: es) (Some f)) =
    (tt, working es None, [DlCallback NABTO_EC_OK (Some f) (Some e); DlResolve f NABTO_EC_OK]).
Proof. intros E. cbn. by rewrite E. Qed.

Lemma add_event_run answer e f :
  answer e = NABTO_EC_OK ->
  nabto_device_listener_add_event answer e (working [] (Some f)) =
    (NABTO_EC_OK, working [] None, [DlCallback NABTO_EC_OK (Some f) (Some e); DlResolve f NABTO_EC_OK]).
Proof. intros E. cbn. by rewrite E. Qed.

(** An event is taken by the future that waits. *)
Lemma calls_store l c user evs fut e v :
  user_waits user = true -> writable user = true -> evs !! e = Some v ->
  listener_calls [DlCallback NABTO_EC_OK (Some fut) (Some e); DlResolve fut NABTO_EC_OK]
      (mk_sl l kind_type (Some c) {[c := user]} evs) =
    Def (tt, mk_sl l kind_type (Some c) {[c := no_pointers]} (delete e evs),
         [EvStore fut user v; EvFreeEvent e; EvResolve fut NABTO_EC_OK]).
Proof.
  intros Hu Hw He. cbn [listener_calls]. rewrite (ubind_def _ _ _ _ _ _ (cb_store l c user evs fut e v Hu Hw He)). done.
Qed.

(** Adding the event of a notification. *)
Lemma core_cb_waits c user evs e v :
  evs !! e = None ->
  forall es, core_cb c (Some e) v (open_slot c user es evs None) = Def (tt, open_slot c user (es ++ [e]) (<[e := v]> evs) None, []).
Proof.
  intros He es. unfold core_cb. rewrite (u_quiet _ _ _ user) by (apply get_context_run; cbn; by rewrite lookup_singleton_eq).
  rewrite u_hmod.
  rewrite (ubind_def _ _ _ NABTO_EC_OK (open_slot c user (es ++ [e]) (<[e := v]> evs) None) []); [reflexivity |].
  eapply slot_listener_run; [reflexivity | cbn; reflexivity | reflexivity].
Qed.

Lemma core_cb_future c user e v f :
  user_waits user = true -> writable user = true ->
  core_cb c (Some e) v (open_slot c user [] ∅ (Some f)) =
    Def (tt, open_slot c no_pointers [] ∅ None, [EvStore f user v; EvFreeEvent e; EvResolve f NABTO_EC_OK]).
Proof.
  intros Hu Hw. unfold core_cb. rewrite (u_quiet _ _ _ user) by (apply get_context_run; cbn; by rewrite lookup_singleton_eq).
  rewrite u_hmod. change ((open_slot c user [] ∅ (Some f)) {{ sl_events ::= <[e := v]> }}) with (open_slot c user [] (<[e := v]> ∅) (Some f)).
  rewrite (ubind_def _ _ _ NABTO_EC_OK (open_slot c no_pointers [] ∅ None)
    [EvStore f user v; EvFreeEvent e; EvResolve f NABTO_EC_OK]); [reflexivity |].
  eapply slot_listener_run; [reflexivity | apply add_event_run; by apply waits_answer |].
  etransitivity; [by apply (calls_store _ c user (<[e := v]> ∅) f e v), lookup_insert_eq |].
  unfold open_slot. repeat f_equal. by rewrite delete_insert_id.
Qed.

(** The end of a listener. *)
Definition end_calls (c : nat) (es : list nat) (fut : option nid) (ec : np_error_code) : list events_call :=
  map EvFreeEvent es ++ map (fun f => EvResolve f ec) (option_list fut) ++ [EvRemoveFromCore c; EvFreeContext c].

Lemma calls_drop ec l c user es : forall evs rest,
  is_error ec = true -> ec <> NABTO_EC_ABORTED -> NoDup es -> dom evs = list_to_set es ->
  listener_calls (map (fun e => DlCallback ec None (Some e)) es ++ rest) (mk_sl l kind_type (Some c) {[c := user]} evs) =
    match listener_calls rest (mk_sl l kind_type (Some c) {[c := user]} ∅) with
    | Def (a, s, t) => Def (a, s, map EvFreeEvent es ++ t)
    | UB => UB
    end.
Proof.
  induction es as [| e es IH]; intros evs rest Hec Hne Hnd Hdom.
  - apply dom_empty_inv_L in Hdom as ->. cbn. by destruct (listener_calls _ _) as [[[??]?] |].
  - apply NoDup_cons in Hnd as [He Hnd]. cbn [map app listener_calls].
    assert (Hv : exists v, evs !! e = Some v) by (apply elem_of_dom; rewrite Hdom; set_solver). destruct Hv as [v Hv].
    rewrite (ubind_def _ _ _ _ _ _ (cb_drop ec l c user evs e v Hec Hne Hv)).
    rewrite IH by (done || (rewrite dom_delete_L, Hdom; set_solver)).
    by destruct (listener_calls _ _) as [[[??]?] |].
Qed.

Lemma end_run c user es evs fut ec :
  is_error ec = true -> ec <> NABTO_EC_ABORTED -> NoDup es -> dom evs = list_to_set es ->
  listener_calls (end_trace ec (working es fut)) (mk_sl (Some (stopped ec)) kind_type (Some c) {[c := user]} evs) =
    Def (tt, ended_slot (Some c) ec, end_calls c es fut ec).
Proof.
  intros Hec Hne Hnd Hdom. unfold end_trace. cbn [dl_events dl_fut working].
  replace (ec_eqb ec NABTO_EC_ABORTED) with false by (symmetry; by apply bool_decide_eq_false).
  rewrite calls_drop by done. unfold end_calls. set (s := mk_sl _ _ _ _ _).
  assert (Ha : listener_calls [DlCallback NABTO_EC_ABORTED None None] s =
    Def (tt, ended_slot (Some c) ec, [EvRemoveFromCore c; EvFreeContext c])).
  { refine (eq_trans (ubind_def _ _ _ _ _ _ (cb_abort _ c user ∅)) _). done. }
  destruct fut as [f |].
  - change (option_list (Some f)) with [f]. cbn [map app]. rewrite (eq_refl : listener_calls (DlResolve f ec :: [DlCallback NABTO_EC_ABORTED None None]) =
      let+ _ := ulift (emit (EvResolve f ec)) in listener_calls [DlCallback NABTO_EC_ABORTED None None]).
    rewrite (ubind_def _ _ _ tt s [EvResolve f ec]) by done. by rewrite Ha.
  - change (option_list (@None nid)) with (@nil nid). cbn [map app]. by rewrite Ha.
Qed.

Lemma set_error_run c user es evs fut ec :
  (fut = None \/ es = []) ->
  is_error ec = true -> ec <> NABTO_EC_ABORTED -> NoDup es -> dom evs = list_to_set es ->
  on_listener (fun _ => nabto_device_listener_set_error_code ec) (open_slot c user es evs fut) =
    Def (tt, ended_slot (Some c) ec, end_calls c es fut ec).
Proof.
  intros Hw Hec Hne Hnd Hdom. eapply slot_listener_run; [reflexivity | apply set_error_open; by repeat split |].
  by apply end_run.
Qed.

Lemma core_cb_no_memory c user es evs fut v :
  (fut = None \/ es = []) -> NoDup es -> dom evs = list_to_set es ->
  core_cb c None v (open_slot c user es evs fut) =
    Def (tt, ended_slot (Some c) NABTO_EC_OUT_OF_MEMORY, end_calls c es fut NABTO_EC_OUT_OF_MEMORY).
Proof.
  intros Hw Hnd Hdom. unfold core_cb.
  rewrite (u_quiet _ _ _ user) by (apply get_context_run; cbn; by rewrite lookup_singleton_eq). by apply set_error_run.
Qed.

Lemma stop_open c user es evs fut :
  (fut = None \/ es = []) -> NoDup es -> dom evs = list_to_set es ->
  stop_listener (open_slot c user es evs fut) =
    Def (NABTO_EC_STOPPED, ended_slot (Some c) NABTO_EC_STOPPED, end_calls c es fut NABTO_EC_STOPPED).
Proof.
  intros Hw Hnd Hdom. unfold stop_listener. eapply slot_listener_run; [reflexivity | | by apply end_run].
  unfold nabto_device_listener_stop, nabto_device_listener_stop_internal, hbind, hget. cbn [dl_initialized working negb dl_ec is_error].
  rewrite (set_error_open NABTO_EC_STOPPED (working es fut)) by (by repeat split). cbn. by rewrite !app_nil_r.
Qed.

Lemma stop_closed s : closed_slot s -> allocated s = true -> exists ec, stop_listener s = Def (ec, s, []).
Proof. intros [| c ec Hec | ty c] Ha; [by eexists | | done]. exists ec. by destruct ec. Qed.

(** Listening. *)
Lemma listen_start c user0 fut user es evs :
  listen_event fut user (open_slot c user0 es evs None) =
    match on_listener nabto_device_listener_try_resolve (open_slot c user es evs (Some fut)) with
    | Def (a, s, t) => Def (a, s, EvReset fut :: t)
    | UB => UB
    end.
Proof.
  unfold listen_event. erewrite u_quiet by reflexivity. unfold ubind at 1. cbn [ulift emit]. rewrite u_hget.
  rewrite bool_decide_true by done. cbn [negb is_error nabto_device_listener_get_status dl_ec working].
  unfold nabto_device_listener_get_listener_data. cbn [sl_listener open_slot dl_initialized working sl_data]. rewrite u_def.
  rewrite (ubind_def _ _ _ NABTO_EC_OK (open_slot c user0 es evs (Some fut)) []) by reflexivity.
  cbn [is_error]. rewrite u_def.
  rewrite (u_quiet _ _ _ user0) by (apply get_context_run; cbn; by rewrite lookup_singleton_eq).
  rewrite u_hmod.
  replace ((open_slot c user0 es evs (Some fut)) {{ sl_contexts ::= <[c := user]> }}) with (open_slot c user es evs (Some fut))
    by (unfold open_slot; cbn; unfold apply_update; cbn; by rewrite insert_singleton_eq).
  by destruct (on_listener _ _) as [[[??]?] |].
Qed.

Lemma listen_waits c user0 fut user :
  listen_event fut user (open_slot c user0 [] ∅ None) = Def (tt, open_slot c user [] ∅ (Some fut), [EvReset fut]).
Proof. by rewrite listen_start. Qed.

Lemma listen_takes c user0 fut user e es evs v :
  user_waits user = true -> writable user = true -> evs !! e = Some v ->
  listen_event fut user (open_slot c user0 (e :: es) evs None) =
    Def (tt, open_slot c no_pointers es (delete e evs) None,
         [EvReset fut; EvStore fut user v; EvFreeEvent e; EvResolve fut NABTO_EC_OK]).
Proof.
  intros Hu Hw Hv. rewrite listen_start.
  erewrite slot_listener_run; [reflexivity | reflexivity | apply try_resolve_run; by apply waits_answer |].
  by apply (calls_store _ c user evs fut e v).
Qed.

Lemma listen_busy c user0 es evs f fut user :
  listen_event fut user (open_slot c user0 es evs (Some f)) =
    Def (tt, open_slot c user0 es evs (Some f), [EvReset fut; EvResolve fut NABTO_EC_OPERATION_IN_PROGRESS]).
Proof.
  unfold listen_event. erewrite u_quiet by reflexivity. unfold ubind at 1. cbn [ulift emit]. rewrite u_hget.
  rewrite bool_decide_true by done. reflexivity.
Qed.

Lemma listen_closed s fut user :
  closed_slot s -> allocated s = true ->
  exists ec, is_error ec = true /\ listen_event fut user s = Def (tt, s, [EvReset fut; EvResolve fut ec]).
Proof.
  intros [| c ec Hec | ty c] Ha; [| | done].
  - exists NABTO_EC_INVALID_ARGUMENT. split; [done |]. unfold listen_event. erewrite u_quiet by reflexivity.
    unfold ubind at 1. cbn [ulift emit]. rewrite u_hget.
    rewrite bool_decide_false by (cbn; intros E; by apply kind_type_used). done.
  - exists ec. split; [done |]. unfold listen_event. erewrite u_quiet by reflexivity.
    unfold ubind at 1. cbn [ulift emit]. rewrite u_hget. rewrite bool_decide_true by done.
    cbn [negb nabto_device_listener_get_status dl_ec stopped]. by rewrite Hec.
Qed.

Lemma free_closed s :
  closed_slot s -> allocated s = true -> exists s', nabto_device_listener_free s = Def (tt, s', []) /\ closed_slot s' /\
    sl_listener s' = None.
Proof. intros [| c ec Hec | ty c] Ha; [| | done]; eexists; (split; [reflexivity | split; [constructor | done]]). Qed.

(** ** What was given and what was got *)

(** The values that were written since the listener was initialized the last time, with the futures and the
    pointers; and all of them. *)
Definition store_since (acc : list (nid * P * V)) (c : events_call) : list (nid * P * V) :=
  match c with
  | EvAddToCore _ => []
  | EvStore fut user value => acc ++ [(fut, user, value)]
  | _ => acc
  end.
Definition stored_since (t : list events_call) : list (nid * P * V) := fold_left store_since t [].
Definition stored (t : list events_call) : list (nid * P * V) :=
  omap (fun c => match c with EvStore fut user value => Some (fut, user, value) | _ => None end) t.

(** The futures that were resolved, and those with OK. *)
Definition fut_resolved (t : list events_call) : list nid :=
  omap (fun c => match c with EvResolve fut _ => Some fut | _ => None end) t.
Definition fut_answered (t : list events_call) : list nid :=
  omap (fun c => match c with EvResolve fut ec => if is_error ec then None else Some fut | _ => None end) t.

(** The values of the events that wait, and the future. *)
Definition waiting (s : listen_slot) : list V :=
  match sl_listener s with Some l => omap (fun e => sl_events s !! e) (dl_events l) | None => [] end.
Definition waiting_future (s : listen_slot) : list nid :=
  match sl_listener s with Some l => option_list (dl_fut l) | None => [] end.

(** A listener that works: [told] are the values the core told since it was initialized, [given] the futures
    and pointers of the application. *)
Record open_ok (told : list V) (given : list (nid * P)) (t : list events_call)
    (c : nat) (user : P) (es : list nat) (evs : gmap nat V) (fut : option nid) : Prop := {
  ok_nodup : NoDup es;
  ok_events : dom evs = list_to_set es;
  ok_future : match fut with
              | None => True
              | Some f => es = [] /\ user_waits user = true /\ writable user = true /\ (f, user) ∈ given
              end;
  ok_told : map snd (stored_since t) ++ omap (fun e => evs !! e) es = told
}.

Record slot_inv (told : list V) (given : list (nid * P)) (t : list events_call) (s : listen_slot) : Prop := {
  sli_state : (exists c user es evs fut, s = open_slot c user es evs fut /\ open_ok told given t c user es evs fut) \/
              (closed_slot s /\ map snd (stored_since t) `prefix_of` told);
  sli_futures : fut_resolved t ++ waiting_future s ≡ₚ map fst given;
  sli_answered : map (fun x => x.1.1) (stored t) = fut_answered t;
  sli_pointers : forall x, x ∈ stored t -> x.1 ∈ given
}.

(** The context that is in the list of the core. *)
Definition registered (s : listen_slot) : gset nat := dom (sl_contexts s).

Definition core_ok (s s' : listen_slot) (t : list events_call) : Prop := forall i core,
  NoDup core -> (forall c, (i, c) ∈ core <-> c ∈ registered s) ->
  let core' := fold_left (core_list i) t core in
  NoDup core' /\ (forall c, (i, c) ∈ core' <-> c ∈ registered s') /\
  (forall j c, j <> i -> (j, c) ∈ core' <-> (j, c) ∈ core).

Lemma core_untouched s s' t :
  (forall c, c ∈ t -> match c with EvAddToCore _ | EvRemoveFromCore _ => False | _ => True end) ->
  registered s' = registered s -> core_ok s s' t.
Proof.
  intros Ht Hr i core Hnd Hc. assert (E : fold_left (core_list i) t core = core).
  { clear Hnd Hc. revert Ht. induction t as [| c t IH] in core |- *; intros Ht; [done |]. cbn.
    rewrite IH by (intros; apply Ht; by right). specialize (Ht c ltac:(by left)). by destruct c. }
  cbv zeta. rewrite E, Hr. done.
Qed.

Lemma core_added s s' c :
  registered s = ∅ -> registered s' = {[c]} -> core_ok s s' [EvAddToCore c].
Proof.
  intros Hs Hs' i core Hnd Hc. cbn. rewrite Hs' in *. rewrite Hs in Hc.
  split_and!.
  - apply NoDup_app. split; [done |]. split; [| apply NoDup_singleton]. intros x Hx ->%list_elem_of_singleton.
    apply Hc in Hx. set_solver.
  - intros d. rewrite elem_of_app, list_elem_of_singleton, Hc. set_solver.
  - intros j d Hj. rewrite elem_of_app, list_elem_of_singleton. naive_solver.
Qed.

Lemma core_removed s s' es fut ec c :
  registered s = {[c]} -> registered s' = ∅ -> core_ok s s' (end_calls c es fut ec).
Proof.
  intros Hs Hs' i core Hnd Hc. cbv zeta. unfold end_calls. rewrite !fold_left_app.
  assert (E : fold_left (core_list i) (map EvFreeEvent es) core = core) by (clear; by induction es). rewrite E.
  assert (E' : fold_left (core_list i) (map (fun f => EvResolve f ec) (option_list fut)) core = core) by (by destruct fut).
  rewrite E'. cbn. rewrite Hs', Hs in *. split_and!.
  - by apply NoDup_filter.
  - intros d. rewrite list_elem_of_filter, Hc. set_solver.
  - intros j d Hj. rewrite list_elem_of_filter. naive_solver.
Qed.

Lemma registered_open c user es evs fut : registered (open_slot c user es evs fut) = {[c]}.
Proof. apply dom_singleton_L. Qed.
Lemma registered_closed s : closed_slot s -> registered s = ∅.
Proof. intros [| |]; apply dom_empty_L. Qed.

Lemma stored_since_app t t' : stored_since (t ++ t') = fold_left store_since t' (stored_since t).
Proof. apply fold_left_app. Qed.
Lemma stored_app t t' : stored (t ++ t') = stored t ++ stored t'.
Proof. apply omap_app. Qed.
Lemma fut_resolved_app t t' : fut_resolved (t ++ t') = fut_resolved t ++ fut_resolved t'.
Proof. apply omap_app. Qed.
Lemma fut_answered_app t t' : fut_answered (t ++ t') = fut_answered t ++ fut_answered t'.
Proof. apply omap_app. Qed.

Lemma end_history c es fut ec t :
  is_error ec = true ->
  stored_since (t ++ end_calls c es fut ec) = stored_since t /\ stored (end_calls c es fut ec) = [] /\
  fut_resolved (end_calls c es fut ec) = option_list fut /\ fut_answered (end_calls c es fut ec) = [].
Proof.
  intros Hec. rewrite stored_since_app. unfold end_calls.
  rewrite !stored_app, !fut_resolved_app, !fut_answered_app, !fold_left_app.
  assert (E1 : forall acc, fold_left store_since (map EvFreeEvent es) acc = acc) by (clear; by induction es).
  assert (E2 : stored (map EvFreeEvent es) = [] /\ fut_resolved (map EvFreeEvent es) = [] /\
    fut_answered (map EvFreeEvent es) = []) by (clear; induction es as [| e es IH]; [done | exact IH]).
  destruct E2 as (-> & -> & ->). rewrite E1. destruct fut as [f |]; cbn; [by rewrite Hec | done].
Qed.

(** The listener ends. *)
Lemma inv_end told given t c user es evs fut ec :
  is_error ec = true -> slot_inv told given t (open_slot c user es evs fut) -> open_ok told given t c user es evs fut ->
  slot_inv told given (t ++ end_calls c es fut ec) (ended_slot (Some c) ec).
Proof.
  intros Hec [_ Hf Ha Hp] Hok. destruct (end_history c es fut ec t Hec) as (E1 & E2 & E3 & E4). split.
  - right. split; [by constructor |]. rewrite E1, <- (ok_told _ _ _ _ _ _ _ _ Hok). by apply prefix_app_r.
  - rewrite fut_resolved_app, E3. cbn. rewrite app_nil_r. exact Hf.
  - by rewrite stored_app, fut_answered_app, E2, E4, !app_nil_r.
  - by rewrite stored_app, E2, app_nil_r.
Qed.

(** ** The steps of a listener *)

Definition slot_goal {A} (told : list V) (given : list (nid * P)) (t : list events_call) (s : listen_slot)
    (alive : bool) (m : sl_uhandler A) : Prop :=
  exists a s' t', m s = Def (a, s', t') /\ allocated s' = alive /\ slot_inv told given (t ++ t') s' /\ core_ok s s' t'.

Lemma open_not_closed c user es evs fut : ~ closed_slot (open_slot c user es evs fut).
Proof. intros Hc%registered_closed. rewrite registered_open in Hc. set_solver. Qed.

Lemma closed_inv told given t s :
  closed_slot s -> slot_inv told given t s -> map snd (stored_since t) `prefix_of` told.
Proof. intros Hc [[(c & user & es & evs & fut & -> & _) | [_ Hp]] _ _ _]; [by apply open_not_closed in Hc | done]. Qed.

Lemma closed_more told told' given t s :
  closed_slot s -> slot_inv told given t s -> told `prefix_of` told' -> slot_inv told' given t s.
Proof.
  intros Hc Hi Ht. pose proof (closed_inv _ _ _ _ Hc Hi) as Hp. destruct Hi as [_ Hf Ha Hps]. split; try done.
  right. split; [done |]. by etransitivity.
Qed.

Lemma closed_waiting s : closed_slot s -> waiting s = [] /\ waiting_future s = [].
Proof. by intros [| |]. Qed.

Lemma slot_init_good told given t s c :
  slot_inv told given t s -> closed_slot s -> allocated s = true -> slot_goal [] given t s true (init_listener (Some c)).
Proof.
  intros Hi Hc Ha. eexists _, _, _. split; [by apply init_closed |]. split; [done |]. split; [| apply core_added;
    [by apply registered_closed | apply registered_open]].
  destruct Hi as [_ Hf Hans Hp]. destruct (closed_waiting s Hc) as [_ Hw]. split.
  - left. eexists _, _, _, _, _. split; [done |]. split; [constructor | by rewrite dom_empty_L | done |].
    by rewrite stored_since_app.
  - rewrite fut_resolved_app. rewrite Hw, app_nil_r in Hf. cbn. by rewrite !app_nil_r.
  - rewrite stored_app, fut_answered_app. cbn. by rewrite !app_nil_r.
  - rewrite stored_app. cbn. by rewrite app_nil_r.
Qed.

(** Neither values nor futures are touched. *)
Lemma inv_quiet {A} (m : sl_uhandler A) a told given t s :
  m s = Def (a, s, []) -> slot_inv told given t s -> slot_goal told given t s (allocated s) m.
Proof.
  intros E Hi. exists a, s, []. split; [done |]. split; [done |]. rewrite app_nil_r. split; [done |]. apply core_untouched; [| done].
  by intros c Hc%elem_of_nil.
Qed.

Lemma core_same c user es evs fut user' es' evs' fut' t :
  (forall c, c ∈ t -> match c with EvAddToCore _ | EvRemoveFromCore _ => False | _ => True end) ->
  core_ok (open_slot c user es evs fut) (open_slot c user' es' evs' fut') t.
Proof. intros Ht. apply core_untouched; [done |]. by rewrite !registered_open. Qed.

Ltac quiet_calls := intros ? Hx; repeat (apply elem_of_cons in Hx as [-> | Hx]; [exact I |]); by apply elem_of_nil in Hx.

Lemma omap_insert_fresh (evs : gmap nat V) (es : list nat) e v :
  dom evs = list_to_set es -> evs !! e = None ->
  omap (fun e' => <[e := v]> evs !! e') (es ++ [e]) = omap (fun e' => evs !! e') es ++ [v].
Proof.
  intros Hdom He. rewrite omap_app. cbn. rewrite lookup_insert_eq. f_equal.
  assert (Hn : e ∉ es) by (intros Hin; apply not_elem_of_dom in He; rewrite Hdom in He; set_solver).
  clear Hdom. induction es as [| x es IH]; [done |]. cbn. apply not_elem_of_cons in Hn as [Hx Hn].
  rewrite lookup_insert_ne by done. by rewrite IH.
Qed.

Lemma omap_delete (evs : gmap nat V) (es : list nat) e :
  e ∉ es -> omap (fun e' => delete e evs !! e') es = omap (fun e' => evs !! e') es.
Proof.
  induction es as [| x es IH]; [done |]. intros [Hx Hn]%not_elem_of_cons. cbn. by rewrite lookup_delete_ne, IH.
Qed.

Lemma open_inv told given t s c :
  slot_inv told given t s -> c ∈ registered s ->
  exists user es evs fut, s = open_slot c user es evs fut /\ open_ok told given t c user es evs fut.
Proof.
  intros [[(c' & user & es & evs & fut & -> & Hok) | [Hc _]] _ _ _] Hr.
  - rewrite registered_open in Hr. apply elem_of_singleton in Hr as ->. by eexists _, _, _, _.
  - rewrite registered_closed in Hr by done. set_solver.
Qed.

Lemma ok_waits told given t c user es evs fut : open_ok told given t c user es evs fut -> fut = None \/ es = [].
Proof. intros [_ _ Hf _]. destruct fut; [right; apply Hf | by left]. Qed.

Lemma core_cb_good told given t s c ev v :
  slot_inv told given t s -> c ∈ registered s -> (forall e, ev = Some e -> sl_events s !! e = None) ->
  slot_goal (told ++ [v]) given t s true (core_cb c ev v).
Proof.
  intros Hi Hr Hfresh. destruct (open_inv _ _ _ _ _ Hi Hr) as (user & es & evs & fut & -> & Hok).
  pose proof (ok_waits _ _ _ _ _ _ _ _ Hok) as Hw. pose proof Hok as [Hnd Hdom Hfut Htold]. destruct ev as [e |].
  2:{ eexists _, _, _. split; [by apply core_cb_no_memory |]. split; [done |]. split.
      - eapply closed_more; [by constructor | by apply (inv_end told given t c user es evs fut) |]. by apply prefix_app_r.
      - apply core_removed; [apply registered_open | by apply registered_closed, closed_ended]. }
  specialize (Hfresh e eq_refl). cbn in Hfresh. destruct Hi as [_ Hf Ha Hp]. destruct fut as [f |].
  - destruct Hfut as (-> & Hu & Hwr & Hin). apply dom_empty_inv_L in Hdom as ->.
    eexists _, _, _. split; [by apply core_cb_future |]. split; [done |]. split; [| apply core_same; quiet_calls]. split.
    + left. eexists _, _, _, _, _. split; [done |]. split; [constructor | by rewrite dom_empty_L | done |].
      rewrite stored_since_app. cbn. rewrite map_app, <- Htold. cbn. by rewrite !app_nil_r.
    + rewrite fut_resolved_app. cbn in Hf |- *. by rewrite app_nil_r.
    + rewrite stored_app, fut_answered_app, map_app, Ha. done.
    + intros x. rewrite stored_app, elem_of_app. intros [Hx | Hx]; [by apply Hp |].
      apply list_elem_of_singleton in Hx as ->. done.
  - eexists _, _, _. split; [by apply core_cb_waits |]. split; [done |]. rewrite app_nil_r. split; [| apply core_same; quiet_calls].
    split; [| done | done | done]. left. eexists _, _, _, _, _. split; [done |]. split; [| | done |].
    + apply NoDup_app. split; [done |]. split; [| apply NoDup_singleton]. intros x Hx ->%list_elem_of_singleton.
      apply not_elem_of_dom in Hfresh. rewrite Hdom in Hfresh. set_solver.
    + rewrite dom_insert_L, Hdom, list_to_set_app_L. cbn. set_solver.
    + rewrite omap_insert_fresh by done. by rewrite app_assoc, Htold.
Qed.

Lemma slot_listen_good told given t s fut user :
  slot_inv told given t s -> allocated s = true -> user_waits user = true -> writable user = true ->
  slot_goal told (given ++ [(fut, user)]) t s true (listen_event fut user).
Proof.
  intros Hi Hall Hu Hwr. pose proof Hi as [Hs Hf Ha Hp].
  assert (Hmore : forall x, x ∈ stored t -> x.1 ∈ given ++ [(fut, user)]) by (intros x Hx%Hp; apply elem_of_app; by left).
  destruct Hs as [(c & user0 & es & evs & f & -> & Hok) | [Hc Hpre]].
  2:{ destruct (listen_closed s fut user Hc Hall) as (ec & Hec & E). eexists _, _, _. split; [done |]. split; [done |].
      split; [| by apply core_untouched; [quiet_calls |]]. destruct (closed_waiting s Hc) as [_ Hwf]. split.
      - right. by rewrite stored_since_app.
      - rewrite fut_resolved_app, map_app, <- Hf, Hwf. cbn. by rewrite !app_nil_r.
      - rewrite stored_app, fut_answered_app. cbn. rewrite Hec. by rewrite !app_nil_r.
      - by rewrite stored_app, app_nil_r. }
  pose proof Hok as [Hnd Hdom Hfut Htold]. destruct f as [f |].
  { eexists _, _, _. split; [apply listen_busy |]. split; [done |]. split; [| apply core_same; quiet_calls]. split.
    - left. eexists _, _, _, _, _. split; [done |]. split; [done | done | | by rewrite stored_since_app].
      destruct Hfut as (-> & ? & ? & ?). split_and!; try done. apply elem_of_app. by left.
    - rewrite fut_resolved_app, map_app, <- Hf. cbn. solve_Permutation.
    - rewrite stored_app, fut_answered_app. cbn. by rewrite !app_nil_r.
    - by rewrite stored_app, app_nil_r. }
  destruct es as [| e es].
  - apply dom_empty_inv_L in Hdom as ->. eexists _, _, _. split; [apply listen_waits |]. split; [done |].
    split; [| apply core_same; quiet_calls]. split.
    + left. eexists _, _, _, _, _. split; [done |]. split; [done | by rewrite dom_empty_L | | by rewrite stored_since_app].
      split_and!; try done. apply elem_of_app. right. by left.
    + rewrite fut_resolved_app, map_app, <- Hf. cbn. by rewrite !app_nil_r.
    + rewrite stored_app, fut_answered_app. cbn. by rewrite !app_nil_r.
    + by rewrite stored_app, app_nil_r.
  - apply NoDup_cons in Hnd as [He Hnd].
    assert (Hv : exists v, evs !! e = Some v) by (apply elem_of_dom; rewrite Hdom; set_solver). destruct Hv as [v Hv].
    eexists _, _, _. split; [by apply listen_takes |]. split; [done |]. split; [| apply core_same; quiet_calls]. split.
    + left. eexists _, _, _, _, _. split; [done |]. split; [done | | done |].
      * rewrite dom_delete_L, Hdom. cbn. set_solver.
      * rewrite stored_since_app, omap_delete by done. cbn. rewrite map_app, <- app_assoc, <- Htold. cbn. by rewrite Hv.
    + rewrite fut_resolved_app, map_app, <- Hf. cbn. by rewrite !app_nil_r.
    + rewrite stored_app, fut_answered_app, map_app, Ha. done.
    + intros x. rewrite stored_app, elem_of_app. intros [Hx | Hx]; [by apply Hmore |].
      apply list_elem_of_singleton in Hx as ->. apply elem_of_app. right. by left.
Qed.

Lemma slot_stop_good told given t s :
  slot_inv told given t s -> allocated s = true -> slot_goal told given t s true stop_listener.
Proof.
  intros Hi Hall. pose proof Hi as [[(c & user & es & evs & f & -> & Hok) | [Hc _]] _ _ _].
  - eexists _, _, _. split; [apply stop_open; [by eapply ok_waits | apply Hok | apply Hok] |]. split; [done |]. split; [by eapply inv_end |].
    apply core_removed; [apply registered_open | by apply registered_closed, closed_ended].
  - destruct (stop_closed s Hc Hall) as [ec E]. rewrite <- Hall. by eapply inv_quiet.
Qed.

Lemma slot_free_good told given t s :
  slot_inv told given t s -> allocated s = true -> closed_slot s -> slot_goal told given t s false nabto_device_listener_free.
Proof.
  intros Hi Hall Hc. destruct (free_closed s Hc Hall) as (s' & E & Hc' & Hl). eexists _, _, _. split; [done |]. split; [by unfold allocated; rewrite Hl |].
  rewrite app_nil_r. split.
  - pose proof (closed_inv _ _ _ _ Hc Hi) as Hpre. destruct Hi as [_ Hf Ha Hp].
    destruct (closed_waiting s Hc) as [_ Hw], (closed_waiting s' Hc') as [_ Hw']. split; try done; [by right |].
    by rewrite Hw', <- Hw.
  - apply core_untouched; [by intros c Hx%elem_of_nil |]. by rewrite !registered_closed.
Qed.

(** ** The device *)

Definition calls_of (i : nat) (t : list (nat * events_call)) : list events_call :=
  omap (fun x => if decide (x.1 = i) then Some x.2 else None) t.

(** The values the core told since listener [i] was initialized, and what the application gave to it. *)
Definition told_step (i : nat) (acc : list V) (x : events_input) : list V :=
  match x with
  | EiInit j (Some _) => if decide (j = i) then [] else acc
  | EiNotify _ value => acc ++ [value]
  | _ => acc
  end.
Definition told_since (i : nat) (past : list events_input) : list V := fold_left (told_step i) past [].
Definition given_to (i : nat) (past : list events_input) : list (nid * P) :=
  omap (fun x => match x with EiListen j fut user => if decide (j = i) then Some (fut, user) else None | _ => None end) past.

(** What the application and the heap respect: a new listener, and new events, are not allocated yet; a
    listener is initialized when it does not work, and freed when it does not work; the pointers are valid. *)
Definition events_enabled (s : events_api) (x : events_input) : Prop :=
  match x with
  | EiNew i => ea_slots s !! i = None
  | EiInit i _ | EiFree i =>
      exists sl, ea_slots s !! i = Some sl /\ allocated sl = true /\ sl_contexts sl = ∅
  | EiListen i _ user => (exists sl, ea_slots s !! i = Some sl /\ allocated sl = true) /\
      user_waits user = true /\ writable user = true
  | EiStop i => exists sl, ea_slots s !! i = Some sl /\ allocated sl = true
  | EiStopAll => True
  | EiNotify ev _ => forall i sl e, ea_slots s !! i = Some sl -> ev i = Some e -> sl_events sl !! e = None
  end.

Inductive events_run : list events_input -> list (nat * events_call) -> events_api -> Prop :=
| events_start : events_run [] [] (mk_ea ∅ [] [])
| events_next past t s x s' t' :
    events_run past t s -> events_enabled s x -> events_step x s = Def (tt, s', t') ->
    events_run (past ++ [x]) (t ++ t') s'.

Record api_inv (told : nat -> list V) (given : nat -> list (nid * P)) (t : list (nat * events_call)) (s : events_api) : Prop := {
  api_slots : forall i sl, ea_slots s !! i = Some sl -> slot_inv (told i) (given i) (calls_of i t) sl;
  api_core_nodup : NoDup (ea_core s);
  api_core : forall i c, (i, c) ∈ ea_core s <-> exists sl, ea_slots s !! i = Some sl /\ c ∈ registered sl;
  api_listeners : forall i, i ∈ ea_listeners s -> exists sl, ea_slots s !! i = Some sl /\ allocated sl = true;
  api_unknown : forall i, ea_slots s !! i = None -> calls_of i t = [] /\ given i = []
}.

Lemma calls_of_app i t t' : calls_of i (t ++ t') = calls_of i t ++ calls_of i t'.
Proof. apply omap_app. Qed.
Lemma calls_of_own i t : calls_of i (map (pair i) t) = t.
Proof. induction t as [| c t IH]; [done |]. cbn. rewrite decide_True by done. by f_equal. Qed.
Lemma calls_of_other i j t : i <> j -> calls_of j (map (pair i) t) = [].
Proof. intros Hn. induction t as [| c t IH]; [done |]. cbn. by rewrite decide_False. Qed.

Lemma registered_empty s : sl_contexts s = ∅ -> registered s = ∅.
Proof. unfold registered. intros ->. apply dom_empty_L. Qed.

Lemma inv_closed told given t s :
  slot_inv told given t s -> sl_contexts s = ∅ -> closed_slot s.
Proof.
  intros [[(c & user & es & evs & fut & -> & _) | [Hc _]] _ _ _] He; [| done].
  apply registered_empty in He. rewrite registered_open in He. set_solver.
Qed.

(** A step of one listener. *)
Lemma on_slot_good {A} told given t s i sl alive (m : sl_uhandler A) told' given' :
  api_inv told given t s -> ea_slots s !! i = Some sl -> slot_goal told' given' (calls_of i t) sl alive m ->
  exists a sl' core' t', on_slot i m s = Def (a, mk_ea (<[i := sl']> (ea_slots s)) (ea_listeners s) core', t') /\
    allocated sl' = alive /\
    (alive = true -> api_inv (<[i := told']> told) (<[i := given']> given) (t ++ t')
       (mk_ea (<[i := sl']> (ea_slots s)) (ea_listeners s) core')) /\
    api_inv (<[i := told']> told) (<[i := given']> given) (t ++ t')
       (mk_ea (<[i := sl']> (ea_slots s)) (filter (fun j => j <> i) (ea_listeners s)) core').
Proof.
  intros [Hs Hnd Hc Hl Hu] Hi (a & sl' & t' & E & Hal & Hinv & Hcore).
  set (core' := fold_left (core_list i) t' (ea_core s)).
  destruct (Hcore i (ea_core s) Hnd) as (Hnd' & Hown & Hother). { intros c. rewrite Hc, Hi. naive_solver. }
  fold core' in Hnd', Hown, Hother.
  assert (Hgood : forall l, (forall j, j ∈ l -> exists sl0, <[i := sl']> (ea_slots s) !! j = Some sl0 /\ allocated sl0 = true) ->
    api_inv (<[i := told']> told) (<[i := given']> given) (t ++ map (pair i) t') (mk_ea (<[i := sl']> (ea_slots s)) l core')).
  { intros l Hlist. split; cbn; [| done | | done |].
    - intros j slj. rewrite calls_of_app. destruct (decide (j = i)) as [-> | Hj].
      + rewrite lookup_insert_eq, !fn_lookup_insert, calls_of_own. by intros [= <-].
      + rewrite lookup_insert_ne, !fn_lookup_insert_ne, calls_of_other, app_nil_r by done. apply Hs.
    - intros j c. destruct (decide (j = i)) as [-> | Hj].
      + rewrite Hown, lookup_insert_eq. naive_solver.
      + rewrite Hother, Hc, lookup_insert_ne by done. done.
    - intros j. destruct (decide (j = i)) as [-> | Hj]; [by rewrite lookup_insert_eq |].
      rewrite lookup_insert_ne, fn_lookup_insert_ne, calls_of_app, calls_of_other, app_nil_r by done. apply Hu. }
  exists a, sl', core', (map (pair i) t'). split.
  { unfold on_slot. rewrite Hi, E. by destruct s. }
  split; [done |]. split.
  - intros ->. apply Hgood. intros j Hj. destruct (decide (j = i)) as [-> | Hn].
    + exists sl'. by rewrite lookup_insert_eq.
    + rewrite lookup_insert_ne by done. by apply Hl.
  - apply Hgood. intros j [Hn Hj]%list_elem_of_filter. rewrite lookup_insert_ne by done. by apply Hl.
Qed.

Lemma api_inv_more told told' given given' t s :
  api_inv told given t s ->
  (forall i sl, ea_slots s !! i = Some sl -> told' i = told i \/ (closed_slot sl /\ told i `prefix_of` told' i)) ->
  (forall i, given' i = given i) -> api_inv told' given' t s.
Proof.
  intros [Hs Hnd Hc Hl Hu] Ht Hg. split; try done.
  - intros i sl Hi. rewrite Hg. destruct (Ht i sl Hi) as [-> | [Hcl Hp]]; [by apply Hs |].
    eapply closed_more; [done | by apply Hs | done].
  - intros i Hi. rewrite Hg. by apply Hu.
Qed.

(** The loop over the listeners of the core. *)
Lemma notify_good ev v given core : forall told t s,
  api_inv told given t s -> NoDup (map fst core) -> (forall x, x ∈ core -> x ∈ ea_core s) ->
  (forall i sl e, i ∈ map fst core -> ea_slots s !! i = Some sl -> ev i = Some e -> sl_events sl !! e = None) ->
  exists s' t', notify_loop ev v core s = Def (tt, s', t') /\
    api_inv (fun i => if decide (i ∈ map fst core) then told i ++ [v] else told i) given (t ++ t') s' /\
    (forall i, i ∉ map fst core -> ea_slots s' !! i = ea_slots s !! i).
Proof.
  induction core as [| [i c] core IH]; intros told t s Hinv Hnd Hin Hfresh.
  { exists s, []. split; [done |]. rewrite app_nil_r. split; [| done]. eapply api_inv_more; [done | | done]. by left. }
  cbn [map fst] in Hnd. apply NoDup_cons in Hnd as [Hi Hnd].
  destruct (proj1 (api_core _ _ _ _ Hinv i c) (Hin _ ltac:(by left))) as (sl & Hsl & Hr).
  destruct (on_slot_good told given t s i sl true (core_cb c (ev i) v) (told i ++ [v]) (given i) Hinv Hsl)
    as ([] & sl' & core' & t1 & E & Hal & Hinv' & _).
  { apply core_cb_good; [by apply Hinv | done |]. intros e He. eapply Hfresh; [by left | done | done]. }
  specialize (Hinv' eq_refl). set (s1 := mk_ea _ _ _) in *.
  destruct (IH (<[i := told i ++ [v]]> told) (t ++ t1) s1) as (s2 & t2 & E2 & Hinv2 & Hsame).
  { eapply api_inv_more; [done | by left |]. intros j. destruct (decide (j = i)) as [-> |]; by rewrite ?fn_lookup_insert, ?fn_lookup_insert_ne. }
  { done. }
  { intros [j d] Hj. assert (Hji : j <> i) by (intros ->; apply Hi, list_elem_of_fmap; by exists (i, d)).
    apply (api_core _ _ _ _ Hinv'). cbn. rewrite lookup_insert_ne by done. apply (api_core _ _ _ _ Hinv), Hin. by right. }
  { intros j slj e Hj. assert (Hji : j <> i) by (by intros ->). cbn. rewrite lookup_insert_ne by done. apply Hfresh. by right. }
  exists s2, (t1 ++ t2). split; [cbn [notify_loop]; by rewrite (ubind_def _ _ _ _ _ _ E), E2 |]. split.
  - rewrite app_assoc. eapply api_inv_more; [done | | done]. intros j slj Hj. left. cbn [map fst].
    destruct (decide (j = i)) as [-> | Hji].
    + rewrite decide_True by (by left). by rewrite decide_False, fn_lookup_insert by done.
    + rewrite fn_lookup_insert_ne by done. destruct (decide (j ∈ map fst core)).
      * by rewrite decide_True by (by right).
      * rewrite decide_False; [done |]. by rewrite not_elem_of_cons.
  - intros j [Hji Hj]%not_elem_of_cons. rewrite Hsame by done. cbn. by rewrite lookup_insert_ne.
Qed.

Lemma core_one told given t s : api_inv told given t s -> NoDup (map fst (ea_core s)).
Proof.
  intros Hinv. apply NoDup_fmap_fst; [| apply Hinv]. intros i c c' [sl [Hi Hc]]%(api_core _ _ _ _ Hinv) [sl' [Hi' Hc']]%(api_core _ _ _ _ Hinv).
  rewrite Hi in Hi'. injection Hi' as <-. destruct (open_inv _ _ _ _ _ (api_slots _ _ _ _ Hinv _ _ Hi) Hc) as (? & ? & ? & ? & -> & _).
  rewrite registered_open in Hc'. set_solver.
Qed.

Lemma stop_loop_good told given l : forall t s,
  api_inv told given t s -> (forall i, i ∈ l -> exists sl, ea_slots s !! i = Some sl /\ allocated sl = true) ->
  exists s' t', nabto_device_listener_stop_all_loop l s = Def (tt, s', t') /\ api_inv told given (t ++ t') s'.
Proof.
  induction l as [| i l IH]; intros t s Hinv Hal.
  { exists s, []. by rewrite app_nil_r. }
  destruct (Hal i ltac:(by left)) as (sl & Hi & Ha).
  destruct (on_slot_good told given t s i sl true stop_listener (told i) (given i) Hinv Hi)
    as (ec & sl' & core' & t1 & E & Hal' & Hinv' & _).
  { apply slot_stop_good; [by apply Hinv | done]. }
  specialize (Hinv' eq_refl). set (s1 := mk_ea _ _ _) in *.
  destruct (IH (t ++ t1) s1) as (s2 & t2 & E2 & Hinv2).
  { eapply api_inv_more; [done | left |]; intros; destruct (decide (i0 = i)) as [-> |]; by rewrite ?fn_lookup_insert, ?fn_lookup_insert_ne. }
  { intros j Hj. cbn. destruct (decide (j = i)) as [-> |]; [exists sl'; by rewrite lookup_insert_eq |].
    rewrite lookup_insert_ne by done. apply Hal. by right. }
  exists s2, (t1 ++ t2). rewrite app_assoc. split; [| done].
  cbn [nabto_device_listener_stop_all_loop]. by rewrite (ubind_def _ _ _ _ _ _ E), E2.
Qed.

Lemma told_snoc i past x : told_since i (past ++ [x]) = told_step i (told_since i past) x.
Proof. apply fold_left_app. Qed.
Lemma given_snoc i past x : given_to i (past ++ [x]) = given_to i past ++ given_to i [x].
Proof. apply omap_app. Qed.

(** The step [m] of listener [i] is what happens. *)
Lemma on_slot_step {A} told given told' given' t s i sl (m : sl_uhandler A) :
  api_inv told given t s -> ea_slots s !! i = Some sl -> slot_goal (told' i) (given' i) (calls_of i t) sl true m ->
  (forall j, j <> i -> told' j = told j /\ given' j = given j) ->
  exists a s' t', on_slot i m s = Def (a, s', t') /\ api_inv told' given' (t ++ t') s'.
Proof.
  intros Hinv Hi Hg Hj. destruct (on_slot_good told given t s i sl true m (told' i) (given' i) Hinv Hi Hg)
    as (a & sl' & core' & t1 & E & Hal & Hinv' & _).
  eexists a, _, t1. split; [done |]. eapply api_inv_more; [by apply Hinv' | intros j slj _; left |]; [| intros j];
    (destruct (decide (j = i)) as [-> | Hn]; [by rewrite fn_lookup_insert | rewrite fn_lookup_insert_ne by done; by apply Hj]).
Qed.

Definition step_goal (past : list events_input) (t : list (nat * events_call)) (s : events_api) (x : events_input) : Prop :=
  exists s' t', events_step x s = Def (tt, s', t') /\
    api_inv (fun i => told_since i (past ++ [x])) (fun i => given_to i (past ++ [x])) (t ++ t') s'.

Definition run_inv (past : list events_input) (t : list (nat * events_call)) (s : events_api) : Prop :=
  api_inv (fun i => told_since i past) (fun i => given_to i past) t s.

(** A step without calls that does not change what was told and given. *)
Lemma history_same past t s x :
  run_inv past t s -> (forall i, told_since i (past ++ [x]) = told_since i past) -> (forall i, given_to i [x] = []) ->
  api_inv (fun i => told_since i (past ++ [x])) (fun i => given_to i (past ++ [x])) t s.
Proof. intros Hi Ht Hg. eapply api_inv_more; [done | by left |]. intros i. by rewrite given_snoc, Hg, app_nil_r. Qed.

Lemma new_step past t s i : run_inv past t s -> events_enabled s (EiNew i) -> step_goal past t s (EiNew i).
Proof.
  intros Hinv Hi. cbn in Hi. eexists _, []. split; [reflexivity |]. rewrite app_nil_r.
  apply (history_same _ _ _ (EiNew i)); [| by intros; rewrite told_snoc | done].
  destruct Hinv as [Hs Hnd Hc Hl Hu]. split; cbn; unfold apply_update; cbn.
  - intros j sl. destruct (decide (j = i)) as [-> | Hj].
    + rewrite lookup_insert_eq. intros [= <-]. destruct (Hu i Hi) as [-> ->]. split; try done; [| by intros x ?%elem_of_nil].
      right. split; [constructor | apply prefix_nil].
    + rewrite lookup_insert_ne by done. apply Hs.
  - done.
  - intros j c. rewrite Hc. destruct (decide (j = i)) as [-> | Hj]; [| by rewrite lookup_insert_ne].
    rewrite lookup_insert_eq, Hi. split; [by intros (? & ? & _) |]. intros (sl & [= <-] & Hr). by apply elem_of_empty in Hr.
  - intros j [Hj | Hj]%elem_of_app.
    + destruct (Hl j Hj) as (sl & Hsl & Ha). exists sl. rewrite lookup_insert_ne by (intros ->; by rewrite Hi in Hsl). done.
    + apply list_elem_of_singleton in Hj as ->. exists slot_new. by rewrite lookup_insert_eq.
  - intros j. destruct (decide (j = i)) as [-> | Hj]; [by rewrite lookup_insert_eq |]. rewrite lookup_insert_ne by done. apply Hu.
Qed.

Lemma init_step past t s i ctx : run_inv past t s -> events_enabled s (EiInit i ctx) -> step_goal past t s (EiInit i ctx).
Proof.
  intros Hinv (sl & Hi & Ha & He). pose proof (api_slots _ _ _ _ Hinv i sl Hi) as Hsl.
  destruct (on_slot_step (fun i => told_since i past) (fun i => given_to i past) (fun j => told_since j (past ++ [EiInit i ctx]))
    (fun j => given_to j (past ++ [EiInit i ctx])) t s i sl (init_listener ctx) Hinv Hi) as (ec & s' & t' & E & Hinv').
  - rewrite told_snoc, given_snoc. cbn. rewrite app_nil_r. destruct ctx as [c |].
    + rewrite decide_True by done. eapply slot_init_good; [done | by eapply inv_closed | done].
    + rewrite <- Ha. by eapply inv_quiet.
  - intros j Hj. rewrite told_snoc, given_snoc. cbn. rewrite app_nil_r. split; [| done]. destruct ctx; [| done].
    by rewrite decide_False by congruence.
  - exists s', t'. split; [| done]. cbn [events_step]. rewrite (ubind_def _ _ _ _ _ _ E). cbn. by rewrite app_nil_r.
Qed.

Lemma listen_step past t s i fut user :
  run_inv past t s -> events_enabled s (EiListen i fut user) -> step_goal past t s (EiListen i fut user).
Proof.
  intros Hinv [(sl & Hi & Ha) [Hu Hw]].
  destruct (on_slot_step (fun i => told_since i past) (fun i => given_to i past) (fun j => told_since j (past ++ [EiListen i fut user]))
    (fun j => given_to j (past ++ [EiListen i fut user])) t s i sl (listen_event fut user) Hinv Hi) as ([] & s' & t' & E & Hinv').
  - rewrite told_snoc, given_snoc. cbn. rewrite decide_True by done. apply slot_listen_good; [| done | done | done].
    by apply (api_slots _ _ _ _ Hinv).
  - intros j Hj. rewrite told_snoc, given_snoc. cbn. rewrite decide_False by congruence. by rewrite app_nil_r.
  - by exists s', t'.
Qed.

Lemma stop_step past t s i : run_inv past t s -> events_enabled s (EiStop i) -> step_goal past t s (EiStop i).
Proof.
  intros Hinv (sl & Hi & Ha).
  destruct (on_slot_step (fun i => told_since i past) (fun i => given_to i past) (fun j => told_since j (past ++ [EiStop i]))
    (fun j => given_to j (past ++ [EiStop i])) t s i sl stop_listener Hinv Hi) as (ec & s' & t' & E & Hinv').
  - rewrite told_snoc, given_snoc. cbn. rewrite app_nil_r. apply slot_stop_good; [| done]. by apply (api_slots _ _ _ _ Hinv).
  - intros j Hj. by rewrite told_snoc, given_snoc, app_nil_r.
  - exists s', t'. split; [| done]. cbn [events_step]. rewrite (ubind_def _ _ _ _ _ _ E). cbn. by rewrite app_nil_r.
Qed.

Lemma free_step past t s i : run_inv past t s -> events_enabled s (EiFree i) -> step_goal past t s (EiFree i).
Proof.
  intros Hinv (sl & Hi & Ha & He). pose proof (api_slots _ _ _ _ Hinv i sl Hi) as Hsl.
  destruct (on_slot_good _ _ t s i sl false nabto_device_listener_free (told_since i past) (given_to i past) Hinv Hi)
    as ([] & sl' & core' & t1 & E & _ & _ & Hinv').
  { apply slot_free_good; [done | done | by eapply inv_closed]. }
  eexists _, t1. split.
  { cbn [events_step]. unfold listener_free. rewrite (ubind_def _ _ _ _ _ _ E). cbn. unfold apply_update. cbn. rewrite app_nil_r. reflexivity. }
  eapply api_inv_more; [exact Hinv' | intros j slj _; left |]; [| intros j];
    rewrite ?told_snoc, ?given_snoc; cbn; rewrite ?app_nil_r;
    (destruct (decide (j = i)) as [-> | Hn]; [by rewrite fn_lookup_insert | by rewrite fn_lookup_insert_ne]).
Qed.

Lemma stop_all_step past t s : run_inv past t s -> step_goal past t s EiStopAll.
Proof.
  intros Hinv. destruct (stop_loop_good _ _ (ea_listeners s) t s Hinv (api_listeners _ _ _ _ Hinv)) as (s' & t' & E & Hinv').
  exists s', t'. split; [cbn [events_step]; unfold nabto_device_listener_stop_all; by rewrite u_hget |].
  apply (history_same _ _ _ EiStopAll); [done | by intros; rewrite told_snoc | done].
Qed.

Lemma notify_step past t s ev v :
  run_inv past t s -> events_enabled s (EiNotify ev v) -> step_goal past t s (EiNotify ev v).
Proof.
  intros Hinv Hfresh.
  destruct (notify_good ev v _ (ea_core s) _ t s Hinv) as (s' & t' & E & Hinv' & Hsame);
    [by eapply core_one | done | by intros i sl e _; apply Hfresh |].
  exists s', t'. split; [cbn [events_step]; unfold events_notify; by rewrite u_hget |].
  eapply api_inv_more; [exact Hinv' | |].
  - intros i sl Hi. rewrite told_snoc. cbn. destruct (decide (i ∈ map fst (ea_core s))) as [| Hn]; [by left |].
    right. split; [| by apply prefix_app_r]. rewrite Hsame in Hi by done.
    eapply inv_closed; [by apply (api_slots _ _ _ _ Hinv) |]. apply dom_empty_inv_L, set_eq. intros c.
    split; [| set_solver]. intros Hc. exfalso. apply Hn, list_elem_of_fmap. exists (i, c). split; [done |].
    apply (api_core _ _ _ _ Hinv). by exists sl.
  - intros i. rewrite given_snoc. cbn. by rewrite app_nil_r.
Qed.

Lemma step_good past t s x : run_inv past t s -> events_enabled s x -> step_goal past t s x.
Proof.
  intros Hinv Hen. destruct x; [by apply new_step | by apply init_step | by apply listen_step | by apply stop_step |
    by apply stop_all_step | by apply free_step | by apply notify_step].
Qed.

Lemma run_good past t s : events_run past t s -> run_inv past t s.
Proof.
  induction 1 as [| past t s x s' t' Hrun IH Hen E].
  - split; cbn; [done | constructor | | by intros i ?%elem_of_nil | done].
    intros i c. split; [by intros ?%elem_of_nil |]. by intros (sl & ? & _).
  - destruct (step_good past t s x IH Hen) as (s1 & t1 & E1 & Hinv). rewrite E in E1. by injection E1 as -> ->.
Qed.

(** ** Every event is delivered *)

Definition works (s : listen_slot) : bool := match sl_listener s with Some l => dl_cb l | None => false end.

Lemma closed_works s : closed_slot s -> works s = false.
Proof. by intros [| |]. Qed.

Lemma slot_end told given t s : slot_inv told given t s ->
  (if works s then map snd (stored_since t) ++ waiting s = told /\ size (sl_contexts s) = 1%nat
   else map snd (stored_since t) `prefix_of` told /\ waiting s = [] /\ sl_contexts s = ∅) /\
  (forall e, is_Some (sl_events s !! e) <-> exists l, sl_listener s = Some l /\ e ∈ dl_events l) /\
  (waiting_future s = [] \/ waiting s = []).
Proof.
  intros [[(c & user & es & evs & fut & -> & Hok) | [Hc Hp]] _ _ _].
  - cbn. split; [| split].
    + split; [apply Hok | apply map_size_singleton].
    + intros e. rewrite <- elem_of_dom, (ok_events _ _ _ _ _ _ _ _ Hok), elem_of_list_to_set. naive_solver.
    + unfold waiting_future, waiting. cbn. destruct (ok_waits _ _ _ _ _ _ _ _ Hok) as [-> | ->]; [by left | by right].
  - rewrite (closed_works s Hc). destruct (closed_waiting s Hc) as [Hw Hwf]. split; [| split; [| by left]].
    + split_and!; [done | done |]. by destruct Hc.
    + intros e. destruct Hc; cbn; rewrite lookup_empty; (split; [by intros [] | intros (l & [= <-] & He); by apply elem_of_nil in He] || idtac).
Qed.

(** Runs by computation. *)
Definition enabled_now (s : events_api) (x : events_input) : bool :=
  match x with
  | EiNew i => negb (dl_is_set (ea_slots s !! i))
  | EiInit i _ | EiFree i =>
      match ea_slots s !! i with Some sl => allocated sl && (size (sl_contexts sl) =? 0)%nat | None => false end
  | EiListen i _ user =>
      match ea_slots s !! i with Some sl => allocated sl | None => false end && user_waits user && writable user
  | EiStop i => match ea_slots s !! i with Some sl => allocated sl | None => false end
  | EiStopAll => true
  | EiNotify ev _ =>
      forallb (fun x => match ev x.1 with Some e => negb (dl_is_set (sl_events x.2 !! e)) | None => true end) (map_to_list (ea_slots s))
  end.

Lemma events_enabled_by_compute s x : enabled_now s x = true -> events_enabled s x.
Proof.
  assert (Hslot : forall (i : nat) (f : listen_slot -> bool),
    match ea_slots s !! i with Some sl => f sl | None => false end = true -> exists sl, ea_slots s !! i = Some sl /\ f sl = true).
  { intros i f. destruct (ea_slots s !! i) as [sl |]; [by exists sl | done]. }
  destruct x; cbn [enabled_now events_enabled]; intros E.
  - by destruct (ea_slots s !! i).
  - apply (Hslot i) in E as (sl & Hi & [Ha He%Nat.eqb_eq]%andb_true_iff). apply map_size_empty_inv in He. by exists sl.
  - apply andb_true_iff in E as [[E Hu]%andb_true_iff Hw]. split; [by apply (Hslot i) | done].
  - by apply (Hslot i).
  - done.
  - apply (Hslot i) in E as (sl & Hi & [Ha He%Nat.eqb_eq]%andb_true_iff). apply map_size_empty_inv in He. by exists sl.
  - intros i sl e Hi He. rewrite forallb_forall in E. specialize (E (i, sl)). cbn in E. rewrite He in E.
    destruct (sl_events sl !! e) as [v |] eqn:Ev; [| done]. exfalso. cbn in E. discriminate E.
    by apply list_elem_of_In, elem_of_map_to_list.
Qed.

Fixpoint run_inputs (xs : list events_input) (t : list (nat * events_call)) (s : events_api) :
    cres (list (nat * events_call) * events_api) :=
  match xs with
  | [] => Def (t, s)
  | x :: xs =>
      if enabled_now s x then
        match events_step x s with Def (_, s', t') => run_inputs xs (t ++ t') s' | UB => UB end
      else UB
  end.

Lemma run_inputs_reached xs : forall past t s t' s',
  events_run past t s -> run_inputs xs t s = Def (t', s') -> events_run (past ++ xs) t' s'.
Proof.
  induction xs as [| x xs IH]; intros past t s t' s' Hrun E; cbn in E.
  - injection E as <- <-. by rewrite app_nil_r.
  - destruct (enabled_now s x) eqn:Hen; [| done]. destruct (events_step x s) as [[[[] s1] t1] |] eqn:Hs; [| done].
    rewrite cons_middle, app_assoc. eapply IH; [| done]. econstructor; [done | by apply events_enabled_by_compute | done].
Qed.

End Events.

(** ** The two kinds *)

Definition nabto_device_connection_events_listener_cb := listener_cb (P := option nat * option nat) (V := Z * nc_connection_event).
Definition nabto_device_connection_events_core_cb := core_cb (P := option nat * option nat) (V := Z * nc_connection_event).
Definition nabto_device_connection_events_init_listener := init_listener (P := option nat * option nat) (V := Z * nc_connection_event).
Definition nabto_device_listener_connection_event := listen_event (P := option nat * option nat) (V := Z * nc_connection_event).
Definition nabto_device_events_listener_cb := listener_cb (P := option nat) (V := nc_device_event).
Definition nabto_device_events_core_cb := core_cb (P := option nat) (V := nc_device_event).
Definition nabto_device_device_events_init_listener := init_listener (P := option nat) (V := nc_device_event).
Definition nabto_device_listener_device_event := listen_event (P := option nat) (V := nc_device_event).

(** ** Examples *)

Abbreviation connection_input := (events_input (P := option nat * option nat) (V := Z * nc_connection_event)).
Abbreviation connection_state := (events_api (P := option nat * option nat) (V := Z * nc_connection_event)).

(** Two listeners; the first waits with a future, the second listens after the events. *)
Definition example_inputs : list connection_input :=
  [EiNew 0%nat; EiNew 1%nat; EiInit 0%nat (Some 5%nat); EiInit 1%nat (Some 6%nat);
   EiListen 0%nat 7%nat (Some 100%nat, Some 101%nat);
   EiNotify (fun i => Some (10 + i)%nat) (9, NC_CONNECTION_EVENT_OPENED);
   EiNotify (fun i => Some (20 + i)%nat) (9, NC_CONNECTION_EVENT_CLOSED);
   EiListen 1%nat 8%nat (Some 102%nat, Some 103%nat); EiStop 0%nat].

Definition example_end : list (nat * events_call) * connection_state :=
  match run_inputs example_inputs [] (mk_ea ∅ [] []) with Def x => x | UB => ([], mk_ea ∅ [] []) end.

Lemma example_ends : events_run example_inputs example_end.1 example_end.2.
Proof.
  apply (run_inputs_reached example_inputs [] [] (mk_ea ∅ [] [])); [constructor |]. vm_compute. reflexivity.
Qed.


(** A listener that is freed while it works stays in the list of the core: the next event uses freed memory. *)
Example freed_listener_used :
  let m := (let+ _ := nabto_device_listener_new 0%nat in
            let+ _ := on_slot 0%nat (nabto_device_device_events_init_listener (Some 5%nat)) in
            let+ _ := listener_free 0%nat in
            events_notify (fun _ => Some 9%nat) NC_DEVICE_EVENT_ATTACHED) in
  m (mk_ea ∅ [] []) = UB.
Proof. vm_compute. reflexivity. Qed.

(** A listener that is initialized twice has two contexts: an event is delivered twice, and after it was stopped
    its first context is still in the list of the core, so that the next event is refused. *)
Example second_init_doubles :
  let m := (let+ _ := nabto_device_listener_new 0%nat in
            let+ _ := on_slot 0%nat (nabto_device_device_events_init_listener (Some 5%nat)) in
            let+ _ := on_slot 0%nat (nabto_device_device_events_init_listener (Some 6%nat)) in
            let+ _ := on_slot 0%nat (nabto_device_listener_device_event 7%nat (Some 100%nat)) in
            let+ _ := notify_loop (fun _ => Some 9%nat) NC_DEVICE_EVENT_ATTACHED [(0%nat, 5%nat)] in
            let+ _ := notify_loop (fun _ => Some 10%nat) NC_DEVICE_EVENT_ATTACHED [(0%nat, 6%nat)] in
            let+ s := ulift hget in
            let+ _ := on_slot 0%nat stop_listener in
            let+ s' := ulift hget in
            ulift (hret (ea_core s, option_map waiting (ea_slots s !! 0%nat), ea_core s'))) in
  exists s t, m (mk_ea ∅ [] []) =
    Def ([(0%nat, 5%nat); (0%nat, 6%nat)], Some [NC_DEVICE_EVENT_ATTACHED], [(0%nat, 5%nat)], s, t).
Proof. eexists _, _. vm_compute. reflexivity. Qed.
