(* ===== verification/Passwords.v ===== *)
(** * The listener for password requests (api/nabto_device_password_authentication.c)

    The key exchange (Spake2.v) asks for a password: the request goes to the listener of the application
    (Futures.v), which gives it to a future; the application answers and frees it. Requests of the API are
    numbered, and a number is not used twice. The mutex makes every function of the API a step. *)

From S2P Require Import Prelude Platform Collections Futures Spake2 Events.
From stdpp Require Import functions gmap.

#[local] Open Scope Z_scope.
#[local] Open Scope list_scope.
#[local] Open Scope handler_scope.

Section Passwords.
Context {P : Type}.
Abbreviation request := (nabto_device_password_authentication_request (P := P)).
Abbreviation core_request := (nc_spake2_password_request (P := P)).

(** [pw_handler]: whether the key exchange has the handler of the API; [pw_pointer] is [genericFutureResolverData]. *)
Record password_api : Type := mk_pw {
  pw_listener : nabto_device_listener;
  pw_type : nabto_device_listener_type;
  pw_handler : bool;
  pw_pointer : option nat;
  pw_requests : gmap nat request
}.

(** [PwCallback]: a call of [nabto_device_password_authentication_listener_resolve_event]; [PwReady]: the answer to the
    key exchange. *)
Inductive password_api_call : Type :=
| PwMade (r : nat)
| PwCallback (ec : np_error_code) (event : option nat)
| PwStore (pointer : nat) (r : option nat)
| PwReset (fut : nid)
| PwResolve (fut : nid) (ec : np_error_code)
| PwReady (r : nat) (req : core_request) (password : option (list Z))
| PwFree (r : nat).

Definition pw_uhandler (A : Type) : Type := uhandler password_api password_api_call A.

(** Only [NABTO_EC_ABORTED] does something. *)
Definition nabto_device_password_authentication_listener_resolve_event (ec : np_error_code) (eventData : option nat) :
    pw_uhandler np_error_code :=
  let+ _ := ulift (emit (PwCallback ec eventData)) in
  let+ _ := (if ec_eqb ec NABTO_EC_ABORTED then ulift (hmod (fun s => s {{ pw_handler := false }})) else ulift hskip) in
  ulift (hret NABTO_EC_OK).

(** The calls of the listener, run in order; before the callback for a future the listener writes the event to
    [genericFutureResolverData]. *)
Fixpoint listener_calls (t : list listener_call) : pw_uhandler unit :=
  match t with
  | [] => ulift hskip
  | DlCallback ec fut event :: t =>
      let+ s := ulift hget in
      let+ _ := (match fut, pw_pointer s with
                 | Some _, Some pointer => ulift (emit (PwStore pointer event))
                 | _, _ => ulift hskip
                 end) in
      let+ _ := nabto_device_password_authentication_listener_resolve_event ec event in
      listener_calls t
  | DlResolve fut ec :: t => let+ _ := ulift (emit (PwResolve fut ec)) in listener_calls t
  end.

(** A function of the listener; the callback answers OK. *)
Definition on_listener {A} (m : (nat -> np_error_code) -> dl_handler A) : pw_uhandler A :=
  let+ s := ulift hget in
  let '(a, l, t) := m (fun _ => NABTO_EC_OK) (pw_listener s) in
  let+ _ := ulift (hmod (fun s => s {{ pw_listener := l }})) in
  let+ _ := listener_calls t in
  ulift (hret a).

Definition nabto_device_password_authentication_request_init_listener : pw_uhandler np_error_code :=
  let+ s := ulift hget in
  if pw_handler s then ulift (hret (nabto_device_error_core_to_api NABTO_EC_IN_USE))
  else
    let+ ec := on_listener (fun _ => nabto_device_listener_init) in
    let+ _ := ulift (hmod (fun s => s {{ pw_type := NABTO_DEVICE_LISTENER_TYPE_PASSWORD_REQUESTS }})) in
    let+ _ := (if negb (is_error ec) then ulift (hmod (fun s => s {{ pw_handler := true }})) else ulift hskip) in
    ulift (hret (nabto_device_error_core_to_api ec)).

(** [r]: the new request, if there is memory. It is not freed when the listener does not take it. *)
Definition password_request_handler (r : option nat) (req : core_request) : pw_uhandler np_error_code :=
  match r with
  | None => ulift (hret NABTO_EC_OUT_OF_MEMORY)
  | Some r =>
      let+ _ := ulift (emit (PwMade r) ;;; hmod (fun s => s {{ pw_requests ::= <[r := mk_pa req false]> }})) in
      on_listener (fun answer => nabto_device_listener_add_event answer r)
  end.

Definition nabto_device_listener_new_password_authentication_request (fut : nid) (pointer : nat) : pw_uhandler unit :=
  let+ _ := ulift (emit (PwReset fut)) in
  let+ s := ulift hget in
  if negb (bool_decide (pw_type s = NABTO_DEVICE_LISTENER_TYPE_PASSWORD_REQUESTS))
  then ulift (emit (PwResolve fut NABTO_EC_INVALID_ARGUMENT))
  else
    let ec := nabto_device_listener_get_status (pw_listener s) in
    if is_error ec then ulift (emit (PwResolve fut (nabto_device_error_core_to_api ec)))
    else
      let+ ec := on_listener (fun _ => nabto_device_listener_init_future fut) in
      if is_error ec then ulift (emit (PwResolve fut ec))
      else
        let+ _ := ulift (emit (PwStore pointer None) ;;; hmod (fun s => s {{ pw_pointer := Some pointer }})) in
        on_listener nabto_device_listener_try_resolve.

(** A function of a request; the answers are told with its number, and a request that was freed is undefined. *)
Definition on_request {A} (r : nat) (m : pa_handler A) : pw_uhandler A := fun s =>
  match pw_requests s !! r with
  | None => UB
  | Some q =>
      let '(a, q', t) := m q in
      let freed := existsb (fun c => match c with PaFree => true | _ => false end) t in
      Def (a, s {{ pw_requests ::= if freed then delete r else <[r := q']> }},
           omap (fun c => match c with
                          | PaReady req password => Some (PwReady r req password)
                          | PaFree => Some (PwFree r)
                          | PaAddEvent _ _ => None
                          end) t)
  end.

Definition password_listener_stop : pw_uhandler np_error_code := on_listener (fun _ => nabto_device_listener_stop).

Inductive password_input : Type :=
| PwInit
| PwRequest (r : option nat) (req : core_request)
| PwNew (fut : nid) (pointer : nat)
| PwStop
| PwUsername (r : nat)
| PwPassword (r : nat) (password : option (list Z))
| PwUserFree (r : nat).

Definition password_step (i : password_input) : pw_uhandler unit :=
  match i with
  | PwInit => let+ _ := nabto_device_password_authentication_request_init_listener in ulift hskip
  | PwRequest r req =>
      let+ s := ulift hget in
      if pw_handler s then let+ _ := password_request_handler r req in ulift hskip else ulift hskip
  | PwNew fut pointer => nabto_device_listener_new_password_authentication_request fut pointer
  | PwStop => let+ _ := password_listener_stop in ulift hskip
  | PwUsername r => let+ _ := on_request r nabto_device_password_authentication_request_get_username in ulift hskip
  | PwPassword r password => let+ _ := on_request r (nabto_device_password_authentication_request_set_password password) in ulift hskip
  | PwUserFree r => on_request r nabto_device_password_authentication_request_free
  end.

(** ** What happens to a request *)

Definition made (t : list password_api_call) : list nat := omap (fun c => match c with PwMade r => Some r | _ => None end) t.
Definition freed (t : list password_api_call) : list nat := omap (fun c => match c with PwFree r => Some r | _ => None end) t.
Definition answered (t : list password_api_call) : list nat :=
  omap (fun c => match c with PwReady r _ _ => Some r | _ => None end) t.
Definition delivered (t : list password_api_call) : list nat :=
  omap (fun c => match c with PwCallback ec (Some r) => if is_error ec then None else Some r | _ => None end) t.
(** Requests that the listener gave back to a callback that does nothing. *)
Definition lost (t : list password_api_call) : list nat :=
  omap (fun c => match c with PwCallback ec (Some r) => if is_error ec then Some r else None | _ => None end) t.

(** The application uses the requests it got and did not free yet. *)
Definition owned (t : list password_api_call) (r : nat) : Prop := r ∈ delivered t /\ r ∉ freed t.

Definition password_enabled (t : list password_api_call) (i : password_input) : Prop :=
  match i with
  | PwRequest (Some r) _ => r ∉ made t
  | PwUsername r | PwPassword r _ | PwUserFree r => owned t r
  | _ => True
  end.

Inductive password_run : list password_api_call -> password_api -> Prop :=
| password_start : password_run [] (mk_pw Futures.nabto_device_listener_new NABTO_DEVICE_LISTENER_TYPE_NONE false None ∅)
| password_next t s i s' t' :
    password_run t s -> password_enabled t i -> password_step i s = Def (tt, s', t') -> password_run (t ++ t') s'.

(** ** Conservation *)

(** Whether the listener works; [working] and [stopped] are of Events.v. *)
Inductive listener_state (s : password_api) : bool -> Prop :=
| state_open es fut :
    pw_listener s = working es fut -> (fut = None \/ es = []) -> pw_type s = NABTO_DEVICE_LISTENER_TYPE_PASSWORD_REQUESTS ->
    listener_state s true
| state_fresh : pw_listener s = Futures.nabto_device_listener_new -> listener_state s false
| state_ended ec : pw_listener s = stopped ec -> is_error ec = true -> listener_state s false.

Record password_inv (t : list password_api_call) (s : password_api) : Prop := {
  pwi_state : listener_state s (pw_handler s);
  pwi_made : made t ≡ₚ delivered t ++ lost t ++ dl_events (pw_listener s);
  pwi_unique : NoDup (made t);
  pwi_allocated : forall r, is_Some (pw_requests s !! r) <-> r ∈ made t /\ r ∉ freed t;
  pwi_freed : forall r, r ∈ freed t -> r ∈ delivered t /\ r ∈ answered t;
  pwi_answered : NoDup (answered t) /\ forall r, r ∈ answered t -> r ∈ delivered t;
  pwi_handled : forall r q, pw_requests s !! r = Some q -> (pa_handled q = true <-> r ∈ answered t)
}.

Lemma made_app t t' : made (t ++ t') = made t ++ made t'.
Proof. apply omap_app. Qed.
Lemma pw_freed_app t t' : freed (t ++ t') = freed t ++ freed t'.
Proof. apply omap_app. Qed.
Lemma answered_app t t' : answered (t ++ t') = answered t ++ answered t'.
Proof. apply omap_app. Qed.
Lemma pw_delivered_app t t' : delivered (t ++ t') = delivered t ++ delivered t'.
Proof. apply omap_app. Qed.
Lemma lost_app t t' : lost (t ++ t') = lost t ++ lost t'.
Proof. apply omap_app. Qed.

(** Calls about the listener only. *)
Definition about_listener (t : list password_api_call) : Prop := made t = [] /\ freed t = [] /\ answered t = [].

Lemma about_app t t' : about_listener t -> about_listener t' -> about_listener (t ++ t').
Proof.
  intros (H1 & H2 & H3) (H4 & H5 & H6). unfold about_listener. rewrite made_app, pw_freed_app, answered_app.
  by rewrite H1, H2, H3, H4, H5, H6.
Qed.

(** A step that only moves events of the listener. *)
Lemma inv_moved t s t' s' :
  password_inv t s -> about_listener t' -> listener_state s' (pw_handler s') -> pw_requests s' = pw_requests s ->
  delivered t' ++ lost t' ++ dl_events (pw_listener s') ≡ₚ dl_events (pw_listener s) ->
  password_inv (t ++ t') s'.
Proof.
  intros [Hst Hm Hu Ha Hf [Hn Hd] Hh] (H1 & H2 & H3) Hst' Hr Hp. split.
  - done.
  - rewrite made_app, pw_delivered_app, lost_app, H1, app_nil_r, Hm, <- Hp. solve_Permutation.
  - by rewrite made_app, H1, app_nil_r.
  - intros r. by rewrite Hr, made_app, pw_freed_app, H1, H2, !app_nil_r.
  - intros r. rewrite pw_freed_app, answered_app, pw_delivered_app, H2, H3, !app_nil_r. intros Hin.
    destruct (Hf r Hin). split; [| done]. apply elem_of_app. by left.
  - rewrite answered_app, H3, app_nil_r. split; [done |]. intros r Hin. rewrite pw_delivered_app. apply elem_of_app. left. by apply Hd.
  - intros r q. rewrite Hr, answered_app, H3, app_nil_r. apply Hh.
Qed.

Lemma pw_listener_run {A} (m : (nat -> np_error_code) -> dl_handler A) a l t s s' t' :
  m (fun _ => NABTO_EC_OK) (pw_listener s) = (a, l, t) -> listener_calls t (s {{ pw_listener := l }}) = Def (tt, s', t') ->
  on_listener m s = Def (a, s', t').
Proof.
  intros E Et. unfold on_listener. rewrite u_hget, E, u_hmod. rewrite (ubind_def _ _ _ _ _ _ Et). cbn. by rewrite app_nil_r.
Qed.

Lemma calls_dropped ec es s : is_error ec = true -> ec <> NABTO_EC_ABORTED -> forall rest,
  listener_calls (map (fun e => DlCallback ec None (Some e)) es ++ rest) s =
    match listener_calls rest s with
    | Def (a, s', t) => Def (a, s', map (fun e => PwCallback ec (Some e)) es ++ t)
    | UB => UB
    end.
Proof.
  intros Hec Hne rest. induction es as [| e es IH]; [cbn; by destruct (listener_calls rest s) as [[[??]?] |] |].
  cbn [map app listener_calls]. rewrite u_hget. unfold ubind at 1. cbn [ulift hskip hret].
  unfold nabto_device_password_authentication_listener_resolve_event.
  replace (ec_eqb ec NABTO_EC_ABORTED) with false by (symmetry; by apply bool_decide_eq_false).
  rewrite (ubind_def _ _ _ NABTO_EC_OK s [PwCallback ec (Some e)]) by reflexivity. rewrite IH.
  by destruct (listener_calls rest s) as [[[??]?] |].
Qed.

Definition end_calls (ec : np_error_code) (es : list nat) (fut : option nid) : list password_api_call :=
  map (fun e => PwCallback ec (Some e)) es ++ map (fun f => PwResolve f ec) (option_list fut) ++ [PwCallback NABTO_EC_ABORTED None].

Lemma pw_stop_run es fut s :
  pw_listener s = working es fut -> (fut = None \/ es = []) ->
  password_listener_stop s =
    Def (NABTO_EC_STOPPED, s {{ pw_listener := stopped NABTO_EC_STOPPED; pw_handler := false }}, end_calls NABTO_EC_STOPPED es fut).
Proof.
  intros El Hw. unfold password_listener_stop. eapply pw_listener_run.
  { unfold nabto_device_listener_stop, nabto_device_listener_stop_internal, hbind, hget. rewrite El.
    cbn [dl_initialized working negb dl_ec is_error].
    rewrite (set_error_open NABTO_EC_STOPPED (working es fut)) by (by repeat split). cbn. by rewrite !app_nil_r. }
  unfold end_trace. cbn [dl_events dl_fut working].
  rewrite (eq_refl : ec_eqb NABTO_EC_STOPPED NABTO_EC_ABORTED = false), calls_dropped by done.
  unfold end_calls. by destruct fut, s.
Qed.

Lemma end_about ec es fut : is_error ec = true ->
  about_listener (end_calls ec es fut) /\ delivered (end_calls ec es fut) = [] /\ lost (end_calls ec es fut) = es.
Proof.
  intros Hec. unfold about_listener, end_calls. rewrite !made_app, !pw_freed_app, !answered_app, !pw_delivered_app, !lost_app.
  assert (H : forall l, made (map (fun e => PwCallback ec (Some e)) l) = [] /\ freed (map (fun e => PwCallback ec (Some e)) l) = [] /\
    answered (map (fun e => PwCallback ec (Some e)) l) = [] /\ delivered (map (fun e => PwCallback ec (Some e)) l) = [] /\
    lost (map (fun e => PwCallback ec (Some e)) l) = l).
  { induction l as [| e l (IH1 & IH2 & IH3 & IH4 & IH5)]; [done |]. cbn. rewrite Hec. split_and!; try done. by f_equal. }
  destruct (H es) as (-> & -> & -> & -> & ->). destruct fut; cbn; by rewrite app_nil_r.
Qed.

Definition password_good (t : list password_api_call) (s : password_api) (i : password_input) : Prop :=
  exists s' t', password_step i s = Def (tt, s', t') /\ password_inv (t ++ t') s'.

Lemma stop_nothing s :
  (pw_listener s = Futures.nabto_device_listener_new \/ exists ec, pw_listener s = stopped ec /\ is_error ec = true) ->
  exists ec, password_listener_stop s = Def (ec, s, []).
Proof.
  intros [El | (ec & El & Hec)]; unfold password_listener_stop.
  - exists NABTO_EC_INVALID_STATE. eapply pw_listener_run; [by rewrite El |]. destruct s. cbn in *. by subst.
  - exists ec. apply (pw_listener_run _ ec (stopped ec) []); [rewrite El; by destruct ec |]. destruct s. cbn in *. by subst.
Qed.

Lemma pw_stop_step_good t s : password_inv t s -> password_good t s PwStop.
Proof.
  intros Hi. unfold password_good. cbn [password_step]. pose proof (pwi_state _ _ Hi) as Hst.
  inversion Hst as [es fut El Hw Hty Hh | El Hh | ec El Hec Hh].
  - rewrite (ubind_def _ _ _ _ _ _ (pw_stop_run es fut s El Hw)). eexists _, _. split; [reflexivity |]. cbn. rewrite app_nil_r.
    destruct (end_about NABTO_EC_STOPPED es fut eq_refl) as (Ha & Hd & Hl). eapply inv_moved; [done | done | | by destruct s |].
    + destruct s. by eapply state_ended.
    + rewrite Hd, Hl, El. cbn. by rewrite app_nil_r.
  - destruct (stop_nothing s) as [ec E]; [by left |]. rewrite (ubind_def _ _ _ _ _ _ E). eexists s, []. split; [reflexivity |]. by rewrite app_nil_r.
  - destruct (stop_nothing s) as [ec' E]; [right; by exists ec |]. rewrite (ubind_def _ _ _ _ _ _ E). eexists s, []. split; [reflexivity |]. by rewrite app_nil_r.
Qed.

Lemma init_opens s :
  pw_handler s = false ->
  (pw_listener s = Futures.nabto_device_listener_new \/ exists ec, pw_listener s = stopped ec /\ is_error ec = true) ->
  exists s', nabto_device_password_authentication_request_init_listener s = Def (NABTO_EC_OK, s', []) /\
    pw_listener s' = working [] None /\ listener_state s' true /\ pw_requests s' = pw_requests s /\ pw_handler s' = true.
Proof.
  intros Hh Hl. unfold nabto_device_password_authentication_request_init_listener. rewrite u_hget, Hh.
  assert (E : on_listener (fun _ => nabto_device_listener_init) s = Def (NABTO_EC_OK, s {{ pw_listener := working [] None }}, [])).
  { apply (pw_listener_run _ _ (working [] None) []); [by destruct Hl as [-> | (ec & -> & _)] | done]. }
  rewrite (ubind_def _ _ _ _ _ _ E). destruct s. eexists. split; [reflexivity |]. split; [done |]. split; [| done].
  eapply (state_open _ [] None); [done | by left | done].
Qed.

Lemma init_step_good t s : password_inv t s -> password_good t s PwInit.
Proof.
  intros Hi. unfold password_good. cbn [password_step]. pose proof (pwi_state _ _ Hi) as Hst.
  unfold nabto_device_password_authentication_request_init_listener.
  inversion Hst as [es fut El Hw Hty Hh | El Hh | ec El Hec Hh].
  - rewrite (ubind_def _ _ _ NABTO_EC_IN_USE s []) by (by rewrite u_hget, <- Hh). eexists s, []. split; [reflexivity |]. by rewrite app_nil_r.
  - destruct (init_opens s) as (s' & E & El' & Hst' & Hr & Hh'); [done | left; done |]. rewrite (ubind_def _ _ _ _ _ _ E).
    eexists s', []. split; [reflexivity |]. eapply inv_moved; [done | done | by rewrite Hh' | done | by rewrite El', El].
  - destruct (init_opens s) as (s' & E & El' & Hst' & Hr & Hh'); [done | right; by exists ec |]. rewrite (ubind_def _ _ _ _ _ _ E).
    eexists s', []. split; [reflexivity |]. eapply inv_moved; [done | done | by rewrite Hh' | done | by rewrite El', El].
Qed.

Lemma stored_calls e f ty h p rq l :
  listener_calls [DlCallback NABTO_EC_OK (Some f) (Some e); DlResolve f NABTO_EC_OK] (mk_pw l ty h p rq) =
    Def (tt, mk_pw l ty h p rq,
         match p with Some pointer => [PwStore pointer (Some e)] | None => [] end ++ [PwCallback NABTO_EC_OK (Some e); PwResolve f NABTO_EC_OK]).
Proof. by destruct p. Qed.

Lemma stored_about e f (p : option nat) :
  let t := match p with Some pointer => [PwStore pointer (Some e)] | None => [] end ++ [PwCallback NABTO_EC_OK (Some e); PwResolve f NABTO_EC_OK] in
  about_listener t /\ delivered t = [e] /\ lost t = [].
Proof. by destruct p. Qed.

(** A request of the key exchange. *)
Lemma request_made t s r (req : core_request) : password_inv t s -> r ∉ made t ->
  forall l, dl_events l = dl_events (pw_listener s) ++ [r] -> listener_state (s {{ pw_listener := l }}) (pw_handler s) ->
    password_inv (t ++ [PwMade r]) (s {{ pw_listener := l; pw_requests ::= <[r := mk_pa req false]> }}).
Proof.
  intros [Hst Hm Hu Ha Hf [Hn Hd] Hh] Hr.
  assert (Hnew : r ∉ delivered t /\ r ∉ freed t /\ r ∉ answered t).
  { assert (r ∉ delivered t) by (intros Hin; apply Hr; rewrite Hm; apply elem_of_app; by left).
    split; [done |]. split; [intros Hin; by apply Hf in Hin as [? _] | intros Hin; by apply Hd in Hin]. }
  destruct Hnew as (N1 & N2 & N3).
  assert (Hnod : NoDup (made t ++ [r])).
  { apply NoDup_app. split; [done |]. split; [| apply NoDup_singleton]. by intros x Hx ->%list_elem_of_singleton. }
  assert (Hall : forall x, is_Some (<[r := mk_pa req false]> (pw_requests s) !! x) <-> x ∈ made t ++ [r] /\ x ∉ freed t).
  { intros x. rewrite lookup_insert_is_Some, Ha, elem_of_app, list_elem_of_singleton. destruct (decide (x = r)) as [-> |]; naive_solver. }
  assert (Hhand : forall x q, <[r := mk_pa req false]> (pw_requests s) !! x = Some q -> (pa_handled q = true <-> x ∈ answered t)).
  { intros x q [[<- <-] | [_ Hx]]%lookup_insert_Some; [done | by apply Hh]. }
  intros l Hl Hst'. split; cbn; unfold apply_update, constant; cbn.
  - destruct s. cbn in *. destruct Hst' as [es fut H1 H2 H3 | H1 | ec H1 H2]; [by eapply state_open | by apply state_fresh | by eapply state_ended].
  - rewrite made_app, pw_delivered_app, lost_app, Hm, Hl. cbn. rewrite !app_nil_r. solve_Permutation.
  - by rewrite made_app.
  - intros x. rewrite made_app, pw_freed_app. cbn. rewrite app_nil_r. apply Hall.
  - intros x. rewrite pw_freed_app, pw_delivered_app, answered_app. cbn. rewrite !app_nil_r. apply Hf.
  - rewrite answered_app, pw_delivered_app. cbn. by rewrite !app_nil_r.
  - intros x q. rewrite answered_app. cbn. rewrite app_nil_r. apply Hhand.
Qed.

Lemma request_step_good t s r req :
  password_inv t s -> password_enabled t (PwRequest r req) -> password_good t s (PwRequest r req).
Proof.
  intros Hi Hr. unfold password_good. cbn [password_step]. rewrite u_hget. pose proof (pwi_state _ _ Hi) as Hst.
  destruct (pw_handler s) eqn:Hh.
  2:{ eexists s, []. split; [reflexivity |]. by rewrite app_nil_r. }
  destruct r as [r |].
  2:{ eexists s, []. split; [reflexivity |]. by rewrite app_nil_r. }
  inversion Hst as [es fut El Hw Hty | |]. cbn in Hr.
  assert (Hi1 : password_inv (t ++ [PwMade r]) (s {{ pw_listener := working (es ++ [r]) None; pw_requests ::= <[r := mk_pa req false]> }})).
  { apply request_made; [done | done | by rewrite El |]. rewrite Hh. eapply (state_open _ (es ++ [r]) None); destruct s; [done | by left | done]. }
  unfold password_request_handler. destruct s as [l ty h p rq]. cbn in El, Hty, Hh. subst l ty h.
  destruct fut as [f |].
  - destruct Hw as [? | ->]; [done |].
    assert (E : on_listener (fun answer => nabto_device_listener_add_event answer r)
        (mk_pw (working [] (Some f)) NABTO_DEVICE_LISTENER_TYPE_PASSWORD_REQUESTS true p (<[r := mk_pa req false]> rq)) =
      Def (NABTO_EC_OK, mk_pw (working [] None) NABTO_DEVICE_LISTENER_TYPE_PASSWORD_REQUESTS true p (<[r := mk_pa req false]> rq),
           match p with Some pointer => [PwStore pointer (Some r)] | None => [] end ++ [PwCallback NABTO_EC_OK (Some r); PwResolve f NABTO_EC_OK])).
    { eapply pw_listener_run; [by apply add_event_run | apply stored_calls]. }
    eexists (mk_pw (working [] None) NABTO_DEVICE_LISTENER_TYPE_PASSWORD_REQUESTS true p (<[r := mk_pa req false]> rq)), _.
    split; [unfold ubind at 1 2; cbn [ulift hbind emit hmod pw_requests]; unfold apply_update; cbn [pw_listener pw_type pw_handler pw_pointer pw_requests]; rewrite E; cbn; rewrite app_nil_r; reflexivity |].
    change (PwMade r :: ?l) with ([PwMade r] ++ l). rewrite app_assoc. destruct (stored_about r f p) as (Ha & Hd & Hl).
    eapply inv_moved; [exact Hi1 | exact Ha | | done | by rewrite Hd, Hl].
    eapply (state_open _ [] None); [done | by left | done].
  - eexists _, _. split; [reflexivity |]. exact Hi1.
Qed.

Lemma new_step_good t s fut pointer : password_inv t s -> password_good t s (PwNew fut pointer).
Proof.
  intros Hi. unfold password_good. cbn [password_step]. unfold nabto_device_listener_new_password_authentication_request.
  rewrite (ubind_def _ _ _ tt s [PwReset fut]) by done. rewrite u_hget.
  destruct (decide (pw_type s = NABTO_DEVICE_LISTENER_TYPE_PASSWORD_REQUESTS)) as [Hty | Hty].
  2:{ rewrite bool_decide_false by done. cbn [negb]. eexists s, _. split; [reflexivity |].
      eapply inv_moved; [done | done | apply Hi | done | done]. }
  rewrite bool_decide_true by done. cbn [negb]. pose proof (pwi_state _ _ Hi) as Hst.
  inversion Hst as [es fut' El Hw Hty' Hh | El Hh | ec El Hec Hh].
  3:{ rewrite El. cbn. rewrite Hec. eexists s, _. split; [reflexivity |]. eapply inv_moved; [done | done | apply Hi | done | done]. }
  2:{ unfold on_listener. destruct s as [l ty h p rq]. cbn in *. subst l h. eexists _, _. split; [reflexivity |].
      eapply inv_moved; [done | done | by apply state_fresh | done | done]. }
  destruct s as [l ty h p rq]. cbn in El, Hty, Hh. subst l ty h. destruct fut' as [f |].
  { eexists _, _. split; [reflexivity |]. eapply inv_moved; [done | done | | done | done]. by eapply (state_open _ es (Some f)). }
  destruct es as [| e es].
  { eexists _, _. split; [reflexivity |]. eapply inv_moved; [done | done | | done | done].
    eapply (state_open _ [] (Some fut)); [done | by right | done]. }
  eexists _, _. split; [reflexivity |]. eapply inv_moved; [done | done | | done | done].
  eapply (state_open _ es None); [done | by left | done].
Qed.

(** What the application does with a request it owns. *)
Lemma owned_request t s r : password_inv t s -> owned t r -> exists q, pw_requests s !! r = Some q.
Proof.
  intros Hi [Hd Hf]. apply (pwi_allocated _ _ Hi). split; [| done]. rewrite (pwi_made _ _ Hi). apply elem_of_app. by left.
Qed.

(** A request is answered, freed, or both. *)
Lemma inv_owned_request t s r q q' (ready : list password_api_call) (free : bool) :
  password_inv t s -> owned t r -> pw_requests s !! r = Some q ->
  (forall c, c ∈ ready -> exists req password, c = PwReady r req password) ->
  length ready = (if pa_handled q then 0 else if pa_handled q' || free then 1 else 0)%nat ->
  (pa_handled q = true -> pa_handled q' = true) ->
  password_inv (t ++ ready ++ (if free then [PwFree r] else []))
    (s {{ pw_requests ::= if free then delete r else <[r := q']> }}).
Proof.
  intros [Hst Hm Hu Ha Hf [Hn Hd] Hh] [Hdel Hnf] Hq Hready Hlen Hmono.
  assert (Hans : answered ready = (if pa_handled q then [] else if pa_handled q' || free then [r] else []) /\
    made ready = [] /\ freed ready = [] /\ delivered ready = [] /\ lost ready = []).
  { destruct ready as [| c [| c' ready]]; cbn in Hlen.
    - destruct (pa_handled q), (pa_handled q'), free; done.
    - destruct (Hready c ltac:(by left)) as (req & password & ->). destruct (pa_handled q), (pa_handled q'), free; done.
    - destruct (pa_handled q), (pa_handled q'), free; done. }
  destruct Hans as (A1 & A2 & A3 & A4 & A5). pose proof (Hh r q Hq) as Hr0.
  split; rewrite ?made_app, ?pw_freed_app, ?answered_app, ?pw_delivered_app, ?lost_app, ?A1, ?A2, ?A3, ?A4, ?A5.
  - destruct s. cbn in *. destruct Hst as [es f H1 H2 H3 | H1 | ec H1 H2]; [by eapply state_open | by apply state_fresh | by eapply state_ended].
  - destruct free; cbn; by rewrite !app_nil_r.
  - destruct free; cbn; by rewrite !app_nil_r.
  - intros x. destruct s as [l ty h p rq]. cbn in *. unfold apply_update. cbn. destruct free; cbn; rewrite !app_nil_r.
    + rewrite lookup_delete_is_Some, Ha, elem_of_app, list_elem_of_singleton. naive_solver.
    + rewrite lookup_insert_is_Some, Ha. destruct (decide (r = x)) as [<- |]; [| naive_solver].
      assert (r ∈ made t) by (rewrite Hm; apply elem_of_app; by left). naive_solver.
  - intros x. destruct free; cbn; rewrite ?app_nil_r; [| intros Hx; destruct (Hf x Hx); split; [done | apply elem_of_app; by left]].
    rewrite elem_of_app, list_elem_of_singleton. intros [Hx | ->].
    + destruct (Hf x Hx). split; [done | apply elem_of_app; by left].
    + split; [done |]. destruct (pa_handled q) eqn:E; [apply elem_of_app; left; by apply Hr0 |].
      rewrite orb_true_r. apply elem_of_app. right. by left.
  - assert (Hrest : answered (if free then [PwFree r] else []) = [] :> list nat /\ delivered (if free then [PwFree r] else []) = [] :> list nat)
      by (by destruct free).
    destruct Hrest as [-> ->]. rewrite !app_nil_r. destruct (pa_handled q) eqn:E; [by rewrite app_nil_r |].
    destruct (pa_handled q' || free); [| by rewrite app_nil_r]. assert (Hr : r ∉ answered t) by (intros Hr%Hr0; done). split.
    + apply NoDup_app. split; [done |]. split; [| apply NoDup_singleton]. by intros x Hx ->%list_elem_of_singleton.
    + intros x [Hx | ->%list_elem_of_singleton]%elem_of_app; [by apply Hd | done].
  - intros x y. assert (Hrest : answered (if free then [PwFree r] else []) = [] :> list nat) by (by destruct free). rewrite Hrest, app_nil_r.
    destruct s as [l ty h p rq]. cbn in *. unfold apply_update. cbn.
    assert (Hother : x <> r -> rq !! x = Some y ->
      (pa_handled y = true <-> x ∈ answered t ++ (if pa_handled q then [] else if pa_handled q' || free then [r] else []))).
    { intros Hx Hy. rewrite (Hh x y Hy), elem_of_app. split; [by left |]. intros [? | Hin]; [done |].
      destruct (pa_handled q); [by apply not_elem_of_nil in Hin |].
      destruct (pa_handled q' || free); [by apply list_elem_of_singleton in Hin | by apply not_elem_of_nil in Hin]. }
    destruct free.
    + intros [Hx Hy]%lookup_delete_Some. by apply Hother.
    + intros [[<- <-] | [Hx Hy]]%lookup_insert_Some; [| by apply Hother]. rewrite orb_false_r, elem_of_app. destruct (pa_handled q) eqn:E.
      { split; [intros _; left; by apply Hr0 | intros _; by apply Hmono]. }
      destruct (pa_handled q') eqn:E'; [split; [intros _; right; by left | done] |].
      split; [done |]. intros [Hin%Hr0 | Hin%not_elem_of_nil]; done.
Qed.

(** A function of a request, run on a request that the application owns. *)
Lemma owned_request_run {A} (m : pa_handler A) t s r q a q' calls :
  password_inv t s -> owned t r -> pw_requests s !! r = Some q -> m q = (a, q', calls) ->
  (pa_handled q = true -> pa_handled q' = true) ->
  (exists ready free, calls = ready ++ (if (free : bool) then [PaFree] else []) /\
     (ready = [] \/ exists req password, ready = [PaReady req password]) /\
     length ready = (if pa_handled q then 0 else if pa_handled q' || free then 1 else 0)%nat) ->
  exists s' t', on_request r m s = Def (a, s', t') /\ password_inv (t ++ t') s'.
Proof.
  intros Hi Ho Hq Hm Hmono (ready & free & -> & Hready & Hlen). unfold on_request. rewrite Hq, Hm.
  eexists _, _. split; [reflexivity |].
  assert (H : forall l, (l = [] \/ exists req password, l = [PaReady (P := P) req password]) ->
    existsb (fun c => match c with PaFree => true | _ => false end) (l ++ (if free then [PaFree] else [])) = free)
    by (by intros l [-> | (req & password & ->)]; destruct free).
  rewrite (H ready Hready), omap_app.
  replace (omap _ (if free then [PaFree] else [])) with (if free then [PwFree r] else []) by (by destruct free).
  apply (inv_owned_request t s r q q'); [done | done | done | | | done].
  - destruct Hready as [-> | (req & password & ->)]; intros c; cbn; [by intros ?%not_elem_of_nil |].
    intros ->%list_elem_of_singleton. by eexists _, _.
  - destruct Hready as [-> | (req & password & ->)]; cbn in *; exact Hlen.
Qed.

Lemma owned_step_good t s r {A} (m : pa_handler A) (i : password_input) :
  password_inv t s -> owned t r -> password_step i = (let+ _ := on_request r m in ulift hskip) ->
  (forall q, exists a q' ready free, m q = (a, q', ready ++ (if (free : bool) then [PaFree] else [])) /\
     (pa_handled q = true -> pa_handled q' = true) /\
     (ready = [] \/ exists req password, ready = [PaReady req password]) /\
     length ready = (if pa_handled q then 0 else if pa_handled q' || free then 1 else 0)%nat) ->
  password_good t s i.
Proof.
  intros Hi Ho Es Hm. destruct (owned_request t s r Hi Ho) as [q Hq]. destruct (Hm q) as (a & q' & ready & free & E & Hmono & Hr & Hlen).
  destruct (owned_request_run m t s r q a q' _ Hi Ho Hq E Hmono) as (s' & t' & E' & Hi'); [by exists ready, free |].
  unfold password_good. rewrite Es, (ubind_def _ _ _ _ _ _ E'). eexists _, _. split; [reflexivity |]. cbn. by rewrite app_nil_r.
Qed.

Lemma pw_step_good t s i : password_inv t s -> password_enabled t i -> password_good t s i.
Proof.
  intros Hi He. destruct i as [| r req | fut pointer | | r | r password | r].
  - by apply init_step_good.
  - by apply request_step_good.
  - by apply new_step_good.
  - by apply pw_stop_step_good.
  - apply (owned_step_good t s r nabto_device_password_authentication_request_get_username); [done | done | done |].
    intros [req h]. eexists _, _, [], false. split; [reflexivity |]. split; [done |]. split; [by left |]. by destruct h.
  - apply (owned_step_good t s r (nabto_device_password_authentication_request_set_password password)); [done | done | done |].
    intros [req []]; [eexists _, _, [], false | eexists _, _, [_], false]; (split; [reflexivity |]; split; [done |]; split; [| done]);
      [by left | right; by eexists _, _].
  - destruct (owned_request t s r Hi He) as [q Hq]. unfold password_good. cbn [password_step].
    destruct q as [req []]; (eapply (owned_request_run nabto_device_password_authentication_request_free);
      [done | done | exact Hq | reflexivity | done |]);
      [exists [], true | exists [PaReady req None], true]; (split; [done |]; split; [| done]); [by left | right; by eexists _, _].
Qed.

Lemma password_run_inv t s : password_run t s -> password_inv t s.
Proof.
  induction 1 as [| t s i s' t' _ IH He Hs].
  - split; cbn.
    + by apply state_fresh.
    + done.
    + apply NoDup_nil_2.
    + intros r. split; [by intros [q Hq] | by intros [?%not_elem_of_nil _]].
    + by intros r ?%not_elem_of_nil.
    + split; [apply NoDup_nil_2 | by intros r ?%not_elem_of_nil].
    + by intros r q Hq.
  - destruct (pw_step_good t s i IH He) as (s1 & t1 & Es & Hi). rewrite Es in Hs. by injection Hs as <- <-.
Qed.

End Passwords.

(** ** The listener stops while requests wait *)

Section Script.
Context {P : Type}.

#[local] Instance password_enabled_dec (t : list (password_api_call (P := P))) (i : password_input) : Decision (password_enabled t i).
Proof. destruct i as [| [r |] req | | | r | r password | r]; cbn; try unfold owned; apply _. Defined.

(** The inputs, as long as the application may give them and nothing is undefined. *)
Fixpoint run_passwords (xs : list password_input) (t : list (password_api_call (P := P))) (s : password_api) :
    option (list (password_api_call (P := P)) * password_api (P := P)) :=
  match xs with
  | [] => Some (t, s)
  | i :: xs =>
      if decide (password_enabled t i) then
        match password_step i s with Def (_, s', t') => run_passwords xs (t ++ t') s' | UB => None end
      else None
  end.

Lemma run_passwords_reached xs : forall t s t' s', password_run t s -> run_passwords xs t s = Some (t', s') -> password_run t' s'.
Proof.
  induction xs as [| i xs IH]; intros t s t' s' Hr; cbn; [by intros [= <- <-] |].
  destruct (decide _) as [He |]; [| done]. destruct (password_step i s) as [[[[] s1] t1] |] eqn:E; [| done].
  apply IH. by eapply password_next.
Qed.
End Script.

Definition example_request (name : list Z) : nc_spake2_password_request (P := Z) := mk_pr name 0 0%nat.

(** Request 0 goes to the application, which answers it twice and frees it; requests 1 and 2 wait when the listener is
    stopped. *)
Definition stopped_script : list (password_input (P := Z)) :=
  [PwInit; PwNew 7%nat 9%nat; PwRequest (Some 0%nat) (example_request [65; 0]); PwUsername 0; PwPassword 0 (Some [66]);
   PwPassword 0 (Some [67]); PwUserFree 0; PwRequest (Some 1%nat) (example_request [68; 0]);
   PwRequest (Some 2%nat) (example_request [69; 0]); PwStop].

Definition no_passwords : password_api (P := Z) :=
  mk_pw Futures.nabto_device_listener_new NABTO_DEVICE_LISTENER_TYPE_NONE false None ∅.

Definition stopped_api : list (password_api_call (P := Z)) * password_api (P := Z) :=
  match run_passwords stopped_script [] no_passwords with Some x => x | None => ([], no_passwords) end.

Lemma stopped_reached : password_run stopped_api.1 stopped_api.2.
Proof.
  apply (run_passwords_reached stopped_script [] no_passwords); [constructor |]. vm_compute. reflexivity.
Qed.

(** The first answer counts; the waiting requests are given back to nobody. *)
Example stopped_requests_lost :
  answered stopped_api.1 = [0%nat] /\ freed stopped_api.1 = [0%nat] /\ lost stopped_api.1 = [1%nat; 2%nat] /\
  omap (fun c => match c with PwReady r req password => Some (r, pr_username req, password) | _ => None end) stopped_api.1 =
    [(0%nat, [65; 0], Some [66])] /\
  size (pw_requests stopped_api.2) = 2%nat.
Proof. split_and!; vm_compute; reflexivity. Qed.

