(* ===== verification/Access.v ===== *)
(** * From a stream to a tunnel: access from end to end
      (nm_tcp_tunnel.c, nabto_device_authorization.c, nm_iam_auth_handler.c, nm_iam.c)

    A client opens a stream to a tunnel service; the service asks for access; the request waits in the
    listener of access management, which decides it by its policies and gives a verdict; an event
    brings the verdict to the tunnels, which start a connection or release the stream. The four
    parts are the models of Tunnel.v, Authorization.v and Iam.v; here they run together: each call of
    the tunnels to the authorization module makes a request, and each verdict of a request is the input of
    the tunnels. Between the steps of one request other requests, changes of the services and
    changes of the configuration may come. *)

From stdpp Require Import gmap.
From S2P Require Import Prelude Platform Collections HexUtil Cbor Policies Iam Authorization Tunnel.

#[local] Open Scope Z_scope.
#[local] Open Scope list_scope.
#[local] Open Scope handler_scope.

Section Access.
Context `{Strtod} {T : Type} `{StringSet T} {M : Type} `{StringMap M}.
Abbreviation iam_t := (nm_iam (T := T) (M := M)).

(** The fingerprint of the client of a connection; references of connections are not used twice. *)
Variable client_fingerprint : Z -> option string.

(** ** The handler of authorization requests (nm_iam_auth_handler.c) *)

(** The loop over the attributes; [n] are left. *)
Fixpoint read_attributes (n i : nat) : az_uhandler (list (string * string)) :=
  match n with
  | O => ulift (hret [])
  | S n =>
      let+ key := nabto_device_authorization_request_get_attribute_name i in
      let+ value := nabto_device_authorization_request_get_attribute_value i in
      let+ rest := read_attributes n (S i) in
      ulift (hret ((key, value) :: rest))
  end.

(** [connected]: whether the connection still exists. The answer is the verdict that was given. *)
Definition handle_request (iam : iam_t) (connected : bool) : az_uhandler bool :=
  let+ action := nabto_device_authorization_request_get_action in
  let+ attributesSize := nabto_device_authorization_request_get_attributes_size in
  let+ attributes := read_attributes attributesSize 0 in
  let+ ref := nabto_device_authorization_request_get_connection_ref in
  let+ verdict := uof (auth_handle_request iam (if connected then client_fingerprint ref else None) action attributes) in
  let+ _ := nabto_device_authorization_request_verdict verdict in
  ulift (hret verdict).

(** ** The system *)

(** A request of the tunnels, with what happened to it: the inputs it got, and the calls it made. *)
Record tunnel_request : Type := mk_tq {
  tq_ref : Z;
  tq_stream : stream_request;
  tq_auth : auth_state;
  tq_inputs : list auth_input;
  tq_calls : list auth_call
}.

Record access_system : Type := mk_sy {
  sy_tunnels : nm_tcp_tunnels;
  sy_iam : iam_t;
  sy_requests : list tunnel_request
}.

Inductive access_input : Type :=
| AiServices (i : tunnels_input)
| AiConfig (iam : iam_t)
| AiStream (service : nm_tcp_tunnel_service) (prepared : bool) (ref : Z) (stream : nat) (listener : option np_error_code)
| AiDeliver (n : nat)
| AiDrop (n : nat)
| AiAnswer (n : nat) (connected : bool)
| AiFree (n : nat)
| AiEvent (n : nat) (allocated : bool) (ec : np_error_code).

Definition sy_uhandler (A : Type) : Type := uhandler access_system tunnels_call A.

(** A step of the tunnels. *)
Definition on_tunnels (i : tunnels_input) : sy_uhandler unit := fun s =>
  let '(_, tunnels, t) := tunnels_handler i (sy_tunnels s) in
  Def (tt, s {{ sy_tunnels := tunnels }}, t).

(** A step [m] of request [n]; it is an input of the life of the request. The answer is the calls it makes. *)
Definition on_request {A} (n : nat) (i : A -> auth_input) (m : az_uhandler A) : sy_uhandler (list auth_call) := fun s =>
  match sy_requests s !! n with
  | None => UB
  | Some q =>
      match m (tq_auth q).1 with
      | UB => UB
      | Def (a, r, t) =>
          let q' := mk_tq (tq_ref q) (tq_stream q) (r, auth_next (tq_auth q).2 (i a) t) (tq_inputs q ++ [i a]) (tq_calls q ++ t) in
          Def (t, s {{ sy_requests ::= <[n := q']> }}, [])
      end
  end.

Definition run_request (n : nat) (i : auth_input) : sy_uhandler (list auth_call) :=
  on_request n (fun _ => i) (auth_handler i).

(** The request is made, with its attributes, and access is asked for. The callback of the verdict is that
    of this request. *)
Definition ask_access (listener : option np_error_code) (ref : Z) (id type : string) (weakPtr : Z) (stream : nat) :
    sy_uhandler unit :=
  let+ s := ulift hget in
  let n := length (sy_requests s) in
  let+ r := uof (create_request true NABTO_EC_OK ref "TcpTunnel:Connect") in
  let q := mk_tq ref (mk_sr stream weakPtr id type) (r, mk_env PfBuilding ApNone false) [] [] in
  let+ _ := ulift (hmod (fun s => s {{ sy_requests ::= fun qs => qs ++ [q] }})) in
  let+ _ := run_request n (AuAttribute "TcpTunnel:ServiceId" id (true, true, true)) in
  let+ _ := run_request n (AuAttribute "TcpTunnel:ServiceType" type (true, true, true)) in
  let+ _ := run_request n (AuCheck listener n) in
  ulift hskip.

(** The calls of the tunnels to the authorization module. *)
Fixpoint ask_all (listener : option np_error_code) (t : list tunnels_call) : sy_uhandler unit :=
  match t with
  | [] => ulift hskip
  | TtCheckStream ref id type weakPtr stream :: rest =>
      let+ _ := ask_access listener ref id type weakPtr stream in ask_all listener rest
  | _ :: rest => ask_all listener rest
  end.

(** The verdicts of a request go to the tunnels. *)
Fixpoint tell_all (allocated : bool) (ec : np_error_code) (verdicts : list (nat * bool)) : sy_uhandler unit :=
  match verdicts with
  | [] => ulift hskip
  | (n, allow) :: rest =>
      let+ s := ulift hget in
      let+ q := uof (match sy_requests s !! n with Some q => Def q | None => UB end) in
      let+ _ := on_tunnels (TnVerdict (tq_stream q) allow allocated ec) in
      tell_all allocated ec rest
  end.

Definition access_step (i : access_input) : sy_uhandler unit :=
  match i with
  | AiServices i => on_tunnels i
  | AiConfig iam => ulift (hmod (fun s => s {{ sy_iam := iam }}))
  | AiStream service prepared ref stream listener => fun s =>
      (let+ _ := on_tunnels (TnStream service NABTO_EC_OK prepared ref stream) in
       ask_all listener (trace (tunnels_handler (TnStream service NABTO_EC_OK prepared ref stream)) (sy_tunnels s))) s
  | AiDeliver n => let+ _ := run_request n AuDelivered in ulift hskip
  | AiDrop n => let+ _ := run_request n AuDropped in ulift hskip
  | AiAnswer n connected =>
      let+ s := ulift hget in
      let+ _ := on_request n AuUserVerdict (handle_request (sy_iam s) connected) in ulift hskip
  | AiFree n => let+ _ := run_request n AuUserFree in ulift hskip
  | AiEvent n allocated ec => let+ t := run_request n AuVerdictEvent in tell_all allocated ec (verdicts t)
  end.

(** ** The steps that can come *)

(** The phase of a request allows the input. *)
Definition request_enabled (s : access_system) (n : nat) (i : auth_input) : Prop :=
  exists q, sy_requests s !! n = Some q /\ allowed (tq_auth q).2 i = true.

(** Services are added and removed, streams come to services that exist; a configuration is closed. *)
Definition access_enabled (s : access_system) (i : access_input) : Prop :=
  match i with
  | AiServices (TnAdd _ _ _ _ _ _) | AiServices (TnRemove _) => True
  | AiServices _ => False
  | AiConfig iam => iam_closed iam
  | AiStream service _ _ _ _ => service ∈ tt_services (sy_tunnels s)
  | AiDeliver n => request_enabled s n AuDelivered
  | AiDrop n => request_enabled s n AuDropped
  | AiAnswer n _ => request_enabled s n (AuUserVerdict true)
  | AiFree n => request_enabled s n AuUserFree
  | AiEvent n _ _ => request_enabled s n AuVerdictEvent
  end.

(** The states that were, each with the input it got, and the calls of the tunnels. *)
Inductive access_run (iam : iam_t) : list (access_system * access_input) -> list tunnels_call -> access_system -> Prop :=
| access_start : access_run iam [] [] (mk_sy nm_tcp_tunnels_init iam [])
| access_next past t s i s' t' :
    access_run iam past t s -> access_enabled s i -> access_step i s = Def (tt, s', t') ->
    access_run iam (past ++ [(s, i)]) (t ++ t') s'.

(** What the policies say of a tunnel to a service, for the client of a connection. *)
Definition may_connect (iam : iam_t) (ref : Z) (id type : string) : Prop :=
  exists fp, client_fingerprint ref = Some fp /\
    (forall r, r ∈ client_roles iam fp -> is_Some (nm_iam_find_role iam r)) /\
    allows (fun st => exists r, r ∈ client_roles iam fp /\ role_statement iam r st) "TcpTunnel:Connect"
      (client_attributes iam fp (Some
         (sm_insert (sm_insert sm_empty "TcpTunnel:ServiceType" type) "TcpTunnel:ServiceId" id))).

(** ** Proofs: a request *)

(** What a request says stays. *)
Definition same_request (r r' : option nabto_device_authorization_request) : Prop :=
  forall x', r' = Some x' -> exists x, r = Some x /\ ar_attributes x' = ar_attributes x /\ ar_action x' = ar_action x /\
    ar_connectionReference x' = ar_connectionReference x.

Lemma auth_handler_same i r r' t :
  (forall k v a, i <> AuAttribute k v a) -> auth_handler i r = Def (tt, r', t) -> same_request r r'.
Proof.
  intros Hi E. destruct r as [x |].
  2: { destruct i as [k v a | | | | | | | |]; try discriminate.
       - by destruct (Hi k v a).
       - by injection E as <- <-.
       - by injection E as <- <-. }
  destruct i as [k v a | | listener callback | | | | verdict | | index].
  1: by destruct (Hi k v a).
  all: try (rewrite look_defined in E; injection E as <- <-; intros x' [= <-]; by exists x).
  all: destruct x as [attrs ref act apiDone platformDone v verdictDone cb].
  all: try (destruct listener as [ec |]; [destruct (is_error ec) eqn:Hec |]).
  all: try (destruct apiDone); try (destruct platformDone); try (destruct verdictDone); try (destruct cb as [cb |]).
  all: cbn in E; rewrite ?Hec in E; cbn in E; try discriminate; injection E as <- <-.
  all: intros x' [= <-]; (eexists; split; [reflexivity | by split_and!]).
Qed.

Lemma read_attributes_run (r : nabto_device_authorization_request) l : forall before,
  ar_attributes r = before ++ l -> read_attributes (length l) (length before) (Some r) = Def (l, Some r, []).
Proof.
  induction l as [| [k v] l IH]; intros before E; cbn [length read_attributes]; [done |].
  assert (Hl : get_attribute r (length before) = Some (k, v)) by (unfold get_attribute; rewrite E; by apply list_lookup_middle).
  rewrite (u_quiet _ _ (Some r) k), (u_quiet _ _ (Some r) v).
  - specialize (IH (before ++ [(k, v)])). rewrite length_app, Nat.add_1_r in IH.
    rewrite (u_quiet _ _ (Some r) l); [done | apply IH]. by rewrite E, <- app_assoc.
  - unfold nabto_device_authorization_request_get_attribute_value. rewrite az_get_seq. by rewrite Hl.
  - unfold nabto_device_authorization_request_get_attribute_name. rewrite az_get_seq. by rewrite Hl.
Qed.

(** The handler gives the verdict of access management. *)
Lemma handle_request_run (iam : iam_t) (connected : bool) (r : nabto_device_authorization_request) verdict :
  auth_handle_request iam (if connected then client_fingerprint (ar_connectionReference r) else None) (ar_action r)
    (ar_attributes r) = Def verdict ->
  handle_request iam connected (Some r) =
    match auth_handler (AuUserVerdict verdict) (Some r) with
    | Def (_, r', t) => Def (verdict, r', t) | UB => UB end.
Proof.
  intros Ev. unfold handle_request.
  rewrite (u_quiet _ _ (Some r) (ar_action r)) by done. rewrite (u_quiet _ _ (Some r) (length (ar_attributes r))) by done.
  rewrite (u_quiet _ _ (Some r) (ar_attributes r)) by (by apply (read_attributes_run r _ [])).
  rewrite (u_quiet _ _ (Some r) (ar_connectionReference r)) by done. rewrite Ev, u_def. cbn [auth_handler].
  unfold ubind, ulift, hret. destruct (nabto_device_authorization_request_verdict verdict (Some r)) as [[[??]?] |]; [| done].
  by rewrite app_nil_r.
Qed.

Lemma may_connect_iff (iam : iam_t) (connected : bool) ref id type :
  iam_closed iam ->
  (exists b, auth_handle_request iam (if connected then client_fingerprint ref else None) "TcpTunnel:Connect"
     [("TcpTunnel:ServiceType", type); ("TcpTunnel:ServiceId", id)]%string = Def b) /\
  (auth_handle_request iam (if connected then client_fingerprint ref else None) "TcpTunnel:Connect"
     [("TcpTunnel:ServiceType", type); ("TcpTunnel:ServiceId", id)]%string = Def true <->
   connected = true /\ may_connect iam ref id type).
Proof.
  intros Hc. unfold auth_handle_request. cbn [fold_left fst snd].
  edestruct (check_access_spec iam (if connected then client_fingerprint ref else None) "TcpTunnel:Connect") as [Hd Hi];
    [exact Hc |]. split; [exact Hd |]. rewrite Hi. unfold may_connect. destruct connected; [naive_solver |].
  split; [by intros (fp & ? & _) | by intros [? _]].
Qed.

(** *** The life of a request in the system *)

Definition request_attributes (sr : stream_request) : list (string * string) :=
  [("TcpTunnel:ServiceType", sr_type sr); ("TcpTunnel:ServiceId", sr_id sr)]%string.

Abbreviation past_t := (list (access_system * access_input)).

(** The verdict was given by the policies of a configuration that there was. *)
Definition permitted (past : past_t) (n : nat) (q : tunnel_request) : Prop :=
  exists s, (s, AiAnswer n true) ∈ past /\ may_connect (sy_iam s) (tq_ref q) (sr_id (tq_stream q)) (sr_type (tq_stream q)).

Definition event_of (n : nat) (x : access_system * access_input) : bool :=
  match x.2 with AiEvent m _ _ => (m =? n)%nat | _ => false end.

Definition events (n : nat) (past : past_t) : nat := length (List.filter (event_of n) past).

Lemma events_snoc n past x : events n (past ++ [x]) = (events n past + one (event_of n x))%nat.
Proof. unfold events. rewrite List.filter_app, length_app. cbn. by destruct (event_of n x). Qed.

Record request_inv (past : past_t) (n : nat) (q : tunnel_request) : Prop := {
  ri_life : auth_reachable (tq_ref q) "TcpTunnel:Connect" (tq_inputs q) (tq_calls q) (tq_auth q);
  ri_says : forall r, (tq_auth q).1 = Some r -> ar_attributes r = request_attributes (tq_stream q) /\
    ar_action r = "TcpTunnel:Connect"%string /\ ar_connectionReference r = tq_ref q;
  ri_asked : asked (tq_inputs q) = Some n;
  ri_permitted : AuUserVerdict true ∈ tq_inputs q -> permitted past n q;
  ri_events : events n past = one (ran (tq_inputs q))
}.

(** The invariant of a request that a step does not touch. *)
Lemma request_inv_past past n q x : event_of n x = false -> request_inv past n q -> request_inv (past ++ [x]) n q.
Proof.
  intros Hx [R1 R2 R3 R4 R5]. split; [done.. | |].
  - intros Hin. destruct (R4 Hin) as (s & Hs & Hm). exists s. split; [by apply elem_of_app; left | done].
  - by rewrite events_snoc, Hx, Nat.add_0_r.
Qed.

Lemma decision_given ins : decision ins = Some true -> AuUserVerdict true ∈ ins.
Proof.
  unfold decision. induction ins as [| i ins IH]; [done |]. cbn. destruct (decides i) as [v |] eqn:E.
  - intros [= ->]. destruct i; cbn in E; try discriminate; [by destruct (accepts listener) | injection E as ->; left].
  - intros Hd. right. by apply IH.
Qed.

(** A step of a life that is allowed. *)
Lemma life_step ref action ins t r e i :
  auth_reachable ref action ins t (r, e) -> allowed e i = true ->
  exists r' t', auth_handler i r = Def (tt, r', t') /\
    auth_reachable ref action (ins ++ [i]) (t ++ t') (r', auth_next e i t') /\
    verdicts t' = (if is_event i then match asked ins, decision ins with Some cb, Some v => [(cb, v)] | _, _ => [] end else []) /\
    (is_event i = true -> ran ins = false /\ is_Some (decision ins)).
Proof.
  intros Hl Ha. destruct (auth_reachable_fits _ _ _ _ _ _ Hl) as (Hp & Hf & _ & _).
  destruct (auth_step_fits _ _ _ _ _ _ Hp Hf Ha) as (r' & t' & E & _ & _ & Hv & _ & Hr).
  exists r', t'. split_and!; [done | by eapply auth_does | done |].
  intros He. split; [by apply Hr |]. destruct i; try done. cbn in Ha. unfold phases_fit in Hp.
  apply andb_prop in Hp as [Hp _]. rewrite Ha in Hp. destruct (decision ins) as [v |]; [by eexists | done].
Qed.

(** A step of a request in the system. *)
Lemma request_step past n q i x :
  request_inv past n q -> allowed (tq_auth q).2 i = true -> (forall k v a, i <> AuAttribute k v a) ->
  event_of n x = is_event i -> (i = AuUserVerdict true -> permitted (past ++ [x]) n q) ->
  exists r' t', auth_handler i (tq_auth q).1 = Def (tt, r', t') /\
    request_inv (past ++ [x]) n
      (mk_tq (tq_ref q) (tq_stream q) (r', auth_next (tq_auth q).2 i t') (tq_inputs q ++ [i]) (tq_calls q ++ t')) /\
    exists v, verdicts t' = (if is_event i then [(n, v)] else []) /\ (v = true -> is_event i = true -> permitted past n q) /\
      (is_event i = true -> ran (tq_inputs q) = false).
Proof.
  intros [R1 R2 R3 R4 R5] Ha Hi Hx Hperm. destruct q as [ref sr [r e] ins calls].
  cbn [tq_ref tq_stream tq_auth tq_inputs tq_calls fst snd] in *.
  destruct (life_step _ _ _ _ _ _ _ R1 Ha) as (r' & t' & E & Hl & Hv & Hev). exists r', t'. split; [done |]. split.
  - split; cbn [tq_ref tq_stream tq_auth tq_inputs tq_calls fst snd]; [done | | | |].
    + intros x' Er. subst r'. destruct (auth_handler_same _ _ _ _ Hi E _ eq_refl) as (y & -> & -> & -> & ->). by apply R2.
    + by rewrite asked_snoc, R3.
    + intros [Hin | <-%list_elem_of_singleton]%elem_of_app.
      * destruct (R4 Hin) as (s & Hs & Hm). exists s. split; [by apply elem_of_app; left | done].
      * by apply Hperm.
    + rewrite events_snoc, ran_snoc, R5, Hx. destruct (is_event i); [| by rewrite orb_false_r, Nat.add_0_r].
      by destruct (Hev eq_refl) as [-> _].
  - rewrite R3 in Hv. destruct (is_event i).
    + destruct (Hev eq_refl) as [Hr [v Ed]]. rewrite Ed in Hv. exists v. split_and!; [done | | done].
      intros -> _. by apply R4, decision_given.
    + exists false. by split_and!.
Qed.

(** ** Proofs: the system *)

Record sys_inv (past : past_t) (s : access_system) : Prop := {
  si_tunnels : tunnels_inv (sy_tunnels s) (map tq_stream (sy_requests s));
  si_closed : iam_closed (sy_iam s);
  si_requests : forall n q, sy_requests s !! n = Some q -> request_inv past n q;
  si_events : forall n, sy_requests s !! n = None -> events n past = 0%nat
}.

(** A step of one request. *)
Lemma sys_update past s n q q' x :
  sys_inv past s -> sy_requests s !! n = Some q -> tq_stream q' = tq_stream q ->
  (forall m, m <> n -> event_of m x = false) -> request_inv (past ++ [x]) n q' ->
  sys_inv (past ++ [x]) (s {{ sy_requests ::= <[n := q']> }}).
Proof.
  intros [S1 S2 S3 S4] Hq Hs Hx Hq'. destruct s as [tunnels iam qs]. cbn in *. split; cbn.
  - change (map tq_stream (<[n:=q']> qs)) with (tq_stream <$> <[n:=q']> qs). rewrite list_fmap_insert, Hs.
    rewrite list_insert_id; [done |]. by rewrite list_lookup_fmap, Hq.
  - done.
  - intros m q1 Hm. apply list_lookup_insert_Some in Hm as [(<- & -> & _) | [Hne Hm]]; [done |].
    apply request_inv_past; [by apply Hx | by apply S3].
  - intros m Hm. assert (Hne : m <> n).
    { intros ->. rewrite list_lookup_insert_eq in Hm; [done |]. by eapply lookup_lt_Some. }
    rewrite list_lookup_insert_ne in Hm by done. rewrite events_snoc, Hx by done. by rewrite (S4 _ Hm).
Qed.

(** A step that is not one of a request. *)
Lemma sys_other past s x tunnels iam :
  (forall m, event_of m x = false) -> tunnels_inv tunnels (map tq_stream (sy_requests s)) -> iam_closed iam ->
  sys_inv past s -> sys_inv (past ++ [x]) (mk_sy tunnels iam (sy_requests s)).
Proof.
  intros Hx Ht Hc [S1 S2 S3 S4]. split; cbn; [done.. | |].
  - intros n q Hq. apply request_inv_past; auto.
  - intros n Hn. by rewrite events_snoc, Hx, (S4 _ Hn).
Qed.

Lemma on_request_run {A} n (i : A -> auth_input) (m : az_uhandler A) s q a r t :
  sy_requests s !! n = Some q -> m (tq_auth q).1 = Def (a, r, t) ->
  on_request n i m s = Def (t, s {{ sy_requests ::= <[n := mk_tq (tq_ref q) (tq_stream q)
    (r, auth_next (tq_auth q).2 (i a) t) (tq_inputs q ++ [i a]) (tq_calls q ++ t)]> }}, []).
Proof. unfold on_request. by intros -> ->. Qed.

(** *** The steps *)

Definition streams_started (t : list tunnels_call) : list nat :=
  omap (fun c => match c with TtConnectionStart stream _ => Some stream | _ => None end) t.

(** Request [n] goes on by the input [ai]. *)
Definition request_next (s s' : access_system) (n : nat) (ai : auth_input) : Prop :=
  exists q q' t, sy_requests s !! n = Some q /\ sy_requests s' !! n = Some q' /\
    tq_inputs q' = tq_inputs q ++ [ai] /\ (tq_auth q').2 = auth_next (tq_auth q).2 ai t.

(** What a step of the system does. *)
Definition step_outcome (past : past_t) (s s' : access_system) (i : access_input) (t : list tunnels_call) : Prop :=
  match i with
  | AiEvent n allocated ec => exists q v c, sy_requests s !! n = Some q /\ t = [c] /\
      verdict_outcome (sy_tunnels s) (tq_stream q) v c /\ (v = true -> permitted past n q) /\
      ran (tq_inputs q) = false
  | AiDeliver n => request_next s s' n AuDelivered /\ t = []
  | AiAnswer n _ => (exists v, request_next s s' n (AuUserVerdict v)) /\ t = []
  | _ => streams_started t = []
  end.

Definition step_goal (past : past_t) (s : access_system) (i : access_input) : Prop :=
  exists s' t, access_step i s = Def (tt, s', t) /\ sys_inv (past ++ [(s, i)]) s' /\ step_outcome past s s' i t.

Lemma services_ok past s i : sys_inv past s -> access_enabled s (AiServices i) -> step_goal past s (AiServices i).
Proof.
  intros Hs He. unfold step_goal. cbn [access_step]. unfold on_tunnels.
  assert (Ht : tunnels_enabled (sy_tunnels s) (map tq_stream (sy_requests s)) i) by (by destruct i).
  pose proof (tunnels_step_inv _ _ _ (si_tunnels _ _ Hs) Ht) as Hinv.
  assert (Hq : new_requests (trace (tunnels_handler i) (sy_tunnels s)) = [] /\
    streams_started (trace (tunnels_handler i) (sy_tunnels s)) = []).
  { destruct i as [u id type host port l | id | |]; try done; cbn [tunnels_handler]; rewrite trace_seq.
    - unfold nabto_device_add_tcp_tunnel_service. destruct (np_ip_address_read_v4 host u); [| done].
      by destruct l.
    - unfold nm_tcp_tunnel_service_destroy_by_id. rewrite trace_hget.
      by destruct (nm_tcp_tunnels_find_service _ _). }
  destruct Hq as [Hq1 Hq2]. rewrite Hq1, app_nil_r in Hinv.
  unfold exec, trace in *. destruct (tunnels_handler i (sy_tunnels s)) as [[[] tunnels] t]. cbn in Hinv, Hq2.
  exists (mk_sy tunnels (sy_iam s) (sy_requests s)), t. split; [by destruct s |]. split; [| done].
  by apply sys_other; [| | apply (si_closed _ _ Hs) |].
Qed.

Lemma config_ok past s iam : sys_inv past s -> access_enabled s (AiConfig iam) -> step_goal past s (AiConfig iam).
Proof.
  intros Hs He. exists (mk_sy (sy_tunnels s) iam (sy_requests s)), []. split; [by destruct s |]. split; [| done].
  by apply sys_other; [| apply (si_tunnels _ _ Hs) | |].
Qed.

Lemma updated_next s n q r e t ai :
  sy_requests s !! n = Some q -> e = auth_next (tq_auth q).2 ai t ->
  request_next s (s {{ sy_requests ::= <[n := mk_tq (tq_ref q) (tq_stream q) (r, e) (tq_inputs q ++ [ai]) (tq_calls q ++ t)]> }}) n ai.
Proof.
  intros Hq ->. eexists q, _, t. split; [done |]. split; [destruct s; cbn; apply list_lookup_insert_eq; by eapply lookup_lt_Some |].
  done.
Qed.

(** The inputs that only make a request go on. *)
Lemma simple_ok past s n i ai :
  sys_inv past s -> request_enabled s n ai -> (forall k v a, ai <> AuAttribute k v a) -> is_event ai = false ->
  ai <> AuUserVerdict true ->
  (forall s, access_step i s = (let+ _ := run_request n ai in ulift hskip) s) ->
  (forall m, event_of m (s, i) = false) -> (i = AiDeliver n /\ ai = AuDelivered) \/ i = AiDrop n \/ i = AiFree n ->
  step_goal past s i.
Proof.
  intros Hs (q & Hq & Ha) Hi He Hv Hstep Hx Hne.
  destruct (request_step past n q ai (s, i) (si_requests _ _ Hs _ _ Hq) Ha Hi) as (r' & t' & E & Hq' & _);
    [by rewrite He | done |].
  eexists _, []. split.
  - rewrite Hstep. unfold run_request.
    rewrite (ubind_def _ _ _ _ _ _ (on_request_run n (fun _ => ai) _ _ _ _ _ _ Hq E)). done.
  - split; [by eapply sys_update |]. destruct Hne as [[-> ->] | [-> | ->]]; [| done..]. split; [by apply updated_next | done].
Qed.

Lemma answer_ok past s n connected :
  sys_inv past s -> access_enabled s (AiAnswer n connected) -> step_goal past s (AiAnswer n connected).
Proof.
  intros Hs (q & Hq & Ha). pose proof (si_requests _ _ Hs _ _ Hq) as Hr. set (x := (s, AiAnswer n connected)).
  destruct (may_connect_iff (sy_iam s) connected (tq_ref q) (sr_id (tq_stream q)) (sr_type (tq_stream q))
    (si_closed _ _ Hs)) as [[verdict Ev] Hperm].
  destruct (request_step past n q (AuUserVerdict verdict) x Hr) as (r' & t' & E & Hq' & _); [| done.. | |].
  { destruct verdict; [exact Ha | exact Ha]. }
  { intros [= ->]. destruct (proj1 Hperm Ev) as [-> Hm]. exists s. split; [| exact Hm]. apply elem_of_app. right. left. }
  destruct (tq_auth q).1 as [r |] eqn:Er; [| done].
  destruct (ri_says _ _ _ Hr r Er) as (Eat & Eac & Eref).
  assert (Eh : handle_request (sy_iam s) connected (tq_auth q).1 = Def (verdict, r', t')).
  { rewrite Er, (handle_request_run _ _ r verdict); [by rewrite E |]. by rewrite Eat, Eac, Eref. }
  eexists _, []. split.
  - cbn [access_step]. rewrite u_hget.
    rewrite (ubind_def _ _ _ _ _ _ (on_request_run n AuUserVerdict _ _ _ _ _ _ Hq Eh)). done.
  - split; [by eapply sys_update |]. split; [| done]. exists verdict. by apply updated_next.
Qed.

Lemma event_ok past s n allocated ec :
  sys_inv past s -> access_enabled s (AiEvent n allocated ec) -> step_goal past s (AiEvent n allocated ec).
Proof.
  intros Hs (q & Hq & Ha). pose proof (si_requests _ _ Hs _ _ Hq) as Hr. set (x := (s, AiEvent n allocated ec)).
  destruct (request_step past n q AuVerdictEvent x Hr Ha) as (r' & t' & E & Hq' & v & Hv & Hp & Hran); [done | | done |].
  { unfold x, event_of. cbn. by rewrite Nat.eqb_refl. }
  cbn [is_event] in Hv. set (q' := mk_tq _ _ _ _ _) in Hq'. set (s1 := s {{ sy_requests ::= <[n := q']> }}).
  assert (Hin : tq_stream q ∈ map tq_stream (sy_requests s)).
  { apply list_elem_of_fmap. exists q. split; [done |]. by eapply list_elem_of_lookup_2. }
  destruct (verdict_ends _ _ _ v allocated ec (si_tunnels _ _ Hs) Hin) as (c & Ec & Hc).
  exists s1, [c]. split; [| split].
  - cbn [access_step]. unfold run_request.
    rewrite (ubind_def _ _ _ _ _ _ (on_request_run n (fun _ => AuVerdictEvent) _ _ _ _ _ _ Hq E)). rewrite Hv. cbn [tell_all].
    fold q' s1. rewrite u_hget.
    assert (Hl : sy_requests s1 !! n = Some q').
    { destruct s. cbn. apply list_lookup_insert_eq. by eapply lookup_lt_Some. }
    rewrite Hl, u_def. unfold on_tunnels at 1, ubind at 1.
    change (sy_tunnels s1) with (sy_tunnels s). change (tq_stream q') with (tq_stream q). rewrite Ec. cbn. by destruct s.
  - eapply sys_update; [done | done | done | | done]. intros m Hm. unfold x, event_of. cbn. by apply Nat.eqb_neq.
  - exists q, v, c. split_and!; auto.
Qed.

(** A stream arrives: a request is made. *)
Lemma made_request ref id type weakPtr stream listener n :
  exists r t, let sr := mk_sr stream weakPtr id type in
  let r0 := Some (mk_ar [] ref "TcpTunnel:Connect" true false false false None) in
  let i1 := AuAttribute "TcpTunnel:ServiceId" id (true, true, true) in
  let i2 := AuAttribute "TcpTunnel:ServiceType" type (true, true, true) in
  let r2 := Some (mk_ar (request_attributes sr) ref "TcpTunnel:Connect" true false false false None) in
  let e := mk_env PfBuilding ApNone false in
  auth_handler (AuCheck listener n) r2 = Def (tt, r, t) /\
  forall past, events n past = 0%nat ->
    request_inv past n (mk_tq ref sr (r, auth_next e (AuCheck listener n) t) [i1; i2; AuCheck listener n] t).
Proof.
  set (sr := mk_sr stream weakPtr id type). set (i1 := AuAttribute "TcpTunnel:ServiceId" id (true, true, true)).
  set (i2 := AuAttribute "TcpTunnel:ServiceType" type (true, true, true)).
  pose proof (auth_init ref "TcpTunnel:Connect") as L1.
  pose proof (auth_does _ _ _ _ _ _ i1 _ _ L1 eq_refl eq_refl) as L2.
  pose proof (auth_does _ _ _ _ _ _ i2 _ _ L2 eq_refl eq_refl) as L3. cbn [app] in L3.
  destruct (life_step _ _ _ _ _ _ (AuCheck listener n) L3 eq_refl) as (r & t & E & Hl & _).
  exists r, t. cbv zeta. split; [exact E |]. intros past Hn. split; cbn [tq_ref tq_stream tq_auth tq_inputs tq_calls fst].
  - exact Hl.
  - intros r' ->. destruct (auth_handler_same (AuCheck listener n) _ _ _ ltac:(done) E _ eq_refl) as (y & [= <-] & -> & -> & ->).
    by split_and!.
  - done.
  - intros Hin. repeat (apply elem_of_cons in Hin as [Hin | Hin]; [discriminate |]). by apply not_elem_of_nil in Hin.
  - done.
Qed.

Lemma ask_access_run s ref id type weakPtr stream listener :
  exists q t, ask_access listener ref id type weakPtr stream s = Def (tt, s {{ sy_requests ::= fun qs => qs ++ [q] }}, t) /\
    t = [] /\ tq_stream q = mk_sr stream weakPtr id type /\
    forall past, events (length (sy_requests s)) past = 0%nat -> request_inv past (length (sy_requests s)) q.
Proof.
  destruct (made_request ref id type weakPtr stream listener (length (sy_requests s))) as (r & t & E & Hinv). cbv zeta in E, Hinv.
  eexists _, []. split; [| split; [done | split; [| exact Hinv]]]; [| done].
  unfold ask_access. rewrite u_hget. cbn [create_request negb is_error]. rewrite u_def, u_hmod.
  destruct s as [tunnels iam qs]. cbn [sy_requests] in *. set (n := length qs) in *.
  assert (Hl : forall q, (qs ++ [q]) !! n = Some q) by (intros q; by apply list_lookup_middle).
  assert (Hins : forall q q', <[n := q']> (qs ++ [q]) = qs ++ [q']).
  { intros q q'. unfold n. by rewrite insert_app_r_alt, Nat.sub_diag by lia. }
  unfold run_request.
  erewrite ubind_def by (eapply on_request_run; [apply Hl | reflexivity]). cbn. rewrite Hins.
  erewrite ubind_def by (eapply on_request_run; [apply Hl | reflexivity]). cbn. rewrite Hins.
  erewrite ubind_def by (eapply on_request_run; [apply Hl | exact E]). cbn. rewrite Hins. done.
Qed.

Lemma stream_ok past s service prepared ref stream listener :
  sys_inv past s -> access_enabled s (AiStream service prepared ref stream listener) ->
  step_goal past s (AiStream service prepared ref stream listener).
Proof.
  intros Hs He. set (x := (s, AiStream service prepared ref stream listener)).
  set (i := TnStream service NABTO_EC_OK prepared ref stream).
  pose proof (tunnels_step_inv _ _ i (si_tunnels _ _ Hs) He) as Ht.
  assert (Et : on_tunnels i s = Def (tt, s, trace (tunnels_handler i) (sy_tunnels s)) /\ exec (tunnels_handler i) (sy_tunnels s) = sy_tunnels s)
    by (unfold on_tunnels, trace, i; destruct s, prepared; by split).
  destruct Et as [Et Ex]. rewrite Ex in Ht. unfold step_goal. cbn [access_step]. fold i. rewrite (ubind_def _ _ _ _ _ _ Et).
  destruct prepared; cbn in Ht |- *.
  - destruct (ask_access_run s ref (sv_id service) (sv_type service) (sv_weakPtr service) stream listener)
      as (q & t & Ea & -> & Es & Hq).
    rewrite (ubind_def _ _ _ _ _ _ Ea). cbn. eexists _, _. split; [reflexivity |]. split; [| done].
    destruct s as [tunnels iam qs]. cbn in *. destruct Hs as [S1 S2 S3 S4]. cbn in *.
    assert (Hev : forall n, qs !! n = None -> events n (past ++ [x]) = 0%nat).
    { intros n Hn. rewrite events_snoc, (S4 _ Hn). done. }
    split; cbn.
    + rewrite map_app. cbn. rewrite Es. exact Ht.
    + done.
    + intros n q1 Hn. apply lookup_app_Some in Hn as [Hn | [Hlen Hn]].
      * apply request_inv_past; [done | by apply S3].
      * apply list_lookup_singleton_Some in Hn as [Hn ->]. replace n with (length qs) by lia.
        apply Hq, Hev. by apply lookup_ge_None.
    + intros n Hn. apply Hev. apply lookup_ge_None in Hn. rewrite length_app in Hn. apply lookup_ge_None. lia.
  - eexists s, _. split; [reflexivity |]. split; [| done]. rewrite app_nil_r in Ht.
    destruct s as [tunnels iam qs]. by apply (sys_other past (mk_sy tunnels iam qs)); [| | apply (si_closed _ _ Hs) |].
Qed.

Lemma access_step_ok past s i : sys_inv past s -> access_enabled s i -> step_goal past s i.
Proof.
  intros Hs He. destruct i as [i | iam | service prepared ref stream listener | n | n | n connected | n | n allocated ec].
  - by apply services_ok.
  - by apply config_ok.
  - by apply stream_ok.
  - eapply simple_ok; [done | exact He | done.. |]. auto.
  - eapply simple_ok; [done | exact He | done.. |]. auto.
  - by apply answer_ok.
  - eapply simple_ok; [done | exact He | done.. |]. auto.
  - by apply event_ok.
Qed.

Lemma access_run_inv iam past t s : iam_closed iam -> access_run iam past t s -> sys_inv past s.
Proof.
  intros Hiam. induction 1 as [| past t s i s' t' _ IH He E].
  - split; cbn; [apply tunnels_init_inv | done | done | done].
  - destruct (access_step_ok _ _ _ IH He) as (s1 & t1 & E1 & Hs & _). rewrite E in E1. by injection E1 as <- <-.
Qed.

(** *** Every request can be brought to its end *)

Lemma request_waiting past n q :
  request_inv past n q -> ran (tq_inputs q) = false ->
  en_posted (tq_auth q).2 = is_some (decision (tq_inputs q)) /\
  match en_api (tq_auth q).2 with
  | ApNone | ApDone => is_some (decision (tq_inputs q)) = true
  | _ => True
  end.
Proof.
  intros Hr Hran. destruct (tq_auth q) as [r e] eqn:Eq. pose proof (ri_life _ _ _ Hr) as Hl. rewrite Eq in Hl.
  destruct (auth_reachable_fits _ _ _ _ _ _ Hl) as (Hp & _). rewrite Hran, (ri_asked _ _ _ Hr) in Hp.
  unfold phases_fit in Hp. apply andb_prop in Hp as [Hp1 Hp2]. apply Bool.eqb_prop in Hp1. cbn [snd].
  rewrite Hp1, andb_true_r. split; [done |].
  destruct (en_platform e); cbn in Hp2.
  - rewrite andb_true_r in Hp2. apply bool_decide_eq_true in Hp2 as (_ & Hx & _). discriminate.
  - by destruct (en_api e).
  - apply bool_decide_eq_true in Hp2 as (_ & Hx & _). discriminate.
Qed.

Definition about (n : nat) (x : access_system * access_input) : Prop :=
  match x.2 with AiDeliver m | AiAnswer m _ | AiEvent m _ _ => m = n | _ => False end.

Section Ends.
Variables (iam : iam_t) (Hiam : iam_closed iam).

Definition ends (past : past_t) (t : list tunnels_call) (n : nat) : Prop :=
  exists more c s', Forall (about n) more /\ access_run iam (past ++ more) (t ++ [c]) s' /\ events n (past ++ more) = 1%nat.

Lemma event_ends past t s n q :
  access_run iam past t s -> sy_requests s !! n = Some q -> ran (tq_inputs q) = false ->
  is_some (decision (tq_inputs q)) = true -> ends past t n.
Proof.
  intros Hrun Hq Hran Hd. pose proof (access_run_inv _ _ _ _ Hiam Hrun) as Hs.
  pose proof (si_requests _ _ Hs _ _ Hq) as Hr. destruct (request_waiting _ _ _ Hr Hran) as [Hp _].
  assert (He : access_enabled s (AiEvent n true NABTO_EC_OK)).
  { exists q. split; [done |]. cbn. by rewrite Hp. }
  destruct (access_step_ok _ _ _ Hs He) as (s' & t' & E & Hs' & q1 & v & c & Hq1 & -> & _).
  exists [(s, AiEvent n true NABTO_EC_OK)], c, s'. split; [by repeat constructor |]. split; [by eapply access_next |].
  rewrite events_snoc, (ri_events _ _ _ Hr), Hran. unfold event_of. cbn. by rewrite Nat.eqb_refl.
Qed.

(** A step of the request before its end. *)
Lemma ends_after past t s n x s' :
  access_run iam past t s -> access_enabled s x -> about n (s, x) -> access_step x s = Def (tt, s', []) ->
  (access_run iam (past ++ [(s, x)]) t s' -> ends (past ++ [(s, x)]) t n) -> ends past t n.
Proof.
  intros Hrun He Ha E Hends. destruct Hends as (more & c & s2 & Hf & Hr & Hev).
  { rewrite <- (app_nil_r t). by eapply access_next. }
  exists ((s, x) :: more), c, s2. rewrite (app_assoc past [_] more : past ++ (s, x) :: more = _).
  split_and!; [by constructor | done | done].
Qed.

Lemma held_ends past t s n q :
  access_run iam past t s -> sy_requests s !! n = Some q -> ran (tq_inputs q) = false ->
  en_api (tq_auth q).2 = ApHeld -> ends past t n.
Proof.
  intros Hrun Hq Hran Hh. pose proof (access_run_inv _ _ _ _ Hiam Hrun) as Hs.
  assert (He : access_enabled s (AiAnswer n true)) by (exists q; split; [done |]; cbn; by rewrite Hh).
  destruct (access_step_ok _ _ _ Hs He) as (s' & t' & E & Hs' & (v & q0 & q1 & t1 & Hq0 & Hq1 & Ei & _) & ->).
  apply (ends_after _ _ _ _ _ _ Hrun He eq_refl E). intros Hrun'. assert (q0 = q) as -> by congruence.
  apply (event_ends _ _ _ _ _ Hrun' Hq1); rewrite Ei.
  - by rewrite ran_snoc, Hran.
  - rewrite decision_snoc. by destruct (decision (tq_inputs q)).
Qed.

Lemma request_ends past t s n q :
  access_run iam past t s -> sy_requests s !! n = Some q -> ran (tq_inputs q) = false ->
  en_api (tq_auth q).2 <> ApLost -> ends past t n.
Proof.
  intros Hrun Hq Hran Hl. pose proof (access_run_inv _ _ _ _ Hiam Hrun) as Hs.
  pose proof (si_requests _ _ Hs _ _ Hq) as Hr. destruct (request_waiting _ _ _ Hr Hran) as [_ Hp].
  destruct (en_api (tq_auth q).2) eqn:Ea; try done.
  - by eapply event_ends.
  - assert (He : access_enabled s (AiDeliver n)) by (exists q; split; [done |]; cbn; by rewrite Ea).
    destruct (access_step_ok _ _ _ Hs He) as (s' & t' & E & Hs' & (q0 & q1 & t1 & Hq0 & Hq1 & Ei & En) & ->).
    apply (ends_after _ _ _ _ _ _ Hrun He eq_refl E). intros Hrun'. assert (q0 = q) as -> by congruence.
    apply (held_ends _ _ _ _ _ Hrun' Hq1); [by rewrite Ei, ran_snoc, Hran |]. rewrite En. by destruct (tq_auth q).2.
  - by eapply held_ends.
  - by eapply event_ends.
Qed.
End Ends.

End Access.

(** ** Witness *)

#[local] Instance access_strtod : Strtod := fun s => (SpecFloat.S754_zero false, s).

Abbreviation example_iam_t := (nm_iam (T := gset string) (M := gmap string string)).

(** Clients without a user may connect to tunnels. *)
Definition open_iam : example_iam_t :=
  mk_iam [] [mk_role "Unpaired" {["tunnels"%string]}]
    [mk_policy "tunnels" [mk_statement NM_EFFECT_ALLOW {["TcpTunnel:Connect"%string]} []]] None false.

Definition example_service : nm_tcp_tunnel_service :=
  mk_service "ssh" "ssh" (mk_ip NABTO_IPV4 ([127; 0; 0; 1] ++ replicate 12 0)) 22 7 2.

Definition example_fingerprint (ref : Z) : option string := if ref =? 9 then Some "f1"%string else None.

Definition example_add : access_input (T := gset string) (M := gmap string string) :=
  AiServices (TnAdd (mk_ip NABTO_IPV4 (replicate 16 0)) "ssh" "ssh" (ascii_codes "127.0.0.1") 22 (inr 7)).

Definition example_run : list (access_input (T := gset string) (M := gmap string string)) :=
  [example_add; AiStream example_service true 9 4 (Some NABTO_EC_OK); AiDeliver 0; AiAnswer 0 true].

Definition after (i : access_input (T := gset string) (M := gmap string string)) s :=
  match access_step example_fingerprint i s with Def (_, s', _) => s' | UB => s end.
Definition calls_of (i : access_input (T := gset string) (M := gmap string string)) s :=
  match access_step example_fingerprint i s with Def (_, _, t) => t | UB => [] end.

Lemma run_next past t s i :
  access_run example_fingerprint open_iam past t s -> access_enabled s i ->
  is_def (access_step example_fingerprint i s) = true ->
  access_run example_fingerprint open_iam (past ++ [(s, i)]) (t ++ calls_of i s) (after i s).
Proof.
  intros Hr He Hd. eapply access_next; [done | done |]. unfold calls_of, after.
  by destruct (access_step example_fingerprint i s) as [[[[] s'] t'] |].
Qed.

Definition enabled_now (s : access_system (T := gset string) (M := gmap string string)) (n : nat) (i : auth_input) : bool :=
  match sy_requests s !! n with Some q => allowed (tq_auth q).2 i | None => false end.

Lemma enabled_by_compute (s : access_system (T := gset string) (M := gmap string string)) n i :
  enabled_now s n i = true -> request_enabled s n i.
Proof. unfold enabled_now. destruct (sy_requests s !! n) as [q |] eqn:E; [| done]. by exists q. Qed.

Definition example_states : list (access_system (T := gset string) (M := gmap string string)) :=
  let s0 := mk_sy nm_tcp_tunnels_init open_iam [] in
  let s1 := after example_add s0 in
  let s2 := after (AiStream example_service true 9 4 (Some NABTO_EC_OK)) s1 in
  let s3 := after (AiDeliver 0) s2 in
  [s0; s1; s2; s3; after (AiAnswer 0 true) s3].

Lemma example_reached :
  exists past t s, access_run example_fingerprint open_iam past t s /\ map snd past = example_run /\
    access_enabled s (AiEvent 0 true NABTO_EC_OK).
Proof.
  pose proof (access_start example_fingerprint open_iam) as R0.
  pose proof (run_next _ _ _ example_add R0 I ltac:(by vm_compute)) as R1.
  pose proof (run_next _ _ _ (AiStream example_service true 9 4 (Some NABTO_EC_OK)) R1
    (list_elem_of_here _ _) ltac:(by vm_compute)) as R2.
  pose proof (run_next _ _ _ (AiDeliver 0) R2) as R3.
  specialize (R3 ltac:(apply (enabled_by_compute _ 0 AuDelivered); by vm_compute) ltac:(by vm_compute)).
  pose proof (run_next _ _ _ (AiAnswer 0 true) R3) as R4.
  specialize (R4 ltac:(apply (enabled_by_compute _ 0 (AuUserVerdict true)); by vm_compute) ltac:(by vm_compute)).
  eexists _, _, _. split; [exact R4 |]. split; [reflexivity |].
  apply (enabled_by_compute _ 0 AuVerdictEvent). by vm_compute.
Defined.

(** The verdict is the one that permits. *)
Example example_permitted :
  match last example_states with
  | Some s => calls_of (AiEvent 0 true NABTO_EC_OK) s = [TtConnectionStart 4 example_service]
  | None => False
  end.
Proof. by vm_compute. Qed.

