(* ===== verification/Resources.v ===== *)
(** * The CoAP resources of the device (nc_rendezvous_coap.c, nc_stun_coap.c, nc_spake2_coap.c,
      nm_tcp_tunnel_coap.c, nm_iam.c and the files of its handlers)

    The components add their resources to the CoAP server when they start, and remove them when they end.
    The server is the list of the resources it has; whether it has memory for another one is an
    argument, and a call that fails leaves the pointer of the caller as it was. The theorem says that
    no two resources compete for a request, and what is removed in the end. *)

From Stdlib Require Import Ascii.
From S2P Require Import Prelude Platform Attacher Iam ApiCoap.

#[local] Open Scope list_scope.
#[local] Open Scope string_scope.
#[local] Open Scope handler_scope.

(** ** State *)

(** The handlers that are registered. *)
Inductive resource_handler : Type :=
| HRendezvous
| HEndpoints
| HSpake2_1
| HSpake2_2
| HListServices
| HGetService
| HGetConnect
| HIam (op : iam_op).

Record coap_resource : Type := mk_rs {
  rs_id : nat;
  rs_method : nabto_coap_code;
  rs_path : list string;
  rs_handler : resource_handler
}.

(** The resources of the server, the next address, and the pointers that the components keep; the
    pointers of access management are in the resources of its listeners (ApiCoap.v). *)
Record coap_resources : Type := mk_cs {
  cs_resources : list coap_resource;
  cs_next : nat;
  cs_rendezvous : option nat;                     (* rendezvousCoap.resource *)
  cs_stun : option nat;                           (* stunCoap.resource *)
  cs_spake21 : option nat;
  cs_spake22 : option nat;
  cs_coapListServices : option nat;
  cs_coapGetService : option nat;
  cs_iam : list (iam_op * nat)
}.

Definition no_resources : coap_resources := mk_cs [] 0 None None None None None None [].

Definition cs_handler (A : Type) : Type := handler coap_resources Empty_set A.

(** [nabto_coap_server_add_resource] with the answer [err]; [set] stores the pointer. *)
Definition add_resource (err : nabto_coap_error) (method : nabto_coap_code) (path : list string) (h : resource_handler)
    (set : nat -> coap_resources -> coap_resources) : cs_handler nabto_coap_error :=
  match err with
  | NABTO_COAP_ERROR_OK =>
      let* s := hget in
      hmod (fun s => s {{ cs_resources ::= fun rs => (rs ++ [mk_rs (cs_next s) method path h])%list;
                          cs_next ::= S }}) ;;;
      hmod (set (cs_next s)) ;;;
      hret NABTO_COAP_ERROR_OK
  | err => hret err
  end.

Definition remove_resource (id : nat) : cs_handler unit :=
  hmod (fun s => s {{ cs_resources ::= List.filter (fun r => negb (rs_id r =? id)%nat) }}).

(** [if (p) { nabto_coap_server_remove_resource(p); p = NULL; }] *)
Definition remove_slot (get : coap_resources -> option nat) (clear : coap_resources -> coap_resources) : cs_handler unit :=
  let* s := hget in
  match get s with
  | Some id => remove_resource id ;;; hmod clear
  | None => hskip
  end.

Definition is_ok (err : nabto_coap_error) : bool := match err with NABTO_COAP_ERROR_OK => true | _ => false end.

(** ** The components *)

Definition nc_rendezvous_coap_deinit : cs_handler unit :=
  remove_slot cs_rendezvous (fun s => s {{ cs_rendezvous := None }}).

Definition nc_rendezvous_coap_init (err : nabto_coap_error) : cs_handler np_error_code :=
  let* err := add_resource err NABTO_COAP_CODE_POST ["p2p"; "rendezvous"] HRendezvous
    (fun id s => s {{ cs_rendezvous := Some id }}) in
  if negb (is_ok err) then nc_rendezvous_coap_deinit ;;; hret (nc_coap_error_to_core err)
  else hret NABTO_EC_OK.

(** The request that waits for the answer of STUN is in Stun.v. *)
Definition nc_stun_coap_deinit : cs_handler unit :=
  remove_slot cs_stun (fun s => s {{ cs_stun := None }}).

Definition nc_stun_coap_init (err : nabto_coap_error) : cs_handler np_error_code :=
  let* err := add_resource err NABTO_COAP_CODE_GET ["p2p"; "endpoints"] HEndpoints
    (fun id s => s {{ cs_stun := Some id }}) in
  if negb (is_ok err) then nc_stun_coap_deinit ;;; hret (nc_coap_error_to_core err)
  else hret NABTO_EC_OK.

(** The first answer is overwritten by the second. *)
Definition nc_spake2_coap_init (err1 err2 : nabto_coap_error) : cs_handler np_error_code :=
  add_resource err1 NABTO_COAP_CODE_POST ["p2p"; "pwd-auth"; "1"] HSpake2_1
    (fun id s => s {{ cs_spake21 := Some id }}) ;;;
  let* err := add_resource err2 NABTO_COAP_CODE_POST ["p2p"; "pwd-auth"; "2"] HSpake2_2
    (fun id s => s {{ cs_spake22 := Some id }}) in
  hret (nc_coap_error_to_core err).

Definition nc_spake2_coap_deinit : cs_handler unit :=
  remove_slot cs_spake21 (fun s => s {{ cs_spake21 := None }}) ;;;
  remove_slot cs_spake22 (fun s => s {{ cs_spake22 := None }}).

Definition nm_tcp_tunnel_coap_deinit : cs_handler unit :=
  remove_slot cs_coapListServices (fun s => s {{ cs_coapListServices := None }}) ;;;
  remove_slot cs_coapGetService (fun s => s {{ cs_coapGetService := None }}).

(** The third resource is stored over the second. *)
Definition nm_tcp_tunnel_coap_init (err1 err2 err3 : nabto_coap_error) : cs_handler np_error_code :=
  let* err := add_resource err1 NABTO_COAP_CODE_GET ["tcp-tunnels"; "services"] HListServices
    (fun id s => s {{ cs_coapListServices := Some id }}) in
  if negb (is_ok err) then nm_tcp_tunnel_coap_deinit ;;; hret (nc_coap_error_to_core err)
  else
  let* err := add_resource err2 NABTO_COAP_CODE_GET ["tcp-tunnels"; "services"; "{id}"] HGetService
    (fun id s => s {{ cs_coapGetService := Some id }}) in
  if negb (is_ok err) then nm_tcp_tunnel_coap_deinit ;;; hret (nc_coap_error_to_core err)
  else
  let* err := add_resource err3 NABTO_COAP_CODE_GET ["tcp-tunnels"; "connect"; "{id}"] HGetConnect
    (fun id s => s {{ cs_coapGetService := Some id }}) in
  if negb (is_ok err) then nm_tcp_tunnel_coap_deinit ;;; hret (nc_coap_error_to_core err)
  else hret NABTO_EC_OK.

(** ** Access management *)

(** [nm_iam_coap_handler_init] up to the listener (ListenLoop.v). *)
Definition iam_resource (op : iam_op) (method : NabtoDeviceCoapMethod) (paths : list string) (err : nabto_coap_error) :
    cs_handler np_error_code :=
  let* err := add_resource err (nabto_device_coap_method_to_code method) paths (HIam op)
    (fun id s => s {{ cs_iam ::= fun l => (l ++ [(op, id)])%list }}) in
  hret (nabto_device_coap_error_module_to_api err).

Definition nm_iam_pairing_get_init := iam_resource OpPairingGet NABTO_DEVICE_COAP_GET ["pairing"].
Definition nm_iam_pairing_password_init := iam_resource OpPairingPassword NABTO_DEVICE_COAP_POST ["pairing"; "password"].
Definition nm_iam_pairing_local_init := iam_resource OpPairingLocal NABTO_DEVICE_COAP_POST ["pairing"; "local"].
Definition nm_iam_is_paired_init := iam_resource OpIsPaired NABTO_DEVICE_COAP_GET ["pairing"; "is-paired"].
Definition nm_iam_client_settings_init := iam_resource OpClientSettings NABTO_DEVICE_COAP_GET ["pairing"; "client-settings"].
Definition nm_iam_list_users_init := iam_resource OpListUsers NABTO_DEVICE_COAP_GET ["iam"; "users"].
Definition nm_iam_get_user_init := iam_resource OpGetUser NABTO_DEVICE_COAP_GET ["iam"; "users"; "{user}"].
Definition nm_iam_delete_user_init := iam_resource OpDeleteUser NABTO_DEVICE_COAP_DELETE ["iam"; "users"; "{user}"].
Definition nm_iam_list_roles_init := iam_resource OpListRoles NABTO_DEVICE_COAP_GET ["iam"; "roles"].
Definition nm_iam_add_role_to_user_init :=
  iam_resource OpAddRoleToUser NABTO_DEVICE_COAP_PUT ["iam"; "users"; "{user}"; "roles"; "{role}"].
Definition nm_iam_remove_role_from_user_init :=
  iam_resource OpRemoveRoleFromUser NABTO_DEVICE_COAP_DELETE ["iam"; "users"; "{user}"; "roles"; "{role}"].

(** The answers are not looked at. *)
Definition init_coap_handlers (err : iam_op -> nabto_coap_error) : cs_handler unit :=
  nm_iam_pairing_get_init (err OpPairingGet) ;;;
  nm_iam_client_settings_init (err OpClientSettings) ;;;
  nm_iam_pairing_password_init (err OpPairingPassword) ;;;
  nm_iam_pairing_local_init (err OpPairingLocal) ;;;
  nm_iam_is_paired_init (err OpIsPaired) ;;;
  nm_iam_list_users_init (err OpListUsers) ;;;
  nm_iam_get_user_init (err OpGetUser) ;;;
  nm_iam_delete_user_init (err OpDeleteUser) ;;;
  nm_iam_list_roles_init (err OpListRoles) ;;;
  nm_iam_remove_role_from_user_init (err OpRemoveRoleFromUser) ;;;
  nm_iam_add_role_to_user_init (err OpAddRoleToUser) ;;;
  hskip.

#[global] Instance iam_op_eq : EqDecision iam_op.
Proof. solve_decision. Defined.

(** [nm_iam_coap_handler_deinit] stops the listener, whose callback removes the resource. *)
Definition iam_remove (op : iam_op) : cs_handler unit :=
  let* s := hget in
  match List.find (fun p => bool_decide (p.1 = op)) (cs_iam s) with
  | Some (_, id) =>
      remove_resource id ;;; hmod (fun s => s {{ cs_iam ::= List.filter (fun p => negb (bool_decide (p.1 = op))) }})
  | None => hskip
  end.

Definition deinit_coap_handlers : cs_handler unit :=
  iam_remove OpPairingGet ;;;
  iam_remove OpPairingPassword ;;;
  iam_remove OpPairingLocal ;;;
  iam_remove OpIsPaired ;;;
  iam_remove OpClientSettings ;;;
  iam_remove OpListUsers ;;;
  iam_remove OpGetUser ;;;
  iam_remove OpDeleteUser ;;;
  iam_remove OpListRoles ;;;
  iam_remove OpRemoveRoleFromUser ;;;
  iam_remove OpAddRoleToUser.

(** ** The device *)

(** The answers of the server, in the order of the calls. *)
Record add_answers : Type := mk_answers {
  an_rendezvous : nabto_coap_error;
  an_stun : nabto_coap_error;
  an_spake21 : nabto_coap_error;
  an_spake22 : nabto_coap_error;
  an_listServices : nabto_coap_error;
  an_getService : nabto_coap_error;
  an_connect : nabto_coap_error;
  an_iam : iam_op -> nabto_coap_error
}.

(** The order of [nc_device_init] and [nabto_device_new]; the other parts of these functions are in
    Device.v and DeviceApi.v, which call [resources_deinit] when a step fails. *)
Definition resources_init (a : add_answers) : cs_handler np_error_code :=
  let* ec := nc_rendezvous_coap_init (an_rendezvous a) in
  if is_error ec then hret ec
  else
  let* ec := nc_stun_coap_init (an_stun a) in
  if is_error ec then hret ec
  else
  let* ec := nc_spake2_coap_init (an_spake21 a) (an_spake22 a) in
  if is_error ec then hret ec
  else nm_tcp_tunnel_coap_init (an_listServices a) (an_getService a) (an_connect a).

(** [nm_tcp_tunnels_deinit] and [nc_device_deinit]. *)
Definition resources_deinit : cs_handler unit :=
  nm_tcp_tunnel_coap_deinit ;;;
  nc_stun_coap_deinit ;;;
  nc_rendezvous_coap_deinit ;;;
  nc_spake2_coap_deinit.

(** A device with access management, from its start to its end. *)
Definition device_up (a : add_answers) : cs_handler np_error_code :=
  let* ec := resources_init a in
  if is_error ec then hret ec else init_coap_handlers (an_iam a) ;;; hret ec.
Definition device_down : cs_handler unit := deinit_coap_handlers ;;; resources_deinit.

(** ** Proofs *)

Definition entry (r : coap_resource) : nabto_coap_code * list string * resource_handler :=
  (rs_method r, rs_path r, rs_handler r).

Definition core_table : list (nabto_coap_code * list string * resource_handler) :=
  [(NABTO_COAP_CODE_POST, ["p2p"; "rendezvous"], HRendezvous);
   (NABTO_COAP_CODE_GET, ["p2p"; "endpoints"], HEndpoints);
   (NABTO_COAP_CODE_POST, ["p2p"; "pwd-auth"; "1"], HSpake2_1);
   (NABTO_COAP_CODE_POST, ["p2p"; "pwd-auth"; "2"], HSpake2_2);
   (NABTO_COAP_CODE_GET, ["tcp-tunnels"; "services"], HListServices);
   (NABTO_COAP_CODE_GET, ["tcp-tunnels"; "services"; "{id}"], HGetService);
   (NABTO_COAP_CODE_GET, ["tcp-tunnels"; "connect"; "{id}"], HGetConnect)].

Definition iam_table : list (iam_op * (NabtoDeviceCoapMethod * list string)) :=
  [(OpPairingGet, (NABTO_DEVICE_COAP_GET, ["pairing"]));
   (OpClientSettings, (NABTO_DEVICE_COAP_GET, ["pairing"; "client-settings"]));
   (OpPairingPassword, (NABTO_DEVICE_COAP_POST, ["pairing"; "password"]));
   (OpPairingLocal, (NABTO_DEVICE_COAP_POST, ["pairing"; "local"]));
   (OpIsPaired, (NABTO_DEVICE_COAP_GET, ["pairing"; "is-paired"]));
   (OpListUsers, (NABTO_DEVICE_COAP_GET, ["iam"; "users"]));
   (OpGetUser, (NABTO_DEVICE_COAP_GET, ["iam"; "users"; "{user}"]));
   (OpDeleteUser, (NABTO_DEVICE_COAP_DELETE, ["iam"; "users"; "{user}"]));
   (OpListRoles, (NABTO_DEVICE_COAP_GET, ["iam"; "roles"]));
   (OpRemoveRoleFromUser, (NABTO_DEVICE_COAP_DELETE, ["iam"; "users"; "{user}"; "roles"; "{role}"]));
   (OpAddRoleToUser, (NABTO_DEVICE_COAP_PUT, ["iam"; "users"; "{user}"; "roles"; "{role}"]))].

Definition iam_entry (e : iam_op * (NabtoDeviceCoapMethod * list string)) : nabto_coap_code * list string * resource_handler :=
  (nabto_device_coap_method_to_code e.2.1, e.2.2, HIam e.1).

Definition resource_table : list (nabto_coap_code * list string * resource_handler) := (core_table ++ map iam_entry iam_table)%list.

(** The answer of the server for a resource. *)
Definition answer_for (a : add_answers) (h : resource_handler) : nabto_coap_error :=
  match h with
  | HRendezvous => an_rendezvous a
  | HEndpoints => an_stun a
  | HSpake2_1 => an_spake21 a
  | HSpake2_2 => an_spake22 a
  | HListServices => an_listServices a
  | HGetService => an_getService a
  | HGetConnect => an_connect a
  | HIam op => an_iam a op
  end.

Definition added (a : add_answers) (e : nabto_coap_code * list string * resource_handler) : bool := is_ok (answer_for a e.2).

(** *** Paths *)

(** A path that a client asks for is an instance of the path of a resource: a name in braces stands
    for any segment. *)
Definition is_parameter (segment : string) : bool :=
  match segment with String c _ => bool_decide (c = "{"%char) | EmptyString => false end.

Definition segment_instance (pattern segment : string) : Prop := is_parameter pattern = true \/ pattern = segment.
Definition path_instance (pattern path : list string) : Prop := Forall2 segment_instance pattern path.

Fixpoint overlap (p q : list string) : bool :=
  match p, q with
  | [], [] => true
  | x :: p, y :: q => (is_parameter x || is_parameter y || bool_decide (x = y)) && overlap p q
  | _, _ => false
  end.

Lemma instance_overlap p q path : path_instance p path -> path_instance q path -> overlap p q = true.
Proof.
  unfold path_instance. intros Hp. revert q. induction Hp as [| x s p path Hx _ IH]; intros q Hq; inversion_clear Hq as [| y ? q' ? Hy Hq']; [done |].
  cbn. rewrite (IH _ Hq'), andb_true_r. destruct Hx as [-> | ->]; [done |]. destruct Hy as [-> | ->]; [by rewrite orb_true_r |].
  rewrite bool_decide_true by done. by rewrite orb_true_r.
Qed.

#[global] Instance coap_code_eq : EqDecision nabto_coap_code.
Proof. solve_decision. Defined.
#[global] Instance resource_handler_eq : EqDecision resource_handler.
Proof. solve_decision. Defined.

Lemma table_disjoint :
  Forall (fun e => Forall (fun e' => e.1.1 = e'.1.1 -> overlap e.1.2 e'.1.2 = true -> e.2 = e'.2) resource_table) resource_table.
Proof.
  assert (Hb : forallb (fun e => forallb (fun e' => negb (bool_decide (e.1.1 = e'.1.1) && overlap e.1.2 e'.1.2) ||
    bool_decide (e.2 = e'.2)) resource_table) resource_table = true) by (vm_compute; reflexivity).
  rewrite forallb_forall in Hb. apply Forall_forall. intros e He%list_elem_of_In. specialize (Hb e He).
  rewrite forallb_forall in Hb. apply Forall_forall. intros e' He'%list_elem_of_In Em Eo. specialize (Hb e' He').
  rewrite (bool_decide_true (e.1.1 = e'.1.1)), Eo in Hb by done. by apply bool_decide_eq_true in Hb.
Qed.

Lemma table_handlers : NoDup (map snd resource_table).
Proof. by_compute. Qed.

(** *** The core *)

Ltac solve_sublist := vm_compute; repeat first [apply sublist_nil_l | apply sublist_skip | apply sublist_cons]; try apply sublist_nil.
Ltac solve_core :=
  match goal with |- exists ec s, ?m = (ec, s, []) /\ _ =>
    let x := eval vm_compute in m in
    match x with (?ec, ?s, _) => exists ec, s; split; [vm_compute; reflexivity |] end end;
  split; [reflexivity |]; split; [solve_sublist |];
  first [split; [reflexivity | intros n; vm_compute; reflexivity] | split; [solve_sublist | vm_compute; reflexivity]].

(** What the core leaves when it is up, and after its end. *)
Lemma core_run a :
  exists ec s, resources_init a no_resources = (ec, s, []) /\ cs_iam s = [] /\
    map rs_id (cs_resources s) `sublist_of` seq 0 (cs_next s) /\
    (if is_error ec then map entry (cs_resources s) `sublist_of` core_table /\ cs_resources (exec resources_deinit s) = []
     else map entry (cs_resources s) = List.filter (added a) core_table /\
       forall n, map rs_handler (cs_resources (exec resources_deinit (s {{ cs_next := n }}))) = [HGetService]).
Proof.
  destruct a as [a1 a2 a3 a4 a5 a6 a7 ai].
  destruct a1; [| solve_core ..]. destruct a2; [| solve_core ..]. destruct a4; [| destruct a3; solve_core ..].
  destruct a5; [| destruct a3; solve_core ..]. destruct a6; [| destruct a3; solve_core ..].
  destruct a7; destruct a3; solve_core.
Qed.

(** *** Access management *)

Definition add_iam (err : iam_op -> nabto_coap_error) (e : iam_op * (NabtoDeviceCoapMethod * list string)) (s : coap_resources) :
    coap_resources := exec (iam_resource e.1 e.2.1 e.2.2 (err e.1)) s.

Lemma init_handlers_fold err s : exec (init_coap_handlers err) s = fold_left (fun s e => add_iam err e s) iam_table s.
Proof. unfold init_coap_handlers, add_iam. rewrite !exec_seq. reflexivity. Qed.

(** The resources of access management are those of its pointers [l]. *)
Definition with_iam (s : coap_resources) (n : nat) (l : list (nabto_coap_code * list string * (iam_op * nat))) : coap_resources :=
  s {{ cs_next := n;
       cs_resources := (cs_resources s ++ map (fun x => mk_rs x.2.2 x.1.1 x.1.2 (HIam x.2.1)) l)%list;
       cs_iam := map snd l }}.

Definition fresh_ids (s : coap_resources) (n : nat) (l : list (nabto_coap_code * list string * (iam_op * nat))) : Prop :=
  (forall r, r ∈ cs_resources s -> (rs_id r < cs_next s)%nat) /\
  map (fun x => x.2.2) l = seq (cs_next s) (length l) /\ n = (cs_next s + length l)%nat.

Lemma added_iam err s : forall table n l,
  cs_iam s = [] -> fresh_ids s n l ->
  exists n' l', fold_left (fun s e => add_iam err e s) table (with_iam s n l) = with_iam s n' l' /\ fresh_ids s n' l' /\
    map (fun x => (x.1, HIam x.2.1)) l' = (map (fun x => (x.1, HIam x.2.1)) l ++
      map iam_entry (List.filter (fun e => is_ok (err e.1)) table))%list.
Proof.
  intros table. induction table as [| e table IH]; intros n l Hs Hf; cbn [fold_left].
  { exists n, l. by rewrite app_nil_r. }
  destruct (is_ok (err e.1)) eqn:Eok.
  - set (x := (nabto_device_coap_method_to_code e.2.1, e.2.2, (e.1, n))).
    assert (E : add_iam err e (with_iam s n l) = with_iam s (S n) (l ++ [x])).
    { unfold add_iam, iam_resource. destruct (err e.1) eqn:Ee; try done. destruct s as [rs nx r1 r2 r3 r4 r5 r6 il]. cbn in Hs |- *.
      unfold with_iam. cbn. rewrite !map_app, app_assoc. done. }
    rewrite E. destruct (IH (S n) (l ++ [x])%list Hs) as (n' & l' & E' & Hf' & Hl').
    + destruct Hf as (H1 & H2 & ->). unfold fresh_ids. rewrite map_app, length_app, H2, seq_app. cbn. split_and!; [done | done | lia].
    + exists n', l'. split; [done |]. split; [done |]. rewrite Hl', map_app, <- app_assoc. cbn. rewrite Eok. done.
  - assert (E : add_iam err e (with_iam s n l) = with_iam s n l)
      by (unfold add_iam, iam_resource; by destruct (err e.1)).
    rewrite E. cbn. rewrite Eok. by apply IH.
Qed.

Abbreviation iam_list := (list (nabto_coap_code * list string * (iam_op * nat))).

Definition without (op : iam_op) (l : iam_list) : iam_list := List.filter (fun x => negb (bool_decide (x.2.1 = op))) l.

(** The pointers of access management: an operation has one, and no two are the same. *)
Record good_list (s : coap_resources) (l : iam_list) : Prop := {
  gl_core : forall r, r ∈ cs_resources s -> (rs_id r < cs_next s)%nat;
  gl_iam : forall x, x ∈ l -> (cs_next s <= x.2.2)%nat;
  gl_ids : NoDup (map (fun x => x.2.2) l);
  gl_ops : NoDup (map (fun x => x.2.1) l)
}.

Lemma filter_map_eq {A B} (f : A -> B) (p : B -> bool) (q : A -> bool) l :
  (forall x, x ∈ l -> p (f x) = q x) -> List.filter p (map f l) = map f (List.filter q l).
Proof.
  induction l as [| x l IH]; intros Hx; [done |]. cbn. rewrite (Hx x) by left. rewrite IH by (intros y Hy; apply Hx; by right).
  by destruct (q x).
Qed.

Lemma filter_true {A} (p : A -> bool) l : (forall x, x ∈ l -> p x = true) -> List.filter p l = l.
Proof.
  induction l as [| x l IH]; intros Hx; [done |]. cbn. rewrite (Hx x) by left. f_equal. apply IH. intros y Hy. apply Hx. by right.
Qed.

Lemma key_injective {A B} (f : A -> B) l x y : NoDup (map f l) -> x ∈ l -> y ∈ l -> f x = f y -> x = y.
Proof.
  intros Hnd Hx Hy E. apply list_elem_of_lookup in Hx as (i & Hi). apply list_elem_of_lookup in Hy as (j & Hj).
  assert (i = j) as ->; [| congruence].
  apply (NoDup_lookup (map f l) i j (f x) Hnd); change (map f l) with (f <$> l); rewrite list_lookup_fmap; [by rewrite Hi | by rewrite Hj, E].
Qed.

Lemma remove_one op s n l : good_list s l -> exec (iam_remove op) (with_iam s n l) = with_iam s n (without op l).
Proof.
  intros [G1 G2 G3 G4]. unfold iam_remove. rewrite exec_hget.
  assert (Hl : cs_iam (with_iam s n l) = map snd l) by (by destruct s). rewrite Hl.
  destruct (List.find _ (map snd l)) as [[op' id] |] eqn:Ef.
  - apply find_some in Ef as [Hin Eop]. cbn in Eop. apply bool_decide_eq_true in Eop. subst op'.
    apply list_elem_of_In, list_elem_of_fmap in Hin as (x & Ex & Hx).
    assert (Hp : forall y, y ∈ l -> (y.2.2 =? id)%nat = bool_decide (y.2.1 = op)).
    { intros y Hy. apply eq_true_iff_eq. rewrite Nat.eqb_eq, bool_decide_eq_true. split.
      - intros E. rewrite (key_injective (fun x => x.2.2) l y x G3 Hy Hx) by (cbn; by rewrite E, <- Ex). by rewrite <- Ex.
      - intros E. rewrite (key_injective (fun x => x.2.1) l y x G4 Hy Hx) by (cbn; by rewrite E, <- Ex). by rewrite <- Ex. }
    rewrite exec_seq. unfold remove_resource, exec, result, hmod. cbn [fst snd].
    destruct s as [rs nx r1 r2 r3 r4 r5 r6 il]. unfold with_iam. cbn in *. unfold constant. f_equal.
    + rewrite List.filter_app, (filter_true _ rs).
      * f_equal. apply filter_map_eq. intros y Hy. cbn. by rewrite Hp.
      * intros r Hr. pose proof (G1 r Hr). pose proof (G2 x Hx) as H2. rewrite <- Ex in H2. cbn in H2.
        destruct (Nat.eqb_spec (rs_id r) id); [lia | done].
    + by apply filter_map_eq.
  - unfold without. rewrite filter_true; [by destruct s |]. intros x Hx.
    assert (Hn : bool_decide (x.2.1 = op) = false)
      by (apply (find_none _ _ Ef x.2), list_elem_of_In, list_elem_of_fmap; by exists x).
    by rewrite Hn.
Qed.

Lemma filter_sublist {A} (p : A -> bool) l : sublist (List.filter p l) l.
Proof. induction l as [| x l IH]; cbn; [done |]. destruct (p x); by constructor. Qed.

Lemma without_good op s l : good_list s l -> good_list s (without op l).
Proof.
  intros [G1 G2 G3 G4].
  assert (Hsub : sublist (without op l) l) by apply filter_sublist.
  split; [done | | |].
  - intros x Hx. apply G2. by eapply elem_of_sublist.
  - eapply sublist_NoDup; [exact G3 | by apply fmap_sublist].
  - eapply sublist_NoDup; [exact G4 | by apply fmap_sublist].
Qed.

Definition deinit_order : list iam_op :=
  [OpPairingGet; OpPairingPassword; OpPairingLocal; OpIsPaired; OpClientSettings; OpListUsers; OpGetUser; OpDeleteUser;
   OpListRoles; OpRemoveRoleFromUser; OpAddRoleToUser].

Lemma deinit_handlers_fold s : exec deinit_coap_handlers s = fold_left (fun s op => exec (iam_remove op) s) deinit_order s.
Proof. unfold deinit_coap_handlers. rewrite !exec_seq. reflexivity. Qed.

Lemma remove_all ops : forall s n l,
  good_list s l -> fold_left (fun s op => exec (iam_remove op) s) ops (with_iam s n l) =
    with_iam s n (List.filter (fun x => negb (bool_decide (x.2.1 ∈ ops))) l).
Proof.
  induction ops as [| op ops IH]; intros s n l Hl; cbn [fold_left].
  { by rewrite filter_true. }
  rewrite remove_one, IH by (done || by apply without_good). f_equal. unfold without. clear.
  induction l as [| x l IH]; [done |]. cbn [List.filter].
  destruct (decide (x.2.1 = op)) as [E | E].
  - rewrite (bool_decide_true (_ = _)), (bool_decide_true (_ ∈ op :: ops)) by (done || by rewrite E; left). done.
  - rewrite (bool_decide_false (_ = _)) by done. cbn [negb List.filter]. rewrite IH.
    replace (bool_decide (x.2.1 ∈ op :: ops)) with (bool_decide (x.2.1 ∈ ops)); [done |].
    apply bool_decide_ext. rewrite elem_of_cons. naive_solver.
Qed.

Lemma fresh_good s n l :
  fresh_ids s n l -> NoDup (map (fun x => x.2.1) l) -> good_list s l.
Proof.
  intros (G1 & G2 & _) Hnd. split; [done | | | done].
  - intros x Hx. assert (Hi : x.2.2 ∈ seq (cs_next s) (length l)) by (rewrite <- G2; apply list_elem_of_fmap; by exists x).
    apply elem_of_seq in Hi. lia.
  - rewrite G2. apply NoDup_seq.
Qed.

(** Access management takes away what it added. *)
Lemma iam_roundtrip err s :
  cs_iam s = [] -> (forall r, r ∈ cs_resources s -> (rs_id r < cs_next s)%nat) ->
  exists n l, exec (init_coap_handlers err) s = with_iam s n l /\ fresh_ids s n l /\
    map (fun x => (x.1, HIam x.2.1)) l = map iam_entry (List.filter (fun e => is_ok (err e.1)) iam_table) /\
    exec deinit_coap_handlers (with_iam s n l) = s {{ cs_next := n }}.
Proof.
  intros Hi Hs. rewrite init_handlers_fold.
  assert (E0 : s = with_iam s (cs_next s) []).
  { unfold with_iam. cbn. rewrite app_nil_r. destruct s. cbn in *. by subst. }
  destruct (added_iam err s iam_table (cs_next s) [] Hi) as (n & l & E & Hf & Hl).
  { unfold fresh_ids. cbn. split_and!; [done | done | lia]. }
  exists n, l. rewrite E0 at 1. split; [exact E |]. split; [done |]. split; [exact Hl |].
  assert (Hops : map (fun x => x.2.1) l = map fst (List.filter (fun e => is_ok (err e.1)) iam_table)).
  { apply (f_equal (map (fun y => match y.2 with HIam op => op | _ => OpListRoles end))) in Hl. cbn [map app] in Hl.
    rewrite !map_map in Hl. exact Hl. }
  assert (Hnd : NoDup (map (fun x => x.2.1) l)).
  { rewrite Hops. assert (Ht : NoDup (map fst iam_table)) by by_compute.
    eapply sublist_NoDup; [exact Ht | apply fmap_sublist, filter_sublist]. }
  rewrite deinit_handlers_fold, (remove_all _ s n l) by (by eapply fresh_good).
  replace (List.filter _ l) with (@nil (nabto_coap_code * list string * (iam_op * nat))).
  - unfold with_iam. cbn. rewrite app_nil_r. destruct s. cbn in *. by subst.
  - symmetry. clear. induction l as [| x l IH]; [done |]. cbn. rewrite IH.
    assert (bool_decide (x.2.1 ∈ deinit_order) = true) as -> by (destruct x.2.1; vm_compute; reflexivity). done.
Qed.

(** Resources with different handlers of the table do not compete. *)
Lemma table_unique rs r1 r2 path :
  map entry rs `sublist_of` resource_table -> r1 ∈ rs -> r2 ∈ rs -> rs_method r1 = rs_method r2 ->
  path_instance (rs_path r1) path -> path_instance (rs_path r2) path -> r1 = r2.
Proof.
  intros Hsub H1 H2 Em P1 P2. assert (Hin : forall r, r ∈ rs -> entry r ∈ resource_table).
  { intros r Hr. eapply elem_of_sublist; [apply (list_elem_of_fmap_2 entry); exact Hr | exact Hsub]. }
  pose proof table_disjoint as Ht. rewrite Forall_forall in Ht. pose proof (Ht _ (Hin _ H1)) as Ht1. rewrite Forall_forall in Ht1.
  pose proof (Ht1 _ (Hin _ H2) Em (instance_overlap _ _ _ P1 P2)) as Eh.
  apply (key_injective rs_handler rs); try done.
  replace (map rs_handler rs) with (map snd (map entry rs)) by (rewrite map_map; done).
  eapply sublist_NoDup; [apply table_handlers | by apply fmap_sublist].
Qed.


(** The second resource of the password authentication without the first: the start succeeds. *)
Example spake2_half_registered :
  let bad op := NABTO_COAP_ERROR_OK in
  let a := mk_answers NABTO_COAP_ERROR_OK NABTO_COAP_ERROR_OK NABTO_COAP_ERROR_OUT_OF_MEMORY NABTO_COAP_ERROR_OK
    NABTO_COAP_ERROR_OK NABTO_COAP_ERROR_OK NABTO_COAP_ERROR_OK bad in
  result (resources_init a) no_resources = NABTO_EC_OK /\
  existsb (fun r => bool_decide (rs_handler r = HSpake2_1)) (cs_resources (exec (resources_init a) no_resources)) = false.
Proof. vm_compute. by split. Qed.

(** A tunnel service can still be asked for after the tunnels were freed. *)
Example get_service_stays :
  let a := mk_answers NABTO_COAP_ERROR_OK NABTO_COAP_ERROR_OK NABTO_COAP_ERROR_OK NABTO_COAP_ERROR_OK
    NABTO_COAP_ERROR_OK NABTO_COAP_ERROR_OK NABTO_COAP_ERROR_OK (fun _ => NABTO_COAP_ERROR_OK) in
  map rs_path (cs_resources (exec device_down (exec (device_up a) no_resources))) = [["tcp-tunnels"; "services"; "{id}"]].
Proof. by vm_compute. Qed.
