(* ===== verification/UdpDispatch.v ===== *)
(** * The UDP dispatcher (core/nc_udp_dispatch.c)

    A dispatcher has a socket, a buffer, and a completion event for the wait for packets; it hands a
    packet to the STUN client, the attacher or the client connections, by the first byte
    (ClientConnection.v). The socket is any implementation of the interface of Udp.v. What the
    system answers to a receive, and what the component leaves in the buffer, are arguments. *)

From S2P Require Import Prelude Platform CompletionEvent Udp SelectSockets ClientConnection.

#[local] Open Scope Z_scope.
#[local] Open Scope list_scope.
#[local] Open Scope handler_scope.

(** The completion event of the dispatcher; other components use other numbers. *)
Definition RecvCompletionEvent : nat := 0.

(** The size of a communication buffer (nm_communication_buffer.c). *)
Definition NABTO_COMMUNICATION_BUFFER_LENGTH : nat := 1500.

Section UdpDispatch.
Context {S E A B : Type} `{NpUdpLaws S E A, NpUdpPort S E B}.

(** [ud_recvEvent] is the structure of the completion event. *)
Record nc_udp_dispatch_context : Type := mk_ud {
  ud_pl : bool;
  ud_sock : option S;
  ud_cliConn : bool;
  ud_attacher : bool;
  ud_stun : bool;
  ud_recvBuffer : list Z;
  ud_recvEvent : np_completion_event
}.

(** [UdSock]: a call of the socket; [UdPacket]: a packet of the given size is handed over in the buffer. *)
Inductive ud_call : Type :=
| UdAllocate
| UdFree
| UdCreate
| UdDestroy (created : bool)       (* with the socket, or NULL *)
| UdEvent (c : ce_call)
| UdSock (c : E)
| UdPacket (target : udp_target) (ep : np_udp_endpoint) (buffer : list Z) (bufferSize : nat).

Definition ud_handler (A : Type) : Type := handler nc_udp_dispatch_context ud_call A.
Definition ud_uhandler (A : Type) : Type := uhandler nc_udp_dispatch_context ud_call A.

Definition ud_zero : nc_udp_dispatch_context := mk_ud false None false false false [] ce_zero.

(** A function of the completion event. *)
Definition on_event {X} (m : uhandler np_completion_event ce_call X) : ud_uhandler X := fun s =>
  match m (ud_recvEvent s) with
  | Def (x, c, t) => Def (x, s {{ ud_recvEvent := c }}, map UdEvent t)
  | UB => UB
  end.

(** A function of the socket; without a socket it follows a pointer that is NULL. *)
Definition on_sock {X} (m : uhandler S E X) : ud_uhandler X := fun s =>
  match ud_sock s with
  | Some sock =>
      match m sock with
      | Def (x, sock, t) => Def (x, s {{ ud_sock := Some sock }}, map UdSock t)
      | UB => UB
      end
  | None => UB
  end.

(** [memory]: the contents of the buffer that is allocated; [socket] and [event]: the answers of
    [np_udp_create] and of the event queue. *)
Definition nc_udp_dispatch_init (memory : list Z) (socket : np_error_code + S) (event : np_error_code + nat) :
    ud_uhandler np_error_code :=
  let+ _ := ulift (hmod (fun _ => ud_zero)) in
  let+ _ := ulift (hmod (fun s => s {{ ud_pl := true }})) in
  let+ _ := ulift (emit UdAllocate ;;; hmod (fun s => s {{ ud_recvBuffer := memory }})) in
  let+ _ := ulift (emit UdCreate) in
  match socket with
  | inl ec => ulift (hret ec)
  | inr sock =>
      let+ _ := ulift (hmod (fun s => s {{ ud_sock := Some sock }})) in
      on_event (ulift (np_completion_event_init (Some RecvCompletionEvent) event))
  end.

Definition nc_udp_dispatch_deinit : ud_uhandler unit :=
  let+ s := ulift hget in
  if ud_pl s then
    let+ _ := ulift (emit (UdDestroy (bool_decide (is_Some (ud_sock s))))) in
    let+ _ := ulift (emit UdFree) in
    on_event np_completion_event_deinit
  else ulift hskip.

Definition nc_udp_dispatch_async_bind (port : Z) (an : B) (completionEvent : nat) : ud_uhandler unit :=
  on_sock (ulift (np_udp_async_bind_port port an completionEvent)).

Definition start_recv : ud_uhandler unit := on_sock (np_udp_async_recv_wait RecvCompletionEvent).

Definition nc_udp_dispatch_start_recv : ud_uhandler unit := start_recv.

Definition nc_udp_dispatch_abort : ud_uhandler np_error_code :=
  let+ _ := on_sock (ulift np_udp_abort) in ulift (hret NABTO_EC_OK).

(** [err]: the error of the system, if any. *)
Definition nc_udp_dispatch_async_send_to (ep : np_udp_endpoint) (buffer : list Z) (err : option Z) (completionEvent : nat) :
    ud_uhandler unit :=
  on_sock (ulift (np_udp_async_send_to ep buffer err completionEvent)).

Definition nc_udp_dispatch_get_local_port (port : Z) : ud_uhandler Z :=
  on_sock (ulift (hgets (np_udp_get_local_port port))).

(** [recv_from] writes the data to the start of the buffer. *)
Definition received_in (buffer : list Z) (data : option (list Z)) : list Z :=
  match data with Some d => d ++ drop (length d) buffer | None => buffer end.

(** [r], [address], [port]: what the system answers to the receive; [after]: the buffer as the component that
    gets the packet leaves it. *)
Definition async_recv_wait_complete (ec : np_error_code) (r : list Z + Z) (address : list Z) (port : Z) (after : list Z) :
    ud_uhandler unit :=
  if is_error ec then ulift hskip
  else
    let+ s := ulift hget in
    let+ received := on_sock (ulift (np_udp_recv_from (length (ud_recvBuffer s)) r address port)) in
    let '(recvEc, ep, data) := received in
    let+ _ := ulift (hmod (fun s => s {{ ud_recvBuffer := received_in (ud_recvBuffer s) data }})) in
    let+ _ :=
      if bool_decide (recvEc = NABTO_EC_OK) then
        let+ s := ulift hget in
        let+ target := uof (nc_udp_dispatch_handle_packet (ud_stun s) (ud_attacher s) (ud_cliConn s) (ud_recvBuffer s)) in
        let+ _ := ulift (emit (UdPacket target ep (ud_recvBuffer s) (length (default [] data)))) in
        ulift (hmod (fun s => s {{ ud_recvBuffer := after }}))
      else ulift hskip in
    if bool_decide (recvEc = NABTO_EC_OK) || bool_decide (recvEc = NABTO_EC_AGAIN) then start_recv
    else ulift hskip.

Definition nc_udp_dispatch_set_client_connection_context : ud_handler unit := hmod (fun s => s {{ ud_cliConn := true }}).
Definition nc_udp_dispatch_set_attach_context : ud_handler unit := hmod (fun s => s {{ ud_attacher := true }}).
Definition nc_udp_dispatch_set_stun_context : ud_handler unit := hmod (fun s => s {{ ud_stun := true }}).
Definition nc_udp_dispatch_clear_client_connection_context : ud_handler unit :=
  hmod (fun s => s {{ ud_cliConn := false }}).
Definition nc_udp_dispatch_clear_attacher_context : ud_handler unit := hmod (fun s => s {{ ud_attacher := false }}).
Definition nc_udp_dispatch_clear_stun_context : ud_handler unit := hmod (fun s => s {{ ud_stun := false }}).

(** ** Creation that fails *)

(** When there is no socket the completion event is not initialized, and deinitializing is undefined; the
    same when there is no memory for the event. *)
Lemma failed_init_deinit memory socket event s :
  exists ec s' t, nc_udp_dispatch_init memory socket event s = Def (ec, s', t) /\
    is_def (nc_udp_dispatch_deinit s') =
      match socket, event with inr _, inr _ => true | _, _ => false end /\
    (forall e, socket = inl e -> ec = e) /\ (forall sock e, socket = inr sock -> event = inl e -> ec = e).
Proof.
  destruct socket as [e | sock], event as [e' | ev]; (eexists _, _, _; split; [reflexivity |]); split_and!; try done;
    intros; by simplify_eq.
Qed.

(** ** The dispatcher with its socket and the events that are posted *)

Definition ud_system : Type := nc_udp_dispatch_context * list (nat * np_error_code).

Definition sock_calls (t : list ud_call) : list E := omap (fun c => match c with UdSock e => Some e | _ => None end) t.

(** The packets that are handed over. *)
Definition packets (t : list ud_call) : list (udp_target * np_udp_endpoint * list Z * nat) :=
  omap (fun c => match c with UdPacket target ep buffer n => Some (target, ep, buffer, n) | _ => None end) t.

Inductive ud_input : Type :=
| UdStart
| UdReadable
| UdAbort
| UdSend (ep : np_udp_endpoint) (data : list Z) (err : option Z) (ev : nat)
| UdSet (stun attacher cliConn : bool)
| UdDeliver (r : list Z + Z) (address : list Z) (port : Z) (after : list Z).

(** The first event of the dispatcher that is posted, and the rest. *)
Fixpoint take_recv (q : list (nat * np_error_code)) : option (np_error_code * list (nat * np_error_code)) :=
  match q with
  | [] => None
  | p :: rest =>
      if (p.1 =? RecvCompletionEvent)%nat then Some (p.2, rest)
      else match take_recv rest with Some (ec, rest') => Some (ec, p :: rest') | None => None end
  end.

Definition ud_post (m : ud_uhandler unit) (sys : ud_system) : cres (ud_system * list ud_call) :=
  match m sys.1 with
  | Def (_, s, t) => Def ((s, sys.2 ++ udp_resolved (sock_calls t)), t)
  | UB => UB
  end.

Definition ud_step (i : ud_input) (sys : ud_system) : cres (ud_system * list ud_call) :=
  match i with
  | UdStart => ud_post nc_udp_dispatch_start_recv sys
  | UdReadable => ud_post (on_sock (ulift udp_readable)) sys
  | UdAbort => ud_post (let+ _ := nc_udp_dispatch_abort in ulift hskip) sys
  | UdSend ep data err ev => ud_post (nc_udp_dispatch_async_send_to ep data err ev) sys
  | UdSet stun attacher cliConn =>
      ud_post (ulift (hmod (fun s => s {{ ud_stun := stun }} {{ ud_attacher := attacher }} {{ ud_cliConn := cliConn }}))) sys
  | UdDeliver r address port after =>
      match take_recv sys.2 with
      | Some (ec, rest) => ud_post (async_recv_wait_complete ec r address port after) (sys.1, rest)
      | None => Def (sys, [])
      end
  end.

(** Before the dispatcher is started, while it receives, and after. *)
Inductive ud_phase : Type := Idle | Receiving | Ended.

(** A delivery ends the receiving with an error of the wait, or of the receive other than AGAIN. *)
Definition phase_after (i : ud_input) (phase : ud_phase) (sys : ud_system) : ud_phase :=
  match i, phase with
  | UdStart, _ => Receiving
  | UdDeliver r address port _, Receiving =>
      match take_recv sys.2, ud_sock sys.1 with
      | Some (ec, _), Some sock =>
          let recvEc := (result (np_udp_recv_from (length (ud_recvBuffer sys.1)) r address port) sock).1.1 in
          if is_error ec || negb (bool_decide (recvEc = NABTO_EC_OK) || bool_decide (recvEc = NABTO_EC_AGAIN))
          then Ended else Receiving
      | _, _ => phase
      end
  | _, _ => phase
  end.

(** The dispatcher is started once; the system writes no more than the buffer holds, and components keep the
    size of the buffer; senders use other events. *)
Definition ud_input_ok (i : ud_input) (phase : ud_phase) (sys : ud_system) : Prop :=
  match i with
  | UdStart => phase = Idle
  | UdSend _ _ _ ev => ev <> RecvCompletionEvent
  | UdDeliver r _ _ after =>
      length after = length (ud_recvBuffer sys.1) /\
      match r with inl data => (length data <= length (ud_recvBuffer sys.1))%nat | inr _ => True end
  | _ => True
  end.

(** From a socket that was bound (or aborted). *)
Inductive ud_reachable : ud_phase -> ud_system -> Prop :=
| ud_bound s sock :
    ud_sock s = Some sock -> udp_waiting sock = None -> udp_open sock = true \/ udp_aborted sock = true ->
    (0 < length (ud_recvBuffer s))%nat -> ud_reachable Idle (s, [])
| ud_next i phase sys sys' t :
    ud_reachable phase sys -> ud_input_ok i phase sys -> ud_step i sys = Def (sys', t) ->
    ud_reachable (phase_after i phase sys) sys'.

(** The completions of the dispatcher that are posted, and the receives that are under way. *)
Definition recv_posted (sys : ud_system) : list (nat * np_error_code) :=
  filter (fun p => p.1 = RecvCompletionEvent) sys.2.
Definition ud_under_way (sys : ud_system) : nat :=
  length (recv_posted sys) + length (option_list (ud_sock sys.1 ≫= udp_waiting)).
End UdpDispatch.
Arguments nc_udp_dispatch_context S : clear implicits.
Arguments ud_system S : clear implicits.
Arguments ud_input : clear implicits.

(** ** Proofs *)

Section Proofs.
Context {S E A B : Type} `{!NpUdp S E A, !NpUdpLaws S E A, !NpUdpPort S E B}.

Abbreviation sys_t := (ud_system S).

Lemma take_recv_spec q :
  match take_recv q with
  | Some (ec, rest) =>
      filter (fun p => p.1 = RecvCompletionEvent) q =
        (RecvCompletionEvent, ec) :: filter (fun p => p.1 = RecvCompletionEvent) rest
  | None => filter (fun p => p.1 = RecvCompletionEvent) q = []
  end.
Proof.
  induction q as [| [n ec] q IH]; [done |]. cbn [take_recv fst snd]. rewrite filter_cons. cbn [fst].
  destruct (Nat.eqb_spec n RecvCompletionEvent) as [-> | Hn].
  - by rewrite decide_True.
  - rewrite decide_False by done. destruct (take_recv q) as [[ec' rest] |]; [| done].
    rewrite filter_cons. by rewrite decide_False.
Qed.

Definition recvs (q : list (nat * np_error_code)) : list (nat * np_error_code) :=
  filter (fun p => p.1 = RecvCompletionEvent) q.

Definition sock_ok (sock : S) : Prop :=
  (udp_open sock = true \/ udp_aborted sock = true) /\ (udp_aborted sock = true -> udp_waiting sock = None).

(** What is under way in a phase. *)
Definition phase_ok (phase : ud_phase) (waiting : option nat) (posted : list (nat * np_error_code)) : Prop :=
  match phase with
  | Receiving =>
      (waiting = Some RecvCompletionEvent /\ posted = []) \/
      (waiting = None /\ exists ec, posted = [(RecvCompletionEvent, ec)])
  | _ => waiting = None /\ posted = []
  end.

Definition ud_inv (phase : ud_phase) (sys : sys_t) : Prop :=
  exists sock, ud_sock sys.1 = Some sock /\ (0 < length (ud_recvBuffer sys.1))%nat /\ sock_ok sock /\
    phase_ok phase (udp_waiting sock) (recvs sys.2).

Lemma on_sock_eq {X} (m : uhandler S E X) s sock :
  ud_sock s = Some sock ->
  on_sock m s = match m sock with
    | Def (x, sock', t) => Def (x, s {{ ud_sock := Some sock' }}, map UdSock t) | UB => UB end.
Proof. intros Hs. unfold on_sock. by rewrite Hs. Qed.

Lemma sock_calls_map (t : list E) : sock_calls (map UdSock t) = t.
Proof. induction t; [done | cbn; by f_equal]. Qed.

Lemma sock_calls_app (t t' : list ud_call) : sock_calls (E := E) (t ++ t') = sock_calls t ++ sock_calls t'.
Proof. apply omap_app. Qed.

Lemma packets_app (t t' : list ud_call) : packets (E := E) (t ++ t') = packets t ++ packets t'.
Proof. apply omap_app. Qed.

Lemma packets_map (t : list E) : packets (map UdSock t) = [].
Proof. by induction t. Qed.

Lemma recvs_app q q' : recvs (q ++ q') = recvs q ++ recvs q'.
Proof. apply filter_app. Qed.

(** The completions of the calls of a step. *)
Ltac completions := rewrite ?sock_calls_app, ?sock_calls_map, ?udp_resolved_app;
  repeat match goal with
  | |- context [sock_calls [UdPacket ?a ?b ?c ?d]] => change (sock_calls [UdPacket a b c d]) with (@nil E)
  | |- context [sock_calls []] => change (sock_calls []) with (@nil E)
  end; rewrite ?udp_resolved_nil.

(** A call of the socket in a state with a socket. *)
Lemma post_sock {X} (m : uhandler S E X) (sys : sys_t) sock x sock' t :
  ud_sock sys.1 = Some sock -> m sock = Def (x, sock', t) ->
  ud_post (let+ _ := on_sock m in ulift hskip) sys =
    Def ((sys.1 {{ ud_sock := Some sock' }}, sys.2 ++ udp_resolved t), map UdSock t).
Proof.
  intros Hs Hm. unfold ud_post, ubind. rewrite (on_sock_eq m _ sock) by done. rewrite Hm. cbn.
  by rewrite app_nil_r, sock_calls_map.
Qed.

(** The wait for the next packet. *)
Lemma start_ok s sock :
  ud_sock s = Some sock -> sock_ok sock -> udp_waiting sock = None ->
  exists sock' t, start_recv (S := S) s = Def (tt, s {{ ud_sock := Some sock' }}, map UdSock t) /\ sock_ok sock' /\
    udp_aborted sock' = udp_aborted sock /\ phase_ok Receiving (udp_waiting sock') (recvs (udp_resolved t)) /\
    (udp_aborted sock = true -> udp_resolved t = [(RecvCompletionEvent, NABTO_EC_ABORTED)]).
Proof.
  intros Hs [Ho Ha] Hw. destruct (udp_wait_law RecvCompletionEvent sock Ho Hw) as (sock' & t & Em & Eo & Eab & Hres).
  exists sock', t. unfold start_recv. rewrite (on_sock_eq _ _ sock) by done. rewrite Em. split; [done |].
  destruct (udp_aborted sock) eqn:Eb.
  - destruct Hres as [-> Ew]. split_and!; try done; [split; [by right | done] |]. right. split; [done |]. by eexists.
  - destruct Hres as [-> Ew]. split_and!; try done; [split; [left; rewrite Eo; by destruct Ho | by rewrite Eab] |].
    by left.
Qed.

(** *** A delivery *)

Definition recv_weight (q : list (nat * np_error_code)) : nat :=
  sum_list_with (fun p : nat * np_error_code => if is_error p.2 then 1%nat else 2%nat) (recvs q).

Lemma deliver_ok phase (sys : sys_t) r address port after ec rest :
  ud_inv phase sys -> ud_input_ok (UdDeliver r address port after) phase sys -> take_recv sys.2 = Some (ec, rest) ->
  exists sys' t, ud_step (UdDeliver r address port after) sys = Def (sys', t) /\
    ud_inv (phase_after (UdDeliver r address port after) phase sys) sys' /\
    (forall sock, ud_sock sys.1 = Some sock -> exists target,
      nc_udp_dispatch_handle_packet (ud_stun sys.1) (ud_attacher sys.1) (ud_cliConn sys.1)
        (received_in (ud_recvBuffer sys.1) (match r with inl d => Some d | inr _ => None end)) = Def target /\
      packets t = (if is_error ec then [] else match r with
        | inl data => [(target, (result (np_udp_recv_from (length (ud_recvBuffer sys.1)) r address port) sock).1.2,
                        received_in (ud_recvBuffer sys.1) (Some data), length data)]
        | inr _ => [] end)) /\
    (forall sock, ud_sock sys.1 = Some sock -> udp_aborted sock = true -> (recv_weight sys'.2 < recv_weight sys.2)%nat).
Proof.
  destruct sys as [s q]. cbn [fst snd]. intros (sock & Hs & Hb & Hok & Hph) [Hlen Hr] Htk. cbn [fst snd] in *.
  pose proof (take_recv_spec q) as Hq. rewrite Htk in Hq. fold (recvs q) (recvs rest) in Hq.
  assert (Hrcv : phase = Receiving /\ udp_waiting sock = None /\ recvs rest = []).
  { unfold phase_ok in Hph. destruct phase; try by (destruct Hph as [_ Hx]; rewrite Hx in Hq).
    destruct Hph as [[_ Hx] | [Hx (ec' & Hy)]]; [by rewrite Hx in Hq | rewrite Hy in Hq; by injection Hq as _ <-]. }
  destruct Hrcv as (-> & Hw & Hrest). cbn [ud_step phase_after fst snd]. rewrite Htk, Hs.
  assert (Hread : exists b, received_in (ud_recvBuffer s) (match r with inl d => Some d | inr _ => None end) !! 0%nat = Some b).
  { apply lookup_lt_is_Some_2. destruct r as [d | status]; cbn; [| lia]. rewrite length_app, length_drop. lia. }
  destruct Hread as [b Hread].
  assert (Htarget : exists target, nc_udp_dispatch_handle_packet (ud_stun s) (ud_attacher s) (ud_cliConn s)
    (received_in (ud_recvBuffer s) (match r with inl d => Some d | inr _ => None end)) = Def target).
  { unfold nc_udp_dispatch_handle_packet, rd. rewrite Hread. by eexists. }
  destruct Htarget as [target Htarget].
  assert (Hweight : recv_weight q = (if is_error ec then 1 else 2)%nat).
  { unfold recv_weight. rewrite Hq, Hrest. by destruct ec. }
  unfold ud_post. cbn [fst snd]. unfold async_recv_wait_complete. destruct (is_error ec) eqn:Eec; cbn [orb].
  { eexists _, _. split; [reflexivity |]. split; [| split].
    - exists sock. cbn. rewrite recvs_app, Hrest. rewrite udp_resolved_nil. by split_and!.
    - intros sock' [= <-]. by exists target.
    - intros sock' _ _. rewrite Hweight. cbn [fst snd]. unfold recv_weight. rewrite recvs_app, Hrest.
      change (sock_calls _) with (@nil E). rewrite udp_resolved_nil. cbn. lia. }
  rewrite u_hget. set (m := np_udp_recv_from (length (ud_recvBuffer s)) r address port).
  destruct (udp_recv_law (length (ud_recvBuffer s)) r address port sock) as (Es & Et & Hiff & Hdata). fold m in Es, Et, Hiff, Hdata.
  assert (Hon : on_sock (ulift m) s =
    Def ((m sock).1.1, s, map UdSock (m sock).2)).
  { rewrite (on_sock_eq _ _ sock) by done. unfold ulift. destruct (m sock) as [[res sock'] t] eqn:Em. cbn.
    unfold exec in Es. rewrite Em in Es. cbn in Es. subst sock'. destruct s. cbn in *. by subst. }
  unfold result, trace in *. destruct (m sock) as [[[[recvEc ep] data] sock'] t0] eqn:Em. cbn in Hon, Et, Hiff, Hdata.
  rewrite (ubind_def _ _ _ _ _ _ Hon). cbn [fst snd]. rewrite u_hmod.
  set (s1 := s {{ ud_recvBuffer := received_in (ud_recvBuffer s) data }}).
  assert (Hs1 : ud_sock s1 = Some sock) by done.
  destruct (bool_decide_reflect (recvEc = NABTO_EC_OK)) as [-> | Hne]; cbn [orb negb].
  - (* a packet *)
    destruct (proj1 Hiff eq_refl) as [d Hd]. subst data. destruct r as [d' | status]; [| done]. injection Hd as ->.
    set (s2 := s1 {{ ud_recvBuffer := after }}).
    destruct (start_ok s2 sock) as (sock2 & t2 & Est & Hok2 & Hab2 & Hph2 & Hw2); [done.. |].
    match goal with |- context [ubind ?m0 _ s1] =>
      assert (Hin : m0 s1 = Def (tt, s2, [UdPacket target ep (received_in (ud_recvBuffer s) (Some d)) (length d)])) end.
    { rewrite u_hget. change (ud_recvBuffer s1) with (received_in (ud_recvBuffer s) (Some d)).
      change (ud_stun s1) with (ud_stun s). change (ud_attacher s1) with (ud_attacher s). change (ud_cliConn s1) with (ud_cliConn s).
      rewrite Htarget, u_def. reflexivity. }
    rewrite (ubind_def _ _ _ _ _ _ Hin), Est. eexists _, _. split; [reflexivity |]. split; [| split].
    + exists sock2. cbn [fst snd]. split; [done |]. split; [change (0 < length after)%nat; lia |]. split; [done |].
      rewrite recvs_app, Hrest; completions; rewrite Et. exact Hph2.
    + intros sk [= <-]. exists target. split; [done |]. rewrite Em. rewrite !packets_app, !packets_map. done.
    + intros sk [= <-] Ha. rewrite Hweight. cbn [fst snd]. unfold recv_weight.
      rewrite recvs_app, Hrest; completions; rewrite Et, Hw2 by done. apply Nat.ltb_lt. reflexivity.
  - (* no packet *)
    destruct r as [d | status]; [exfalso; apply Hne, Hiff; rewrite Hdata; by eexists |]. subst data.
    match goal with |- context [ubind ?m0 _ s1] => assert (Hin : m0 s1 = Def (tt, s1, [])) by done end.
    rewrite (ubind_def _ _ _ _ _ _ Hin). destruct (bool_decide_reflect (recvEc = NABTO_EC_AGAIN)) as [-> | Hna]; cbn [negb].
    + destruct (start_ok s1 sock) as (sock2 & t2 & Est & Hok2 & Hab2 & Hph2 & Hw2); [done.. |].
      rewrite Est. eexists _, _. split; [reflexivity |]. split; [| split].
      * exists sock2. cbn [fst snd]. split; [done |]. split; [done |]. split; [done |].
        rewrite recvs_app, Hrest; completions; rewrite Et. exact Hph2.
      * intros sk [= <-]. exists target. split; [done |]. by rewrite !packets_app, !packets_map.
      * intros sk [= <-] Ha. rewrite Hweight. cbn [fst snd]. unfold recv_weight.
        rewrite recvs_app, Hrest; completions; rewrite Et, Hw2 by done. apply Nat.ltb_lt. reflexivity.
    + eexists _, _. split; [reflexivity |]. split; [| split].
      * exists sock. cbn [fst snd]. split; [done |]. split; [done |]. split; [done |].
        rewrite recvs_app, Hrest; completions; rewrite Et.
        by split.
      * intros sk [= <-]. exists target. split; [done |]. by rewrite !packets_app, !packets_map.
      * intros sk [= <-] Ha. rewrite Hweight. cbn [fst snd]. unfold recv_weight.
        rewrite recvs_app, Hrest; completions; rewrite Et. cbn. lia.
Qed.

(** *** The other steps *)

Lemma ud_step_inv i phase (sys : sys_t) :
  ud_inv phase sys -> ud_input_ok i phase sys ->
  exists sys' t, ud_step i sys = Def (sys', t) /\ ud_inv (phase_after i phase sys) sys'.
Proof.
  intros Hinv Hi. destruct i as [| | | ep data err ev | st at' cl | r address port after].
  6: { destruct (take_recv sys.2) as [[ec rest] |] eqn:Htk.
    - destruct (deliver_ok phase sys r address port after ec rest Hinv Hi Htk) as (sys' & t & ? & ? & _). eauto.
    - exists sys, []. cbn [ud_step phase_after]. rewrite Htk. split; [done |]. by destruct phase. }
  all: destruct sys as [s q]; destruct Hinv as (sock & Hs & Hb & Hok & Hph); cbn [fst snd ud_input_ok ud_step phase_after] in *;
    unfold ud_post; cbn [fst snd].
  - subst phase. destruct Hph as [Hw Hq].
    destruct (start_ok s sock) as (sock' & t & Est & Hok' & _ & Hph' & _); [done.. |].
    unfold nc_udp_dispatch_start_recv. rewrite Est. eexists _, _. split; [reflexivity |].
    exists sock'. cbn [fst snd]. split_and!; [done.. |]. rewrite recvs_app, Hq. completions. done.
  - unfold on_sock. rewrite Hs. unfold ulift. pose proof (udp_readable_law sock) as Hl.
    unfold exec, trace in Hl. destruct (udp_readable sock) as [[[] sock'] t]. cbn in Hl. destruct Hl as (Eo & Ea & Ew & Et).
    eexists _, _. split; [reflexivity |]. exists sock'. cbn [fst snd]. split_and!; [done.. | |].
    + split; [by rewrite Eo, Ea; destruct Hok | by rewrite Ew].
    + rewrite recvs_app, Ew. completions. rewrite Et. destruct phase; cbn in *; try (by destruct Hph as [-> ->]).
      destruct Hph as [[-> ->] | (-> & ec & ->)]; right; (split; [done |]); by eexists.
  - unfold nc_udp_dispatch_abort, on_sock, ulift, ubind. rewrite Hs. pose proof (udp_abort_law sock (proj2 Hok)) as Hl.
    unfold exec, trace in Hl. destruct (np_udp_abort sock) as [[[] sock'] t]. cbn in Hl. destruct Hl as (Eo & Ea & Ew & Et).
    eexists _, _. split; [reflexivity |]. exists sock'. cbn [fst snd]. split_and!; [done.. | |].
    + split; [by right | by rewrite Ew].
    + rewrite recvs_app, Ew, !app_nil_r. completions. rewrite Et. destruct phase; cbn in *; try (by destruct Hph as [-> ->]).
      destruct Hph as [[-> ->] | (-> & ec & ->)]; right; (split; [done |]); by eexists.
  - unfold nc_udp_dispatch_async_send_to, on_sock. rewrite Hs. unfold ulift. pose proof (udp_send_law ep data err ev sock) as Hl.
    unfold exec, trace in Hl. destruct (np_udp_async_send_to ep data err ev sock) as [[[] sock'] t]. cbn in Hl.
    destruct Hl as [-> [ec Et]]. eexists _, _. split; [reflexivity |]. exists sock. cbn [fst snd]. split_and!; [done.. |].
    rewrite recvs_app. completions. rewrite Et. unfold recvs at 2. rewrite filter_cons_False by done. by rewrite app_nil_r.
  - eexists _, _. split; [reflexivity |]. exists sock. cbn [fst snd]. split_and!; [done.. |].
    rewrite recvs_app. completions. by rewrite app_nil_r.
Qed.

Lemma ud_reachable_inv phase (sys : sys_t) : ud_reachable phase sys -> ud_inv phase sys.
Proof.
  induction 1 as [s sock Hs Hw Ho Hb | i phase sys sys' t _ IH Hi Hstep].
  - exists sock. split_and!; done.
  - destruct (ud_step_inv i phase sys IH Hi) as (sys1 & t1 & Es1 & Hinv). congruence.
Qed.

(** C5. A dispatcher over any implementation of the interface of UDP sockets, from the socket that
    was bound, whatever the system answers. Nothing is undefined. From the start until the wait or
    the receive fails exactly one receive is under way, and none before or after. When the completion is
    delivered with a packet, the packet is handed over once, with its sender and its size, to the component that the
    first byte of the buffer and the contexts that are set select; without one nothing is. After an abort
    every delivery leaves less to deliver. *)
Theorem udp_dispatch_receives phase (sys : sys_t) (Hreach : ud_reachable phase sys) :
  (forall i, ud_input_ok i phase sys -> exists sys' t, ud_step i sys = Def (sys', t)) /\
  ud_under_way sys = (match phase with Receiving => 1 | _ => 0 end)%nat /\
  (forall r address port after ec rest sock sys' t,
    take_recv sys.2 = Some (ec, rest) -> ud_sock sys.1 = Some sock ->
    ud_input_ok (UdDeliver r address port after) phase sys ->
    ud_step (UdDeliver r address port after) sys = Def (sys', t) ->
    (if is_error ec then packets t = [] else
     match r with
     | inl data => exists target,
         nc_udp_dispatch_handle_packet (ud_stun sys.1) (ud_attacher sys.1) (ud_cliConn sys.1)
           (data ++ drop (length data) (ud_recvBuffer sys.1)) = Def target /\
         packets t = [(target, (result (np_udp_recv_from (length (ud_recvBuffer sys.1)) r address port) sock).1.2,
                       data ++ drop (length data) (ud_recvBuffer sys.1), length data)]
     | inr _ => packets t = []
     end) /\
    (udp_aborted sock = true -> (recv_weight sys'.2 < recv_weight sys.2)%nat)).
Proof.
  pose proof (ud_reachable_inv phase sys Hreach) as Hinv. split_and!.
  - intros i Hi. destruct (ud_step_inv i phase sys Hinv Hi) as (sys' & t & ? & _). eauto.
  - destruct Hinv as (sock & Hs & _ & _ & Hph). unfold ud_under_way, recv_posted. rewrite Hs. fold (recvs sys.2). cbn.
    destruct phase; cbn in Hph; [by destruct Hph as [-> ->] | | by destruct Hph as [-> ->]].
    by destruct Hph as [[-> ->] | (-> & ec & ->)].
  - intros r address port after ec rest sock sys' t Htk Hs Hi Hst.
    destruct (deliver_ok phase sys r address port after ec rest Hinv Hi Htk) as (sys1 & t1 & Es1 & _ & Hp & Hw).
    rewrite Es1 in Hst. injection Hst as <- <-. split; [| by apply (Hw sock)].
    destruct (Hp sock Hs) as (target & Ht & Hpk). destruct (is_error ec); [done |]. destruct r; [by exists target | done].
Qed.
End Proofs.

(** ** Witness and examples, over the sockets of the select module *)

Definition demo_context (sock : np_udp_socket) : nc_udp_dispatch_context np_udp_socket :=
  mk_ud true (Some sock) true true false (replicate NABTO_COMMUNICATION_BUFFER_LENGTH 0) (mk_ce true (Some 9%nat) (Some 0%nat) NABTO_EC_OK).

Definition demo_start : ud_system np_udp_socket := (demo_context udp_socket_new, []).

Fixpoint ud_steps (inputs : list ud_input) (sys : ud_system np_udp_socket) :
    cres (ud_system np_udp_socket * list (ud_call (E := os_call))) :=
  match inputs with
  | [] => Def (sys, [])
  | i :: rest =>
      match ud_step (E := os_call) (A := mdns_answers) i sys with
      | Def (sys1, t1) => match ud_steps rest sys1 with Def (sys2, t2) => Def (sys2, t1 ++ t2) | UB => UB end
      | UB => UB
      end
  end.

(** A packet with the prefix of a client connection, of which the buffer is left as it is. *)
Definition demo_packet : list Z := 241 :: replicate 20 7.
Definition demo_left : list Z := demo_packet ++ replicate 1479 0.
Definition demo_from : list Z := [10; 0; 0; 1].

(** An empty packet is dispatched by the first byte of the packet before it. *)
Example empty_packet_dispatched :
  match ud_steps [UdStart; UdReadable; UdDeliver (inl demo_packet) demo_from 5592 demo_left;
                  UdReadable; UdDeliver (inl []) demo_from 5592 demo_left] demo_start with
  | Def (_, t) => map (fun p => (p.1.1.1, p.2)) (packets t) = [(ToClientConnection, 21%nat); (ToClientConnection, 0%nat)]
  | UB => False
  end.
Proof. by vm_compute. Qed.

Definition demo_readable : ud_system np_udp_socket :=
  match ud_steps [UdStart; UdReadable] demo_start with Def (sys, _) => sys | UB => demo_start end.

Lemma demo_readable_reachable : ud_reachable (E := os_call) (A := mdns_answers) Receiving demo_readable.
Proof.
  apply (ud_next UdReadable Receiving (demo_context (udp_socket_new {{ us_recv := Some 0%nat }}), []) _
    (map UdSock [OsPost 0 NABTO_EC_OK])); [| exact I | reflexivity].
  eapply (ud_next UdStart Idle demo_start); [| reflexivity | reflexivity].
  apply (ud_bound _ udp_socket_new); try reflexivity; [by left | apply Nat.ltb_lt; reflexivity].
Defined.

Lemma udp_dispatch_receives_witness :
  ud_under_way (E := os_call) (A := mdns_answers) demo_readable = 1%nat /\
  exists sys' t, ud_step (E := os_call) (A := mdns_answers) (UdDeliver (inl demo_packet) demo_from 5592 demo_left)
    demo_readable = Def (sys', t).
Proof.
  destruct (udp_dispatch_receives (E := os_call) (A := mdns_answers) Receiving demo_readable demo_readable_reachable) as (Hd & Hu & _).
  split; [exact Hu |]. apply Hd. split; [reflexivity | apply Nat.leb_le; reflexivity].
Defined.
