(* ===== verification/SelectUnix.v ===== *)
(** * The thread of the select module (nm_select_unix.c, and the lists of nm_select_unix_udp.c and
      nm_select_unix_tcp.c)

    One thread waits with [select] for all sockets (SelectSockets.v); a byte in a pipe wakes it up when
    the sockets changed. What [select] and the sockets answer are arguments. The lists are
    locked while the thread goes through them. *)

From S2P Require Import Prelude Platform SelectSockets.

#[local] Open Scope Z_scope.
#[local] Open Scope list_scope.
#[local] Open Scope handler_scope.

(** [fd_set]: the descriptors in it; there is room for the numbers up to [FD_SETSIZE]. *)
Definition FD_SETSIZE : Z := 1024.
Definition fd_set : Type := list Z.
Definition FD_SET (fd : Z) (s : fd_set) : cres fd_set :=
  if (0 <=? fd) && (fd <? FD_SETSIZE) then Def (fd :: s) else UB.
Definition FD_ISSET (fd : Z) (s : fd_set) : cres bool :=
  if (0 <=? fd) && (fd <? FD_SETSIZE) then Def (bool_decide (fd ∈ s)) else UB.

(** Sockets have numbers. *)
Record nm_select_unix : Type := mk_su {
  su_readFds : fd_set;
  su_writeFds : fd_set;
  su_maxReadFd : Z;
  su_maxWriteFd : Z;
  su_pipefd : Z * Z;
  su_udpSockets : list (nat * np_udp_socket);
  su_tcpSockets : list (nat * np_tcp_socket);
  su_stopped : bool
}.

Inductive select_call : Type :=
| SuPipe
| SuCreateThread
| SuJoinThread
| SuClosePipe
| SuNotify
| SuSelect (nfds : Z)
| SuReadPipe (fd : Z)
| SuUdp (socket : nat) (c : os_call)
| SuTcp (socket : nat) (c : os_call).

Definition su_handler (A : Type) : Type := handler nm_select_unix select_call A.
Definition su_uhandler (A : Type) : Type := uhandler nm_select_unix select_call A.

(** [pipefd]: what [pipe] gives. *)
Definition nm_select_unix_init (pipefd : option (Z * Z)) : su_handler np_error_code :=
  hmod (fun ctx => ctx {{ su_udpSockets := []; su_tcpSockets := []; su_stopped := false }}) ;;;
  emit SuPipe ;;;
  match pipefd with
  | None => hret NABTO_EC_UNKNOWN
  | Some fds => hmod (fun ctx => ctx {{ su_pipefd := fds }}) ;;; hret NABTO_EC_OK
  end.

Definition nm_select_unix_notify : su_handler unit := emit SuNotify.

Definition nm_select_unix_stop : su_handler unit :=
  hmod (fun ctx => ctx {{ su_stopped := true }}) ;;; nm_select_unix_notify.

(** [thread]: whether the thread was created. *)
Definition nm_select_unix_deinit (thread : bool) : su_handler unit :=
  nm_select_unix_stop ;;;
  hwhen thread (emit SuJoinThread) ;;;
  emit SuClosePipe.

Definition nm_select_unix_run : su_handler unit := emit SuCreateThread.

(** [nm_select_unix_udp_create] and [create] of TCP: the socket is added to the list. *)
Definition nm_select_unix_udp_create (socket : nat) (allocated : bool) : su_handler np_error_code :=
  if negb allocated then hret NABTO_EC_OUT_OF_MEMORY
  else
    hmod (fun ctx => ctx {{ su_udpSockets ::= fun l => l ++ [(socket, udp_socket_new)] }}) ;;;
    nm_select_unix_notify ;;;
    hret NABTO_EC_OK.

Definition tcp_create (socket : nat) : su_handler np_error_code :=
  hmod (fun ctx => ctx {{ su_tcpSockets ::= fun l => l ++ [(socket, tcp_socket_new)] }}) ;;;
  hret NABTO_EC_OK.

(** ** The sets *)

Definition NP_MAX (a b : Z) : Z := if b <? a then a else b.

Definition watch_read (fd : Z) : su_uhandler unit :=
  let+ ctx := ulift hget in
  let+ s := uof (FD_SET fd (su_readFds ctx)) in
  ulift (hmod (fun ctx => ctx {{ su_readFds := s; su_maxReadFd ::= fun m => NP_MAX m fd }})).

Definition watch_write (fd : Z) : su_uhandler unit :=
  let+ ctx := ulift hget in
  let+ s := uof (FD_SET fd (su_writeFds ctx)) in
  ulift (hmod (fun ctx => ctx {{ su_writeFds := s; su_maxWriteFd ::= fun m => NP_MAX m fd }})).

Definition is_set {A} (o : option A) : bool := match o with Some _ => true | None => false end.

Definition uwhen {S E} (b : bool) (m : uhandler S E unit) : uhandler S E unit := if b then m else ulift hskip.

Fixpoint nm_select_unix_udp_build_fd_sets (sockets : list (nat * np_udp_socket)) : su_uhandler unit :=
  match sockets with
  | [] => ulift hskip
  | (_, s) :: rest =>
      let+ _ := uwhen (is_set (us_recv s) && negb (us_sock s =? -1)) (watch_read (us_sock s)) in
      nm_select_unix_udp_build_fd_sets rest
  end.

Fixpoint nm_select_unix_tcp_build_fd_sets (sockets : list (nat * np_tcp_socket)) : su_uhandler unit :=
  match sockets with
  | [] => ulift hskip
  | (_, s) :: rest =>
      let+ _ := uwhen (is_set (ts_read s)) (watch_read (ts_fd s)) in
      let+ _ := uwhen (is_set (ts_write s) || is_set (ts_connect s)) (watch_write (ts_fd s)) in
      nm_select_unix_tcp_build_fd_sets rest
  end.

Definition build_fd_sets : su_uhandler unit :=
  let+ _ := ulift (hmod (fun ctx => ctx {{ su_readFds := []; su_writeFds := [] }})) in
  let+ _ := ulift (hmod (fun ctx => ctx {{ su_maxReadFd := 0; su_maxWriteFd := 0 }})) in
  let+ ctx := ulift hget in
  let+ _ := watch_read (su_pipefd ctx).1 in
  let+ _ := watch_read (su_pipefd ctx).2 in
  let+ _ := nm_select_unix_udp_build_fd_sets (su_udpSockets ctx) in
  nm_select_unix_tcp_build_fd_sets (su_tcpSockets ctx).

(** The argument of [select]. *)
Definition select_nfds (ctx : nm_select_unix) : Z := NP_MAX (su_maxReadFd ctx) (su_maxWriteFd ctx) + 1.

(** [answer]: the sets after [select], or nothing when it fails: then they are as they were. *)
Definition nm_select_unix_inf_wait (answer : option (fd_set * fd_set)) : su_uhandler unit :=
  let+ _ := build_fd_sets in
  let+ ctx := ulift hget in
  let+ _ := ulift (emit (SuSelect (select_nfds ctx))) in
  match answer with
  | Some (r, w) => ulift (hmod (fun ctx => ctx {{ su_readFds := r; su_writeFds := w }}))
  | None => ulift hskip
  end.

(** ** Handling what is ready *)

Definition udp_calls (socket : nat) (t : list os_call) : list select_call := SuUdp socket <$> t.
Definition tcp_calls (socket : nat) (t : list os_call) : list select_call := SuTcp socket <$> t.

Fixpoint nm_select_unix_udp_handle_select (readFds : fd_set) (sockets : list (nat * np_udp_socket)) :
    cres (list (nat * np_udp_socket) * list select_call) :=
  match sockets with
  | [] => Def ([], [])
  | (n, s) :: rest =>
      cres_bind (if us_sock s =? -1 then Def false else FD_ISSET (us_sock s) readFds) (fun ready =>
      let m := if ready then nm_select_unix_udp_handle_event else hskip in
      cres_bind (nm_select_unix_udp_handle_select readFds rest) (fun '(rest, t) =>
      Def ((n, exec m s) :: rest, udp_calls n (trace m s) ++ t)))
  end.

(** What the system answers for a TCP socket. *)
Record tcp_answers : Type := mk_ta {
  ta_recv : list Z + Z;
  ta_so_error : option Z;
  ta_sent : Z
}.

Fixpoint nm_select_unix_tcp_handle_select (readFds writeFds : fd_set) (answers : nat -> tcp_answers)
    (sockets : list (nat * np_tcp_socket)) : cres (list (nat * np_tcp_socket) * list select_call) :=
  match sockets with
  | [] => Def ([], [])
  | (n, s) :: rest =>
      cres_bind (FD_ISSET (ts_fd s) readFds) (fun readable =>
      cres_bind (FD_ISSET (ts_fd s) writeFds) (fun writable =>
      let an := answers n in
      let m := tcp_handle_ready readable writable (ta_recv an) (ta_so_error an) (ta_sent an) in
      cres_bind (nm_select_unix_tcp_handle_select readFds writeFds answers rest) (fun '(rest, t) =>
      Def ((n, exec m s) :: rest, tcp_calls n (trace m s) ++ t))))
  end.

Definition emit_all (t : list select_call) : su_handler unit := fun ctx => (tt, ctx, t).

Definition read_pipe (fd : Z) : su_uhandler unit :=
  let+ ctx := ulift hget in
  let+ ready := uof (FD_ISSET fd (su_readFds ctx)) in
  ulift (hwhen ready (emit (SuReadPipe fd))).

(** The number of descriptors that [select] answers is not looked at. *)
Definition nm_select_unix_read (answers : nat -> tcp_answers) : su_uhandler unit :=
  let+ ctx := ulift hget in
  let+ _ := read_pipe (su_pipefd ctx).1 in
  let+ _ := read_pipe (su_pipefd ctx).2 in
  let+ udp := uof (nm_select_unix_udp_handle_select (su_readFds ctx) (su_udpSockets ctx)) in
  let+ _ := ulift (hmod (fun ctx => ctx {{ su_udpSockets := udp.1 }}) ;;; emit_all udp.2) in
  let+ tcp := uof (nm_select_unix_tcp_handle_select (su_readFds ctx) (su_writeFds ctx) answers (su_tcpSockets ctx)) in
  ulift (hmod (fun ctx => ctx {{ su_tcpSockets := tcp.1 }}) ;;; emit_all tcp.2).

(** One round of [network_thread]; it answers whether the thread ends. *)
Definition network_thread (answer : option (fd_set * fd_set)) (answers : nat -> tcp_answers) : su_uhandler bool :=
  let+ ctx := ulift hget in
  if su_stopped ctx then ulift (hret true)
  else
    let+ _ := nm_select_unix_inf_wait answer in
    let+ _ := nm_select_unix_read answers in
    ulift (hret false).

(** ** A round of the thread *)

Definition valid_fd (fd : Z) : Prop := 0 <= fd < FD_SETSIZE.

#[global] Instance valid_fd_dec fd : Decision (valid_fd fd).
Proof. unfold valid_fd. apply _. Defined.

Lemma fd_set_valid fd s : valid_fd fd -> FD_SET fd s = Def (fd :: s).
Proof.
  intros [H1 H2]. unfold FD_SET. apply Z.leb_le in H1. apply Z.ltb_lt in H2. by rewrite H1, H2.
Qed.

Lemma fd_isset_valid fd s : valid_fd fd -> FD_ISSET fd s = Def (bool_decide (fd ∈ s)).
Proof.
  intros [H1 H2]. unfold FD_ISSET. apply Z.leb_le in H1. apply Z.ltb_lt in H2. by rewrite H1, H2.
Qed.

(** The descriptors that wait for data, and for room. *)
Definition udp_waits (p : nat * np_udp_socket) : bool := is_set (us_recv p.2) && negb (us_sock p.2 =? -1).
Definition udp_reads (l : list (nat * np_udp_socket)) : list Z :=
  (fun p => us_sock p.2) <$> List.filter udp_waits l.
Definition tcp_reads (l : list (nat * np_tcp_socket)) : list Z :=
  (fun p => ts_fd p.2) <$> List.filter (fun p => is_set (ts_read p.2)) l.
Definition tcp_writes (l : list (nat * np_tcp_socket)) : list Z :=
  (fun p => ts_fd p.2) <$> List.filter (fun p => is_set (ts_write p.2) || is_set (ts_connect p.2)) l.
Definition read_wanted (ctx : nm_select_unix) : list Z :=
  (su_pipefd ctx).1 :: (su_pipefd ctx).2 :: udp_reads (su_udpSockets ctx) ++ tcp_reads (su_tcpSockets ctx).
Definition write_wanted (ctx : nm_select_unix) : list Z := tcp_writes (su_tcpSockets ctx).

(** A context in which the sets and their maxima were extended. *)
Record extended (ctx : nm_select_unix) (r w : list Z) (ctx' : nm_select_unix) : Prop := {
  ex_read : forall fd, fd ∈ su_readFds ctx' <-> fd ∈ su_readFds ctx \/ fd ∈ r;
  ex_write : forall fd, fd ∈ su_writeFds ctx' <-> fd ∈ su_writeFds ctx \/ fd ∈ w;
  ex_maxRead : su_maxReadFd ctx <= su_maxReadFd ctx' /\ forall fd, fd ∈ r -> fd <= su_maxReadFd ctx';
  ex_maxWrite : su_maxWriteFd ctx <= su_maxWriteFd ctx' /\ forall fd, fd ∈ w -> fd <= su_maxWriteFd ctx';
  ex_rest : su_pipefd ctx' = su_pipefd ctx /\ su_udpSockets ctx' = su_udpSockets ctx /\
            su_tcpSockets ctx' = su_tcpSockets ctx /\ su_stopped ctx' = su_stopped ctx
}.

Definition extends (m : su_uhandler unit) (ctx : nm_select_unix) (r w : list Z) : Prop :=
  exists ctx', m ctx = Def (tt, ctx', []) /\ extended ctx r w ctx'.

Lemma extended_refl ctx : extended ctx [] [] ctx.
Proof. split; try done; try (split; [lia | by intros fd ?%elem_of_nil]); intros fd; rewrite elem_of_nil; tauto. Qed.

Lemma extends_skip ctx : extends (ulift hskip) ctx [] [].
Proof. exists ctx. split; [done | apply extended_refl]. Qed.

Lemma extends_seq m k ctx r1 w1 r2 w2 :
  extends m ctx r1 w1 -> (forall ctx1, extended ctx r1 w1 ctx1 -> extends k ctx1 r2 w2) ->
  extends (let+ _ := m in k) ctx (r1 ++ r2) (w1 ++ w2).
Proof.
  intros (c1 & E1 & H1) Hk. destruct (Hk c1 H1) as (c2 & E2 & H2).
  exists c2. split; [unfold ubind; by rewrite E1, E2 |].
  destruct H1 as [R1 W1 [M1 N1] [P1 Q1] S1], H2 as [R2 W2 [M2 N2] [P2 Q2] S2]. split.
  - intros fd. rewrite R2, R1, elem_of_app. tauto.
  - intros fd. rewrite W2, W1, elem_of_app. tauto.
  - split; [lia |]. intros fd [Hf | Hf]%elem_of_app; [specialize (N1 fd Hf); lia | by apply N2].
  - split; [lia |]. intros fd [Hf | Hf]%elem_of_app; [specialize (Q1 fd Hf); lia | by apply Q2].
  - destruct S1 as (? & ? & ? & ?), S2 as (? & ? & ? & ?). split_and!; congruence.
Qed.

Lemma np_max_ge a b : a <= NP_MAX a b /\ b <= NP_MAX a b.
Proof. unfold NP_MAX. destruct (Z.ltb_spec b a); lia. Qed.

Lemma watch_read_extends fd ctx : valid_fd fd -> extends (watch_read fd) ctx [fd] [].
Proof.
  intros Hv. destruct ctx as [r w mr mw p u t st]. exists (mk_su (fd :: r) w (NP_MAX mr fd) mw p u t st).
  split; [unfold watch_read; rewrite u_hget, fd_set_valid, u_def by done; reflexivity |]. pose proof (np_max_ge mr fd). split; cbn; try done.
  - intros fd'. rewrite !elem_of_cons, !elem_of_nil. tauto.
  - intros fd'. rewrite elem_of_nil. tauto.
  - split; [lia |]. intros fd' ->%list_elem_of_singleton. lia.
  - split; [lia |]. by intros fd' ?%elem_of_nil.
Qed.

Lemma watch_write_extends fd ctx : valid_fd fd -> extends (watch_write fd) ctx [] [fd].
Proof.
  intros Hv. destruct ctx as [r w mr mw p u t st]. exists (mk_su r (fd :: w) mr (NP_MAX mw fd) p u t st).
  split; [unfold watch_write; rewrite u_hget, fd_set_valid, u_def by done; reflexivity |]. pose proof (np_max_ge mw fd). split; cbn; try done.
  - intros fd'. rewrite elem_of_nil. tauto.
  - intros fd'. rewrite !elem_of_cons, !elem_of_nil. tauto.
  - split; [lia |]. by intros fd' ?%elem_of_nil.
  - split; [lia |]. intros fd' ->%list_elem_of_singleton. lia.
Qed.

Lemma udp_build_extends l : forall ctx,
  Forall valid_fd (udp_reads l) -> extends (nm_select_unix_udp_build_fd_sets l) ctx (udp_reads l) [].
Proof.
  induction l as [| [n s] l IH]; intros ctx Hv; [apply extends_skip |].
  unfold udp_reads in *. cbn [nm_select_unix_udp_build_fd_sets List.filter] in *. unfold udp_waits at 1 2. unfold udp_waits at 1 in Hv.
  cbn [snd] in *. destruct (is_set (us_recv s) && negb (us_sock s =? -1)); cbn [uwhen] in *.
  - apply (extends_seq _ _ ctx [_] []); [apply watch_read_extends; by apply Forall_cons in Hv as [? _] |].
    intros ctx1 _. apply IH. by apply Forall_cons in Hv as [_ ?].
  - apply (extends_seq _ _ ctx [] []); [apply extends_skip |]. intros ctx1 _. by apply IH.
Qed.

Lemma tcp_build_extends l : forall ctx,
  Forall valid_fd (tcp_reads l ++ tcp_writes l) ->
  extends (nm_select_unix_tcp_build_fd_sets l) ctx (tcp_reads l) (tcp_writes l).
Proof.
  induction l as [| [n s] l IH]; intros ctx Hv; [apply extends_skip |]. apply Forall_app in Hv as [Hr Hw].
  unfold tcp_reads, tcp_writes in *. cbn [nm_select_unix_tcp_build_fd_sets List.filter snd] in *.
  set (wants := is_set (ts_write s) || is_set (ts_connect s)) in *.
  replace (_ <$> (if is_set (ts_read s) then _ else _)) with
    ((if is_set (ts_read s) then [ts_fd s] else []) ++
     ((fun p : nat * np_tcp_socket => ts_fd p.2) <$> List.filter (fun p => is_set (ts_read p.2)) l))
    by (by destruct (is_set (ts_read s))).
  replace (_ <$> (if wants then _ else _)) with
    ([] ++ (if wants then [ts_fd s] else []) ++
     ((fun p : nat * np_tcp_socket => ts_fd p.2) <$>
        List.filter (fun p => is_set (ts_write p.2) || is_set (ts_connect p.2)) l)) by (by destruct wants).
  apply extends_seq.
  - destruct (is_set (ts_read s)); [apply watch_read_extends; by apply Forall_cons in Hr as [? _] | apply extends_skip].
  - intros ctx1 _. change (?a <$> List.filter (fun p => is_set (ts_read p.2)) l) with
      ([] ++ (a <$> List.filter (fun p => is_set (ts_read p.2)) l)). apply extends_seq.
    + destruct wants; [apply watch_write_extends; by apply Forall_cons in Hw as [? _] | apply extends_skip].
    + intros ctx2 _. apply IH. apply Forall_app. split.
      * destruct (is_set (ts_read s)); [by apply Forall_cons in Hr as [_ ?] | done].
      * destruct wants; [by apply Forall_cons in Hw as [_ ?] | done].
Qed.

(** The sets hold exactly what is waited for, and the argument of [select] is above all of it. *)
Lemma build_fd_sets_exact ctx :
  Forall valid_fd (read_wanted ctx) -> Forall valid_fd (write_wanted ctx) ->
  exists ctx', build_fd_sets ctx = Def (tt, ctx', []) /\
    (forall fd, fd ∈ su_readFds ctx' <-> fd ∈ read_wanted ctx) /\
    (forall fd, fd ∈ su_writeFds ctx' <-> fd ∈ write_wanted ctx) /\
    (forall fd, fd ∈ read_wanted ctx \/ fd ∈ write_wanted ctx -> fd < select_nfds ctx') /\
    su_pipefd ctx' = su_pipefd ctx /\ su_udpSockets ctx' = su_udpSockets ctx /\
    su_tcpSockets ctx' = su_tcpSockets ctx /\ su_stopped ctx' = su_stopped ctx.
Proof.
  intros Hr Hw. unfold build_fd_sets. rewrite !u_hmod, u_hget.
  set (c0 := _ {{ su_maxReadFd := 0; su_maxWriteFd := 0 }}).
  assert (E : su_readFds c0 = [] /\ su_writeFds c0 = [] /\ su_pipefd c0 = su_pipefd ctx /\
    su_udpSockets c0 = su_udpSockets ctx /\ su_tcpSockets c0 = su_tcpSockets ctx /\ su_stopped c0 = su_stopped ctx)
    by (by destruct ctx).
  destruct E as (Er & Ew & Ep & Eu & Et & Es). rewrite Ep, Eu, Et. clearbody c0.
  unfold read_wanted in *. apply Forall_cons in Hr as [Hp1 [Hp2 Hr]%Forall_cons]. apply Forall_app in Hr as [Hu Ht].
  assert (Hx : extends (let+ _ := watch_read (su_pipefd ctx).1 in let+ _ := watch_read (su_pipefd ctx).2 in
            let+ _ := nm_select_unix_udp_build_fd_sets (su_udpSockets ctx) in
            nm_select_unix_tcp_build_fd_sets (su_tcpSockets ctx)) c0
            ([(su_pipefd ctx).1] ++ [(su_pipefd ctx).2] ++ udp_reads (su_udpSockets ctx) ++ tcp_reads (su_tcpSockets ctx))
            ([] ++ [] ++ [] ++ tcp_writes (su_tcpSockets ctx))).
  { apply extends_seq; [by apply watch_read_extends | intros ? _]. apply extends_seq; [by apply watch_read_extends | intros ? _].
    apply extends_seq; [by apply udp_build_extends | intros ? _]. apply tcp_build_extends. by apply Forall_app. }
  destruct Hx as (ctx' & Hrun & [R W [_ M] [_ N] (S1 & S2 & S3 & S4)]). exists ctx'.
  split; [done |]. split_and!; try congruence.
  - intros fd. rewrite R, Er, elem_of_nil. apply (left_id False or).
  - intros fd. rewrite W, Ew, elem_of_nil. apply (left_id False or).
  - intros fd Hfd. unfold select_nfds. pose proof (np_max_ge (su_maxReadFd ctx') (su_maxWriteFd ctx')).
    destruct Hfd as [Hfd | Hfd]; [specialize (M fd Hfd) | specialize (N fd Hfd)]; lia.
Qed.

(** What a socket does when it is ready. *)
Definition udp_ready (r : fd_set) (s : np_udp_socket) : us_handler unit :=
  if negb (us_sock s =? -1) && bool_decide (us_sock s ∈ r) then nm_select_unix_udp_handle_event else hskip.
Definition tcp_ready (r w : fd_set) (an : tcp_answers) (s : np_tcp_socket) : ts_handler unit :=
  tcp_handle_ready (bool_decide (ts_fd s ∈ r)) (bool_decide (ts_fd s ∈ w)) (ta_recv an) (ta_so_error an) (ta_sent an).

Lemma udp_handle_run r l :
  Forall (fun p => us_sock p.2 = -1 \/ valid_fd (us_sock p.2)) l ->
  nm_select_unix_udp_handle_select r l =
    Def ((fun p => (p.1, exec (udp_ready r p.2) p.2)) <$> l,
         mjoin ((fun p => udp_calls p.1 (trace (udp_ready r p.2) p.2)) <$> l)).
Proof.
  induction l as [| [n s] l IH]; intros Hv; [done |]. apply Forall_cons in Hv as [Hs Hv].
  cbn [nm_select_unix_udp_handle_select]. rewrite (IH Hv). cbn [fst snd] in *. unfold udp_ready.
  destruct (Z.eqb_spec (us_sock s) (-1)) as [E | Hne].
  - cbn. rewrite E. reflexivity.
  - destruct Hs as [? | Hs]; [done |]. rewrite fd_isset_valid by done. cbn.
    destruct (Z.eqb_spec (us_sock s) (-1)); [done |]. reflexivity.
Qed.

Lemma tcp_handle_run r w answers l :
  Forall (fun p => valid_fd (ts_fd p.2)) l ->
  nm_select_unix_tcp_handle_select r w answers l =
    Def ((fun p => (p.1, exec (tcp_ready r w (answers p.1) p.2) p.2)) <$> l,
         mjoin ((fun p => tcp_calls p.1 (trace (tcp_ready r w (answers p.1) p.2) p.2)) <$> l)).
Proof.
  induction l as [| [n s] l IH]; intros Hv; [done |]. apply Forall_cons in Hv as [Hs Hv].
  cbn [nm_select_unix_tcp_handle_select]. cbn [snd] in Hs. rewrite !fd_isset_valid, (IH Hv) by done. reflexivity.
Qed.

Lemma reads_valid l : Forall (fun p => valid_fd (ts_fd p.2)) l -> Forall valid_fd (tcp_reads l ++ tcp_writes l).
Proof.
  intros Hl. rewrite Forall_forall in Hl. apply Forall_forall. intros fd Hfd.
  assert (Hin : exists p, p ∈ l /\ fd = ts_fd p.2).
  { apply elem_of_app in Hfd as [Hfd | Hfd]; apply list_elem_of_fmap in Hfd as (p & -> & Hp); exists p; split; try done;
      apply list_elem_of_In in Hp; apply List.filter_In in Hp as [Hp _]; by apply list_elem_of_In. }
  destruct Hin as (p & Hp & ->). by apply Hl.
Qed.

Lemma udp_reads_valid l :
  Forall (fun p => us_sock p.2 = -1 \/ valid_fd (us_sock p.2)) l -> Forall valid_fd (udp_reads l).
Proof.
  intros Hl. rewrite Forall_forall in Hl. apply Forall_forall. intros fd Hfd.
  apply list_elem_of_fmap in Hfd as (p & -> & Hp). apply list_elem_of_In in Hp. apply List.filter_In in Hp as [Hp Hw].
  unfold udp_waits in Hw. apply andb_true_iff in Hw as [_ Hw]. apply negb_true_iff, Z.eqb_neq in Hw.
  destruct (Hl p) as [? | ?]; [by apply list_elem_of_In | done | done].
Qed.

Lemma read_pipe_run fd ctx :
  valid_fd fd ->
  read_pipe fd ctx = Def (tt, ctx, if bool_decide (fd ∈ su_readFds ctx) then [SuReadPipe fd] else []).
Proof.
  intros Hv. unfold read_pipe. rewrite u_hget, fd_isset_valid, u_def by done. by destruct (bool_decide _).
Qed.

Lemma read_run answers ctx :
  valid_fd (su_pipefd ctx).1 -> valid_fd (su_pipefd ctx).2 ->
  Forall (fun p => us_sock p.2 = -1 \/ valid_fd (us_sock p.2)) (su_udpSockets ctx) ->
  Forall (fun p => valid_fd (ts_fd p.2)) (su_tcpSockets ctx) ->
  exists ctx' t, nm_select_unix_read answers ctx = Def (tt, ctx', t) /\
    su_udpSockets ctx' = (fun p => (p.1, exec (udp_ready (su_readFds ctx) p.2) p.2)) <$> su_udpSockets ctx /\
    su_tcpSockets ctx' =
      (fun p => (p.1, exec (tcp_ready (su_readFds ctx) (su_writeFds ctx) (answers p.1) p.2) p.2)) <$> su_tcpSockets ctx.
Proof.
  intros Hp1 Hp2 Hudp Htcp. unfold nm_select_unix_read. rewrite u_hget. unfold ubind at 1. rewrite read_pipe_run by done.
  unfold ubind at 1. rewrite read_pipe_run by done. rewrite (udp_handle_run _ _ Hudp), u_def. unfold ubind at 1.
  cbn [ulift]. rewrite hmod_seq. unfold emit_all. rewrite (tcp_handle_run _ _ _ _ Htcp), u_def. cbn [ulift].
  rewrite hmod_seq. eexists _, _. split; [reflexivity |]. by destruct ctx.
Qed.


(** A TCP socket that is created and not connected has no descriptor, and the thread asks the sets for it when it
    wakes up: that is undefined. *)
Lemma unconnected_socket_undefined r w answers n l l' :
  is_def (nm_select_unix_tcp_handle_select r w answers (l ++ (n, tcp_socket_new) :: l')) = false.
Proof.
  induction l as [| [m s] l IH]; [done |]. cbn [app nm_select_unix_tcp_handle_select].
  destruct (FD_ISSET (ts_fd s) r); [| done]. destruct (FD_ISSET (ts_fd s) w); [| done]. cbn.
  by destruct (nm_select_unix_tcp_handle_select r w answers (l ++ (n, tcp_socket_new) :: l')).
Qed.

(** When [select] fails the sets are as they were, and everything counts as ready: the thread reads from the
    empty pipe, which waits, and a socket that connects is taken to be connected. *)
Example failed_select_reads_pipe :
  let s := mk_ts 9 (Some 1%nat) None [] None 0 false in
  let ctx := mk_su [] [] 0 0 (5, 6) [] [(0%nat, s)] false in
  exists ctx', network_thread None (fun _ => mk_ta (inr EAGAIN) (Some 0) 0) ctx =
    Def (false, ctx', [SuSelect 10; SuReadPipe 5; SuReadPipe 6; SuTcp 0 (OsPost 1 NABTO_EC_OK)]).
Proof. eexists. reflexivity. Qed.

(** ** Witness *)

