(* ===== verification/Libevent.v ===== *)
(** * Sockets of the libevent module (nm_libevent_udp.c, nm_libevent_mdns_udp_bind.c,
      nm_libevent_tcp.c)

    The second implementation of the sockets, over libevent: events of descriptors for UDP,
    buffer events for TCP. What libevent and the operating system answer are arguments, the
    calls to them are the trace. Built for Linux. The UDP sockets implement the interface of
    Udp.v. *)

From S2P Require Import Prelude Platform Udp.

#[local] Open Scope Z_scope.
#[local] Open Scope list_scope.
#[local] Open Scope handler_scope.

(** nm_libevent_types.h *)
Definition NM_INVALID_SOCKET : Z := -1.
Definition ERR_IS_EAGAIN (e : Z) : bool := e =? 11.
(** EADDRNOTAVAIL, ENETUNREACH, EAFNOSUPPORT *)
Definition ERR_IS_EXPECTED (e : Z) : bool := (e =? 99) || (e =? 101) || (e =? 97).

Inductive le_call : Type :=
| LeSocket (type : np_ip_address_type)
| LeSetOption (fd : Z) (option : string) (value : Z)
| LeJoinGroup (fd : Z) (type : np_ip_address_type) (interface : Z)
| LeBind (fd : Z) (type : np_ip_address_type) (port : Z)
| LeSendTo (fd : Z) (address : np_ip_address) (port : Z) (data : list Z)
| LeRecvFrom (fd : Z) (size : nat)
| LeClose (fd : Z)
| LeShutdown
| LeEventNew (fd : Z)
| LeEventAdd
| LeEventDel
| LeBevNew
| LeBevSetCb
| LeBevEnable (read write : bool)
| LeBevDisableRead
| LeBevConnect (address : list Z) (port : Z)
| LeBevWrite (data : list Z)
| LeBevRead (size : nat)
| LeBevFree
| LePost (ev : nat) (ec : np_error_code)
| LeFree.

Definition le_resolve {S} (ev : nat) (ec : np_error_code) : handler S le_call unit := emit (LePost ev ec).

Definition le_resolved (c : le_call) : option (nat * np_error_code) :=
  match c with LePost ev ec => Some (ev, ec) | _ => None end.

(** ** UDP *)

(** [lu_event] is the descriptor of the event, if there is one. *)
Record np_udp_socket : Type := mk_lu {
  lu_recv : option nat;
  lu_type : np_ip_address_type;
  lu_sock : Z;
  lu_aborted : bool;
  lu_event : option Z
}.

Definition lu_handler (A : Type) : Type := handler np_udp_socket le_call A.

(** [calloc]: the descriptor is 0, a valid one. *)
Definition udp_create : np_udp_socket := mk_lu None NABTO_IPV4 0 false None.

Definition nm_libevent_udp_add_to_libevent : lu_handler unit :=
  let* s := hget in
  emit (LeEventNew (lu_sock s)) ;;;
  hmod (fun s => s {{ lu_event := Some (lu_sock s) }}).

Definition complete_recv_wait (ec : np_error_code) : lu_handler unit :=
  let* s := hget in
  match lu_recv s with
  | Some ev => hmod (fun s => s {{ lu_recv := None }}) ;;; le_resolve ev ec
  | None => hskip
  end.

Definition udp_abort : lu_handler unit :=
  let* s := hget in
  if lu_aborted s then hskip
  else hmod (fun s => s {{ lu_aborted := true }}) ;;; complete_recv_wait NABTO_EC_ABORTED.

(** [read]: the event is one for reading. *)
Definition udp_ready_callback (read : bool) : lu_handler unit :=
  if read then complete_recv_wait NABTO_EC_OK else hskip.

Definition udp_destroy : lu_handler unit :=
  udp_abort ;;;
  let* s := hget in
  match lu_event s with
  | Some _ => emit LeEventDel ;;; hmod (fun s => s {{ lu_event := None }})
  | None => hskip
  end ;;;
  emit LeFree.

(** What [socket], [setsockopt] and [bind] answer. *)
Record le_bind : Type := mk_lb {
  lb_sock6 : Z;
  lb_sock4 : Z;
  lb_v6only : bool;
  lb_bind : bool
}.

(** With [SOCK_NONBLOCK] the socket is as [socket] yields it. *)
Definition nm_libevent_udp_create_nonblocking_socket {S} (type : np_ip_address_type) (sock : Z) : handler S le_call Z :=
  emit (LeSocket type) ;;; hret sock.

Definition udp_create_socket_any (an : le_bind) : lu_handler np_error_code :=
  let* sock := nm_libevent_udp_create_nonblocking_socket NABTO_IPV6 (lb_sock6 an) in
  if sock =? NM_INVALID_SOCKET then
    let* sock := nm_libevent_udp_create_nonblocking_socket NABTO_IPV4 (lb_sock4 an) in
    let* s := hget in
    if lu_sock s =? NM_INVALID_SOCKET then hret NABTO_EC_UDP_SOCKET_CREATION_ERROR
    else
      hmod (fun s => s {{ lu_type := NABTO_IPV4 }}) ;;;
      hmod (fun s => s {{ lu_sock := sock }}) ;;;
      hret NABTO_EC_OK
  else
    hmod (fun s => s {{ lu_type := NABTO_IPV6 }}) ;;;
    emit (LeSetOption sock "IPV6_V6ONLY" 0) ;;;
    if negb (lb_v6only an) then
      let* s := hget in
      emit (LeClose (lu_sock s)) ;;;
      hret NABTO_EC_UDP_SOCKET_CREATION_ERROR
    else
      hmod (fun s => s {{ lu_sock := sock }}) ;;;
      hret NABTO_EC_OK.

Definition udp_bind_port (port : Z) (an : le_bind) : lu_handler np_error_code :=
  let* s := hget in
  emit (LeBind (lu_sock s) (lu_type s) port) ;;;
  hret (if lb_bind an then NABTO_EC_OK else NABTO_EC_UDP_SOCKET_CREATION_ERROR).

Definition udp_async_bind_port_ec (port : Z) (an : le_bind) : lu_handler np_error_code :=
  let* s := hget in
  if lu_aborted s then hret NABTO_EC_ABORTED
  else
    let* ec := udp_create_socket_any an in
    if is_error ec then hret ec
    else
      let* ec := udp_bind_port port an in
      (if is_error ec then let* s := hget in emit (LeClose (lu_sock s)) else hskip) ;;;
      nm_libevent_udp_add_to_libevent ;;;
      hret NABTO_EC_OK.

Definition udp_async_bind_port (port : Z) (an : le_bind) (completionEvent : nat) : lu_handler unit :=
  let* ec := udp_async_bind_port_ec port an in
  le_resolve completionEvent ec.

(** [sendto]: [None] when it sent the packet, otherwise the error. *)
Definition udp_send_to (ep : np_udp_endpoint) (buffer : list Z) (err : option Z) : lu_handler np_error_code :=
  let* s := hget in
  let send (ip : np_ip_address) :=
    emit (LeSendTo (lu_sock s) ip (ep_port ep) buffer) ;;;
    hret (match err with
          | None => NABTO_EC_OK
          | Some status => if ERR_IS_EAGAIN status then NABTO_EC_OK else NABTO_EC_FAILED_TO_SEND_PACKET
          end) in
  if bool_decide (lu_type s = ip_type (ep_ip ep)) then send (ep_ip ep)
  else if bool_decide (lu_type s = NABTO_IPV6) && bool_decide (ip_type (ep_ip ep) = NABTO_IPV4)
  then send (np_ip_convert_v4_to_v4_mapped (ep_ip ep) zero_ip)
  else if bool_decide (lu_type s = NABTO_IPV4) && np_ip_is_v4_mapped (ep_ip ep)
  then send (np_ip_convert_v4_mapped_to_v4 (ep_ip ep) zero_ip)
  else hret NABTO_EC_FAILED_TO_SEND_PACKET.

Definition udp_async_send_to_ec (ep : np_udp_endpoint) (buffer : list Z) (err : option Z) : lu_handler np_error_code :=
  let* s := hget in
  if lu_aborted s then hret NABTO_EC_ABORTED else udp_send_to ep buffer err.

Definition udp_async_send_to (ep : np_udp_endpoint) (buffer : list Z) (err : option Z) (completionEvent : nat) :
    lu_handler unit :=
  let* ec := udp_async_send_to_ec ep buffer err in
  le_resolve completionEvent ec.

(** [event_add] of a socket without event is undefined. *)
Definition udp_async_recv_wait (completionEvent : nat) : uhandler np_udp_socket le_call unit :=
  let+ s := ulift hget in
  if lu_aborted s then ulift (le_resolve completionEvent NABTO_EC_ABORTED)
  else
    match lu_recv s with
    | Some _ => ulift (le_resolve completionEvent NABTO_EC_OPERATION_IN_PROGRESS)
    | None =>
        let+ _ := ulift (hmod (fun s => s {{ lu_recv := Some completionEvent }})) in
        match lu_event s with
        | Some _ => ulift (emit LeEventAdd)
        | None => uof UB
        end
    end.

(** [recvfrom]: the data or the error; [address] and [port] are those of the sender. *)
Definition udp_recv_from (size : nat) (r : list Z + Z) (address : list Z) (port : Z) :
    lu_handler (np_error_code * np_udp_endpoint * option (list Z)) :=
  let* s := hget in
  emit (LeRecvFrom (lu_sock s) size) ;;;
  let ep := mk_ep (mk_ip (lu_type s) address) port in
  hret (match r with
        | inl data => (NABTO_EC_OK, ep, Some data)
        | inr status =>
            (if ERR_IS_EAGAIN status || ERR_IS_EXPECTED status then NABTO_EC_AGAIN else NABTO_EC_UDP_SOCKET_ERROR,
             ep, None)
        end).

(** [port]: the one of [getsockname]. *)
Definition udp_get_local_port (port : Z) (s : np_udp_socket) : Z := if lu_aborted s then 0 else port.

(** ** Sockets of mDNS *)

Definition udp_create_socket_ipv6 (sock : Z) : lu_handler np_error_code :=
  let* sock := nm_libevent_udp_create_nonblocking_socket NABTO_IPV6 sock in
  if sock =? NM_INVALID_SOCKET then hret NABTO_EC_UDP_SOCKET_CREATION_ERROR
  else
    emit (LeSetOption sock "IPV6_V6ONLY" 0) ;;;
    hmod (fun s => s {{ lu_type := NABTO_IPV6 }}) ;;;
    hmod (fun s => s {{ lu_sock := sock }}) ;;;
    hret NABTO_EC_OK.

Definition udp_create_socket_ipv4 (sock : Z) : lu_handler np_error_code :=
  let* sock := nm_libevent_udp_create_nonblocking_socket NABTO_IPV4 sock in
  if sock =? NM_INVALID_SOCKET then hret NABTO_EC_UDP_SOCKET_CREATION_ERROR
  else
    hmod (fun s => s {{ lu_type := NABTO_IPV4 }}) ;;;
    hmod (fun s => s {{ lu_sock := sock }}) ;;;
    hret NABTO_EC_OK.

(** What the system answers to a bind for mDNS: the socket, whether the options can be set and
    the port be bound, and the interfaces, whether they have an address, and their index. *)
Record le_mdns : Type := mk_lm {
  lm_sock : Z;
  lm_reuse : bool;
  lm_reusePort : bool;
  lm_bind : bool;
  lm_interfaces : list (bool * Z)
}.

Definition libevent_init_mdns_socket (type : np_ip_address_type) (sock : Z) (an : le_mdns) : lu_handler bool :=
  emit (LeSetOption sock "SO_REUSEADDR" 1) ;;;
  if negb (lm_reuse an) then hret false
  else
    emit (LeSetOption sock "SO_REUSEPORT" 1) ;;;
    if negb (lm_reusePort an) then hret false
    else
      emit (LeBind sock type 5353) ;;;
      if negb (lm_bind an) then hret false else emit (LeJoinGroup sock type 0) ;;; hret true.

Definition nm_libevent_init_mdns_ipv6_socket := libevent_init_mdns_socket NABTO_IPV6.
Definition nm_libevent_init_mdns_ipv4_socket := libevent_init_mdns_socket NABTO_IPV4.

(** The membership on each interface; errors are ignored. *)
Fixpoint libevent_registration (type : np_ip_address_type) (sock : Z) (interfaces : list (bool * Z)) : lu_handler unit :=
  match interfaces with
  | [] => hskip
  | (hasAddr, index) :: rest =>
      hwhen hasAddr (emit (LeJoinGroup sock type index)) ;;; libevent_registration type sock rest
  end.

Definition nm_libevent_mdns_update_ipv4_socket_registration := libevent_registration NABTO_IPV4.
Definition nm_libevent_mdns_update_ipv6_socket_registration := libevent_registration NABTO_IPV6.

Definition udp_async_bind_mdns_ipv4_ec (an : le_mdns) : lu_handler np_error_code :=
  let* s := hget in
  if lu_aborted s then hret NABTO_EC_ABORTED
  else
    let* ec := udp_create_socket_ipv4 (lm_sock an) in
    if is_error ec then hret ec
    else
      let* s := hget in
      let* ok := nm_libevent_init_mdns_ipv4_socket (lu_sock s) an in
      if negb ok then emit (LeClose (lu_sock s)) ;;; hret NABTO_EC_UDP_SOCKET_CREATION_ERROR
      else
        nm_libevent_mdns_update_ipv4_socket_registration (lu_sock s) (lm_interfaces an) ;;;
        nm_libevent_udp_add_to_libevent ;;;
        hret NABTO_EC_OK.

Definition udp_async_bind_mdns_ipv4 (an : le_mdns) (completionEvent : nat) : lu_handler unit :=
  let* ec := udp_async_bind_mdns_ipv4_ec an in
  le_resolve completionEvent ec.

Definition udp_async_bind_mdns_ipv6_ec (an : le_mdns) : lu_handler np_error_code :=
  let* s := hget in
  if lu_aborted s then hret NABTO_EC_ABORTED
  else
    let* ec := udp_create_socket_ipv6 (lm_sock an) in
    if is_error ec then hret ec
    else
      let* s := hget in
      let* ok := nm_libevent_init_mdns_ipv6_socket (lu_sock s) an in
      if negb ok then emit (LeClose (lu_sock s)) ;;; hret NABTO_EC_UDP_SOCKET_CREATION_ERROR
      else
        nm_libevent_mdns_update_ipv6_socket_registration (lu_sock s) (lm_interfaces an) ;;;
        nm_libevent_udp_add_to_libevent ;;;
        hret NABTO_EC_OK.

Definition udp_async_bind_mdns_ipv6 (an : le_mdns) (completionEvent : nat) : lu_handler unit :=
  let* ec := udp_async_bind_mdns_ipv6_ec an in
  le_resolve completionEvent ec.

(** ** TCP *)

Record np_tcp_socket : Type := mk_lt {
  lt_write : option nat;
  lt_read : option nat;
  lt_bufferLength : nat;
  lt_connect : option nat;
  lt_aborted : bool
}.

Definition lt_handler (A : Type) : Type := handler np_tcp_socket le_call A.

Definition tcp_create : lt_handler np_error_code := emit LeBevNew ;;; hret NABTO_EC_OK.
Definition tcp_socket_created : np_tcp_socket := mk_lt None None 0 None false.

Definition resolve_tcp_connect (ec : np_error_code) : lt_handler unit :=
  let* s := hget in
  match lt_connect s with
  | Some e => hmod (fun s => s {{ lt_connect := None }}) ;;; le_resolve e ec
  | None => hskip
  end.

Definition resolve_tcp_write (ec : np_error_code) : lt_handler unit :=
  let* s := hget in
  match lt_write s with
  | Some e => hmod (fun s => s {{ lt_write := None }}) ;;; le_resolve e ec
  | None => hskip
  end.

Definition resolve_tcp_read (ec : np_error_code) : lt_handler unit :=
  let* s := hget in
  match lt_read s with
  | Some e => hmod (fun s => s {{ lt_read := None }}) ;;; le_resolve e ec
  | None => hskip
  end.

Definition tcp_eof : lt_handler unit :=
  resolve_tcp_connect NABTO_EC_EOF ;;;
  resolve_tcp_read NABTO_EC_EOF.

(** The events of the buffer event. *)
Definition tcp_bufferevent_event (connected eof error : bool) : lt_handler unit :=
  if connected then resolve_tcp_connect NABTO_EC_OK
  else if eof || error then tcp_eof
  else hskip.

(** [data]: what [bufferevent_read] yields. *)
Definition tcp_bufferevent_event_read (data : list Z) : lt_handler unit :=
  let* s := hget in
  match lt_read s with
  | None => hskip
  | Some e =>
      emit (LeBevRead (lt_bufferLength s)) ;;;
      match data with
      | [] => hskip
      | _ =>
          hmod (fun s => s {{ lt_read := None }}) ;;;
          emit LeBevDisableRead ;;;
          le_resolve e NABTO_EC_OK
      end
  end.

(** [empty]: the output buffer is empty. *)
Definition tcp_bufferevent_event_write (empty : bool) : lt_handler unit :=
  let* s := hget in
  (match lt_connect s with Some _ => resolve_tcp_connect NABTO_EC_OK | None => hskip end) ;;;
  if empty then resolve_tcp_write NABTO_EC_OK else hskip.

Definition tcp_abort : lt_handler unit :=
  let* s := hget in
  if lt_aborted s then hskip
  else
    hmod (fun s => s {{ lt_aborted := true }}) ;;;
    resolve_tcp_connect NABTO_EC_ABORTED ;;;
    resolve_tcp_read NABTO_EC_ABORTED ;;;
    resolve_tcp_write NABTO_EC_ABORTED.

Definition tcp_destroy : lt_handler unit :=
  emit LeBevDisableRead ;;;
  tcp_abort ;;;
  emit LeBevFree ;;;
  emit LeFree.

Definition tcp_async_connect (address : np_ip_address) (port : Z) (completionEvent : nat) : lt_handler unit :=
  emit LeBevSetCb ;;;
  hmod (fun s => s {{ lt_connect := Some completionEvent }}) ;;;
  emit (LeBevEnable true true) ;;;
  match ip_type address with
  | NABTO_IPV6 => emit (LeBevConnect (take 16 (ip_mem address)) port)
  | NABTO_IPV4 => emit (LeBevConnect (take 4 (ip_mem address)) port)
  end.

(** [written]: [bufferevent_write] takes the data. *)
Definition tcp_async_write (data : list Z) (written : bool) (completionEvent : nat) : lt_handler unit :=
  let* s := hget in
  match lt_write s with
  | Some _ => le_resolve completionEvent NABTO_EC_OPERATION_IN_PROGRESS
  | None =>
      hmod (fun s => s {{ lt_write := Some completionEvent }}) ;;;
      emit (LeBevEnable false true) ;;;
      emit (LeBevWrite data) ;;;
      if written then hskip
      else hmod (fun s => s {{ lt_write := None }}) ;;; le_resolve completionEvent NABTO_EC_UNKNOWN
  end.

(** While a read waits, its own event is resolved again, not the new one. *)
Definition tcp_async_read (bufferLength : nat) (data : list Z) (completionEvent : nat) : lt_handler unit :=
  let* s := hget in
  match lt_read s with
  | Some e => le_resolve e NABTO_EC_OPERATION_IN_PROGRESS
  | None =>
      hmod (fun s => s {{ lt_read := Some completionEvent }}) ;;;
      hmod (fun s => s {{ lt_bufferLength := bufferLength }}) ;;;
      emit (LeBevRead bufferLength) ;;;
      match data with
      | [] => emit (LeBevEnable true false)
      | _ =>
          hmod (fun s => s {{ lt_read := None }}) ;;;
          emit LeBevDisableRead ;;;
          le_resolve completionEvent NABTO_EC_OK
      end
  end.

Definition tcp_shutdown : lt_handler unit := emit LeShutdown.

(** ** Proofs: the interface of UDP sockets *)

#[global] Instance libevent_udp : NpUdp np_udp_socket le_call le_mdns := {
  np_udp_async_bind_mdns := fun type => match type with
    | NABTO_IPV4 => udp_async_bind_mdns_ipv4
    | NABTO_IPV6 => udp_async_bind_mdns_ipv6 end;
  np_udp_async_send_to := udp_async_send_to;
  np_udp_async_recv_wait := udp_async_recv_wait;
  np_udp_recv_from := udp_recv_from;
  np_udp_abort := udp_abort;
  udp_readable := udp_ready_callback true;
  udp_resolved := omap le_resolved;
  udp_waiting := lu_recv;
  udp_aborted := lu_aborted;
  udp_open := fun s => bool_decide (is_Some (lu_event s))
}.

Abbreviation lu_quiet := (quiet le_resolved (fun s : np_udp_socket => (lu_recv s, lu_aborted s))).

Lemma registration_quiet type sock interfaces : lu_quiet (libevent_registration type sock interfaces).
Proof.
  induction interfaces as [| [[] i] l IH]; cbn [libevent_registration]; [apply quiet_ret | |];
    (apply quiet_seq; [| done]); [by apply quiet_call | apply quiet_ret].
Qed.
#[local] Hint Resolve registration_quiet : quiet.

Definition bind_mdns_ec (type : np_ip_address_type) : le_mdns -> lu_handler np_error_code :=
  match type with NABTO_IPV4 => udp_async_bind_mdns_ipv4_ec | NABTO_IPV6 => udp_async_bind_mdns_ipv6_ec end.

Lemma libevent_bind_quiet type an : lu_quiet (bind_mdns_ec type an).
Proof.
  destruct type; unfold bind_mdns_ec, udp_async_bind_mdns_ipv4_ec, udp_async_bind_mdns_ipv6_ec,
    udp_create_socket_ipv4, udp_create_socket_ipv6, nm_libevent_udp_create_nonblocking_socket,
    nm_libevent_init_mdns_ipv4_socket, nm_libevent_init_mdns_ipv6_socket, libevent_init_mdns_socket,
    nm_libevent_mdns_update_ipv4_socket_registration, nm_libevent_mdns_update_ipv6_socket_registration,
    nm_libevent_udp_add_to_libevent; solve_quiet.
Qed.

(** A bind that is answered with success has made the event of the socket. *)
Definition opens (m : lu_handler np_error_code) : Prop :=
  forall s, result m s = NABTO_EC_OK -> is_Some (lu_event (exec m s)).

Lemma opens_seq {A} (m : lu_handler A) k : (forall a, opens (k a)) -> opens (hbind m k).
Proof.
  intros Hk s. unfold result, exec, hbind. destruct (m s) as [[a s1] t1]. specialize (Hk a s1).
  unfold result, exec in Hk. by destruct (k a s1) as [[??]?].
Qed.

Lemma opens_error ec : ec <> NABTO_EC_OK -> opens (hret ec).
Proof. by intros Hec s ?. Qed.

Lemma opens_added : opens (nm_libevent_udp_add_to_libevent ;;; hret NABTO_EC_OK).
Proof. intros s _. by eexists. Qed.

Lemma bind_mdns_opens type an : opens (bind_mdns_ec type an).
Proof.
  destruct type; unfold bind_mdns_ec, udp_async_bind_mdns_ipv4_ec, udp_async_bind_mdns_ipv6_ec;
    (apply opens_seq; intros s; destruct (lu_aborted s); [by apply opens_error |]);
    (apply opens_seq; intros ec; destruct (is_error ec) eqn:Ee; [apply opens_error; by intros -> |]);
    (apply opens_seq; intros s1; apply opens_seq; intros []; cbn [negb];
      apply opens_seq; intros ?; [apply opens_added | by apply opens_error]).
Qed.

#[global] Instance libevent_udp_laws : NpUdpLaws np_udp_socket le_call le_mdns.
Proof.
  split.
  - done.
  - intros t t'. apply omap_app.
  - intros type an ev s m.
    assert (Em : m = hbind (bind_mdns_ec type an) (fun ec => emit (LePost ev ec))) by (by destruct type).
    destruct (resolved_at_end _ _ _ (LePost ev) ev (fun ec => ec) s (libevent_bind_quiet type an) (fun _ => eq_refl))
      as [Hs Ht].
    pose proof (bind_mdns_opens type an s) as Ho. rewrite <- Em in Hs, Ht. injection Hs as Hr Ha.
    split; [by split |]. eexists. split; [exact Ht |]. intros Hok. apply bool_decide_eq_true.
    rewrite Em, exec_seq. by apply Ho.
  - intros ep data err ev s m.
    assert (Hsend : forall s, exec (udp_send_to ep data err) s = s /\
      omap le_resolved (trace (udp_send_to ep data err) s) = []).
    { intros s0. unfold udp_send_to. rewrite exec_hget, trace_hget. by repeat case_match. }
    unfold m. cbn [np_udp_async_send_to libevent_udp]. unfold udp_async_send_to.
    rewrite exec_seq, trace_seq. unfold udp_async_send_to_ec. rewrite !exec_hget, !trace_hget.
    destruct (lu_aborted s); [split; [done | by eexists] |]. destruct (Hsend s) as [-> Et]. split; [done |].
    cbn in *. rewrite omap_app, Et. by eexists.
  - intros ev [[rv |] ty fd [] [e |]] Ho Hw; try done; cbn in *; try (by destruct Ho);
      do 2 eexists; (split; [reflexivity | done]).
  - intros size r address port s m. split; [done |]. destruct r as [data | status]; cbn; [split_and!; [done | by split | done] |].
    split; [done |]. unfold m, np_udp_recv_from, libevent_udp, udp_recv_from. hsimpl.
    split; [| done]. split; [by destruct (ERR_IS_EAGAIN status || ERR_IS_EXPECTED status) | by intros []].
  - intros [[rv |] ty fd [] ev] Hw; try done. by specialize (Hw eq_refl).
  - by intros [[rv |] ty fd ab ev].
Qed.

#[global] Instance libevent_udp_port : NpUdpPort np_udp_socket le_call le_bind := {
  np_udp_async_bind_port := udp_async_bind_port;
  np_udp_get_local_port := udp_get_local_port
}.

Lemma libevent_port_quiet port an : lu_quiet (udp_async_bind_port_ec port an).
Proof.
  unfold udp_async_bind_port_ec, udp_create_socket_any, udp_bind_port, nm_libevent_udp_create_nonblocking_socket,
    nm_libevent_udp_add_to_libevent; solve_quiet.
Qed.

Lemma opens_port port an : opens (udp_async_bind_port_ec port an).
Proof.
  unfold udp_async_bind_port_ec. apply opens_seq; intros s. destruct (lu_aborted s); [by apply opens_error |].
  apply opens_seq; intros ec. destruct (is_error ec) eqn:Ee; [apply opens_error; by intros -> |].
  apply opens_seq; intros ec'. apply opens_seq; intros _. apply opens_added.
Qed.

#[global] Instance libevent_udp_port_laws : NpUdpPortLaws np_udp_socket le_call le_mdns le_bind.
Proof.
  split. intros port an ev s m.
  destruct (resolved_at_end _ _ _ (LePost ev) ev (fun ec => ec) s (libevent_port_quiet port an) (fun _ => eq_refl)) as [Hs Ht].
  injection Hs as Hr Ha. split; [by split |]. eexists. split; [exact Ht |]. intros Hok. apply bool_decide_eq_true.
  unfold m. cbn [np_udp_async_bind_port libevent_udp_port]. unfold udp_async_bind_port. rewrite exec_seq. revert Hok.
  change (exec (emit _) ?x) with x. apply opens_port.
Qed.

(** ** Proofs: TCP *)

Inductive tcp_input : Type :=
| TiConnect (address : np_ip_address) (port : Z) (ev : nat)
| TiWrite (data : list Z) (written : bool) (ev : nat)
| TiRead (bufferLength : nat) (data : list Z) (ev : nat)
| TiEvent (connected eof error : bool)
| TiReadable (data : list Z)
| TiWritable (empty : bool)
| TiAbort
| TiDestroy.

Definition tcp_step (i : tcp_input) : lt_handler unit :=
  match i with
  | TiConnect address port ev => tcp_async_connect address port ev
  | TiWrite data written ev => tcp_async_write data written ev
  | TiRead n data ev => tcp_async_read n data ev
  | TiEvent connected eof error => tcp_bufferevent_event connected eof error
  | TiReadable data => tcp_bufferevent_event_read data
  | TiWritable empty => tcp_bufferevent_event_write empty
  | TiAbort => tcp_abort
  | TiDestroy => tcp_destroy
  end.

Definition given_event (i : tcp_input) : list nat :=
  match i with TiConnect _ _ ev | TiWrite _ _ ev | TiRead _ _ ev => [ev] | _ => [] end.

Definition pending_events (s : np_tcp_socket) : list nat :=
  option_list (lt_connect s) ++ option_list (lt_read s) ++ option_list (lt_write s).

Definition resolved_events (t : list le_call) : list nat := (omap le_resolved t).*1.

(** The user does not connect or read while it does so already. *)
Definition one_at_a_time (i : tcp_input) (s : np_tcp_socket) : Prop :=
  match i with TiConnect _ _ _ => lt_connect s = None | TiRead _ _ _ => lt_read s = None | _ => True end.

(** Every completion event is resolved once or waits, as long as the user connects and reads one
    at a time. *)
Lemma libevent_tcp_events i s :
  one_at_a_time i s ->
  pending_events s ++ given_event i ≡ₚ resolved_events (trace (tcp_step i) s) ++ pending_events (exec (tcp_step i) s).
Proof.
  destruct s as [w r n c ab], i as [[[] a] port ev | data [] ev | n' [| x data] ev | [] [] [] | [| x data] | [] | |];
    cbn [one_at_a_time lt_connect lt_read]; intros Hone; subst;
    destruct w, ab; try destruct r; try destruct c; unfold pending_events, resolved_events; hsimpl; solve_Permutation.
Qed.

(** ** What one would not expect *)

(** A read while another waits: the event of the other is resolved and waits still; the new one
    is lost. *)
Lemma second_read_lost n data e ev s :
  lt_read s = Some e ->
  resolved_events (trace (tcp_async_read n data ev) s) = [e] /\ exec (tcp_async_read n data ev) s = s.
Proof. intros Hr. unfold tcp_async_read. rewrite trace_hget, exec_hget, Hr. done. Qed.

(** When the connection ends, a write that waits is not told. *)
Lemma eof_forgets_write s :
  lt_write (exec tcp_eof s) = lt_write s.
Proof. by destruct s as [w [r |] n [c |] ab]. Qed.

(** An operation on an aborted socket is not refused. *)
Lemma aborted_read_waits n ev s :
  lt_aborted s = true -> lt_read s = None ->
  lt_read (exec (tcp_async_read n [] ev) s) = Some ev /\ exec tcp_abort (exec (tcp_async_read n [] ev) s) = exec (tcp_async_read n [] ev) s.
Proof. destruct s as [w r k c ab]. cbn. by intros -> ->. Qed.

(** A UDP port that cannot be bound is reported as bound, and its descriptor is used though it
    is closed. *)
Lemma libevent_bind_failure_reported_ok port an ev s :
  lu_aborted s = false -> lb_sock6 an <> -1 -> lb_v6only an = true -> lb_bind an = false ->
  exists t, trace (udp_async_bind_port port an ev) s =
    t ++ [LeClose (lb_sock6 an); LeEventNew (lb_sock6 an); LePost ev NABTO_EC_OK].
Proof.
  intros Ha Hs Hv Hb. destruct s as [rv ty fd ab e], an as [s6 s4 v6 b]. cbn in *. subst.
  unfold udp_async_bind_port, udp_async_bind_port_ec, udp_create_socket_any, udp_bind_port,
    nm_libevent_udp_create_nonblocking_socket, nm_libevent_udp_add_to_libevent, NM_INVALID_SOCKET.
  hsimpl. destruct (Z.eqb_spec s6 (-1)); [done |]. hsimpl.
  by exists [LeSocket NABTO_IPV6; LeSetOption s6 "IPV6_V6ONLY" 0; LeBind s6 NABTO_IPV6 port].
Qed.

(** Without any socket a UDP socket is reported as bound: the test looks at the descriptor of
    the fresh structure, which is 0. And when an option cannot be set, that descriptor 0 - the
    standard input - is closed. *)
Example no_socket_reported_ok :
  let an := mk_lb (-1) (-1) true true in
  let r := udp_async_bind_port 0 an 7 udp_create in
  lu_sock (r.1.2) = -1 /\ r.2 = [LeSocket NABTO_IPV6; LeSocket NABTO_IPV4; LeBind (-1) NABTO_IPV4 0; LeEventNew (-1);
                                  LePost 7 NABTO_EC_OK].
Proof. done. Qed.

Example standard_input_closed :
  trace (udp_async_bind_port 0 (mk_lb 5 6 false true) 7) udp_create =
    [LeSocket NABTO_IPV6; LeSetOption 5 "IPV6_V6ONLY" 0; LeClose 0; LePost 7 NABTO_EC_UDP_SOCKET_CREATION_ERROR].
Proof. done. Qed.

(** Waiting for data before a bind: the event is NULL. *)
Example wait_before_bind_undefined : udp_async_recv_wait 7 udp_create = UB.
Proof. done. Qed.
