(* ===== verification/Mdns.v ===== *)
(** * The mDNS server (modules/mdns/nm_mdns_server.c)

    The server announces the device on the local network, over one IPv4 and one IPv6 socket. The
    sockets are those of the interface of Udp.v; the packets are built and parsed by the mDNS
    library of nabto-common, a class. The code has every function twice, for IPv4 and IPv6: here
    they are one function with the family as an argument, and its two instances. The theorem is
    about the whole system of server, sockets and event queue: for each family exactly one
    operation is under way until the family is done, nothing is undefined, and a stopped
    server comes to an end. *)

From S2P Require Import Prelude Platform Udp SelectSockets.

#[local] Open Scope Z_scope.
#[local] Open Scope list_scope.
#[local] Open Scope handler_scope.

Definition MDNS_MAX_LOCAL_IPS : nat := 2.
Definition MAX_LOCAL_IPS : nat := 2.

Inductive nabto_mdns_ip_address : Type :=
| NABTO_MDNS_IPV4 (addr : list Z)
| NABTO_MDNS_IPV6 (addr : list Z).

(** mdns/mdns_server.h of nabto-common: [nabto_mdns_server_init] gets the device id, the product
    id, the name of the service and the name of the host; [nabto_mdns_server_handle_packet] says
    whether to answer; [nabto_mdns_server_build_packet] yields the packet that was written. *)
Class MdnsLibrary (L : Type) : Type := {
  nabto_mdns_server_init : string -> string -> string -> string -> L;
  nabto_mdns_server_handle_packet : L -> list Z -> bool * L;
  nabto_mdns_server_build_packet : L -> list nabto_mdns_ip_address -> Z -> nat -> option (list Z)
}.

(** The six completion events. *)
Definition OpenedCompletionEvent (family : np_ip_address_type) : nat :=
  match family with NABTO_IPV4 => 0 | NABTO_IPV6 => 1 end.
Definition RecvWaitCompletionEvent (family : np_ip_address_type) : nat :=
  match family with NABTO_IPV4 => 2 | NABTO_IPV6 => 3 end.
Definition SendCompletionEvent (family : np_ip_address_type) : nat :=
  match family with NABTO_IPV4 => 4 | NABTO_IPV6 => 5 end.

Section Mdns.
Context {S E A : Type} `{NpUdp S E A} {L : Type} `{MdnsLibrary L}.

Record nm_mdns_server : Type := mk_mdns {
  md_running : bool;
  md_stopped : bool;
  md_v4Done : bool;
  md_v6Done : bool;
  md_port : Z;
  md_mdnsServer : option L;               (* initialized when the service is published *)
  md_socketv4 : S;
  md_socketv6 : S;
  md_localIps : list nabto_mdns_ip_address;
  md_sendBufferV4 : list Z;
  md_sendBufferV6 : list Z;
  md_recvBuffer : list Z
}.

Definition md_handler (A : Type) : Type := handler nm_mdns_server E A.
Definition md_uhandler (A : Type) : Type := uhandler nm_mdns_server E A.

(** What the system answers while a handler runs: the local addresses, the error of a send, and
    what a receive yields with the address of its sender. *)
Record mdns_in : Type := mk_mi {
  mi_ips : list np_ip_address;
  mi_err : option Z;
  mi_recv : list Z + Z;
  mi_address : list Z;
  mi_from : Z
}.

(** The fields of a family. *)
Definition md_socket (family : np_ip_address_type) (s : nm_mdns_server) : S :=
  match family with NABTO_IPV4 => md_socketv4 s | NABTO_IPV6 => md_socketv6 s end.
Definition set_socket (family : np_ip_address_type) (sock : S) (s : nm_mdns_server) : nm_mdns_server :=
  match family with
  | NABTO_IPV4 => s {{ md_socketv4 := sock }}
  | NABTO_IPV6 => s {{ md_socketv6 := sock }}
  end.
Definition md_done (family : np_ip_address_type) (s : nm_mdns_server) : bool :=
  match family with NABTO_IPV4 => md_v4Done s | NABTO_IPV6 => md_v6Done s end.
Definition set_done (family : np_ip_address_type) (s : nm_mdns_server) : nm_mdns_server :=
  match family with
  | NABTO_IPV4 => s {{ md_v4Done := true }}
  | NABTO_IPV6 => s {{ md_v6Done := true }}
  end.
Definition set_send_buffer (family : np_ip_address_type) (buffer : list Z) (s : nm_mdns_server) : nm_mdns_server :=
  match family with
  | NABTO_IPV4 => s {{ md_sendBufferV4 := buffer }}
  | NABTO_IPV6 => s {{ md_sendBufferV6 := buffer }}
  end.

(** A function of the socket of a family. *)
Definition on_socket {B} (family : np_ip_address_type) (m : handler S E B) : md_handler B :=
  fun s => let '(b, sock, t) := m (md_socket family s) in (b, set_socket family sock s, t).
Definition on_socket_u {B} (family : np_ip_address_type) (m : uhandler S E B) : md_uhandler B :=
  fun s => match m (md_socket family s) with
           | Def (b, sock, t) => Def (b, set_socket family sock s, t)
           | UB => UB
           end.

(** ** Initialization and stop *)

(** The sockets and the completion events were created. *)
Definition nm_mdns_server_init (socketv4 socketv6 : S) : nm_mdns_server :=
  mk_mdns false false false false 0 None socketv4 socketv6 [] [] [] [].

Definition nm_mdns_server_stop : md_handler unit :=
  hmod (fun s => s {{ md_stopped := true }}) ;;;
  on_socket NABTO_IPV4 np_udp_abort ;;;
  on_socket NABTO_IPV6 np_udp_abort.

(** [an4], [an6]: the answers to the binds. *)
Definition publish_service (port : Z) (productId deviceId : string) (an4 an6 : A) : md_handler unit :=
  let* s := hget in
  if md_running s then hskip
  else
    hmod (fun s => s {{ md_running := true }}) ;;;
    hmod (fun s => s {{ md_port := port }}) ;;;
    hmod (fun s => s {{ md_mdnsServer := Some (nabto_mdns_server_init deviceId productId deviceId deviceId) }}) ;;;
    on_socket NABTO_IPV4 (np_udp_async_bind_mdns NABTO_IPV4 an4 (OpenedCompletionEvent NABTO_IPV4)) ;;;
    on_socket NABTO_IPV6 (np_udp_async_bind_mdns NABTO_IPV6 an6 (OpenedCompletionEvent NABTO_IPV6)).

(** ** Sending and receiving *)

Definition mdns_ip (ip : np_ip_address) : nabto_mdns_ip_address :=
  match ip_type ip with
  | NABTO_IPV4 => NABTO_MDNS_IPV4 (take 4 (ip_mem ip))
  | NABTO_IPV6 => NABTO_MDNS_IPV6 (take 16 (ip_mem ip))
  end.

(** More addresses than the array has room for are written past its end. *)
Definition nm_mdns_update_local_ips (ips : list np_ip_address) : md_uhandler unit :=
  if (MAX_LOCAL_IPS <? length ips)%nat then uof UB
  else ulift (hmod (fun s => s {{ md_localIps := map mdns_ip ips }})).

Definition mdns_endpoint (family : np_ip_address_type) : np_udp_endpoint :=
  match family with
  | NABTO_IPV4 => mk_ep (mk_ip NABTO_IPV4 [224; 0; 0; 251]) 5353
  | NABTO_IPV6 => mk_ep (mk_ip NABTO_IPV6 [255; 2; 0; 0; 0; 0; 0; 0; 0; 0; 0; 0; 0; 0; 0; 251]) 5353
  end.

Definition nm_mdns_recv_packet (family : np_ip_address_type) : md_uhandler unit :=
  on_socket_u family (np_udp_async_recv_wait (RecvWaitCompletionEvent family)).

Definition nm_mdns_send_packet (family : np_ip_address_type) (inp : mdns_in) : md_uhandler unit :=
  let+ s := ulift hget in
  let port := md_port s in
  let+ _ := nm_mdns_update_local_ips (mi_ips inp) in
  if 0 <? port then
    let+ s := ulift hget in
    match md_mdnsServer s with
    | None => uof UB
    | Some lib =>
        match nabto_mdns_server_build_packet lib (md_localIps s) port 1500 with
        | Some packet =>
            let+ _ := ulift (hmod (set_send_buffer family packet)) in
            ulift (on_socket family (np_udp_async_send_to (mdns_endpoint family)
                     (take (Z.to_nat (u16 (Z.of_nat (length packet)))) packet) (mi_err inp) (SendCompletionEvent family)))
        | None => nm_mdns_recv_packet family
        end
    end
  else nm_mdns_recv_packet family.

(** ** The completions *)

Definition nm_mdns_socket_opened (family : np_ip_address_type) (ec : np_error_code) (inp : mdns_in) : md_uhandler unit :=
  let+ s := ulift hget in
  if md_stopped s then ulift (hmod (set_done family))
  else if is_error ec then ulift (hmod (set_done family))
  else nm_mdns_send_packet family inp.

(** [again]: whether the family waits again after [NABTO_EC_AGAIN]. *)
Definition nm_mdns_packet_recv_wait_completed (again : bool) (family : np_ip_address_type) (ec : np_error_code)
    (inp : mdns_in) : md_uhandler unit :=
  if is_error ec then ulift (hmod (set_done family))
  else
    let+ received := ulift (on_socket family (np_udp_recv_from 1500 (mi_recv inp) (mi_address inp) (mi_from inp))) in
    let '(ec, _, data) := received in
    if is_error ec then
      if again && bool_decide (ec = NABTO_EC_AGAIN) then nm_mdns_recv_packet family
      else ulift (hmod (set_done family))
    else
      let+ s := ulift hget in
      match data, md_mdnsServer s with
      | Some data, Some lib =>
          let+ _ := ulift (hmod (fun s => s {{ md_recvBuffer := data }})) in
          let '(answer, lib) := nabto_mdns_server_handle_packet lib data in
          let+ _ := ulift (hmod (fun s => s {{ md_mdnsServer := Some lib }})) in
          if answer then nm_mdns_send_packet family inp else nm_mdns_recv_packet family
      | _, _ => uof UB
      end.

Definition nm_mdns_packet_sent (family : np_ip_address_type) (ec : np_error_code) (inp : mdns_in) : md_uhandler unit :=
  let+ s := ulift hget in
  if md_stopped s then ulift (hmod (set_done family)) else nm_mdns_recv_packet family.

(** The functions of the code. *)
Definition nm_mdns_recv_packet_v4 := nm_mdns_recv_packet NABTO_IPV4.
Definition nm_mdns_recv_packet_v6 := nm_mdns_recv_packet NABTO_IPV6.
Definition nm_mdns_send_packet_v4 := nm_mdns_send_packet NABTO_IPV4.
Definition nm_mdns_send_packet_v6 := nm_mdns_send_packet NABTO_IPV6.
Definition nm_mdns_socket_opened_v4 := nm_mdns_socket_opened NABTO_IPV4.
Definition nm_mdns_socket_opened_v6 := nm_mdns_socket_opened NABTO_IPV6.
Definition nm_mdns_packet_recv_wait_completed_v4 := nm_mdns_packet_recv_wait_completed false NABTO_IPV4.
Definition nm_mdns_packet_recv_wait_completed_v6 := nm_mdns_packet_recv_wait_completed true NABTO_IPV6.
Definition nm_mdns_packet_sent_v4 := nm_mdns_packet_sent NABTO_IPV4.
Definition nm_mdns_packet_sent_v6 := nm_mdns_packet_sent NABTO_IPV6.

(** ** The system *)

(** The callback of a completion event. *)
Definition mdns_callback (ev : nat) (ec : np_error_code) (inp : mdns_in) : md_uhandler unit :=
  match ev with
  | 0%nat => nm_mdns_socket_opened_v4 ec inp
  | 1%nat => nm_mdns_socket_opened_v6 ec inp
  | 2%nat => nm_mdns_packet_recv_wait_completed_v4 ec inp
  | 3%nat => nm_mdns_packet_recv_wait_completed_v6 ec inp
  | 4%nat => nm_mdns_packet_sent_v4 ec inp
  | _ => nm_mdns_packet_sent_v6 ec inp
  end.

(** The server, and the completion events that wait in the event queue with their codes. *)
Definition mdns_system : Type := nm_mdns_server * list (nat * np_error_code).

(** A handler that runs: the events that are resolved are posted. *)
Definition post_all {B} (m : md_uhandler B) (sys : mdns_system) : cres mdns_system :=
  match m sys.1 with
  | Def (_, s, t) => Def (s, sys.2 ++ udp_resolved t)
  | UB => UB
  end.

Inductive mdns_input : Type :=
| MdPublish (port : Z) (productId deviceId : string) (an4 an6 : A)
| MdStop
| MdReadable (family : np_ip_address_type)
| MdDeliver (i : nat) (inp : mdns_in).       (* the event at a place of the queue *)

Definition mdns_step (i : mdns_input) (sys : mdns_system) : cres mdns_system :=
  match i with
  | MdPublish port p d an4 an6 => post_all (ulift (publish_service port p d an4 an6)) sys
  | MdStop => post_all (ulift nm_mdns_server_stop) sys
  | MdReadable family => post_all (ulift (on_socket family udp_readable)) sys
  | MdDeliver i inp =>
      match sys.2 !! i with
      | None => Def sys
      | Some (ev, ec) => post_all (mdns_callback ev ec inp) (sys.1, delete i sys.2)
      end
  end.

(** ** Proofs *)

Context `{!NpUdpLaws S E A}.

Definition other (family : np_ip_address_type) : np_ip_address_type :=
  match family with NABTO_IPV4 => NABTO_IPV6 | NABTO_IPV6 => NABTO_IPV4 end.

(** The events of a family, and those that are under way. *)
Definition family_event (family : np_ip_address_type) (ev : nat) : Prop :=
  ev = OpenedCompletionEvent family \/ ev = RecvWaitCompletionEvent family \/ ev = SendCompletionEvent family.

#[global] Instance family_event_dec family ev : Decision (family_event family ev).
Proof. unfold family_event. apply _. Defined.

Definition posted (family : np_ip_address_type) (q : list (nat * np_error_code)) : list (nat * np_error_code) :=
  filter (fun p => family_event family p.1) q.

Definition under_way (family : np_ip_address_type) (sys : mdns_system) : list nat :=
  (posted family sys.2).*1 ++ option_list (udp_waiting (md_socket family sys.1)).

(** After a stop: how many events can still be delivered. *)
Definition weight (p : nat * np_error_code) : nat :=
  if bool_decide (p.1 = 2%nat \/ p.1 = 3%nat) && negb (is_error p.2) then 2 else 1.
Definition total_weight (q : list (nat * np_error_code)) : nat := sum_list_with weight q.

Definition usable (sock : S) : Prop := udp_open sock = true \/ udp_aborted sock = true.

(** A completion that is delivered later finds the socket as it needs it. *)
Definition event_ok (family : np_ip_address_type) (sock : S) (p : nat * np_error_code) : Prop :=
  family_event family p.1 /\ (is_error p.2 = false \/ p.1 = SendCompletionEvent family -> usable sock).

(** The state of a family, with its posted events. *)
Definition family_state (family : np_ip_address_type) (s : nm_mdns_server) (mine : list (nat * np_error_code)) : Prop :=
  let sock := md_socket family s in
  if md_done family s then mine = [] /\ udp_waiting sock = None
  else
    (udp_waiting sock = None /\ exists p, mine = [p] /\ event_ok family sock p) \/
    (mine = [] /\ udp_waiting sock = Some (RecvWaitCompletionEvent family) /\ usable sock /\ md_stopped s = false).

Definition family_ok (family : np_ip_address_type) (s : nm_mdns_server) (mine : list (nat * np_error_code)) : Prop :=
  let sock := md_socket family s in
  udp_aborted sock = md_stopped s /\
  (if md_running s then is_Some (md_mdnsServer s) /\ family_state family s mine
   else md_done family s = false /\ mine = [] /\ udp_waiting sock = None).

Definition mdns_inv (sys : mdns_system) : Prop :=
  (forall family, family_ok family sys.1 (posted family sys.2)) /\
  Forall (fun p => exists family, family_event family p.1) sys.2.

(** What a handler of one family leaves alone. *)
Definition framed (family : np_ip_address_type) (s s' : nm_mdns_server) : Prop :=
  md_running s' = md_running s /\ md_stopped s' = md_stopped s /\
  (is_Some (md_mdnsServer s) -> is_Some (md_mdnsServer s')) /\
  md_socket (other family) s' = md_socket (other family) s /\
  md_done (other family) s' = md_done (other family) s /\
  udp_aborted (md_socket family s') = udp_aborted (md_socket family s).

Lemma framed_refl family s : framed family s s.
Proof. by repeat split. Qed.

Lemma framed_trans family s1 s2 s3 : framed family s1 s2 -> framed family s2 s3 -> framed family s1 s3.
Proof.
  intros (E1 & E2 & E3 & E4 & E5 & E6) (F1 & F2 & F3 & F4 & F5 & F6). unfold framed.
  rewrite F1, F2, F4, F5, F6. split_and!; auto.
Qed.

(** A handler of a family ends with one event under way, or with the family done. *)
Definition ends (family : np_ip_address_type) (limit : nat) (m : md_uhandler unit) (s : nm_mdns_server) : Prop :=
  exists s' t, m s = Def (tt, s', t) /\ framed family s s' /\ family_state family s' (udp_resolved t) /\
    (total_weight (udp_resolved t) <= limit)%nat.

Lemma socket_of_set family sock s : md_socket family (set_socket family sock s) = sock.
Proof. by destruct family. Qed.
Lemma done_of_set family s : md_done family (set_done family s) = true.
Proof. by destruct family. Qed.

Lemma set_socket_same family s : set_socket family (md_socket family s) s = s.
Proof. by destruct family, s. Qed.

Lemma framed_set_done family s : framed family s (set_done family s).
Proof. by destruct family. Qed.
Lemma framed_set_socket family s sock :
  udp_aborted sock = udp_aborted (md_socket family s) -> framed family s (set_socket family sock s).
Proof. by destruct family. Qed.
Lemma framed_buffer family buffer s : framed family s (set_send_buffer family buffer s).
Proof. by destruct family. Qed.

Lemma ends_done family limit s :
  udp_waiting (md_socket family s) = None ->
  ends family limit (ulift (hmod (set_done family))) s.
Proof.
  intros Hw. exists (set_done family s), []. split; [done |]. split; [apply framed_set_done |].
  rewrite udp_resolved_nil. split; [| cbn; lia]. unfold family_state. rewrite done_of_set. split; [done |]. by destruct family.
Qed.

(** The start of a handler of a family that is not done: nothing waits. *)
Definition idle (family : np_ip_address_type) (s : nm_mdns_server) : Prop :=
  udp_waiting (md_socket family s) = None /\ md_done family s = false /\
  udp_aborted (md_socket family s) = md_stopped s /\ is_Some (md_mdnsServer s).

Lemma ends_seq {B} family limit (m : md_uhandler B) (k : B -> md_uhandler unit) s b s1 t1 :
  m s = Def (b, s1, t1) -> framed family s s1 -> udp_resolved t1 = [] -> ends family limit (k b) s1 ->
  ends family limit (ubind m k) s.
Proof.
  intros Em Hf Ht (s2 & t2 & Em2 & Hf2 & Hs & Hw). exists s2, (t1 ++ t2). unfold ubind. rewrite Em, Em2.
  split; [done |]. rewrite udp_resolved_app, Ht. split; [by eapply framed_trans | done].
Qed.

Lemma ends_recv family s :
  idle family s -> usable (md_socket family s) -> ends family 1 (nm_mdns_recv_packet family) s.
Proof.
  intros (Hw & Hd & Ha & _) Hu. unfold nm_mdns_recv_packet.
  destruct (udp_wait_law (RecvWaitCompletionEvent family) (md_socket family s)) as (sock & t & Em & Ho & Ha' & Hres); [done.. |].
  exists (set_socket family sock s), t. unfold on_socket_u. rewrite Em. split; [done |].
  split; [by apply framed_set_socket |]. unfold family_state. rewrite socket_of_set.
  assert (Hd' : md_done family (set_socket family sock s) = false) by (by destruct family).
  assert (Hs' : md_stopped (set_socket family sock s) = md_stopped s) by (by destruct family).
  rewrite Hd', Hs'. assert (Hu' : usable sock) by (unfold usable; by rewrite Ho, Ha').
  destruct (udp_aborted (md_socket family s)).
  - destruct Hres as [-> ->]. split; [| by destruct family]. left. split; [done |]. eexists. split; [reflexivity |].
    split; [| done]. unfold family_event. auto.
  - destruct Hres as [-> ->]. split; [| cbn; lia]. right. split_and!; done.
Qed.

Lemma ends_send family inp s :
  idle family s -> usable (md_socket family s) -> (length (mi_ips inp) <= 2)%nat ->
  ends family 1 (nm_mdns_send_packet family inp) s.
Proof.
  intros Hi Hu Hips. unfold nm_mdns_send_packet. set (s1 := s {{ md_localIps := map mdns_ip (mi_ips inp) }}).
  assert (Hf1 : framed family s s1) by (by destruct family).
  assert (Hi1 : idle family s1) by (by destruct family).
  assert (Hu1 : usable (md_socket family s1)) by (by destruct family).
  assert (Hupd : nm_mdns_update_local_ips (mi_ips inp) s = Def (tt, s1, [])).
  { unfold nm_mdns_update_local_ips, MAX_LOCAL_IPS. by destruct (Nat.ltb_spec 2 (length (mi_ips inp))); [lia |]. }
  eapply ends_seq; [reflexivity | apply framed_refl | apply udp_resolved_nil |].
  eapply ends_seq; [exact Hupd | done | apply udp_resolved_nil |].
  destruct (0 <? md_port s); [| by apply ends_recv].
  eapply ends_seq; [reflexivity | apply framed_refl | apply udp_resolved_nil |].
  destruct Hi1 as (Hw & Hd & Ha & lib & Hlib). rewrite Hlib.
  destruct (nabto_mdns_server_build_packet lib _ _ _) as [packet |]; [| apply ends_recv; [| done]; split_and!; try done; by eexists].
  eapply ends_seq; [reflexivity | apply framed_buffer | apply udp_resolved_nil |].
  set (s2 := set_send_buffer family packet s1).
  set (data := take _ packet). destruct (udp_send_law (mdns_endpoint family) data (mi_err inp)
    (SendCompletionEvent family) (md_socket family s2)) as [Es [ec Hec]].
  unfold ends, ulift, on_socket.
  destruct (np_udp_async_send_to _ data _ _ (md_socket family s2)) as [[[] sock] t] eqn:Em.
  unfold exec, trace in *. rewrite Em in Es, Hec. cbn in Es, Hec. rewrite Es, set_socket_same. exists s2, t. split; [done |].
  split; [apply framed_refl |]. rewrite Hec. split; [| by destruct family].
  unfold family_state. replace (md_done family s2) with false by (unfold s2; by destruct family).
  left. split; [unfold s2; by destruct family |]. eexists. split; [reflexivity |].
  split; [unfold family_event; auto |]. intros _. unfold s2. by destruct family.
Qed.

(** The three callbacks of a family. *)
Lemma opened_ends family ec inp s :
  idle family s -> (length (mi_ips inp) <= 2)%nat -> event_ok family (md_socket family s) (OpenedCompletionEvent family, ec) ->
  ends family (if md_stopped s then 0 else 1) (nm_mdns_socket_opened family ec inp) s.
Proof.
  intros Hi Hips [_ Hok]. eapply ends_seq; [reflexivity | apply framed_refl | apply udp_resolved_nil |].
  destruct (md_stopped s) eqn:Es; [apply ends_done, Hi |].
  destruct (is_error ec) eqn:Ee; [apply ends_done, Hi |]. apply ends_send; [done | | done]. apply Hok. by left.
Qed.

Lemma sent_ends family ec inp s :
  idle family s -> event_ok family (md_socket family s) (SendCompletionEvent family, ec) ->
  ends family (if md_stopped s then 0 else 1) (nm_mdns_packet_sent family ec inp) s.
Proof.
  intros Hi [_ Hok]. eapply ends_seq; [reflexivity | apply framed_refl | apply udp_resolved_nil |].
  destruct (md_stopped s) eqn:Es; [apply ends_done, Hi |]. apply ends_recv; [done |]. apply Hok. by right.
Qed.

Lemma received_ends again family ec inp s :
  idle family s -> (length (mi_ips inp) <= 2)%nat -> event_ok family (md_socket family s) (RecvWaitCompletionEvent family, ec) ->
  ends family (if is_error ec then 0 else 1) (nm_mdns_packet_recv_wait_completed again family ec inp) s.
Proof.
  intros Hi Hips [_ Hok]. unfold nm_mdns_packet_recv_wait_completed.
  destruct (is_error ec) eqn:Ee0; [apply ends_done, Hi |].
  assert (Hu : usable (md_socket family s)) by (apply Hok; by left).
  pose proof (udp_recv_law 1500 (mi_recv inp) (mi_address inp) (mi_from inp) (md_socket family s)) as Hl.
  cbv zeta in Hl. destruct Hl as (Es & Et & Hiff & _). unfold exec, trace, result in Es, Et, Hiff.
  destruct (np_udp_recv_from 1500 _ _ _ (md_socket family s)) as [[[[ec' ep] data] sock] t] eqn:Em.
  cbn in Es, Et, Hiff.
  eapply ends_seq; [unfold ulift, on_socket; rewrite Em, Es, set_socket_same; reflexivity | apply framed_refl | exact Et |].
  cbn. destruct (is_error ec') eqn:Ee.
  - destruct (again && bool_decide (ec' = NABTO_EC_AGAIN)); [by apply ends_recv | apply ends_done, Hi].
  - destruct Hi as (Hw & Hd & Ha & lib & Hlib).
    assert (Hdata : is_Some data) by (apply Hiff; by destruct ec'). destruct Hdata as [d ->].
    eapply ends_seq; [reflexivity | apply framed_refl | apply udp_resolved_nil |]. rewrite Hlib.
    eapply ends_seq; [reflexivity | by destruct family | apply udp_resolved_nil |].
    destruct (nabto_mdns_server_handle_packet lib d) as [answer lib'].
    eapply ends_seq; [reflexivity | | apply udp_resolved_nil |].
    { split_and!; by destruct family. }
    cbn. match goal with |- context [ends _ _ _ ?x] => set (s1 := x) end.
    assert (Hi1 : idle family s1) by (split_and!; try (by destruct family); by eexists).
    assert (Hu1 : usable (md_socket family s1)) by (by destruct family).
    destruct answer; [by apply ends_send | by apply ends_recv].
Qed.

(** *** The queue of posted events *)

Lemma other_event family ev : family_event family ev -> ~ family_event (other family) ev.
Proof. unfold family_event. destruct family; cbn; lia. Qed.

Lemma posted_app family q q' : posted family (q ++ q') = posted family q ++ posted family q'.
Proof. apply filter_app. Qed.

Lemma posted_own family l : Forall (fun p => family_event family p.1) l -> posted family l = l /\ posted (other family) l = [].
Proof.
  unfold posted. induction 1 as [| p l Hp _ [IH1 IH2]]; [done |].
  rewrite filter_cons_True, filter_cons_False by (done || by apply other_event). by rewrite IH1, IH2.
Qed.

Lemma posted_cons family p q q' :
  q ≡ₚ p :: q' ->
  posted family q ≡ₚ (if decide (family_event family p.1) then p :: posted family q' else posted family q').
Proof.
  intros Hp. transitivity (posted family (p :: q')); [unfold posted; by rewrite Hp |].
  unfold posted. rewrite filter_cons. by destruct (decide _).
Qed.

Lemma two_families (P : np_ip_address_type -> Prop) family :
  P family -> P (other family) -> forall f, P f.
Proof. intros ? ? []; by destruct family. Qed.

Lemma family_state_events family s mine : family_state family s mine -> Forall (fun p => family_event family p.1) mine.
Proof.
  unfold family_state. destruct (md_done family s); [by intros [-> _] |].
  intros [(_ & p & -> & Hp & _) | (-> & _)]; [| done]. by constructor; [| constructor].
Qed.

Lemma family_state_perm family s l l' : l ≡ₚ l' -> family_state family s l -> family_state family s l'.
Proof.
  intros Hp. unfold family_state. destruct (md_done family s).
  - intros [-> Hw]. by apply Permutation_nil in Hp as ->.
  - intros [(Hw & p & -> & Hok) | (-> & Hrest)].
    + apply Permutation_singleton_l in Hp as <-. left. eauto.
    + apply Permutation_nil in Hp as ->. by right.
Qed.

Lemma total_weight_app q q' : total_weight (q ++ q') = (total_weight q + total_weight q')%nat.
Proof. apply sum_list_with_app. Qed.

Lemma total_weight_delete q i p : q !! i = Some p -> total_weight q = (weight p + total_weight (delete i q))%nat.
Proof.
  assert (Hc : forall x q, total_weight (x :: q) = (weight x + total_weight q)%nat) by done.
  revert i. induction q as [| x q IH]; intros [| i] Hi; try done; cbn [lookup list_lookup] in Hi.
  - by simplify_eq.
  - change (delete (Datatypes.S i) (x :: q)) with (x :: delete i q). rewrite !Hc, (IH i Hi). lia.
Qed.

Lemma weight_pos p : (1 <= weight p)%nat.
Proof. unfold weight. destruct (_ && _); lia. Qed.

Lemma weight_recv family ec : weight (RecvWaitCompletionEvent family, ec) = (if is_error ec then 1 else 2)%nat.
Proof. by destruct family, ec. Qed.

(** The callback of an event ends with less weight, once the server is stopped. *)
Lemma callback_ends family ev ec inp s :
  idle family s -> (length (mi_ips inp) <= 2)%nat -> event_ok family (md_socket family s) (ev, ec) ->
  exists limit, ends family limit (mdns_callback ev ec inp) s /\ (md_stopped s = true -> (limit < weight (ev, ec))%nat).
Proof.
  intros Hi Hips Hok. pose proof Hok as [[E0 | [E0 | E0]] _]; cbn in E0; subst ev.
  - exists (if md_stopped s then 0 else 1)%nat. split; [| intros ->; pose proof (weight_pos (OpenedCompletionEvent family, ec)); lia].
    replace (mdns_callback _ ec inp) with (nm_mdns_socket_opened family ec inp) by (by destruct family).
    by apply opened_ends.
  - exists (if is_error ec then 0 else 1)%nat. split; [| intros _; rewrite weight_recv; destruct (is_error ec); lia].
    destruct family; by apply received_ends.
  - exists (if md_stopped s then 0 else 1)%nat. split; [| intros ->; pose proof (weight_pos (SendCompletionEvent family, ec)); lia].
    replace (mdns_callback _ ec inp) with (nm_mdns_packet_sent family ec inp) by (by destruct family).
    by apply sent_ends.
Qed.

(** A delivery. *)
Lemma deliver_spec (sys : mdns_system) i inp ev ec :
  mdns_inv sys -> sys.2 !! i = Some (ev, ec) -> (length (mi_ips inp) <= 2)%nat ->
  exists sys', mdns_step (MdDeliver i inp) sys = Def sys' /\ mdns_inv sys' /\ md_stopped sys'.1 = md_stopped sys.1 /\
    (md_stopped sys.1 = true -> (total_weight sys'.2 < total_weight sys.2)%nat).
Proof.
  destruct sys as [s q]. intros [Hfam Hall] Hi Hips. cbn [fst snd] in *.
  assert (Hperm : q ≡ₚ (ev, ec) :: delete i q) by (by apply delete_Permutation).
  assert (Hev : exists family, family_event family ev)
    by (rewrite Forall_forall in Hall; apply (Hall (ev, ec)); by eapply list_elem_of_lookup_2).
  destruct Hev as [family Hev].
  assert (Hown : posted family q ≡ₚ (ev, ec) :: posted family (delete i q))
    by (rewrite (posted_cons family _ _ _ Hperm); by rewrite decide_True).
  assert (Hoth : posted (other family) q ≡ₚ posted (other family) (delete i q))
    by (rewrite (posted_cons (other family) _ _ _ Hperm); by rewrite decide_False by (by apply other_event)).
  pose proof (Hfam family) as [Hab Hf]. destruct (md_running s) eqn:Er.
  2: { destruct Hf as (_ & E0 & _). rewrite E0 in Hown. by apply Permutation_nil_cons in Hown. }
  destruct Hf as [Hlib Hst]. pose proof (family_state_perm _ _ _ _ Hown Hst) as Hst'.
  unfold family_state in Hst'. destruct (md_done family s) eqn:Ed; [by destruct Hst' |].
  destruct Hst' as [(Hw & p & E0 & Hok) | (E0 & _)]; [| done]. injection E0 as <- Hnil.
  destruct (callback_ends family ev ec inp s) as (limit & (s' & t & Em & Hfr & Hst2 & Hlim) & Hwt); [done.. |].
  pose proof Hfr as (F1 & F2 & F3 & F4 & F5 & F6).
  pose proof (family_state_events _ _ _ Hst2) as Hfe. destruct (posted_own _ _ Hfe) as [Hpo Hpn].
  exists (s', delete i q ++ udp_resolved t). cbn [mdns_step snd fst]. rewrite Hi. unfold post_all. cbn [fst snd].
  rewrite Em. split; [done |]. cbn [fst snd]. split; [split |].
  - apply (two_families (fun f => family_ok f s' (posted f (delete i q ++ udp_resolved t))) family); cbv beta.
    + rewrite posted_app, Hnil, Hpo. unfold family_ok. rewrite F6, F2, F1, Er. split; [done |]. split; [by apply F3 | done].
    + rewrite posted_app, Hpn, app_nil_r. pose proof (Hfam (other family)) as [Hab' Hf']. rewrite Er in Hf'.
      destruct Hf' as [_ Hs']. unfold family_ok. rewrite F4, F2, F1, Er. split; [done |]. split; [by apply F3 |].
      apply (family_state_perm _ _ _ _ Hoth) in Hs'. unfold family_state in *. by rewrite F5, F4, F2.
  - apply Forall_app. split; [by apply Forall_delete |]. eapply Forall_impl; [exact Hfe |]. intros p' ?. by exists family.
  - split; [done |]. intros Hs. specialize (Hwt Hs). rewrite total_weight_app, (total_weight_delete q i (ev, ec) Hi). lia.
Qed.

(** *** The other steps *)

(** A step that changes the sockets: each family by its own socket and events. *)
Lemma families_step (s s' : nm_mdns_server) q (l4 l6 : list (nat * np_error_code)) :
  Forall (fun p => exists family, family_event family p.1) q ->
  Forall (fun p => family_event NABTO_IPV4 p.1) l4 -> Forall (fun p => family_event NABTO_IPV6 p.1) l6 ->
  family_ok NABTO_IPV4 s' (posted NABTO_IPV4 q ++ l4) -> family_ok NABTO_IPV6 s' (posted NABTO_IPV6 q ++ l6) ->
  mdns_inv (s', q ++ l4 ++ l6).
Proof.
  intros Hq H4 H6 Hf4 Hf6. destruct (posted_own _ _ H4) as [E4 E4'], (posted_own _ _ H6) as [E6 E6'].
  cbn in E4', E6'. split.
  - intros []; cbn [fst snd]; rewrite !posted_app, ?E4, ?E4', ?E6, ?E6', ?app_nil_r; done.
  - cbn [snd]. apply Forall_app. split; [done |]. apply Forall_app.
    split; [eapply Forall_impl; [exact H4 |] | eapply Forall_impl; [exact H6 |]]; intros p Hp; eexists; exact Hp.
Qed.

(** The families after their sockets were aborted. *)
Lemma abort_family family (s s' : nm_mdns_server) mine sock :
  family_ok family s mine -> sock = md_socket family s ->
  md_socket family s' = exec np_udp_abort sock -> md_done family s' = md_done family s ->
  md_running s' = md_running s -> md_stopped s' = true -> md_mdnsServer s' = md_mdnsServer s ->
  let l := udp_resolved (trace np_udp_abort sock) in
  Forall (fun p => family_event family p.1) l /\ family_ok family s' (mine ++ l).
Proof.
  intros [Hab Hf] -> Es Ed Er Est El. cbv zeta.
  assert (Hw : udp_aborted (md_socket family s) = true -> udp_waiting (md_socket family s) = None).
  { intros Ha. rewrite Ha in Hab. destruct (md_running s); [| apply Hf]. destruct Hf as [_ Hf]. unfold family_state in Hf.
    destruct (md_done family s); [apply Hf |]. destruct Hf as [[? _] | (_ & _ & _ & ?)]; [done | congruence]. }
  destruct (udp_abort_law (md_socket family s) Hw) as (Ho & Ha & Hn & Ht). rewrite Ht.
  unfold family_ok. rewrite Es, Er, Ed, El, Est, Ha, Hn.
  destruct (md_running s).
  2: { destruct Hf as (Ed' & -> & ->). by split. }
  destruct Hf as [Hlib Hf]. unfold family_state in *. rewrite Ed, Es, Est, Hn.
  destruct (md_done family s); [destruct Hf as [-> ->]; by split |].
  destruct Hf as [(-> & p & -> & Hp & _) | (-> & -> & _)]; cbn.
  - split; [done |]. split; [done |]. split; [done |]. left. split; [done |]. exists p. split; [done |].
    split; [done |]. intros _. by right.
  - assert (Hev : family_event family (RecvWaitCompletionEvent family)) by (unfold family_event; auto).
    split; [by constructor; [| constructor] |]. split; [done |]. split; [done |]. left. split; [done |].
    eexists. split; [reflexivity |]. split; [done |]. intros _. by right.
Qed.

Lemma stop_spec (sys : mdns_system) :
  mdns_inv sys -> exists sys', mdns_step MdStop sys = Def sys' /\ mdns_inv sys'.
Proof.
  destruct sys as [s q]. intros [Hfam Hall]. cbn [fst snd] in *. cbn [mdns_step]. unfold post_all, ulift. cbn [fst snd].
  set (s1 := s {{ md_stopped := true }}).
  unfold nm_mdns_server_stop. rewrite hmod_seq. fold s1. unfold hbind, on_socket.
  destruct (np_udp_abort (md_socket NABTO_IPV4 s1)) as [[r4 sock4] t4] eqn:E4.
  set (s2 := set_socket NABTO_IPV4 sock4 s1).
  destruct (np_udp_abort (md_socket NABTO_IPV6 s2)) as [[r6 sock6] t6] eqn:E6.
  set (s3 := set_socket NABTO_IPV6 sock6 s2). eexists. split; [reflexivity |]. rewrite udp_resolved_app.
  assert (X4 : exec np_udp_abort (md_socketv4 s) = sock4 /\ trace np_udp_abort (md_socketv4 s) = t4)
    by (unfold exec, trace; change (md_socketv4 s) with (md_socket NABTO_IPV4 s1); by rewrite E4).
  assert (X6 : exec np_udp_abort (md_socketv6 s) = sock6 /\ trace np_udp_abort (md_socketv6 s) = t6)
    by (unfold exec, trace; change (md_socketv6 s) with (md_socket NABTO_IPV6 s2); by rewrite E6).
  destruct X4 as [X4 Y4], X6 as [X6 Y6].
  destruct (abort_family NABTO_IPV4 s s3 _ _ (Hfam NABTO_IPV4) eq_refl) as [A4 B4]; [exact (eq_sym X4) | done.. |].
  destruct (abort_family NABTO_IPV6 s s3 _ _ (Hfam NABTO_IPV6) eq_refl) as [A6 B6]; [exact (eq_sym X6) | done.. |].
  cbn [md_socket] in *. rewrite Y4 in *. rewrite Y6 in *. by apply (families_step s).
Qed.

Lemma readable_spec family (sys : mdns_system) :
  mdns_inv sys -> exists sys', mdns_step (MdReadable family) sys = Def sys' /\ mdns_inv sys'.
Proof.
  destruct sys as [s q]. intros [Hfam Hall]. cbn [fst snd] in *. cbn [mdns_step]. unfold post_all, ulift, on_socket. cbn [fst snd].
  destruct (udp_readable_law (md_socket family s)) as (Ho & Ha & Hn & Ht). unfold exec, trace in *.
  destruct (udp_readable (md_socket family s)) as [[r sock] t]. cbn in Ho, Ha, Hn, Ht.
  eexists. split; [reflexivity |]. rewrite Ht. set (s' := set_socket family sock s).
  assert (Hs' : md_socket family s' = sock) by apply socket_of_set.
  assert (Hsame : md_done family s' = md_done family s /\ md_running s' = md_running s /\ md_stopped s' = md_stopped s /\
    md_mdnsServer s' = md_mdnsServer s) by (by destruct family). destruct Hsame as (Ed & Er & Est & El).
  set (l := map (fun ev => (ev, NABTO_EC_OK)) (option_list (udp_waiting (md_socket family s)))).
  assert (Hmine : Forall (fun p => family_event family p.1) l /\ family_ok family s' (posted family q ++ l)).
  { pose proof (Hfam family) as [Hab Hf]. unfold family_ok. rewrite Hs', Ed, Er, Est, El, Ha, Hn. unfold l.
    destruct (md_running s).
    2: { destruct Hf as (? & -> & ->). by split. }
    destruct Hf as [Hlib Hf]. unfold family_state in *. rewrite Ed, Hs', Est, Hn.
    destruct (md_done family s); [destruct Hf as [-> ->]; by split |].
    destruct Hf as [(-> & p & -> & Hp & Hok) | (-> & -> & Hu & _)]; cbn.
    - split; [done |]. split; [done |]. split; [done |]. left. split; [done |]. exists p. split; [done |].
      split; [done |]. intros Hc. unfold usable. rewrite Ho, Ha. by apply Hok.
    - assert (Hev : family_event family (RecvWaitCompletionEvent family)) by (unfold family_event; auto).
      split; [by constructor; [| constructor] |]. split; [done |]. split; [done |]. left. split; [done |].
      eexists. split; [reflexivity |]. split; [done |]. intros _. unfold usable. by rewrite Ho, Ha. }
  destruct Hmine as [Hl Hok]. destruct (posted_own _ _ Hl) as [Eo En]. split.
  - apply (two_families (fun f => family_ok f s' (posted f (q ++ l))) family); cbv beta; rewrite posted_app.
    + by rewrite Eo.
    + rewrite En, app_nil_r. pose proof (Hfam (other family)) as Hother. by destruct family.
  - cbn [snd]. apply Forall_app. split; [done |]. eapply Forall_impl; [exact Hl |]. intros p ?. by exists family.
Qed.

Lemma bind_family family (s s' : nm_mdns_server) mine an ev sock :
  md_running s = false -> family_ok family s mine -> sock = md_socket family s ->
  ev = OpenedCompletionEvent family ->
  md_socket family s' = exec (np_udp_async_bind_mdns family an ev) sock -> md_done family s' = md_done family s ->
  md_running s' = true -> md_stopped s' = md_stopped s -> is_Some (md_mdnsServer s') ->
  let l := udp_resolved (trace (np_udp_async_bind_mdns family an ev) sock) in
  Forall (fun p => family_event family p.1) l /\ family_ok family s' (mine ++ l).
Proof.
  intros Er [Hab Hf] -> -> Es Ed Er' Est El. cbv zeta. rewrite Er in Hf. destruct Hf as (Hd & -> & Hw).
  destruct (udp_bind_law family an (OpenedCompletionEvent family) (md_socket family s)) as [[Hw' Ha'] [ec [Ht Hopen]]].
  rewrite Ht. assert (Hev : family_event family (OpenedCompletionEvent family)) by (unfold family_event; auto).
  split; [by constructor; [| constructor] |]. unfold family_ok. rewrite Es, Er', Est, Ha'. split; [done |].
  split; [done |]. unfold family_state. rewrite Ed, Hd, Es, Hw'. left. split; [done |].
  eexists. split; [reflexivity |]. split; [done |]. cbn [fst snd]. intros [Hc | Hc]; [left; apply Hopen; by destruct ec |].
  by destruct family.
Qed.

Lemma publish_spec port p d an4 an6 (sys : mdns_system) :
  mdns_inv sys -> exists sys', mdns_step (MdPublish port p d an4 an6) sys = Def sys' /\ mdns_inv sys'.
Proof.
  destruct sys as [s q]. intros [Hfam Hall]. cbn [fst snd] in *. cbn [mdns_step]. unfold post_all, ulift, publish_service.
  cbn [fst snd]. rewrite hget_seq. destruct (md_running s) eqn:Er.
  { unfold hskip, hret. eexists. split; [reflexivity |]. rewrite udp_resolved_nil, app_nil_r. by split. }
  rewrite !hmod_seq. match goal with |- context [hbind _ _ ?x] => set (s1 := x) end.
  unfold hbind, on_socket.
  destruct (np_udp_async_bind_mdns NABTO_IPV4 an4 _ (md_socket NABTO_IPV4 s1)) as [[r4 sock4] t4] eqn:E4.
  set (s2 := set_socket NABTO_IPV4 sock4 s1).
  destruct (np_udp_async_bind_mdns NABTO_IPV6 an6 _ (md_socket NABTO_IPV6 s2)) as [[r6 sock6] t6] eqn:E6.
  set (s3 := set_socket NABTO_IPV6 sock6 s2). eexists. split; [reflexivity |]. rewrite udp_resolved_app.
  destruct (bind_family NABTO_IPV4 s s3 _ an4 _ (md_socketv4 s) Er (Hfam NABTO_IPV4) eq_refl eq_refl) as [A4 B4];
    [exact (eq_sym (f_equal (fun r => r.1.2) E4)) | done.. | by eexists |].
  destruct (bind_family NABTO_IPV6 s s3 _ an6 _ (md_socketv6 s) Er (Hfam NABTO_IPV6) eq_refl eq_refl) as [A6 B6];
    [exact (eq_sym (f_equal (fun r => r.1.2) E6)) | done.. | by eexists |].
  assert (Y4 : trace (np_udp_async_bind_mdns NABTO_IPV4 an4 (OpenedCompletionEvent NABTO_IPV4)) (md_socketv4 s) = t4)
    by exact (f_equal snd E4).
  assert (Y6 : trace (np_udp_async_bind_mdns NABTO_IPV6 an6 (OpenedCompletionEvent NABTO_IPV6)) (md_socketv6 s) = t6)
    by exact (f_equal snd E6).
  rewrite Y4 in *. rewrite Y6 in *. by apply (families_step s).
Qed.

(** The states that are reached, when the system keeps to the size of the array of addresses. *)
Definition input_ok (i : mdns_input) : Prop :=
  match i with MdDeliver _ inp => (length (mi_ips inp) <= MDNS_MAX_LOCAL_IPS)%nat | _ => True end.

Inductive mdns_reachable : mdns_system -> Prop :=
| mdns_start s4 s6 :
    udp_waiting s4 = None -> udp_waiting s6 = None -> udp_aborted s4 = false -> udp_aborted s6 = false ->
    mdns_reachable (nm_mdns_server_init s4 s6, [])
| mdns_next i sys sys' : mdns_reachable sys -> input_ok i -> mdns_step i sys = Def sys' -> mdns_reachable sys'.

Lemma mdns_step_inv i sys :
  mdns_inv sys -> input_ok i -> exists sys', mdns_step i sys = Def sys' /\ mdns_inv sys'.
Proof.
  intros Hinv Hi. destruct i as [port p d an4 an6 | | family | i inp].
  - by apply publish_spec.
  - by apply stop_spec.
  - by apply readable_spec.
  - destruct (sys.2 !! i) as [[ev ec] |] eqn:El.
    + destruct (deliver_spec sys i inp ev ec Hinv El Hi) as (sys' & ? & ? & _). by exists sys'.
    + exists sys. cbn [mdns_step]. by rewrite El.
Qed.

Lemma mdns_reachable_inv sys : mdns_reachable sys -> mdns_inv sys.
Proof.
  induction 1 as [s4 s6 H4 H6 A4 A6 | i sys sys' _ IH Hi Hs].
  - split; [| done]. intros []; by repeat split.
  - destruct (mdns_step_inv i sys IH Hi) as (sys1 & Hs1 & Hinv). congruence.
Qed.

(** C8. The mDNS server with its sockets and the event queue, over any implementation of the
    interface of UDP sockets, whatever the system answers and in whatever order the events are
    delivered. Nothing is undefined: sockets are only waited for when they are open. Each family
    has exactly one operation under way until it is done - so a buffer is not written while it
    is sent - and none before the service is published or after. Once the server is stopped,
    every delivery leaves less to deliver; when nothing is left, both families are done. *)
Theorem mdns_server_contract sys (Hreach : mdns_reachable sys) :
  (forall i, input_ok i -> exists sys', mdns_step i sys = Def sys') /\
  (forall family, length (under_way family sys) =
     if md_running sys.1 && negb (md_done family sys.1) then 1%nat else 0%nat) /\
  (md_stopped sys.1 = true ->
    (forall i inp, input_ok (MdDeliver i inp) -> (i < length sys.2)%nat -> exists sys',
       mdns_step (MdDeliver i inp) sys = Def sys' /\ md_stopped sys'.1 = true /\
       (total_weight sys'.2 < total_weight sys.2)%nat) /\
    (md_running sys.1 = true -> sys.2 = [] -> md_v4Done sys.1 = true /\ md_v6Done sys.1 = true)).
Proof.
  pose proof (mdns_reachable_inv sys Hreach) as Hinv. split_and!.
  - intros i Hi. destruct (mdns_step_inv i sys Hinv Hi) as (sys' & ? & _). by exists sys'.
  - intros family. destruct Hinv as [Hfam _]. destruct (Hfam family) as [_ Hf]. unfold under_way.
    destruct (md_running sys.1); cbn [andb]; [| by destruct Hf as (_ & -> & ->)].
    destruct Hf as [_ Hf]. unfold family_state in Hf. destruct (md_done family sys.1); cbn [negb].
    + by destruct Hf as [-> ->].
    + by destruct Hf as [(-> & p & -> & _) | (-> & -> & _)].
  - intros Hst. split.
    + intros i inp Hi [[ev ec] El]%lookup_lt_is_Some.
      destruct (deliver_spec sys i inp ev ec Hinv El Hi) as (sys' & ? & _ & Hs & Hw). exists sys'.
      split; [done |]. split; [congruence | by apply Hw].
    + intros Hr Hq. destruct Hinv as [Hfam _].
      assert (Hd : forall family, md_done family sys.1 = true).
      { intros family. destruct (Hfam family) as [_ Hf]. rewrite Hr, Hq in Hf. destruct Hf as [_ Hf].
        unfold family_state in Hf. destruct (md_done family sys.1); [done |].
        destruct Hf as [(_ & p & El & _) | (_ & _ & _ & El)]; [done | congruence]. }
      split; [apply (Hd NABTO_IPV4) | apply (Hd NABTO_IPV6)].
Qed.
End Mdns.

(** ** Witness and examples, over the sockets of the select module *)

#[local] Instance example_library : MdnsLibrary unit := {
  nabto_mdns_server_init := fun _ _ _ _ => tt;
  nabto_mdns_server_handle_packet := fun _ _ => (true, tt);
  nabto_mdns_server_build_packet := fun _ _ _ _ => Some [1; 2; 3]
}.

Abbreviation select_system := (mdns_system (S := np_udp_socket) (L := unit)).

Definition example_an (fd : Z) : mdns_answers := mk_ma fd true true true [].
Definition nothing : mdns_in := mk_mi [] None (inr EAGAIN) [] 0.

Definition example_start : select_system := (nm_mdns_server_init udp_socket_new udp_socket_new, []).

(** Some steps in a row. *)
Fixpoint run_steps (steps : list (mdns_input (A := mdns_answers))) (sys : select_system) : cres select_system :=
  match steps with
  | [] => Def sys
  | i :: rest => match mdns_step (E := os_call) i sys with Def sys => run_steps rest sys | UB => UB end
  end.

(** The service is published, and both sockets have sent their first packet and wait. *)
Definition waiting_steps : list (mdns_input (A := mdns_answers)) :=
  [MdPublish 4242 "pr" "de" (example_an 3) (example_an 4);
   MdDeliver 0 nothing; MdDeliver 0 nothing; MdDeliver 0 nothing; MdDeliver 0 nothing].

(** A packet that is gone when it is to be received ends IPv4 for good; IPv6 waits again. *)
Example v4_ends_at_again :
  match run_steps (waiting_steps ++ [MdReadable NABTO_IPV4; MdDeliver 0 nothing;
                                     MdReadable NABTO_IPV6; MdDeliver 0 nothing]) example_start with
  | Def sys => md_v4Done sys.1 = true /\ md_v6Done sys.1 = false /\
               us_recv (md_socketv4 sys.1) = None /\ us_recv (md_socketv6 sys.1) = Some 3%nat
  | UB => False
  end.
Proof. by vm_compute. Qed.

Definition example_published : select_system :=
  match mdns_step (E := os_call) (MdPublish 4242 "pr" "de" (example_an 3) (example_an 4)) example_start with
  | Def sys => sys
  | UB => example_start
  end.

Lemma example_published_reachable : mdns_reachable (E := os_call) (A := mdns_answers) example_published.
Proof.
  apply (mdns_next (MdPublish 4242 "pr" "de" (example_an 3) (example_an 4)) example_start);
    [apply (mdns_start udp_socket_new udp_socket_new); reflexivity | exact I | reflexivity].
Defined.

Lemma mdns_server_contract_witness :
  mdns_reachable (E := os_call) (A := mdns_answers) example_published /\
  length (under_way (E := os_call) (A := mdns_answers) NABTO_IPV6 example_published) = 1%nat.
Proof.
  split; [exact example_published_reachable |].
  destruct (mdns_server_contract (A := mdns_answers) example_published example_published_reachable) as (_ & Hu & _).
  exact (Hu NABTO_IPV6).
Defined.
